(* ===== verification/_CoqProject ===== *)
-Q . S2P
Prelude.v
Keeps.v
PyStr.v
Json.v
JsonProps.v
Primitives.v
Dict.v
Encoding.v
Kdf.v
Aead.v
Padding.v
Identity.v
Prekeys.v
X3dh.v
Ratchet.v
RatchetChain.v
RatchetSession.v
RatchetWorld.v
RatchetSafety.v
Session.v
Protocol.v
RelayUrls.v
Url.v
Backend.v
Transport.v
HttpRelay.v
MultiRelay.v
Discovery.v
Card.v
Attachments.v
DeviceKeys.v
Devices.v
DeviceChannel.v
Sql.v
Db.v
DbProps.v
DbQueue.v
Security.v
RateLimit.v
Config.v
Routers.v
RelayApp.v
RelayAppProps.v
Exchange.v
HttpContract.v
Store.v
StoreProps.v
History.v
HistoryProps.v
HistoryFile.v
ClientState.v
Sync.v
Client.v
ClientProps.v
NetRuns.v
ClientRuns.v
SyncProps.v
QuietOps.v
Receiving.v
AccountProps.v
Delivery.v
FirstContact.v
LocalFiles.v
ClientRelays.v
Settings.v
Worker.v
Views.v
Desktop.v
DesktopProps.v
OverHttp.v
TextOverHttp.v
Registration.v
