(* ===== verification/Prelude.v ===== *)
(** * noknowledge: a verification development

    noknowledge is an end-to-end encrypted messenger without accounts: clients hold keys,
    relays hold sealed blobs, and a message travels from a client through the relays named
    in the recipient's signed card to the recipient's devices.  This library models the
    program under [src/noknowledge] and proves what makes it correct.  Definitions keep the
    names of the source; each file names the module it models.

    ** How the program is modelled

    Python [bytes] are lists of characters ([bytes]), [str] is [string] in UTF-8, a
    dictionary is an association list in insertion order, a JSON value is [json] (without
    floating point numbers).  A call that may raise returns [res]: [Ok] or [Err] with the
    exception class; [except] clauses are the predicates [isa_...].  Code that changes an
    object or a database is a computation in [SE S]: it takes the state and gives a result
    and the state afterwards, also when it fails, as Python does.  Two further errors mark
    the model itself: [OutOfFuel], which no theorem lets through, and [Unmodelled], a
    value the program would treat in a way the model leaves out (a float in a JSON text, a
    value of another type where the client reads back what it stored itself).  No [except]
    clause catches these two.

    Cryptography is the class [Crypto] (X25519, Ed25519, ChaCha20-Poly1305, AES-GCM,
    SHA-256, HMAC, HKDF, PBKDF2) with [CryptoLaws]: lengths, agreement of the two sides, decryption
    inverts encryption and accepts nothing else, signatures verify.  Compression is [Zlib].
    [Toy] in Primitives satisfies them all, so that every theorem with hypotheses has a
    concrete witness.  SQLite tables are lists and finite maps, the network is the class
    [Transport.Net], a client's relays are the class [ClientState.Pool], which
    [ClientState.multi_pool] implements with [MultiRelay]; what lies between a client's
    requests and the relays that serve them ([requests], the network, FastAPI) is the class
    [Exchange.Web], whose law allows requests and answers to be lost.  Random bytes, identifiers, padding
    and the clock are arguments, or streams the client reads in order ([ClientState.Env]).

    ** The files

    - Foundations: Prelude (results, bytes, [SE]), Keeps (computations that keep a
      relation on the state), PyStr and Json (Python strings, [json.dumps]
      and [json.loads]), JsonProps and Dict (printing and reading back), Primitives.
    - [crypto/]: Encoding, Kdf, Aead, Padding, Identity, Prekeys, X3dh, DeviceKeys; Ratchet,
      with its theory in RatchetChain (one chain), RatchetSession (one direction),
      RatchetWorld (two parties and an in-order channel each way, as a step relation),
      RatchetSafety.
    - [wire/]: Protocol, RelayUrls, Url, Backend (capabilities), Transport, HttpRelay,
      MultiRelay, Discovery.
    - [server/]: Sql and Db (tables, each method one transaction), DbProps and DbQueue,
      Security, RateLimit, Config, Routers (every endpoint), RelayApp (the application of
      app.py and __main__.py: requests, housekeeping turns and restarts) and RelayAppProps.
    - Both ends together: Exchange (the routers' table, one request and its answer),
      HttpContract (HttpRelay against RelayApp keeps [MultiRelay.RelayContract]), OverHttp
      (pool to pool), Registration (mailboxes registered over HTTP), TextOverHttp (a text
      from client to client through all of it).
    - [core/]: Session, Card, Attachments, Devices, DeviceChannel; Store with StoreProps;
      History with HistoryProps and HistoryFile; ClientState (the client's record and
      calls), Sync (device sync), Client (everything the user interface calls).
    - Theorems about the client: ClientProps (what every operation keeps), ClientRuns,
      QuietOps and NetRuns (helpers), SyncProps, Receiving, AccountProps; Delivery and FirstContact
      (two clients and a relay between them: a text, and the handshake, arrive).
    - The machine and the desktop: LocalFiles (files, environment, keyring: identity files
      and the key of the store), ClientRelays (the client's constructor and relay
      discovery), and [gui/]: Settings (settings.py, session.py), Worker (worker.py, a
      machine of steps of two threads), Views and Desktop (app.py: what the window shows,
      and its controller), DesktopProps.

    ** What is proved

    Sessions: both sides of the handshake derive one key ([X3dh.x3dh_agreement]).  Two parties
    joined by in-order channels, which neither reorder nor drop nor repeat, may interleave what
    they send and receive in any way and over any number of ratchet steps: the next packet
    always opens to what was sealed ([RatchetWorld.session_delivery]).  Out of order,
    up to [MAX_SKIP] messages of one chain open in any order
    ([RatchetSession.out_of_order_delivery]); across chains this fails, a late message of an
    earlier chain puts the parties out of step ([RatchetSafety.late_message_steps_back]).  A failed decryption restores the state
    ([RatchetSafety.decrypt_rollback]), a step stores a bounded number of keys
    ([RatchetSafety.decrypt_store_bound]); framing, sealing and padding round-trip and accept
    nothing forged (Protocol, Padding).

    The relay: tables stay consistent under every method ([DbProps.relay_invariant]) and over
    the relay's whole life ([RelayAppProps.relay_consistent]), mailboxes refine abstract queues
    ([DbQueue.relay_refines_queue]), a message accepted with a number is given to its reader
    whatever else is asked of the relay ([RelayAppProps.accepted_is_delivered]), one-time
    prekeys are handed out once, no endpoint acts without the mailbox's token
    ([Routers.capability_required]), a refusal has a status of its endpoint, and one the
    protocol lists but for the 409 of an upload ([RelayAppProps.refusals_documented]), the limiter is exactly a sliding window ([RateLimit]).

    The wire: replicated delivery reaches a reader as long as one relay that took the message
    answers, whatever the schedule of the pool (MultiRelay, against the contract of one relay,
    which HttpContract discharges); what one pool reports posted another pool fetches from the
    relays ([OverHttp.posted_is_fetched]); a write to a mailbox its relay reported registered
    never fails for the mailbox or its token ([Registration.registered_accepts]); a fail-closed transport connects
    directly to loopback names and names under [.local] only; discovery adopts checked relays only.

    Documents: cards, device lists, device records, attachments, vaults and history files are
    read back as written, and what is accepted was signed or sealed by its owner.

    The client: its store stays well formed and its caches hold records of its own account
    only, whatever relays, peers and devices answer ([ClientProps.client_invariant]); a first
    message without a valid proof changes nothing ([Receiving.first_message_authentic]); a
    message is stored once, its id looked up among all stored messages of the account
    ([Receiving.message_stored_once]); a one-time prekey starts one
    session ([Receiving.handshake_spends_prekey]); every fetched item is acknowledged, failed
    device records included ([Receiving.sync_acknowledges]); sessions and account survive a restart (AccountProps); a
    back-fill of at least one item is reported complete exactly when it is, an empty one never
    ([SyncProps.transfer_complete_exact]); mirrors reach only devices in the table of approvals,
    which approval records of other devices write to as well ([SyncProps.mirror_only_approved],
    [SyncProps.approval_approves_sender]); history merges
    are joins, idempotent and all or nothing (HistoryProps, HistoryFile).

    Two clients: a text typed at one is stored at the other, between any pools
    ([Delivery.text_delivered]) and over HTTP and the relays' own code
    ([TextOverHttp.text_over_http]), and a handshake is answered with the same session ([FirstContact.handshake_answered]).

    The desktop: settings and identities are read back as saved, with a proxy or "fail closed"
    every request goes through the proxy, or to a loopback name or a name under [.local]
    ([Settings.traffic_confined]), a restart opens the same database with the
    same key ([Settings.restart_finds_history]).  In every interleaving of its two threads
    the worker runs commands in order, each once, and loses no wake-up, and none of its tasks
    until it is told to stop ([Worker.worker_stuck_idle]); told to stop, it ends
    ([Worker.stop_ends_worker]), and may leave tasks in its queue ([Worker.stop_drops_task]);
    a text typed into the window is what the worker sends ([DesktopProps.typed_text_is_sent]).
    A window is a state machine of clicks, dialogs, signals and steps of the
    worker: it shows the main screen exactly while a client runs and nothing of the account
    otherwise ([DesktopProps.window_and_worker]); as long as no handler raises, the client stays
    the account's ([DesktopProps.session_keeps_account]); locking ends the session in the
    window and keeps its store, while a thread that is not over within three seconds is left
    behind with the client and its keys ([DesktopProps.lock_ends_session],
    [DesktopProps.Window.lock_leaves_thread]); unlocking brings the session back
    ([DesktopProps.unlock_reopens]); no message brings markup into the chat (Views).

    Some lemmas show behaviour the comments or documents of the program do not: their
    comments say so, for example [RatchetSafety.late_message_steps_back],
    [Discovery.hostile_answer_aborts], [StoreProps.receipt_wildcard_clears],
    [DeviceChannel.kind_not_authenticated], [SyncProps.empty_transfer_incomplete],
    [LocalFiles.keyring_key_abandoned], [Worker.stop_drops_task], [RelayAppProps.Sample.upload_conflict],
    [Settings.lan_host_direct], [DesktopProps.Window.lock_leaves_thread], [Views.state_markup_shown],
    [RelayAppProps.reading_does_not_keep], [RelayAppProps.blob_ttl_without_effect].

    ** Fuel and bounds

    Loops of the source that do not follow a list run on fuel computed from their input:
    JSON reading on twice the length of the text, skipping keys on the number of keys to
    skip (at most [MAX_SKIP]), pruning on the number of rows, retries on the configured
    count, lines of a text on its length.  That it is enough is part of the theorems:
    [RatchetSafety.decrypt_rollback] (never [OutOfFuel]), [StoreProps.prune_bounds] (the
    loop ends below the cap), the reading lemmas of JsonProps ([need_dumps]),
    [Worker.stop_ends_worker] (the thread is over).  The steps a thread gets done while the
    window waits for its end are no fuel: they are any number, an argument of the handler
    ([Desktop.Wait]), and [DesktopProps.lock_ends_session] says what follows from it.

    ** Not modelled

    PyQt5 itself: widgets, layout, style, the clipboard, timers other than the worker's; a
    handler of the window is one step, and [send_file] reads its file first.  The build and
    demonstration scripts and the launchers, which only call what is modelled.  FastAPI's
    parsing of requests, uvicorn and argparse; SQLite's locking, schema creation and files;
    HTTP itself beyond what [Exchange.Web] says of it (a client receives the status, the JSON
    value or the bytes a relay answered, and no one else acts on the relays during its call); file permissions, closing of connections.  Relay handlers and housekeeping turns run one at a time, each database
    method is one transaction, and the calls of the client's thread pool are a schedule of
    whole calls.  Messages of exceptions are dropped. *)

From Stdlib Require Export ZArith Lia Ascii String List.
From stdpp Require Export base list strings gmap sorting pretty.
Export ListNotations.

#[global] Open Scope Z_scope.
#[global] Open Scope list_scope.
#[global] Open Scope stdpp_scope.

(** ** Exceptions and results *)

(** The exception classes the program raises or catches.  Messages are dropped;
    an HTTP error keeps its status. *)
Inductive exn :=
| KeyError | TypeError | ValueError | IndexError | AttributeError | OverflowError
| UnicodeError | BinasciiError | JSONDecodeError | ZlibError
| IntegrityError | SqlInterfaceError | OSError | AssertionError
| AEADError | PaddingError | PrekeyError | HandshakeError | IdentityError
| DeviceKeyError | RatchetError | DuplicateMessage | SkippedTooFar
| CardError | AttachmentError | DeviceListError | SyncError | HistoryError
| WireError | TransportError | AllRelaysFailed
| RelayHTTPError (status : Z) | RelayNotFound (status : Z)
| RelayUnauthorized (status : Z) | RelayQuotaExceeded (status : Z)
| MailboxNotFound | BundleNotFound | BlobNotFound | QuotaExceeded
| ClientError | NotProvisioned | UnknownContact
| HTTPException (status : Z)
| RequestsConnectionError | RequestsTimeout
| OutOfFuel
| Unmodelled.

#[export] Instance exn_eq_dec : EqDecision exn.
Proof. solve_decision. Defined.

Inductive res (A : Type) :=
| Ok (a : A)
| Err (e : exn).
Arguments Ok {A} a.
Arguments Err {A} e.

#[export] Instance res_eq_dec `{EqDecision A} : EqDecision (res A).
Proof. solve_decision. Defined.

Definition res_bind {A B} (m : res A) (f : A → res B) : res B :=
  match m with Ok a => f a | Err e => Err e end.

(** [let? x := m in k] runs [m]; an exception skips [k]. *)
Notation "'let?' x ':=' m 'in' k" := (res_bind m (fun x => k))
  (at level 10, x pattern, m at level 100, k at level 200).

(** [guard_or e b k]: [if not b: raise e]. *)
Notation "'raise_if' b 'with' e ';;' k" := (if b then Err e else k)
  (at level 10, b at level 99, e at level 99, k at level 200).

(** [try m except P => e']: an exception of class [P] is replaced by [e'],
    any other passes through. *)
Definition except {A} (P : exn → bool) (e' : exn) (m : res A) : res A :=
  match m with
  | Ok a => Ok a
  | Err e => if P e then Err e' else Err e
  end.

Definition of_option {A} (e : exn) (o : option A) : res A :=
  match o with Some a => Ok a | None => Err e end.

Definition ok_or_none {A} (m : res A) : option A :=
  match m with Ok a => Some a | Err _ => None end.

Fixpoint mapM {A B} (f : A → res B) (l : list A) : res (list B) :=
  match l with
  | [] => Ok []
  | x :: l' => let? y := f x in let? ys := mapM f l' in Ok (y :: ys)
  end.

(** Python's class hierarchy, as far as the [except] clauses use it. *)
Definition isa_ValueError (e : exn) : bool :=
  match e with
  | ValueError | UnicodeError | BinasciiError | JSONDecodeError => true
  | _ => false
  end.
Definition isa_UnicodeError (e : exn) : bool :=
  match e with UnicodeError => true | _ => false end.
Definition isa_KTV (e : exn) : bool :=   (* except (KeyError, TypeError, ValueError) *)
  match e with KeyError | TypeError => true | _ => isa_ValueError e end.
Definition isa_RatchetError (e : exn) : bool :=
  match e with RatchetError | DuplicateMessage | SkippedTooFar => true | _ => false end.
Definition isa_RelayHTTPError (e : exn) : bool :=
  match e with
  | RelayHTTPError _ | RelayNotFound _ | RelayUnauthorized _ | RelayQuotaExceeded _ => true
  | _ => false
  end.
Definition isa_WireError (e : exn) : bool :=
  match e with
  | WireError | TransportError | AllRelaysFailed => true
  | _ => isa_RelayHTTPError e
  end.
(** [except Exception] catches every modelled class; the two markers of the
    model itself are never swallowed. *)
Definition isa_Exception (e : exn) : bool :=
  match e with OutOfFuel | Unmodelled => false | _ => true end.
Definition isa (e0 e : exn) : bool := bool_decide (e = e0).

Lemma res_bind_Ok {A B} (m : res A) (f : A → res B) b :
  res_bind m f = Ok b → ∃ a, m = Ok a ∧ f a = Ok b.
Proof. destruct m; simpl; [eauto | done]. Qed.

Lemma res_bind_Err {A B} (m : res A) (f : A → res B) e :
  res_bind m f = Err e → m = Err e ∨ ∃ a, m = Ok a ∧ f a = Err e.
Proof. destruct m; simpl; naive_solver. Qed.

Lemma except_Ok {A} P e' (m : res A) a : except P e' m = Ok a → m = Ok a.
Proof. destruct m; simpl; [done | by case_match]. Qed.

Lemma of_option_Ok {A} e (o : option A) a : of_option e o = Ok a → o = Some a.
Proof. by destruct o; simpl; intros; simplify_eq. Qed.

(** The value of a successful run, when evaluation says it is one. *)
Definition ok_or {A} (d : A) (m : res A) : A := match m with Ok a => a | Err _ => d end.
Definition succeeds {A} (m : res A) : bool := match m with Ok _ => true | Err _ => false end.
Lemma ok_or_eq {A} (d : A) (m : res A) : succeeds m = true → m = Ok (ok_or d m).
Proof. by destruct m. Qed.

Lemma mapM_Ok {A B} (f : A → res B) l ys :
  mapM f l = Ok ys ↔ Forall2 (λ x y, f x = Ok y) l ys.
Proof.
  revert ys. induction l as [|x l IH]; intros ys; simpl.
  - split; [by intros [= <-] | by inversion 1].
  - split.
    + intros (y & Hy & (ys' & Hys & [= <-])%res_bind_Ok)%res_bind_Ok.
      constructor; [done | by apply IH].
    + inversion 1 as [|? y ? ys' Hy Hys]; subst. rewrite Hy. simpl.
      by apply IH in Hys as ->.
Qed.

Lemma mapM_length {A B} (f : A → res B) l ys : mapM f l = Ok ys → length ys = length l.
Proof. intros H%mapM_Ok. symmetry. by eapply Forall2_length. Qed.

Lemma mapM_fmap_id {A B} (f : A → res B) (g : B → A) ys :
  (∀ y, y ∈ ys → f (g y) = Ok y) → mapM f (map g ys) = Ok ys.
Proof.
  induction ys as [|y ys IH]; intros Hfg; [done|]. simpl.
  rewrite Hfg by set_solver. simpl. rewrite IH by set_solver. done.
Qed.

(** [rinv H] unfolds a successful run into the successes of its steps. *)
Ltac rinv H :=
  repeat match type of H with
  | res_bind _ _ = Ok _ =>
      let a := fresh "a" in let Ha := fresh "Ha" in
      apply res_bind_Ok in H as (a & Ha & H); try rinv Ha
  | except _ _ _ = Ok _ => apply except_Ok in H
  | of_option _ _ = Ok _ => apply of_option_Ok in H
  | (if ?b then Err _ else _) = Ok _ =>
      let E := fresh "E" in destruct b eqn:E; [discriminate H|]
  | (if ?b then _ else Err _) = Ok _ =>
      let E := fresh "E" in destruct b eqn:E; [|discriminate H]
  | Ok _ = Ok _ => injection H as H
  end.

Create HintDb nk.

(** ** Bytes *)

(** Python [bytes] are lists of 8-bit characters; Python [str] is [string],
    the UTF-8 form of the text. *)
Abbreviation bytes := (list ascii).

Definition byte_val (c : ascii) : Z := Z.of_N (N_of_ascii c).
Definition byte_of (z : Z) : ascii := ascii_of_N (Z.to_N (z mod 256)).

Definition blen (b : bytes) : Z := Z.of_nat (length b).

(** [s.encode("ascii"/"utf-8")] of a literal, and back. *)
Abbreviation bs := list_ascii_of_string.
Abbreviation to_str := string_of_list_ascii.

Lemma byte_val_range c : 0 ≤ byte_val c < 256.
Proof. unfold byte_val. pose proof (N_ascii_bounded c). lia. Qed.

Lemma byte_of_val c : byte_of (byte_val c) = c.
Proof.
  unfold byte_of. rewrite Z.mod_small by apply byte_val_range.
  unfold byte_val. rewrite N2Z.id. apply ascii_N_embedding.
Qed.

Lemma byte_val_of z : byte_val (byte_of z) = z mod 256.
Proof.
  unfold byte_of, byte_val. pose proof (Z.mod_pos_bound z 256 eq_refl).
  rewrite N_ascii_embedding by lia. lia.
Qed.

Lemma byte_val_inj c d : byte_val c = byte_val d → c = d.
Proof. intros H. by rewrite <-(byte_of_val c), <-(byte_of_val d), H. Qed.

Lemma bs_to_str b : bs (to_str b) = b.
Proof. apply list_ascii_of_string_of_list_ascii. Qed.
Lemma to_str_bs s : to_str (bs s) = s.
Proof. apply string_of_list_ascii_of_string. Qed.
Lemma bs_inj s t : bs s = bs t → s = t.
Proof. intros H. by rewrite <-(to_str_bs s), <-(to_str_bs t), H. Qed.

Lemma bs_app s t : bs (s +:+ t) = bs s ++ bs t.
Proof. induction s as [|c s IH]; [done|]. simpl. f_equal. exact IH. Qed.

#[export] Hint Rewrite bs_to_str to_str_bs byte_of_val byte_val_of bs_app : nk.

(** [int.to_bytes(n, "big")] and [int.from_bytes(b, "big")]. *)
Fixpoint from_be_acc (acc : Z) (b : bytes) : Z :=
  match b with [] => acc | c :: b' => from_be_acc (acc * 256 + byte_val c) b' end.
Definition from_be (b : bytes) : Z := from_be_acc 0 b.

Fixpoint to_be_raw (n : nat) (z : Z) : bytes :=
  match n with
  | O => []
  | S n' => to_be_raw n' (z / 256) ++ [byte_of z]
  end.
(** [int.to_bytes] raises [OverflowError] when the value does not fit. *)
Definition to_be (n : nat) (z : Z) : res bytes :=
  if (0 <=? z) && (z <? 256 ^ Z.of_nat n) then Ok (to_be_raw n z) else Err OverflowError.

Lemma from_be_acc_app acc a b :
  from_be_acc acc (a ++ b) = from_be_acc (from_be_acc acc a) b.
Proof. revert acc. induction a; intros; simpl; auto. Qed.

Lemma from_be_snoc a c : from_be (a ++ [c]) = from_be a * 256 + byte_val c.
Proof. unfold from_be. by rewrite from_be_acc_app. Qed.

Lemma to_be_raw_length n z : length (to_be_raw n z) = n.
Proof.
  revert z. induction n as [|n IH]; intros z; simpl; [done|].
  rewrite length_app, IH. simpl. lia.
Qed.

Lemma from_be_to_be_raw n z : 0 ≤ z < 256 ^ Z.of_nat n → from_be (to_be_raw n z) = z.
Proof.
  revert z. induction n as [|n IH]; intros z Hz; simpl.
  - change (256 ^ Z.of_nat 0) with 1 in Hz. unfold from_be. simpl. lia.
  - rewrite Nat2Z.inj_succ, Z.pow_succ_r in Hz by lia.
    rewrite from_be_snoc, byte_val_of, IH.
    + pose proof (Z.div_mod z 256). lia.
    + split; [apply Z.div_pos; lia | apply Z.div_lt_upper_bound; lia].
Qed.

Lemma from_be_nonneg b : 0 ≤ from_be b.
Proof.
  induction b as [|c b IH] using rev_ind; [done|].
  rewrite from_be_snoc. pose proof (byte_val_range c). lia.
Qed.

Lemma from_be_bound b : from_be b < 256 ^ blen b.
Proof.
  induction b as [|c b IH] using rev_ind; [done|].
  rewrite from_be_snoc. unfold blen in *. rewrite length_app. simpl.
  replace (Z.of_nat (length b + 1)) with (Z.succ (Z.of_nat (length b))) by lia.
  rewrite Z.pow_succ_r by lia. pose proof (byte_val_range c). lia.
Qed.

Lemma to_be_raw_from_be b : to_be_raw (length b) (from_be b) = b.
Proof.
  induction b as [|c b IH] using rev_ind; [done|].
  rewrite length_app, Nat.add_1_r. simpl. rewrite from_be_snoc.
  pose proof (byte_val_range c).
  replace ((from_be b * 256 + byte_val c) / 256) with (from_be b).
  2:{ rewrite Z.div_add_l by lia. rewrite (Z.div_small (byte_val c)); lia. }
  rewrite IH. f_equal. f_equal. apply byte_val_inj. rewrite byte_val_of.
  rewrite Z.add_comm, Z.mod_add by lia. apply Z.mod_small. lia.
Qed.

Lemma to_be_Ok n z b : to_be n z = Ok b → 0 ≤ z < 256 ^ Z.of_nat n ∧ b = to_be_raw n z.
Proof.
  unfold to_be. case_match eqn:E; [|done]. intros [= <-].
  apply andb_true_iff in E as [?%Z.leb_le ?%Z.ltb_lt]. done.
Qed.

Lemma to_be_inj n z z' b : to_be n z = Ok b → to_be n z' = Ok b → z = z'.
Proof.
  intros [H1 ->]%to_be_Ok [H2 E]%to_be_Ok.
  rewrite <-(from_be_to_be_raw n z), <-(from_be_to_be_raw n z') by done. congruence.
Qed.

(** Fixed-length prefixes split uniquely: what makes [a + b + c] of fixed-size
    fields unambiguous. *)
Lemma app_inj_len {A} (a a' b b' : list A) :
  length a = length a' → a ++ b = a' ++ b' → a = a' ∧ b = b'.
Proof. apply app_inj_1. Qed.

(** ** Stateful fallible code

    [SE S A]: a computation on a mutable state [S].  An exception keeps the
    mutations made before it, as in Python. *)
Definition SE (S A : Type) : Type := S → res A * S.
Definition se_ret {S A} (a : A) : SE S A := λ s, (Ok a, s).
Definition se_raise {S A} (e : exn) : SE S A := λ s, (Err e, s).
Definition se_lift {S A} (m : res A) : SE S A := λ s, (m, s).
Definition se_get {S} : SE S S := λ s, (Ok s, s).
Definition se_put {S} (s' : S) : SE S unit := λ _, (Ok tt, s').
Definition se_bind {S A B} (m : SE S A) (f : A → SE S B) : SE S B := λ s,
  match m s with
  | (Ok a, s') => f a s'
  | (Err e, s') => (Err e, s')
  end.
Notation "'do!' x ':=' m 'in' k" := (se_bind m (fun x => k))
  (at level 10, x pattern, m at level 100, k at level 200).
Definition se_modify {S} (f : S → S) : SE S unit := λ s, (Ok tt, f s).
(** [if b: raise e]. *)
Definition se_check {S} (b : bool) (e : exn) : SE S unit := if b then se_raise e else se_ret tt.

Lemma se_bind_Ok {S A B} (m : SE S A) (f : A → SE S B) s b s'' :
  se_bind m f s = (Ok b, s'') → ∃ a s', m s = (Ok a, s') ∧ f a s' = (Ok b, s'').
Proof. unfold se_bind. destruct (m s) as [[a|e] s']; [eauto|done]. Qed.

(** How a bind ends: in its first half, or in the second one. *)
Lemma se_bind_inv {S A B} (m : SE S A) (f : A → SE S B) s r s' :
  se_bind m f s = (r, s') →
  (∃ e, m s = (Err e, s') ∧ r = Err e) ∨ ∃ a s1, m s = (Ok a, s1) ∧ f a s1 = (r, s').
Proof. unfold se_bind. destruct (m s) as [[a|e] s1]; [eauto|]. intros [= <- <-]. left. by eexists. Qed.

(** [try: m; except P: raise e'] *)
Definition se_except {S A} (P : exn → bool) (e' : exn) (m : SE S A) : SE S A := λ s,
  match m s with
  | (Ok a, s') => (Ok a, s')
  | (Err e, s') => (Err (if P e then e' else e), s')
  end.
(** [try: m; except Exception: pass] *)
Definition se_try {S} (m : SE S unit) : SE S unit := λ s,
  match m s with
  | (Ok _, s') => (Ok tt, s')
  | (Err e, s') => (if isa_Exception e then Ok tt else Err e, s')
  end.
(** [try: return m; except P: return d] *)
Definition se_catch {S A} (P : exn → bool) (d : A) (m : SE S A) : SE S A := λ s,
  match m s with
  | (Ok a, s') => (Ok a, s')
  | (Err e, s') => (if P e then Ok d else Err e, s')
  end.
(** [assert x is not None] *)
Definition se_some {S A} (o : option A) : SE S A := se_lift (of_option AssertionError o).
