(* ===== verification/Keeps.v ===== *)
(** * Computations that keep a relation

    [keeps R m]: whatever [m] does, and whether or not it fails, it relates the state
    before to the state after by the preorder [R].  The rules go through the operations
    of the monad; [keeping] applies them and the lemmas of the hint database [keeps]. *)

From S2P Require Import Prelude.

Section keeps.
Context {S : Type} (R : S → S → Prop) `{!PreOrder R}.
Definition keeps {A} (m : SE S A) : Prop := ∀ s, R s (m s).2.

Lemma keeps_ret {A} (a : A) : keeps (se_ret a).
Proof using PreOrder0. intros s. reflexivity. Qed.
Lemma keeps_raise {A} e : keeps (se_raise (A:=A) e).
Proof using PreOrder0. intros s. reflexivity. Qed.
Lemma keeps_lift {A} (m : res A) : keeps (se_lift m).
Proof using PreOrder0. intros s. reflexivity. Qed.
Lemma keeps_get : keeps se_get.
Proof using PreOrder0. intros s. reflexivity. Qed.
Lemma keeps_some {A} (o : option A) : keeps (se_some o).
Proof using PreOrder0. apply keeps_lift. Qed.
Lemma keeps_check b e : keeps (se_check b e).
Proof using PreOrder0. unfold se_check. destruct b; [apply keeps_raise|apply keeps_ret]. Qed.
Lemma keeps_modify f : (∀ s, R s (f s)) → keeps (se_modify f).
Proof using. intros H s. apply H. Qed.
Lemma keeps_bind {A B} (m : SE S A) (f : A → SE S B) : keeps m → (∀ a, keeps (f a)) → keeps (se_bind m f).
Proof using PreOrder0.
  intros Hm Hf s. unfold se_bind. specialize (Hm s). destruct (m s) as [[a|e] s']; [|done]. etrans; [done|]. apply Hf.
Qed.
Lemma keeps_get_bind {B} (f : S → SE S B) : (∀ s, R s (f s s).2) → keeps (se_bind se_get f).
Proof using. intros H s. apply H. Qed.
Lemma keeps_try (m : SE S unit) : keeps m → keeps (se_try m).
Proof using. intros Hm s. specialize (Hm s). unfold se_try. by destruct (m s) as [[]]. Qed.
Lemma keeps_catch {A} p (d : A) (m : SE S A) : keeps m → keeps (se_catch p d m).
Proof using. intros Hm s. specialize (Hm s). unfold se_catch. by destruct (m s) as [[]]. Qed.
Lemma keeps_except {A} p e (m : SE S A) : keeps m → keeps (se_except p e m).
Proof using. intros Hm s. specialize (Hm s). unfold se_except. by destruct (m s) as [[]]. Qed.
End keeps.

(** [keeping]: go through a computation step by step; lemmas on its parts come from the
    hint database [keeps]. *)
Create HintDb keeps.
#[export] Hint Resolve keeps_ret keeps_raise keeps_lift keeps_get keeps_check keeps_some : keeps.
Ltac keeping :=
  repeat first
    [ solve [auto 2 with keeps typeclass_instances]
    | apply keeps_bind; [apply _| |intros ?]
    | apply keeps_try | apply keeps_catch | apply keeps_except
    | match goal with |- context [match ?x with _ => _ end] => destruct x end ].
