(* ===== verification/PyStr.v ===== *)
(** * Python strings and decimal integers

    The operations of Python's [str] and [int] the program uses, on the UTF-8
    form of a string: [strip], [rstrip(chars)], [startswith], [endswith],
    [replace], [partition], [split], [upper]/[lower] on ASCII text, [int(text)],
    [str(int)] and UTF-8 validation.  Where a rule depends on the Unicode tables
    beyond the white space characters, non-ASCII input gives [Unmodelled]. *)

From S2P Require Import Prelude.

Definition code (c : ascii) : Z := byte_val c.
Definition is_ascii (c : ascii) : bool := code c <? 128.
Definition is_digit (c : ascii) : bool := (48 <=? code c) && (code c <=? 57).
Definition digit_val (c : ascii) : Z := code c - 48.
Definition digit (d : Z) : ascii := byte_of (48 + d).

(** ** White space ([str.isspace] characters, by the length of their encoding) *)

Definition ws1 (a : ascii) : bool :=
  let x := code a in
  ((9 <=? x) && (x <=? 13)) || ((28 <=? x) && (x <=? 32)).
Definition ws2 (a b : ascii) : bool :=
  (code a =? 0xC2) && ((code b =? 0x85) || (code b =? 0xA0)).
Definition ws3 (a b c : ascii) : bool :=
  let x := code a in let y := code b in let z := code c in
  ((x =? 0xE1) && (y =? 0x9A) && (z =? 0x80)) ||
  ((x =? 0xE2) && (y =? 0x80) &&
     (((0x80 <=? z) && (z <=? 0x8A)) || (z =? 0xA8) || (z =? 0xA9) || (z =? 0xAF))) ||
  ((x =? 0xE2) && (y =? 0x81) && (z =? 0x9F)) ||
  ((x =? 0xE3) && (y =? 0x80) && (z =? 0x80)).

Fixpoint lstrip_b (l : bytes) : bytes :=
  match l with
  | a :: l1 =>
      if ws1 a then lstrip_b l1 else
      match l1 with
      | b :: l2 =>
          if ws2 a b then lstrip_b l2 else
          match l2 with
          | c :: l3 => if ws3 a b c then lstrip_b l3 else l
          | [] => l
          end
      | [] => l
      end
  | [] => []
  end.

(** The same from the right, on the reversed text. *)
Fixpoint lstrip_rev (l : bytes) : bytes :=
  match l with
  | a :: l1 =>
      if ws1 a then lstrip_rev l1 else
      match l1 with
      | b :: l2 =>
          if ws2 b a then lstrip_rev l2 else
          match l2 with
          | c :: l3 => if ws3 c b a then lstrip_rev l3 else l
          | [] => l
          end
      | [] => l
      end
  | [] => []
  end.
Definition rstrip_b (l : bytes) : bytes := rev (lstrip_rev (rev l)).
Definition strip_b (l : bytes) : bytes := rstrip_b (lstrip_b l).
Definition py_strip (s : string) : string := to_str (strip_b (bs s)).

(** [b.rstrip(chars)] for one-byte characters. *)
Fixpoint drop_while (P : ascii → bool) (l : bytes) : bytes :=
  match l with
  | [] => []
  | c :: l' => if P c then drop_while P l' else l
  end.
Definition rstrip_chars (P : ascii → bool) (l : bytes) : bytes := rev (drop_while P (rev l)).
Definition rstrip_char (c : ascii) (s : string) : string :=
  to_str (rstrip_chars (λ d, bool_decide (d = c)) (bs s)).
Definition strip_chars (P : ascii → bool) (l : bytes) : bytes :=
  rstrip_chars P (drop_while P l).

(** ** Prefixes, suffixes, cutting *)

Fixpoint prefix_b (p l : bytes) : bool :=
  match p, l with
  | [], _ => true
  | a :: p', b :: l' => bool_decide (a = b) && prefix_b p' l'
  | _ :: _, [] => false
  end.
Definition startswith (s p : string) : bool := prefix_b (bs p) (bs s).
Definition endswith (s p : string) : bool := prefix_b (rev (bs p)) (rev (bs s)).

Fixpoint partition_b (c : ascii) (l : bytes) : option (bytes * bytes) :=
  match l with
  | [] => None
  | d :: l' =>
      if bool_decide (d = c) then Some ([], l')
      else match partition_b c l' with
           | Some (a, b) => Some (d :: a, b)
           | None => None
           end
  end.

Fixpoint split_b (c : ascii) (cur : bytes) (l : bytes) : list bytes :=
  match l with
  | [] => [rev cur]
  | d :: l' =>
      if bool_decide (d = c) then rev cur :: split_b c [] l'
      else split_b c (d :: cur) l'
  end.
Definition py_split (c : ascii) (s : string) : list string :=
  map (λ b, to_str b) (split_b c [] (bs s)).

Fixpoint join (sep : bytes) (l : list bytes) : bytes :=
  match l with
  | [] => []
  | [x] => x
  | x :: l' => x ++ sep ++ join sep l'
  end.

Definition ascii_lower_c (c : ascii) : ascii :=
  if (65 <=? code c) && (code c <=? 90) then byte_of (code c + 32) else c.
Definition ascii_upper_c (c : ascii) : ascii :=
  if (97 <=? code c) && (code c <=? 122) then byte_of (code c - 32) else c.
Definition all_ascii (l : bytes) : bool := forallb is_ascii l.
Definition ascii_lower (l : bytes) : bytes := map ascii_lower_c l.

(** ** UTF-8 *)

Definition cont (c : ascii) : bool := (0x80 <=? code c) && (code c <=? 0xBF).

(** Well-formed UTF-8 as [bytes.decode("utf-8")] accepts it: shortest forms,
    no surrogates, nothing above U+10FFFF. *)
Fixpoint utf8_ok (l : bytes) : bool :=
  match l with
  | [] => true
  | a :: l1 =>
      let x := code a in
      if x <? 0x80 then utf8_ok l1 else
      match l1 with
      | [] => false
      | b :: l2 =>
          let y := code b in
          if (0xC2 <=? x) && (x <=? 0xDF) then cont b && utf8_ok l2 else
          match l2 with
          | [] => false
          | c :: l3 =>
              if (0xE0 <=? x) && (x <=? 0xEF) then
                cont b && cont c
                && negb ((x =? 0xE0) && (y <? 0xA0))
                && negb ((x =? 0xED) && (0x9F <? y))
                && utf8_ok l3
              else
              match l3 with
              | [] => false
              | d :: l4 =>
                  if (0xF0 <=? x) && (x <=? 0xF4) then
                    cont b && cont c && cont d
                    && negb ((x =? 0xF0) && (y <? 0x90))
                    && negb ((x =? 0xF4) && (0x8F <? y))
                    && utf8_ok l4
                  else false
              end
          end
      end
  end.

Definition decode_utf8 (b : bytes) : res string :=
  if utf8_ok b then Ok (to_str b) else Err UnicodeError.
Definition encode_ascii (s : string) : res bytes :=
  if all_ascii (bs s) then Ok (bs s) else Err UnicodeError.

Lemma utf8_ok_ascii l : all_ascii l = true → utf8_ok l = true.
Proof.
  induction l as [|a l IH]; [done|]. simpl.
  intros [Ha Hl]%andb_true_iff. unfold is_ascii in Ha. unfold code in *. rewrite Ha. auto.
Qed.

Lemma utf8_ok_app_ascii a l : all_ascii a = true → utf8_ok (a ++ l) = utf8_ok l.
Proof.
  induction a as [|x a IH]; [done|]. simpl. intros [Hx Ha]%andb_true_iff.
  unfold is_ascii, code in *. rewrite Hx. auto.
Qed.

(** ** Decimal integers *)

Fixpoint digits_go (fuel : nat) (n : Z) (acc : bytes) : bytes :=
  match fuel with
  | O => acc
  | S f => let acc' := digit (n mod 10) :: acc in
           if n / 10 =? 0 then acc' else digits_go f (n / 10) acc'
  end.
(** The digits of a natural number, most significant first. *)
Definition nat_digits (n : Z) : bytes := digits_go (S (Z.to_nat (Z.log2 n))) n [].
(** [str(n)]. *)
Definition int_b (n : Z) : bytes :=
  if n <? 0 then "-"%char :: nat_digits (- n) else nat_digits n.
Definition int_str (n : Z) : string := to_str (int_b n).

Fixpoint digits_val (acc : Z) (l : bytes) : Z :=
  match l with [] => acc | c :: l' => digits_val (acc * 10 + digit_val c) l' end.

(** The longest prefix of digits and what follows. *)
Fixpoint span_digits (l : bytes) : bytes * bytes :=
  match l with
  | c :: l' => if is_digit c then let '(ds, r) := span_digits l' in (c :: ds, r) else ([], l)
  | [] => ([], [])
  end.

(** Digits of [int(text)]: single underscores may separate them. *)
Fixpoint int_digits (prev_digit : bool) (acc : Z) (l : bytes) : res Z :=
  match l with
  | [] => if prev_digit then Ok acc else Err ValueError
  | c :: l' =>
      if is_digit c then int_digits true (acc * 10 + digit_val c) l'
      else if bool_decide (c = "_"%char) && prev_digit then
        match l' with
        | d :: _ => if is_digit d then int_digits false acc l' else Err ValueError
        | [] => Err ValueError
        end
      else Err ValueError
  end.

(** [int(text)] for base ten. *)
Definition py_int (s : string) : res Z :=
  let l := strip_b (bs s) in
  if negb (all_ascii l) then Err Unmodelled else
  match l with
  | c :: l' =>
      if bool_decide (c = "-"%char) then let? n := int_digits false 0 l' in Ok (- n)
      else if bool_decide (c = "+"%char) then int_digits false 0 l'
      else int_digits false 0 l
  | [] => Err ValueError
  end.

Lemma digit_code d : 0 ≤ d < 10 → code (digit d) = 48 + d.
Proof. intros. unfold digit, code. rewrite byte_val_of, Z.mod_small; lia. Qed.

Lemma digit_spec d : 0 ≤ d < 10 → is_digit (digit d) = true ∧ digit_val (digit d) = d.
Proof. intros. unfold is_digit, digit_val. rewrite digit_code by done. lia. Qed.

Lemma digits_val_app acc a b : digits_val acc (a ++ b) = digits_val (digits_val acc a) b.
Proof. revert acc. induction a; intros; simpl; auto. Qed.

Definition all_digits (l : bytes) : bool := forallb is_digit l.

(** What [digits_go] returns, when the fuel covers the number. *)
Lemma digits_go_spec fuel n acc :
  0 ≤ n < 2 ^ Z.of_nat fuel → (0 < fuel)%nat →
  ∃ ds, digits_go fuel n acc = ds ++ acc ∧ ds ≠ [] ∧ all_digits ds = true ∧
        digits_val 0 ds = n ∧ (0 < n → head ds ≠ Some (digit 0)).
Proof.
  revert n acc. induction fuel as [|f IH]; intros n acc Hn Hf; [lia|]. simpl.
  pose proof (Z.mod_pos_bound n 10 eq_refl) as Hm.
  pose proof (Z.div_mod n 10 ltac:(lia)) as Hdm.
  destruct (digit_spec (n mod 10) Hm) as [Hd1 Hd2].
  destruct (Z.eqb_spec (n / 10) 0) as [E|E].
  - exists [digit (n mod 10)]. unfold all_digits. simpl. rewrite Hd1, Hd2.
    split_and!; [done | done | done | lia |].
    intros Hpos [= Heq]. apply (f_equal digit_val) in Heq.
    rewrite Hd2, (proj2 (digit_spec 0 ltac:(lia))) in Heq. lia.
  - rewrite Nat2Z.inj_succ, Z.pow_succ_r in Hn by lia.
    assert (0 < n / 10) by (pose proof (Z.div_pos n 10); lia).
    destruct (IH (n / 10) (digit (n mod 10) :: acc)) as (ds & E1 & Hne & Hall & Hval & Hhd).
    { split; [lia|]. apply Z.div_lt_upper_bound; lia. }
    { destruct f; [|lia]. change (2 ^ Z.of_nat 0) with 1 in Hn.
      assert (n / 10 < 1) by (apply Z.div_lt_upper_bound; lia). lia. }
    exists (ds ++ [digit (n mod 10)]). rewrite E1, <-app_assoc. split_and!; [done|..].
    + by destruct ds.
    + unfold all_digits in *. rewrite forallb_app, Hall. simpl. by rewrite Hd1.
    + rewrite digits_val_app, Hval. simpl. rewrite Hd2. lia.
    + intros _. destruct ds; [done|]. simpl. by apply Hhd.
Qed.

Lemma nat_digits_spec n :
  0 ≤ n →
  nat_digits n ≠ [] ∧ all_digits (nat_digits n) = true ∧ digits_val 0 (nat_digits n) = n ∧
  (0 < n → head (nat_digits n) ≠ Some (digit 0)).
Proof.
  intros Hn. unfold nat_digits.
  destruct (digits_go_spec (S (Z.to_nat (Z.log2 n))) n []) as (ds & -> & H).
  - pose proof (Z.log2_nonneg n). rewrite Nat2Z.inj_succ, Z2Nat.id by done.
    destruct (decide (n = 0)) as [->|]; [done|].
    pose proof (Z.log2_spec n). lia.
  - lia.
  - by rewrite app_nil_r.
Qed.

Lemma nat_digits_0 : nat_digits 0 = ["0"%char].
Proof. reflexivity. Qed.

Lemma span_digits_app ds r :
  all_digits ds = true → match r with c :: _ => is_digit c = false | [] => True end →
  span_digits (ds ++ r) = (ds, r).
Proof.
  intros Hds Hr. induction ds as [|c ds IH]; simpl.
  - destruct r; [done|]. simpl. by rewrite Hr.
  - simpl in Hds. apply andb_true_iff in Hds as [-> Hds]. by rewrite (IH Hds).
Qed.

Lemma int_digits_all acc ds :
  all_digits ds = true → ds ≠ [] → ∀ p, int_digits p acc ds = Ok (digits_val acc ds).
Proof.
  revert acc. induction ds as [|c ds IH]; intros acc Hds Hne p; [done|]. simpl.
  simpl in Hds. apply andb_true_iff in Hds as [-> Hds].
  destruct ds as [|d ds']; [done|]. by apply IH.
Qed.

Lemma digit_not_ws c : is_digit c = true → ws1 c = false ∧ is_ascii c = true ∧ c ≠ "-"%char ∧ c ≠ "+"%char.
Proof.
  unfold is_digit, ws1, is_ascii. intros [?%Z.leb_le ?%Z.leb_le]%andb_true_iff.
  split_and!; [lia | lia | intros -> | intros ->]; vm_compute in H, H0; congruence.
Qed.

(** Stripping a text of printable ASCII characters that are not spaces. *)
Definition graph (c : ascii) : Prop := ws1 c = false ∧ is_ascii c = true.

Lemma lstrip_graph l : Forall graph l → lstrip_b l = l.
Proof.
  intros Hl. destruct l as [|a [|b [|c l]]]; [done|..];
    apply Forall_cons in Hl as [[Ha Ha'] Hl]; cbn [lstrip_b]; rewrite Ha; [done|..];
    unfold is_ascii in Ha'.
  - replace (ws2 a b) with false by (unfold ws2, ws3; lia). done.
  - replace (ws2 a b) with false by (unfold ws2; lia).
    by replace (ws3 a b c) with false by (unfold ws3; lia).
Qed.

Lemma lstrip_rev_graph l : Forall graph l → lstrip_rev l = l.
Proof.
  intros Hl. destruct l as [|a [|b [|c l]]]; [done|..];
    apply Forall_cons in Hl as [[Ha Ha'] Hl]; cbn [lstrip_rev]; rewrite Ha; [done|..];
    apply Forall_cons in Hl as [[Hb Hb'] Hl]; unfold is_ascii in *.
  - replace (ws2 b a) with false by (unfold ws2, ws3; lia). done.
  - apply Forall_cons in Hl as [[Hc Hc'] Hl]. unfold is_ascii in *.
    replace (ws2 b a) with false by (unfold ws2; lia).
    by replace (ws3 c b a) with false by (unfold ws3; lia).
Qed.

Lemma strip_graph l : Forall graph l → strip_b l = l.
Proof.
  intros Hl. unfold strip_b, rstrip_b. rewrite lstrip_graph by done.
  rewrite lstrip_rev_graph by by apply List.Forall_rev. apply rev_involutive.
Qed.

Lemma graph_all_ascii l : Forall graph l → all_ascii l = true.
Proof. induction 1 as [|c l [_ Hc] _ IH]; [done|]. unfold all_ascii in *. cbn. by rewrite Hc. Qed.

Lemma digits_graph l : all_digits l = true → Forall graph l.
Proof.
  induction l as [|c l IH]; [constructor|]. cbn. intros [Hc Hl]%andb_true_iff.
  destruct (digit_not_ws c Hc) as (? & ? & _). by constructor; [|apply IH].
Qed.
(** [int(str(n)) == n]. *)
Lemma py_int_str n : 0 ≤ n → py_int (int_str n) = Ok n.
Proof.
  intros Hn. unfold py_int, int_str, int_b. rewrite (proj2 (Z.ltb_ge n 0)), bs_to_str by lia.
  destruct (nat_digits_spec n Hn) as (Hne & Hall & Hval & _). rewrite strip_graph by by apply digits_graph.
  rewrite graph_all_ascii by by apply digits_graph. cbn [negb]. pose proof (int_digits_all 0 _ Hall Hne false) as E.
  rewrite Hval in E. destruct (nat_digits n) as [|c l]; [done|]. cbn in Hall. apply andb_true_iff in Hall as [Hc _].
  destruct (digit_not_ws c Hc) as (_ & _ & H1 & H2). by rewrite !bool_decide_eq_false_2.
Qed.

(** [text.split()]: the maximal runs of characters that are not white space. *)
Definition flush_word (cur : bytes) (r : list bytes) : list bytes :=
  match cur with [] => r | _ => rev cur :: r end.
Fixpoint split_ws (cur : bytes) (l : bytes) : list bytes :=
  match l with
  | [] => flush_word cur []
  | a :: l1 =>
      if ws1 a then flush_word cur (split_ws [] l1) else
      match l1 with
      | b :: l2 =>
          if ws2 a b then flush_word cur (split_ws [] l2) else
          match l2 with
          | c :: l3 => if ws3 a b c then flush_word cur (split_ws [] l3) else split_ws (a :: cur) l1
          | [] => split_ws (a :: cur) l1
          end
      | [] => split_ws (a :: cur) l1
      end
  end.

(** The characters of a text, one by one (each as its UTF-8 bytes). *)
Fixpoint utf8_chars (cur : bytes) (l : bytes) : list bytes :=
  match l with
  | [] => flush_word cur []
  | c :: l' => if cont c then utf8_chars (c :: cur) l' else flush_word cur (utf8_chars [c] l')
  end.

(** [text[:n]] and [text[n:]], counted in characters. *)
Definition take_chars (n : nat) (s : string) : string :=
  to_str (concat (take n (utf8_chars [] (bs s)))).
Definition drop_chars (n : nat) (s : string) : string :=
  to_str (concat (drop n (utf8_chars [] (bs s)))).
(** [len(text)]. *)
Definition str_len (s : string) : Z :=
  Z.of_nat (length (List.filter (λ c, negb (cont c)) (bs s))).

Lemma utf8_chars_ascii l : all_ascii l = true → ∀ cur, (length cur ≤ 1)%nat →
  utf8_chars cur l = flush_word cur (map (λ c, [c]) l).
Proof.
  induction l as [|c l IH]; [done|]. cbn [all_ascii forallb utf8_chars map].
  intros [Hc Hl]%andb_true_iff cur Hcur.
  replace (cont c) with false by (unfold cont, is_ascii in *; lia).
  by rewrite IH by (done || cbn; lia).
Qed.

Lemma concat_singletons {A} (l : list A) : concat (map (λ c, [c]) l) = l.
Proof. induction l; cbn; by f_equal. Qed.

Lemma take_chars_ascii n s : all_ascii (bs s) = true → take_chars n s = to_str (take n (bs s)).
Proof.
  intros H. unfold take_chars. rewrite utf8_chars_ascii by (done || cbn; lia). cbn [flush_word].
  by rewrite firstn_map, concat_singletons.
Qed.
