(* ===== verification/Json.v ===== *)
(** * JSON values, [json.dumps] and [json.loads]

    The Python values that cross the program's boundaries: [None], [bool], [int],
    [str], [list] and [dict] with string keys in insertion order.  [dumps] is
    Python's encoder for a format (separators, key sorting, [ensure_ascii]);
    [json_loads] its decoder.  A float literal, [NaN], [Infinity] and a lone
    surrogate escape are outside the modelled values and give [Unmodelled]. *)

From S2P Require Import Prelude PyStr.

#[warnings="-register-all"]
Inductive json :=
| JNull
| JBool (b : bool)
| JInt (n : Z)
| JStr (s : string)
| JList (l : list json)
| JObj (kvs : list (string * json)).

Section json_induction.
Context (P : json → Prop).
Context (Hnull : P JNull) (Hbool : ∀ b, P (JBool b)) (Hint : ∀ n, P (JInt n))
        (Hstr : ∀ s, P (JStr s))
        (Hlist : ∀ l, Forall P l → P (JList l))
        (Hobj : ∀ kvs, Forall (λ kv, P kv.2) kvs → P (JObj kvs)).

Fixpoint json_ind' (j : json) : P j :=
  match j with
  | JNull => Hnull
  | JBool b => Hbool b
  | JInt n => Hint n
  | JStr s => Hstr s
  | JList l => Hlist l ((fix go l := match l return Forall P l with
                         | [] => Forall_nil_2 P
                         | x :: l' => Forall_cons_2 P x l' (json_ind' x) (go l')
                         end) l)
  | JObj kvs => Hobj kvs ((fix go l := match l return Forall (λ kv, P kv.2) l with
                         | [] => Forall_nil_2 _
                         | x :: l' => Forall_cons_2 (λ kv, P kv.2) x l' (json_ind' x.2) (go l')
                         end) kvs)
  end.
End json_induction.

Fixpoint json_eqb (x y : json) {struct x} : bool :=
  match x, y with
  | JNull, JNull => true
  | JBool a, JBool b => Bool.eqb a b
  | JInt a, JInt b => a =? b
  | JStr a, JStr b => String.eqb a b
  | JList a, JList b =>
      (fix go a b := match a, b with
        | [], [] => true
        | u :: a', v :: b' => json_eqb u v && go a' b'
        | _, _ => false
        end) a b
  | JObj a, JObj b =>
      (fix go a b := match a, b with
        | [], [] => true
        | (k, u) :: a', (k', v) :: b' => String.eqb k k' && json_eqb u v && go a' b'
        | _, _ => false
        end) a b
  | _, _ => false
  end.

Lemma json_eqb_spec x y : json_eqb x y = true ↔ x = y.
Proof.
  revert y. induction x as [|b|n|s|l IH|kvs IH] using json_ind';
    intros [|b'|n'|s'|l'|kvs']; simpl; try (split; discriminate); try done.
  - rewrite Bool.eqb_true_iff. naive_solver.
  - rewrite Z.eqb_eq. naive_solver.
  - rewrite String.eqb_eq. naive_solver.
  - revert l'. induction IH as [|u l Hu Hl IHl]; intros [|v l']; try (split; discriminate); [done|].
    rewrite andb_true_iff, Hu, IHl. naive_solver.
  - revert kvs'. induction IH as [|[k u] l Hu Hl IHl]; intros [|[k' v] l'];
      try (split; discriminate); [done|]. simpl in Hu.
    rewrite !andb_true_iff, String.eqb_eq, Hu, IHl. naive_solver.
Qed.

#[export] Instance json_eq_dec : EqDecision json.
Proof.
  intros x y. destruct (json_eqb x y) eqn:E.
  - left. by apply json_eqb_spec.
  - right. intros H%json_eqb_spec. congruence.
Defined.

(** ** Dictionaries *)

Abbreviation dict := (list (string * json)).

Fixpoint dget (k : string) (d : dict) : option json :=
  match d with
  | [] => None
  | (k', v) :: d' => if String.eqb k k' then Some v else dget k d'
  end.

(** [d[k] = v]: in place when present, at the end otherwise. *)
Fixpoint dset (k : string) (v : json) (d : dict) : dict :=
  match d with
  | [] => [(k, v)]
  | (k', v') :: d' => if String.eqb k k' then (k, v) :: d' else (k', v') :: dset k v d'
  end.

(** [d.pop(k, None)] without the value; the comprehension [... if key != k]. *)
Definition dpop (k : string) (d : dict) : dict :=
  List.filter (λ kv, negb (String.eqb k kv.1)) d.

(** [d.update(e)], [dict(pairs)]. *)
Definition dupdate (d e : dict) : dict := fold_left (λ acc kv, dset kv.1 kv.2 acc) e d.
Definition dict_of_pairs (l : dict) : dict := dupdate [] l.
Definition dhas (k : string) (d : dict) : bool :=
  match dget k d with Some _ => true | None => false end.

(** [data.get(k)] on a value that may not be a dict. *)
Definition jget (k : string) (j : json) : res json :=
  match j with
  | JObj d => Ok (match dget k d with Some v => v | None => JNull end)
  | _ => Err AttributeError
  end.
(** [data[k]] with a string key. *)
Definition jitem (k : string) (j : json) : res json :=
  match j with
  | JObj d => of_option KeyError (dget k d)
  | _ => Err TypeError
  end.

(** ** Python's view of a value *)

Definition truthy (j : json) : bool :=
  match j with
  | JNull => false
  | JBool b => b
  | JInt n => negb (n =? 0)
  | JStr s => negb (String.eqb s "")
  | JList l => match l with [] => false | _ => true end
  | JObj d => match d with [] => false | _ => true end
  end.

Definition bool_int (b : bool) : Z := if b then 1 else 0.

(** [j == n] for an [int] constant: [True == 1]. *)
Definition eq_int (j : json) (n : Z) : bool :=
  match j with
  | JInt m => m =? n
  | JBool b => bool_int b =? n
  | _ => false
  end.
Definition eq_str (j : json) (s : string) : bool :=
  match j with JStr t => String.eqb t s | _ => false end.

(** [int(j)]. *)
Definition to_int (j : json) : res Z :=
  match j with
  | JInt n => Ok n
  | JBool b => Ok (bool_int b)
  | JStr s => py_int s
  | _ => Err TypeError
  end.

(** [repr] of a string: quote choice and escapes; non-ASCII text is printed as is. *)
Definition hexdig (d : Z) : ascii := if d <? 10 then byte_of (48 + d) else byte_of (87 + d).
Definition repr_char (q : ascii) (c : ascii) : bytes :=
  if bool_decide (c = q) || bool_decide (c = "\"%char) then ["\"%char; c]
  else if code c =? 10 then bs "\n" else if code c =? 13 then bs "\r"
  else if code c =? 9 then bs "\t"
  else if (code c <? 32) || (code c =? 127) then
    bs "\x" ++ [hexdig (code c / 16); hexdig (code c mod 16)]
  else [c].
Definition squote : ascii := byte_of 39.
Definition dquote : ascii := byte_of 34.
Definition repr_str (s : string) : bytes :=
  let l := bs s in
  let has q := existsb (λ c, bool_decide (c = q)) l in
  let q := if has squote && negb (has dquote) then dquote else squote in
  q :: concat (map (repr_char q) l) ++ [q].

Fixpoint py_repr (j : json) : bytes :=
  match j with
  | JNull => bs "None"
  | JBool b => bs (if b then "True" else "False")
  | JInt n => int_b n
  | JStr s => repr_str s
  | JList l => bs "[" ++ join (bs ", ") (map py_repr l) ++ bs "]"
  | JObj d => bs "{" ++ join (bs ", ") (map (λ kv, repr_str kv.1 ++ bs ": " ++ py_repr kv.2) d)
              ++ bs "}"
  end.
(** [str(j)]. *)
Definition to_pystr (j : json) : string :=
  match j with JStr s => s | _ => to_str (py_repr j) end.

(** ** [json.dumps] *)

Definition hex4_b (u : Z) : bytes :=
  [hexdig (u / 4096 mod 16); hexdig (u / 256 mod 16); hexdig (u / 16 mod 16); hexdig (u mod 16)].
Definition esc_u (u : Z) : bytes := "\"%char :: "u"%char :: hex4_b u.

(** Escape of one character with [ensure_ascii=False]. *)
Definition esc_char (c : ascii) : bytes :=
  if code c =? 34 then ["\"%char; c]
  else if code c =? 92 then ["\"%char; c]
  else if code c =? 8 then bs "\b" else if code c =? 12 then bs "\f"
  else if code c =? 10 then bs "\n" else if code c =? 13 then bs "\r"
  else if code c =? 9 then bs "\t"
  else if code c <? 32 then esc_u (code c)
  else [c].
Definition esc_raw (s : string) : bytes := concat (map esc_char (bs s)).

(** The [\uXXXX] form of a code point: a surrogate pair above the BMP. *)
Definition esc_cp (cp : Z) : bytes :=
  if cp <? 0x10000 then esc_u cp
  else let v := cp - 0x10000 in esc_u (0xD800 + v / 1024) ++ esc_u (0xDC00 + v mod 1024).

(** Escape with [ensure_ascii=True]: every character outside [' '..'~']. *)
Fixpoint esc_ascii_b (l : bytes) : bytes :=
  match l with
  | [] => []
  | a :: l1 =>
      let x := code a in
      if x <? 0x80 then (if x =? 127 then esc_u 127 else esc_char a) ++ esc_ascii_b l1 else
      match l1 with
      | [] => [a]
      | b :: l2 =>
          if x <=? 0xDF then esc_cp ((x - 0xC0) * 64 + (code b - 0x80)) ++ esc_ascii_b l2 else
          match l2 with
          | [] => l
          | c :: l3 =>
              if x <=? 0xEF then
                esc_cp ((x - 0xE0) * 4096 + (code b - 0x80) * 64 + (code c - 0x80))
                ++ esc_ascii_b l3
              else
              match l3 with
              | [] => l
              | d :: l4 =>
                  esc_cp ((x - 0xF0) * 262144 + (code b - 0x80) * 4096
                          + (code c - 0x80) * 64 + (code d - 0x80)) ++ esc_ascii_b l4
              end
          end
      end
  end.
Definition esc_ascii (s : string) : bytes := esc_ascii_b (bs s).

(** An output format: string escape, key sorting, and the white space written
    after an opening bracket, after a comma, before a closing bracket (by
    nesting level) and after a colon. *)
Record fmt := {
  f_esc : string → bytes;
  f_sort : bool;
  f_open : nat → bytes;
  f_item : nat → bytes;
  f_close : nat → bytes;
  f_key : bytes
}.

Definition key_le (p q : string * json) : Prop := String.le p.1 q.1.
#[export] Instance key_le_dec : RelDecision key_le.
Proof. intros p q. apply String.le_dec. Defined.
Definition sort_items (d : dict) : dict := merge_sort key_le d.

Definition quoted (b : bytes) : bytes := dquote :: b ++ [dquote].

Fixpoint dumps_at (F : fmt) (lvl : nat) (j : json) : bytes :=
  match j with
  | JNull => bs "null"
  | JBool b => bs (if b then "true" else "false")
  | JInt n => int_b n
  | JStr s => quoted (f_esc F s)
  | JList [] => bs "[]"
  | JList l => bs "[" ++ f_open F lvl
               ++ join ("," %char :: f_item F lvl) (map (dumps_at F (S lvl)) l)
               ++ f_close F lvl ++ bs "]"
  | JObj [] => bs "{}"
  | JObj d =>
      let printed := map (λ kv, (kv.1, kv.2, dumps_at F (S lvl) kv.2)) d in
      let ordered := if f_sort F
                     then merge_sort (λ p q, String.le p.1.1 q.1.1) printed else printed in
      bs "{" ++ f_open F lvl
      ++ join (","%char :: f_item F lvl)
           (map (λ p, quoted (f_esc F p.1.1) ++ ":"%char :: f_key F ++ p.2) ordered)
      ++ f_close F lvl ++ bs "}"
  end.
Definition dumps (F : fmt) (j : json) : bytes := dumps_at F 0 j.

Definition no_ws (_ : nat) : bytes := [].
(** [json.dumps(obj, sort_keys=True, separators=(",", ":"), ensure_ascii=False)] *)
Definition fmt_canonical : fmt :=
  {| f_esc := esc_raw; f_sort := true; f_open := no_ws; f_item := no_ws;
     f_close := no_ws; f_key := [] |}.
(** [json.dumps(obj)] *)
Definition fmt_default : fmt :=
  {| f_esc := esc_ascii; f_sort := false; f_open := no_ws; f_item := λ _, bs " ";
     f_close := no_ws; f_key := bs " " |}.
(** [json.dumps(obj, indent=2, sort_keys=True)] *)
Definition newline (lvl : nat) : bytes := byte_of 10 :: repeat " "%char (2 * lvl).
Definition fmt_indent2 : fmt :=
  {| f_esc := esc_ascii; f_sort := true; f_open := λ l, newline (S l);
     f_item := λ l, newline (S l); f_close := newline; f_key := bs " " |}.

(** ** [json.loads] *)

Definition json_ws (c : ascii) : bool :=
  (code c =? 32) || (code c =? 9) || (code c =? 10) || (code c =? 13).
Definition skip_ws : bytes → bytes := drop_while json_ws.

Definition hexval (c : ascii) : option Z :=
  let x := code c in
  if (48 <=? x) && (x <=? 57) then Some (x - 48)
  else if (97 <=? x) && (x <=? 102) then Some (x - 87)
  else if (65 <=? x) && (x <=? 70) then Some (x - 55)
  else None.
Definition hex4 (l : bytes) : option (Z * bytes) :=
  match l with
  | a :: b :: c :: d :: r =>
      match hexval a, hexval b, hexval c, hexval d with
      | Some a, Some b, Some c, Some d => Some (a * 4096 + b * 256 + c * 16 + d, r)
      | _, _, _, _ => None
      end
  | _ => None
  end.

(** The UTF-8 form of a code point. *)
Definition utf8_enc (cp : Z) : bytes :=
  if cp <? 0x80 then [byte_of cp]
  else if cp <? 0x800 then [byte_of (0xC0 + cp / 64); byte_of (0x80 + cp mod 64)]
  else if cp <? 0x10000 then
    [byte_of (0xE0 + cp / 4096); byte_of (0x80 + cp / 64 mod 64); byte_of (0x80 + cp mod 64)]
  else [byte_of (0xF0 + cp / 262144); byte_of (0x80 + cp / 4096 mod 64);
        byte_of (0x80 + cp / 64 mod 64); byte_of (0x80 + cp mod 64)].

Definition simple_escape (c : ascii) : option ascii :=
  let x := code c in
  if x =? 34 then Some c else if x =? 92 then Some c else if x =? 47 then Some c
  else if x =? 98 then Some (byte_of 8) else if x =? 102 then Some (byte_of 12)
  else if x =? 110 then Some (byte_of 10) else if x =? 114 then Some (byte_of 13)
  else if x =? 116 then Some (byte_of 9) else None.

Definition is_high (u : Z) : bool := (0xD800 <=? u) && (u <=? 0xDBFF).
Definition is_low (u : Z) : bool := (0xDC00 <=? u) && (u <=? 0xDFFF).

(** One escape sequence after the backslash: the bytes it stands for, the rest. *)
Definition p_escape (l : bytes) : res (bytes * bytes) :=
  match l with
  | [] => Err JSONDecodeError
  | e :: l2 =>
      match simple_escape e with
      | Some c => Ok ([c], l2)
      | None =>
          if code e =? 117 then
            match hex4 l2 with
            | None => Err JSONDecodeError
            | Some (u, l3) =>
                if is_high u then
                  match l3 with
                  | b :: e' :: l4 =>
                      if (code b =? 92) && (code e' =? 117) then
                        match hex4 l4 with
                        | None => Err JSONDecodeError
                        | Some (u2, l5) =>
                            if is_low u2
                            then Ok (utf8_enc (0x10000 + (u - 0xD800) * 1024 + (u2 - 0xDC00)), l5)
                            else Err Unmodelled
                        end
                      else Err Unmodelled
                  | _ => Err Unmodelled
                  end
                else if is_low u then Err Unmodelled
                else Ok (utf8_enc u, l3)
            end
          else Err JSONDecodeError
      end
  end.

(** The rest of a string literal, after the opening quote. *)
Fixpoint p_string (f : nat) (l : bytes) : res (bytes * bytes) :=
  match f with
  | O => Err OutOfFuel
  | S f' =>
      match l with
      | [] => Err JSONDecodeError
      | c :: l1 =>
          if code c =? 34 then Ok ([], l1)
          else if code c =? 92 then
            let? (u, l2) := p_escape l1 in
            let? (s, r) := p_string f' l2 in
            Ok (u ++ s, r)
          else if code c <? 32 then Err JSONDecodeError
          else let? (s, r) := p_string f' l1 in Ok (c :: s, r)
      end
  end.
Definition parse_string (l : bytes) : res (string * bytes) :=
  let? (s, r) := p_string (S (length l)) l in Ok (to_str s, r).

(** An optional minus sign, then [0] or a digit 1-9 and more digits; a fraction
    or an exponent makes it a float. *)
Definition p_digits (l : bytes) : res (Z * bytes) :=
  match l with
  | c :: l1 =>
      if negb (is_digit c) then Err JSONDecodeError else
      let '(ds, r) := if code c =? 48 then ([c], l1) else span_digits l in
      match r with
      | d :: r1 =>
          if (code d =? 46) && match r1 with e :: _ => is_digit e | [] => false end
          then Err Unmodelled
          else if (code d =? 101) || (code d =? 69) then
            match r1 with
            | e :: r2 =>
                if is_digit e then Err Unmodelled
                else if ((code e =? 43) || (code e =? 45))
                        && match r2 with g :: _ => is_digit g | [] => false end
                then Err Unmodelled
                else Ok (digits_val 0 ds, r)
            | [] => Ok (digits_val 0 ds, r)
            end
          else Ok (digits_val 0 ds, r)
      | [] => Ok (digits_val 0 ds, r)
      end
  | [] => Err JSONDecodeError
  end.
Definition p_number (l : bytes) : res (json * bytes) :=
  match l with
  | c :: l1 =>
      if code c =? 45 then
        if prefix_b (bs "Infinity") l1 then Err Unmodelled
        else let? (n, r) := p_digits l1 in Ok (JInt (- n), r)
      else let? (n, r) := p_digits l in Ok (JInt n, r)
  | [] => Err JSONDecodeError
  end.

Definition p_lit (w : string) (v : json) (l : bytes) : res (json * bytes) :=
  if prefix_b (bs w) l then Ok (v, drop (length (bs w)) l) else Err JSONDecodeError.

Fixpoint p_value (f : nat) (l : bytes) : res (json * bytes) :=
  match f with
  | O => Err OutOfFuel
  | S f' =>
      match l with
      | [] => Err JSONDecodeError
      | c :: l1 =>
          if code c =? 34 then let? (s, r) := parse_string l1 in Ok (JStr s, r)
          else if code c =? 91 then
            match skip_ws l1 with
            | d :: r =>
                if code d =? 93 then Ok (JList [], r)
                else let? (vs, r) := p_elems f' (skip_ws l1) in Ok (JList vs, r)
            | [] => Err JSONDecodeError
            end
          else if code c =? 123 then
            match skip_ws l1 with
            | d :: r =>
                if code d =? 125 then Ok (JObj [], r)
                else let? (kvs, r) := p_members f' (skip_ws l1) in
                     Ok (JObj (dict_of_pairs kvs), r)
            | [] => Err JSONDecodeError
            end
          else if code c =? 110 then p_lit "null" JNull l
          else if code c =? 116 then p_lit "true" (JBool true) l
          else if code c =? 102 then p_lit "false" (JBool false) l
          else if prefix_b (bs "NaN") l || prefix_b (bs "Infinity") l then Err Unmodelled
          else p_number l
      end
  end
with p_elems (f : nat) (l : bytes) : res (list json * bytes) :=
  match f with
  | O => Err OutOfFuel
  | S f' =>
      let? (v, r) := p_value f' l in
      match skip_ws r with
      | d :: r1 =>
          if code d =? 44 then
            let? (vs, r2) := p_elems f' (skip_ws r1) in Ok (v :: vs, r2)
          else if code d =? 93 then Ok ([v], r1)
          else Err JSONDecodeError
      | [] => Err JSONDecodeError
      end
  end
with p_members (f : nat) (l : bytes) : res (dict * bytes) :=
  match f with
  | O => Err OutOfFuel
  | S f' =>
      match l with
      | q :: l1 =>
          if negb (code q =? 34) then Err JSONDecodeError else
          let? (k, r0) := parse_string l1 in
          match skip_ws r0 with
          | d :: r1 =>
              if negb (code d =? 58) then Err JSONDecodeError else
              let? (v, r2) := p_value f' (skip_ws r1) in
              match skip_ws r2 with
              | e :: r3 =>
                  if code e =? 44 then
                    let? (kvs, r4) := p_members f' (skip_ws r3) in Ok ((k, v) :: kvs, r4)
                  else if code e =? 125 then Ok ([(k, v)], r3)
                  else Err JSONDecodeError
              | [] => Err JSONDecodeError
              end
          | [] => Err JSONDecodeError
          end
      | [] => Err JSONDecodeError
      end
  end.

Definition json_fuel (l : bytes) : nat := S (2 * length l).

(** [json.loads(text)] on the UTF-8 form of the text. *)
Definition json_loads (s : string) : res json :=
  let l := skip_ws (bs s) in
  let? (v, r) := p_value (json_fuel l) l in
  match skip_ws r with [] => Ok v | _ => Err JSONDecodeError end.
(** [json.loads(data)] on bytes: decoded as UTF-8 first. *)
Definition json_loads_bytes (b : bytes) : res json :=
  let? s := decode_utf8 b in json_loads s.

(** [json.loads(data)] on [bytes], which guesses the encoding first: UTF-16/32
    input is outside the model, a UTF-8 byte order mark is skipped, and so is the
    lenient decoding of surrogates. *)
Definition json_loads_raw (b : bytes) : res json :=
  let wide := match b with
              | x :: y :: _ => (code x =? 0) || (code y =? 0)
                               || ((code x =? 0xFE) && (code y =? 0xFF))
                               || ((code x =? 0xFF) && (code y =? 0xFE))
              | _ => false
              end in
  if wide then Err Unmodelled else
  let bom := [byte_of 0xEF; byte_of 0xBB; byte_of 0xBF] in
  let b := if prefix_b bom b then drop 3 b else b in
  if utf8_ok b then json_loads (to_str b)
  else if existsb (λ c, code c =? 0xED) b then Err Unmodelled else Err UnicodeError.

(** ** Iteration *)

(** [for x in value]: the elements of a list, the keys of a dict, the characters
    of a string; anything else is a [TypeError]. *)
Definition iter_json (j : json) : res (list json) :=
  match j with
  | JList l => Ok l
  | JObj d => Ok (map (λ kv, JStr kv.1) d)
  | JStr s => Ok (map (λ c, JStr (to_str c)) (utf8_chars [] (bs s)))
  | _ => Err TypeError
  end.

(** [value.items()] of a dict. *)
Definition items_json (j : json) : res dict :=
  match j with JObj d => Ok d | _ => Err AttributeError end.

(** [data.get(k, default)]. *)
Definition jget_def (k : string) (dflt j : json) : res json :=
  match j with
  | JObj d => Ok (match dget k d with Some v => v | None => dflt end)
  | _ => Err AttributeError
  end.
(** [a or b]. *)
Definition jor (a b : json) : json := if truthy a then a else b.
Definition is_dict (j : json) : bool := match j with JObj _ => true | _ => false end.
Definition is_list (j : json) : bool := match j with JList _ => true | _ => false end.
Definition is_str (j : json) : bool := match j with JStr _ => true | _ => false end.
