(* ===== verification/JsonProps.v ===== *)
(** * Round trips of the JSON codec

    [p_value] reads back what [dumps_at] writes, for every format whose white
    space is JSON white space; the canonical form is injective up to the order
    of dictionary entries. *)

From S2P Require Import Prelude PyStr Json.

(** ** String literals *)

Lemma p_string_esc_char f c l :
  p_string (S f) (esc_char c ++ l) = (let? (s, r) := p_string f l in Ok (c :: s, r)).
Proof. destruct c as [[] [] [] [] [] [] [] []]; reflexivity. Qed.

Lemma esc_char_length c : (1 ≤ length (esc_char c))%nat.
Proof. destruct c as [[] [] [] [] [] [] [] []]; vm_compute; lia. Qed.

Lemma p_string_esc_raw s r f :
  (length (bs s) < f)%nat → p_string f (esc_raw s ++ dquote :: r) = Ok (bs s, r).
Proof.
  unfold esc_raw. generalize (bs s). intros l. revert f.
  induction l as [|c l IH]; intros [|f] Hf; simpl in Hf; try lia.
  - reflexivity.
  - cbn [map concat]. rewrite <-app_assoc, p_string_esc_char, IH by lia. done.
Qed.

Lemma esc_raw_length s : (length (bs s) ≤ length (esc_raw s))%nat.
Proof.
  unfold esc_raw. induction (bs s) as [|c l IH]; simpl; [lia|].
  rewrite length_app. pose proof (esc_char_length c). lia.
Qed.

Lemma hexval_hexdig d : 0 ≤ d < 16 → hexval (hexdig d) = Some d.
Proof.
  intros Hd.
  assert (d ∈ [0;1;2;3;4;5;6;7;8;9;10;11;12;13;14;15]) as Hin.
  { rewrite !list_elem_of_In. simpl. lia. }
  repeat (apply elem_of_cons in Hin as [->|Hin]; [reflexivity|]). by apply not_elem_of_nil in Hin.
Qed.

Lemma hex4_hex4_b u r : 0 ≤ u < 65536 → hex4 (hex4_b u ++ r) = Some (u, r).
Proof.
  intros Hu. unfold hex4, hex4_b. simpl.
  rewrite !hexval_hexdig by (apply Z.mod_pos_bound; lia).
  do 2 f_equal. Z.to_euclidean_division_equations. lia.
Qed.

Lemma p_escape_u u r :
  0 ≤ u < 65536 → is_high u = false → is_low u = false →
  p_escape ("u"%char :: hex4_b u ++ r) = Ok (utf8_enc u, r).
Proof.
  intros Hu Hh Hl. unfold p_escape.
  change (simple_escape "u") with (@None ascii). change (code "u" =? 117) with true.
  cbv iota. rewrite hex4_hex4_b, Hh, Hl by done. done.
Qed.

Lemma p_escape_pair v r :
  0 ≤ v < 0x100000 →
  p_escape ("u"%char :: hex4_b (0xD800 + v / 1024) ++ esc_u (0xDC00 + v mod 1024) ++ r)
  = Ok (utf8_enc (0x10000 + v), r).
Proof.
  intros Hv. unfold p_escape.
  change (simple_escape "u") with (@None ascii). change (code "u" =? 117) with true. cbv iota.
  assert (0 ≤ v / 1024 < 1024) by (Z.to_euclidean_division_equations; lia).
  assert (0 ≤ v mod 1024 < 1024) by (Z.to_euclidean_division_equations; lia).
  rewrite hex4_hex4_b by lia.
  assert (is_high (0xD800 + v / 1024) = true) as -> by (unfold is_high; lia).
  unfold esc_u. cbn [app].
  change (code "\" =? 92) with true. change (code "u" =? 117) with true. cbn [andb].
  rewrite hex4_hex4_b by lia.
  assert (is_low (0xDC00 + v mod 1024) = true) as -> by (unfold is_low; lia).
  do 3 f_equal. Z.to_euclidean_division_equations. lia.
Qed.

Lemma p_string_step f u l l' :
  p_escape l = Ok (u, l') →
  p_string (S f) ("\"%char :: l) = (let? (s, r) := p_string f l' in Ok (u ++ s, r)).
Proof. intros E. cbn [p_string]. change (code "\" =? 34) with false.
  change (code "\" =? 92) with true. cbv iota. by rewrite E. Qed.

Lemma p_string_esc_cp f cp l :
  0 ≤ cp < 0x110000 → is_high cp = false → is_low cp = false →
  p_string (S f) (esc_cp cp ++ l) = (let? (s, r) := p_string f l in Ok (utf8_enc cp ++ s, r)).
Proof.
  intros Hcp Hh Hl. unfold esc_cp. destruct (Z.ltb_spec cp 0x10000).
  - unfold esc_u. cbn [app]. by rewrite (p_string_step _ _ _ _ (p_escape_u cp l ltac:(lia) Hh Hl)).
  - unfold esc_u at 1. rewrite <-app_assoc. cbn [app].
    rewrite (p_string_step _ _ _ _ (p_escape_pair (cp - 0x10000) l ltac:(lia))).
    by replace (0x10000 + (cp - 0x10000)) with cp by lia.
Qed.

(** [utf8_enc] rebuilds the bytes a well-formed sequence came from. *)
Ltac utf8_bytes :=
  unfold utf8_enc, code in *;
  repeat match goal with |- context [Z.ltb ?a ?b] => destruct (Z.ltb_spec a b); try lia end;
  repeat f_equal; apply byte_val_inj; rewrite byte_val_of;
  Z.to_euclidean_division_equations; lia.

Lemma utf8_enc_2 a b :
  0xC2 ≤ code a ≤ 0xDF → 0x80 ≤ code b ≤ 0xBF →
  utf8_enc ((code a - 0xC0) * 64 + (code b - 0x80)) = [a; b].
Proof. intros. utf8_bytes. Qed.

Lemma utf8_enc_3 a b c :
  0xE0 ≤ code a ≤ 0xEF → 0x80 ≤ code b ≤ 0xBF → 0x80 ≤ code c ≤ 0xBF →
  (code a = 0xE0 → 0xA0 ≤ code b) →
  utf8_enc ((code a - 0xE0) * 4096 + (code b - 0x80) * 64 + (code c - 0x80)) = [a; b; c].
Proof. intros. utf8_bytes. Qed.

Lemma utf8_enc_4 a b c d :
  0xF0 ≤ code a ≤ 0xF4 → 0x80 ≤ code b ≤ 0xBF → 0x80 ≤ code c ≤ 0xBF → 0x80 ≤ code d ≤ 0xBF →
  (code a = 0xF0 → 0x90 ≤ code b) →
  utf8_enc ((code a - 0xF0) * 262144 + (code b - 0x80) * 4096 + (code c - 0x80) * 64
            + (code d - 0x80)) = [a; b; c; d].
Proof. intros. utf8_bytes. Qed.

Lemma p_string_ascii_char f c l :
  code c < 0x80 →
  p_string (S f) ((if code c =? 127 then esc_u 127 else esc_char c) ++ l)
  = (let? (s, r) := p_string f l in Ok (c :: s, r)).
Proof.
  intros Hc. destruct (Z.eqb_spec (code c) 127) as [E|E].
  - change (esc_u 127) with (esc_cp 127). rewrite p_string_esc_cp by done.
    assert (utf8_enc 127 = [c]) as ->; [|done].
    change (utf8_enc 127) with [byte_of 127]. f_equal. apply byte_val_inj.
    rewrite byte_val_of. symmetry. exact E.
  - apply p_string_esc_char.
Qed.

(** One well-formed UTF-8 character at the head of a text. *)
Inductive utf8_head : bytes → bytes → bytes → Prop :=
| uh1 a l : code a < 0x80 →
    utf8_head (a :: l) ((if code a =? 127 then esc_u 127 else esc_char a) ++ esc_ascii_b l) l
| uhn u cp l : 0x80 ≤ cp < 0x110000 → is_high cp = false → is_low cp = false →
    utf8_enc cp = u → (2 ≤ length u ≤ 4)%nat →
    utf8_head (u ++ l) (esc_cp cp ++ esc_ascii_b l) l.

Lemma utf8_head_ok l :
  utf8_ok l = true → l ≠ [] →
  ∃ l', utf8_head l (esc_ascii_b l) l' ∧ utf8_ok l' = true.
Proof.
  destruct l as [|a l]; [done|]. intros Hok _. cbn [utf8_ok esc_ascii_b] in *.
  destruct (Z.ltb_spec (code a) 0x80) as [Ha|Ha]; [exists l; split; [by constructor|done]|].
  destruct l as [|b l]; [done|].
  destruct ((0xC2 <=? code a) && (code a <=? 0xDF)) eqn:E2.
  { apply andb_true_iff in Hok as [Hb Hok]. unfold cont in Hb. exists l.
    rewrite (proj2 (Z.leb_le (code a) 0xDF)) by lia. split; [|done].
    apply (uhn [a; b]); [lia | unfold is_high; lia | unfold is_low; lia | | simpl; lia].
    apply utf8_enc_2; lia. }
  destruct l as [|c l]; [done|].
  destruct ((0xE0 <=? code a) && (code a <=? 0xEF)) eqn:E3.
  { rewrite !andb_true_iff in Hok. destruct Hok as ((((Hb&Hc)&H1)&H2)&Hok).
    unfold cont in *. exists l.
    rewrite (proj2 (Z.leb_gt (code a) 0xDF)), (proj2 (Z.leb_le (code a) 0xEF)) by lia.
    split; [|done].
    apply (uhn [a; b; c]);
      [lia | unfold is_high; lia | unfold is_low; lia | | simpl; lia].
    apply utf8_enc_3; lia. }
  destruct l as [|d l]; [done|].
  destruct ((0xF0 <=? code a) && (code a <=? 0xF4)) eqn:E4; [|done].
  rewrite !andb_true_iff in Hok. destruct Hok as (((((Hb&Hc)&Hd)&H1)&H2)&Hok).
  unfold cont in *. exists l.
  rewrite (proj2 (Z.leb_gt (code a) 0xDF)), (proj2 (Z.leb_gt (code a) 0xEF)) by lia.
  split; [|done].
  apply (uhn [a; b; c; d]);
    [lia | unfold is_high; lia | unfold is_low; lia | | simpl; lia].
  apply utf8_enc_4; lia.
Qed.

Lemma esc_u_length u : length (esc_u u) = 6%nat.
Proof. reflexivity. Qed.

Lemma esc_cp_length cp : (6 ≤ length (esc_cp cp))%nat.
Proof.
  unfold esc_cp. case_match; rewrite ?length_app, !esc_u_length; lia.
Qed.

Lemma p_string_esc_ascii_b l r f :
  utf8_ok l = true → (length l < f)%nat →
  p_string f (esc_ascii_b l ++ dquote :: r) = Ok (l, r).
Proof.
  revert f. induction l as [l IH] using (induction_ltof1 _ (@length _)); unfold ltof in IH.
  intros f Hok Hf. destruct (decide (l = [])) as [->|Hne].
  { destruct f; [simpl in Hf; lia | reflexivity]. }
  destruct f as [|f]; [lia|].
  destruct (utf8_head_ok l Hok Hne) as (l' & Hh & Hok').
  destruct Hh as [a l Ha | u cp l H1 H2 H3 <- Hlen]; rewrite <-app_assoc.
  - rewrite p_string_ascii_char by done. simpl in Hf. rewrite IH by (simpl; done || lia). done.
  - rewrite p_string_esc_cp by (done || lia). rewrite length_app in Hf.
    rewrite IH by (rewrite ?length_app; done || lia). done.
Qed.

Lemma esc_ascii_b_length l : utf8_ok l = true → (length l ≤ length (esc_ascii_b l))%nat.
Proof.
  induction l as [l IH] using (induction_ltof1 _ (@length _)); unfold ltof in IH.
  intros Hok. destruct (decide (l = [])) as [->|Hne]; [simpl; lia|].
  destruct (utf8_head_ok l Hok Hne) as (l' & Hh & Hok').
  destruct Hh as [a l Ha | u cp l H1 H2 H3 <- Hlen]; rewrite !length_app.
  - pose proof (IH l ltac:(simpl; lia) Hok').
    assert (1 ≤ length (if (code a =? 127)%Z then esc_u 127 else esc_char a))%nat.
    { case_match; [rewrite esc_u_length; lia | apply esc_char_length]. }
    simpl. lia.
  - pose proof (IH l ltac:(rewrite length_app; lia) Hok').
    pose proof (esc_cp_length cp). lia.
Qed.

(** ** Formats that can be read back *)

Definition all_ws (l : bytes) : Prop := Forall (λ c, json_ws c = true) l.

Record fmt_ok (F : fmt) (good : string → Prop) : Prop := {
  fo_open l : all_ws (f_open F l);
  fo_item l : all_ws (f_item F l);
  fo_close l : all_ws (f_close F l);
  fo_key : all_ws (f_key F);
  fo_read s r f : good s → (length (bs s) < f)%nat →
    p_string f (f_esc F s ++ dquote :: r) = Ok (bs s, r);
  fo_len s : good s → (length (bs s) ≤ length (f_esc F s))%nat
}.

Lemma fmt_canonical_ok : fmt_ok fmt_canonical (λ _, True).
Proof.
  split; try (intros; constructor); intros.
  - by apply p_string_esc_raw.
  - by apply esc_raw_length.
Qed.

Definition utf8_str (s : string) : Prop := utf8_ok (bs s) = true.

Lemma all_ws_repeat n : all_ws (repeat " "%char n).
Proof. induction n; constructor; done. Qed.

Lemma fmt_default_ok : fmt_ok fmt_default utf8_str.
Proof.
  split; intros; try (apply Forall_nil_2 || (repeat constructor)).
  - by apply p_string_esc_ascii_b.
  - by apply esc_ascii_b_length.
Qed.

Lemma fmt_indent2_ok : fmt_ok fmt_indent2 utf8_str.
Proof.
  split; intros; try (constructor; [done | apply all_ws_repeat]); try (repeat constructor).
  - by apply p_string_esc_ascii_b.
  - by apply esc_ascii_b_length.
Qed.

(** The values a format can carry: unique keys, readable strings. *)
Fixpoint wf_json (good : string → Prop) (j : json) : Prop :=
  match j with
  | JStr s => good s
  | JList l => Forall id (map (wf_json good) l)
  | JObj d => NoDup (map fst d) ∧ Forall good (map fst d)
              ∧ Forall id (map (λ kv, wf_json good kv.2) d)
  | _ => True
  end.

(** What the reader sees: the same value, dictionaries in sorted order when the
    format sorts. *)
Fixpoint canon (srt : bool) (j : json) : json :=
  match j with
  | JList l => JList (map (canon srt) l)
  | JObj d => let d' := map (λ kv, (kv.1, canon srt kv.2)) d in
              JObj (if srt then sort_items d' else d')
  | _ => j
  end.

(** Fuel a value needs. *)
Fixpoint need (j : json) : nat :=
  match j with
  | JList l => S (sum_list_with (λ x, S (need x)) l)
  | JObj d => S (sum_list_with (λ kv, S (need kv.2)) d)
  | _ => 1
  end.

(** ** Sorting commutes with renaming of the values *)

Section merge_sort_map.
Context {A B : Type} (RA : relation A) (RB : relation B)
        `{∀ x y, Decision (RA x y)} `{∀ x y, Decision (RB x y)}.
Context (h : A → B) (Hh : ∀ x y, RB (h x) (h y) ↔ RA x y).

Lemma list_merge_map l1 l2 :
  list_merge RB (map h l1) (map h l2) = map h (list_merge RA l1 l2).
Proof using All.
  revert l2. induction l1 as [|x l1 IH1]; intros l2; [by destruct l2|].
  induction l2 as [|y l2 IH2]; [done|].
  cbn [map]. rewrite !list_merge_cons. rewrite (decide_ext (RB (h x) (h y)) (RA x y)) by apply Hh.
  case_decide; cbn [map]; f_equal; [apply (IH1 (y :: l2)) | exact IH2].
Qed.

Local Definition hs : list (option (list A)) → list (option (list B)) :=
  map (option_map (map h)).

Lemma merge_list_to_stack_map st l :
  merge_list_to_stack RB (hs st) (map h l) = hs (merge_list_to_stack RA st l).
Proof using All.
  revert l. induction st as [|[l'|] st IH]; intros l; [done| |done].
  simpl. rewrite list_merge_map, IH. done.
Qed.

Lemma merge_stack_map st : merge_stack RB (hs st) = map h (merge_stack RA st).
Proof using All.
  induction st as [|[l'|] st IH]; [done| |exact IH]. simpl. by rewrite IH, list_merge_map.
Qed.

Lemma merge_sort_map l : merge_sort RB (map h l) = map h (merge_sort RA l).
Proof using All.
  unfold merge_sort. change (@nil (option (list B))) with (hs []). generalize (@nil (option (list A))).
  induction l as [|x l IH]; intros st; [apply merge_stack_map|].
  simpl. rewrite <-IH. f_equal. apply (merge_list_to_stack_map st [x]).
Qed.
End merge_sort_map.

#[export] Instance key_le_total : Total key_le.
Proof. intros p q. apply String.le_total. Qed.
#[export] Instance key_le_trans : Transitive key_le.
Proof. intros p q r. unfold key_le. by intros ->. Qed.

Lemma sort_items_perm d : sort_items d ≡ₚ d.
Proof. apply merge_sort_Permutation. Qed.

Lemma sort_items_sorted d : StronglySorted key_le (sort_items d).
Proof. apply StronglySorted_merge_sort; apply _. Qed.

Lemma sort_items_map (g : json → json) d :
  sort_items (map (λ kv, (kv.1, g kv.2)) d) = map (λ kv, (kv.1, g kv.2)) (sort_items d).
Proof. apply merge_sort_map. by intros [] []. Qed.

(** The order in which a format writes a dictionary. *)
Definition write_order (F : fmt) (d : dict) : dict := if f_sort F then sort_items d else d.

Lemma write_order_perm F d : write_order F d ≡ₚ d.
Proof. unfold write_order. case_match; [apply sort_items_perm | done]. Qed.

Definition member_b (F : fmt) (lvl : nat) (kv : string * json) : bytes :=
  quoted (f_esc F kv.1) ++ ":"%char :: f_key F ++ dumps_at F lvl kv.2.

Lemma dumps_at_obj F lvl d :
  d ≠ [] →
  dumps_at F lvl (JObj d) =
    bs "{" ++ f_open F lvl
    ++ join (","%char :: f_item F lvl) (map (member_b F (S lvl)) (write_order F d))
    ++ f_close F lvl ++ bs "}".
Proof.
  intros Hd. destruct d as [|kv d]; [done|]. cbn [dumps_at]. do 3 f_equal.
  set (pr := λ kv0 : string * json, (kv0.1, kv0.2, dumps_at F (S lvl) kv0.2)).
  fold (pr kv). change (pr kv :: map pr d) with (map pr (kv :: d)).
  unfold write_order. destruct (f_sort F).
  - unfold sort_items.
    rewrite (merge_sort_map key_le (λ p q, String.le p.1.1 q.1.1) pr) by (by intros [] []).
    by rewrite map_map.
  - by rewrite map_map.
Qed.

(** ** Numbers *)

Definition nofollow (r : bytes) : Prop :=
  match r with
  | c :: _ => is_digit c = false ∧ code c ≠ 46 ∧ code c ≠ 101 ∧ code c ≠ 69
  | [] => True
  end.

Lemma p_digits_nat n r :
  0 ≤ n → nofollow r → p_digits (nat_digits n ++ r) = Ok (n, r).
Proof.
  intros Hn Hr. destruct (nat_digits_spec n Hn) as (Hne & Hall & Hval & Hhd).
  destruct (nat_digits n) as [|c ds] eqn:Eds; [done|]. cbn [app].
  pose proof Hall as Hall'. simpl in Hall'. apply andb_true_iff in Hall' as [Hc Hds].
  unfold p_digits. rewrite Hc. cbn [negb].
  assert ((if code c =? 48 then ([c], ds ++ r) else span_digits (c :: ds ++ r)) = (c :: ds, r)) as ->.
  { destruct (Z.eqb_spec (code c) 48) as [E|E].
    - assert (n = 0) as ->.
      { destruct (decide (n = 0)) as [|]; [done|]. exfalso. apply Hhd; [lia|].
        simpl. f_equal. apply byte_val_inj. exact E. }
      rewrite nat_digits_0 in Eds. injection Eds as <- <-. done.
    - apply (span_digits_app (c :: ds) r Hall). destruct r; [done|]. by destruct Hr. }
  cbv beta iota. rewrite Hval. destruct r as [|d r]; [done|]. destruct Hr as (H1 & H2 & H3 & H4).
  rewrite !(proj2 (Z.eqb_neq (code d) _)) by done. done.
Qed.

Lemma int_b_head n :
  ∃ c t, int_b n = c :: t ∧ (c = "-"%char ∨ is_digit c = true).
Proof.
  unfold int_b. case_match eqn:E; [eauto|].
  destruct (nat_digits_spec n) as (Hne & Hall & _); [lia|].
  destruct (nat_digits n) as [|c t]; [done|]. simpl in Hall. apply andb_true_iff in Hall as [? _].
  eauto.
Qed.

Lemma p_number_int n r : nofollow r → p_number (int_b n ++ r) = Ok (JInt n, r).
Proof.
  intros Hr. unfold int_b. destruct (Z.ltb_spec n 0) as [Hn|Hn].
  - cbn [app]. unfold p_number. change (code "-" =? 45) with true. cbv iota.
    destruct (nat_digits_spec (- n)) as (Hne & Hall & _); [lia|].
    assert (prefix_b (bs "Infinity") (nat_digits (- n) ++ r) = false) as ->.
    { destruct (nat_digits (- n)) as [|c t]; [done|]. simpl in Hall.
      apply andb_true_iff in Hall as [Hc _]. cbn. rewrite bool_decide_eq_false_2; [done|].
      intros <-. discriminate. }
    rewrite p_digits_nat by (done || lia). simpl. do 3 f_equal. lia.
  - destruct (nat_digits_spec n) as (Hne & Hall & _); [lia|].
    pose proof (p_digits_nat n r ltac:(lia) Hr) as E.
    destruct (nat_digits n) as [|c t]; [done|]. simpl in Hall.
    apply andb_true_iff in Hall as [Hc _]. unfold is_digit in Hc. cbn [app] in *. unfold p_number.
    rewrite (proj2 (Z.eqb_neq (code c) 45)) by lia. by rewrite E.
Qed.

(** ** White space *)

Lemma skip_ws_app w l :
  all_ws w → match l with c :: _ => json_ws c = false | [] => True end → skip_ws (w ++ l) = l.
Proof.
  intros Hw Hl. unfold skip_ws. induction Hw as [|c w Hc Hw IH]; cbn [app drop_while].
  - destruct l; [done|]. cbn [drop_while]. by rewrite Hl.
  - by rewrite Hc.
Qed.

Lemma skip_ws_cons c l : json_ws c = false → skip_ws (c :: l) = c :: l.
Proof. intros H. unfold skip_ws. cbn [drop_while]. by rewrite H. Qed.

(** First byte of a printed value. *)
Definition value_head (c : ascii) : Prop :=
  json_ws c = false ∧ code c ≠ 93 ∧ code c ≠ 125.

Lemma dumps_head F lvl j : ∃ c t, dumps_at F lvl j = c :: t ∧ value_head c.
Proof.
  unfold value_head, json_ws.
  destruct j as [|[]|n|s|[|]|[|]]; try (eexists _, _; split; [reflexivity | vm_compute; done]).
  destruct (int_b_head n) as (c & t & E & Hc). exists c, t. split; [exact E|].
  destruct Hc as [->|Hc]; [done|]. unfold is_digit in Hc. lia.
Qed.

Lemma skip_ws_value F lvl j w l :
  all_ws w → skip_ws (w ++ dumps_at F lvl j ++ l) = dumps_at F lvl j ++ l.
Proof.
  intros Hw. apply skip_ws_app; [done|].
  destruct (dumps_head F lvl j) as (c & t & -> & Hc & _). done.
Qed.

Lemma nofollow_ws w l :
  all_ws w → match l with c :: _ => nofollow [c] | [] => True end → nofollow (w ++ l).
Proof.
  intros [|c w' Hc Hw] Hl; [by destruct l|]. cbn.
  unfold json_ws, is_digit in *. lia.
Qed.

(** ** The round trip *)

Lemma parse_string_esc F good s r :
  fmt_ok F good → good s → parse_string (f_esc F s ++ dquote :: r) = Ok (s, r).
Proof.
  intros HF Hs. unfold parse_string. rewrite (fo_read F good HF) by
    (try done; rewrite length_app; simpl; pose proof (fo_len F good HF s Hs); lia).
  simpl. by rewrite to_str_bs.
Qed.

Lemma nofollow_one c : is_digit c = false → code c ≠ 46 → code c ≠ 101 → code c ≠ 69 → nofollow [c].
Proof. done. Qed.

Section roundtrip.
Context (F : fmt) (good : string → Prop) (HF : fmt_ok F good).

Let srt := f_sort F.
Definition reads (j : json) : Prop :=
  ∀ f lvl r, (need j ≤ f)%nat → nofollow r →
    p_value f (dumps_at F lvl j ++ r) = Ok (canon srt j, r).

Let sep lvl := ","%char :: f_item F lvl.

Lemma p_elems_reads l lvl lvl' r f :
  Forall reads l → l ≠ [] → (sum_list_with (λ x, S (need x)) l ≤ f)%nat →
  p_elems f (join (sep lvl') (map (dumps_at F lvl) l) ++ f_close F lvl' ++ bs "]" ++ r)
  = Ok (map (canon srt) l, r).
Proof using HF.
  intros Hl. revert f. induction Hl as [|x l Hx Hl IH]; intros f Hne Hf; [done|].
  destruct f as [|f]; [simpl in Hf; lia|]. cbn [p_elems]. simpl in Hf.
  destruct l as [|y l].
  - cbn [map join]. rewrite Hx; [| lia | by apply nofollow_ws; [apply (fo_close _ _ HF)|]].
    cbn [res_bind]. rewrite skip_ws_app by (done || apply (fo_close _ _ HF)). done.
  - set (rest := join (sep lvl') (map (dumps_at F lvl) (y :: l))) in *.
    change (join (sep lvl') (map (dumps_at F lvl) (x :: y :: l)))
      with (dumps_at F lvl x ++ sep lvl' ++ rest).
    rewrite <-!app_assoc. rewrite Hx; [| lia | by unfold sep].
    cbn [res_bind]. unfold sep at 1. cbn [app]. rewrite skip_ws_cons by done.
    change (code "," =? 44) with true. cbv iota.
    assert (skip_ws (f_item F lvl' ++ rest ++ f_close F lvl' ++ bs "]" ++ r)
            = rest ++ f_close F lvl' ++ bs "]" ++ r) as ->.
    { unfold rest. destruct l; cbn [map join]; rewrite <-?app_assoc;
        apply skip_ws_value, (fo_item _ _ HF). }
    by rewrite IH by (done || lia).
Qed.

Lemma p_members_reads d lvl lvl' r f :
  Forall (λ kv, good kv.1 ∧ reads kv.2) d → d ≠ [] →
  (sum_list_with (λ kv, S (need kv.2)) d ≤ f)%nat →
  p_members f (join (sep lvl') (map (member_b F lvl) d) ++ f_close F lvl' ++ bs "}" ++ r)
  = Ok (map (λ kv, (kv.1, canon srt kv.2)) d, r).
Proof using HF.
  intros Hl. revert f. induction Hl as [|[k v] l [Hk Hv] Hl IH]; intros f Hne Hf; [done|].
  destruct f as [|f]; [simpl in Hf; lia|]. simpl in Hf, Hk, Hv.
  assert (Hhead : ∀ t, p_members (S f) (member_b F lvl (k, v) ++ t) =
    let? (w, r2) := p_value f (dumps_at F lvl v ++ t) in
    match skip_ws r2 with
    | e :: r3 =>
        if code e =? 44 then let? (kvs, r4) := p_members f (skip_ws r3) in Ok ((k, w) :: kvs, r4)
        else if code e =? 125 then Ok ([(k, w)], r3) else Err JSONDecodeError
    | [] => Err JSONDecodeError
    end).
  { intros t. unfold member_b, quoted. cbn [fst snd app p_members].
    change (code dquote =? 34) with true. cbn [negb]. rewrite <-!app_assoc. cbn [app].
    rewrite (parse_string_esc F good) by done. cbn [res_bind].
    rewrite skip_ws_cons by done. change (code ":" =? 58) with true. cbn [negb].
    rewrite <-app_assoc. rewrite skip_ws_value by apply (fo_key _ _ HF). done. }
  cbn [map]. destruct l as [|[k' v'] l].
  - cbn [map join]. rewrite Hhead, Hv; [| lia | by apply nofollow_ws; [apply (fo_close _ _ HF)|]].
    cbn [res_bind]. rewrite skip_ws_app by (done || apply (fo_close _ _ HF)). done.
  - set (rest := join (sep lvl') (map (member_b F lvl) ((k', v') :: l))) in *.
    change (join (sep lvl') (member_b F lvl (k, v) :: map (member_b F lvl) ((k', v') :: l)))
      with (member_b F lvl (k, v) ++ sep lvl' ++ rest).
    rewrite <-!app_assoc, Hhead, Hv; [| lia | by unfold sep].
    cbn [res_bind]. unfold sep at 1. cbn [app]. rewrite skip_ws_cons by done.
    change (code "," =? 44) with true. cbv iota.
    assert (skip_ws (f_item F lvl' ++ rest ++ f_close F lvl' ++ bs "}" ++ r)
            = rest ++ f_close F lvl' ++ bs "}" ++ r) as ->.
    { apply skip_ws_app; [apply (fo_item _ _ HF)|]. unfold rest. by destruct l. }
    by rewrite IH by (done || lia).
Qed.
End roundtrip.

Lemma dset_fresh k v d : k ∉ map fst d → dset k v d = d ++ [(k, v)].
Proof.
  induction d as [|[k' v'] d IH]; [done|]. cbn. intros Hk.
  apply not_elem_of_cons in Hk as [Hne Hk'].
  rewrite (proj2 (String.eqb_neq k k')) by done. by rewrite IH.
Qed.

Lemma dupdate_fresh d e :
  NoDup (map fst (d ++ e)) → dupdate d e = d ++ e.
Proof.
  revert d. induction e as [|[k v] e IH]; intros d Hnd; [by rewrite app_nil_r|].
  unfold dupdate in *. cbn [fold_left fst snd].
  rewrite dset_fresh.
  - rewrite IH; rewrite <-app_assoc; done.
  - rewrite map_app in Hnd. apply NoDup_app in Hnd as (_ & Hd & _).
    intros Hk. apply (Hd k Hk). cbn. set_solver.
Qed.

Lemma dict_of_pairs_id d : NoDup (map fst d) → dict_of_pairs d = d.
Proof. apply (dupdate_fresh []). Qed.

Lemma sum_list_with_perm {A} (g : A → nat) l l' :
  l ≡ₚ l' → sum_list_with g l = sum_list_with g l'.
Proof. induction 1; simpl; lia. Qed.

Lemma keys_map (g : json → json) (d : dict) : map fst (map (λ kv, (kv.1, g kv.2)) d) = map fst d.
Proof. by rewrite map_map. Qed.

Lemma p_value_int f n r : nofollow r → p_value (S f) (int_b n ++ r) = Ok (JInt n, r).
Proof.
  intros Hr. rewrite <-(p_number_int n r Hr). destruct (int_b_head n) as (c & t & E & Hc).
  rewrite E. cbn [app p_value].
  assert (45 ≤ code c ≤ 57) by (destruct Hc as [->|Hc]; [by vm_compute | unfold is_digit in Hc; lia]).
  rewrite !(proj2 (Z.eqb_neq (code c) _)) by lia.
  assert (∀ w, head w = Some "N"%char ∨ head w = Some "I"%char → prefix_b w (c :: t ++ r) = false) as Hp.
  { intros [|a w] Ha; [naive_solver|]. cbn. rewrite bool_decide_eq_false_2; [done|]. intros ->.
    destruct Ha as [[= ->]|[= ->]]; vm_compute in H; destruct H; congruence. }
  by rewrite !Hp by (cbn; auto).
Qed.

Section roundtrip_main.
Context (F : fmt) (good : string → Prop) (HF : fmt_ok F good).

Lemma reads_wf j : wf_json good j → reads F j.
Proof using HF.
  induction j as [|[]|n|s|l IH|d IH] using json_ind'; intros Hwf [|f] lvl r Hf Hr;
    try (cbn [need] in Hf; lia); try done.
  - cbn [dumps_at canon]. by apply p_value_int.
  - cbn [dumps_at canon]. unfold quoted. cbn [app p_value]. change (code dquote =? 34) with true.
    cbv iota. rewrite <-app_assoc. cbn [app].
    by rewrite (parse_string_esc F good) by done.
  - cbn [wf_json] in Hwf. destruct l as [|x l]; [done|].
    assert (Forall (reads F) (x :: l)) as Hreads.
    { rewrite Forall_map in Hwf. apply Forall_forall. intros y Hy.
      rewrite Forall_forall in IH, Hwf. apply IH; [done | by apply (Hwf y)]. }
    cbn [need] in Hf.
    assert (dumps_at F lvl (JList (x :: l)) ++ r =
      "["%char :: f_open F lvl ++ join (","%char :: f_item F lvl)
        (map (dumps_at F (S lvl)) (x :: l)) ++ f_close F lvl ++ bs "]" ++ r) as ->.
    { cbn [dumps_at]. rewrite <-!app_assoc. done. }
    cbn [p_value]. change (code "[" =? 34) with false. change (code "[" =? 91) with true. cbv iota.
    set (body := join _ _ ++ _).
    assert (∃ c t, body = c :: t ∧ value_head c) as (c & t & Eb & Hc1 & Hc2 & Hc3).
    { unfold body. destruct (dumps_head F (S lvl) x) as (c & t & E & Hc).
      exists c. destruct l; cbn [map join]; rewrite E; eauto. }
    assert (skip_ws (f_open F lvl ++ body) = body) as ->.
    { apply skip_ws_app; [apply (fo_open _ _ HF)|]. by rewrite Eb. }
    rewrite Eb at 1. rewrite (proj2 (Z.eqb_neq (code c) 93)) by done.
    unfold body. rewrite (p_elems_reads F good HF) by (done || lia). done.
  - cbn [wf_json] in Hwf. destruct Hwf as (Hnd & Hgood & Hwf).
    destruct (decide (d = [])) as [->|Hne]; [by cbn; destruct (f_sort F)|].
    pose proof (write_order_perm F d) as Hperm.
    assert (Forall (λ kv, good kv.1 ∧ reads F kv.2) (write_order F d)) as Hreads.
    { rewrite Hperm. apply Forall_forall. intros kv Hkv. rewrite Forall_map in Hgood, Hwf.
      rewrite Forall_forall in IH, Hgood, Hwf. split; [by apply Hgood | apply IH; [done | by apply (Hwf kv)]]. }
    assert (write_order F d ≠ []) as Hne'.
    { intros E. rewrite E in Hperm. by apply Permutation_nil in Hperm. }
    cbn [need] in Hf. rewrite <-(sum_list_with_perm _ _ _ Hperm) in Hf.
    assert (dumps_at F lvl (JObj d) ++ r =
      "{"%char :: f_open F lvl ++ join (","%char :: f_item F lvl)
        (map (member_b F (S lvl)) (write_order F d)) ++ f_close F lvl ++ bs "}" ++ r) as ->.
    { rewrite dumps_at_obj by done. rewrite <-!app_assoc. done. }
    cbn [p_value]. change (code "{" =? 34) with false. change (code "{" =? 91) with false.
    change (code "{" =? 123) with true. cbv iota.
    set (body := join _ _ ++ _).
    assert (∃ t, body = dquote :: t) as (t & Eb).
    { unfold body. destruct (write_order F d) as [|kv [|]]; [done|..]; cbn; eauto. }
    assert (skip_ws (f_open F lvl ++ body) = body) as ->.
    { apply skip_ws_app; [apply (fo_open _ _ HF)|]. by rewrite Eb. }
    rewrite Eb at 1. change (code dquote =? 125) with false. cbv iota.
    unfold body. rewrite (p_members_reads F good HF) by (done || lia). cbn [res_bind].
    rewrite dict_of_pairs_id by (rewrite keys_map, Hperm; done).
    cbn [canon]. unfold write_order. destruct (f_sort F); [|done].
    by rewrite sort_items_map.
Qed.

(** Fuel: a printed value is long enough to pay for reading it. *)
Lemma need_dumps j lvl : (need j < 2 * length (dumps_at F lvl j))%nat.
Proof using Type.
  revert lvl.
  assert (Hjoin : ∀ sep (l : list bytes), (sum_list_with length l ≤ length (join sep l))%nat).
  { intros sep l. induction l as [|x l IH]; [simpl; lia|].
    destruct l; simpl in *; rewrite ?length_app; lia. }
  induction j as [|[]|n|s|l IH|d IH] using json_ind'; intros lvl;
    try (cbn; lia).
  - destruct (dumps_head F lvl (JInt n)) as (c & t & -> & _). cbn. lia.
  - destruct l as [|x l]; [cbn; lia|]. set (l' := x :: l) in *.
    assert (dumps_at F lvl (JList l') = bs "[" ++ f_open F lvl ++
      join (","%char :: f_item F lvl) (map (dumps_at F (S lvl)) l') ++ f_close F lvl ++ bs "]") as ->
      by done.
    rewrite !length_app. cbn [need].
    pose proof (Hjoin (","%char :: f_item F lvl) (map (dumps_at F (S lvl)) l')) as Hj.
    assert (sum_list_with (λ y, S (need y)) l' ≤
            2 * sum_list_with length (map (dumps_at F (S lvl)) l'))%nat.
    { clear Hj. induction IH as [|y l2 Hy _ IH2]; simpl; [lia|]. specialize (Hy (S lvl)). lia. }
    change (length (bs "[")) with 1%nat. change (length (bs "]")) with 1%nat. lia.
  - destruct (decide (d = [])) as [->|Hne]; [cbn; lia|].
    rewrite dumps_at_obj by done. rewrite !length_app. cbn [need].
    pose proof (Hjoin (","%char :: f_item F lvl)
      (map (member_b F (S lvl)) (write_order F d))) as Hj.
    rewrite <-(sum_list_with_perm _ _ _ (write_order_perm F d)).
    rewrite <-(write_order_perm F d) in IH.
    assert (sum_list_with (λ kv, S (need kv.2)) (write_order F d) ≤
            2 * sum_list_with length (map (member_b F (S lvl)) (write_order F d)))%nat.
    { clear Hj. induction IH as [|y l2 Hy _ IH2]; cbn [map sum_list_with]; [lia|].
      specialize (Hy (S lvl)). unfold member_b at 1. rewrite length_app. cbn [length].
      rewrite length_app. lia. }
    change (length (bs "{")) with 1%nat. change (length (bs "}")) with 1%nat. lia.
Qed.

Lemma json_loads_dumps j :
  wf_json good j → json_loads (to_str (dumps F j)) = Ok (canon (f_sort F) j).
Proof using HF.
  intros Hwf. unfold json_loads, dumps. rewrite bs_to_str.
  assert (skip_ws (dumps_at F 0%nat j) = dumps_at F 0%nat j) as ->.
  { rewrite <-(app_nil_r (dumps_at F 0%nat j)). apply (skip_ws_value F 0%nat j []). constructor. }
  pose proof (reads_wf j Hwf (json_fuel (dumps_at F 0%nat j)) 0%nat []) as E.
  rewrite app_nil_r in E. rewrite E; [done | | done].
  unfold json_fuel. pose proof (need_dumps j 0%nat). lia.
Qed.
End roundtrip_main.

(** ** Equal dictionaries print equally *)

(** Equality of Python values: dictionaries are equal up to the order of their
    entries. *)
#[warnings="-register-all"]
Inductive jeq : json → json → Prop :=
| jeq_refl j : jeq j j
| jeq_list l l' : Forall2 jeq l l' → jeq (JList l) (JList l')
| jeq_obj d e d' :
    d ≡ₚ e → Forall2 (λ p q, p.1 = q.1 ∧ jeq p.2 q.2) e d' → jeq (JObj d) (JObj d').

Definition fst_le {A} (p q : string * A) : Prop := String.le p.1 q.1.
#[export] Instance fst_le_dec {A} : RelDecision (@fst_le A).
Proof. intros p q. apply String.le_dec. Defined.
#[export] Instance fst_le_total {A} : Total (@fst_le A).
Proof. intros p q. apply String.le_total. Qed.
#[export] Instance fst_le_trans {A} : Transitive (@fst_le A).
Proof. intros p q r. unfold fst_le. by intros ->. Qed.

Lemma NoDup_fst_inj {K A} (l : list (K * A)) p q :
  NoDup (map fst l) → p ∈ l → q ∈ l → p.1 = q.1 → p = q.
Proof.
  induction l as [|x l IH]; cbn; intros Hnd Hp Hq E; [by apply not_elem_of_nil in Hp|].
  apply NoDup_cons in Hnd as [Hx Hnd].
  assert (∀ y, y ∈ l → y.1 ∈ map fst l) as Hin.
  { intros y Hy. apply list_elem_of_fmap. eauto. }
  apply elem_of_cons in Hp as [->|Hp]; apply elem_of_cons in Hq as [->|Hq]; auto.
  - destruct Hx. rewrite E. auto.
  - destruct Hx. rewrite <-E. auto.
Qed.

(** A dictionary has one sorted form. *)
Lemma merge_sort_fst_unique {A} (l l' : list (string * A)) :
  l ≡ₚ l' → NoDup (map fst l) → merge_sort fst_le l = merge_sort fst_le l'.
Proof.
  intros Hp Hnd. apply (StronglySorted_unique_strong fst_le).
  - intros x y Hx Hy Hxy Hyx. rewrite merge_sort_Permutation in Hx, Hy. rewrite <-Hp in Hy.
    apply (NoDup_fst_inj l); [done..|]. by apply (anti_symm String.le).
  - apply StronglySorted_merge_sort; apply _.
  - apply StronglySorted_merge_sort; apply _.
  - by rewrite !merge_sort_Permutation.
Qed.

(** The canonical members of a dictionary, as sorted printed entries. *)
Lemma canonical_members lvl d :
  map (member_b fmt_canonical lvl) (sort_items d) =
  map (λ p : string * bytes, quoted (esc_raw p.1) ++ ":"%char :: p.2)
    (merge_sort fst_le (map (λ kv, (kv.1, dumps_at fmt_canonical lvl kv.2)) d)).
Proof.
  rewrite (merge_sort_map key_le fst_le) by (by intros [] []). by rewrite map_map.
Qed.

Fixpoint nodup_keys (j : json) : Prop :=
  match j with
  | JList l => Forall id (map nodup_keys l)
  | JObj d => NoDup (map fst d) ∧ Forall id (map (λ kv, nodup_keys kv.2) d)
  | _ => True
  end.

Lemma wf_nodup good j : wf_json good j → nodup_keys j.
Proof.
  induction j as [| | | |l IH|d IH] using json_ind'; simpl; try done.
  - rewrite !Forall_map. intros H. revert IH H.
    rewrite !Forall_forall. unfold compose, id. naive_solver.
  - intros (H1 & _ & H3). split; [done|]. revert IH H3.
    rewrite !Forall_map, !Forall_forall. unfold compose, id. naive_solver.
Qed.

Lemma canonical_jeq a b lvl :
  nodup_keys a → jeq a b → dumps_at fmt_canonical lvl a = dumps_at fmt_canonical lvl b.
Proof.
  revert b lvl. induction a as [|a0|a0|a0|l IH|d IH] using json_ind'; intros b lvl Hnd Hab;
    inversion Hab as [|l1 l' Hl|d1 e d' Hp Hd]; subst; try done.
  - cbn [nodup_keys] in Hnd. rewrite Forall_map in Hnd.
    assert (map (dumps_at fmt_canonical (S lvl)) l = map (dumps_at fmt_canonical (S lvl)) l') as E.
    { clear Hab. revert IH Hnd. induction Hl as [|x y l l' Hxy Hl IHl]; [done|]. cbn [map].
      intros [Hx IH]%Forall_cons [Hn Hnd]%Forall_cons. f_equal; [by apply Hx | by apply IHl]. }
    destruct Hl as [|x y l l' Hxy Hl]; [done|]. cbn [dumps_at].
    change (dumps_at fmt_canonical (S lvl) x :: map _ l)
      with (map (dumps_at fmt_canonical (S lvl)) (x :: l)).
    by rewrite E.
  - cbn [nodup_keys] in Hnd. destruct Hnd as [Hnd Hch]. rewrite Forall_map in Hch.
    rewrite Hp in IH, Hch.
    set (g := λ kv : string * json, (kv.1, dumps_at fmt_canonical (S lvl) kv.2)).
    assert (map g e = map g d') as E.
    { clear Hab Hp Hnd. revert IH Hch. induction Hd as [|x y l l' [Hk Hxy] Hl IHl]; [done|]. cbn [map].
      intros [Hx IH]%Forall_cons [Hn Hch]%Forall_cons. f_equal; [|apply IHl; [exact IH|exact Hch]].
      unfold g. rewrite Hk. f_equal. apply Hx; [exact Hn | exact Hxy]. }
    destruct (decide (d = [])) as [->|Hne].
    { apply Permutation_nil_l in Hp as <-. by inversion Hd. }
    assert (d' ≠ []) as Hne'.
    { intros ->. inversion Hd; subst. by apply Permutation_nil_r in Hp. }
    rewrite !dumps_at_obj by done. do 3 f_equal. unfold write_order. cbn [f_sort fmt_canonical].
    rewrite !canonical_members. fold g. rewrite <-E. do 2 f_equal.
    apply merge_sort_fst_unique; [by rewrite Hp|]. unfold g. by rewrite map_map.
Qed.

(** Sorting the entries gives an equal value. *)
Lemma jeq_canon srt j : jeq j (canon srt j).
Proof.
  induction j as [| | | |l IH|d IH] using json_ind'; simpl; try constructor.
  - induction IH; constructor; done.
  - set (e := if srt then sort_items d else d).
    apply (jeq_obj d e).
    + unfold e. destruct srt; [symmetry; apply sort_items_perm | done].
    + assert ((if srt then sort_items (map (λ kv, (kv.1, canon srt kv.2)) d)
               else map (λ kv, (kv.1, canon srt kv.2)) d)
              = map (λ kv, (kv.1, canon srt kv.2)) e) as ->.
      { unfold e. destruct srt; [apply sort_items_map | done]. }
      assert (Forall (λ kv, jeq kv.2 (canon srt kv.2)) e) as He.
      { unfold e. destruct srt; [by rewrite sort_items_perm | done]. }
      clear -He. induction He; constructor; done.
Qed.

(** ** The printed text is well-formed UTF-8 *)

(** One well-formed character: a single ASCII byte or bytes above 0x7F. *)
Definition uchar (u : bytes) : Prop :=
  (∀ r, utf8_ok (u ++ r) = utf8_ok r) ∧ u ≠ [] ∧
  ((∃ a, u = [a] ∧ code a < 0x80) ∨ Forall (λ c, 0x80 ≤ code c) u).

Lemma uchar_head l :
  utf8_ok l = true → l ≠ [] → ∃ u l', l = u ++ l' ∧ utf8_ok l' = true ∧ uchar u.
Proof.
  destruct l as [|a l]; [done|]. intros Hok _. cbn [utf8_ok] in Hok.
  destruct (Z.ltb_spec (code a) 0x80) as [Ha|Ha].
  { exists [a], l. split_and!; [done..|]. split_and!; [|done|by left; eauto].
    intros r. cbn [app utf8_ok]. by rewrite (proj2 (Z.ltb_lt _ _) Ha). }
  assert (Ha' := proj2 (Z.ltb_ge _ _) Ha).
  destruct l as [|b l]; [done|].
  destruct ((0xC2 <=? code a) && (code a <=? 0xDF)) eqn:E2.
  { apply andb_true_iff in Hok as [Hb Hok]. exists [a; b], l.
    split_and!; [done..|]. split_and!; [|done|right].
    - intros r. cbn [app utf8_ok]. by rewrite Ha', E2, Hb.
    - unfold cont in Hb. repeat constructor; lia. }
  destruct l as [|c l]; [done|].
  destruct ((0xE0 <=? code a) && (code a <=? 0xEF)) eqn:E3.
  { rewrite !andb_true_iff in Hok. destruct Hok as ((((Hb&Hc)&H1)&H2)&Hok). exists [a; b; c], l.
    split_and!; [done..|]. split_and!; [|done|right].
    - intros r. cbn [app utf8_ok]. by rewrite Ha', E2, E3, Hb, Hc, H1, H2.
    - unfold cont in *. repeat constructor; lia. }
  destruct l as [|d l]; [done|].
  destruct ((0xF0 <=? code a) && (code a <=? 0xF4)) eqn:E4; [|done].
  rewrite !andb_true_iff in Hok. destruct Hok as (((((Hb&Hc)&Hd)&H1)&H2)&Hok).
  exists [a; b; c; d], l. split_and!; [done..|]. split_and!; [|done|right].
  - intros r. cbn [app utf8_ok]. by rewrite Ha', E2, E3, E4, Hb, Hc, Hd, H1, H2.
  - unfold cont in *. repeat constructor; lia.
Qed.

Lemma utf8_ind (P : bytes → Prop) :
  P [] → (∀ u l, uchar u → utf8_ok l = true → P l → P (u ++ l)) →
  ∀ l, utf8_ok l = true → P l.
Proof.
  intros H0 H1 l. induction l as [l IH] using (induction_ltof1 _ (@length _)); unfold ltof in IH.
  intros Hok. destruct (decide (l = [])) as [->|Hne]; [done|].
  destruct (uchar_head l Hok Hne) as (u & l' & -> & Hok' & Hu).
  apply H1; [done..|]. apply IH; [|done]. rewrite length_app.
  destruct u; [by destruct Hu as (_ & ? & _)|]. simpl. lia.
Qed.

Lemma utf8_app a b : utf8_ok a = true → utf8_ok (a ++ b) = utf8_ok b.
Proof.
  revert a. apply (utf8_ind (λ a, utf8_ok (a ++ b) = utf8_ok b)); [done|].
  intros u l (Hu & _) _ IH. by rewrite <-app_assoc, Hu.
Qed.

Lemma esc_char_ascii c : code c < 0x80 → all_ascii (esc_char c) = true.
Proof.
  intros Hc. destruct c as [[] [] [] [] [] [] [] []]; try (by vm_compute); by vm_compute in Hc.
Qed.

Lemma esc_char_high c : 0x80 ≤ code c → esc_char c = [c].
Proof. intros Hc. unfold esc_char. by repeat (case_match; [lia|]). Qed.

Lemma utf8_esc_raw s : utf8_str s → utf8_ok (esc_raw s) = true.
Proof.
  unfold utf8_str, esc_raw. revert s. intros s. generalize (bs s). clear s.
  apply utf8_ind; [done|]. intros u l (Hu & _ & Hc) _ IH. rewrite map_app, concat_app.
  destruct Hc as [(a & -> & Ha)|Hc].
  - cbn [map concat]. rewrite app_nil_r. by rewrite utf8_ok_app_ascii by by apply esc_char_ascii.
  - assert (concat (map esc_char u) = u) as ->; [|by rewrite Hu].
    clear -Hc. induction Hc as [|c u Hc _ IH]; [done|]. cbn. by rewrite esc_char_high, IH.
Qed.

Definition esc_utf8 (F : fmt) (good : string → Prop) : Prop :=
  ∀ s, good s → utf8_ok (f_esc F s) = true.

Lemma all_ws_ascii l : all_ws l → all_ascii l = true.
Proof.
  induction 1 as [|c l Hc _ IH]; [done|]. unfold all_ascii in *. cbn. rewrite IH.
  unfold json_ws, is_ascii in *. lia.
Qed.

Lemma utf8_join sep l :
  utf8_ok sep = true → Forall (λ x, utf8_ok x = true) l → utf8_ok (join sep l) = true.
Proof.
  intros Hs Hl. induction Hl as [|x l Hx Hl IH]; [done|].
  destruct l as [|y l]; [done|]. change (join sep (x :: y :: l)) with (x ++ sep ++ join sep (y :: l)).
  by rewrite !utf8_app.
Qed.

Lemma utf8_quoted b : utf8_ok b = true → utf8_ok (quoted b) = true.
Proof.
  intros Hb. unfold quoted. change (dquote :: b ++ [dquote]) with ([dquote] ++ b ++ [dquote]).
  by rewrite !utf8_app.
Qed.

Lemma int_b_ascii n : all_ascii (int_b n) = true.
Proof.
  assert (∀ m, 0 ≤ m → all_ascii (nat_digits m) = true) as H.
  { intros m Hm. destruct (nat_digits_spec m Hm) as (_ & Hd & _). revert Hd.
    unfold all_digits, all_ascii. induction (nat_digits m) as [|c l IH]; [done|]. cbn.
    intros [Hc Hl]%andb_true_iff. rewrite IH by done. unfold is_digit, is_ascii in *. lia. }
  unfold int_b. destruct (Z.ltb_spec n 0); [|by apply H].
  unfold all_ascii in *. cbn. apply H. lia.
Qed.

Lemma utf8_dumps F good0 good j lvl :
  fmt_ok F good0 → esc_utf8 F good → wf_json good j → utf8_ok (dumps_at F lvl j) = true.
Proof.
  intros HF HE. revert lvl.
  assert (∀ w l, all_ws w → utf8_ok l = true → utf8_ok (w ++ l) = true) as Hws.
  { intros w l Hw Hl. rewrite utf8_ok_app_ascii; [done | by apply all_ws_ascii]. }
  induction j as [|b|n|s|l IH|d IH] using json_ind'; intros lvl Hwf.
  - done.
  - by destruct b.
  - apply utf8_ok_ascii, int_b_ascii.
  - apply utf8_quoted, HE, Hwf.
  - destruct l as [|x l]; [done|]. set (l0 := x :: l) in *.
    change (dumps_at F lvl (JList l0)) with
      (bs "[" ++ f_open F lvl ++ join (","%char :: f_item F lvl) (map (dumps_at F (S lvl)) l0)
       ++ f_close F lvl ++ bs "]").
    change (bs "[") with ["["%char]. rewrite utf8_app by done.
    apply Hws; [apply (fo_open _ _ HF)|]. rewrite utf8_app.
    + apply Hws; [apply (fo_close _ _ HF)|done].
    + apply utf8_join.
      * change (utf8_ok (f_item F lvl) = true). apply utf8_ok_ascii, all_ws_ascii, (fo_item _ _ HF).
      * cbn [wf_json] in Hwf. clearbody l0. rewrite Forall_map in *. revert IH Hwf.
        rewrite !Forall_forall. unfold compose, id. naive_solver.
  - destruct (decide (d = [])) as [->|Hne]; [done|]. rewrite dumps_at_obj by done.
    cbn [wf_json] in Hwf. destruct Hwf as (_ & Hk & Hv).
    change (bs "{") with ["{"%char]. rewrite utf8_app by done.
    apply Hws; [apply (fo_open _ _ HF)|]. rewrite utf8_app.
    + apply Hws; [apply (fo_close _ _ HF)|done].
    + apply utf8_join.
      * change (utf8_ok (f_item F lvl) = true). apply utf8_ok_ascii, all_ws_ascii, (fo_item _ _ HF).
      * rewrite Forall_map, write_order_perm. rewrite !Forall_map in *.
        revert IH Hk Hv. rewrite !Forall_forall. unfold compose, id.
        intros IH Hk Hv kv Hin. unfold member_b. rewrite utf8_app by (apply utf8_quoted, HE; auto).
        change (utf8_ok (f_key F ++ dumps_at F (S lvl) kv.2) = true).
        apply Hws; [apply (fo_key _ _ HF)|]. auto.
Qed.

Lemma esc_u_ascii u : 0 ≤ u < 65536 → all_ascii (esc_u u) = true.
Proof.
  intros Hu. assert (∀ d, 0 ≤ d < 16 → is_ascii (hexdig d) = true) as H.
  { intros d Hd. unfold is_ascii, code, hexdig. case_match; rewrite byte_val_of, Z.mod_small; lia. }
  assert (is_ascii "\" = true ∧ is_ascii "u" = true) as [E1 E2] by done.
  unfold all_ascii, esc_u, hex4_b. cbn [forallb]. rewrite E1, E2.
  rewrite !H by (apply Z.mod_pos_bound; lia). done.
Qed.

Lemma esc_cp_ascii cp : 0 ≤ cp < 0x110000 → all_ascii (esc_cp cp) = true.
Proof.
  intros Hcp. unfold esc_cp. destruct (Z.ltb_spec cp 0x10000); [apply esc_u_ascii; lia|].
  unfold all_ascii in *. rewrite forallb_app.
  change (all_ascii (esc_u (0xD800 + (cp - 0x10000) / 1024))
          && all_ascii (esc_u (0xDC00 + (cp - 0x10000) mod 1024)) = true).
  rewrite !esc_u_ascii; [done|Z.to_euclidean_division_equations; lia..].
Qed.

Lemma esc_ascii_ascii s : utf8_str s → all_ascii (esc_ascii s) = true.
Proof.
  unfold utf8_str, esc_ascii. generalize (bs s). clear s. intros l.
  induction l as [l IH] using (induction_ltof1 _ (@length _)); unfold ltof in IH. intros Hok.
  destruct (decide (l = [])) as [->|Hne]; [done|].
  destruct (utf8_head_ok l Hok Hne) as (l' & Hh & Hok').
  assert (length l' < length l)%nat as Hlt.
  { destruct Hh as [a l Ha | u cp l H1 H2 H3 <- Hlen]; [cbn; lia|]. rewrite length_app. lia. }
  specialize (IH l' Hlt Hok').
  destruct Hh as [a l Ha | u cp l H1 H2 H3 <- Hlen]; unfold all_ascii in *;
    rewrite forallb_app, IH, andb_true_r.
  - case_match; [by apply esc_u_ascii | by apply esc_char_ascii].
  - apply esc_cp_ascii. lia.
Qed.

Lemma esc_utf8_canonical : esc_utf8 fmt_canonical utf8_str.
Proof. intros s Hs. by apply utf8_esc_raw. Qed.
Lemma esc_utf8_default : esc_utf8 fmt_default utf8_str.
Proof. intros s Hs. by apply utf8_ok_ascii, esc_ascii_ascii. Qed.
Lemma esc_utf8_indent2 : esc_utf8 fmt_indent2 utf8_str.
Proof. intros s Hs. by apply utf8_ok_ascii, esc_ascii_ascii. Qed.

(** [json.loads(json.dumps(j).encode("utf-8").decode("utf-8"))], for each format. *)
Lemma canonical_bytes_loads j :
  wf_json utf8_str j → json_loads_bytes (dumps fmt_canonical j) = Ok (canon true j).
Proof.
  intros Hj. unfold json_loads_bytes, decode_utf8, dumps.
  rewrite (utf8_dumps _ (λ _, True) utf8_str) by eauto using fmt_canonical_ok, esc_utf8_canonical.
  cbn [res_bind]. apply (json_loads_dumps fmt_canonical (λ _, True) fmt_canonical_ok).
  revert Hj. induction j as [| | | |l IH|d IH] using json_ind'; cbn [wf_json]; try done.
  - rewrite !Forall_map. intros H. revert IH H. rewrite !Forall_forall. unfold compose, id. naive_solver.
  - intros (H1 & H2 & H3). split_and!; [done | by apply Forall_true|]. revert IH H3.
    rewrite !Forall_map, !Forall_forall. unfold compose, id. naive_solver.
Qed.

Lemma indent2_bytes_loads j :
  wf_json utf8_str j → json_loads_bytes (dumps fmt_indent2 j) = Ok (canon true j).
Proof.
  intros Hj. unfold json_loads_bytes, decode_utf8, dumps.
  rewrite (utf8_dumps _ utf8_str utf8_str) by eauto using fmt_indent2_ok, esc_utf8_indent2.
  by apply (json_loads_dumps fmt_indent2 utf8_str fmt_indent2_ok).
Qed.

Lemma default_loads j :
  wf_json utf8_str j → json_loads (to_str (dumps fmt_default j)) = Ok (canon false j).
Proof. by apply (json_loads_dumps fmt_default utf8_str fmt_default_ok). Qed.

(** Without sorting nothing changes. *)
Lemma canon_false j : canon false j = j.
Proof.
  induction j as [| | | |l IH|d IH] using json_ind'; cbn [canon]; try done; f_equal.
  - induction IH; cbn; by f_equal.
  - induction IH as [|[k v] l Hv Hl IH]; cbn in *; [done|]. by rewrite Hv, IH.
Qed.

(** ** Parsing always ends

    The fuel of [json_loads] is enough for every text: it fails only as
    [json.loads] does, or with [Unmodelled]. *)

Definition json_error (e : exn) : Prop := e = JSONDecodeError ∨ e = Unmodelled.
(** A parser that consumes at least [k] characters or fails properly. *)
Definition parses {A} (k : nat) (l : bytes) (m : res (A * bytes)) : Prop :=
  match m with
  | Ok (_, r) => (length r + k ≤ length l)%nat
  | Err e => json_error e
  end.

Lemma parses_bind {A B} k k' l (m : res (A * bytes)) (f : A → bytes → res (B * bytes)) :
  parses k l m → (∀ a r, (length r + k ≤ length l)%nat → parses k' l (f a r)) →
  parses k' l (let? (a, r) := m in f a r).
Proof. destruct m as [[a r]|e]; cbn [parses res_bind]; auto. Qed.

Lemma hex4_length l n r : hex4 l = Some (n, r) → length l = (length r + 4)%nat.
Proof.
  intros H. unfold hex4 in H. repeat case_match; try done. simplify_eq. cbn. lia.
Qed.

Lemma p_escape_parses l : parses 1 l (p_escape l).
Proof.
  unfold p_escape. destruct l as [|e l2]; [by left|].
  destruct (simple_escape e); [cbn; lia|]. destruct (code e =? 117); [|by left].
  destruct (hex4 l2) as [[u l3]|] eqn:E; [|by left]. apply hex4_length in E.
  destruct (is_high u).
  - destruct l3 as [|b [|e' l4]]; [by right..|]. destruct (_ && _); [|by right].
    destruct (hex4 l4) as [[u2 l5]|] eqn:E2; [|by left]. apply hex4_length in E2.
    destruct (is_low u2); [|by right]. cbn [parses length] in *. lia.
  - destruct (is_low u); [by right|]. cbn [parses length]. lia.
Qed.

Lemma p_string_parses f l : (length l < f)%nat → parses 1 l (p_string f l).
Proof.
  revert l. induction f as [|f IH]; intros l Hf; [lia|]. cbn [p_string].
  destruct l as [|c l1]; [by left|]. cbn [length] in Hf.
  destruct (code c =? 34); [cbn; lia|]. destruct (code c =? 92).
  - pose proof (p_escape_parses l1) as He. destruct (p_escape l1) as [[u l2]|e]; [|done].
    cbn [parses res_bind] in *. specialize (IH l2 ltac:(lia)).
    destruct (p_string f l2) as [[s r]|e]; cbn [parses res_bind length] in *; [lia|done].
  - destruct (code c <? 32); [by left|]. specialize (IH l1 ltac:(lia)).
    destruct (p_string f l1) as [[s r]|e]; cbn [parses res_bind length] in *; [lia|done].
Qed.

Lemma parse_string_parses l : parses 1 l (parse_string l).
Proof.
  unfold parse_string. pose proof (p_string_parses (S (length l)) l ltac:(lia)) as H.
  destruct (p_string _ l) as [[s r]|e]; done.
Qed.

Lemma span_digits_length l : (length (span_digits l).1 + length (span_digits l).2 = length l)%nat.
Proof.
  induction l as [|c l IH]; [done|]. cbn [span_digits]. destruct (is_digit c); [|done].
  destruct (span_digits l) as [ds r]. cbn in *. lia.
Qed.

Lemma p_digits_parses l : parses 1 l (p_digits l).
Proof.
  unfold p_digits. destruct l as [|c l1]; [by left|]. destruct (is_digit c) eqn:Hc; [|by left].
  cbn [negb].
  assert (∃ ds r, (if code c =? 48 then ([c], l1) else span_digits (c :: l1)) = (ds, r) ∧
                  (length r + 1 ≤ length (c :: l1))%nat) as (ds & r & -> & Hr).
  { destruct (code c =? 48); [eexists _, _; split; [done|]; cbn; lia|].
    pose proof (span_digits_length (c :: l1)) as H.
    assert (0 < length (span_digits (c :: l1)).1)%nat.
    { cbn [span_digits]. rewrite Hc. destruct (span_digits l1). cbn. lia. }
    destruct (span_digits (c :: l1)) as [ds r]. eexists _, _. split; [done|]. cbn in *. lia. }
  repeat case_match; try (by right); cbn [parses]; simplify_eq; exact Hr.
Qed.

Lemma p_number_parses l : parses 1 l (p_number l).
Proof.
  unfold p_number. destruct l as [|c l1]; [by left|]. destruct (code c =? 45).
  - destruct (prefix_b _ _); [by right|]. pose proof (p_digits_parses l1) as H.
    destruct (p_digits l1) as [[n r]|e]; cbn [parses res_bind length] in *; [lia|done].
  - pose proof (p_digits_parses (c :: l1)) as H. by destruct (p_digits (c :: l1)) as [[n r]|e].
Qed.

Lemma p_lit_parses w v l : (0 < length (bs w))%nat → parses 1 l (p_lit w v l).
Proof.
  intros Hw. unfold p_lit. destruct (prefix_b (bs w) l) eqn:E; [|by left]. cbn [parses].
  rewrite length_skipn. assert (length (bs w) ≤ length l)%nat; [|lia].
  clear Hw. revert l E. generalize (bs w). intros p.
  induction p as [|a p IH]; intros [|b l]; cbn; try done; [lia|].
  intros [_ H]%andb_true_iff. apply IH in H. lia.
Qed.

Lemma skip_ws_length l : (length (skip_ws l) ≤ length l)%nat.
Proof. unfold skip_ws. induction l as [|c l IH]; [done|]. cbn. case_match; cbn; lia. Qed.

Lemma p_all_parses f :
  (∀ l, (2 * length l < f)%nat → parses 1 l (p_value f l)) ∧
  (∀ l, (2 * length l + 1 < f)%nat → parses 1 l (p_elems f l)) ∧
  (∀ l, (2 * length l < f)%nat → parses 1 l (p_members f l)).
Proof.
  induction f as [|f (IHv & IHe & IHm)]; [split_and!; intros; lia|]. split_and!; intros l Hf.
  - cbn [p_value]. destruct l as [|c l1]; [by left|]. cbn [length] in Hf.
    pose proof (skip_ws_length l1) as Hw.
    destruct (code c =? 34).
    { pose proof (parse_string_parses l1) as H. destruct (parse_string l1) as [[s r]|e];
        cbn [parses res_bind length] in *; [lia|done]. }
    destruct (code c =? 91).
    { destruct (skip_ws l1) as [|d r] eqn:E; [by left|]. cbn [length] in Hw.
      destruct (code d =? 93); [cbn; lia|]. specialize (IHe (d :: r)). cbn [length] in IHe.
      specialize (IHe ltac:(lia)). destruct (p_elems f (d :: r)) as [[vs r']|e];
        cbn [parses res_bind length] in *; [lia|done]. }
    destruct (code c =? 123).
    { destruct (skip_ws l1) as [|d r] eqn:E; [by left|]. cbn [length] in Hw.
      destruct (code d =? 125); [cbn; lia|]. specialize (IHm (d :: r)). cbn [length] in IHm.
      specialize (IHm ltac:(lia)). destruct (p_members f (d :: r)) as [[vs r']|e];
        cbn [parses res_bind length] in *; [lia|done]. }
    do 3 (case_match; [by apply p_lit_parses; cbn; lia|]). case_match; [by right|].
    apply p_number_parses.
  - cbn [p_elems]. pose proof (IHv l ltac:(lia)) as Hv.
    destruct (p_value f l) as [[v r]|e]; [|done]. cbn [parses res_bind] in *.
    pose proof (skip_ws_length r) as Hw. destruct (skip_ws r) as [|d r1]; [by left|].
    cbn [length] in Hw. destruct (code d =? 44).
    + pose proof (skip_ws_length r1) as Hw1. pose proof (IHe (skip_ws r1) ltac:(lia)) as He.
      destruct (p_elems f (skip_ws r1)) as [[vs r2]|e]; cbn [parses res_bind] in *; [lia|done].
    + destruct (code d =? 93); [cbn [parses]; lia|by left].
  - cbn [p_members]. destruct l as [|q l1]; [by left|]. cbn [length] in Hf.
    destruct (negb _); [by left|]. pose proof (parse_string_parses l1) as Hs.
    destruct (parse_string l1) as [[k r0]|e]; [|done]. cbn [parses res_bind] in *.
    pose proof (skip_ws_length r0) as Hw. destruct (skip_ws r0) as [|d r1]; [by left|].
    cbn [length] in Hw. destruct (negb _); [by left|].
    pose proof (skip_ws_length r1) as Hw1. pose proof (IHv (skip_ws r1) ltac:(lia)) as Hv.
    destruct (p_value f (skip_ws r1)) as [[v r2]|e]; [|done]. cbn [parses res_bind] in *.
    pose proof (skip_ws_length r2) as Hw2. destruct (skip_ws r2) as [|e r3]; [by left|].
    cbn [length] in Hw2. destruct (code e =? 44).
    + pose proof (skip_ws_length r3) as Hw3. pose proof (IHm (skip_ws r3) ltac:(lia)) as Hm.
      destruct (p_members f (skip_ws r3)) as [[kvs r4]|e']; cbn [parses res_bind length] in *; [lia|done].
    + destruct (code e =? 125); [cbn [parses length]; lia|by left].
Qed.

Lemma json_loads_error s e : json_loads s = Err e → json_error e.
Proof.
  unfold json_loads. intros E. set (l := skip_ws (bs s)) in *.
  pose proof (proj1 (p_all_parses (json_fuel l)) l ltac:(unfold json_fuel; lia)) as H.
  destruct (p_value (json_fuel l) l) as [[v r]|e']; cbn [parses res_bind] in *.
  - destruct (skip_ws r); [done|]. injection E as <-. by left.
  - by injection E as <-.
Qed.
