(* ===== verification/Primitives.v ===== *)
(** * External primitives

    The functions the program takes from outside its own source: the
    [cryptography] package (X25519, Ed25519, HKDF, PBKDF2, ChaCha20-Poly1305,
    AES-GCM), the C libraries behind [hashlib]/[hmac] and [zlib], and the BIP39
    [mnemonic] package.  They are class parameters; [CryptoLaws] and [ZlibLaws] state the
    documented behaviour the development relies on, and [Toy] is a concrete
    instance that satisfies all of it, used to evaluate witnesses. *)

From S2P Require Import Prelude PyStr.

Class Crypto := {
  (* hashlib.sha256(x).digest(); hmac.new(key, x, sha256).digest() *)
  sha256 : bytes → bytes;
  hmac_sha256 : bytes → bytes → bytes;
  (* HKDF(SHA256, length, salt, info).derive(ikm) *)
  hkdf_sha256 : bytes → bytes → bytes → nat → bytes;
  (* PBKDF2HMAC(SHA256, 32, salt, iterations).derive(passphrase); an error when
     the iteration count is not a positive machine integer *)
  pbkdf2_sha256 : bytes → bytes → Z → res bytes;
  (* X25519PrivateKey.from_private_bytes(k): public_key().public_bytes(); exchange
     (None: ValueError, the shared secret is all zeros) *)
  x25519_public : bytes → bytes;
  x25519_exchange : bytes → bytes → option bytes;
  (* Ed25519PrivateKey.from_private_bytes(k): public key, sign; verify *)
  ed25519_public : bytes → bytes;
  ed25519_sign : bytes → bytes → bytes;
  ed25519_verify : bytes → bytes → bytes → bool;
  (* ChaCha20Poly1305(key).encrypt / decrypt (None: InvalidTag) *)
  chacha_encrypt : bytes → bytes → bytes → bytes → bytes;
  chacha_decrypt : bytes → bytes → bytes → bytes → option bytes;
  (* AESGCM(key).encrypt / decrypt (None: InvalidTag) *)
  aesgcm_encrypt : bytes → bytes → bytes → bytes → bytes;
  aesgcm_decrypt : bytes → bytes → bytes → bytes → option bytes
}.

Class CryptoLaws (C : Crypto) : Prop := {
  sha256_length x : length (sha256 x) = 32%nat;
  hmac_length k x : length (hmac_sha256 k x) = 32%nat;
  hkdf_length i s f n : length (hkdf_sha256 i s f n) = n;
  pbkdf2_ok p s n : 1 ≤ n < 2 ^ 31 → ∃ k, pbkdf2_sha256 p s n = Ok k ∧ length k = 32%nat;
  x25519_public_length k : length (x25519_public k) = 32%nat;
  (* Diffie-Hellman: both sides compute the same secret *)
  x25519_agree a b :
    length a = 32%nat → length b = 32%nat →
    ∃ s, x25519_exchange a (x25519_public b) = Some s ∧
         x25519_exchange b (x25519_public a) = Some s;
  x25519_nonzero a p s : x25519_exchange a p = Some s → s ≠ repeat (byte_of 0) 32;
  x25519_exchange_length a p s : x25519_exchange a p = Some s → length s = 32%nat;
  ed25519_public_length k : length (ed25519_public k) = 32%nat;
  ed25519_sign_length k m : length (ed25519_sign k m) = 64%nat;
  ed25519_sound k m :
    length k = 32%nat → ed25519_verify (ed25519_public k) (ed25519_sign k m) m = true;
  (* AEAD: decryption inverts encryption, and accepts nothing but what
     encryption under the same key, nonce and associated data produces. *)
  chacha_correct k n p a c :
    length k = 32%nat → length n = 12%nat →
    chacha_decrypt k n c a = Some p ↔ c = chacha_encrypt k n p a;
  chacha_length k n p a : length (chacha_encrypt k n p a) = (length p + 16)%nat;
  aesgcm_correct k n p a c :
    length k = 32%nat → length n = 12%nat →
    aesgcm_decrypt k n c a = Some p ↔ c = aesgcm_encrypt k n p a
}.

(** The BIP39 package: [Mnemonic("english").check] and [Mnemonic.to_seed]. *)
Class Bip39 := {
  bip39_check : string → bool;
  bip39_to_seed : string → string → bytes
}.

Class Zlib := {
  zlib_compress : bytes → bytes;
  zlib_decompress : bytes → res bytes
}.
Class ZlibLaws (Z : Zlib) : Prop := {
  zlib_roundtrip x : zlib_decompress (zlib_compress x) = Ok x;
  (* decompress fails with zlib.error and nothing else *)
  zlib_error x e : zlib_decompress x = Err e → e = ZlibError
}.

(** [X25519PrivateKey.from_private_bytes(private).exchange(
    X25519PublicKey.from_public_bytes(public))]: both constructors want 32 bytes. *)
Definition x25519 {C : Crypto} (private public : bytes) : res bytes :=
  raise_if negb (Nat.eqb (length private) 32) with ValueError ;;
  raise_if negb (Nat.eqb (length public) 32) with ValueError ;;
  of_option ValueError (x25519_exchange private public).

Lemma x25519_both {C : Crypto} {L : CryptoLaws C} a b :
  length a = 32%nat → length b = 32%nat →
  ∃ s, x25519 a (x25519_public b) = Ok s ∧ x25519 b (x25519_public a) = Ok s ∧
       length s = 32%nat.
Proof.
  intros Ha Hb. destruct (x25519_agree a b Ha Hb) as (s & E1 & E2). exists s.
  unfold x25519. rewrite !x25519_public_length, Ha, Hb. cbn [Nat.eqb negb]. rewrite E1, E2.
  split_and!; [done..|]. by eapply x25519_exchange_length.
Qed.

Lemma x25519_length {C : Crypto} {L : CryptoLaws C} a p s : x25519 a p = Ok s → length s = 32%nat.
Proof. unfold x25519. intros E. rinv E. by eapply x25519_exchange_length. Qed.

(** A toy instance: weak, but it has every documented property and computes. *)
Module Toy.
Definition mask : Z := 2 ^ 32 - 1.
Definition mix (l : bytes) : Z :=
  fold_left (λ acc c, Z.land (acc * 257 + byte_val c + 1) mask) l 7.
Definition pad (n : nat) (z : Z) : bytes := repeat (byte_of 0) (n - 4) ++ take n (to_be_raw 4 z).
Definition expand (n : nat) (l : bytes) : bytes :=
  let m := mix l in
  if (n <=? 32)%nat then pad n m else pad 32 m ++ pad (n - 32) (m * 5 + 1).
Definition tag (k n p a : bytes) : bytes := expand 16 (k ++ n ++ bs "/" ++ a ++ bs "/" ++ p).
Definition fit (l : bytes) : bytes := take 32 (l ++ repeat (byte_of 0) 32).

(* one-time pad with the key, plain after it *)
Fixpoint xor_with (k l : bytes) : bytes :=
  match l, k with
  | c :: l', d :: k' => byte_of (Z.lxor (byte_val c) (byte_val d)) :: xor_with k' l'
  | _, _ => l
  end.

Definition seal (k n p a : bytes) : bytes := xor_with k p ++ tag k n p a.
Definition unseal (k n c a : bytes) : option bytes :=
  let m := (length c - 16)%nat in
  let p := xor_with k (take m c) in
  if bool_decide (c = seal k n p a) then Some p else None.

Definition toy_sha (x : bytes) : bytes := expand 32 x.

#[export] Instance toy_crypto : Crypto := {|
  sha256 := toy_sha;
  hmac_sha256 := λ k x, expand 32 (k ++ bs "|" ++ x);
  hkdf_sha256 := λ i s f n, expand n (s ++ bs "|" ++ i ++ bs "|" ++ f);
  pbkdf2_sha256 := λ p s n, if n <=? 0 then Err ValueError else Ok (expand 32 (p ++ bs "|" ++ s));
  x25519_public := fit;
  x25519_exchange := λ k p, Some (byte_of 1 :: pad 31 (mix k + mix p));
  ed25519_public := fit;
  ed25519_sign := λ k m, expand 64 (fit k ++ m);
  ed25519_verify := λ p s m, bool_decide (s = expand 64 (p ++ m));
  chacha_encrypt := seal;
  chacha_decrypt := unseal;
  aesgcm_encrypt := seal;
  aesgcm_decrypt := unseal
|}.

Lemma pad_length n z : length (pad n z) = n.
Proof. unfold pad. rewrite length_app, repeat_length, length_take, to_be_raw_length. lia. Qed.

Lemma expand_length n l : length (expand n l) = n.
Proof.
  unfold expand. destruct (Nat.leb_spec n 32); rewrite ?length_app, ?pad_length; lia.
Qed.

Lemma lxor_byte x y : 0 ≤ x < 256 → 0 ≤ y < 256 → 0 ≤ Z.lxor x y < 256.
Proof.
  intros Hx Hy. split; [apply Z.lxor_nonneg; lia|].
  change 256 with (2 ^ 8). destruct (decide (Z.lxor x y = 0)) as [->|]; [lia|].
  apply Z.log2_lt_pow2.
  - pose proof (proj2 (Z.lxor_nonneg x y)). lia.
  - pose proof (Z.log2_lxor x y ltac:(lia) ltac:(lia)).
    assert (Z.log2 x < 8).
    { destruct (decide (x = 0)) as [->|]; [done|]. apply Z.log2_lt_pow2; lia. }
    assert (Z.log2 y < 8).
    { destruct (decide (y = 0)) as [->|]; [done|]. apply Z.log2_lt_pow2; lia. }
    lia.
Qed.

Lemma xor_byte_inv c d :
  byte_of (Z.lxor (byte_val (byte_of (Z.lxor (byte_val c) (byte_val d)))) (byte_val d)) = c.
Proof.
  apply byte_val_inj. rewrite !byte_val_of.
  pose proof (byte_val_range c). pose proof (byte_val_range d).
  rewrite (Z.mod_small (Z.lxor (byte_val c) (byte_val d))) by (apply lxor_byte; lia).
  rewrite Z.lxor_assoc, Z.lxor_nilpotent, Z.lxor_0_r. apply Z.mod_small. lia.
Qed.

Lemma xor_with_inv k l : xor_with k (xor_with k l) = l.
Proof.
  revert k. induction l as [|c l IH]; intros [|d k]; cbn [xor_with]; [done..|].
  by rewrite IH, xor_byte_inv.
Qed.

Lemma xor_with_length k l : length (xor_with k l) = length l.
Proof. revert k. induction l as [|c l IH]; intros [|d k]; cbn; by rewrite ?IH. Qed.

Lemma seal_length k n p a : length (seal k n p a) = (length p + 16)%nat.
Proof.
  unfold seal, tag. by rewrite length_app, xor_with_length, expand_length.
Qed.

Lemma unseal_correct k n p a c : unseal k n c a = Some p ↔ c = seal k n p a.
Proof.
  unfold unseal. split.
  - case_bool_decide as E; [|done]. by intros [= <-].
  - intros ->. rewrite seal_length. rewrite Nat.add_sub.
    assert (take (length p) (seal k n p a) = xor_with k p) as ->.
    { unfold seal. rewrite <-(xor_with_length k p) at 1. by rewrite take_app_length. }
    rewrite xor_with_inv. by rewrite bool_decide_eq_true_2.
Qed.

Lemma fit_length l : length (fit l) = 32%nat.
Proof. unfold fit. rewrite length_take, length_app, repeat_length. lia. Qed.

Lemma fit_id l : length l = 32%nat → fit l = l.
Proof. unfold fit. intros <-. apply take_app_length. Qed.

#[export] Instance toy_laws : CryptoLaws toy_crypto.
Proof.
  split; intros; try apply expand_length; try apply fit_length.
  - unfold pbkdf2_sha256, toy_crypto. rewrite (proj2 (Z.leb_gt n 0)) by lia.
    eexists. split; [done|]. apply expand_length.
  - unfold x25519_exchange, x25519_public, toy_crypto. rewrite !fit_id by assumption.
    eexists. split; [done|]. by rewrite Z.add_comm.
  - unfold x25519_exchange, toy_crypto in H. injection H as H. subst s. intros E.
    apply (f_equal (λ l, byte_val (hd "0"%char l))) in E. vm_compute in E. discriminate.
  - unfold x25519_exchange, toy_crypto in H. injection H as H. subst s. cbn [length].
    by rewrite pad_length.
  - by apply bool_decide_eq_true_2.
  - apply unseal_correct.
  - apply seal_length.
  - apply unseal_correct.
Qed.

#[export] Instance toy_bip39 : Bip39 := {|
  bip39_check := λ s, prefix_b (bs "word") (bs s);
  bip39_to_seed := λ w p, expand 64 (bs w ++ bs "|" ++ bs p)
|}.

#[export] Instance toy_zlib : Zlib := {|
  zlib_compress := λ x, "Z"%char :: x;
  zlib_decompress := λ x, match x with
                          | c :: x' => if bool_decide (c = "Z"%char) then Ok x' else Err ZlibError
                          | [] => Err ZlibError
                          end
|}.
#[export] Instance toy_zlib_laws : ZlibLaws toy_zlib.
Proof. split; [done|]. intros [|c x] e; simpl; [by intros [= <-]|]. case_bool_decide; by intros [= <-]. Qed.
End Toy.
