(* ===== verification/Dict.v ===== *)
(** * Dictionary lemmas

    Lookup, update, removal and sorting of JSON dictionaries, and the length of
    their canonical text: the lemmas the round-trip proofs of the components
    share. *)

From S2P Require Import Prelude PyStr Json JsonProps.

(** ** Lookup *)

Lemma dget_elem k v d : dget k d = Some v → (k, v) ∈ d.
Proof.
  induction d as [|[k' v'] d IH]; [done|]. cbn [dget].
  destruct (String.eqb_spec k k') as [->|]; [intros [= ->]; left | intros H; right; auto].
Qed.

Lemma dget_None k d : dget k d = None ↔ k ∉ map fst d.
Proof.
  induction d as [|[k' v'] d IH]; cbn [dget map fst].
  - split; [intros _; apply not_elem_of_nil | done].
  - destruct (String.eqb_spec k k') as [->|Hne]; set_solver.
Qed.

Lemma elem_dget k v d : NoDup (map fst d) → (k, v) ∈ d → dget k d = Some v.
Proof.
  intros Hnd Hin. destruct (dget k d) as [w|] eqn:E.
  - apply dget_elem in E. pose proof (NoDup_fst_inj d _ _ Hnd E Hin eq_refl) as H. congruence.
  - apply dget_None in E. destruct E. apply list_elem_of_fmap. by exists (k, v).
Qed.

Lemma dget_perm k d e : d ≡ₚ e → NoDup (map fst d) → dget k d = dget k e.
Proof.
  intros Hp Hnd. destruct (dget k d) as [v|] eqn:E.
  - symmetry. apply elem_dget; [by rewrite <-Hp|]. rewrite <-Hp. by apply dget_elem.
  - symmetry. apply dget_None. apply dget_None in E. by rewrite <-Hp.
Qed.

Lemma dget_map (g : json → json) k d :
  dget k (map (λ kv, (kv.1, g kv.2)) d) = g <$> dget k d.
Proof. induction d as [|[k' v] d IH]; [done|]. cbn. by case_match. Qed.

(** Members of a dictionary after a trip through sorted text. *)
Definition canon_dict (srt : bool) (d : dict) : dict :=
  let d' := map (λ kv, (kv.1, canon srt kv.2)) d in if srt then sort_items d' else d'.
Lemma canon_obj srt d : canon srt (JObj d) = JObj (canon_dict srt d).
Proof. reflexivity. Qed.

Lemma dget_canon srt k d :
  NoDup (map fst d) → dget k (canon_dict srt d) = canon srt <$> dget k d.
Proof.
  intros Hnd. unfold canon_dict. rewrite <-dget_map. destruct srt; [|done].
  symmetry. apply dget_perm; [by rewrite sort_items_perm|]. by rewrite keys_map.
Qed.

Lemma canon_dget srt d d' k :
  NoDup (map fst d) → NoDup (map fst d') → canon srt (JObj d) = canon srt (JObj d') →
  canon srt <$> dget k d = canon srt <$> dget k d'.
Proof.
  intros Hd Hd' H. rewrite !canon_obj in H.
  apply (f_equal (λ j, match j with JObj d => d | _ => [] end)) in H. cbv beta iota in H.
  rewrite <-(dget_canon srt k d Hd), <-(dget_canon srt k d' Hd'). by rewrite H.
Qed.
Lemma jget_canon srt k d v :
  NoDup (map fst d) → dget k d = Some v → jget k (canon srt (JObj d)) = Ok (canon srt v).
Proof. intros Hnd E. rewrite canon_obj. cbn [jget]. by rewrite dget_canon, E. Qed.
Lemma jitem_canon srt k d v :
  NoDup (map fst d) → dget k d = Some v → jitem k (canon srt (JObj d)) = Ok (canon srt v).
Proof. intros Hnd E. rewrite canon_obj. cbn [jitem]. by rewrite dget_canon, E. Qed.
Lemma jget_canon_None srt k d :
  NoDup (map fst d) → dget k d = None → jget k (canon srt (JObj d)) = Ok JNull.
Proof. intros Hnd E. rewrite canon_obj. cbn [jget]. by rewrite dget_canon, E. Qed.

(** ** Update and removal *)

Lemma dget_dset k v d : dget k (dset k v d) = Some v.
Proof.
  induction d as [|[k' v'] d IH]; cbn [dset dget]; [by rewrite String.eqb_refl|].
  destruct (String.eqb_spec k k') as [->|Hne]; cbn [dget]; [by rewrite String.eqb_refl|].
  by rewrite (proj2 (String.eqb_neq k k') Hne).
Qed.

Lemma dget_dset_ne k k' v d : k ≠ k' → dget k (dset k' v d) = dget k d.
Proof.
  intros Hne. induction d as [|[k2 v2] d IH]; cbn [dset dget].
  - by rewrite (proj2 (String.eqb_neq k k') Hne).
  - destruct (String.eqb_spec k' k2) as [->|H2]; cbn [dget].
    + by rewrite (proj2 (String.eqb_neq k k2) Hne).
    + by case_match.
Qed.

Lemma dset_keys_elem x k v d : x ∈ map fst (dset k v d) ↔ x = k ∨ x ∈ map fst d.
Proof.
  induction d as [|[k2 v2] d IH]; cbn [dset map fst]; [set_solver|].
  destruct (String.eqb_spec k k2) as [->|]; cbn [map fst]; set_solver.
Qed.

Lemma dset_nodup k v d : NoDup (map fst d) → NoDup (map fst (dset k v d)).
Proof.
  induction d as [|[k2 v2] d IH]; cbn [dset map fst]; intros Hnd.
  - apply NoDup_cons. split; [apply not_elem_of_nil|constructor].
  - apply NoDup_cons in Hnd as [Hk Hnd].
    destruct (String.eqb_spec k k2) as [->|]; cbn [map fst]; apply NoDup_cons; [done|].
    split; [|by apply IH]. rewrite dset_keys_elem. set_solver.
Qed.

Lemma dpop_elem x k d : x ∈ dpop k d ↔ x ∈ d ∧ x.1 ≠ k.
Proof.
  unfold dpop. rewrite !list_elem_of_In, filter_In, negb_true_iff, String.eqb_neq. naive_solver.
Qed.

Lemma dget_dpop k d : dget k (dpop k d) = None.
Proof.
  apply dget_None. intros ([k' v] & -> & [_ Hin]%dpop_elem)%list_elem_of_fmap. done.
Qed.
Lemma dget_dpop_ne k k' d : k ≠ k' → dget k (dpop k' d) = dget k d.
Proof.
  intros Hne. induction d as [|[k2 v2] d IH]; [done|]. unfold dpop in *. cbn [List.filter fst].
  destruct (String.eqb_spec k' k2) as [->|]; cbn [negb dget]; [|by rewrite IH].
  by rewrite (proj2 (String.eqb_neq k k2) Hne).
Qed.

Lemma dpop_dset k v d : dpop k (dset k v d) = dpop k d.
Proof.
  induction d as [|[k2 v2] d IH]; cbn [dset].
  - unfold dpop. cbn. by rewrite String.eqb_refl.
  - destruct (String.eqb_spec k k2) as [->|Hne]; unfold dpop in *; cbn [List.filter fst];
      [by rewrite String.eqb_refl|]. by rewrite IH.
Qed.

Lemma dpop_nodup k d : NoDup (map fst d) → NoDup (map fst (dpop k d)).
Proof.
  induction d as [|[k2 v2] d IH]; [done|]. cbn [map fst]. intros [Hk Hnd]%NoDup_cons.
  unfold dpop in *. cbn [List.filter fst]. destruct (negb _); [|by apply IH]. cbn [map fst].
  apply NoDup_cons. split; [|by apply IH]. intros ([k3 v3] & E & Hin)%list_elem_of_fmap.
  apply Hk, list_elem_of_fmap. exists (k3, v3). split; [done|].
  by apply (dpop_elem (k3, v3) k d) in Hin as [? _].
Qed.

Lemma StronglySorted_List_filter {A} (R : A → A → Prop) P (l : list A) :
  StronglySorted R l → StronglySorted R (List.filter P l).
Proof.
  induction 1 as [|x l Hs IH Hx]; cbn; [constructor|]. destruct (P x); [|done].
  constructor; [done|]. apply List.Forall_forall. intros y [Hy _]%filter_In.
  rewrite List.Forall_forall in Hx. auto.
Qed.

Lemma List_filter_perm {A} P (l l' : list A) : l ≡ₚ l' → List.filter P l ≡ₚ List.filter P l'.
Proof.
  induction 1 as [|x l l' _ IH|x y l|l1 l2 l3 _ IH1 _ IH2]; cbn; [done| | |by etrans].
  - by destruct (P x); rewrite IH.
  - destruct (P x), (P y); [apply perm_swap|done..].
Qed.

Lemma sort_items_dpop k d :
  NoDup (map fst d) → sort_items (dpop k d) = dpop k (sort_items d).
Proof.
  intros Hnd. apply (StronglySorted_unique_strong key_le).
  - intros x y Hx Hy Hxy Hyx. rewrite sort_items_perm in Hx.
    apply dpop_elem in Hx as [Hx _]. apply dpop_elem in Hy as [Hy _]. rewrite sort_items_perm in Hy.
    apply (NoDup_fst_inj d); [done..|]. by apply (anti_symm String.le).
  - apply sort_items_sorted.
  - apply StronglySorted_List_filter, sort_items_sorted.
  - rewrite sort_items_perm. apply List_filter_perm. by rewrite sort_items_perm.
Qed.

Lemma dpop_map (g : json → json) k d :
  dpop k (map (λ kv, (kv.1, g kv.2)) d) = map (λ kv, (kv.1, g kv.2)) (dpop k d).
Proof.
  induction d as [|[k2 v2] d IH]; [done|]. unfold dpop in *. cbn [map List.filter fst].
  destruct (negb _); cbn [map]; by rewrite IH.
Qed.

Lemma canon_dict_dpop srt k d :
  NoDup (map fst d) → dpop k (canon_dict srt d) = canon_dict srt (dpop k d).
Proof.
  intros Hnd. unfold canon_dict. rewrite <-dpop_map. destruct srt; [|done].
  symmetry. apply sort_items_dpop. by rewrite keys_map.
Qed.

(** ** Well-formed dictionaries *)

Definition wf_dict (d : dict) : Prop := wf_json utf8_str (JObj d).

Lemma wf_dict_nodup d : wf_dict d → NoDup (map fst d).
Proof. by intros [H _]. Qed.

Lemma wf_dict_elems d :
  wf_dict d ↔ NoDup (map fst d) ∧ Forall (λ kv, utf8_str kv.1 ∧ wf_json utf8_str kv.2) d.
Proof.
  unfold wf_dict. cbn [wf_json]. rewrite !Forall_map, Forall_and. unfold compose, id. naive_solver.
Qed.

Lemma dget_wf k v d : wf_dict d → dget k d = Some v → wf_json utf8_str v.
Proof.
  intros [_ H]%wf_dict_elems E%dget_elem. rewrite Forall_forall in H. by apply (H (k, v)).
Qed.
Lemma wf_dset k v d : utf8_str k → wf_json utf8_str v → wf_dict d → wf_dict (dset k v d).
Proof.
  intros Hk Hv. rewrite !wf_dict_elems. intros [Hnd Hd]. split; [by apply dset_nodup|].
  clear Hnd. induction Hd as [|[k2 v2] d H2 Hd IH]; cbn [dset]; [by repeat constructor|].
  destruct (String.eqb k k2); by constructor.
Qed.

Lemma wf_dpop k d : wf_dict d → wf_dict (dpop k d).
Proof.
  rewrite !wf_dict_elems. intros [Hnd Hd]. split; [by apply dpop_nodup|].
  rewrite Forall_forall in *. intros x [Hx _]%dpop_elem. auto.
Qed.

(** ** Length of the canonical text *)

Lemma join_length sep l :
  l ≠ [] → (length (join sep l) + length sep
            = sum_list_with length l + length l * length sep)%nat.
Proof.
  induction l as [|x l IH]; [done|]. intros _. destruct l as [|y l]; [cbn; lia|].
  change (join sep (x :: y :: l)) with (x ++ sep ++ join sep (y :: l)).
  rewrite !length_app. specialize (IH ltac:(done)). cbn [sum_list_with length] in *. lia.
Qed.

Lemma sum_list_with_map {A B} (f : B → nat) (g : A → B) l :
  sum_list_with f (map g l) = sum_list_with (λ x, f (g x)) l.
Proof. induction l; cbn; auto. Qed.

Lemma canonical_length d :
  d ≠ [] →
  length (dumps fmt_canonical (JObj d))
  = (1 + length d + sum_list_with (λ kv, length (member_b fmt_canonical 1 kv)) d)%nat.
Proof.
  intros Hd. unfold dumps. rewrite dumps_at_obj by done. rewrite !length_app.
  set (w := write_order fmt_canonical d). assert (w ≡ₚ d) as Hp by apply write_order_perm.
  set (l := map (member_b fmt_canonical 1) w).
  assert (length l = length d) as Hl.
  { unfold l. rewrite length_map. by rewrite Hp. }
  pose proof (join_length (","%char :: f_item fmt_canonical 0) l) as Hj.
  assert (sum_list_with length l
          = sum_list_with (λ kv, length (member_b fmt_canonical 1 kv)) d) as E.
  { unfold l. rewrite sum_list_with_map. by apply sum_list_with_perm. }
  rewrite E, Hl in Hj. destruct d as [|kv d]; [done|].
  assert (l ≠ []) as Hne by (intros ->; done). specialize (Hj Hne).
  cbn [f_open f_close f_item fmt_canonical no_ws length bs] in *. lia.
Qed.

Lemma dset_sum (f : string * json → nat) k v v' d :
  (sum_list_with f (dset k v d) + f (k, v') = sum_list_with f (dset k v' d) + f (k, v))%nat.
Proof.
  induction d as [|[k2 v2] d IH]; cbn [dset sum_list_with]; [lia|].
  destruct (String.eqb k k2); cbn [sum_list_with]; lia.
Qed.

Lemma dset_length k v v' d : length (dset k v d) = length (dset k v' d).
Proof. induction d as [|[k2 v2] d IH]; cbn; [done|]. case_match; cbn; auto. Qed.

Lemma dset_not_nil k v d : dset k v d ≠ [].
Proof. destruct d as [|[k2 v2] d]; cbn; [done|]. by case_match. Qed.

(** Well-formedness of a dictionary with known keys. *)
Ltac solve_nodup := apply (bool_decide_unpack _); vm_compute; exact I.
Ltac solve_wf :=
  repeat first
    [ progress cbn [fst snd app]
    | match goal with
      | |- wf_dict _ => apply wf_dict_elems
      | |- wf_json utf8_str (JObj ?d) => change (wf_dict d)
      | |- wf_json utf8_str (JStr ?s) => change (utf8_str s)
      | |- wf_json utf8_str (JInt _) => exact I
      | |- wf_json utf8_str (JBool _) => exact I
      | |- wf_json utf8_str JNull => exact I
      | |- NoDup _ => solve_nodup
      | |- _ ∧ _ => split
      | |- Forall _ [] => apply List.Forall_nil
      | |- Forall _ (_ :: _) => apply List.Forall_cons
      | |- utf8_str ?s => assumption
      | |- utf8_str ?s => solve [auto with nk]
      | |- utf8_str ?s => (vm_compute; reflexivity)
      | |- wf_json utf8_str _ => assumption
      end ].

Lemma canon_dict_length srt d : length (canon_dict srt d) = length d.
Proof.
  unfold canon_dict. destruct srt; [|by rewrite length_map].
  rewrite (Permutation_length (sort_items_perm _)). by rewrite length_map.
Qed.

Lemma truthy_canon srt j : truthy (canon srt j) = truthy j.
Proof.
  destruct j as [| | | |l|d]; cbn [canon]; try done; [by destruct l|].
  change (truthy (JObj (canon_dict srt d)) = truthy (JObj d)). pose proof (canon_dict_length srt d).
  by destruct d, (canon_dict srt _).
Qed.

(** What a reader sees of the dictionary [d] in the parsed value [J]. *)
Record views (srt : bool) (d : dict) (J : json) : Prop := {
  vw_dict : is_dict J = true;
  vw_truthy : truthy J = truthy (JObj d);
  vw_get k v : dget k d = Some v → jget k J = Ok (canon srt v);
  vw_none k : dget k d = None → jget k J = Ok JNull;
  vw_item k v : dget k d = Some v → jitem k J = Ok (canon srt v);
  vw_def k dflt v : dget k d = Some v → jget_def k dflt J = Ok (canon srt v);
  vw_def_none k dflt : dget k d = None → jget_def k dflt J = Ok dflt
}.

Lemma canon_views srt d : NoDup (map fst d) → views srt d (canon srt (JObj d)).
Proof.
  intros Hnd. split; intros; rewrite ?canon_obj; try done.
  - by rewrite <-canon_obj, truthy_canon.
  - by apply jget_canon.
  - by apply jget_canon_None.
  - by apply jitem_canon.
  - cbn [jget_def]. by rewrite dget_canon, H.
  - cbn [jget_def]. by rewrite dget_canon, H.
Qed.

Lemma canon_str srt s : canon srt (JStr s) = JStr s.
Proof. reflexivity. Qed.
Lemma canon_int srt n : canon srt (JInt n) = JInt n.
Proof. reflexivity. Qed.
Lemma canon_bool srt b : canon srt (JBool b) = JBool b.
Proof. reflexivity. Qed.
Lemma canon_null srt : canon srt JNull = JNull.
Proof. reflexivity. Qed.

(** [view H]: replace the lookups in [J] by the members of [d]. *)
Ltac view H :=
  repeat (first
    [ erewrite (vw_get _ _ _ H) by reflexivity
    | erewrite (vw_item _ _ _ H) by reflexivity
    | erewrite (vw_def _ _ _ H) by reflexivity
    | rewrite (vw_none _ _ _ H) by reflexivity
    | rewrite (vw_def_none _ _ _ H) by reflexivity
    | rewrite (vw_dict _ _ _ H)
    | rewrite (vw_truthy _ _ _ H) ];
    cbn [res_bind negb]; rewrite ?canon_str, ?canon_int, ?canon_bool, ?canon_null).
(** [canon_intro d J H]: name the parsed form of [d]. *)
Tactic Notation "canon_intro" constr(srt) constr(d) ident(J) ident(H) :=
  let Hnd := fresh in
  assert (NoDup (map fst d)) as Hnd by (first [assumption | by apply wf_dict_nodup | solve_nodup]);
  pose proof (canon_views srt d Hnd) as H; clear Hnd;
  set (J := canon srt (JObj d)) in *; clearbody J.
