(* ===== verification/Encoding.v ===== *)
(** * Canonical encodings ([crypto/encoding.py]) *)

From S2P Require Import Prelude PyStr Json JsonProps Primitives Dict.

(** ** base64url *)

Definition b64_alphabet : bytes :=
  bs "ABCDEFGHIJKLMNOPQRSTUVWXYZabcdefghijklmnopqrstuvwxyz0123456789-_".
Definition b64_char (v : Z) : ascii := nth (Z.to_nat v) b64_alphabet "="%char.
Definition b64_pad : ascii := "="%char.

(** [base64.urlsafe_b64encode]. *)
Fixpoint urlsafe_b64encode (l : bytes) : bytes :=
  match l with
  | [] => []
  | [a] =>
      let x := byte_val a in
      [b64_char (x / 4); b64_char (x mod 4 * 16); b64_pad; b64_pad]
  | [a; b] =>
      let x := byte_val a in let y := byte_val b in
      [b64_char (x / 4); b64_char (x mod 4 * 16 + y / 16); b64_char (y mod 16 * 4); b64_pad]
  | a :: b :: c :: l' =>
      let x := byte_val a in let y := byte_val b in let z := byte_val c in
      b64_char (x / 4) :: b64_char (x mod 4 * 16 + y / 16)
      :: b64_char (y mod 16 * 4 + z / 64) :: b64_char (z mod 64)
      :: urlsafe_b64encode l'
  end.

(** The value of a character, [-]/[_] translated to [+]/[/] first. *)
Definition b64_val (c : ascii) : option Z :=
  let x := code c in
  if (65 <=? x) && (x <=? 90) then Some (x - 65)
  else if (97 <=? x) && (x <=? 122) then Some (x - 71)
  else if (48 <=? x) && (x <=? 57) then Some (x + 4)
  else if (x =? 45) || (x =? 43) then Some 62
  else if (x =? 95) || (x =? 47) then Some 63
  else None.

(** [binascii.a2b_base64] in its lenient mode: characters outside the alphabet
    are skipped, a complete padding ends the data. *)
Fixpoint a2b_base64 (quad : Z) (left : Z) (pads : Z) (l : bytes) : res bytes :=
  match l with
  | [] => if quad =? 0 then Ok [] else Err BinasciiError
  | c :: l' =>
      if bool_decide (c = b64_pad) then
        if (2 <=? quad) then
          if (4 <=? quad + (pads + 1)) then Ok [] else a2b_base64 quad left (pads + 1) l'
        else a2b_base64 quad left pads l'
      else
        match b64_val c with
        | None => a2b_base64 quad left pads l'
        | Some v =>
            if quad =? 0 then a2b_base64 1 v 0 l'
            else if quad =? 1 then
              let? r := a2b_base64 2 (v mod 16) 0 l' in Ok (byte_of (left * 4 + v / 16) :: r)
            else if quad =? 2 then
              let? r := a2b_base64 3 (v mod 4) 0 l' in Ok (byte_of (left * 16 + v / 4) :: r)
            else
              let? r := a2b_base64 0 0 0 l' in Ok (byte_of (left * 64 + v) :: r)
        end
  end.
Definition urlsafe_b64decode (l : bytes) : res bytes := a2b_base64 0 0 0 l.

Definition b64e (data : bytes) : string :=
  to_str (rstrip_chars (λ c, bool_decide (c = b64_pad)) (urlsafe_b64encode data)).

(** [b64d] on text that is already bytes, and on a [str]. *)
Definition b64d_bytes (text : bytes) : res bytes :=
  urlsafe_b64decode (text ++ repeat b64_pad (Z.to_nat (- blen text mod 4))).
Definition b64d (text : string) : res bytes :=
  let? t := encode_ascii text in b64d_bytes t.
(** [b64d] on a value taken from JSON: anything but a [str] is a [TypeError]. *)
Definition b64d_json (j : json) : res bytes :=
  match j with JStr s => b64d s | _ => Err TypeError end.

(** ** Crockford base32 *)

Definition B32_ALPHABET : bytes := bs "0123456789ABCDEFGHJKMNPQRSTVWXYZ".
Definition b32_char (v : Z) : ascii := nth (Z.to_nat v) B32_ALPHABET "0"%char.

(** The inner [while bits >= 5] loop; eight new bits and at most four old ones
    make at most two rounds. *)
Fixpoint b32_emit (fuel : nat) (value bits : Z) : bytes * Z :=
  match fuel with
  | O => ([], bits)
  | S f =>
      if 5 <=? bits then
        let bits := bits - 5 in
        let '(out, bits') := b32_emit f value bits in
        (b32_char (Z.land (Z.shiftr value bits) 31) :: out, bits')
      else ([], bits)
  end.
Fixpoint b32e_loop (value bits : Z) (data : bytes) : bytes :=
  match data with
  | [] => if bits =? 0 then [] else [b32_char (Z.land (Z.shiftl value (5 - bits)) 31)]
  | byte :: data' =>
      let value := Z.lor (Z.shiftl value 8) (byte_val byte) in
      let '(out, bits) := b32_emit 3 value (bits + 8) in
      out ++ b32e_loop value bits data'
  end.
Definition b32e (data : bytes) : string := to_str (b32e_loop 0 0 data).

Definition b32_confusable (c : ascii) : ascii :=
  if bool_decide (c = "I"%char) then "1"%char else
  if bool_decide (c = "L"%char) then "1"%char else
  if bool_decide (c = "O"%char) then "0"%char else
  if bool_decide (c = "U"%char) then "V"%char else c.
Fixpoint index_of (c : ascii) (l : bytes) (i : Z) : option Z :=
  match l with
  | [] => None
  | d :: l' => if bool_decide (c = d) then Some i else index_of c l' (i + 1)
  end.
Definition B32_LOOKUP (c : ascii) : option Z := index_of c B32_ALPHABET 0.

Fixpoint b32d_loop (value bits : Z) (text : bytes) : res bytes :=
  match text with
  | [] => Ok []
  | ch :: text' =>
      match B32_LOOKUP (b32_confusable ch) with
      | None => Err ValueError
      | Some digit =>
          let value := Z.lor (Z.shiftl value 5) digit in
          let bits := bits + 5 in
          if 8 <=? bits then
            let bits := bits - 8 in
            let? r := b32d_loop value bits text' in
            Ok (byte_of (Z.land (Z.shiftr value bits) 255) :: r)
          else b32d_loop value bits text'
      end
  end.
(** [text.strip().replace("-", "").upper()], then the loop.  Upper-casing a
    non-ASCII character is outside the model. *)
Definition b32d (text : string) : res bytes :=
  let t := List.filter (λ c, negb (bool_decide (c = "-"%char))) (strip_b (bs text)) in
  if negb (all_ascii t) then Err Unmodelled else b32d_loop 0 0 (map ascii_upper_c t).

(** ** Canonical JSON and contact card text *)

Definition canonical_json (obj : json) : bytes := dumps fmt_canonical obj.

Definition CARD_PREFIX : string := "nk://1/".

Section cards.
Context {Z : Zlib}.

Definition card_encode (payload : json) : string :=
  CARD_PREFIX +:+ b64e (zlib_compress (canonical_json payload)).

(** Only [zlib.error] is replaced; decoding errors pass through.  A non-ASCII
    character where the prefix is expected is outside the model. *)
Definition card_decode (text : string) : res json :=
  let l := strip_b (bs text) in
  let n := length (bs CARD_PREFIX) in
  if negb (all_ascii (take n l)) then Err Unmodelled else
  if negb (prefix_b (bs CARD_PREFIX) (ascii_lower (take n l))) then Err ValueError else
  let? raw := b64d (to_str (drop n l)) in
  let? text := except (isa ZlibError) ValueError (zlib_decompress raw) in
  json_loads_raw text.
End cards.

(** ** base64 round trip *)

Lemma b64_char_val v : 0 ≤ v < 64 →
  b64_val (b64_char v) = Some v ∧ b64_char v ≠ b64_pad ∧ is_ascii (b64_char v) = true.
Proof.
  intros Hv. rewrite <-(Z2Nat.id v) by lia.
  assert (Z.to_nat v < 64)%nat as Hn by lia. revert Hn. generalize (Z.to_nat v). clear.
  intros n Hn. do 64 (destruct n as [|n]; [by vm_compute|]). lia.
Qed.

(** The encoding without padding. *)
Fixpoint b64_raw (l : bytes) : bytes :=
  match l with
  | [] => []
  | [a] => let x := byte_val a in [b64_char (x / 4); b64_char (x mod 4 * 16)]
  | [a; b] =>
      let x := byte_val a in let y := byte_val b in
      [b64_char (x / 4); b64_char (x mod 4 * 16 + y / 16); b64_char (y mod 16 * 4)]
  | a :: b :: c :: l' =>
      let x := byte_val a in let y := byte_val b in let z := byte_val c in
      b64_char (x / 4) :: b64_char (x mod 4 * 16 + y / 16)
      :: b64_char (y mod 16 * 4 + z / 64) :: b64_char (z mod 64) :: b64_raw l'
  end.

Definition b64_npad (l : bytes) : nat :=
  match (length l mod 3)%nat with 1%nat => 2 | 2%nat => 1 | _ => 0 end.

(** Induction by groups of three bytes. *)
Lemma triples_ind (P : bytes → Prop) :
  P [] → (∀ a, P [a]) → (∀ a b, P [a; b]) → (∀ a b c l, P l → P (a :: b :: c :: l)) → ∀ l, P l.
Proof.
  intros H0 H1 H2 H3.
  assert (∀ l, P l ∧ (∀ a, P (a :: l)) ∧ (∀ a b, P (a :: b :: l))) as H; [|intros l; apply H].
  induction l as [|c l (IH1 & IH2 & IH3)]; [auto|]. auto.
Qed.

Definition b64_ok (c : ascii) : Prop := c ≠ b64_pad ∧ is_ascii c = true.

Ltac b64_ranges :=
  repeat match goal with
  | c : ascii |- _ =>
      lazymatch goal with
      | H : 0 ≤ byte_val c < 256 |- _ => fail
      | _ => pose proof (byte_val_range c)
      end
  end.
Ltac b64_solve := b64_ranges; Z.to_euclidean_division_equations; lia.

Lemma b64_raw_ok l : Forall b64_ok (b64_raw l).
Proof.
  assert (∀ v, 0 ≤ v < 64 → b64_ok (b64_char v)) as Hok by (intros v Hv; split; apply b64_char_val, Hv).
  induction l as [|a|a b|a b c l IH] using triples_ind; cbn [b64_raw];
    repeat constructor; try done; try (apply b64_char_val; b64_solve).
Qed.

Lemma b64_npad_3 a b c l : b64_npad (a :: b :: c :: l) = b64_npad l.
Proof.
  unfold b64_npad. cbn [length].
  replace (S (S (S (length l)))) with (length l + 1 * 3)%nat by lia.
  by rewrite Nat.Div0.mod_add.
Qed.

Lemma urlsafe_b64encode_raw l : urlsafe_b64encode l = b64_raw l ++ repeat b64_pad (b64_npad l).
Proof.
  induction l as [|a|a b|a b c l IH] using triples_ind; [done..|].
  rewrite b64_npad_3. cbn [urlsafe_b64encode b64_raw app]. by rewrite IH.
Qed.

Lemma rstrip_pads l n :
  Forall b64_ok l → rstrip_chars (λ c, bool_decide (c = b64_pad)) (l ++ repeat b64_pad n) = l.
Proof.
  intros Hl. unfold rstrip_chars. rewrite rev_app_distr.
  assert (rev (repeat b64_pad n) = repeat b64_pad n) as ->.
  { clear. induction n as [|n IH]; [done|]. cbn. rewrite IH. symmetry. apply repeat_cons. }
  assert (∀ m, drop_while (λ c, bool_decide (c = b64_pad)) (repeat b64_pad n ++ m)
               = drop_while (λ c, bool_decide (c = b64_pad)) m) as Hd.
  { intros m. clear. induction n; [done|]. cbn. done. }
  rewrite Hd.
  destruct l as [|c l _] using rev_ind; [done|]. rewrite rev_app_distr. cbn [rev app drop_while].
  apply Forall_app in Hl as [Hl [Hc _]%Forall_cons]. rewrite bool_decide_eq_false_2 by apply Hc.
  cbn [rev]. by rewrite rev_involutive.
Qed.

Lemma b64e_raw l : b64e l = to_str (b64_raw l).
Proof. unfold b64e. by rewrite urlsafe_b64encode_raw, rstrip_pads by apply b64_raw_ok. Qed.

Lemma a2b_char q left pads c v l :
  b64_val c = Some v → c ≠ b64_pad →
  a2b_base64 q left pads (c :: l) =
    if q =? 0 then a2b_base64 1 v 0 l
    else if q =? 1 then let? r := a2b_base64 2 (v mod 16) 0 l in Ok (byte_of (left * 4 + v / 16) :: r)
    else if q =? 2 then let? r := a2b_base64 3 (v mod 4) 0 l in Ok (byte_of (left * 16 + v / 4) :: r)
    else let? r := a2b_base64 0 0 0 l in Ok (byte_of (left * 64 + v) :: r).
Proof. intros Hv Hc. cbn [a2b_base64]. by rewrite bool_decide_eq_false_2, Hv. Qed.

Ltac a2b_step :=
  erewrite a2b_char by (apply b64_char_val; b64_solve); cbn [Z.eqb Pos.eqb].

Lemma byte_eq_of z c : z = byte_val c → byte_of z = c.
Proof. intros ->. apply byte_of_val. Qed.

Lemma a2b_pads2 left : a2b_base64 2 left 0 [b64_pad; b64_pad] = Ok [].
Proof. cbn [a2b_base64]. by rewrite bool_decide_eq_true_2. Qed.
Lemma a2b_pads1 left : a2b_base64 3 left 0 [b64_pad] = Ok [].
Proof. cbn [a2b_base64]. by rewrite bool_decide_eq_true_2. Qed.

Lemma a2b_raw l : a2b_base64 0 0 0 (b64_raw l ++ repeat b64_pad (b64_npad l)) = Ok l.
Proof.
  induction l as [|a|a b|a b c l IH] using triples_ind; [done|..].
  - cbn [b64_raw app]. do 2 a2b_step. change (repeat b64_pad (b64_npad [a])) with [b64_pad; b64_pad].
    rewrite a2b_pads2. cbn [res_bind]. repeat f_equal. apply byte_eq_of. b64_solve.
  - cbn [b64_raw app]. do 3 a2b_step. change (repeat b64_pad (b64_npad [a; b])) with [b64_pad].
    rewrite a2b_pads1. cbn [res_bind]. repeat f_equal; apply byte_eq_of; b64_solve.
  - cbn [b64_raw app]. do 4 a2b_step. rewrite b64_npad_3, IH. cbn [res_bind].
    repeat f_equal; apply byte_eq_of; b64_solve.
Qed.

Lemma b64_raw_pad l : Z.to_nat (- blen (b64_raw l) mod 4) = b64_npad l.
Proof.
  unfold blen. induction l as [|a|a b|a b c l IH] using triples_ind; [done..|].
  rewrite b64_npad_3, <-IH. cbn [b64_raw length]. f_equal. Z.to_euclidean_division_equations. lia.
Qed.

Lemma b64d_b64e data : b64d (b64e data) = Ok data.
Proof.
  unfold b64d. rewrite b64e_raw. unfold encode_ascii. rewrite bs_to_str.
  assert (all_ascii (b64_raw data) = true) as ->.
  { apply forallb_forall. intros c Hc%list_elem_of_In.
    pose proof (b64_raw_ok data) as Hok. rewrite Forall_forall in Hok. by apply Hok. }
  cbn [res_bind]. unfold b64d_bytes, urlsafe_b64decode. rewrite b64_raw_pad. apply a2b_raw.
Qed.

Lemma b64e_inj a b : b64e a = b64e b → a = b.
Proof. intros H. apply (f_equal b64d) in H. rewrite !b64d_b64e in H. congruence. Qed.

Lemma b64d_json_b64e data : b64d_json (JStr (b64e data)) = Ok data.
Proof. apply b64d_b64e. Qed.
#[export] Hint Rewrite b64d_b64e b64d_json_b64e : nk.

Lemma a2b_error q left p l e : a2b_base64 q left p l = Err e → e = BinasciiError.
Proof.
  revert q left p. induction l as [|c l IH]; intros q left p E; cbn [a2b_base64] in E.
  - case_match; [done|]. by injection E as <-.
  - repeat (case_match; [eauto|]); try done; repeat case_match; eauto;
      apply res_bind_Err in E as [E|(? & _ & E)]; eauto; done.
Qed.
(** The exceptions [b64d] raises. *)
Lemma b64d_json_error j e :
  b64d_json j = Err e → e = TypeError ∨ e = UnicodeError ∨ e = BinasciiError.
Proof.
  destruct j; cbn [b64d_json]; try (intros [= <-]; by left).
  unfold b64d, encode_ascii. intros [E|(? & _ & E)]%res_bind_Err.
  - case_match; [done|]. injection E as <-. auto.
  - apply a2b_error in E. auto.
Qed.

Lemma b64e_ascii data : all_ascii (bs (b64e data)) = true.
Proof.
  rewrite b64e_raw, bs_to_str. apply forallb_forall. intros c Hc%list_elem_of_In.
  pose proof (b64_raw_ok data) as Hok. rewrite Forall_forall in Hok. by apply Hok.
Qed.

(** The text of base64 needs no JSON escapes, and its length is that of the data. *)
Lemma b64_char_plain v : 0 ≤ v < 64 → esc_char (b64_char v) = [b64_char v].
Proof.
  intros Hv. unfold b64_char. assert (Z.to_nat v < 64)%nat as H by lia. revert H.
  generalize (Z.to_nat v). clear v Hv. intros n Hn.
  do 64 (destruct n as [|n]; [by vm_compute|]). lia.
Qed.

Lemma b64_raw_esc l : concat (map esc_char (b64_raw l)) = b64_raw l.
Proof.
  induction l as [|a|a b|a b c l IH] using triples_ind; [done|..]; cbn [b64_raw map concat];
    rewrite !b64_char_plain by b64_solve; cbn [app]; [done..|]. by rewrite IH.
Qed.

Lemma b64e_esc b : esc_raw (b64e b) = bs (b64e b).
Proof. unfold esc_raw. by rewrite b64e_raw, bs_to_str, b64_raw_esc. Qed.

Lemma b64e_length a b : length a = length b → length (bs (b64e a)) = length (bs (b64e b)).
Proof.
  rewrite !b64e_raw, !bs_to_str. revert b.
  induction a as [|x|x y|x y z l IH] using triples_ind; intros [|x' [|y' [|z' l']]]; cbn; try lia.
  intros H. rewrite (IH l'); lia.
Qed.

(** ** Canonical JSON *)

(** What [json.loads] gives back for a canonical document. *)
Lemma canonical_json_loads j :
  wf_json utf8_str j → json_loads_bytes (canonical_json j) = Ok (canon true j).
Proof. apply canonical_bytes_loads. Qed.
(** Equal canonical texts are equal values, member by member. *)
Lemma canonical_json_inj a b :
  wf_json utf8_str a → wf_json utf8_str b → canonical_json a = canonical_json b → canon true a = canon true b.
Proof.
  intros Ha Hb E. apply (f_equal json_loads_bytes) in E. rewrite !canonical_json_loads in E by done.
  congruence.
Qed.
Lemma canonical_dget d d' k :
  wf_dict d → wf_dict d' → canonical_json (JObj d) = canonical_json (JObj d') →
  canon true <$> dget k d = canon true <$> dget k d'.
Proof.
  intros Hd Hd' E. apply canon_dget; [by apply wf_dict_nodup..|]. by apply canonical_json_inj.
Qed.

(** ** base32 round trip *)

Lemma b32_char_spec v : 0 ≤ v < 32 →
  let c := b32_char v in
  graph c ∧ c ≠ "-"%char ∧ ascii_upper_c c = c ∧ B32_LOOKUP (b32_confusable c) = Some v.
Proof.
  intros Hv. cbv zeta. rewrite <-(Z2Nat.id v) by lia.
  assert (Z.to_nat v < 32)%nat as Hn by lia. revert Hn. generalize (Z.to_nat v). clear.
  intros n Hn. do 32 (destruct n as [|n]; [by vm_compute|]). lia.
Qed.

Lemma land_mod x k : 0 ≤ k → Z.land x (2 ^ k - 1) = x mod 2 ^ k.
Proof. intros Hk. rewrite <-Z.land_ones by done. by rewrite Z.ones_equiv, <-Z.sub_1_r. Qed.

Lemma lor_shiftl v k d : 0 ≤ k → 0 ≤ d < 2 ^ k → Z.lor (Z.shiftl v k) d = v * 2 ^ k + d.
Proof.
  intros Hk Hd. assert (Z.land (Z.shiftl v k) d = 0) as E.
  2:{ pose proof (Z.add_lor_land (Z.shiftl v k) d) as H. rewrite E in H.
      rewrite (Z.shiftl_mul_pow2 v k) in * by done. lia. }
  - apply Z.bits_inj'. intros n Hn. rewrite Z.land_spec, Z.bits_0.
    destruct (Z.lt_ge_cases n k).
    + by rewrite Z.shiftl_spec_low.
    + rewrite <-(Z.mod_small d (2 ^ k)) by done.
      rewrite Z.mod_pow2_bits_high by lia. apply andb_false_r.
Qed.

(** The character for the five bits of [value] above position [k]. *)
Definition quint (value k : Z) : Z := (value / 2 ^ k) mod 32.
Lemma quint_range value k : 0 ≤ quint value k < 32.
Proof. apply Z.mod_pos_bound. lia. Qed.
Lemma quint_land value k : 0 ≤ k → Z.land (Z.shiftr value k) 31 = quint value k.
Proof. intros. rewrite Z.shiftr_div_pow2 by done. apply (land_mod _ 5). lia. Qed.

Lemma b32_emit_unfold f value bits :
  b32_emit (S f) value bits =
    if 5 <=? bits then
      let '(out, bits') := b32_emit f value (bits - 5) in
      (b32_char (Z.land (Z.shiftr value (bits - 5)) 31) :: out, bits')
    else ([], bits).
Proof. reflexivity. Qed.

Definition b32_val_ok (c : ascii) : Prop := ∃ v, 0 ≤ v < 32 ∧ c = b32_char v.

Lemma b32_emit_ok f value bits : 0 ≤ bits → Forall b32_val_ok (b32_emit f value bits).1.
Proof.
  revert bits. induction f as [|f IH]; intros bits Hb; [constructor|].
  rewrite b32_emit_unfold. destruct (Z.leb_spec 5 bits); [|constructor].
  specialize (IH (bits - 5) ltac:(lia)).
  destruct (b32_emit f value (bits - 5)) as [out b']. constructor; [|done].
  eexists. split; [|done]. rewrite quint_land by lia. apply quint_range.
Qed.

(** One step of the decoder on an encoded character. *)
Lemma b32d_char dv db v l :
  0 ≤ v < 32 → 0 ≤ db →
  b32d_loop dv db (b32_char v :: l) =
    if 8 <=? db + 5
    then let? r := b32d_loop (dv * 32 + v) (db - 3) l in
         Ok (byte_of ((dv * 32 + v) / 2 ^ (db - 3)) :: r)
    else b32d_loop (dv * 32 + v) (db + 5) l.
Proof.
  intros Hv Hdb. cbn [b32d_loop].
  destruct (b32_char_spec v Hv) as (_ & _ & _ & ->). rewrite (lor_shiftl dv 5) by lia.
  change (2 ^ 5) with 32. destruct (Z.leb_spec 8 (db + 5)); [|done].
  replace (db + 5 - 8) with (db - 3) by lia.
  destruct (b32d_loop _ _ l); cbn [res_bind]; [|done]. do 2 f_equal. apply byte_val_inj.
  rewrite !byte_val_of, Z.shiftr_div_pow2 by lia.
  rewrite (land_mod _ 8) by lia. by rewrite Z.mod_mod.
Qed.

(** The characters written for one byte, by the number of pending bits. *)
Lemma b32_emit_1 value bits : 3 ≤ bits < 5 →
  b32_emit 3 value (bits + 5) = ([b32_char (quint value bits)], bits).
Proof.
  intros Hb. rewrite !b32_emit_unfold. replace (bits + 5 - 5) with bits by lia.
  destruct (Z.leb_spec 5 (bits + 5)); [|lia]. destruct (Z.leb_spec 5 bits); [lia|].
  by rewrite quint_land by lia.
Qed.
Lemma b32_emit_2 value bits : 0 ≤ bits < 3 →
  b32_emit 3 value (bits + 10)
  = ([b32_char (quint value (bits + 5)); b32_char (quint value bits)], bits).
Proof.
  intros Hb. rewrite !b32_emit_unfold. replace (bits + 10 - 5) with (bits + 5) by lia.
  replace (bits + 5 - 5) with bits by lia.
  destruct (Z.leb_spec 5 (bits + 10)); [|lia]. destruct (Z.leb_spec 5 (bits + 5)); [|lia].
  destruct (Z.leb_spec 5 bits); [lia|]. by rewrite !quint_land by lia.
Qed.

Lemma b32e_loop_1 value bits c data : 3 ≤ bits < 5 →
  b32e_loop value (bits - 3) (c :: data) =
  let value := value * 256 + byte_val c in
  b32_char (quint value bits) :: b32e_loop value bits data.
Proof.
  intros Hb. cbn [b32e_loop]. pose proof (byte_val_range c).
  rewrite (lor_shiftl value 8) by lia. replace (bits - 3 + 8) with (bits + 5) by lia.
  by rewrite b32_emit_1.
Qed.
Lemma b32e_loop_2 value bits c data : 0 ≤ bits < 3 →
  b32e_loop value (bits + 2) (c :: data) =
  let value := value * 256 + byte_val c in
  b32_char (quint value (bits + 5)) :: b32_char (quint value bits) :: b32e_loop value bits data.
Proof.
  intros Hb. cbn [b32e_loop]. pose proof (byte_val_range c).
  rewrite (lor_shiftl value 8) by lia. replace (bits + 2 + 8) with (bits + 10) by lia.
  by rewrite b32_emit_2.
Qed.

Lemma byte_of_eq x y : x mod 256 = y mod 256 → byte_of x = byte_of y.
Proof. intros E. apply byte_val_inj. by rewrite !byte_val_of. Qed.
Lemma byte_of_is x c : x mod 256 = byte_val c → byte_of x = c.
Proof. intros E. apply byte_val_inj. by rewrite byte_val_of. Qed.

Ltac b32_step :=
  rewrite b32d_char by (lia || apply quint_range);
  match goal with |- context [8 <=? ?x] =>
    let y := eval vm_compute in (8 <=? x) in change (8 <=? x) with y end; cbv iota.
Ltac b32_arith := unfold quint; Z.to_euclidean_division_equations; lia.

(** The decoder's leftover bits followed by the encoder's pending bits are
    either nothing or the byte not yet written. *)
Lemma b32_roundtrip_loop data : ∀ value dv,
  (∀ b, 1 ≤ b < 5 →
     b32d_loop dv (8 - b) (b32e_loop value b data)
     = Ok (byte_of ((dv mod 2 ^ (8 - b)) * 2 ^ b + value mod 2 ^ b) :: data)) ∧
  b32d_loop dv 0 (b32e_loop value 0 data) = Ok data.
Proof.
  induction data as [|c data IH]; intros value dv; split; try done.
  - intros b Hb. cbn [b32e_loop]. rewrite (proj2 (Z.eqb_neq b 0)) by lia.
    rewrite Z.shiftl_mul_pow2 by lia. change 31 with (2 ^ 5 - 1). rewrite land_mod by lia.
    rewrite b32d_char by (apply Z.mod_pos_bound || idtac; lia).
    destruct (Z.leb_spec 8 (8 - b + 5)); [|lia]. cbn [b32d_loop res_bind].
    do 2 f_equal. apply byte_of_eq.
    assert (b = 1 ∨ b = 2 ∨ b = 3 ∨ b = 4) as [-> | [-> | [-> | ->]]] by lia;
      simpl; Z.to_euclidean_division_equations; lia.
  - intros b Hb. pose proof (byte_val_range c) as Hc.
    assert (b = 1 ∨ b = 2 ∨ b = 3 ∨ b = 4) as [-> | [-> | [-> | ->]]] by lia.
    + rewrite (b32e_loop_1 value 4) by lia. cbv zeta. b32_step.
      rewrite (proj1 (IH _ _) 4) by lia. cbn [res_bind]. do 2 f_equal; [|f_equal].
      * apply byte_of_eq. simpl. b32_arith.
      * apply byte_of_is. simpl. b32_arith.
    + rewrite (b32e_loop_2 value 0) by lia. cbv zeta. do 2 b32_step.
      rewrite (proj2 (IH _ _)). cbn [res_bind]. do 2 f_equal; [|f_equal].
      * apply byte_of_eq. simpl. b32_arith.
      * apply byte_of_is. simpl. b32_arith.
    + rewrite (b32e_loop_2 value 1) by lia. cbv zeta. do 2 b32_step.
      rewrite (proj1 (IH _ _) 1) by lia. cbn [res_bind]. do 2 f_equal; [|f_equal].
      * apply byte_of_eq. simpl. b32_arith.
      * apply byte_of_is. simpl. b32_arith.
    + rewrite (b32e_loop_2 value 2) by lia. cbv zeta. do 2 b32_step.
      rewrite (proj1 (IH _ _) 2) by lia. cbn [res_bind]. do 2 f_equal; [|f_equal].
      * apply byte_of_eq. simpl. b32_arith.
      * apply byte_of_is. simpl. b32_arith.
  - pose proof (byte_val_range c) as Hc. rewrite (b32e_loop_1 value 3) by lia. cbv zeta. b32_step.
    rewrite (proj1 (IH _ _) 3) by lia. do 2 f_equal. apply byte_of_is. simpl. b32_arith.
Qed.

Lemma b32e_loop_ok data value bits : 0 ≤ bits → Forall b32_val_ok (b32e_loop value bits data).
Proof.
  revert value bits. induction data as [|c data IH]; intros value bits Hb; cbn [b32e_loop].
  - case_match; repeat constructor. eexists. split; [|done]. change 31 with (2 ^ 5 - 1).
    rewrite land_mod by lia. apply Z.mod_pos_bound. lia.
  - pose proof (b32_emit_ok 3 (Z.lor (Z.shiftl value 8) (byte_val c)) (bits + 8) ltac:(lia)) as He.
    assert (0 ≤ (b32_emit 3 (Z.lor (Z.shiftl value 8) (byte_val c)) (bits + 8)).2) as Hb'.
    { rewrite !b32_emit_unfold. cbn [b32_emit]. repeat case_match; simpl; simplify_eq; lia. }
    destruct (b32_emit _ _ _) as [out b']. apply Forall_app. by split; [|apply IH].
Qed.

Lemma b32e_loop_chars data value bits :
  0 ≤ bits →
  let t := b32e_loop value bits data in
  Forall graph t ∧ List.filter (λ c, negb (bool_decide (c = "-"%char))) t = t ∧
  map ascii_upper_c t = t.
Proof.
  intros Hb. cbv zeta. induction (b32e_loop_ok data value bits Hb) as [|c l (v & Hv & ->) _ IH]; [done|].
  destruct (b32_char_spec v Hv) as (H1 & H2 & H3 & _), IH as (I1 & I2 & I3). split_and!.
  - by constructor.
  - cbn [List.filter]. rewrite bool_decide_eq_false_2 by done. cbn [negb]. by rewrite I2.
  - cbn [map]. by rewrite H3, I3.
Qed.

Lemma b32d_b32e data : b32d (b32e data) = Ok data.
Proof.
  unfold b32d, b32e. rewrite bs_to_str.
  destruct (b32e_loop_chars data 0 0 ltac:(lia)) as (H1 & H2 & H3).
  rewrite strip_graph, H2, graph_all_ascii, H3 by done. cbn [negb].
  apply (b32_roundtrip_loop data 0 0).
Qed.
#[export] Hint Rewrite b32d_b32e : nk.

Lemma b64_ok_graph l : Forall (λ c, ∃ v, 0 ≤ v < 64 ∧ c = b64_char v) l → Forall graph l.
Proof.
  apply List.Forall_impl. intros c (v & Hv & ->). rewrite <-(Z2Nat.id v) by lia.
  assert (Z.to_nat v < 64)%nat as Hn by lia. revert Hn. generalize (Z.to_nat v). clear.
  intros n Hn. do 64 (destruct n as [|n]; [by vm_compute|]). lia.
Qed.

Lemma b64_raw_graph l : Forall graph (b64_raw l).
Proof.
  apply b64_ok_graph.
  induction l as [|a|a b|a b c l IH] using triples_ind; cbn [b64_raw];
    repeat constructor; try done; (eexists; split; [|done]; b64_solve).
Qed.

(** ** Contact card text *)

Section card_text.
Context {Z : Zlib} {ZL : ZlibLaws Z}.

(** The text of a dictionary is recognised as UTF-8. *)
Lemma json_loads_raw_obj d :
  json_loads_raw (canonical_json (JObj d)) = json_loads_bytes (canonical_json (JObj d)) ∨
  utf8_ok (canonical_json (JObj d)) = false.
Proof using.
  destruct (utf8_ok (canonical_json (JObj d))) eqn:E; [left|by right].
  unfold json_loads_raw, json_loads_bytes, decode_utf8. rewrite E. cbn [res_bind].
  destruct (decide (d = [])) as [->|Hne]; [reflexivity|].
  unfold canonical_json, dumps in *. rewrite dumps_at_obj in * by done.
  destruct (write_order fmt_canonical d) as [|kv w] eqn:Ew.
  { pose proof (write_order_perm fmt_canonical d) as Hp. rewrite Ew in Hp.
    by apply Permutation_nil_l in Hp. }
  assert (∃ t, join (","%char :: f_item fmt_canonical 0) (map (member_b fmt_canonical 1) (kv :: w))
               = dquote :: t) as (t & Et).
  { destruct w; cbn [map join member_b quoted app]; by eexists. }
  rewrite Et in *. cbn [f_open f_close fmt_canonical no_ws app bs] in *.
  change (code "{" =? 0) with false. change (code dquote =? 0) with false.
  change (code "{" =? 0xFE) with false. change (code "{" =? 0xFF) with false. cbn [orb andb].
  cbn [prefix_b]. change (bool_decide (byte_of 0xEF = "{"%char)) with false. cbn [andb].
  by rewrite E.
Qed.

(** Decoding a card's text gives back its payload, its keys sorted. *)
Lemma card_decode_encode d :
  wf_dict d → card_decode (card_encode (JObj d)) = Ok (canon true (JObj d)).
Proof using ZL.
  intros Hn. set (payload := JObj d) in *. unfold card_decode, card_encode. rewrite b64e_raw, bs_app, bs_to_str.
  assert (Forall graph (bs CARD_PREFIX ++ b64_raw (zlib_compress (canonical_json payload)))) as Hg.
  { apply Forall_app. split; [|apply b64_raw_graph]. repeat constructor. }
  rewrite strip_graph by done.
  rewrite take_app_length, drop_app_length. cbv [negb].
  change (all_ascii (bs CARD_PREFIX)) with true.
  change (prefix_b (bs CARD_PREFIX) (ascii_lower (bs CARD_PREFIX))) with true. cbv iota.
  rewrite <-b64e_raw, b64d_b64e. cbn [res_bind]. rewrite zlib_roundtrip. cbn [except res_bind].
  pose proof (json_loads_raw_obj d) as Hr. fold payload in Hr.
  destruct Hr as [-> | Hu]; [by apply canonical_json_loads|].
  pose proof (canonical_json_loads payload Hn) as E. unfold json_loads_bytes, decode_utf8 in E.
  by rewrite Hu in E.
Qed.
End card_text.

Lemma b64e_utf8 b : utf8_str (b64e b).
Proof. apply utf8_ok_ascii, b64e_ascii. Qed.
#[export] Hint Resolve b64e_utf8 : nk.

(** ** Properties *)

(** Base64url and Crockford base32 decode what they encode, for every byte
    string; in particular two different byte strings never share a text. *)
Theorem text_roundtrip data :
  b64d (b64e data) = Ok data ∧ b32d (b32e data) = Ok data ∧
  (∀ data', b64e data = b64e data' ∨ b32e data = b32e data' → data = data').
Proof.
  split_and!; [apply b64d_b64e | apply b32d_b32e|].
  intros data' [H|H]; [by apply b64e_inj|].
  apply (f_equal b32d) in H. rewrite !b32d_b32e in H. congruence.
Qed.

(** Canonical JSON determines the value and nothing but the value: two values
    equal up to the order of dictionary keys have the same bytes, and values with
    the same bytes have the same sorted form, which is what [json.loads] returns. *)
Theorem canonical_json_exact a b :
  wf_json utf8_str a → wf_json utf8_str b →
  (jeq a b → canonical_json a = canonical_json b) ∧
  (canonical_json a = canonical_json b → canon true a = canon true b) ∧
  json_loads_bytes (canonical_json a) = Ok (canon true a) ∧ jeq a (canon true a).
Proof.
  intros Ha Hb. split_and!.
  - apply canonical_jeq. by eapply wf_nodup.
  - intros E. apply (f_equal json_loads_bytes) in E. rewrite !canonical_json_loads in E by done.
    congruence.
  - by apply canonical_json_loads.
  - apply jeq_canon.
Qed.

Lemma canonical_json_exact_witness :
  let a := JObj [("b"%string, JInt 1); ("a"%string, JStr "x")] in
  let b := JObj [("a"%string, JStr "x"); ("b"%string, JInt 1)] in
  (jeq a b → canonical_json a = canonical_json b) ∧
  (canonical_json a = canonical_json b → canon true a = canon true b) ∧
  json_loads_bytes (canonical_json a) = Ok (canon true a) ∧ jeq a (canon true a).
Proof. intros a b. apply canonical_json_exact; unfold a, b; solve_wf. Defined.
