(* ===== verification/Kdf.v ===== *)
(** * Key derivation ([crypto/kdf.py]) *)

From S2P Require Import Prelude PyStr Primitives.

(** Domain-separation labels. *)
Definition IDENTITY_INFO : bytes := bs "noknowledge/identity/v1".
Definition X3DH_INFO : bytes := bs "noknowledge/x3dh/v1".
Definition ROOT_INFO : bytes := bs "nk/ratchet-root/v1".
Definition SK_COMMIT_INFO : bytes := bs "nk/sk-commit/v1".
Definition CARD_SIGN_INFO : bytes := bs "nk/card/v1".
Definition SPK_SIGN_INFO : bytes := bs "nk/spk/v1".
Definition AUTH_SIGN_INFO : bytes := bs "nk/auth/v1".
Definition DEVICE_SIGN_INFO : bytes := bs "nk/devices/v1".
Definition DEVICE_LIST_ID_INFO : bytes := bs "nk/devices/v1/id".
Definition DEVICE_KEYS_ID_INFO : bytes := bs "nk/devices/v1/keys".
Definition DEVICE_KEYS_SIGN_INFO : bytes := bs "nk/devices/v1/keys/sig".
Definition DEVICE_SYNC_INFO : bytes := bs "nk/devices/v1/sync".
Definition DEVICE_SYNC_ITEM_INFO : bytes := bs "nk/devices/v1/sync/item".
Definition DEVICE_LIST_ENC_INFO : bytes := bs "nk/devices/v1/enc".
Definition ID_HASH_INFO : bytes := bs "nk-id".

Definition F : bytes := repeat (byte_of 255) 32.
Definition ZERO_SALT : bytes := repeat (byte_of 0) 32.

Section kdf.
Context {C : Crypto}.

Definition hkdf (ikm salt info : bytes) (length : nat) : bytes :=
  hkdf_sha256 ikm salt info length.

Definition kdf_rk (root_key dh_output : bytes) : bytes * bytes :=
  let out := hkdf dh_output root_key ROOT_INFO 64 in
  (take 32 out, drop 32 out).

Definition kdf_ck (chain_key : bytes) : bytes * bytes :=
  (hmac_sha256 chain_key [byte_of 1], hmac_sha256 chain_key [byte_of 2]).

Definition sk_commitment (sk : bytes) : bytes := sha256 (SK_COMMIT_INFO ++ sk).

Context {L : CryptoLaws C}.

Lemma kdf_rk_length rk dh :
  length (kdf_rk rk dh).1 = 32%nat ∧ length (kdf_rk rk dh).2 = 32%nat.
Proof using L.
  unfold kdf_rk, hkdf. cbn [fst snd]. rewrite length_take, length_drop, hkdf_length. lia.
Qed.

Lemma kdf_ck_length ck : length (kdf_ck ck).1 = 32%nat ∧ length (kdf_ck ck).2 = 32%nat.
Proof using L. split; apply hmac_length. Qed.
End kdf.
