(* ===== verification/Aead.v ===== *)
(** * Authenticated encryption ([crypto/aead.py])

    The nonce [os.urandom(12)] is an argument. *)

From S2P Require Import Prelude PyStr Primitives.

Definition KEY_SIZE : Z := 32.
Definition NONCE_SIZE : Z := 12.

Section aead.
Context {C : Crypto}.

Definition encrypt (nonce key plaintext ad : bytes) : res (bytes * bytes) :=
  raise_if negb (blen key =? KEY_SIZE) with AEADError ;;
  Ok (nonce, chacha_encrypt key nonce plaintext ad).

Definition decrypt (key nonce ciphertext ad : bytes) : res bytes :=
  raise_if negb (blen key =? KEY_SIZE) with AEADError ;;
  raise_if negb (blen nonce =? NONCE_SIZE) with AEADError ;;
  of_option AEADError (chacha_decrypt key nonce ciphertext ad).

Context {L : CryptoLaws C}.

(** Decryption succeeds exactly on what encryption produced. *)
Lemma decrypt_iff key nonce ciphertext ad p :
  decrypt key nonce ciphertext ad = Ok p ↔
  length key = 32%nat ∧ length nonce = 12%nat ∧ encrypt nonce key p ad = Ok (nonce, ciphertext).
Proof using L.
  unfold decrypt, encrypt, blen, KEY_SIZE, NONCE_SIZE.
  destruct (Z.eqb_spec (Z.of_nat (length key)) 32); cbn [negb].
  2:{ split; [done | lia]. }
  destruct (Z.eqb_spec (Z.of_nat (length nonce)) 12); cbn [negb].
  2:{ split; [done | lia]. }
  split.
  - intros E%of_option_Ok. apply chacha_correct in E; [|lia..]. subst. split_and!; [lia..|done].
  - intros (H1 & H2 & [= <-]). by rewrite (proj2 (chacha_correct key nonce p ad _ H1 H2)).
Qed.

Lemma decrypt_error key nonce ciphertext ad e :
  decrypt key nonce ciphertext ad = Err e → e = AEADError.
Proof.
  unfold decrypt. do 2 (case_match; [by intros [= <-]|]).
  destruct (chacha_decrypt _ _ _ _); cbn; [done|by intros [= <-]].
Qed.

Lemma encrypt_nonce nonce key p ad n c : encrypt nonce key p ad = Ok (n, c) → n = nonce.
Proof. unfold encrypt. case_match; [done|]. by intros [= <- _]. Qed.
End aead.
