(* ===== verification/Padding.v ===== *)
(** * Envelope padding ([crypto/padding.py])

    [secrets.choice] is an argument: [rnd i] is the random number behind the
    [i]-th chosen character. *)

From S2P Require Import Prelude PyStr Json JsonProps Dict Primitives Encoding.

Definition BUCKET : Z := 256.
Definition DEFAULT_MAX : Z := 2048.
Definition MAX_ATTACHMENT_ENVELOPE : Z := 65536.
Definition PAD_ALPHABET : bytes :=
  bs "ABCDEFGHIJKLMNOPQRSTUVWXYZabcdefghijklmnopqrstuvwxyz0123456789".

Definition padded_size (base_length bucket : Z) (max_size : option Z) : Z :=
  let target := Z.max bucket ((base_length / bucket + 1) * bucket) in
  match max_size with
  | Some m => if m <? target then m else target
  | None => target
  end.

Definition pad_char (r : nat) : ascii := nth (r mod 62) PAD_ALPHABET "A"%char.
Definition pad_string (rnd : nat → nat) (n : Z) : string :=
  to_str (map (λ i, pad_char (rnd i)) (seq 0 (Z.to_nat n))).

Definition pad_envelope (rnd : nat → nat) (envelope : dict) (bucket : Z) (max_size : option Z)
    : res bytes :=
  let envelope := dset "pad" (JStr "") envelope in
  let base := canonical_json (JObj envelope) in
  raise_if match max_size with Some m => m <? blen base | None => false end with PaddingError ;;
  let target := padded_size (blen base) bucket max_size in
  let pad_length := target - blen base in
  raise_if pad_length <? 0 with PaddingError ;;
  let envelope := dset "pad" (JStr (pad_string rnd pad_length)) envelope in
  let data := canonical_json (JObj envelope) in
  raise_if negb (blen data =? target) with PaddingError ;;
  Ok data.

(** [unpad_envelope] on a [str], and on [bytes]. *)
Definition unpad_envelope_str (data : string) : res dict :=
  let? obj := json_loads data in
  match obj with
  | JObj d => Ok (dpop "pad" d)
  | _ => Err PaddingError
  end.
Definition unpad_envelope (data : bytes) : res dict :=
  let? text := decode_utf8 data in unpad_envelope_str text.

(** ** Lengths *)

Lemma pad_char_plain r : esc_char (pad_char r) = [pad_char r] ∧ graph (pad_char r).
Proof.
  unfold pad_char. pose proof (Nat.mod_upper_bound r 62 ltac:(lia)) as H. revert H.
  generalize (r mod 62)%nat. clear r. intros n Hn.
  do 62 (destruct n as [|n]; [by vm_compute|]). lia.
Qed.

Lemma pad_string_esc rnd n : esc_raw (pad_string rnd n) = bs (pad_string rnd n).
Proof.
  unfold esc_raw, pad_string. rewrite bs_to_str. generalize (seq 0 (Z.to_nat n)). intros l.
  induction l as [|i l IH]; [done|]. cbn [map concat]. by rewrite (proj1 (pad_char_plain _)), IH.
Qed.

Lemma pad_string_length rnd n : 0 ≤ n → blen (bs (pad_string rnd n)) = n.
Proof.
  intros Hn. unfold pad_string, blen. rewrite bs_to_str, length_map, length_seq. lia.
Qed.

Lemma pad_string_utf8 rnd n : utf8_str (pad_string rnd n).
Proof.
  apply utf8_ok_ascii. unfold pad_string. rewrite bs_to_str. apply graph_all_ascii.
  generalize (seq 0 (Z.to_nat n)). intros l. induction l; cbn; constructor; [|done].
  apply pad_char_plain.
Qed.

(** Padding text adds exactly its own length. *)
Lemma canonical_pad_length rnd n d :
  0 ≤ n →
  blen (canonical_json (JObj (dset "pad" (JStr (pad_string rnd n)) (dset "pad" (JStr "") d))))
  = blen (canonical_json (JObj (dset "pad" (JStr "") d))) + n.
Proof.
  intros Hn. pose proof (pad_string_length rnd n Hn) as Hl.
  unfold blen in *. unfold canonical_json. rewrite !canonical_length by apply dset_not_nil.
  set (d0 := dset "pad" (JStr "") d).
  assert (dset "pad" (JStr "") d0 = d0) as Hd0.
  { unfold d0. clear. induction d as [|[k v] d IH]; [done|]. cbn [dset].
    destruct (String.eqb_spec "pad" k); cbn [dset].
    - by rewrite String.eqb_refl.
    - rewrite (proj2 (String.eqb_neq _ _)) by done. by rewrite IH. }
  pose proof (dset_sum (λ kv, length (member_b fmt_canonical 1 kv)) "pad"
                (JStr (pad_string rnd n)) (JStr "") d0) as Hs.
  rewrite (dset_length "pad" (JStr (pad_string rnd n)) (JStr "") d0).
  rewrite Hd0 in *.
  assert (length (member_b fmt_canonical 1 ("pad"%string, JStr (pad_string rnd n)))
          = (length (member_b fmt_canonical 1 ("pad"%string, JStr ""))
             + length (bs (pad_string rnd n)))%nat) as E.
  { unfold member_b, quoted. cbn [dumps_at fst snd f_esc fmt_canonical]. unfold quoted.
    rewrite pad_string_esc. repeat (rewrite ?length_app; cbn [length]).
    change (length (esc_raw "")) with 0%nat. lia. }
  rewrite E in Hs. lia.
Qed.

Lemma padded_size_spec b k :
  0 ≤ b → 0 < k → b < padded_size b k None ≤ b + k ∧ padded_size b k None mod k = 0.
Proof.
  intros Hb Hk. unfold padded_size.
  assert (0 ≤ b / k) by (apply Z.div_pos; lia).
  pose proof (Z.div_mod b k ltac:(lia)). pose proof (Z.mod_pos_bound b k Hk).
  rewrite Z.max_r by nia. split; [nia|]. apply Z.mod_mul. lia.
Qed.

Lemma unpad_canonical d p :
  wf_dict d → utf8_str p →
  unpad_envelope (canonical_json (JObj (dset "pad" (JStr p) d)))
  = Ok (canon_dict true (dpop "pad" d)).
Proof.
  intros Hd Hp. assert (wf_dict (dset "pad" (JStr p) d)) as Hw by by apply wf_dset.
  pose proof (canonical_json_loads _ Hw) as E. unfold json_loads_bytes in E.
  unfold unpad_envelope, unpad_envelope_str. destruct (decode_utf8 _); [|done].
  cbn [res_bind] in *. rewrite E. cbn [res_bind]. rewrite canon_obj. f_equal.
  rewrite canon_dict_dpop by by apply wf_dict_nodup. by rewrite dpop_dset.
Qed.

Lemma padded_size_ge b k m : 0 ≤ b → 0 < k →
  match m with Some m => b ≤ m | None => True end → b ≤ padded_size b k m.
Proof.
  intros Hb Hk Hm. pose proof (padded_size_spec b k Hb Hk) as [H _]. unfold padded_size in *.
  destruct m as [m|]; [|lia]. case_match; lia.
Qed.

Lemma padded_size_le b k m : padded_size b k m ≤ padded_size b k None.
Proof. unfold padded_size. cbv zeta. destruct m; [case_match; lia | lia]. Qed.

Lemma unpad_envelope_error data e :
  unpad_envelope data = Err e →
  e = UnicodeError ∨ e = PaddingError ∨ e = JSONDecodeError ∨ e = Unmodelled.
Proof.
  unfold unpad_envelope, unpad_envelope_str, decode_utf8.
  intros [E|(? & _ & [E|(? & _ & E)]%res_bind_Err)]%res_bind_Err.
  - case_match; [done|]. injection E as <-. auto.
  - apply json_loads_error in E as [->| ->]; auto.
  - case_match; try done; injection E as <-; auto.
Qed.

(** What a successful padding produced. *)
Lemma pad_envelope_Ok rnd d bucket max_size data :
  wf_dict d → pad_envelope rnd d bucket max_size = Ok data →
  unpad_envelope data = Ok (canon_dict true (dpop "pad" d)) ∧
  blen data = padded_size (blen (canonical_json (JObj (dset "pad" (JStr "") d)))) bucket max_size.
Proof.
  intros Hd E. unfold pad_envelope in E. do 2 (case_match; [done|]).
  case_match eqn:Hlen; [done|]. injection E as <-.
  apply negb_false_iff, Z.eqb_eq in Hlen. split; [|exact Hlen].
  rewrite unpad_canonical; [by rewrite dpop_dset| | apply pad_string_utf8]. by apply wf_dset.
Qed.

(** Padding fails exactly when the envelope alone exceeds the limit; otherwise
    the padded text has the bucketed size (a multiple of the bucket when no limit
    cuts it, and at most one bucket longer than the envelope), and unpadding it
    returns the envelope without its [pad] field. *)
Theorem pad_envelope_spec rnd d bucket max_size :
  wf_dict d → 0 < bucket →
  let n := blen (canonical_json (JObj (dset "pad" (JStr "") d))) in
  match max_size with Some m => m < n | None => False end ∧
    pad_envelope rnd d bucket max_size = Err PaddingError
  ∨ ∃ data, pad_envelope rnd d bucket max_size = Ok data ∧
      blen data = padded_size n bucket max_size ∧
      n ≤ blen data ≤ n + bucket ∧
      match max_size with Some m => blen data ≤ m | None => blen data mod bucket = 0 end ∧
      unpad_envelope data = Ok (canon_dict true (dpop "pad" d)).
Proof.
  intros Hd Hk n. pose proof (Nat2Z.is_nonneg (length (canonical_json (JObj (dset "pad" (JStr "") d))))) as Hn.
  fold (blen (canonical_json (JObj (dset "pad" (JStr "") d)))) in Hn. fold n in Hn.
  unfold pad_envelope. fold n.
  destruct (match max_size with Some m => m <? n | None => false end) eqn:Em.
  { left. destruct max_size; [|done]. split; [lia|done]. }
  right. assert (match max_size with Some m => n ≤ m | None => True end) as Hm
    by (destruct max_size; [lia|done]).
  pose proof (padded_size_ge n bucket max_size Hn Hk Hm) as Hge.
  destruct (Z.ltb_spec (padded_size n bucket max_size - n) 0); [lia|].
  set (k := padded_size n bucket max_size - n) in *.
  pose proof (canonical_pad_length rnd k d ltac:(lia)) as Hl. fold n in Hl.
  set (data := canonical_json (JObj (dset "pad" (JStr (pad_string rnd k)) _))) in *.
  assert (blen data = padded_size n bucket max_size) as Hlen by (subst k; lia).
  rewrite (proj2 (Z.eqb_eq _ _) Hlen). cbn [negb]. exists data. split_and!; [done|done|lia|..].
  - rewrite Hlen. pose proof (padded_size_spec n bucket Hn Hk) as [Hb _].
    pose proof (padded_size_le n bucket max_size). lia.
  - rewrite Hlen. destruct max_size as [m|]; [unfold padded_size; cbv zeta; case_match; lia|].
    by apply padded_size_spec.
  - unfold data. rewrite unpad_canonical; [by rewrite dpop_dset| | apply pad_string_utf8].
    by apply wf_dset.
Qed.

Lemma pad_envelope_spec_witness :
  let d := [("body"%string, JStr "hi")] in
  let n := blen (canonical_json (JObj (dset "pad" (JStr "") d))) in
  (2048 < n ∧ pad_envelope (λ i, i) d 256 (Some 2048) = Err PaddingError)
  ∨ ∃ data, pad_envelope (λ i, i) d 256 (Some 2048) = Ok data ∧
      blen data = padded_size n 256 (Some 2048) ∧ n ≤ blen data ≤ n + 256 ∧ blen data ≤ 2048 ∧
      unpad_envelope data = Ok (canon_dict true (dpop "pad" d)).
Proof. intros d n. apply (pad_envelope_spec (λ i, i) d 256 (Some 2048)); [unfold d; solve_wf | reflexivity]. Defined.
