(* ===== verification/Identity.v ===== *)
(** * Identities and the vault ([crypto/identity.py])

    An [Identity] holds the two raw private keys.  Random salts and nonces are
    arguments; [save]/[load] only add file I/O around [to_vault]/[from_vault]. *)

From S2P Require Import Prelude PyStr Json JsonProps Dict Primitives Encoding Kdf.

Definition VAULT_VERSION : Z := 1.
Definition PBKDF2_ITERATIONS : Z := 600000.
Definition ED_SEED_SIZE : Z := 32.
Definition X_SEED_SIZE : Z := 32.

Record Identity := {
  ed_private : bytes;
  x_private : bytes;
  label : json   (* str or None *)
}.

Section identity.
Context {C : Crypto}.

Definition from_private_bytes (ed_seed x_seed : bytes) (label : json) : res Identity :=
  raise_if negb (blen ed_seed =? ED_SEED_SIZE) || negb (blen x_seed =? X_SEED_SIZE)
    with IdentityError ;;
  Ok {| ed_private := ed_seed; x_private := x_seed; label := label |}.

Definition derive_keys (seed : bytes) : bytes * bytes :=
  let root := hkdf seed [] IDENTITY_INFO 64 in
  (take 32 root, take 32 (drop 32 root)).

Definition from_mnemonic {B : Bip39} (mnemonic passphrase : string) (label : json)
    : res Identity :=
  let normalized := to_str (join (bs " ") (split_ws [] (bs mnemonic))) in
  raise_if negb (bip39_check normalized) with IdentityError ;;
  let seed := bip39_to_seed normalized passphrase in
  let '(ed, x) := derive_keys seed in
  Ok {| ed_private := ed; x_private := x; label := label |}.

Definition compute_identity_id (ed_public x_public : bytes) : string :=
  let digest := sha256 (ID_HASH_INFO ++ ed_public ++ x_public) in
  take_chars 26 (b32e digest).

Definition ed_public_bytes (self : Identity) : bytes := ed25519_public (ed_private self).
Definition x_public_bytes (self : Identity) : bytes := x25519_public (x_private self).
Definition identity_id (self : Identity) : string :=
  compute_identity_id (ed_public_bytes self) (x_public_bytes self).

Definition sign (self : Identity) (data : bytes) : bytes := ed25519_sign (ed_private self) data.
Definition verify (ed_public signature data : bytes) : bool :=
  if negb (blen ed_public =? 32) || negb (blen signature =? 64) then false
  else ed25519_verify ed_public signature data.

(** ** The vault *)

Definition vault_key (passphrase : string) (salt : bytes) (iterations : Z) : res bytes :=
  pbkdf2_sha256 (bs passphrase) salt iterations.

Definition secret_blob (self : Identity) : bytes := ed_private self ++ x_private self.

(** The dictionary [to_vault] writes; [passphrase] is empty for [None]. *)
Definition vault_payload (self : Identity) (passphrase : string) (salt nonce : bytes)
    : res dict :=
  let secret := secret_blob self in
  let payload :=
    [("v", JInt VAULT_VERSION); ("id", JStr (identity_id self)); ("label", label self);
     ("encrypted", JBool (negb (String.eqb passphrase "")))] in
  if negb (String.eqb passphrase "") then
    let iterations := PBKDF2_ITERATIONS in
    let? key := vault_key passphrase salt iterations in
    let blob := aesgcm_encrypt key nonce secret
                  (canonical_json (JObj [("id", JStr (identity_id self))])) in
    Ok (payload ++
        [("kdf", JObj [("salt", JStr (b64e salt)); ("iterations", JInt iterations)]);
         ("nonce", JStr (b64e nonce)); ("secret", JStr (b64e blob))])
  else Ok (payload ++ [("secret", JStr (b64e secret))]).

Definition to_vault (self : Identity) (passphrase : string) (salt nonce : bytes) : res bytes :=
  let? payload := vault_payload self passphrase salt nonce in
  Ok (dumps fmt_indent2 (JObj payload)).

(** The secret of an encrypted vault; every failure inside the [try] becomes
    an [IdentityError]. *)
Definition open_secret (payload : json) (blob : bytes) (passphrase : string) : res bytes :=
  let? kdf := jget "kdf" payload in
  let kdf_params := jor kdf (JObj []) in
  let? salt := (let? s := jitem "salt" kdf_params in b64d_json s) in
  let? iterations := (let? i := jitem "iterations" kdf_params in to_int i) in
  let? key := vault_key passphrase salt iterations in
  except isa_Exception IdentityError
    (let? nonce := (let? n := jitem "nonce" payload in b64d_json n) in
     let? id := jitem "id" payload in
     of_option ValueError (aesgcm_decrypt key nonce blob (canonical_json (JObj [("id", id)])))).

Definition from_vault_payload (payload : json) (passphrase : string) : res Identity :=
  raise_if negb (is_dict payload) with IdentityError ;;
  let? v := jget "v" payload in
  raise_if negb (eq_int v VAULT_VERSION) with IdentityError ;;
  let? blob := (let? s := jitem "secret" payload in b64d_json s) in
  let? encrypted := jget "encrypted" payload in
  let? secret :=
    if truthy encrypted then
      raise_if String.eqb passphrase "" with IdentityError ;;
      open_secret payload blob passphrase
    else
      raise_if negb (String.eqb passphrase "") with IdentityError ;;
      Ok blob in
  raise_if negb (blen secret =? ED_SEED_SIZE + X_SEED_SIZE) with IdentityError ;;
  let? label := jget "label" payload in
  let? identity := from_private_bytes (take 32 secret) (drop 32 secret) label in
  let? id := jget "id" payload in
  raise_if negb (eq_str id (identity_id identity)) with IdentityError ;;
  Ok identity.

Definition from_vault (data : bytes) (passphrase : string) : res Identity :=
  let? text := except isa_UnicodeError IdentityError (decode_utf8 data) in
  let? payload := except (isa JSONDecodeError) IdentityError (json_loads text) in
  from_vault_payload payload passphrase.
End identity.

(** ** Facts the other components use *)

Definition wf_identity (i : Identity) : Prop :=
  length (ed_private i) = 32%nat ∧ length (x_private i) = 32%nat ∧
  (label i = JNull ∨ ∃ s, label i = JStr s ∧ utf8_str s).

Lemma blen_eqb b n : (blen b =? n) = true ↔ blen b = n.
Proof. apply Z.eqb_eq. Qed.

Lemma from_private_bytes_ok e x l :
  length e = 32%nat → length x = 32%nat →
  from_private_bytes e x l = Ok {| ed_private := e; x_private := x; label := l |}.
Proof.
  intros He Hx. unfold from_private_bytes, blen. rewrite He, Hx. reflexivity.
Qed.

Section identity_laws.
Context {C : Crypto} {L : CryptoLaws C}.

Lemma b32e_all_ascii data : all_ascii (bs (b32e data)) = true.
Proof.
  unfold b32e. rewrite bs_to_str. apply graph_all_ascii.
  apply (b32e_loop_chars data 0 0). lia.
Qed.

Lemma identity_id_ascii e x : all_ascii (bs (compute_identity_id e x)) = true.
Proof.
  unfold compute_identity_id. rewrite take_chars_ascii by apply b32e_all_ascii.
  rewrite bs_to_str. unfold all_ascii. apply forallb_forall. intros c Hc.
  pose proof (b32e_all_ascii (sha256 (ID_HASH_INFO ++ e ++ x))) as H.
  unfold all_ascii in H. rewrite forallb_forall in H. apply H.
  rewrite <-(take_drop 26). apply in_or_app. by left.
Qed.

Lemma verify_sign i data :
  length (ed_private i) = 32%nat → verify (ed_public_bytes i) (sign i data) data = true.
Proof using L.
  intros H. unfold verify, blen, ed_public_bytes, sign.
  rewrite ed25519_public_length, ed25519_sign_length. cbn. by apply ed25519_sound.
Qed.

Lemma blob_split i : wf_identity i →
  from_private_bytes (take 32 (secret_blob i)) (drop 32 (secret_blob i)) (label i) = Ok i.
Proof using.
  intros (He & Hx & _). unfold secret_blob.
  rewrite take_app_length', drop_app_length' by done.
  rewrite from_private_bytes_ok by done. by destruct i.
Qed.

(** The payload is a well-formed JSON dictionary. *)
Lemma vault_payload_wf i p salt nonce d :
  wf_identity i → vault_payload i p salt nonce = Ok d → wf_dict d.
Proof using.
  intros (_ & _ & Hl) E.
  assert (wf_json utf8_str (label i)) as Hl' by (destruct Hl as [-> | (s & -> & Hs)]; done).
  assert (utf8_str (identity_id i)) as Hid by apply utf8_ok_ascii, identity_id_ascii.
  unfold vault_payload in E. destruct (String.eqb p "") eqn:Ep; cbn [negb] in E; rinv E; subst;
    solve_wf.
Qed.

Lemma from_vault_loads d p :
  wf_dict d →
  from_vault (dumps fmt_indent2 (JObj d)) p = from_vault_payload (canon true (JObj d)) p.
Proof using.
  intros Hd. pose proof (indent2_bytes_loads (JObj d) Hd) as E. unfold json_loads_bytes in E.
  unfold from_vault. destruct (decode_utf8 _); [|done]. cbn [except res_bind] in *.
  by rewrite E.
Qed.

(** A vault written by [to_vault], under a passphrase or in the clear, is
    read back by [from_vault] as the same identity. *)
Theorem vault_roundtrip i p salt nonce :
  wf_identity i → length nonce = 12%nat →
  ∃ data, to_vault i p salt nonce = Ok data ∧ from_vault data p = Ok i.
Proof using L.
  intros Hi Hn.
  assert (canon true (label i) = label i) as Hl by (by destruct Hi as (_ & _ & [-> | (s & -> & _)])).
  assert ((blen (secret_blob i) =? ED_SEED_SIZE + X_SEED_SIZE) = true) as Hlen.
  { destruct Hi as (He & Hx & _). unfold secret_blob, blen. by rewrite length_app, He, Hx. }
  assert (∃ k, pbkdf2_sha256 (bs p) salt PBKDF2_ITERATIONS = Ok k ∧ length k = 32%nat)
    as (k & Ek & Hk) by (apply pbkdf2_ok; done).
  destruct (vault_payload i p salt nonce) as [d|] eqn:E.
  2:{ unfold vault_payload in E. destruct (negb _); [|done].
      unfold vault_key in E. by rewrite Ek in E. }
  exists (dumps fmt_indent2 (JObj d)). split; [unfold to_vault; by rewrite E|].
  pose proof (vault_payload_wf _ _ _ _ _ Hi E) as Hd. rewrite from_vault_loads by done.
  unfold vault_payload in E. unfold from_vault_payload.
  destruct (String.eqb p "") eqn:Ep; cbn [negb] in E.
  - injection E as <-. cbn [app] in *. set (d := _ :: _) in *. canon_intro true d J HJ.
    view HJ. cbn [eq_int negb truthy b64d_json VAULT_VERSION Z.eqb Pos.eqb].
    rewrite b64d_b64e. cbn [res_bind]. rewrite Hlen. cbn [negb].
    view HJ. rewrite Hl, blob_split by done. cbn [res_bind]. view HJ. cbn [eq_str].
    by rewrite String.eqb_refl.
  - unfold vault_key in E. rewrite Ek in E. injection E as <-. cbn [app] in *.
    unfold open_secret, vault_key.
    set (kd := [("salt"%string, JStr (b64e salt)); _]) in *.
    set (d := ("v"%string, _) :: _) in *. canon_intro true d J HJ.
    view HJ. cbn [eq_int negb truthy b64d_json VAULT_VERSION Z.eqb Pos.eqb].
    rewrite b64d_b64e. cbn [res_bind]. view HJ.     canon_intro true kd KJ HKJ. unfold jor. view HKJ. cbn [truthy kd]. view HKJ.
    cbn [b64d_json to_int]. rewrite b64d_b64e. cbn [res_bind]. rewrite Ek. cbn [res_bind].
    view HJ. cbn [b64d_json]. rewrite b64d_b64e. cbn [res_bind]. view HJ.
    rewrite (proj2 (aesgcm_correct k nonce _ _ _ Hk Hn) eq_refl). cbn [of_option except res_bind].
    rewrite Hlen. cbn [negb]. view HJ. rewrite Hl, blob_split by done. cbn [res_bind].
    view HJ. cbn [eq_str]. by rewrite String.eqb_refl.
Qed.

End identity_laws.

(** ** A concrete identity *)

Import Toy.

Definition sample_identity : Identity :=
  {| ed_private := repeat "e"%char 32; x_private := repeat "x"%char 32; label := JStr "Ann" |}.

Lemma sample_identity_wf : wf_identity sample_identity.
Proof. split_and!; [done..|]. right. by exists "Ann"%string. Qed.

Lemma vault_roundtrip_witness :
  ∃ data, to_vault sample_identity "pass" [] (repeat "n"%char 12) = Ok data ∧
          from_vault data "pass" = Ok sample_identity.
Proof.
  apply (vault_roundtrip); [apply sample_identity_wf | reflexivity].
Defined.
