(* ===== verification/Prekeys.v ===== *)
(** * Prekey bundles ([crypto/prekeys.py]) *)

From S2P Require Import Prelude PyStr Json JsonProps Dict Primitives Encoding Kdf Identity.

Definition BUNDLE_VERSION : Z := 1.
Definition BUNDLE_ID_SIZE : Z := 16.
Definition MAX_OPKS : Z := 100.

Record PrekeyBundle := {
  bundle_id : bytes;
  isign : bytes;
  idh : bytes;
  spk_id : Z;
  spk : bytes;
  spk_sig : bytes;
  opks : list (Z * bytes)
}.

Definition opks_json (l : list (Z * bytes)) : json :=
  JList (map (λ p, JObj [("opk_id", JInt p.1); ("opk", JStr (b64e p.2))]) l).

Definition to_dict (b : PrekeyBundle) : dict :=
  [("v", JInt BUNDLE_VERSION); ("bundle_id", JStr (b64e (bundle_id b)));
   ("isign", JStr (b64e (isign b))); ("idh", JStr (b64e (idh b)));
   ("spk_id", JInt (spk_id b)); ("spk", JStr (b64e (spk b)));
   ("spk_sig", JStr (b64e (spk_sig b))); ("opks", opks_json (opks b))].

Definition to_public_dict (b : PrekeyBundle) : dict :=
  [("v", JInt BUNDLE_VERSION); ("bundle_id", JStr (b64e (bundle_id b)));
   ("spk_id", JInt (spk_id b)); ("spk", JStr (b64e (spk b)));
   ("spk_sig", JStr (b64e (spk_sig b))); ("opks", opks_json (opks b))].

Definition opk_from_json (o : json) : res (Z * bytes) :=
  let? i := (let? i := jitem "opk_id" o in to_int i) in
  let? k := (let? k := jitem "opk" o in b64d_json k) in
  Ok (i, k).

Definition from_dict (data : json) : res PrekeyBundle :=
  let? v := jget "v" data in
  raise_if negb (eq_int v BUNDLE_VERSION) with PrekeyError ;;
  except isa_KTV PrekeyError
    (let? bundle_id := (let? j := jitem "bundle_id" data in b64d_json j) in
     let? isign := (let? j := jget_def "isign" (JStr "") data in b64d_json j) in
     let? idh := (let? j := jget_def "idh" (JStr "") data in b64d_json j) in
     let? spk_id := (let? j := jitem "spk_id" data in to_int j) in
     let? spk := (let? j := jitem "spk" data in b64d_json j) in
     let? spk_sig := (let? j := jitem "spk_sig" data in b64d_json j) in
     let? opks := (let? j := jget_def "opks" (JList []) data in
                   let? l := iter_json j in mapM opk_from_json l) in
     Ok {| bundle_id := bundle_id; isign := isign; idh := idh; spk_id := spk_id;
           spk := spk; spk_sig := spk_sig; opks := opks |}).

Definition with_keys (b : PrekeyBundle) (isign0 idh0 : bytes) : PrekeyBundle :=
  {| bundle_id := bundle_id b; isign := isign0; idh := idh0; spk_id := spk_id b;
     spk := spk b; spk_sig := spk_sig b; opks := opks b |}.

(** [from_public] on a dict, and on bytes. *)
Definition from_public (data : json) (isign0 idh0 : bytes) : res PrekeyBundle :=
  let? bundle := from_dict data in Ok (with_keys bundle isign0 idh0).
Definition from_bytes (data : bytes) (isign0 idh0 : bytes) : res PrekeyBundle :=
  let? j := json_loads_bytes data in from_public j isign0 idh0.

Definition to_bytes (b : PrekeyBundle) : bytes := canonical_json (JObj (to_public_dict b)).

Section prekeys.
Context {C : Crypto}.

Definition spk_message (bundle_id : bytes) (spk_id : Z) (spk : bytes) : res bytes :=
  let? n := to_be 4 spk_id in Ok (SPK_SIGN_INFO ++ bundle_id ++ n ++ spk).

Definition spk_signature (identity : Identity) (bundle_id : bytes) (spk_id : Z) (spk : bytes)
    : res bytes :=
  let? message := spk_message bundle_id spk_id spk in Ok (sign identity message).

Definition make_bundle (identity : Identity) (bundle_id0 : bytes) (spk_id0 : Z)
    (spk_public : bytes) (opks0 : list (Z * bytes)) : res PrekeyBundle :=
  raise_if negb (blen bundle_id0 =? BUNDLE_ID_SIZE) with PrekeyError ;;
  raise_if MAX_OPKS <? Z.of_nat (length opks0) with PrekeyError ;;
  let? sig := spk_signature identity bundle_id0 spk_id0 spk_public in
  Ok {| bundle_id := bundle_id0; isign := ed_public_bytes identity;
        idh := x_public_bytes identity; spk_id := spk_id0; spk := spk_public;
        spk_sig := sig; opks := opks0 |}.

Definition verify_bundle (bundle : PrekeyBundle) (expected_isign : bytes) : res unit :=
  raise_if negb (bool_decide (isign bundle = expected_isign)) with PrekeyError ;;
  raise_if negb (blen (spk bundle) =? 32) || negb (blen (idh bundle) =? 32) with PrekeyError ;;
  let? message := spk_message (bundle_id bundle) (spk_id bundle) (spk bundle) in
  raise_if negb (verify (isign bundle) (spk_sig bundle) message) with PrekeyError ;;
  Ok tt.

Context {L : CryptoLaws C}.

(** A bundle made by an identity verifies under that identity's key. *)
Lemma make_bundle_verifies i bid sid spk0 opks0 b :
  wf_identity i → length spk0 = 32%nat → make_bundle i bid sid spk0 opks0 = Ok b →
  verify_bundle b (ed_public_bytes i) = Ok tt.
Proof using L.
  intros (He & Hx & _) Hs E. unfold make_bundle, spk_signature in E. rinv E. subst b a.
  rename a0 into m, Ha0 into Em. unfold verify_bundle.
  cbn [isign spk idh spk_sig bundle_id Prekeys.spk_id].
  rewrite bool_decide_eq_true_2 by done. unfold blen, x_public_bytes.
  rewrite Hs, x25519_public_length. cbn [negb orb Z.of_nat Z.eqb]. cbn. rewrite Em. cbn [res_bind].
  by rewrite verify_sign.
Qed.

(** The signed message determines the identifier, the number and the key. *)
Lemma spk_message_inj b1 n1 k1 b2 n2 k2 m :
  length b1 = length b2 → spk_message b1 n1 k1 = Ok m → spk_message b2 n2 k2 = Ok m →
  b1 = b2 ∧ n1 = n2 ∧ k1 = k2.
Proof using.
  intros Hl E1 E2. unfold spk_message in *. generalize dependent SPK_SIGN_INFO. intros info E1 E2.
  rinv E1. rinv E2. subst m. apply app_inv_head in E2. symmetry in E2. apply app_inj_len in E2 as [-> E2]; [|done].
  pose proof (to_be_Ok _ _ _ Ha) as [_ ->]. pose proof (to_be_Ok _ _ _ Ha0) as [_ ->].
  apply app_inj_len in E2 as [E ->]; [|by rewrite !to_be_raw_length].
  rewrite E in *. split_and!; [done| |done]. by eapply to_be_inj.
Qed.
End prekeys.

(** ** Wire round trip *)

Lemma opk_json_wf (p : Z * bytes) :
  wf_json utf8_str (JObj [("opk_id"%string, JInt p.1); ("opk"%string, JStr (b64e p.2))]).
Proof. solve_wf. Qed.

Lemma opks_json_wf l : wf_json utf8_str (opks_json l).
Proof.
  unfold opks_json. cbn [wf_json]. rewrite map_map, Forall_map. apply Forall_true.
  intros p. apply opk_json_wf.
Qed.

Lemma opk_from_json_canon srt (p : Z * bytes) :
  opk_from_json (canon srt (JObj [("opk_id"%string, JInt p.1); ("opk"%string, JStr (b64e p.2))]))
  = Ok p.
Proof.
  set (d := ("opk_id"%string, _) :: _). canon_intro srt d J HJ. unfold opk_from_json.
  view HJ. cbn [to_int b64d_json res_bind]. rewrite b64d_b64e. by destruct p.
Qed.

Lemma opks_from_json_canon srt l :
  (let? l := iter_json (canon srt (opks_json l)) in mapM opk_from_json l) = Ok l.
Proof.
  unfold opks_json. cbn [canon iter_json res_bind]. rewrite map_map. apply mapM_fmap_id.
  intros p _. apply opk_from_json_canon.
Qed.

Lemma to_public_dict_wf b : wf_dict (to_public_dict b).
Proof. unfold to_public_dict. pose proof (opks_json_wf (opks b)). solve_wf. Qed.
Lemma to_dict_wf b : wf_dict (to_dict b).
Proof. unfold to_dict. pose proof (opks_json_wf (opks b)). solve_wf. Qed.

Ltac from_dict_steps HJ :=
  view HJ; cbn [eq_int BUNDLE_VERSION Z.eqb Pos.eqb negb]; unfold except;
  repeat (progress (view HJ; rewrite ?opks_from_json_canon; cbn [b64d_json to_int res_bind];
                    rewrite ?b64d_b64e; change (b64d "") with (Ok (A := bytes) []);
                    cbn [res_bind])).

(** The published form read back: everything but the identity keys, which the
    reader supplies. *)
Lemma from_public_canon srt b isign0 idh0 :
  from_public (canon srt (JObj (to_public_dict b))) isign0 idh0 = Ok (with_keys b isign0 idh0).
Proof.
  unfold from_public, from_dict. pose proof (wf_dict_nodup _ (to_public_dict_wf b)).
  set (d := to_public_dict b) in *. canon_intro srt d J HJ. from_dict_steps HJ. done.
Qed.

Lemma from_bytes_to_bytes b isign0 idh0 :
  from_bytes (to_bytes b) isign0 idh0 = Ok (with_keys b isign0 idh0).
Proof.
  unfold from_bytes, to_bytes. rewrite canonical_json_loads by apply to_public_dict_wf.
  cbn [res_bind]. apply from_public_canon.
Qed.

Lemma from_dict_to_dict srt b : from_dict (canon srt (JObj (to_dict b))) = Ok b.
Proof.
  unfold from_dict. pose proof (wf_dict_nodup _ (to_dict_wf b)).
  set (d := to_dict b) in *. canon_intro srt d J HJ. from_dict_steps HJ. by destruct b.
Qed.
