(* ===== verification/X3dh.v ===== *)
(** * Anonymous X3DH ([crypto/x3dh.py])

    The initiator's ephemeral private key [X25519PrivateKey.generate()] is an
    argument. *)

From S2P Require Import Prelude PyStr Json JsonProps Dict Primitives Encoding Kdf Identity Prekeys.

Definition INIT_VERSION : Z := 1.
Definition KEY_SIZE : nat := 32.

Record Initiation := {
  ek_public : bytes;
  ek_private : bytes;
  in_spk_id : Z;
  in_opk_id : option Z;
  sk : bytes
}.

Definition opt_int (o : option Z) : json := match o with Some n => JInt n | None => JNull end.

Definition init_dict (i : Initiation) : dict :=
  [("ek", JStr (b64e (ek_public i))); ("spk_id", JInt (in_spk_id i));
   ("opk_id", opt_int (in_opk_id i))].

Section x3dh.
Context {C : Crypto}.

(** [_public] and [_private]: the library wants 32 bytes. *)
Definition x_public (seed : bytes) : res bytes :=
  raise_if negb (Nat.eqb (length seed) 32) with HandshakeError ;; Ok seed.
Definition x_private_key (seed : bytes) : res bytes :=
  raise_if negb (Nat.eqb (length seed) 32) with HandshakeError ;; Ok seed.

Definition shared_key (dh1 dh2 dh3 : bytes) : bytes :=
  hkdf (Kdf.F ++ dh1 ++ dh2 ++ dh3) ZERO_SALT X3DH_INFO KEY_SIZE.

Definition initiate (ephemeral : bytes) (bundle : PrekeyBundle)
    (expected_isign expected_idh : bytes) : res Initiation :=
  let? _ := except (isa PrekeyError) HandshakeError (verify_bundle bundle expected_isign) in
  raise_if negb (bool_decide (idh bundle = expected_idh)) with HandshakeError ;;
  let? dh1 := (let? p := x_public (idh bundle) in x25519 ephemeral p) in
  let? dh2 := (let? p := x_public (spk bundle) in x25519 ephemeral p) in
  let? (opk_id, dh3) :=
    match opks bundle with
    | [] => Ok (None, [])
    | (opk_id, opk_public) :: _ =>
        let? dh3 := (let? p := x_public opk_public in x25519 ephemeral p) in
        Ok (Some opk_id, dh3)
    end in
  Ok {| ek_public := x25519_public ephemeral; ek_private := ephemeral;
        in_spk_id := spk_id bundle; in_opk_id := opk_id; sk := shared_key dh1 dh2 dh3 |}.

(** [opk_private] is empty for [None]. *)
Definition respond (identity_x_private signed_prekey_private opk_private ek_public : bytes)
    : res bytes :=
  let? ephemeral := x_public ek_public in
  let? dh1 := (let? k := x_private_key identity_x_private in x25519 k ephemeral) in
  let? dh2 := (let? k := x_private_key signed_prekey_private in x25519 k ephemeral) in
  let? dh3 := match opk_private with
              | [] => Ok []
              | _ => let? k := x_private_key opk_private in x25519 k ephemeral
              end in
  Ok (shared_key dh1 dh2 dh3).

(** ** Sender authentication *)

Definition auth_message (sid : bytes) (init_dict : dict) (commit : bytes) : bytes :=
  AUTH_SIGN_INFO ++ sid ++ canonical_json (JObj init_dict) ++ commit.

Definition build_auth (identity : Identity) (sid : bytes) (init_dict : dict) (sk : bytes) : dict :=
  let commit := sk_commitment sk in
  let message := auth_message sid init_dict commit in
  [("v", JInt INIT_VERSION); ("id", JStr (identity_id identity));
   ("isign", JStr (b64e (ed_public_bytes identity)));
   ("idh", JStr (b64e (x_public_bytes identity)));
   ("sk_commit", JStr (b64e commit)); ("sig", JStr (b64e (sign identity message)))].

Definition false_on (P : exn → bool) (m : res bool) : res bool :=
  match m with Ok b => Ok b | Err e => if P e then Ok false else Err e end.

Definition verify_auth (auth : json) (sid : bytes) (init_dict : dict) (sk : bytes) : res bool :=
  false_on isa_KTV
    (let? v := jget "v" auth in
     if negb (eq_int v INIT_VERSION) then Ok false else
     let expected_commit := sk_commitment sk in
     let? c := (let? j := jitem "sk_commit" auth in b64d_json j) in
     if negb (bool_decide (c = expected_commit)) then Ok false else
     let? isign := (let? j := jitem "isign" auth in b64d_json j) in
     let? idh := (let? j := jitem "idh" auth in b64d_json j) in
     let? id := jget "id" auth in
     if negb (eq_str id (compute_identity_id isign idh)) then Ok false else
     let message := auth_message sid init_dict expected_commit in
     let? sig := (let? j := jitem "sig" auth in b64d_json j) in
     Ok (verify isign sig message)).

Context {L : CryptoLaws C}.

Lemma x_public_ok p : length p = 32%nat → x_public p = Ok p.
Proof using. intros H. unfold x_public. by rewrite H. Qed.
Lemma x_private_ok p : length p = 32%nat → x_private_key p = Ok p.
Proof using. intros H. unfold x_private_key. by rewrite H. Qed.

(** One leg of the handshake, from both ends. *)
Lemma leg_agree a b :
  length a = 32%nat → length b = 32%nat →
  ∃ s, (let? p := x_public (x25519_public b) in x25519 a p) = Ok s ∧
       (let? k := x_private_key b in x25519 k (x25519_public a)) = Ok s.
Proof using L.
  intros Ha Hb. destruct (x25519_both a b Ha Hb) as (s & E1 & E2 & _). exists s.
  rewrite x_public_ok, x_private_ok by (done || apply x25519_public_length). done.
Qed.

(** The one-time prekey private key that belongs to the first published one. *)
Definition opk_matches (opks0 : list (Z * bytes)) (opk_private : bytes) : Prop :=
  match opks0 with
  | [] => opk_private = []
  | (_, p) :: _ => length opk_private = 32%nat ∧ p = x25519_public opk_private
  end.

(** Both ends of the handshake over a bundle the recipient made. *)
Lemma bundle_agreement i bid sid spk_priv opks0 opk_priv b ek :
  wf_identity i → length spk_priv = 32%nat → length ek = 32%nat → opk_matches opks0 opk_priv →
  make_bundle i bid sid (x25519_public spk_priv) opks0 = Ok b →
  with_keys b (ed_public_bytes i) (x_public_bytes i) = b ∧ spk b = x25519_public spk_priv ∧
  ∃ init,
    initiate ek b (ed_public_bytes i) (x_public_bytes i) = Ok init ∧
    respond (x_private i) spk_priv opk_priv (ek_public init) = Ok (sk init) ∧
    ek_public init = x25519_public ek ∧ in_spk_id init = sid ∧
    in_opk_id init = fst <$> head opks0 ∧ length (sk init) = 32%nat.
Proof using L.
  intros Hi Hs Hek Ho Eb.
  pose proof (make_bundle_verifies _ _ _ _ _ _ Hi (x25519_public_length _) Eb) as Hv.
  assert (∃ sig, b = {| bundle_id := bid; isign := ed_public_bytes i; idh := x_public_bytes i;
                 spk_id := sid; spk := x25519_public spk_priv; spk_sig := sig;
                 opks := opks0 |}) as [sig ->].
  { unfold make_bundle in Eb. rinv Eb. by eexists. }
  clear Eb. set (b := Build_PrekeyBundle _ _ _ _ _ _ _) in *. split; [done|]. split; [done|]. unfold initiate. rewrite Hv. cbn [except res_bind b idh spk opks spk_id].
  rewrite bool_decide_eq_true_2 by done. cbn [negb].
  destruct (leg_agree ek (x_private i) Hek) as (s1 & E1 & R1); [apply Hi|].
  destruct (leg_agree ek spk_priv Hek Hs) as (s2 & E2 & R2).
  unfold x_public_bytes. rewrite E1. cbn [res_bind]. rewrite E2. cbn [res_bind].
  assert (∃ s3, match opks0 with
                | [] => Ok (None, [])
                | (opk_id, opk_public) :: _ =>
                    let? dh3 := (let? p := x_public opk_public in x25519 ek p) in
                    Ok (Some opk_id, dh3)
                end = Ok (fst <$> head opks0, s3) ∧
                match opk_priv with
                | [] => Ok []
                | _ => let? k := x_private_key opk_priv in x25519 k (x25519_public ek)
                end = Ok s3) as (s3 & E3 & R3).
  { destruct opks0 as [|[oid op] opks0]; cbn [opk_matches] in Ho; [subst; by exists []|].
    destruct Ho as [Hl ->]. destruct (leg_agree ek opk_priv Hek Hl) as (s3 & E3 & R3).
    exists s3. rewrite E3. split; [done|]. destruct opk_priv; [done|]. exact R3. }
  rewrite E3. cbn [res_bind]. eexists. split_and!; [done| |done..|apply hkdf_length].
  unfold respond. cbn [ek_public sk]. rewrite x_public_ok by apply x25519_public_length.
  cbn [res_bind]. rewrite R1. cbn [res_bind]. rewrite R2. cbn [res_bind]. by rewrite R3.
Qed.

(** C6: a published bundle, fetched back and checked against the keys of the
    recipient's card, always lets the initiator start, and the recipient derives
    the same session key from the ephemeral key and the private halves; the
    initiator names the prekeys it used. *)
Theorem x3dh_agreement i bid sid spk_priv opks0 opk_priv b ek :
  wf_identity i → length spk_priv = 32%nat → length ek = 32%nat → opk_matches opks0 opk_priv →
  make_bundle i bid sid (x25519_public spk_priv) opks0 = Ok b →
  ∃ b' init,
    from_bytes (to_bytes b) (ed_public_bytes i) (x_public_bytes i) = Ok b' ∧
    initiate ek b' (ed_public_bytes i) (x_public_bytes i) = Ok init ∧
    respond (x_private i) spk_priv opk_priv (ek_public init) = Ok (sk init) ∧
    ek_public init = x25519_public ek ∧ in_spk_id init = sid ∧
    in_opk_id init = fst <$> head opks0 ∧ length (sk init) = 32%nat.
Proof using L.
  intros Hi Hs Hek Ho Eb. destruct (bundle_agreement _ _ _ _ _ _ _ _ Hi Hs Hek Ho Eb) as (Hb & _ & init & H).
  exists b, init. split; [by rewrite from_bytes_to_bytes, Hb|exact H].
Qed.

(** The sender proof built for a session verifies for that session, also
    after a trip through canonical JSON. *)
Theorem verify_build_auth i sid init sk0 :
  wf_identity i →
  verify_auth (canon true (JObj (build_auth i sid init sk0))) sid init sk0 = Ok true.
Proof using L.
  intros (He & _). unfold build_auth. set (m := auth_message _ _ _) in *.
  set (d := ("v"%string, _) :: _) in *. canon_intro true d J HJ. unfold verify_auth.
  view HJ. cbn [eq_int INIT_VERSION Z.eqb Pos.eqb negb].
  view HJ. cbn [b64d_json]. rewrite b64d_b64e. cbn [res_bind].
  rewrite bool_decide_eq_true_2 by done. cbn [negb]. view HJ.
  cbn [b64d_json]. rewrite !b64d_b64e. cbn [res_bind]. view HJ. cbn [eq_str].
  unfold identity_id. rewrite String.eqb_refl. cbn [negb]. view HJ.
  cbn [false_on]. fold m.
  by rewrite verify_sign.
Qed.

(** Verification establishes the binding: key commitment, fingerprint, signature. *)
Lemma verify_auth_sound auth sid init sk0 :
  verify_auth auth sid init sk0 = Ok true →
  ∃ isign idh sig,
    jget "id" auth = Ok (JStr (compute_identity_id isign idh)) ∧
    (let? j := jitem "isign" auth in b64d_json j) = Ok isign ∧
    (let? j := jitem "idh" auth in b64d_json j) = Ok idh ∧
    (let? j := jitem "sk_commit" auth in b64d_json j) = Ok (sk_commitment sk0) ∧
    length isign = 32%nat ∧ length sig = 64%nat ∧
    ed25519_verify isign sig (auth_message sid init (sk_commitment sk0)) = true.
Proof using.
  intros E. unfold verify_auth, false_on in E.
  match type of E with match ?m with _ => _ end = _ => destruct m as [b|e] eqn:Em end.
  2:{ by case_match. }
  injection E as ->. rinv Em.
  destruct (negb (eq_int a INIT_VERSION)); [done|]. rinv Em.
  destruct (negb (bool_decide (a0 = sk_commitment sk0))) eqn:Ec; [done|].
  apply negb_false_iff, bool_decide_eq_true in Ec. subst a0. rinv Em.
  destruct a5; try discriminate Em. cbn [eq_str] in Em.
  destruct (String.eqb_spec s (compute_identity_id a0 a3)) as [->|]; [|discriminate Em].
  cbn [negb] in Em. rinv Em.
  unfold verify in Em. destruct (_ || _) eqn:El; [done|]. unfold blen in El.
  exists a0, a3, a5. rewrite Ha3, Ha5, Ha1. cbn [res_bind]. split_and!; try done; lia.
Qed.
End x3dh.


Import Toy.

Definition sample_bundle : PrekeyBundle :=
  let i := sample_identity in
  let bid := repeat "b"%char 16 in
  let spk0 := x25519_public (repeat "s"%char 32) in
  {| bundle_id := bid; isign := ed_public_bytes i; idh := x_public_bytes i; spk_id := 7;
     spk := spk0;
     spk_sig := sign i (SPK_SIGN_INFO ++ bid ++ to_be_raw 4 7 ++ spk0);
     opks := [(3, x25519_public (repeat "o"%char 32))] |}.

Lemma x3dh_agreement_witness :
  let i := sample_identity in
  let ek := repeat "k"%char 32 in
  ∃ b' init,
    from_bytes (to_bytes sample_bundle) (ed_public_bytes i) (x_public_bytes i) = Ok b' ∧
    initiate ek b' (ed_public_bytes i) (x_public_bytes i) = Ok init ∧
    respond (x_private i) (repeat "s"%char 32) (repeat "o"%char 32) (ek_public init) = Ok (sk init) ∧
    ek_public init = x25519_public ek ∧ in_spk_id init = 7 ∧
    in_opk_id init = fst <$> head [(3, x25519_public (repeat "o"%char 32))] ∧
    length (sk init) = 32%nat.
Proof.
  intros i ek.
  apply (x3dh_agreement i (repeat "b"%char 16) 7 (repeat "s"%char 32)
           [(3, x25519_public (repeat "o"%char 32))] (repeat "o"%char 32) sample_bundle ek);
    [apply sample_identity_wf | reflexivity | reflexivity | split; reflexivity | reflexivity].
Defined.

Lemma verify_build_auth_witness :
  verify_auth (canon true (JObj (build_auth sample_identity (bs "sid") [] (bs "sk")))) (bs "sid") []
    (bs "sk") = Ok true.
Proof. apply verify_build_auth, sample_identity_wf. Defined.
