(* ===== verification/Ratchet.v ===== *)
(** * Double Ratchet ([crypto/ratchet.py])

    [RatchetState] is the dataclass; the methods are state-and-exception
    computations on it, so that [decrypt] restores its snapshot explicitly.  The
    fresh key of [_new_keypair] and the AEAD nonce are arguments.  The skipped-key
    dictionary is a finite map: its order shows only in the order of keys of the
    stored JSON. *)

From S2P Require Import Prelude PyStr Json JsonProps Dict Primitives Encoding Kdf.
From S2P Require Aead.

Definition MAX_SKIP : Z := 1000.
Definition AD_DOMAIN : bytes := bs "nk/v1/msg".

Record RatchetState := {
  root_key : bytes;
  sending_chain : option bytes;
  receiving_chain : option bytes;
  dh_self_private : option bytes;
  dh_self_public : option bytes;
  dh_remote : option bytes;
  send_count : Z;
  recv_count : Z;
  prev_send_count : Z;
  skipped : gmap string bytes
}.

(** ** Serialisation *)

(** [b64e(x) if x else None]. *)
Definition opt_b64 (o : option bytes) : json :=
  match o with Some (c :: l) => JStr (b64e (c :: l)) | _ => JNull end.

Definition skipped_json (m : gmap string bytes) : json :=
  JObj (map (λ kv, (kv.1, JStr (b64e kv.2))) (map_to_list m)).

Definition to_dict (s : RatchetState) : dict :=
  [("v", JInt 1); ("rk", JStr (b64e (root_key s)));
   ("cks", opt_b64 (sending_chain s)); ("ckr", opt_b64 (receiving_chain s));
   ("dhs_priv", opt_b64 (dh_self_private s)); ("dhs_pub", opt_b64 (dh_self_public s));
   ("dhr", opt_b64 (dh_remote s)); ("ns", JInt (send_count s)); ("nr", JInt (recv_count s));
   ("pn", JInt (prev_send_count s)); ("skipped", skipped_json (skipped s))].

(** [b64d(data[k]) if data.get(k) else None]. *)
Definition opt_field (k : string) (data : json) : res (option bytes) :=
  let? j := jget k data in
  if truthy j then let? b := b64d_json j in Ok (Some b) else Ok None.
Definition int_field (k : string) (data : json) : res Z :=
  let? j := jget_def k (JInt 0) data in to_int j.

Definition skipped_entry (kv : string * json) : res (string * bytes) :=
  let? b := b64d_json kv.2 in Ok (kv.1, b).

Definition from_dict (data : json) : res RatchetState :=
  let? rk := (let? j := jitem "rk" data in b64d_json j) in
  let? cks := opt_field "cks" data in
  let? ckr := opt_field "ckr" data in
  let? priv := opt_field "dhs_priv" data in
  let? pub := opt_field "dhs_pub" data in
  let? dhr := opt_field "dhr" data in
  let? ns := int_field "ns" data in
  let? nr := int_field "nr" data in
  let? pn := int_field "pn" data in
  let? sk := (let? j := jget "skipped" data in
              let? l := items_json (jor j (JObj [])) in mapM skipped_entry l) in
  Ok {| root_key := rk; sending_chain := cks; receiving_chain := ckr; dh_self_private := priv;
        dh_self_public := pub; dh_remote := dhr; send_count := ns; recv_count := nr;
        prev_send_count := pn; skipped := list_to_map sk |}.

(** ** The session *)

Section ratchet.
Context {C : Crypto}.

Definition new_keypair (fresh : bytes) : bytes * bytes := (fresh, x25519_public fresh).

Definition initiator (fresh session_key remote_ratchet_public : bytes) : res RatchetState :=
  let '(priv, pub) := new_keypair fresh in
  let? dh := x25519 priv remote_ratchet_public in
  let '(rk, cks) := kdf_rk session_key dh in
  Ok {| root_key := rk; sending_chain := Some cks; receiving_chain := None;
        dh_self_private := Some priv; dh_self_public := Some pub;
        dh_remote := Some remote_ratchet_public;
        send_count := 0; recv_count := 0; prev_send_count := 0; skipped := ∅ |}.

Definition responder (session_key signed_prekey_private signed_prekey_public : bytes)
    : RatchetState :=
  {| root_key := session_key; sending_chain := None; receiving_chain := None;
     dh_self_private := Some signed_prekey_private;
     dh_self_public := Some signed_prekey_public; dh_remote := None;
     send_count := 0; recv_count := 0; prev_send_count := 0; skipped := ∅ |}.

Definition skipped_key (dh : option bytes) (number : Z) : string :=
  b64e (default [] dh) +:+ ":" +:+ int_str number.

Definition associated_data (header ad_context : json) : bytes :=
  AD_DOMAIN ++ canonical_json (JObj [("init", jor ad_context (JObj [])); ("hdr", header)]).

(** Field updates. *)
Definition set_sending (c : bytes) (n : Z) (s : RatchetState) : RatchetState :=
  {| root_key := root_key s; sending_chain := Some c; receiving_chain := receiving_chain s;
     dh_self_private := dh_self_private s; dh_self_public := dh_self_public s;
     dh_remote := dh_remote s; send_count := n; recv_count := recv_count s;
     prev_send_count := prev_send_count s; skipped := skipped s |}.
Definition set_receiving (c : bytes) (n : Z) (sk : gmap string bytes) (s : RatchetState)
    : RatchetState :=
  {| root_key := root_key s; sending_chain := sending_chain s; receiving_chain := Some c;
     dh_self_private := dh_self_private s; dh_self_public := dh_self_public s;
     dh_remote := dh_remote s; send_count := send_count s; recv_count := n;
     prev_send_count := prev_send_count s; skipped := sk |}.
Definition set_skipped (sk : gmap string bytes) (s : RatchetState) : RatchetState :=
  {| root_key := root_key s; sending_chain := sending_chain s;
     receiving_chain := receiving_chain s;
     dh_self_private := dh_self_private s; dh_self_public := dh_self_public s;
     dh_remote := dh_remote s; send_count := send_count s; recv_count := recv_count s;
     prev_send_count := prev_send_count s; skipped := sk |}.

Definition header (pub : bytes) (pn n : Z) : dict :=
  [("dh", JStr (b64e pub)); ("pn", JInt pn); ("n", JInt n)].

Definition encrypt (nonce plaintext : bytes) (ad_context : json)
    : SE RatchetState (dict * bytes * bytes) :=
  do! st := se_get in
  do! chain := se_lift (of_option RatchetError (sending_chain st)) in
  let '(message_key, next) := kdf_ck chain in
  do! _ := se_modify (set_sending next (send_count st)) in
  do! pub := se_lift (of_option TypeError (dh_self_public st)) in
  let hdr := header pub (prev_send_count st) (send_count st) in
  do! (nonce, ciphertext) :=
    se_lift (Aead.encrypt nonce message_key plaintext (associated_data (JObj hdr) ad_context)) in
  do! _ := se_modify (set_sending next (send_count st + 1)) in
  se_ret (hdr, nonce, ciphertext).

(** The [while] loop of [_skip_keys]. *)
Fixpoint skip_loop (fuel : nat) (until : Z) : SE RatchetState unit :=
  match fuel with
  | O => se_raise OutOfFuel
  | S f =>
      do! st := se_get in
      if recv_count st <? until then
        do! chain := se_lift (of_option TypeError (receiving_chain st)) in
        let '(message_key, next) := kdf_ck chain in
        do! _ := se_modify (set_receiving next (recv_count st + 1)
                   (<[skipped_key (dh_remote st) (recv_count st) := message_key]> (skipped st))) in
        skip_loop f until
      else se_ret tt
  end.

Definition skip_keys (until : Z) : SE RatchetState unit :=
  do! st := se_get in
  match receiving_chain st with
  | None => se_ret tt
  | Some _ =>
      do! _ := se_check (recv_count st + MAX_SKIP <? until) SkippedTooFar in
      skip_loop (S (Z.to_nat (until - recv_count st))) until
  end.

Definition dh_ratchet (fresh remote_dh : bytes) : SE RatchetState unit :=
  do! st := se_get in
  let st1 := {| root_key := root_key st; sending_chain := sending_chain st;
                receiving_chain := receiving_chain st; dh_self_private := dh_self_private st;
                dh_self_public := dh_self_public st; dh_remote := Some remote_dh;
                send_count := 0; recv_count := 0; prev_send_count := send_count st;
                skipped := skipped st |} in
  do! _ := se_put st1 in
  do! self := se_lift (of_option RatchetError (dh_self_private st)) in
  do! dh := se_lift (x25519 self remote_dh) in
  let '(rk, ckr) := kdf_rk (root_key st) dh in
  let '(priv, pub) := new_keypair fresh in
  do! _ := se_put {| root_key := rk; sending_chain := sending_chain st;
                     receiving_chain := Some ckr; dh_self_private := Some priv;
                     dh_self_public := Some pub; dh_remote := Some remote_dh;
                     send_count := 0; recv_count := 0; prev_send_count := send_count st;
                     skipped := skipped st |} in
  do! dh := se_lift (x25519 priv remote_dh) in
  let '(rk2, cks) := kdf_rk rk dh in
  se_put {| root_key := rk2; sending_chain := Some cks; receiving_chain := Some ckr;
            dh_self_private := Some priv; dh_self_public := Some pub;
            dh_remote := Some remote_dh; send_count := 0; recv_count := 0;
            prev_send_count := send_count st; skipped := skipped st |}.

Definition parse_header (header : json) : res (bytes * Z * Z) :=
  except isa_KTV RatchetError
    (let? remote_dh := (let? j := jitem "dh" header in b64d_json j) in
     let? number := (let? j := jitem "n" header in to_int j) in
     let? prev_count := (let? j := jitem "pn" header in to_int j) in
     Ok (remote_dh, number, prev_count)).

(** The part of [_decrypt] that brings the session to the message's chain. *)
Definition enter_chain (fresh remote_dh : bytes) (prev_count : Z) : SE RatchetState unit :=
  do! st := se_get in
  if negb (bool_decide (dh_remote st = Some remote_dh))
     || bool_decide (receiving_chain st = None) then
    do! _ := match receiving_chain st with Some _ => skip_keys prev_count | None => se_ret tt end in
    dh_ratchet fresh remote_dh
  else se_ret tt.

(** The message key: a skipped one, or the next of the chain. *)
Definition take_key (remote_dh : bytes) (number : Z) : SE RatchetState bytes :=
  do! st := se_get in
  let key := skipped_key (Some remote_dh) number in
  match skipped st !! key with
  | Some message_key =>
      do! _ := se_modify (set_skipped (delete key (skipped st))) in
      se_ret message_key
  | None =>
      do! _ := se_check (number <? recv_count st) DuplicateMessage in
      do! _ := se_check (recv_count st + MAX_SKIP <? number) SkippedTooFar in
      do! _ := skip_keys number in
      do! st := se_get in
      do! chain := se_lift (of_option TypeError (receiving_chain st)) in
      let '(message_key, next) := kdf_ck chain in
      do! _ := se_modify (set_receiving next (recv_count st + 1) (skipped st)) in
      se_ret message_key
  end.

Definition decrypt_ (fresh : bytes) (header : json) (nonce ciphertext : bytes)
    (ad_context : json) : SE RatchetState bytes :=
  do! (remote_dh, number, prev_count) := se_lift (parse_header header) in
  do! _ := enter_chain fresh remote_dh prev_count in
  do! message_key := take_key remote_dh number in
  se_lift (Aead.decrypt message_key nonce ciphertext (associated_data header ad_context)).

Definition decrypt (fresh : bytes) (header : json) (nonce ciphertext : bytes)
    (ad_context : json) : SE RatchetState bytes := λ st,
  let snapshot := st in
  match decrypt_ fresh header nonce ciphertext ad_context st with
  | (Ok p, st') => (Ok p, st')
  | (Err e, st') => (Err e, if isa_Exception e then snapshot else st')
  end.
End ratchet.
