(* ===== verification/RatchetChain.v ===== *)
(** * Message chains of the Double Ratchet

    The symmetric-key part of a session: the chain keys and message keys derived
    from a base, what encryption produces at a position of the chain, and what
    [take_key]/[decrypt] do at a position of the receiving chain. *)

From S2P Require Import Prelude PyStr Json JsonProps Dict Primitives Encoding Kdf Ratchet.
From S2P Require Aead.

Lemma int_b_inj n m : int_b n = int_b m → n = m.
Proof.
  intros E. pose proof (p_number_int n [] I) as Hn. pose proof (p_number_int m [] I) as Hm.
  rewrite E in Hn. congruence.
Qed.

Lemma skipped_key_inj dh n m : skipped_key dh n = skipped_key dh m → n = m.
Proof.
  unfold skipped_key, int_str. intros E. apply (f_equal bs) in E. rewrite !bs_app, !bs_to_str in E.
  by apply int_b_inj, (app_inv_head (bs ":")), (app_inv_head (bs (b64e (default [] dh)))).
Qed.

Section chain.
Context {C : Crypto} {L : CryptoLaws C}.

(** The chain key and the message key at position [n] of the chain from [ck]. *)
Fixpoint ck_iter (ck : bytes) (n : nat) : bytes :=
  match n with O => ck | S n' => (kdf_ck (ck_iter ck n')).2 end.
Definition msg_key (ck : bytes) (n : nat) : bytes := (kdf_ck (ck_iter ck n)).1.

Lemma msg_key_length ck n : length (msg_key ck n) = 32%nat.
Proof using L. apply kdf_ck_length. Qed.

Lemma kdf_ck_iter ck n : kdf_ck (ck_iter ck n) = (msg_key ck n, ck_iter ck (S n)).
Proof. unfold msg_key. cbn [ck_iter]. by destruct (kdf_ck _). Qed.

(** The receiving chain of [st] under [pub] is at position [r] of [ck]. *)
Definition recv_at (st : RatchetState) (pub ck : bytes) (r : nat) : Prop :=
  dh_remote st = Some pub ∧ receiving_chain st = Some (ck_iter ck r) ∧
  recv_count st = Z.of_nat r.
(** The sending chain of [st] under its own [pub] is at position [s] of [ck]. *)
Definition send_at (st : RatchetState) (pub ck : bytes) (s : nat) : Prop :=
  dh_self_public st = Some pub ∧ sending_chain st = Some (ck_iter ck s) ∧
  send_count st = Z.of_nat s.

(** The keys stored for positions [r .. r+k-1]. *)
Fixpoint skip_map (pub ck : bytes) (r k : nat) (m : gmap string bytes) : gmap string bytes :=
  match k with
  | O => m
  | S k' => skip_map pub ck (S r) k'
              (<[skipped_key (Some pub) (Z.of_nat r) := msg_key ck r]> m)
  end.

Lemma skip_map_lookup pub ck r k m n :
  skip_map pub ck r k m !! skipped_key (Some pub) (Z.of_nat n) =
    if decide (r ≤ n < r + k)%nat then Some (msg_key ck n)
    else m !! skipped_key (Some pub) (Z.of_nat n).
Proof.
  revert r m. induction k as [|k IH]; intros r m; cbn [skip_map].
  - rewrite decide_False by lia. done.
  - rewrite IH. destruct (decide (n = r)) as [->|Hne].
    + rewrite decide_False, decide_True by lia. by rewrite lookup_insert_eq.
    + rewrite lookup_insert_ne by (intros E%skipped_key_inj; lia).
      destruct (decide (S r ≤ n < S r + k)%nat), (decide (r ≤ n < r + S k)%nat); by (done || lia).
Qed.

Lemma skip_map_size pub ck r k m : (size (skip_map pub ck r k m) ≤ size m + k)%nat.
Proof.
  revert r m. induction k as [|k IH]; intros r m; cbn [skip_map]; [lia|].
  etrans; [apply IH|]. rewrite map_size_insert. destruct (_ !! _); cbn; lia.
Qed.

Lemma set_receiving_twice c n sk c' n' sk' st :
  set_receiving c n sk (set_receiving c' n' sk' st) = set_receiving c n sk st.
Proof. reflexivity. Qed.
Lemma set_receiving_at st pub ck r :
  recv_at st pub ck r → set_receiving (ck_iter ck r) (Z.of_nat r) (skipped st) st = st.
Proof. destruct st. unfold recv_at, set_receiving. cbn. intros (_ & -> & ->). done. Qed.

Lemma recv_at_set st pub ck r u sk :
  recv_at st pub ck r → recv_at (set_receiving (ck_iter ck u) (Z.of_nat u) sk st) pub ck u.
Proof. intros (H & _). by split_and!. Qed.

(** The loop stores every key up to the target; the fuel is enough. *)
Lemma skip_loop_spec st pub ck r k fuel :
  recv_at st pub ck r → (k < fuel)%nat →
  skip_loop fuel (Z.of_nat (r + k)) st =
    (Ok tt, set_receiving (ck_iter ck (r + k)) (Z.of_nat (r + k))
              (skip_map pub ck r k (skipped st)) st).
Proof using.
  revert st r fuel. induction k as [|k IH]; intros st r fuel Hst Hf;
    (destruct fuel as [|fuel]; [lia|]); cbn [skip_loop]; unfold se_bind, se_get.
  - destruct Hst as (H1 & H2 & H3) eqn:E0. rewrite H3.
    destruct (Z.ltb_spec (Z.of_nat r) (Z.of_nat (r + 0))); [lia|].
    rewrite Nat.add_0_r. cbn [skip_map]. unfold se_ret. by rewrite (set_receiving_at _ pub).
  - destruct Hst as (H1 & H2 & H3) eqn:E0. rewrite H3.
    destruct (Z.ltb_spec (Z.of_nat r) (Z.of_nat (r + S k))); [|lia].
    rewrite H2. cbn [of_option se_lift]. unfold se_lift. rewrite kdf_ck_iter. unfold se_modify.
    replace (Z.of_nat r + 1) with (Z.of_nat (S r)) by lia.
    replace (r + S k)%nat with (S r + k)%nat by lia. rewrite H1.
    rewrite IH; [| by eapply recv_at_set | lia]. by rewrite set_receiving_twice.
Qed.

Lemma skip_keys_spec st pub ck r k :
  recv_at st pub ck r → Z.of_nat k ≤ MAX_SKIP →
  skip_keys (Z.of_nat (r + k)) st =
    (Ok tt, set_receiving (ck_iter ck (r + k)) (Z.of_nat (r + k))
              (skip_map pub ck r k (skipped st)) st).
Proof using.
  intros Hst Hk. unfold skip_keys, se_bind, se_get.
  destruct (Hst) as (H1 & H2 & H3). rewrite H2, H3.
  destruct (Z.ltb_spec (Z.of_nat r + MAX_SKIP) (Z.of_nat (r + k))); [lia|]. cbn [se_check].
  unfold se_ret. rewrite (skip_loop_spec _ pub ck) by (done || lia). done.
Qed.

Lemma skip_keys_past st pub ck r u :
  recv_at st pub ck r → u ≤ Z.of_nat r → skip_keys u st = (Ok tt, st).
Proof using.
  intros Hst Hu. unfold skip_keys, se_bind, se_get. destruct (Hst) as (H1 & H2 & H3).
  rewrite H2, H3. unfold MAX_SKIP. destruct (Z.ltb_spec (Z.of_nat r + 1000) u); [lia|].
  cbn [se_check]. unfold se_ret. cbn [skip_loop]. unfold se_bind, se_get. rewrite H3.
  destruct (Z.ltb_spec (Z.of_nat r) u); [lia|]. done.
Qed.

(** ** Taking a key *)

Lemma take_key_forward st pub ck r k :
  recv_at st pub ck r → Z.of_nat k ≤ MAX_SKIP →
  skipped st !! skipped_key (Some pub) (Z.of_nat (r + k)) = None →
  take_key pub (Z.of_nat (r + k)) st =
    (Ok (msg_key ck (r + k)),
     set_receiving (ck_iter ck (S (r + k))) (Z.of_nat (S (r + k)))
       (skip_map pub ck r k (skipped st)) st).
Proof using.
  intros Hst Hk Hs. unfold take_key, se_bind, se_get. rewrite Hs.
  destruct (Hst) as (H1 & H2 & H3). rewrite H3.
  destruct (Z.ltb_spec (Z.of_nat (r + k)) (Z.of_nat r)); [lia|]. cbn [se_check].
  destruct (Z.ltb_spec (Z.of_nat r + MAX_SKIP) (Z.of_nat (r + k))); [lia|]. cbn [se_check].
  unfold se_ret. rewrite (skip_keys_spec _ pub ck) by done.
  cbn [set_receiving receiving_chain recv_count skipped of_option se_lift]. unfold se_lift.
  rewrite kdf_ck_iter. unfold se_modify. rewrite set_receiving_twice.
  by replace (Z.of_nat (r + k) + 1) with (Z.of_nat (S (r + k))) by lia.
Qed.

Lemma take_key_skipped st pub n mk :
  skipped st !! skipped_key (Some pub) n = Some mk →
  take_key pub n st
  = (Ok mk, set_skipped (delete (skipped_key (Some pub) n) (skipped st)) st).
Proof using. intros Hs. unfold take_key, se_bind, se_get. by rewrite Hs. Qed.

Lemma take_key_duplicate st pub n :
  skipped st !! skipped_key (Some pub) n = None → n < recv_count st →
  take_key pub n st = (Err DuplicateMessage, st).
Proof using.
  intros Hs Hn. unfold take_key, se_bind, se_get. rewrite Hs.
  by rewrite (proj2 (Z.ltb_lt _ _) Hn).
Qed.

Lemma take_key_too_far st pub n :
  skipped st !! skipped_key (Some pub) n = None → recv_count st + MAX_SKIP < n →
  take_key pub n st = (Err SkippedTooFar, st).
Proof using.
  intros Hs Hn. unfold MAX_SKIP in *. unfold take_key, se_bind, se_get. rewrite Hs.
  destruct (Z.ltb_spec n (recv_count st)); [lia|]. cbn [se_check se_ret]. unfold se_ret.
  unfold MAX_SKIP. by rewrite (proj2 (Z.ltb_lt _ _) Hn).
Qed.

(** ** Packets *)

Record packet := {
  p_header : json;
  p_nonce : bytes;
  p_cipher : bytes;
  p_ad : json;
  p_plain : bytes  (* what was sent: not on the wire *)
}.

Definition wf_ad (ad : json) : Prop := nodup_keys ad.

(** The packet for position [n] of the chain [ck] under [pub], its header and
    context after a trip through JSON. *)
Definition is_packet (pub ck : bytes) (pn : Z) (n : nat) (p : packet) : Prop :=
  ∃ srt ad, wf_ad ad ∧ p_ad p = canon srt ad ∧ length (p_nonce p) = 12%nat ∧
    p_header p = canon srt (JObj (header pub pn (Z.of_nat n))) ∧
    p_cipher p = chacha_encrypt (msg_key ck n) (p_nonce p) (p_plain p)
                   (associated_data (JObj (header pub pn (Z.of_nat n))) ad).

Lemma canonical_json_canon srt j : nodup_keys j → canonical_json (canon srt j) = canonical_json j.
Proof. intros H. symmetry. apply canonical_jeq; [done | apply jeq_canon]. Qed.

Lemma header_nodup pub pn n : nodup_keys (JObj (header pub pn n)).
Proof. cbn [nodup_keys]. split; [unfold header; cbn [map fst]; solve_nodup |].
  repeat (constructor; [exact I|]). constructor.
Qed.

Lemma jor_jeq srt a b : jeq (jor a b) (jor (canon srt a) b).
Proof. unfold jor. rewrite truthy_canon. case_match; [apply jeq_canon|apply jeq_refl]. Qed.
Lemma associated_data_canon srt hdr ad :
  nodup_keys hdr → wf_ad ad →
  associated_data (canon srt hdr) (canon srt ad) = associated_data hdr ad.
Proof.
  intros Hh Ha. unfold associated_data. f_equal. symmetry. apply canonical_jeq.
  - cbn [nodup_keys]. split; [cbn [map fst]; solve_nodup|].
    constructor; [|constructor; [exact Hh | constructor]].
    unfold jor, id. cbn [snd]. case_match; [exact Ha|]. split; constructor.
  - apply (jeq_obj _ _ _ (Permutation_refl _)). repeat constructor; cbn [fst snd].
    + apply jor_jeq.
    + apply jeq_canon.
Qed.

Lemma parse_header_canon srt pub pn n :
  parse_header (canon srt (JObj (header pub pn n))) = Ok (pub, n, pn).
Proof.
  unfold parse_header, header. set (d := ("dh"%string, _) :: _). canon_intro srt d J HJ.
  view HJ. cbn [b64d_json to_int res_bind]. rewrite b64d_b64e. done.
Qed.

(** Decryption of a packet once its key is found. *)
Lemma decrypt_packet fresh pub ck pn n p st st1 st2 :
  is_packet pub ck pn n p →
  enter_chain fresh pub pn st = (Ok tt, st1) →
  take_key pub (Z.of_nat n) st1 = (Ok (msg_key ck n), st2) →
  decrypt fresh (p_header p) (p_nonce p) (p_cipher p) (p_ad p) st = (Ok (p_plain p), st2).
Proof using L.
  intros (srt & ad & Had & Ea & Hn & Eh & Ec) E1 E2. unfold decrypt, decrypt_, se_bind, se_lift.
  rewrite Eh, parse_header_canon. rewrite E1, E2. rewrite Ea.
  rewrite associated_data_canon by (done || apply header_nodup).
  assert (Aead.decrypt (msg_key ck n) (p_nonce p) (p_cipher p)
            (associated_data (JObj (header pub pn (Z.of_nat n))) ad) = Ok (p_plain p)) as ->; [|done].
  apply Aead.decrypt_iff. split_and!; [apply msg_key_length | done|].
  unfold Aead.encrypt, blen. rewrite msg_key_length. cbn. by rewrite Ec.
Qed.

(** Encryption produces the packet of the current position. *)
Lemma encrypt_packet nonce plaintext ad st pub ck s :
  send_at st pub ck s →
  encrypt nonce plaintext ad st =
    (Ok (header pub (prev_send_count st) (Z.of_nat s), nonce,
         chacha_encrypt (msg_key ck s) nonce plaintext
           (associated_data (JObj (header pub (prev_send_count st) (Z.of_nat s))) ad)),
     set_sending (ck_iter ck (S s)) (Z.of_nat (S s)) st).
Proof using L.
  intros (H1 & H2 & H3). unfold encrypt, se_bind, se_get, se_lift, se_modify. rewrite H2.
  cbn [of_option]. rewrite kdf_ck_iter. cbn [set_sending dh_self_public]. rewrite H1.
  cbn [of_option]. unfold Aead.encrypt, blen. rewrite msg_key_length. cbn [Z.of_nat Z.eqb negb].
  cbn -[header associated_data]. rewrite H3. unfold se_ret.
  by replace (Z.of_nat s + 1) with (Z.of_nat (S s)) by lia.
Qed.

(** Within the current chain no ratchet step is taken. *)
Lemma enter_chain_same fresh pub pn st ck r :
  recv_at st pub ck r → enter_chain fresh pub pn st = (Ok tt, st).
Proof using.
  intros (H1 & H2 & H3). unfold enter_chain, se_bind, se_get. rewrite H1, H2.
  rewrite bool_decide_eq_true_2 by done. by rewrite bool_decide_eq_false_2.
Qed.
End chain.
