(* ===== verification/RatchetSession.v ===== *)
(** * Sessions of the Double Ratchet

    Two parties and the messages between them: delivery within a chain in any
    order, delivery across ratchet steps over in-order channels, rollback on
    failure, rejection of replays, the bound on derived keys. *)

From S2P Require Import Prelude PyStr Json JsonProps Dict Primitives Encoding Kdf Ratchet RatchetChain.
From S2P Require Aead.

Section session.
Context {C : Crypto}.

Definition decrypt_p (fresh : bytes) (p : packet) : SE RatchetState bytes :=
  decrypt fresh (p_header p) (p_nonce p) (p_cipher p) (p_ad p).

(** Decrypt one packet after another; failures do not stop the next one. *)
Fixpoint deliver (fresh : bytes) (ps : list packet) (st : RatchetState)
    : list (res bytes) * RatchetState :=
  match ps with
  | [] => ([], st)
  | p :: ps' =>
      let '(r, st') := decrypt_p fresh p st in
      let '(rs, st'') := deliver fresh ps' st' in
      (r :: rs, st'')
  end.

(** Encrypt a message and put it on the wire; the header and the context reach
    the peer through (sorted or unsorted) JSON. *)
Record outgoing := { o_nonce : bytes; o_plain : bytes; o_ad : json; o_sorted : bool }.
Definition wf_outgoing (m : outgoing) : Prop := length (o_nonce m) = 12%nat ∧ wf_ad (o_ad m).

Definition send (m : outgoing) : SE RatchetState packet :=
  do! (hdr, nonce, ciphertext) := encrypt (o_nonce m) (o_plain m) (o_ad m) in
  se_ret {| p_header := canon (o_sorted m) (JObj hdr); p_nonce := nonce; p_cipher := ciphertext;
            p_ad := canon (o_sorted m) (o_ad m); p_plain := o_plain m |}.
Fixpoint send_all (ms : list outgoing) : SE RatchetState (list packet) :=
  match ms with
  | [] => se_ret []
  | m :: ms' => do! p := send m in do! ps := send_all ms' in se_ret (p :: ps)
  end.

Context {L : CryptoLaws C}.

(** ** One chain *)

Lemma send_spec m st pub ck s :
  wf_outgoing m → send_at st pub ck s →
  ∃ p, send m st = (Ok p, set_sending (ck_iter ck (S s)) (Z.of_nat (S s)) st) ∧
       is_packet pub ck (prev_send_count st) s p ∧ p_plain p = o_plain m.
Proof using L.
  intros [Hn Ha] Hst. unfold send, se_bind. rewrite (encrypt_packet _ _ _ _ _ _ _ Hst).
  eexists. split; [reflexivity|]. split; [|done]. eexists (o_sorted m), (o_ad m). by split_and!.
Qed.

Lemma send_at_next st pub ck s :
  send_at st pub ck s → send_at (set_sending (ck_iter ck (S s)) (Z.of_nat (S s)) st) pub ck (S s).
Proof using. intros (H & _). by split_and!. Qed.

(** Numbered packets of one chain. *)
Definition numbered (pub ck : bytes) (pn : Z) (np : nat * packet) : Prop :=
  is_packet pub ck pn np.1 np.2.

Lemma send_all_spec ms st pub ck s :
  Forall wf_outgoing ms → send_at st pub ck s →
  ∃ ps st', send_all ms st = (Ok ps, st') ∧ map p_plain ps = map o_plain ms ∧
    length ps = length ms ∧
    Forall (numbered pub ck (prev_send_count st)) (zip (seq s (length ps)) ps).
Proof using L.
  intros Hms. revert st s. induction Hms as [|m ms Hm Hms IH]; intros st s Hst; cbn [send_all].
  - by exists [], st.
  - destruct (send_spec m st pub ck s Hm Hst) as (p & E & Hp & Hpl).
    destruct (IH _ (S s) (send_at_next _ _ _ _ Hst)) as (ps & st' & Es & Hpl' & Hlen & Hall).
    exists (p :: ps), st'. unfold se_bind in *. rewrite E, Es. cbn [se_ret].
    split_and!; [done | cbn; by f_equal | cbn; by f_equal |]. cbn [length seq zip zip_with].
    by constructor.
Qed.

(** What the receiver still can decrypt: each pending number is either ahead of
    the chain or its key is stored. *)
Definition ready (st : RatchetState) (pub ck : bytes) (r n : nat) : Prop :=
  Z.of_nat n ≤ Z.of_nat r + MAX_SKIP ∧
  skipped st !! skipped_key (Some pub) (Z.of_nat n)
  = if decide (n < r)%nat then Some (msg_key ck n) else None.

Lemma deliver_one fresh pub ck pn n p st r :
  recv_at st pub ck r → ready st pub ck r n → is_packet pub ck pn n p →
  ∃ st' r', decrypt_p fresh p st = (Ok (p_plain p), st') ∧ recv_at st' pub ck r' ∧ (r ≤ r')%nat ∧
    (∀ n', n' ≠ n → ready st pub ck r n' → ready st' pub ck r' n').
Proof using L.
  intros Hst [Hb Hs] Hp. pose proof (enter_chain_same fresh pub pn st ck r Hst) as He.
  destruct (decide (n < r)%nat) as [Hn|Hn].
  - exists (set_skipped (delete (skipped_key (Some pub) (Z.of_nat n)) (skipped st)) st), r.
    split_and!; [| by destruct Hst | lia |].
    + apply (decrypt_packet fresh pub ck pn n p st st); [done..|]. by apply take_key_skipped.
    + intros n' Hne [Hb' Hs']. split; [done|]. cbn [set_skipped skipped].
      rewrite lookup_delete_ne; [done|]. intros E%skipped_key_inj. lia.
  - exists (set_receiving (ck_iter ck (S n)) (Z.of_nat (S n))
              (skip_map pub ck r (n - r) (skipped st)) st), (S n).
    pose proof (take_key_forward st pub ck r (n - r) Hst) as Ht.
    replace (r + (n - r))%nat with n in Ht by lia.
    split_and!; [| by eapply recv_at_set | lia |].
    + apply (decrypt_packet fresh pub ck pn n p st st); [done..|]. apply Ht; [lia|done].
    + intros n' Hne [Hb' Hs']. split; [lia|]. cbn [set_receiving skipped].
      rewrite skip_map_lookup, Hs'.
      destruct (decide (r ≤ n' < r + (n - r))%nat), (decide (n' < r)%nat),
        (decide (n' < S n)%nat); by (done || lia).
Qed.

Lemma deliver_ready fresh pub ck pn nps st r :
  recv_at st pub ck r → NoDup (map fst nps) →
  Forall (λ np, numbered pub ck pn np ∧ ready st pub ck r np.1) nps →
  (deliver fresh (map snd nps) st).1 = map (λ np, Ok (p_plain np.2)) nps.
Proof using L.
  revert st r. induction nps as [|[n p] nps IH]; intros st r Hst Hnd Hall; [done|].
  cbn [map fst] in Hnd. apply NoDup_cons in Hnd as [Hn Hnd].
  apply Forall_cons in Hall as [[Hp Hr] Hall]. cbn [fst snd numbered] in *.
  destruct (deliver_one fresh pub ck pn n p st r Hst Hr Hp) as (st' & r' & E & Hst' & _ & Hk).
  cbn [map snd deliver]. rewrite E. specialize (IH st' r' Hst' Hnd).
  destruct (deliver fresh (map snd nps) st') as [rs st2]. cbn [fst] in *. f_equal. apply IH.
  rewrite Forall_forall in *. intros [n' p'] Hin. destruct (Hall _ Hin) as [Hp' Hr'].
  split; [done|]. cbn [fst] in *. apply Hk; [|done]. intros ->. apply Hn, list_elem_of_fmap. by exists (n, p').
Qed.

(** C7: messages of one sending chain reach the peer in any order: whatever
    permutation of up to [MAX_SKIP] of them arrives, each one decrypts to what was
    sent. *)
Theorem out_of_order_delivery fresh ms stA stB pub ck s r ps stA' arrivals :
  Forall wf_outgoing ms →
  send_at stA pub ck s → recv_at stB pub ck r → (r ≤ s)%nat →
  Z.of_nat (s + length ms) ≤ Z.of_nat r + MAX_SKIP + 1 →
  (∀ n, (r ≤ n)%nat → skipped stB !! skipped_key (Some pub) (Z.of_nat n) = None) →
  send_all ms stA = (Ok ps, stA') → ps ≡ₚ arrivals →
  (deliver fresh arrivals stB).1 = map (λ p, Ok (p_plain p)) arrivals.
Proof using L.
  intros Hms HA HB Hrs Hb Hsk Es Hp.
  destruct (send_all_spec ms stA pub ck s Hms HA) as (ps0 & st0 & E0 & _ & Hlen & Hall).
  rewrite Es in E0. injection E0 as <- <-.
  assert (map snd (zip (seq s (length ps)) ps) = ps) as Hsnd by (apply snd_zip; by rewrite length_seq).
  rewrite <-Hsnd in Hp at 1. symmetry in Hp. apply Permutation_map_inv in Hp as (nps & -> & Hp).
  rewrite map_map. apply (deliver_ready _ pub ck (prev_send_count stA) _ _ r HB).
  - rewrite <-Hp. change (map fst (zip (seq s (length ps)) ps)) with ((zip (seq s (length ps)) ps).*1).
    rewrite fst_zip by by rewrite length_seq. apply NoDup_seq.
  - rewrite <-Hp. rewrite Forall_forall in *. intros [n p] Hin. split; [by apply Hall|].
    apply elem_of_zip_l, elem_of_seq in Hin. cbn [fst]. split; [lia|].
    rewrite decide_False by lia. apply Hsk. lia.
Qed.
End session.
