(* ===== verification/RatchetWorld.v ===== *)
(** * Two parties over in-order channels

    A step relation on both states of a session and the packets in flight: either
    party may send, or take the first packet waiting for it.  The invariant says
    that one party is one ratchet step ahead of the other; it holds in every
    reachable state and gives delivery of every packet.  The channels neither reorder nor
    drop nor repeat: messages of one chain that do arrive out of order are the subject of
    RatchetSession, and a message of an earlier chain that arrives late puts the parties out
    of step ([RatchetSafety.late_message_steps_back]). *)

From S2P Require Import Prelude PyStr Json JsonProps Dict Primitives Encoding Kdf.
From S2P Require Import Ratchet RatchetChain RatchetSession.

Section world.
Context {C : Crypto}.

(** The session as seen from one side: [me] receives from [inbox]. *)
Record world := {
  me : RatchetState;
  peer : RatchetState;
  inbox : list packet;   (* peer to me *)
  outbox : list packet   (* me to peer *)
}.
Definition swap (w : world) : world :=
  {| me := peer w; peer := me w; inbox := outbox w; outbox := inbox w |}.

Inductive step : world → world → Prop :=
| step_send m p st' w :
    wf_outgoing m → send m (me w) = (Ok p, st') →
    step w {| me := st'; peer := peer w; inbox := inbox w; outbox := outbox w ++ [p] |}
| step_recv fresh p q r st' w :
    inbox w = p :: q → length fresh = 32%nat →
    dh_remote (peer w) ≠ Some (x25519_public fresh) →
    decrypt_p fresh p (me w) = (r, st') →
    step w {| me := st'; peer := peer w; inbox := q; outbox := outbox w |}
| step_swap w w' : step w w' → step (swap w) (swap w').

(** After the handshake: the initiator holds the responder's signed prekey. *)
Inductive reachable (sk fresh spk : bytes) : world → Prop :=
| reach_init stA :
    initiator fresh sk (x25519_public spk) = Ok stA →
    reachable sk fresh spk
      {| me := stA; peer := responder sk spk (x25519_public spk); inbox := []; outbox := [] |}
| reach_swap w : reachable sk fresh spk w → reachable sk fresh spk (swap w)
| reach_step w w' : reachable sk fresh spk w → step w w' → reachable sk fresh spk w'.

(** [stream ck pub pn a q b]: the packets of [q] have the numbers [a .. b-1]. *)
Fixpoint stream (pub ck : bytes) (pn : Z) (a : nat) (q : list packet) (b : nat) : Prop :=
  match q with
  | [] => a = b
  | p :: q' => is_packet pub ck pn a p ∧ stream pub ck pn (S a) q' b
  end.

Lemma stream_snoc pub ck pn a q b p :
  stream pub ck pn a q b → is_packet pub ck pn b p → stream pub ck pn a (q ++ [p]) (S b).
Proof.
  revert a. induction q as [|x q IH]; intros a; cbn [stream app].
  - intros -> Hp. done.
  - intros [Hx Hq] Hp. auto.
Qed.

Definition keys_of (st : RatchetState) (priv : bytes) : Prop :=
  dh_self_private st = Some priv ∧ dh_self_public st = Some (x25519_public priv) ∧
  length priv = 32%nat.

(** The packets from the party behind, [X], to the one ahead, [Y], all belong to
    [X]'s current chain, which [Y] knows. *)
Definition back_channel (Y X : RatchetState) (xpub : bytes) (q : list packet) : Prop :=
  (sending_chain X = None ∧ receiving_chain Y = None ∧ q = [] ∧ send_count X = 0) ∨
  ∃ ck s r, send_at X xpub ck s ∧ recv_at Y xpub ck r ∧
    stream xpub ck (prev_send_count X) r q s.

(** The packets from [Y] to [X]: first the rest of a chain [X] knows, then all of
    [Y]'s current chain [ck], which [X] has not seen. *)
Definition front_channel (Y X : RatchetState) (ypub ck : bytes) (q : list packet) : Prop :=
  ∃ old new s, q = old ++ new ∧ send_at Y ypub ck s ∧ stream ypub ck (prev_send_count Y) 0 new s ∧
    ((receiving_chain X = None ∧ old = []) ∨
     ∃ pub ck0 pn r n, pub ≠ ypub ∧ recv_at X pub ck0 r ∧
       prev_send_count Y = Z.of_nat n ∧ stream pub ck0 pn r old n).

(** [Y] has ratcheted past [X]: its root and sending chain are what [X] will
    derive from [Y]'s public key. *)
Definition ahead (Y X : RatchetState) (qYX qXY : list packet) : Prop :=
  ∃ ypriv xpriv dh ck,
    keys_of Y ypriv ∧ keys_of X xpriv ∧
    x25519 xpriv (x25519_public ypriv) = Ok dh ∧ kdf_rk (root_key X) dh = (root_key Y, ck) ∧
    dh_remote Y = Some (x25519_public xpriv) ∧
    skipped X = ∅ ∧ skipped Y = ∅ ∧
    back_channel Y X (x25519_public xpriv) qXY ∧
    front_channel Y X (x25519_public ypriv) ck qYX.

Definition inv (w : world) : Prop :=
  ahead (me w) (peer w) (outbox w) (inbox w) ∨ ahead (peer w) (me w) (inbox w) (outbox w).

Context {L : CryptoLaws C}.

Lemma set_receiving_skip0 st pub ck r :
  recv_at st pub ck r → recv_at (set_receiving (ck_iter ck (S r)) (Z.of_nat (S r)) (skipped st) st) pub ck (S r).
Proof using. apply recv_at_set. Qed.

(** The next packet of the current chain. *)
Lemma recv_next fresh st pub ck pn r p :
  recv_at st pub ck r → skipped st = ∅ → is_packet pub ck pn r p →
  decrypt_p fresh p st =
    (Ok (p_plain p), set_receiving (ck_iter ck (S r)) (Z.of_nat (S r)) ∅ st).
Proof using L.
  intros Hst Hs Hp. apply (decrypt_packet fresh pub ck pn r p st st); [done|by eapply enter_chain_same|].
  pose proof (take_key_forward st pub ck r 0 Hst) as Ht. rewrite Nat.add_0_r in Ht.
  cbn [skip_map] in Ht. rewrite Hs in Ht. apply Ht; [done|]. apply lookup_empty.
Qed.

(** What a ratchet step does to the party behind. *)
Definition ratcheted (X : RatchetState) (fresh ypub rk ckr rk2 cks : bytes) (n : nat)
    : RatchetState :=
  {| root_key := rk2; sending_chain := Some cks; receiving_chain := Some (ck_iter ckr n);
     dh_self_private := Some fresh; dh_self_public := Some (x25519_public fresh);
     dh_remote := Some ypub; send_count := 0; recv_count := Z.of_nat n;
     prev_send_count := send_count X; skipped := skipped X |}.

Lemma dh_ratchet_spec fresh X xpriv ypub dh rk ckr dh2 rk2 cks :
  keys_of X xpriv → x25519 xpriv ypub = Ok dh → kdf_rk (root_key X) dh = (rk, ckr) →
  x25519 fresh ypub = Ok dh2 → kdf_rk rk dh2 = (rk2, cks) →
  dh_ratchet fresh ypub X = (Ok tt, ratcheted X fresh ypub rk ckr rk2 cks 0).
Proof using.
  intros (H1 & H2 & _) E1 E2 E3 E4. unfold dh_ratchet, se_bind, se_get, se_put, se_lift.
  rewrite H1. cbn [of_option]. rewrite E1, E2. cbn [new_keypair]. by rewrite E3, E4.
Qed.

(** The first packet of a chain the party behind has not seen. *)
Lemma recv_ratchet fresh X xpriv ypub dh rk ckr dh2 rk2 cks pn p :
  keys_of X xpriv → x25519 xpriv ypub = Ok dh → kdf_rk (root_key X) dh = (rk, ckr) →
  x25519 fresh ypub = Ok dh2 → kdf_rk rk dh2 = (rk2, cks) → skipped X = ∅ →
  (receiving_chain X = None ∨
   ∃ pub ck0 r, pub ≠ ypub ∧ recv_at X pub ck0 r ∧ pn = Z.of_nat r) →
  is_packet ypub ckr pn 0 p →
  decrypt_p fresh p X = (Ok (p_plain p), ratcheted X fresh ypub rk ckr rk2 cks 1).
Proof using L.
  intros HX E1 E2 E3 E4 Hs Hr Hp.
  pose proof (dh_ratchet_spec fresh X xpriv ypub dh rk ckr dh2 rk2 cks HX E1 E2 E3 E4) as Ed.
  apply (decrypt_packet fresh ypub ckr pn 0 p X (ratcheted X fresh ypub rk ckr rk2 cks 0)); [done|..].
  - unfold enter_chain, se_bind, se_get. destruct Hr as [Hn | (pub & ck0 & r & Hne & HX' & ->)].
    + rewrite Hn, (bool_decide_eq_true_2 (None = None)) by done. rewrite orb_true_r.
      unfold se_ret. exact Ed.
    + destruct (HX') as (G1 & G2 & G3). rewrite G1, G2.
      rewrite bool_decide_eq_false_2 by congruence. cbn [negb orb].
      rewrite (skip_keys_past X pub ck0 r) by (done || lia). exact Ed.
  - set (X' := ratcheted _ _ _ _ _ _ _ 0). assert (recv_at X' ypub ckr 0) as HX' by done.
    pose proof (take_key_forward X' ypub ckr 0 0 HX') as Ht. cbn [Nat.add skip_map] in Ht.
    rewrite Ht; [done | done |]. cbn [X' ratcheted skipped]. rewrite Hs. apply lookup_empty.
Qed.

(** Any of the first messages of a session opens it: the responder takes its one
    step and derives the keys of the messages before it. *)
Lemma recv_first fresh X xpriv ypub dh rk ckr dh2 rk2 cks pn n p :
  keys_of X xpriv → x25519 xpriv ypub = Ok dh → kdf_rk (root_key X) dh = (rk, ckr) →
  x25519 fresh ypub = Ok dh2 → kdf_rk rk dh2 = (rk2, cks) → skipped X = ∅ → receiving_chain X = None →
  Z.of_nat n ≤ MAX_SKIP → is_packet ypub ckr pn n p →
  ∃ X', decrypt_p fresh p X = (Ok (p_plain p), X').
Proof using L.
  intros HX E1 E2 E3 E4 Hs Hr Hn Hp.
  pose proof (dh_ratchet_spec fresh X xpriv ypub dh rk ckr dh2 rk2 cks HX E1 E2 E3 E4) as Ed.
  eexists. apply (decrypt_packet fresh ypub ckr pn n p X (ratcheted X fresh ypub rk ckr rk2 cks 0)); [done|..].
  - unfold enter_chain, se_bind, se_get. rewrite Hr, (bool_decide_eq_true_2 (None = None)), orb_true_r by done.
    unfold se_ret. exact Ed.
  - set (X' := ratcheted _ _ _ _ _ _ _ 0). assert (recv_at X' ypub ckr 0) as HX' by done.
    pose proof (take_key_forward X' ypub ckr 0 n HX' Hn) as Ht. cbn [Nat.add] in Ht.
    apply Ht. cbn [X' ratcheted skipped]. rewrite Hs. apply lookup_empty.
Qed.

(** ** The invariant is kept *)

Lemma ahead_send_front Y X qYX qXY m p Y' :
  wf_outgoing m → ahead Y X qYX qXY → send m Y = (Ok p, Y') → ahead Y' X (qYX ++ [p]) qXY.
Proof using L.
  intros Hm (yp & xp & dh & ck & HY & HX & E1 & E2 & E3 & S1 & S2 & HB & HF) Es.
  destruct HF as (old & new & s & -> & Hs & Hnew & Hold).
  destruct (send_spec m Y _ ck s Hm Hs) as (p' & Es' & Hp & _). rewrite Es in Es'.
  injection Es' as <- ->. exists yp, xp, dh, ck. split_and!; try done.
  exists old, (new ++ [p]), (S s).
  split_and!; [by rewrite app_assoc | by apply (send_at_next Y) | by apply stream_snoc | done].
Qed.

Lemma ahead_send_back Y X qYX qXY m p X' :
  wf_outgoing m → ahead Y X qYX qXY → send m X = (Ok p, X') → ahead Y X' qYX (qXY ++ [p]).
Proof using L.
  intros Hm (yp & xp & dh & ck & HY & HX & E1 & E2 & E3 & S1 & S2 & HB & HF) Es.
  destruct HB as [(Hn & _) | (c & s & r & H1 & H2 & H3)].
  { unfold send, se_bind, encrypt, se_get in Es. unfold se_bind in Es.
    unfold se_lift in Es. by rewrite Hn in Es. }
  destruct (send_spec m X _ c s Hm H1) as (p' & Es' & Hp & _). rewrite Es in Es'.
  injection Es' as <- ->. exists yp, xp, dh, ck. split_and!; try done.
  right. exists c, (S s), r. split_and!; [by apply send_at_next | done | by apply stream_snoc].
Qed.

(** A packet for the party ahead. *)
Lemma ahead_recv_back Y X qYX p q fresh :
  ahead Y X qYX (p :: q) →
  ∃ Y', decrypt_p fresh p Y = (Ok (p_plain p), Y') ∧ ahead Y' X qYX q.
Proof using L.
  intros (yp & xp & dh & ck & HY & HX & E1 & E2 & E3 & S1 & S2 & HB & HF).
  destruct HB as [(_ & _ & H & _) | (c & s & r & H1 & H2 & [Hp Hq])]; [done|].
  eexists. split; [by apply (recv_next fresh Y (x25519_public xp) c (prev_send_count X) r p)|].
  exists yp, xp, dh, ck. split_and!; try done.
  right. exists c, s, (S r). split_and!; [done | | done]. by eapply recv_at_set.
Qed.

(** A packet for the party behind: of the chain it knows, or of the new one, which
    puts it ahead. *)
Lemma ahead_recv_front Y X p q qXY fresh :
  ahead Y X (p :: q) qXY → length fresh = 32%nat → dh_remote Y ≠ Some (x25519_public fresh) →
  ∃ X', decrypt_p fresh p X = (Ok (p_plain p), X') ∧ (ahead Y X' q qXY ∨ ahead X' Y qXY q).
Proof using L.
  intros (yp & xp & dh & ck & HY & HX & E1 & E2 & E3 & S1 & S2 & HB & HF) Hf Hfr.
  destruct HF as (old & new & s & Eq & Hs & Hnew & Hold).
  destruct old as [|p' old]; cbn [app] in Eq.
  - destruct new as [|p' new]; [done|]. injection Eq as <- <-. destruct Hnew as [Hp Hnew].
    assert (∃ dh2, x25519 fresh (x25519_public yp) = Ok dh2 ∧ x25519 yp (x25519_public fresh) = Ok dh2)
      as (dh2 & F1 & F2) by (destruct (x25519_both fresh yp) as (s2 & ? & ? & _); [done|apply HY|eauto]).
    destruct (kdf_rk (root_key Y) dh2) as [rk2 cks] eqn:F3.
    eexists. split.
    { apply (recv_ratchet fresh X xp (x25519_public yp) dh (root_key Y) ck dh2 rk2 cks (prev_send_count Y)); try done.
      destruct Hold as [[Hn _] | (pub & ck0 & pn & r & n & Hne & HX' & Hpn & Hst)]; [by left|right].
      exists pub, ck0, r. cbn [stream] in Hst. subst n. done. }
    right. exists fresh, yp, dh2, cks. split_and!; try done.
    + right. exists ck, s, 1%nat. split_and!; [by apply Hs | done | done].
    + exists qXY, [], 0%nat. split_and!; [by rewrite app_nil_r | done | done |].
      destruct HB as [(_ & Hn & -> & _) | (c & a & r & H1 & H2 & H3)]; [by left|right].
      exists (x25519_public xp), c, (prev_send_count X), r, a. split_and!; try done.
      * congruence.
      * cbn [ratcheted prev_send_count]. apply H1.
  - injection Eq as <- ->.
    destruct Hold as [[_ H] | (pub & ck0 & pn & r & n & Hne & HX' & Hpn & [Hp Hst])]; [done|].
    eexists. split; [by apply (recv_next fresh X pub ck0 pn r p)|].
    left. exists yp, xp, dh, ck. split_and!; try done.
    exists old, new, s. split_and!; try done. right. exists pub, ck0, pn, (S r), n.
    split_and!; [done | by eapply recv_at_set | done | done].
Qed.

Lemma inv_swap w : inv w → inv (swap w).
Proof using. intros [H|H]; [by right | by left]. Qed.

Lemma inv_recv w p q fresh :
  inv w → inbox w = p :: q → length fresh = 32%nat →
  dh_remote (peer w) ≠ Some (x25519_public fresh) →
  ∃ st', decrypt_p fresh p (me w) = (Ok (p_plain p), st') ∧
         inv {| me := st'; peer := peer w; inbox := q; outbox := outbox w |}.
Proof using L.
  intros [H|H] E Hf Hfr; rewrite E in H.
  - destruct (ahead_recv_back _ _ _ p q fresh H) as (st' & Ed & Ha). exists st'. split; [done|by left].
  - destruct (ahead_recv_front _ _ p q _ fresh H Hf Hfr) as (st' & Ed & [Ha|Ha]);
      exists st'; (split; [done|]); [by right | by left].
Qed.

Lemma inv_step w w' : inv w → step w w' → inv w'.
Proof using L.
  intros Hi Hs. induction Hs as [m p st' w Hm Es | fresh p q r st' w E Hf Hfr Ed | w w' Hs IH].
  - destruct Hi as [H|H]; [left; by eapply ahead_send_front | right; by eapply ahead_send_back].
  - destruct (inv_recv w p q fresh Hi E Hf Hfr) as (st2 & Ed2 & Hi2). rewrite Ed in Ed2.
    by injection Ed2 as _ <-.
  - apply inv_swap, IH. destruct w. destruct Hi as [H|H]; [by right|by left].
Qed.

Lemma inv_init sk fresh spk stA :
  length fresh = 32%nat → length spk = 32%nat → initiator fresh sk (x25519_public spk) = Ok stA →
  inv {| me := stA; peer := responder sk spk (x25519_public spk); inbox := []; outbox := [] |}.
Proof using L.
  intros Hf Hsp E. unfold initiator, new_keypair in E.
  destruct (x25519_both fresh spk Hf Hsp) as (dh & E1 & E2 & _). rewrite E1 in E. cbn [res_bind] in E.
  destruct (kdf_rk sk dh) as [rk cks] eqn:E3. injection E as <-. left.
  exists fresh, spk, dh, cks. split_and!; try done; [by left|].
  exists [], [], 0%nat. split_and!; try done. by left.
Qed.

Lemma reachable_inv sk fresh spk w :
  length fresh = 32%nat → length spk = 32%nat → reachable sk fresh spk w → inv w.
Proof using L.
  intros Hf Hs. induction 1 as [stA E | w _ IH | w w' _ IH Hst].
  - exact (inv_init _ _ _ _ Hf Hs E).
  - by apply inv_swap.
  - by eapply inv_step.
Qed.

(** C4: a session over in-order channels never loses step: in every state reached
    by any interleaving of sends and receipts of the two parties, across any number
    of ratchet steps, the next packet in a party's inbox decrypts to exactly what
    the peer sent, provided fresh keys do not repeat the key the peer holds. *)
Theorem session_delivery sk fresh spk w p q fresh' :
  length fresh = 32%nat → length spk = 32%nat → reachable sk fresh spk w →
  inbox w = p :: q → length fresh' = 32%nat →
  dh_remote (peer w) ≠ Some (x25519_public fresh') →
  ∃ st', decrypt_p fresh' p (me w) = (Ok (p_plain p), st').
Proof using L.
  intros Hf Hs Hr E Hf' Hfr. pose proof (reachable_inv _ _ _ _ Hf Hs Hr) as Hi.
  destruct (inv_recv w p q fresh' Hi E Hf' Hfr) as (st' & Ed & _). by exists st'.
Qed.
End world.

(** ** A concrete session *)

Import Toy.

Definition k32 (c : ascii) : bytes := repeat c 32.
Definition sample_message : outgoing :=
  {| o_nonce := repeat "n"%char 12; o_plain := bs "hello"; o_ad := JObj []; o_sorted := true |}.

Definition sample_initiator : RatchetState :=
  match initiator (k32 "a") (k32 "s") (x25519_public (k32 "b")) with
  | Ok st => st
  | Err _ => responder [] [] []
  end.
Definition sample_sent : res packet * RatchetState := send sample_message sample_initiator.
Definition sample_packet : packet :=
  match sample_sent.1 with
  | Ok p => p
  | Err _ => {| p_header := JNull; p_nonce := []; p_cipher := []; p_ad := JNull; p_plain := [] |}
  end.
Definition sample_world : world :=
  {| me := responder (k32 "s") (k32 "b") (x25519_public (k32 "b")); peer := sample_sent.2;
     inbox := [sample_packet]; outbox := [] |}.

Lemma sample_world_reachable : reachable (k32 "s") (k32 "a") (k32 "b") sample_world.
Proof.
  apply (reach_swap _ _ _ {| me := sample_sent.2; peer := me sample_world; inbox := [];
                             outbox := [] ++ [sample_packet] |}).
  eapply reach_step; [apply reach_swap, reach_swap, (reach_init _ _ _ sample_initiator); reflexivity|].
  apply (step_send sample_message sample_packet sample_sent.2
           {| me := sample_initiator; peer := me sample_world; inbox := []; outbox := [] |}).
  - split; [reflexivity|]. split; [constructor | constructor].
  - reflexivity.
Qed.

Lemma session_delivery_witness :
  ∃ st', decrypt_p (k32 "c") sample_packet (me sample_world) = (Ok (p_plain sample_packet), st').
Proof.
  apply (session_delivery (k32 "s") (k32 "a") (k32 "b") sample_world sample_packet [] (k32 "c"));
    [reflexivity | reflexivity | apply sample_world_reachable | reflexivity | reflexivity |].
  intros E. apply (f_equal (λ o, hd "0"%char (default [] o))) in E. vm_compute in E. discriminate.
Defined.
