(* ===== verification/RatchetSafety.v ===== *)
(** * Safety of decryption, and the stored form of a session

    Rollback on failure, rejection of replays, the bound on stored keys, the
    round trip of a session through its dictionary, and a run that leaves a
    session out of step. *)

From S2P Require Import Prelude PyStr Json JsonProps Dict Primitives Encoding Kdf.
From S2P Require Import Ratchet RatchetChain RatchetSession RatchetWorld.
From S2P Require Aead.

Section safety.
Context {C : Crypto}.

(** ** Termination and growth of the key store *)

(** How far a computation may grow the store, and that it has fuel enough. *)
Definition grows {A} (k : Z) (m : SE RatchetState A) : Prop :=
  ∀ st r st', m st = (r, st') →
    r ≠ Err OutOfFuel ∧ Z.of_nat (size (skipped st')) ≤ Z.of_nat (size (skipped st)) + k.

Lemma grows_bind {A B} k1 k2 (m : SE RatchetState A) (f : A → SE RatchetState B) :
  grows k1 m → (∀ a, grows k2 (f a)) → 0 ≤ k2 → grows (k1 + k2) (se_bind m f).
Proof.
  intros Hm Hf Hk st r st' E. unfold se_bind in E. destruct (m st) as [[a|e] st1] eqn:Em.
  - apply Hm in Em as [_ Hs]. apply Hf in E as [Hr Hs']. split; [done|lia].
  - apply Hm in Em as [Hr Hs]. injection E as <- <-. split; [|lia]. congruence.
Qed.

Lemma grows_weaken {A} k k' (m : SE RatchetState A) : grows k m → k ≤ k' → grows k' m.
Proof. intros Hm Hk st r st' E. apply Hm in E as [Hr Hs]. split; [done|lia]. Qed.

Lemma grows_lift {A} (m : res A) : m ≠ Err OutOfFuel → grows 0 (se_lift m).
Proof. intros Hm st r st' [= <- <-]. split; [done|lia]. Qed.

Lemma se_check_grows b e : e ≠ OutOfFuel → grows 0 (se_check b e).
Proof.
  intros He. unfold se_check.
  destruct b; [apply (grows_lift (Err e)); congruence | by apply (grows_lift (Ok tt))].
Qed.

Lemma of_option_fuel {A} e (o : option A) : e ≠ OutOfFuel → of_option e o ≠ Err OutOfFuel.
Proof. destruct o; cbn; congruence. Qed.

Lemma x25519_fuel a b : x25519 a b ≠ Err OutOfFuel.
Proof. unfold x25519. do 2 (case_match; [done|]). by apply of_option_fuel. Qed.

Lemma b64d_fuel s : b64d s ≠ Err OutOfFuel.
Proof.
  assert (∀ l q left pads, a2b_base64 q left pads l ≠ Err OutOfFuel) as H.
  { intros l. induction l as [|c l IH]; intros q left pads; cbn [a2b_base64].
    - by case_match.
    - repeat case_match; try apply IH; try done;
        match goal with |- res_bind ?m _ ≠ _ =>
          let E := fresh in destruct m eqn:E; cbn; [done|]; intros [= ->]; by apply IH in E end. }
  unfold b64d, encode_ascii. case_match; [|done]. apply H.
Qed.

Lemma int_digits_fuel b acc l : int_digits b acc l ≠ Err OutOfFuel.
Proof. revert b acc. induction l as [|c l IH]; intros b acc; cbn; repeat case_match; auto; done. Qed.

Lemma to_int_fuel j : to_int j ≠ Err OutOfFuel.
Proof.
  destruct j; cbn; try done. unfold py_int. repeat (case_match; try done);
    try apply int_digits_fuel.
  destruct (int_digits false 0 l) eqn:E; cbn; [done|]. intros [= ->]. by apply int_digits_fuel in E.
Qed.

Lemma res_bind_fuel {A B} (m : res A) (f : A → res B) :
  m ≠ Err OutOfFuel → (∀ a, f a ≠ Err OutOfFuel) → res_bind m f ≠ Err OutOfFuel.
Proof. destruct m; cbn; [auto | intros H _; congruence]. Qed.

Lemma jitem_fuel k j : jitem k j ≠ Err OutOfFuel.
Proof. destruct j; cbn; try done. by apply of_option_fuel. Qed.

Lemma b64d_json_fuel j : b64d_json j ≠ Err OutOfFuel.
Proof. destruct j; cbn; try done. apply b64d_fuel. Qed.

Lemma parse_header_fuel h : parse_header h ≠ Err OutOfFuel.
Proof.
  unfold parse_header, except. case_match eqn:E; [done|]. case_match; [done|]. intros [= ->].
  revert E. repeat (apply res_bind_fuel; [|intros ?]); try done;
    first [apply jitem_fuel | apply b64d_json_fuel | apply to_int_fuel].
Qed.

Lemma skip_loop_grows fuel until : ∀ st r st',
  skip_loop fuel until st = (r, st') → Z.max 0 (until - recv_count st) < Z.of_nat fuel →
  r ≠ Err OutOfFuel ∧
  Z.of_nat (size (skipped st')) ≤ Z.of_nat (size (skipped st)) + Z.max 0 (until - recv_count st).
Proof.
  induction fuel as [|fuel IH]; intros st r st' E Hf; cbn [skip_loop] in E; [lia|].
  unfold se_bind at 1, se_get in E. destruct (Z.ltb_spec (recv_count st) until).
  2:{ injection E as <- <-. split; [done|lia]. }
  unfold se_bind at 1, se_lift in E. destruct (receiving_chain st) as [c|]; cbn [of_option] in E.
  2:{ injection E as <- <-. split; [done|lia]. }
  destruct (kdf_ck c) as [mk next]. unfold se_bind, se_modify in E.
  apply IH in E as [Hr Hs]; cbn [set_receiving recv_count skipped] in *; [|lia].
  split; [done|]. rewrite map_size_insert in Hs. destruct (_ !! _); cbn in Hs; lia.
Qed.

Lemma skip_keys_grows until : grows MAX_SKIP (skip_keys until).
Proof.
  intros st r st' E. unfold skip_keys, se_bind, se_get in E.
  destruct (receiving_chain st). 2:{ injection E as <- <-. unfold MAX_SKIP. split; [done|lia]. }
  unfold MAX_SKIP in *. destruct (Z.ltb_spec (recv_count st + 1000) until); cbn [se_check] in E.
  { injection E as <- <-. split; [done|lia]. }
  unfold se_ret in E. apply skip_loop_grows in E as [Hr Hs]; [|lia]. split; [done|lia].
Qed.

Lemma dh_ratchet_grows fresh pub : grows 0 (dh_ratchet fresh pub).
Proof.
  intros st r st' E. unfold dh_ratchet, se_bind, se_get, se_put, se_lift in E.
  destruct (dh_self_private st) as [self|]; cbn [of_option] in E;
    [|injection E as <- <-; split; [done|cbn; lia]].
  destruct (x25519 self pub) eqn:E1;
    [|injection E as <- <-; split; [intros [= ->]; by apply x25519_fuel in E1|cbn; lia]].
  destruct (kdf_rk _ _) as [rk ckr]. cbn [new_keypair] in E.
  destruct (x25519 fresh pub) eqn:E2;
    [|injection E as <- <-; split; [intros [= ->]; by apply x25519_fuel in E2|cbn; lia]].
  destruct (kdf_rk _ _) as [rk2 cks]. injection E as <- <-. split; [done|cbn; lia].
Qed.

Lemma enter_chain_grows fresh pub pn : grows MAX_SKIP (enter_chain fresh pub pn).
Proof.
  intros st r st' E. unfold enter_chain in E. unfold se_bind at 1, se_get in E.
  destruct (_ || _).
  - revert E. apply (grows_bind MAX_SKIP 0 (match receiving_chain st with Some _ => skip_keys pn | None => se_ret tt end)); [|intros _; apply dh_ratchet_grows|done].
    destruct (receiving_chain st); [apply skip_keys_grows|].
    apply (grows_weaken 0); [|done]. by apply (grows_lift (Ok tt)).
  - injection E as <- <-. unfold MAX_SKIP. split; [done|lia].
Qed.

Lemma take_key_grows pub n : grows MAX_SKIP (take_key pub n).
Proof.
  intros st r st' E. unfold take_key in E. unfold se_bind at 1, se_get in E.
  destruct (skipped st !! _) eqn:Es.
  - injection E as <- <-. cbn [set_skipped skipped]. split; [done|].
    rewrite map_size_delete_Some by by eexists. unfold MAX_SKIP. lia.
  - revert E. apply (grows_weaken (0 + (0 + (MAX_SKIP + 0)))); [|unfold MAX_SKIP; lia].
    repeat (apply grows_bind; [|intros ?|unfold MAX_SKIP; lia]).
    + apply se_check_grows. done.
    + apply se_check_grows. done.
    + apply skip_keys_grows.
    + clear. intros st r st' E. unfold se_bind, se_get, se_lift, se_modify in E.
      destruct (receiving_chain st) as [c|]; cbn [of_option] in E;
        [|injection E as <- <-; split; [done|lia]].
      destruct (kdf_ck c). injection E as <- <-. split; [done|cbn; lia].
Qed.

Lemma decrypt__grows fresh h nonce c ad : grows (2 * MAX_SKIP) (decrypt_ fresh h nonce c ad).
Proof.
  unfold decrypt_. apply (grows_weaken (0 + (MAX_SKIP + (MAX_SKIP + 0)))); [|unfold MAX_SKIP; lia].
  apply grows_bind; [apply grows_lift, parse_header_fuel | intros [[pub n] pn] | unfold MAX_SKIP; lia].
  apply grows_bind; [apply enter_chain_grows | intros _ | unfold MAX_SKIP; lia].
  apply grows_bind; [apply take_key_grows | intros mk | lia].
  apply grows_lift. intros E. by apply Aead.decrypt_error in E.
Qed.

(** C8: a failed decryption, whatever its cause, leaves the session exactly as it
    was; and the loop that derives skipped keys always terminates within its bound. *)
Theorem decrypt_rollback fresh h nonce c ad st e st' :
  decrypt fresh h nonce c ad st = (Err e, st') →
  e ≠ OutOfFuel ∧ (e ≠ Unmodelled → st' = st).
Proof.
  intros E. unfold decrypt in E.
  destruct (decrypt_ fresh h nonce c ad st) as [[p|e'] st1] eqn:Ed; [done|].
  apply decrypt__grows in Ed as [He _]. injection E as <- <-. split; [congruence|].
  intros Hu. by destruct e'.
Qed.

(** C40: one decryption adds at most [2 * MAX_SKIP] keys to the store: at most
    [MAX_SKIP] to close the previous chain and [MAX_SKIP] in the current one. *)
Theorem decrypt_store_bound fresh h nonce c ad st r st' :
  decrypt fresh h nonce c ad st = (r, st') →
  Z.of_nat (size (skipped st')) ≤ Z.of_nat (size (skipped st)) + 2 * MAX_SKIP.
Proof.
  intros E. unfold decrypt in E.
  destruct (decrypt_ fresh h nonce c ad st) as [[p|e] st1] eqn:Ed;
    apply decrypt__grows in Ed as [_ Hs]; injection E as <- <-; [done|].
  case_match; [|done]. unfold MAX_SKIP. lia.
Qed.

(** ** What a successful decryption leaves behind *)

Lemma skip_loop_post fuel until : ∀ st st',
  skip_loop fuel until st = (Ok tt, st') → recv_count st ≤ until →
  recv_count st' = until ∧ dh_remote st' = dh_remote st ∧
  (receiving_chain st ≠ None → receiving_chain st' ≠ None) ∧
  ∀ k, (∀ i, recv_count st ≤ i < until → k ≠ skipped_key (dh_remote st) i) →
       skipped st' !! k = skipped st !! k.
Proof.
  induction fuel as [|fuel IH]; intros st st' E Hu; cbn [skip_loop] in E; [done|].
  unfold se_bind at 1, se_get in E. destruct (Z.ltb_spec (recv_count st) until).
  2:{ injection E as <-. split_and!; [lia|done..]. }
  unfold se_bind at 1, se_lift in E. destruct (receiving_chain st) as [c|]; cbn [of_option] in E; [|done].
  destruct (kdf_ck c) as [mk next]. unfold se_bind, se_modify in E.
  apply IH in E as (H1 & H2 & H3 & H4); cbn [set_receiving recv_count skipped dh_remote receiving_chain] in *;
    [|lia].
  split_and!; [done|done|intros _; by apply H3|].
  intros k Hk. rewrite H4 by (intros i Hi; apply Hk; lia).
  apply lookup_insert_ne. intros E. symmetry in E. revert E. apply Hk. lia.
Qed.

Lemma skip_keys_post until st st' :
  skip_keys until st = (Ok tt, st') →
  dh_remote st' = dh_remote st ∧ (receiving_chain st ≠ None → receiving_chain st' ≠ None) ∧
  (receiving_chain st ≠ None → recv_count st ≤ until → recv_count st' = until) ∧
  ∀ k, (∀ i, recv_count st ≤ i < until → k ≠ skipped_key (dh_remote st) i) →
       skipped st' !! k = skipped st !! k.
Proof.
  intros E. unfold skip_keys, se_bind, se_get in E. destruct (receiving_chain st) eqn:Ec.
  2:{ injection E as <-. rewrite Ec. by split_and!. }
  destruct (_ <? _) in E; cbn [se_check] in E; [done|]. unfold se_ret in E.
  destruct (Z.le_gt_cases (recv_count st) until) as [Hle|Hgt].
  - apply skip_loop_post in E as (H1 & H2 & H3 & H4); [|done]. rewrite Ec in H3. by split_and!.
  - cbn [skip_loop] in E. unfold se_bind, se_get in E.
    destruct (Z.ltb_spec (recv_count st) until); [lia|]. injection E as <-.
    rewrite Ec. split_and!; [done|done|lia|done].
Qed.

(** No [':'] in base64url: the two parts of a skipped key are determined. *)
Lemma skipped_key_dh_inj d1 d2 n m :
  skipped_key d1 n = skipped_key d2 m → default [] d1 = default [] d2.
Proof.
  unfold skipped_key. intros E. apply (f_equal bs) in E. rewrite !bs_app in E.
  assert (∀ b : bytes, Forall (λ c, c ≠ ":"%char) (bs (b64e b))) as Hno.
  { intros b. rewrite b64e_raw, bs_to_str.
    induction b as [|x|x y|x y z b IH] using triples_ind; cbn [b64_raw];
      repeat (apply List.Forall_cons || apply List.Forall_nil || exact IH);
      (match goal with |- b64_char ?v ≠ _ =>
         pose proof (b64_char_val v ltac:(b64_solve)) as [Hv _]; intros Ec; rewrite Ec in Hv;
         vm_compute in Hv; discriminate end). }
  assert (∀ l1 l2 r1 r2, Forall (λ c, c ≠ ":"%char) l1 → Forall (λ c, c ≠ ":"%char) l2 →
            l1 ++ ":"%char :: r1 = l2 ++ ":"%char :: r2 → l1 = l2) as Hcut.
  { intros l1. induction l1 as [|a l1 IH]; intros [|b l2] r1 r2 H1 H2 He; [done|..]; cbn in He.
    - injection He as He _. apply Forall_cons in H2 as [H2 _]. congruence.
    - injection He as He _. apply Forall_cons in H1 as [H1 _]. congruence.
    - injection He as -> He. apply Forall_cons in H1 as [_ H1], H2 as [_ H2].
      f_equal. by eapply IH. }
  apply Hcut in E; [|apply Hno..]. apply b64e_inj. by apply bs_inj.
Qed.

Lemma enter_chain_post fresh pub pn st st1 n :
  enter_chain fresh pub pn st = (Ok tt, st1) →
  dh_remote st1 = Some pub ∧ receiving_chain st1 ≠ None ∧
  (skipped st !! skipped_key (Some pub) n = None →
   skipped st1 !! skipped_key (Some pub) n = None) ∧
  (dh_remote st = Some pub → receiving_chain st ≠ None → st1 = st).
Proof.
  intros E. unfold enter_chain in E. unfold se_bind at 1, se_get in E.
  destruct (negb (bool_decide (dh_remote st = Some pub)) || bool_decide (receiving_chain st = None)) eqn:Eb.
  2:{ injection E as <-. apply orb_false_iff in Eb as [E1 E2].
      apply negb_false_iff, bool_decide_eq_true in E1. apply bool_decide_eq_false in E2. done. }
  apply se_bind_Ok in E as ([] & st2 & E1 & E2).
  assert (dh_remote st = Some pub → receiving_chain st ≠ None → st1 = st) as Hsame.
  { intros G1 G2. rewrite bool_decide_eq_true_2, bool_decide_eq_false_2 in Eb by done. done. }
  assert (length pub = 32%nat ∧ dh_remote st1 = Some pub ∧ receiving_chain st1 ≠ None ∧
          skipped st1 = skipped st2) as (Hl & G1 & G2 & G3).
  { unfold dh_ratchet, se_bind, se_get, se_put, se_lift in E2.
    destruct (dh_self_private st2) as [priv|]; cbn [of_option] in E2; [|done].
    destruct (x25519 priv pub) eqn:Ex; [|done]. unfold x25519 in Ex.
    destruct (kdf_rk _ _). cbn [new_keypair] in E2.
    destruct (x25519 fresh pub); [|done]. destruct (kdf_rk _ _). injection E2 as <-.
    split_and!; try done. rinv Ex. by apply negb_false_iff, Nat.eqb_eq in E0. }
  split_and!; [done|done| |done]. intros Hn. rewrite G3.
  destruct (receiving_chain st) eqn:Ec; [|by injection E1 as <-].
  apply skip_keys_post in E1 as (_ & _ & _ & Hk). rewrite Hk; [done|].
  intros i Hi Heq. apply skipped_key_dh_inj in Heq. cbn in Heq.
  destruct (dh_remote st) as [d|] eqn:Ed; cbn in Heq; [|subst pub; done]. subst d.
  rewrite bool_decide_eq_true_2, bool_decide_eq_false_2 in Eb by done. done.
Qed.

Lemma take_key_post pub n st st2 mk :
  dh_remote st = Some pub → receiving_chain st ≠ None → take_key pub n st = (Ok mk, st2) →
  dh_remote st2 = Some pub ∧ receiving_chain st2 ≠ None ∧
  skipped st2 !! skipped_key (Some pub) n = None ∧
  (skipped st !! skipped_key (Some pub) n = None → recv_count st2 = n + 1) ∧
  (skipped st !! skipped_key (Some pub) n ≠ None → recv_count st2 = recv_count st).
Proof.
  intros Hd Hr E. unfold take_key in E. unfold se_bind at 1, se_get in E.
  destruct (skipped st !! skipped_key (Some pub) n) as [k|] eqn:Es.
  - injection E as <- <-. cbn. split_and!; try done. apply lookup_delete_eq.
  - destruct (Z.ltb_spec n (recv_count st)); cbn [se_check] in E; [done|].
    unfold se_bind at 1, se_ret at 1 in E.
    destruct (recv_count st + MAX_SKIP <? n); cbn [se_check] in E; [done|].
    unfold se_bind at 1, se_ret at 1 in E. apply se_bind_Ok in E as ([] & st3 & E1 & E2).
    apply skip_keys_post in E1 as (H1 & H2 & H3 & H4). specialize (H2 Hr). specialize (H3 Hr H).
    unfold se_bind, se_get, se_lift, se_modify in E2.
    destruct (receiving_chain st3) as [ch|]; cbn [of_option] in E2; [|done].
    destruct (kdf_ck ch). injection E2 as _ <-. cbn. rewrite H1, H3.
    split_and!; try done. rewrite H4; [done|].
    intros i Hi Heq. rewrite Hd in Heq. apply skipped_key_inj in Heq. lia.
Qed.

(** A replayed packet is refused.  Once a packet has been decrypted on the
    current chain (or on a chain it opened), the same header is answered with
    [DuplicateMessage], whatever ciphertext comes with it, and the session does not
    move. *)
Theorem replay_rejected fresh fresh' h nonce c ad nonce' c' ad' st p st' pub n pn :
  parse_header h = Ok (pub, n, pn) →
  (skipped st !! skipped_key (Some pub) n ≠ None →
   dh_remote st = Some pub ∧ receiving_chain st ≠ None ∧ n < recv_count st) →
  decrypt fresh h nonce c ad st = (Ok p, st') →
  decrypt fresh' h nonce' c' ad' st' = (Err DuplicateMessage, st').
Proof.
  intros Hh Hw E. unfold decrypt in E.
  destruct (decrypt_ fresh h nonce c ad st) as [[q|e] st2] eqn:Ed; [|done].
  injection E as -> ->. unfold decrypt_ in Ed. unfold se_bind at 1, se_lift in Ed.
  rewrite Hh in Ed. apply se_bind_Ok in Ed as ([] & st1 & E1 & Ed).
  apply se_bind_Ok in Ed as (mk & st3 & E2 & Ed). injection Ed as _ ->.
  pose proof (enter_chain_post _ _ _ _ _ n E1) as (H1 & H2 & H3 & H4).
  pose proof (take_key_post _ _ _ _ _ H1 H2 E2) as (G1 & G2 & G3 & G4 & G5).
  assert (n < recv_count st') as Hlt.
  { destruct (skipped st !! skipped_key (Some pub) n) eqn:Es.
    - destruct Hw as (W1 & W2 & W3); [done|]. rewrite (H4 W1 W2) in *. rewrite G5; [done|].
      by rewrite Es.
    - rewrite G4; [lia | by apply H3]. }
  unfold decrypt, decrypt_. unfold se_bind at 1, se_lift at 1. rewrite Hh.
  unfold se_bind at 1. unfold enter_chain. unfold se_bind at 1, se_get at 1. rewrite G1.
  rewrite bool_decide_eq_true_2, bool_decide_eq_false_2 by done. cbn [negb orb se_ret]. unfold se_ret.
  unfold se_bind. by rewrite take_key_duplicate.
Qed.

(** ** A late message turns the ratchet back *)

Context {L : CryptoLaws C}.

(** A message of an earlier chain whose key is stored decrypts, but the
    header check runs before the store is consulted: the session also performs a
    ratchet step on the peer's old key.  Afterwards it expects the old key again, a
    new key pair and a new root are in place that the peer never learns, and the
    peer's next message of its current chain meets another ratchet step. *)
Theorem late_message_steps_back fresh st cur ck r old ck_old pn n p priv dh dh2 :
  recv_at st cur ck r → old ≠ cur → 0 ≤ pn ≤ Z.of_nat r →
  skipped st !! skipped_key (Some old) (Z.of_nat n) = Some (msg_key ck_old n) →
  is_packet old ck_old pn n p → keys_of st priv →
  x25519 priv old = Ok dh → x25519 fresh old = Ok dh2 →
  ∃ st', decrypt_p fresh p st = (Ok (p_plain p), st') ∧
    dh_remote st' = Some old ∧ recv_count st' = 0 ∧
    dh_self_private st' = Some fresh ∧ dh_self_public st' = Some (x25519_public fresh) ∧
    root_key st' = (kdf_rk (kdf_rk (root_key st) dh).1 dh2).1 ∧
    (∀ fresh' pn', enter_chain fresh' cur pn' st'
                   = se_bind (skip_keys pn') (λ _, dh_ratchet fresh' cur) st').
Proof using L.
  intros Hst Hne Hpn Hs Hp Hk E1 E2.
  destruct (kdf_rk (root_key st) dh) as [rk ckr] eqn:F1.
  destruct (kdf_rk rk dh2) as [rk2 cks] eqn:F2.
  pose proof (dh_ratchet_spec fresh st priv old dh rk ckr dh2 rk2 cks Hk E1 F1 E2 F2) as Ed.
  set (st1 := ratcheted st fresh old rk ckr rk2 cks 0) in *.
  exists (set_skipped (delete (skipped_key (Some old) (Z.of_nat n)) (skipped st1)) st1).
  split_and!; try done.
  - apply (decrypt_packet fresh old ck_old pn n p st st1); [done| |by apply take_key_skipped].
    unfold enter_chain, se_bind, se_get. destruct (Hst) as (G1 & G2 & G3). rewrite G1, G2.
    rewrite bool_decide_eq_false_2 by congruence. cbn [negb orb].
    by rewrite (skip_keys_past st cur ck r) by (done || lia).
  - cbn [set_skipped st1 ratcheted root_key fst]. by rewrite F2.
  - intros fresh' pn'. unfold enter_chain. unfold se_bind at 1, se_get.
    cbn [set_skipped st1 ratcheted dh_remote receiving_chain].
    by rewrite bool_decide_eq_false_2 by congruence.
Qed.

(** ** The stored form *)

Definition opt_ok (o : option bytes) : Prop := o ≠ Some [].
Definition wf_state (s : RatchetState) : Prop :=
  opt_ok (sending_chain s) ∧ opt_ok (receiving_chain s) ∧ opt_ok (dh_self_private s) ∧
  opt_ok (dh_self_public s) ∧ opt_ok (dh_remote s) ∧ map_Forall (λ k _, utf8_str k) (skipped s).

Lemma opt_b64_canon srt o : canon srt (opt_b64 o) = opt_b64 o.
Proof using. by destruct o as [[|c l]|]. Qed.

Lemma b64e_nonempty c l : b64e (c :: l) ≠ ""%string.
Proof using. intros E. apply (f_equal b64d) in E. rewrite b64d_b64e in E. by vm_compute in E. Qed.

Lemma opt_field_opt_b64 srt d J k o :
  views srt d J → opt_ok o → dget k d = Some (opt_b64 o) → opt_field k J = Ok o.
Proof using.
  intros HJ Ho E. unfold opt_field. rewrite (vw_get _ _ _ HJ _ _ E), opt_b64_canon. cbn [res_bind].
  destruct o as [[|c l]|]; cbn [opt_b64 truthy]; [done| |done].
  destruct (String.eqb_spec (b64e (c :: l)) "") as [E'|]; [by apply b64e_nonempty in E'|].
  cbn [negb b64d_json]. by rewrite b64d_b64e.
Qed.

Lemma skipped_json_wf m : map_Forall (λ k _, utf8_str k) m → wf_json utf8_str (skipped_json m).
Proof using.
  intros Hm. unfold skipped_json. apply wf_dict_elems. split.
  - rewrite map_map. cbn [fst]. apply NoDup_fst_map_to_list.
  - apply List.Forall_map, Forall_forall. intros [k v] Hin. cbn [fst snd].
    apply elem_of_map_to_list in Hin. split; [by apply (Hm k v)|]. apply b64e_utf8.
Qed.

Lemma skipped_from_json srt m :
  ∃ l, (let? l := items_json (jor (canon srt (skipped_json m)) (JObj [])) in mapM skipped_entry l)
       = Ok l ∧ l ≡ₚ map_to_list m.
Proof using.
  unfold skipped_json. rewrite canon_obj. set (f := λ kv : string * bytes, (kv.1, JStr (b64e kv.2))).
  assert (canon_dict srt (map f (map_to_list m)) ≡ₚ map f (map_to_list m)) as Hp.
  { unfold canon_dict. assert (map (λ kv : string * json, (kv.1, canon srt kv.2)) (map f (map_to_list m))
      = map f (map_to_list m)) as -> by (rewrite map_map; done).
    destruct srt; [apply sort_items_perm|done]. }
  apply Permutation_map_inv in Hp as (l & -> & Hl). exists l. split; [|done].
  assert (items_json (jor (JObj (map f l)) (JObj [])) = Ok (map f l)) as -> by (by destruct l).
  cbn [res_bind]. apply mapM_fmap_id. intros [k v] _. unfold skipped_entry, f. cbn [fst snd b64d_json].
  by rewrite b64d_b64e.
Qed.

Lemma state_dict_wf s : wf_state s → wf_dict (to_dict s).
Proof using.
  intros (_ & _ & _ & _ & _ & Hsk). pose proof (skipped_json_wf _ Hsk) as Hj.
  assert (∀ o, wf_json utf8_str (opt_b64 o)) as Ho.
  { intros [[|c l]|]; [done| |done]. apply b64e_utf8. }
  unfold to_dict. pose proof (Ho (sending_chain s)). pose proof (Ho (receiving_chain s)).
  pose proof (Ho (dh_self_private s)). pose proof (Ho (dh_self_public s)).
  pose proof (Ho (dh_remote s)). solve_wf.
Qed.

(** A state written with [to_dict], stored as JSON (keys sorted or not) and read with
    [from_dict] is the same state. *)
Lemma state_dict_read srt s : wf_state s → from_dict (canon srt (JObj (to_dict s))) = Ok s.
Proof using.
  intros Hs. pose proof (wf_dict_nodup _ (state_dict_wf s Hs)) as Hnd.
  destruct Hs as (H1 & H2 & H3 & H4 & H5 & _).
  set (d := to_dict s) in *. canon_intro srt d J HJ. unfold from_dict. view HJ.
  cbn [b64d_json]. rewrite b64d_b64e. cbn [res_bind].
  rewrite (opt_field_opt_b64 srt d J _ (sending_chain s)) by done. cbn [res_bind].
  rewrite (opt_field_opt_b64 srt d J _ (receiving_chain s)) by done. cbn [res_bind].
  rewrite (opt_field_opt_b64 srt d J _ (dh_self_private s)) by done. cbn [res_bind].
  rewrite (opt_field_opt_b64 srt d J _ (dh_self_public s)) by done. cbn [res_bind].
  rewrite (opt_field_opt_b64 srt d J _ (dh_remote s)) by done. cbn [res_bind].
  unfold int_field. view HJ. cbn [to_int res_bind].
  destruct (skipped_from_json srt (skipped s)) as (l & El & Hl).
  rewrite El. cbn [res_bind].
  assert (list_to_map l = skipped s) as ->.
  { rewrite <-(list_to_map_to_list (skipped s)). apply list_to_map_proper; [|done].
    rewrite Hl. apply NoDup_fst_map_to_list. }
  by destruct s.
Qed.
End safety.

(** ** Concrete instances *)

Import Toy.

(** A forged ciphertext: the ratchet has already stepped when it is rejected. *)
Lemma decrypt_rollback_witness :
  let p := sample_packet in
  let st := me sample_world in
  let forged := decrypt (k32 "c") (p_header p) (p_nonce p) (bs "forged") (p_ad p) st in
  (decrypt_ (k32 "c") (p_header p) (p_nonce p) (bs "forged") (p_ad p) st).2 ≠ st ∧
  (AEADError ≠ OutOfFuel ∧ (AEADError ≠ Unmodelled → forged.2 = st)).
Proof.
  intros p st forged. split.
  - intros E. apply (f_equal recv_count) in E. vm_compute in E. discriminate.
  - apply (decrypt_rollback (k32 "c") (p_header p) (p_nonce p) (bs "forged") (p_ad p) st AEADError).
    unfold forged. rewrite (surjective_pairing (decrypt _ _ _ _ _ _)) at 1.
    apply (f_equal2 pair); [vm_compute; reflexivity | reflexivity].
Defined.

(** The fourth message of a chain arrives first: it opens, and the keys of the three before it
    are stored. *)
Definition four_sent : list packet :=
  match (send_all (repeat sample_message 4) sample_initiator).1 with Ok ps => ps | Err _ => [] end.
Definition fourth : packet := List.last four_sent sample_packet.
Definition first_in_chain : RatchetState :=
  {| root_key := []; sending_chain := None; receiving_chain := sending_chain sample_initiator;
     dh_self_private := None; dh_self_public := None; dh_remote := Some (x25519_public (k32 "a"));
     send_count := 0; recv_count := 0; prev_send_count := 0; skipped := ∅ |}.
Lemma decrypt_store_bound_witness :
  let out := decrypt [] (p_header fourth) (p_nonce fourth) (p_cipher fourth) (p_ad fourth) first_in_chain in
  out.1 = Ok (p_plain fourth) ∧ size (skipped first_in_chain) = 0%nat ∧ size (skipped out.2) = 3%nat ∧
  Z.of_nat (size (skipped out.2)) ≤ Z.of_nat (size (skipped first_in_chain)) + 2 * MAX_SKIP.
Proof.
  intros out. split; [vm_compute; reflexivity|]. split; [reflexivity|]. split; [vm_compute; reflexivity|].
  apply (decrypt_store_bound [] (p_header fourth) (p_nonce fourth) (p_cipher fourth) (p_ad fourth) first_in_chain out.1 out.2).
  apply surjective_pairing.
Defined.

Lemma replay_rejected_witness :
  let p := sample_packet in
  let st' := (decrypt_p (k32 "c") p (me sample_world)).2 in
  decrypt (k32 "d") (p_header p) (bs "other") [] JNull st' = (Err DuplicateMessage, st').
Proof.
  intros p st'.
  apply (replay_rejected (k32 "c") (k32 "d") (p_header p) (p_nonce p) (p_cipher p) (p_ad p)
           (bs "other") [] JNull (me sample_world) (bs "hello") st' (x25519_public (k32 "a")) 0 0).
  - reflexivity.
  - intros H. destruct H. apply lookup_empty.
  - unfold st', decrypt_p. rewrite (surjective_pairing (decrypt _ _ _ _ _ _)) at 1.
    apply (f_equal2 pair); [vm_compute; reflexivity | reflexivity].
Defined.

(** A session with one stored key of an earlier chain. *)
Definition late_state : RatchetState :=
  {| root_key := k32 "r"; sending_chain := Some (k32 "s"); receiving_chain := Some (k32 "c");
     dh_self_private := Some (k32 "b"); dh_self_public := Some (x25519_public (k32 "b"));
     dh_remote := Some (k32 "n"); send_count := 2; recv_count := 0; prev_send_count := 1;
     skipped := {[ skipped_key (Some (k32 "o")) 1 := msg_key (k32 "k") 1 ]} |}.
Definition late_packet : packet :=
  let hdr := JObj (header (k32 "o") 0 1) in
  {| p_header := canon true hdr; p_nonce := repeat "n"%char 12;
     p_cipher := chacha_encrypt (msg_key (k32 "k") 1) (repeat "n"%char 12) (bs "late")
                   (associated_data hdr (JObj []));
     p_ad := canon true (JObj []); p_plain := bs "late" |}.
Definition secret_of (m : res bytes) : bytes := match m with Ok s => s | Err _ => [] end.

Lemma late_message_steps_back_witness :
  ∃ st', decrypt_p (k32 "f") late_packet late_state = (Ok (bs "late"), st') ∧
    dh_remote st' = Some (k32 "o") ∧ recv_count st' = 0 ∧
    dh_self_private st' = Some (k32 "f") ∧
    dh_self_public st' = Some (x25519_public (k32 "f")) ∧
    root_key st' = (kdf_rk (kdf_rk (root_key late_state) (secret_of (x25519 (k32 "b") (k32 "o")))).1
                      (secret_of (x25519 (k32 "f") (k32 "o")))).1 ∧
    (∀ fresh' pn', enter_chain fresh' (k32 "n") pn' st'
                   = se_bind (skip_keys pn') (λ _, dh_ratchet fresh' (k32 "n")) st').
Proof.
  apply (late_message_steps_back (k32 "f") late_state (k32 "n") (k32 "c") 0 (k32 "o") (k32 "k") 0 1
           late_packet (k32 "b")).
  - split_and!; reflexivity.
  - discriminate.
  - lia.
  - apply lookup_singleton_eq.
  - exists true, (JObj []). split_and!; try reflexivity. split; constructor.
  - split_and!; reflexivity.
  - reflexivity.
  - reflexivity.
Defined.

Lemma out_of_order_delivery_witness :
  let ms := [sample_message; sample_message] in
  let stA := sample_initiator in
  let ps := match (send_all ms stA).1 with Ok ps => ps | Err _ => [] end in
  let ck := default [] (sending_chain stA) in
  let stB := {| root_key := []; sending_chain := None; receiving_chain := Some ck;
                dh_self_private := None; dh_self_public := None;
                dh_remote := Some (x25519_public (k32 "a")); send_count := 0; recv_count := 0;
                prev_send_count := 0; skipped := ∅ |} in
  (deliver [] (rev ps) stB).1 = map (λ p, Ok (p_plain p)) (rev ps).
Proof.
  intros ms stA ps ck stB.
  apply (out_of_order_delivery [] ms stA stB (x25519_public (k32 "a")) ck 0 0 ps
           (send_all ms stA).2).
  - repeat constructor.
  - split_and!; reflexivity.
  - split_and!; reflexivity.
  - lia.
  - unfold MAX_SKIP. cbn. lia.
  - intros n _. apply lookup_empty.
  - unfold ps. rewrite (surjective_pairing (send_all ms stA)) at 1.
    apply (f_equal2 pair); [vm_compute; reflexivity | reflexivity].
  - apply Permutation_rev.
Defined.
