(* ===== verification/Session.v ===== *)
(** * Stored sessions ([core/session.py])

    A session is the ratchet state of one device of a contact, with what the first
    messages still carry: the key commitment and the handshake header. *)

From S2P Require Import Prelude PyStr Json JsonProps Dict Primitives Encoding Kdf Ratchet RatchetSafety.

Record Session := {
  sid : bytes;
  ratchet : RatchetState;
  sk : option bytes;
  init : json;   (* dict or None *)
  established : bool
}.

Definition is_pending (s : Session) : bool := negb (established s).

Definition to_dict (s : Session) : dict :=
  [("sid", JStr (b64e (sid s))); ("state", JObj (Ratchet.to_dict (ratchet s)));
   ("sk", opt_b64 (sk s)); ("init", init s); ("established", JBool (established s))]%string.

Definition from_dict (data : json) : res Session :=
  let? sid := (let? j := jitem "sid" data in b64d_json j) in
  let? state := (let? j := jitem "state" data in Ratchet.from_dict j) in
  let? sk := opt_field "sk" data in
  let? init := jget "init" data in
  let? established := jget "established" data in
  Ok {| sid := sid; ratchet := state; sk := sk; init := init; established := truthy established |}.

Definition wf_session (s : Session) : Prop :=
  wf_state (ratchet s) ∧ opt_ok (sk s) ∧ wf_json utf8_str (init s).

Lemma session_wf s : wf_session s → wf_dict (to_dict s).
Proof.
  intros (Hr & Hsk & Hi). pose proof (state_dict_wf _ Hr). unfold to_dict.
  assert (wf_json utf8_str (opt_b64 (sk s))).
  { destruct (sk s) as [[|c l]|]; [done| |done]. apply b64e_utf8. }
  assert (utf8_str (b64e (sid s))) by apply b64e_utf8.
  solve_wf; by apply wf_dict_elems.
Qed.

(** Reading what was written, keys sorted or not. *)
Lemma session_read srt s :
  wf_session s →
  from_dict (canon srt (JObj (to_dict s)))
  = Ok {| sid := sid s; ratchet := ratchet s; sk := sk s; init := canon srt (init s); established := established s |}.
Proof.
  intros Hs. pose proof (session_wf s Hs) as Hwf. destruct Hs as (Hr & Hsk & Hi).
  set (d := to_dict s) in *. canon_intro srt d J HJ. unfold from_dict. view HJ.
  cbn [b64d_json]. rewrite b64d_b64e. cbn [res_bind]. rewrite state_dict_read by done.
  cbn [res_bind]. rewrite (opt_field_opt_b64 srt d J _ (sk s)) by done. cbn [res_bind].
  by view HJ.
Qed.

(** A session kept in the store is the session that was saved.  Written with
    [to_dict], stored as JSON (keys sorted or not) and read with [from_dict], it has
    the same ratchet state (every chain, counter and skipped key), the same id and
    key, the handshake header it had as a value, and is pending exactly when it was. *)
Theorem session_roundtrip srt s :
  wf_session s →
  ∃ s', from_dict (canon srt (JObj (to_dict s))) = Ok s' ∧
    sid s' = sid s ∧ ratchet s' = ratchet s ∧ sk s' = sk s ∧ init s' = canon srt (init s) ∧
    is_pending s' = is_pending s ∧
    canonical_json (JObj (to_dict s')) = canonical_json (JObj (to_dict s)).
Proof.
  intros Hs. eexists. split; [by apply session_read|]. split_and!; try done.
  symmetry. apply canonical_jeq; [by apply (wf_nodup utf8_str), session_wf|].
  apply (jeq_obj _ (to_dict s)); [done|]. unfold to_dict. cbn [sid ratchet sk init established].
  repeat constructor; try done. apply jeq_canon.
Qed.

(** ** A concrete session *)

Definition sample_session : Session :=
  {| sid := bs "sid"; ratchet := late_state; sk := Some (bs "key");
     init := JObj [("ek", JStr "e"); ("a", JNull)]%string; established := false |}.
Lemma sample_session_wf : wf_session sample_session.
Proof.
  split; [|split].
  - split_and!; try discriminate.
    intros k v H. cbn [skipped late_state ratchet sample_session] in H.
    apply lookup_singleton_Some in H as [<- _]. vm_compute. reflexivity.
  - discriminate.
  - vm_compute. repeat constructor; by apply (bool_decide_unpack _).
Qed.
Lemma session_roundtrip_witness :
  ∃ s', from_dict (canon true (JObj (to_dict sample_session))) = Ok s' ∧
    sid s' = sid sample_session ∧ ratchet s' = ratchet sample_session ∧ sk s' = sk sample_session ∧
    init s' = canon true (init sample_session) ∧ is_pending s' = is_pending sample_session ∧
    canonical_json (JObj (to_dict s')) = canonical_json (JObj (to_dict sample_session)).
Proof. apply (session_roundtrip true sample_session), sample_session_wf. Defined.
