(* ===== verification/Protocol.v ===== *)
(** * Wire messages ([wire/protocol.py])

    A relay blob is canonical JSON with the session id, the ratchet header, the
    nonce and the ciphertext, plus the handshake header while a session is
    pending.  [init] is a JSON value, [JNull] for [None]. *)

From S2P Require Import Prelude PyStr Json JsonProps Dict Primitives Encoding Padding.
From S2P Require Import Ratchet RatchetChain RatchetSession RatchetWorld.

Definition PROTOCOL_VERSION : Z := 1.
Definition WIRE_VERSION : Z := PROTOCOL_VERSION.
Definition ENVELOPE_VERSION : Z := PROTOCOL_VERSION.

Definition is_none (j : json) : bool := match j with JNull => true | _ => false end.

Definition wire_dict (sid : bytes) (header : json) (nonce ciphertext : bytes) (init : json) : dict :=
  let wire := [("v", JInt WIRE_VERSION); ("sid", JStr (b64e sid)); ("hdr", header);
               ("nonce", JStr (b64e nonce)); ("ct", JStr (b64e ciphertext))]%string in
  if is_none init then wire else wire ++ [("init"%string, init)].

Definition build_wire (sid : bytes) (header : json) (nonce ciphertext : bytes) (init : json) : bytes :=
  canonical_json (JObj (wire_dict sid header nonce ciphertext init)).

(** [parse_wire] on text, and on bytes. *)
Definition parse_wire_str (blob : string) : res dict :=
  let? wire := except (isa JSONDecodeError) WireError (json_loads blob) in
  match wire with
  | JObj d =>
      let? v := jget "v" wire in
      raise_if negb (eq_int v WIRE_VERSION) with WireError ;;
      raise_if negb (forallb (λ field, dhas field d) ["sid"; "hdr"; "nonce"; "ct"]%string) with WireError ;;
      Ok d
  | _ => Err WireError
  end.
Definition parse_wire (blob : bytes) : res dict :=
  let? text := except isa_UnicodeError WireError (decode_utf8 blob) in parse_wire_str text.

Section wire.
Context {C : Crypto}.

Definition seal (rnd : nat → nat) (nonce0 : bytes) (envelope : dict) (sid : bytes) (init : json)
    (max_size : option Z) : SE RatchetState bytes :=
  let limit := default DEFAULT_MAX max_size in
  do! plaintext := se_lift (pad_envelope rnd envelope BUCKET (Some limit)) in
  do! (header, nonce, ciphertext) := encrypt nonce0 plaintext init in
  se_ret (build_wire sid (JObj header) nonce ciphertext init).

(** The [try] block of [unseal]. *)
Definition open_wire (fresh : bytes) (wire : dict) : SE RatchetState bytes :=
  do! hdr := se_lift (jitem "hdr" (JObj wire)) in
  do! nonce := se_lift (let? j := jitem "nonce" (JObj wire) in b64d_json j) in
  do! ct := se_lift (let? j := jitem "ct" (JObj wire) in b64d_json j) in
  do! init := se_lift (jget "init" (JObj wire)) in
  decrypt fresh hdr nonce ct init.

Definition unseal (fresh blob : bytes) : SE RatchetState (dict * bytes * json) :=
  do! wire := se_lift (parse_wire blob) in
  do! init := se_lift (jget "init" (JObj wire)) in
  do! plaintext := se_except isa_Exception WireError (open_wire fresh wire) in
  do! envelope := se_lift (unpad_envelope plaintext) in
  do! sid := se_lift (let? j := jitem "sid" (JObj wire) in b64d_json j) in
  se_ret (envelope, sid, init).

Definition make_envelope (kind : string) (body : json) (message_id : string) (timestamp_ms : Z)
    (auth card : json) : dict :=
  let envelope := [("v", JInt ENVELOPE_VERSION); ("type", JStr kind); ("id", JStr message_id);
                   ("ts", JInt timestamp_ms); ("body", body)]%string in
  let envelope := if is_none auth then envelope else envelope ++ [("auth"%string, auth)] in
  if is_none card then envelope else envelope ++ [("card"%string, card)].

Definition envelope_max_size (kind : string) : Z :=
  if String.eqb kind "file" then MAX_ATTACHMENT_ENVELOPE else DEFAULT_MAX.
End wire.

(** ** Framing *)

Lemma wire_dict_wf sid hdr nonce ct init :
  wf_json utf8_str hdr → wf_json utf8_str init → wf_dict (wire_dict sid hdr nonce ct init).
Proof.
  intros Hh Hi. unfold wire_dict. destruct (is_none init); cbn [app];
    solve_wf; auto using b64e_utf8.
Qed.

Lemma wire_dict_views sid hdr nonce ct init :
  wf_json utf8_str hdr → wf_json utf8_str init →
  let d := wire_dict sid hdr nonce ct init in
  let J := JObj (canon_dict true d) in
  parse_wire (build_wire sid hdr nonce ct init) = Ok (canon_dict true d) ∧
  jitem "hdr" J = Ok (canon true hdr) ∧ jitem "nonce" J = Ok (JStr (b64e nonce)) ∧
  jitem "ct" J = Ok (JStr (b64e ct)) ∧ jitem "sid" J = Ok (JStr (b64e sid)) ∧
  jget "init" J = Ok (canon true init).
Proof.
  intros Hh Hi d J. pose proof (wire_dict_wf sid hdr nonce ct init Hh Hi) as Hwf. fold d in Hwf.
  pose proof (wf_dict_nodup _ Hwf) as Hnd.
  assert (∀ k v, dget k d = Some v → dget k (canon_dict true d) = Some (canon true v)) as Hget.
  { intros k v E. by rewrite dget_canon, E. }
  assert (∀ k v, dget k d = Some v → jitem k J = Ok (canon true v)) as Hitem.
  { intros k v E. unfold J. cbn [jitem]. by rewrite (Hget k v E). }
  split_and!.
  - unfold parse_wire, build_wire. fold d. pose proof (canonical_bytes_loads _ Hwf) as E.
    unfold json_loads_bytes in E. unfold canonical_json. destruct (decode_utf8 _) as [t|]; [|done].
    cbn [res_bind except] in *. unfold parse_wire_str. rewrite E. cbn [except res_bind].
    rewrite canon_obj. cbn [jget res_bind]. unfold dhas.
    rewrite (Hget "v"%string (JInt WIRE_VERSION)) by (unfold d, wire_dict; by case_match).
    cbn [forallb]. rewrite (Hget "sid"%string (JStr (b64e sid))), (Hget "hdr"%string hdr),
      (Hget "nonce"%string (JStr (b64e nonce))), (Hget "ct"%string (JStr (b64e ct)))
      by (unfold d, wire_dict; by case_match). reflexivity.
  - apply Hitem. unfold d, wire_dict. by case_match.
  - apply (Hitem _ (JStr (b64e nonce))). unfold d, wire_dict. by case_match.
  - apply (Hitem _ (JStr (b64e ct))). unfold d, wire_dict. by case_match.
  - apply (Hitem _ (JStr (b64e sid))). unfold d, wire_dict. by case_match.
  - unfold J. cbn [jget]. rewrite dget_canon by done. unfold d, wire_dict. by destruct init.
Qed.

(** ** Round trip *)

Section roundtrip.
Context {C : Crypto} {L : CryptoLaws C}.

Lemma header_wf pub pn n : wf_json utf8_str (JObj (header pub pn n)).
Proof. unfold header. solve_wf; auto using b64e_utf8. Qed.

(** What [seal] puts on the wire: the packet of its ratchet step. *)
Lemma seal_spec rnd nonce env sid init max st pub ck s blob st' :
  send_at st pub ck s → wf_ad init → length nonce = 12%nat →
  seal rnd nonce env sid init max st = (Ok blob, st') →
  st' = set_sending (ck_iter ck (S s)) (Z.of_nat (S s)) st ∧
  ∃ data ct, pad_envelope rnd env BUCKET (Some (default DEFAULT_MAX max)) = Ok data ∧
    blob = build_wire sid (JObj (header pub (prev_send_count st) (Z.of_nat s))) nonce ct init ∧
    length ct = (length data + 16)%nat ∧
    is_packet pub ck (prev_send_count st) s
      {| p_header := canon true (JObj (header pub (prev_send_count st) (Z.of_nat s)));
         p_nonce := nonce; p_cipher := ct; p_ad := canon true init; p_plain := data |}.
Proof using L.
  intros Hst Hi Hn E. unfold seal in E. apply se_bind_Ok in E as (data & st1 & E1 & E).
  unfold se_lift in E1. injection E1 as E1 <-.
  apply se_bind_Ok in E as ([[hdr n'] ct] & st2 & E2 & E).
  rewrite (encrypt_packet nonce data init st pub ck s Hst) in E2.
  injection E2 as <- <- <- <-. injection E as <- <-. split; [done|].
  eexists data, _. split_and!; [done|done|apply chacha_length|].
  exists true, init. split_and!; done.
Qed.

(** Opening a framed packet is decrypting it. *)
Lemma unseal_build fresh sid hdr nonce ct init data env st st' :
  wf_json utf8_str hdr → wf_json utf8_str init →
  decrypt fresh (canon true hdr) nonce ct (canon true init) st = (Ok data, st') →
  unpad_envelope data = Ok env →
  unseal fresh (build_wire sid hdr nonce ct init) st = (Ok (env, sid, canon true init), st').
Proof using.
  intros Hh Hi Ed Eu. destruct (wire_dict_views sid hdr nonce ct init Hh Hi) as (E0 & E1 & E2 & E3 & E4 & E5).
  unfold unseal, se_bind, se_lift, se_except. rewrite E0, E5. unfold open_wire, se_bind, se_lift.
  rewrite E1, E2, E3, E5. cbn [res_bind b64d_json]. rewrite !b64d_b64e, Ed, Eu, E4.
  cbn [res_bind b64d_json]. by rewrite b64d_b64e.
Qed.

(** Sealing and opening a message are inverse.  Once [seal] has put an envelope
    on the wire, the peer whose receiving chain matches gets from [unseal], on the
    blob's bytes, the envelope without its padding, the session id and the handshake
    header, whether the message is the next one, skips earlier ones or is itself
    late; both sessions advance in step. *)
Theorem seal_unseal rnd nonce env sid init max fresh stA stB stA' pub ck s r blob :
  wf_dict env → wf_json utf8_str init → length nonce = 12%nat →
  send_at stA pub ck s → recv_at stB pub ck r → ready stB pub ck r s →
  seal rnd nonce env sid init max stA = (Ok blob, stA') →
  send_at stA' pub ck (S s) ∧
  ∃ stB' r', unseal fresh blob stB
      = (Ok (canon_dict true (dpop "pad" env), sid, canon true init), stB') ∧
    recv_at stB' pub ck r' ∧ (r ≤ r')%nat ∧ ∀ n, n ≠ s → ready stB pub ck r n → ready stB' pub ck r' n.
Proof using L.
  intros Henv Hi Hn HA HB Hr E.
  apply (seal_spec _ _ _ _ _ _ _ pub ck s) in E as [-> (data & ct & Ed & -> & _ & Hp)];
    [|done|by eapply wf_nodup|done].
  split; [by apply send_at_next|].
  destruct (deliver_one fresh pub ck _ s _ stB r HB Hr Hp) as (stB' & r' & Edec & H1 & H2 & H3).
  exists stB', r'. split; [|done]. apply pad_envelope_Ok in Ed as [Eu _]; [|done].
  eapply unseal_build; [apply header_wf | done | exact Edec | exact Eu].
Qed.

(** ** What opening accepts *)

Lemma decrypt_Ok fresh hdr nonce ct ad st p st' :
  decrypt fresh hdr nonce ct ad st = (Ok p, st') →
  ∃ remote number pn st1 mk,
    parse_header hdr = Ok (remote, number, pn) ∧ enter_chain fresh remote pn st = (Ok tt, st1) ∧
    take_key remote number st1 = (Ok mk, st') ∧
    length mk = 32%nat ∧ length nonce = 12%nat ∧
    ct = chacha_encrypt mk nonce p (associated_data hdr ad).
Proof using L.
  intros E. unfold decrypt in E. destruct (decrypt_ _ _ _ _ _ st) as [[q|e] s1] eqn:Ed; [|done].
  injection E as -> ->. unfold decrypt_ in Ed.
  apply se_bind_Ok in Ed as ([[remote number] pn] & st0 & E0 & Ed). unfold se_lift in E0.
  injection E0 as E0 <-. apply se_bind_Ok in Ed as ([] & st1 & E1 & Ed).
  apply se_bind_Ok in Ed as (mk & st2 & E2 & Ed). unfold se_lift in Ed. injection Ed as Ed <-.
  apply Aead.decrypt_iff in Ed as (Hk & Hn & Ee).
  exists remote, number, pn, st1, mk. split_and!; try done.
  unfold Aead.encrypt, blen, Aead.KEY_SIZE in Ee. rewrite Hk in Ee. cbn [Z.of_nat Z.eqb] in Ee.
  destruct (negb _) in Ee; [done|]. by injection Ee as ->.
Qed.

Lemma decrypt_Err fresh hdr nonce ct ad st e st' :
  decrypt fresh hdr nonce ct ad st = (Err e, st') → isa_Exception e = true → st' = st.
Proof using.
  unfold decrypt. destruct (decrypt_ _ _ _ _ _ st) as [[q|e'] s1]; [done|].
  intros [= -> <-] ->. done.
Qed.

Lemma open_wire_Err fresh wire st e st' :
  open_wire fresh wire st = (Err e, st') → isa_Exception e = true → st' = st.
Proof using.
  unfold open_wire, se_bind, se_lift. intros E He. destruct (jitem "hdr" _); [|congruence].
  destruct (let? j := jitem "nonce" _ in _); [|congruence].
  destruct (let? j := jitem "ct" _ in _); [|congruence]. destruct (jget "init" _); [|congruence].
  by eapply decrypt_Err.
Qed.

(** C12: a blob is opened only if its ciphertext was made, under the message key the
    session takes for it, from a plaintext that unpads to the returned envelope and
    with this header and this handshake header as associated data: a relay that
    changes either, or the ciphertext, is refused.  A refused blob ([WireError]:
    malformed, forged, replayed or skipping too far) leaves the session untouched. *)
Theorem unseal_authentic fresh blob st r st' :
  unseal fresh blob st = (r, st') →
  (r = Err WireError → st' = st) ∧
  ∀ env sid init, r = Ok (env, sid, init) →
    ∃ wire hdr nonce ct p remote number pn st1 mk,
      parse_wire blob = Ok wire ∧
      jitem "hdr" (JObj wire) = Ok hdr ∧ jget "init" (JObj wire) = Ok init ∧
      (let? j := jitem "nonce" (JObj wire) in b64d_json j) = Ok nonce ∧
      (let? j := jitem "ct" (JObj wire) in b64d_json j) = Ok ct ∧
      (let? j := jitem "sid" (JObj wire) in b64d_json j) = Ok sid ∧
      parse_header hdr = Ok (remote, number, pn) ∧ enter_chain fresh remote pn st = (Ok tt, st1) ∧
      take_key remote number st1 = (Ok mk, st') ∧
      ct = chacha_encrypt mk nonce p (associated_data hdr init) ∧ unpad_envelope p = Ok env.
Proof using L.
  unfold unseal, se_bind, se_lift, se_except. intros E.
  destruct (parse_wire blob) as [wire|] eqn:Ew; [|injection E as <- <-; by split].
  destruct (jget "init" (JObj wire)) as [init|] eqn:Ei; [|injection E as <- <-; by split].
  destruct (open_wire fresh wire st) as [[p|e] st2] eqn:Eo.
  2:{ destruct (isa_Exception e) eqn:He; injection E as <- <-; [|split; [|done]].
      - apply open_wire_Err in Eo as ->; [|done]. by split.
      - intros [= ->]. done. }
  unfold open_wire, se_bind, se_lift in Eo. rewrite Ei in Eo.
  destruct (jitem "hdr" _) as [hdr|] eqn:Eh; [|done].
  destruct (let? j := jitem "nonce" _ in _) as [nonce|] eqn:En; [|done].
  destruct (let? j := jitem "ct" _ in _) as [ct|] eqn:Ec; [|done].
  apply decrypt_Ok in Eo as (remote & number & pn & st1 & mk & H1 & H2 & H3 & _ & _ & H4).
  destruct (unpad_envelope p) as [env|e] eqn:Eu.
  2:{ injection E as <- <-. split; [|done]. intros [= ->].
    apply unpad_envelope_error in Eu. naive_solver. }
  destruct (let? j := jitem "sid" _ in _) as [sid|e] eqn:Es.
  2:{ injection E as <- <-. split; [|done]. intros [= ->].
    apply res_bind_Err in Es as [Es|(j & _ & Es%b64d_json_error)]; [|naive_solver].
    cbn [jitem] in Es. by destruct (dget _ _). }
  injection E as <- <-. split; [done|]. intros ? ? ? [= <- <- <-].
  exists wire, hdr, nonce, ct, p, remote, number, pn, st1, mk. done.
Qed.

(** ** What the size of a blob shows *)

Lemma wire_length sid hdr nonce ct init sid' nonce' ct' :
  length sid = length sid' → length nonce = length nonce' → length ct = length ct' →
  blen (build_wire sid hdr nonce ct init) = blen (build_wire sid' hdr nonce' ct' init).
Proof using.
  assert (∀ k a b, length a = length b →
    length (member_b fmt_canonical 1 (k, JStr (b64e a))) = length (member_b fmt_canonical 1 (k, JStr (b64e b))))
    as Hm.
  { intros k a b Hab. unfold member_b, quoted. cbn [dumps_at fst snd f_esc fmt_canonical]. unfold quoted.
    rewrite !b64e_esc. repeat (rewrite ?length_app; cbn [length]). by rewrite (b64e_length a b Hab). }
  intros Hs Hn Hc. unfold blen, build_wire, canonical_json, wire_dict.
  destruct (is_none init); rewrite !canonical_length by done; cbn [app length sum_list_with];
    rewrite (Hm "sid" _ _ Hs), (Hm "nonce" _ _ Hn), (Hm "ct" _ _ Hc); lia.
Qed.

(** The relay learns no more of a message's length than its bucket.  Two
    envelopes whose padded sizes agree, sealed in the same session state, give
    blobs of the same length, whatever the padding, nonce and session id. *)
Theorem sealed_length rnd rnd' nonce nonce' env env' sid sid' init max st pub ck s blob blob' st1 st2 :
  let limit := Some (default DEFAULT_MAX max) in
  let size d := padded_size (blen (canonical_json (JObj (dset "pad" (JStr "") d)))) BUCKET limit in
  wf_dict env → wf_dict env' → wf_ad init → send_at st pub ck s →
  length nonce = 12%nat → length nonce' = 12%nat → length sid = length sid' →
  seal rnd nonce env sid init max st = (Ok blob, st1) →
  seal rnd' nonce' env' sid' init max st = (Ok blob', st2) →
  size env = size env' → blen blob = blen blob'.
Proof using L.
  intros limit size He He' Hi Hst Hn Hn' Hs E E' Hsize.
  apply (seal_spec _ _ _ _ _ _ _ pub ck s) in E as [_ (data & ct & Ed & -> & Hc & _)]; [|done..].
  apply (seal_spec _ _ _ _ _ _ _ pub ck s) in E' as [_ (data' & ct' & Ed' & -> & Hc' & _)]; [|done..].
  apply pad_envelope_Ok in Ed as [_ Hd]; [|done]. apply pad_envelope_Ok in Ed' as [_ Hd']; [|done].
  fold limit in Hd, Hd'. apply wire_length; [done|congruence|].
  assert (blen data = blen data') by (rewrite Hd, Hd'; exact Hsize). unfold blen in *. lia.
Qed.
End roundtrip.

(** ** Concrete instances *)

Import Toy.

Definition sample_envelope (text : string) : dict :=
  make_envelope "text" (JObj [("text"%string, JStr text)]) "m1" 5 JNull JNull.
Definition sample_init : json := JObj [("ek"%string, JStr "e"); ("spk_id"%string, JInt 1)].
Definition sample_seal (text : string) : res bytes * RatchetState :=
  Protocol.seal (λ i, i) (repeat "n"%char 12) (sample_envelope text) (bs "sid") sample_init None sample_initiator.
Definition sample_blob (text : string) : bytes :=
  match (sample_seal text).1 with Ok b => b | Err _ => [] end.
Definition sample_peer : RatchetState :=
  {| root_key := []; sending_chain := None; receiving_chain := sending_chain sample_initiator;
     dh_self_private := None; dh_self_public := None;
     dh_remote := Some (x25519_public (k32 "a")); send_count := 0; recv_count := 0;
     prev_send_count := 0; skipped := ∅ |}.

Lemma sample_send_at :
  send_at sample_initiator (x25519_public (k32 "a")) (default [] (sending_chain sample_initiator)) 0.
Proof. split_and!; reflexivity. Qed.
Lemma sample_recv_at :
  recv_at sample_peer (x25519_public (k32 "a")) (default [] (sending_chain sample_initiator)) 0.
Proof. split_and!; reflexivity. Qed.
Lemma sample_ready :
  ready sample_peer (x25519_public (k32 "a")) (default [] (sending_chain sample_initiator)) 0 0.
Proof. split; [unfold MAX_SKIP; cbn; lia|]. apply lookup_empty. Qed.

Lemma sample_seal_Ok text :
  is_Some (ok_or_none (sample_seal text).1) → sample_seal text = (Ok (sample_blob text), (sample_seal text).2).
Proof.
  unfold sample_blob. destruct (sample_seal text) as [[b|e] st]; cbn; [done|]. by intros [? [=]].
Qed.

Lemma seal_unseal_witness :
  let ck := default [] (sending_chain sample_initiator) in
  let pub := x25519_public (k32 "a") in
  send_at (sample_seal "hi").2 pub ck 1 ∧
  ∃ stB' r', Protocol.unseal (k32 "f") (sample_blob "hi") sample_peer
      = (Ok (canon_dict true (dpop "pad" (sample_envelope "hi")), bs "sid", canon true sample_init), stB') ∧
    recv_at stB' pub ck r' ∧ (0 ≤ r')%nat ∧
    ∀ n, n ≠ 0%nat → ready sample_peer pub ck 0 n → ready stB' pub ck r' n.
Proof.
  intros ck pub.
  apply (seal_unseal (λ i, i) (repeat "n"%char 12) (sample_envelope "hi") (bs "sid") sample_init None
           (k32 "f") sample_initiator sample_peer (sample_seal "hi").2 pub ck 0 0 (sample_blob "hi")).
  - unfold sample_envelope, make_envelope. cbn [is_none]. solve_wf.
  - unfold sample_init. solve_wf.
  - reflexivity.
  - apply sample_send_at.
  - apply sample_recv_at.
  - apply sample_ready.
  - apply (sample_seal_Ok "hi"). vm_compute. eauto.
Defined.

Lemma unseal_authentic_witness :
  ∃ wire hdr nonce ct p remote number pn st1 mk,
    parse_wire (sample_blob "hi") = Ok wire ∧
    jitem "hdr" (JObj wire) = Ok hdr ∧ jget "init" (JObj wire) = Ok sample_init ∧
    (let? j := jitem "nonce" (JObj wire) in b64d_json j) = Ok nonce ∧
    (let? j := jitem "ct" (JObj wire) in b64d_json j) = Ok ct ∧
    (let? j := jitem "sid" (JObj wire) in b64d_json j) = Ok (bs "sid") ∧
    parse_header hdr = Ok (remote, number, pn) ∧
    enter_chain (k32 "f") remote pn sample_peer = (Ok tt, st1) ∧
    take_key remote number st1 = (Ok mk, (Protocol.unseal (k32 "f") (sample_blob "hi") sample_peer).2) ∧
    ct = chacha_encrypt mk nonce p (associated_data hdr sample_init) ∧
    unpad_envelope p = Ok (canon_dict true (sample_envelope "hi")).
Proof.
  eapply (proj2 (unseal_authentic (k32 "f") (sample_blob "hi") sample_peer
                   (Ok (canon_dict true (sample_envelope "hi"), bs "sid", sample_init)) (Protocol.unseal (k32 "f") (sample_blob "hi") sample_peer).2 _)
            (canon_dict true (sample_envelope "hi")) (bs "sid") sample_init eq_refl).
  Unshelve. rewrite (surjective_pairing (Protocol.unseal _ _ _)) at 1.
  apply (f_equal2 pair); [vm_compute; reflexivity | reflexivity].
Defined.

Lemma sealed_length_witness : blen (sample_blob "hi") = blen (sample_blob "good day").
Proof.
  apply (sealed_length (λ i, i) (λ i, i) (repeat "n"%char 12) (repeat "n"%char 12)
           (sample_envelope "hi") (sample_envelope "good day") (bs "sid") (bs "sid") sample_init None
           sample_initiator (x25519_public (k32 "a")) (default [] (sending_chain sample_initiator)) 0
           (sample_blob "hi") (sample_blob "good day") (sample_seal "hi").2 (sample_seal "good day").2).
  - unfold sample_envelope, make_envelope. cbn [is_none]. solve_wf.
  - unfold sample_envelope, make_envelope. cbn [is_none]. solve_wf.
  - unfold wf_ad, sample_init. cbn [nodup_keys]. split; [cbn [map fst]; solve_nodup|]. repeat constructor.
  - apply sample_send_at.
  - reflexivity.
  - reflexivity.
  - reflexivity.
  - apply (sample_seal_Ok "hi"). vm_compute. eauto.
  - apply (sample_seal_Ok "good day"). vm_compute. eauto.
  - vm_compute. reflexivity.
Defined.
