(* ===== verification/RelayUrls.v ===== *)
(** * Lists of relay URLs

    [normalize_relay_urls] of [wire/backends/multi_relay.py]; the relay's own
    [_normalize] ([server/routers/relays.py]) is the same function. *)

From S2P Require Import Prelude PyStr.

Definition clean_url (url : string) : string :=
  let cleaned := rstrip_char "/" (py_strip url) in
  if String.eqb cleaned "" then ""
  else if startswith cleaned "http://" || startswith cleaned "https://" then cleaned
  else "https://" +:+ cleaned.

Definition add_url (seen : list string) (url : string) : list string :=
  let cleaned := clean_url url in
  if String.eqb cleaned "" then seen
  else if bool_decide (cleaned ∈ seen) then seen else seen ++ [cleaned].

(** The cleaned URLs, each once, in order. *)
Definition normalize_relay_urls (urls : list string) : list string := fold_left add_url urls [].

Lemma clean_url_spec url :
  clean_url url = ""%string ∨
  startswith (clean_url url) "http://" = true ∨ startswith (clean_url url) "https://" = true.
Proof.
  unfold clean_url. generalize (rstrip_char "/" (py_strip url)). intros c.
  destruct (String.eqb c ""); [by left|]. right.
  destruct (startswith c "http://") eqn:E1; cbn [orb]; [by left|].
  destruct (startswith c "https://") eqn:E2; [by right|right].
  unfold startswith. rewrite bs_app. reflexivity.
Qed.

Lemma add_urls_spec us : ∀ seen, NoDup seen →
  NoDup (fold_left add_url us seen) ∧ seen `prefix_of` fold_left add_url us seen ∧
  ∀ u, u ∈ fold_left add_url us seen ↔ u ∈ seen ∨ (u ≠ ""%string ∧ ∃ url, url ∈ us ∧ clean_url url = u).
Proof.
  induction us as [|x us IH]; intros seen Hnd; cbn [fold_left].
  - split_and!; [done|done|]. intros u.
    split; [by left|]. intros [?|(_ & y & ?%not_elem_of_nil & _)]; done.
  - unfold add_url at 2 4 6. destruct (String.eqb_spec (clean_url x) "") as [Ex|Ex]; [|case_bool_decide as Hin].
    + destruct (IH seen Hnd) as (H1 & H2 & H3). split_and!; [done|done|]. intros u. rewrite H3. set_solver.
    + destruct (IH seen Hnd) as (H1 & H2 & H3). split_and!; [done|done|]. intros u. rewrite H3. set_solver.
    + destruct (IH (seen ++ [clean_url x])) as (H1 & H2 & H3).
      { apply NoDup_app. split_and!; [done| |apply NoDup_singleton]. set_solver. }
      split_and!; [done| |].
      * etrans; [|exact H2]. by exists [clean_url x].
      * intros u. rewrite H3. set_solver.
Qed.

Lemma normalize_NoDup urls : NoDup (normalize_relay_urls urls).
Proof. by apply add_urls_spec, NoDup_nil_2. Qed.

Lemma normalize_elem urls u :
  u ∈ normalize_relay_urls urls ↔ u ≠ ""%string ∧ ∃ url, url ∈ urls ∧ clean_url url = u.
Proof.
  unfold normalize_relay_urls.
  rewrite (proj2 (proj2 (add_urls_spec urls [] ltac:(by apply NoDup_nil_2))) u).
  split; [intros [?%not_elem_of_nil|?]; done | by right].
Qed.

Lemma normalize_length urls : (length (normalize_relay_urls urls) ≤ length urls)%nat.
Proof.
  unfold normalize_relay_urls.
  assert (∀ seen, (length (fold_left add_url urls seen) ≤ length seen + length urls)%nat) as H.
  { induction urls as [|x us IH]; intros seen; cbn [fold_left length]; [lia|].
    etrans; [apply IH|]. unfold add_url. repeat case_match; rewrite ?length_app; cbn; lia. }
  apply (H []).
Qed.

(** A normalised URL does not end in a slash. *)
Lemma drop_while_idemp P l : drop_while P (drop_while P l) = drop_while P l.
Proof. induction l as [|c l IH]; [done|]. cbn. destruct (P c) eqn:E; [done|]. cbn. by rewrite E. Qed.
Lemma drop_while_app P l l' : drop_while P l ≠ [] → drop_while P l = l → drop_while P (l ++ l') = l ++ l'.
Proof.
  destruct l as [|c l]; [done|]. cbn. destruct (P c) eqn:E; [|done]. intros _ H.
  exfalso. assert (length (drop_while P l) ≤ length l)%nat as Hl.
  { clear. induction l as [|d l IH]; [done|]. cbn. case_match; cbn; lia. }
  rewrite H in Hl. cbn in Hl. lia.
Qed.

Lemma clean_url_rstrip url : rstrip_char "/" (clean_url url) = clean_url url.
Proof.
  unfold clean_url. set (c := rstrip_char "/" (py_strip url)).
  assert (rstrip_char "/" c = c) as Hc.
  { unfold c, rstrip_char, rstrip_chars. rewrite !bs_to_str, rev_involutive. by rewrite drop_while_idemp. }
  destruct (String.eqb_spec c "") as [E|E]; [done|]. case_match; [done|].
  unfold rstrip_char, rstrip_chars in *. rewrite bs_app, rev_app_distr.
  assert (drop_while (λ d, bool_decide (d = "/"%char)) (rev (bs c)) = rev (bs c)) as Hd.
  { apply (f_equal bs) in Hc. rewrite bs_to_str in Hc.
    apply (f_equal (@rev ascii)) in Hc. by rewrite rev_involutive in Hc. }
  rewrite drop_while_app; [|rewrite Hd; intros Hn|exact Hd].
  - rewrite rev_app_distr, !rev_involutive. apply bs_inj. by rewrite bs_to_str, bs_app.
  - apply E, bs_inj. apply (f_equal (@rev ascii)) in Hn. by rewrite rev_involutive in Hn.
Qed.

(** URLs that are clean already stay as they are. *)
Definition is_clean (u : string) : Prop := u ≠ ""%string ∧ clean_url u = u.

Lemma add_urls_clean l : ∀ seen, Forall is_clean l → NoDup (seen ++ l) → fold_left add_url l seen = seen ++ l.
Proof.
  induction l as [|x l IH]; intros seen Hl Hnd; cbn [fold_left]; [by rewrite app_nil_r|].
  apply Forall_cons in Hl as [[Hx Ex] Hl]. unfold add_url at 2. rewrite Ex.
  rewrite (proj2 (String.eqb_neq x "")) by done. rewrite bool_decide_eq_false_2.
  2:{ apply NoDup_app in Hnd as (_ & H & _). intros Hin. apply (H x Hin). set_solver. }
  rewrite IH; [by rewrite <-app_assoc|done|]. by rewrite <-app_assoc.
Qed.

Lemma normalize_clean l : Forall is_clean l → NoDup l → normalize_relay_urls l = l.
Proof. intros. by apply (add_urls_clean l []). Qed.

Lemma normalize_app_clean l l' :
  Forall is_clean l → NoDup l → l `prefix_of` normalize_relay_urls (l ++ l').
Proof.
  intros Hl Hnd. unfold normalize_relay_urls. rewrite fold_left_app.
  rewrite (add_urls_clean l []) by done. by apply add_urls_spec.
Qed.

(** The list of relays a client uses or a relay advertises has no duplicates;
    its entries are exactly the given URLs, trimmed, without trailing slashes and
    with a scheme, empty ones left out; a list that is clean already is unchanged. *)
Theorem normalize_spec urls :
  NoDup (normalize_relay_urls urls) ∧
  (∀ u, u ∈ normalize_relay_urls urls ↔ u ≠ ""%string ∧ ∃ url, url ∈ urls ∧ clean_url url = u) ∧
  Forall (λ u, startswith u "http://" = true ∨ startswith u "https://" = true) (normalize_relay_urls urls) ∧
  (Forall is_clean urls → NoDup urls → normalize_relay_urls urls = urls).
Proof.
  split_and!; [apply normalize_NoDup | apply normalize_elem | | apply normalize_clean].
  apply Forall_forall. intros u (Hu & url & _ & <-)%normalize_elem.
  destruct (clean_url_spec url) as [E|E]; [done|exact E].
Qed.
