(* ===== verification/Url.v ===== *)
(** * URLs and IP addresses

    What the wire layer uses of Python's [urllib.parse] and [ipaddress]: the scheme
    and network location of a URL, its host name and port, and the classes of an IP
    address.  A network location outside ASCII (Python applies Unicode
    normalisation to it) gives [Unmodelled]. *)

From S2P Require Import Prelude PyStr Json.

(** ** Text helpers *)

Definition has_char (c : ascii) (l : bytes) : bool := existsb (λ d, bool_decide (d = c)) l.
(** [text.partition(c)]: before, whether found, after. *)
Definition partition (c : ascii) (l : bytes) : bytes * bool * bytes :=
  match partition_b c l with Some (a, b) => (a, true, b) | None => (l, false, []) end.
(** [text.rpartition(c)[2]]. *)
Definition after_last (c : ascii) (l : bytes) : bytes := default [] (last (split_b c [] l)).
Definition is_alpha (c : ascii) : bool :=
  let x := code c in ((65 <=? x) && (x <=? 90)) || ((97 <=? x) && (x <=? 122)).
Definition scheme_char (c : ascii) : bool :=
  is_alpha c || is_digit c || has_char c (bs "+-.").
Definition c0_or_space (c : ascii) : bool := code c <=? 32.
Definition unsafe_char (c : ascii) : bool := (code c =? 9) || (code c =? 10) || (code c =? 13).

Fixpoint span (P : ascii → bool) (l : bytes) : bytes * bytes :=
  match l with
  | [] => ([], [])
  | c :: l' => if P c then let '(a, b) := span P l' in (c :: a, b) else ([], l)
  end.

(** ** [ipaddress.ip_address] *)

(** [IPv4Address._parse_octet]. *)
Definition parse_octet (l : bytes) : option Z :=
  if forallb is_digit l && (1 <=? blen l) && (blen l <=? 3)
     && (bool_decide (l = bs "0") || negb (bool_decide (hd_error l = Some "0"%char)))
     && (digits_val 0 l <=? 255)
  then Some (digits_val 0 l) else None.

Definition ipv4_int (l : bytes) : option Z :=
  match split_b "." [] l with
  | [a; b; c; d] =>
      match parse_octet a, parse_octet b, parse_octet c, parse_octet d with
      | Some a, Some b, Some c, Some d => Some (((a * 256 + b) * 256 + c) * 256 + d)
      | _, _, _, _ => None
      end
  | _ => None
  end.

(** [IPv6Address._parse_hextet]. *)
Fixpoint hex_val (acc : Z) (l : bytes) : option Z :=
  match l with
  | [] => Some acc
  | c :: l' => match hexval c with Some d => hex_val (acc * 16 + d) l' | None => None end
  end.
Definition parse_hextet (l : bytes) : option Z :=
  if (1 <=? blen l) && (blen l <=? 4) then hex_val 0 l else None.

Fixpoint join_hextets (acc : Z) (parts : list bytes) : option Z :=
  match parts with
  | [] => Some acc
  | p :: parts' =>
      match parse_hextet p with
      | Some h => join_hextets (Z.lor (Z.shiftl acc 16) h) parts'
      | None => None
      end
  end.

Definition is_empty (l : bytes) : bool := match l with [] => true | _ => false end.

(** An IPv4 suffix as two groups. *)
Definition ipv6_parts (l : bytes) : option (list bytes) :=
  let parts := split_b ":" [] l in
  if (length parts <? 3)%nat then None else
  let tail := default [] (last parts) in
  if has_char "." tail then
    match ipv4_int tail with
    | Some v => Some (removelast parts ++ [hex4_b (Z.shiftr v 16); hex4_b (Z.land v 65535)])
    | None => None
    end
  else Some parts.

Definition ipv6_int (l : bytes) : option Z :=
  match ipv6_parts l with
  | None => None
  | Some parts =>
      let n := length parts in
      let head_empty := is_empty (default [] (hd_error parts)) in
      let tail_empty := is_empty (default [] (last parts)) in
      if (9 <? n)%nat then None else
      match List.filter (λ i, is_empty (nth i parts [])) (seq 1 (n - 2)) with
      | [] =>
          if negb (n =? 8)%nat || head_empty || tail_empty then None
          else join_hextets 0 parts
      | [skip] =>
          let hi := (skip - (if head_empty then 1 else 0))%nat in
          let lo := (n - skip - 1 - (if tail_empty then 1 else 0))%nat in
          if (head_empty && (0 <? hi)%nat) || (tail_empty && (0 <? lo)%nat) then None
          else if (8 <=? hi + lo)%nat then None
          else
            match join_hextets 0 (take hi parts) with
            | Some v => join_hextets (Z.shiftl v (16 * Z.of_nat (8 - (hi + lo)))) (drop (n - lo) parts)
            | None => None
            end
      | _ => None
      end
  end.

Inductive ip := IPv4 (v : Z) | IPv6 (v : Z).

(** [ip_address(text)]: [None] for [ValueError].  A zone id follows a percent sign. *)
Definition ip_address (l : bytes) : option ip :=
  match (if has_char "/" l then None else ipv4_int l) with
  | Some v => Some (IPv4 v)
  | None =>
      if has_char "/" l then None else
      let '(addr, zoned, zone) := partition "%" l in
      if zoned && (is_empty zone || has_char "%" zone) then None
      else option_map IPv6 (ipv6_int addr)
  end.

(** ** Classes of addresses *)

Definition in_net (bits v : Z) (net : Z * Z) : bool :=
  Z.shiftr v (bits - net.2) =? Z.shiftr net.1 (bits - net.2).
Definition v4 (a b c d : Z) : Z := ((a * 256 + b) * 256 + c) * 256 + d.
(** The first three 16-bit groups of a network, the others zero. *)
Definition v6 (a b c : Z) : Z := Z.shiftl ((a * 65536 + b) * 65536 + c) 80.

Definition private4 : list (Z * Z) :=
  [(v4 0 0 0 0, 8); (v4 10 0 0 0, 8); (v4 127 0 0 0, 8); (v4 169 254 0 0, 16); (v4 172 16 0 0, 12);
   (v4 192 0 0 0, 24); (v4 192 0 0 170, 31); (v4 192 0 2 0, 24); (v4 192 168 0 0, 16);
   (v4 198 18 0 0, 15); (v4 198 51 100 0, 24); (v4 203 0 113 0, 24); (v4 240 0 0 0, 4);
   (v4 255 255 255 255, 32)].
Definition private4_exceptions : list (Z * Z) := [(v4 192 0 0 9, 32); (v4 192 0 0 10, 32)].
Definition private6 : list (Z * Z) :=
  [(1, 128); (0, 128); (Z.shiftl 0xffff 32, 96); (v6 0x64 0xff9b 1, 48); (v6 0x100 0 0, 64);
   (v6 0x2001 0 0, 23); (v6 0x2001 0xdb8 0, 32); (v6 0x2002 0 0, 16); (v6 0xfc00 0 0, 7);
   (v6 0xfe80 0 0, 10)].
Definition private6_exceptions : list (Z * Z) :=
  [(v6 0x2001 1 0 + 1, 128); (v6 0x2001 1 0 + 2, 128); (v6 0x2001 3 0, 32); (v6 0x2001 4 0x112, 48);
   (v6 0x2001 0x20 0, 28); (v6 0x2001 0x30 0, 28)].
Definition reserved6 : list (Z * Z) :=
  [(0, 8); (v6 0x100 0 0, 8); (v6 0x200 0 0, 7); (v6 0x400 0 0, 6); (v6 0x800 0 0, 5);
   (v6 0x1000 0 0, 4); (v6 0x4000 0 0, 3); (v6 0x6000 0 0, 3); (v6 0x8000 0 0, 3);
   (v6 0xa000 0 0, 3); (v6 0xc000 0 0, 3); (v6 0xe000 0 0, 4); (v6 0xf000 0 0, 5);
   (v6 0xf800 0 0, 6); (v6 0xfe00 0 0, 9)].

Definition private4_ip (v : Z) : bool :=
  existsb (in_net 32 v) private4 && negb (existsb (in_net 32 v) private4_exceptions).
Definition is_private (a : ip) : bool :=
  match a with
  | IPv4 v => private4_ip v
  | IPv6 v =>
      if Z.shiftr v 32 =? 0xffff then private4_ip (v mod 2 ^ 32)
      else existsb (in_net 128 v) private6 && negb (existsb (in_net 128 v) private6_exceptions)
  end.
Definition is_loopback (a : ip) : bool :=
  match a with IPv4 v => in_net 32 v (v4 127 0 0 0, 8) | IPv6 v => v =? 1 end.
Definition is_link_local (a : ip) : bool :=
  match a with IPv4 v => in_net 32 v (v4 169 254 0 0, 16) | IPv6 v => in_net 128 v (v6 0xfe80 0 0, 10) end.
Definition is_reserved (a : ip) : bool :=
  match a with IPv4 v => in_net 32 v (v4 240 0 0 0, 4) | IPv6 v => existsb (in_net 128 v) reserved6 end.
Definition is_multicast (a : ip) : bool :=
  match a with IPv4 v => in_net 32 v (v4 224 0 0 0, 4) | IPv6 v => in_net 128 v (v6 0xff00 0 0, 8) end.
Definition is_unspecified (a : ip) : bool :=
  match a with IPv4 v => v =? 0 | IPv6 v => v =? 0 end.

(** ** [urllib.parse.urlparse] *)

Record url_parts := { scheme : string; netloc : bytes }.

(** [_check_bracketed_host]. *)
Definition bracketed_host_ok (host : bytes) : bool :=
  match host with
  | "v"%char :: l =>
      let '(h, r) := span (λ c, match hexval c with Some _ => true | None => false end) l in
      negb (is_empty h) && match r with "."%char :: _ :: _ => true | _ => false end
  | _ => match ip_address host with Some (IPv6 _) => true | _ => false end
  end.
(** [_check_bracketed_netloc] of a location with both brackets. *)
Definition bracketed_netloc_ok (loc : bytes) : bool :=
  let '(before, open, bracketed) := partition "[" (after_last "@" loc) in
  if open then
    let '(host, _, port) := partition "]" bracketed in
    is_empty before && (is_empty port || prefix_b (bs ":") port) && bracketed_host_ok host
  else let '(host, _, _) := partition ":" (after_last "@" loc) in bracketed_host_ok host.

Definition not_delim (c : ascii) : bool := negb (has_char c (bs "/?#")).

Definition urlparse (url : string) : res url_parts :=
  let u := List.filter (λ c, negb (unsafe_char c)) (drop_while c0_or_space (bs url)) in
  let '(before, found, after) := partition ":" u in
  let '(sch, rest) :=
    if found && match before with c :: _ => is_alpha c | [] => false end && forallb scheme_char before
    then (ascii_lower before, after) else ([], u) in
  let loc := if prefix_b (bs "//") rest then (span not_delim (drop 2 rest)).1 else [] in
  let opens := has_char "[" loc in
  let closes := has_char "]" loc in
  raise_if xorb opens closes with ValueError ;;
  raise_if negb (all_ascii loc) with Unmodelled ;;
  raise_if opens && closes && negb (bracketed_netloc_ok loc) with ValueError ;;
  Ok {| scheme := to_str sch; netloc := loc |}.

(** [_hostinfo]. *)
Definition hostinfo (p : url_parts) : bytes * bytes :=
  let info := after_last "@" (netloc p) in
  let '(_, open, bracketed) := partition "[" info in
  if open then
    let '(host, _, port) := partition "]" bracketed in
    let '(_, _, port) := partition ":" port in (host, port)
  else let '(host, _, port) := partition ":" info in (host, port).

(** [parsed.hostname or ""]. *)
Definition hostname (p : url_parts) : bytes :=
  let '(host, zoned, zone) := partition "%" (hostinfo p).1 in
  ascii_lower host ++ (if zoned then "%"%char :: zone else []).

(** [parsed.port]. *)
Definition port (p : url_parts) : res (option Z) :=
  match (hostinfo p).2 with
  | [] => Ok None
  | l => if forallb is_digit l
         then raise_if 65535 <? digits_val 0 l with ValueError ;; Ok (Some (digits_val 0 l))
         else Err ValueError
  end.
