(* ===== verification/Backend.v ===== *)
(** * Mailbox capabilities ([wire/backends/base.py])

    The address of a mailbox with the tokens that open it, its JSON forms, and the
    write-only view that goes into a contact card. *)

From S2P Require Import Prelude PyStr Json JsonProps Dict Primitives Encoding.

Definition MAILBOX_ID_SIZE : Z := 16.
Definition TOKEN_SIZE : Z := 32.
Definition CHUNK_ID_SIZE : Z := 16.

Record MailboxCapability := {
  mailbox_id : string;
  write_token : string;
  read_token : option string
}.

(** [generate], from the random bytes it draws. *)
Definition generate (id w r : bytes) : MailboxCapability :=
  {| mailbox_id := b64e id; write_token := b64e w; read_token := Some (b64e r) |}.

Definition to_json (c : MailboxCapability) : dict :=
  let payload := [("mailbox_id", JStr (mailbox_id c)); ("write_token", JStr (write_token c))]%string in
  match read_token c with
  | Some r => payload ++ [("read_token"%string, JStr r)]
  | None => payload
  end.

Definition card_view (c : MailboxCapability) : dict :=
  [("id", JStr (mailbox_id c)); ("w", JStr (write_token c))]%string.

Definition from_card_view (view : json) : res MailboxCapability :=
  let? id := jitem "id" view in
  let? w := jitem "w" view in
  Ok {| mailbox_id := to_pystr id; write_token := to_pystr w; read_token := None |}.

Definition validate_token (token : string) : res unit :=
  let? raw := except isa_Exception ValueError (b64d token) in
  raise_if negb (blen raw =? TOKEN_SIZE) with ValueError ;; Ok tt.
Definition validate (c : MailboxCapability) : res unit :=
  let? _ := validate_token (write_token c) in
  match read_token c with Some r => validate_token r | None => Ok tt end.

Definition from_json (payload : json) (with_read : bool) : res MailboxCapability :=
  let? read := (if with_read then jget "read_token" payload else Ok JNull) in
  let? id := jitem "mailbox_id" payload in
  let? w := jitem "write_token" payload in
  let capability := {| mailbox_id := to_pystr id; write_token := to_pystr w;
                       read_token := if truthy read then Some (to_pystr read) else None |} in
  let? _ := validate capability in
  Ok capability.

(** One blob as seen from one relay. *)
Record FetchedMessage := { fm_relay : string; fm_seq : Z; fm_blob : bytes }.

(** ** Properties *)

Lemma validate_token_b64e b : length b = 32%nat → validate_token (b64e b) = Ok tt.
Proof.
  intros H. unfold validate_token. rewrite b64d_b64e. cbn [except res_bind].
  unfold blen, TOKEN_SIZE. by rewrite H.
Qed.

Lemma validate_token_Ok t :
  validate_token t = Ok tt → ∃ raw, b64d t = Ok raw ∧ length raw = 32%nat.
Proof.
  unfold validate_token. intros (raw & H%except_Ok & E)%res_bind_Ok. exists raw. split; [done|].
  case_match eqn:E'; [done|]. apply negb_false_iff, Z.eqb_eq in E'. unfold blen, TOKEN_SIZE in E'. lia.
Qed.

Lemma validate_token_nonempty t : validate_token t = Ok tt → t ≠ ""%string.
Proof. by intros H ->. Qed.

(** What a sender's copy of a capability is: no read token. *)
Definition write_only (c : MailboxCapability) : MailboxCapability :=
  {| mailbox_id := mailbox_id c; write_token := write_token c; read_token := None |}.

Lemma from_json_canon srt c with_read :
  validate c = Ok tt →
  from_json (canon srt (JObj (to_json c))) with_read = Ok (if with_read then c else write_only c).
Proof.
  intros Hv. pose proof Hv as Hv'. unfold validate in Hv'.
  destruct c as [id w r]. cbn [write_token read_token] in *.
  apply res_bind_Ok in Hv' as ([] & Hw & Hr).
  set (d := to_json _).
  assert (NoDup (map fst d)) as Hnd by (unfold d, to_json; cbn [read_token]; destruct r; cbn [app map fst]; solve_nodup).
  pose proof (canon_views srt d Hnd) as V.
  unfold from_json. rewrite !(vw_item _ _ _ V "mailbox_id" (JStr id)), !(vw_item _ _ _ V "write_token" (JStr w))
    by (unfold d, to_json; cbn [read_token]; by destruct r).
  rewrite !canon_str. cbn [res_bind to_pystr].
  destruct with_read.
  - destruct r as [r|].
    + rewrite (vw_get _ _ _ V "read_token" (JStr r)) by done. rewrite canon_str. cbn [res_bind truthy to_pystr].
      rewrite (proj2 (String.eqb_neq r "")) by by apply validate_token_nonempty. cbn [negb].
      by rewrite Hv.
    + rewrite (vw_none _ _ _ V "read_token") by done. cbn [res_bind truthy]. by rewrite Hv.
  - cbn [res_bind truthy]. unfold validate. cbn [write_token read_token]. by rewrite Hw.
Qed.

(** A capability stored as JSON is read back unchanged, or without its read token
    when asked to; its card view, read back, is the capability without the read
    token, and the view does not depend on that token, so a contact card never
    lets its holder read the mailbox.  What is read back is always valid. *)
Theorem capability_roundtrip srt c :
  validate c = Ok tt →
  (∀ with_read, from_json (canon srt (JObj (to_json c))) with_read
                = Ok (if with_read then c else write_only c)) ∧
  from_card_view (canon srt (JObj (card_view c))) = Ok (write_only c) ∧
  (∀ r, card_view {| mailbox_id := mailbox_id c; write_token := write_token c; read_token := r |}
        = card_view c) ∧
  ∀ payload with_read c', from_json payload with_read = Ok c' → validate c' = Ok tt.
Proof.
  intros Hv. split_and!; [by intros; apply from_json_canon | | done |].
  - set (d := card_view c). canon_intro srt d J HJ. unfold from_card_view. view HJ.
    rewrite ?canon_str. done.
  - intros payload with_read c' E. unfold from_json in E.
    apply res_bind_Ok in E as (? & _ & E). apply res_bind_Ok in E as (? & _ & E).
    apply res_bind_Ok in E as (? & _ & E). apply res_bind_Ok in E as ([] & Hc & E).
    by injection E as <-.
Qed.

Lemma capability_roundtrip_witness :
  let c := generate (repeat "i"%char 16) (repeat "w"%char 32) (repeat "r"%char 32) in
  (∀ with_read, from_json (canon true (JObj (to_json c))) with_read
                = Ok (if with_read then c else write_only c)) ∧
  from_card_view (canon true (JObj (card_view c))) = Ok (write_only c) ∧
  (∀ r, card_view {| mailbox_id := mailbox_id c; write_token := write_token c; read_token := r |}
        = card_view c) ∧
  ∀ payload with_read c', from_json payload with_read = Ok c' → validate c' = Ok tt.
Proof.
  intros c. apply (capability_roundtrip true c). unfold validate, c. cbn [write_token read_token generate].
  rewrite !validate_token_b64e by reflexivity. reflexivity.
Defined.
