(* ===== verification/Transport.v ===== *)
(** * HTTP transport ([wire/transport.py])

    The network is a state [N] with the effects of the class [Net]: sending a
    request with [requests] and sleeping.  [Transport.request] is a computation on
    it; an instance that records every effect states what is sent and when.
    Durations (timeouts, the backoff) are integers in a unit of the caller's. *)

From S2P Require Import Prelude PyStr Json Url.

Inductive payload := NoBody | Data (b : bytes) | JsonBody (j : json).

(** A call of [Session.request], and the parts of a response the program reads:
    [response.json()] is a result of the library. *)
Record http_request := {
  rq_method : string;
  rq_url : string;
  rq_timeout : Z;
  rq_proxies : list (string * string);
  rq_headers : list (string * string);
  rq_params : list (string * Z);
  rq_body : payload
}.
Record response := { status_code : Z; response_json : res json; content : bytes }.

Class Net (N : Type) := {
  session_request : http_request → SE N response;
  time_sleep : Z → N → N
}.

Record Transport := {
  timeout : Z;
  retries : Z;
  backoff : Z;
  proxy_url : option string;
  fail_closed : bool
}.
Definition new_transport (timeout retries backoff : Z) (proxy_url : option string) (fail_closed : bool)
    : Transport :=
  {| timeout := timeout; retries := Z.max 1 retries; backoff := backoff; proxy_url := proxy_url;
     fail_closed := fail_closed |}.

Definition LOOPBACK : list string := ["localhost"; "127.0.0.1"; "::1"; "[::1]"]%string.

Definition is_local (url : string) : res bool :=
  let? p := urlparse url in
  let host := to_str (ascii_lower (hostname p)) in
  Ok (bool_decide (host ∈ LOOPBACK) || endswith host ".local").

(** The proxy, when one is configured: [None] and the empty string are not. *)
Definition proxy_of (t : Transport) : option string :=
  match proxy_url t with
  | Some p => if String.eqb p "" then None else Some p
  | None => None
  end.

Definition proxies_for (t : Transport) (url : string) : res (list (string * string)) :=
  let? loc := is_local url in
  if loc then Ok [] else
  match proxy_of t with
  | None => raise_if fail_closed t with TransportError ;; Ok []
  | Some p => Ok [("http", p); ("https", p)]%string
  end.

(** The [except] clause of the retry loop. *)
Definition retried (e : exn) : bool :=
  match e with RequestsConnectionError | RequestsTimeout => true | _ => false end.

Section transport.
Context {N : Type} {Network : Net N}.

(** The [for] loop: [n] attempts are left. *)
Fixpoint attempts (t : Transport) (r : http_request) (n : nat) (attempt : Z) : SE N response :=
  match n with
  | O => se_raise TransportError
  | S n' => λ s,
      match session_request r s with
      | (Ok resp, s') => (Ok resp, s')
      | (Err e, s') =>
          if retried e then
            match n' with
            | O => (Err TransportError, s')
            | S _ => attempts t r n' (attempt + 1) (time_sleep (backoff t * 2 ^ attempt) s')
            end
          else (Err e, s')
      end
  end.

Definition request (t : Transport) (method url : string) (timeout0 : option Z)
    (headers : list (string * string)) (params : list (string * Z)) (body : payload)
    : SE N response :=
  do! proxies := se_lift (proxies_for t url) in
  let r := {| rq_method := method; rq_url := url; rq_timeout := default (timeout t) timeout0;
              rq_proxies := proxies; rq_headers := headers; rq_params := params; rq_body := body |} in
  attempts t r (Z.to_nat (retries t)) 0.
End transport.

(** ** Recording what happens *)

Inductive event := Sent (r : http_request) | Slept (d : Z).

#[export] Instance recorded (N : Type) (Network : Net N) : Net (N * list event) := {
  session_request := λ r '(n, log),
    let '(res, n') := session_request r n in (res, (n', log ++ [Sent r]));
  time_sleep := λ d '(n, log), (time_sleep d n, log ++ [Slept d])
}.

Section spec.
Context {N : Type} {Network : Net N}.

(** [k] tries of a request, sleeping in between, the first wait being for attempt [a]. *)
Fixpoint tries (b : Z) (r : http_request) (a : Z) (k : nat) : list event :=
  match k with
  | O => []
  | S O => [Sent r]
  | S k' => Sent r :: Slept (b * 2 ^ a) :: tries b r (a + 1) k'
  end.

Lemma attempts_spec t r k a n log res n' log' :
  attempts t r (S k) a (n, log) = (res, (n', log')) →
  ∃ j, (1 ≤ j ≤ S k)%nat ∧ log' = log ++ tries (backoff t) r a j ∧
    ((res = Err TransportError ∧ j = S k) ∨
     (∃ m, session_request r m = (res, n')) ∧ ∀ e, res = Err e → retried e = false).
Proof.
  revert a n log. induction k as [|k IH]; intros a n log E.
  - cbn in E. destruct (session_request r n) as [[resp|e] m] eqn:Es.
    + injection E as <- <- <-. exists 1%nat. split; [lia|]. split; [done|]. right. split; [by exists n|done].
    + destruct (retried e) eqn:Hr; injection E as <- <- <-; exists 1%nat; split; try lia; split; try done.
      * by left.
      * right. split; [by exists n|]. by intros ? [= <-].
  - cbn [attempts session_request recorded] in E.
    destruct (session_request r n) as [[resp|e] m] eqn:Es.
    + injection E as <- <- <-. exists 1%nat. split; [lia|]. split; [done|]. right. split; [by exists n|done].
    + destruct (retried e) eqn:Hr.
      * cbn [time_sleep recorded] in E. apply IH in E as (j & Hj & -> & H).
        exists (S j). split; [lia|]. split.
        { rewrite <-!app_assoc. f_equal. destruct j as [|j]; [lia|]. done. }
        destruct H as [[-> ->]|H]; [by left | by right].
      * injection E as <- <- <-. exists 1%nat. split; [lia|]. split; [done|]. right.
        split; [by exists n|]. by intros ? [= <-].
Qed.

Definition via (p : string) : list (string * string) := [("http", p); ("https", p)]%string.

Lemma proxies_for_Ok t url px :
  proxies_for t url = Ok px →
  is_local url = Ok true ∧ px = [] ∨
  is_local url = Ok false ∧
    match proxy_of t with Some p => px = via p | None => fail_closed t = false ∧ px = [] end.
Proof.
  unfold proxies_for. intros (loc & Hl & E)%res_bind_Ok. rewrite Hl. destruct loc.
  - injection E as <-. by left.
  - right. split; [done|]. destruct (proxy_of t); [by injection E as <-|].
    destruct (fail_closed t); [done|]. by injection E as <-.
Qed.

Lemma request_spec t method url to hs ps body n log r n' log' :
  1 ≤ retries t →
  request t method url to hs ps body (n, log) = (r, (n', log')) →
  (∃ e, proxies_for t url = Err e ∧ r = Err e ∧ log' = log) ∨
  ∃ px j,
    let q := {| rq_method := method; rq_url := url; rq_timeout := default (timeout t) to;
                rq_proxies := px; rq_headers := hs; rq_params := ps; rq_body := body |} in
    proxies_for t url = Ok px ∧ 1 ≤ Z.of_nat j ≤ retries t ∧
    log' = log ++ tries (backoff t) q 0 j ∧
    ((r = Err TransportError ∧ Z.of_nat j = retries t) ∨
     (∃ m, session_request q m = (r, n')) ∧ ∀ e, r = Err e → retried e = false).
Proof.
  intros Hret E. unfold request, se_bind, se_lift in E.
  destruct (proxies_for t url) as [px|e] eqn:Ep.
  2:{ injection E as <- _ <-. left. by exists e. }
  right. destruct (Z.to_nat (retries t)) as [|k] eqn:Ek; [lia|].
  apply attempts_spec in E as (j & Hj & -> & H). exists px, j. split; [done|].
  split; [lia|]. split; [done|]. destruct H as [[-> ->]|H]; [left; split; [done|lia] | by right].
Qed.

Lemma tries_sent b r a k ev : ev ∈ tries b r a k → ev = Sent r ∨ ∃ d, ev = Slept d.
Proof.
  revert a. induction k as [|[|k] IH]; intros a; cbn [tries].
  - by intros ?%not_elem_of_nil.
  - intros ->%list_elem_of_singleton. by left.
  - intros [->|[->|H]%elem_of_cons]%elem_of_cons; [by left|by right; eexists|]. by eapply IH.
Qed.

(** In fail-closed mode nothing is ever sent in the clear.  Every request the
    transport puts on the network goes through the configured proxy, for both
    schemes, or to a loopback or [.local] host; without a proxy a request to any
    other host is refused with [TransportError] before anything is sent. *)
Theorem fail_closed_never_direct t method url to hs ps body n log r n' log' :
  1 ≤ retries t → fail_closed t = true →
  request t method url to hs ps body (n, log) = (r, (n', log')) →
  (∃ new, log' = log ++ new ∧
    ∀ q, Sent q ∈ new →
      is_local (rq_url q) = Ok true ∨ ∃ p, proxy_of t = Some p ∧ rq_proxies q = via p) ∧
  (proxy_of t = None → is_local url = Ok false → r = Err TransportError ∧ log' = log).
Proof.
  intros Hret Hf E. apply request_spec in E as [(e & Ep & -> & ->)|(px & j & Ep & Hj & -> & H)]; [..|done].
  - split; [exists []; split; [by rewrite app_nil_r|]; intros q Hq; by apply not_elem_of_nil in Hq|].
    intros Hp Hl. unfold proxies_for in Ep. rewrite Hl, Hp, Hf in Ep. cbn in Ep. split; [congruence|done].
  - apply proxies_for_Ok in Ep. split.
    + eexists. split; [done|]. intros q [[= ->]|[d [=]]]%tries_sent. cbn [rq_url rq_proxies].
      destruct Ep as [[Hl _]|[_ Ep]]; [by left|]. right. destruct (proxy_of t) as [p|]; [by exists p|].
      destruct Ep. congruence.
    + intros Hp Hl. rewrite Hp in Ep. destruct Ep as [[? _]|(_ & ? & _)]; congruence.
Qed.

(** A request is tried at least once and at most [retries] times, always the
    same request, with exponentially growing pauses; it fails with [TransportError]
    exactly after the last try, and every other outcome is the library's answer. *)
Theorem request_bounded t0 retries0 b p fc method url to hs ps body n log r n' log' :
  let t := new_transport t0 retries0 b p fc in
  request t method url to hs ps body (n, log) = (r, (n', log')) →
  (∃ e, proxies_for t url = Err e ∧ r = Err e ∧ log' = log) ∨
  ∃ px j,
    let q := {| rq_method := method; rq_url := url; rq_timeout := default t0 to;
                rq_proxies := px; rq_headers := hs; rq_params := ps; rq_body := body |} in
    proxies_for t url = Ok px ∧ 1 ≤ Z.of_nat j ≤ Z.max 1 retries0 ∧
    log' = log ++ tries b q 0 j ∧
    ((r = Err TransportError ∧ Z.of_nat j = Z.max 1 retries0) ∨
     (∃ m, session_request q m = (r, n')) ∧ ∀ e, r = Err e → retried e = false).
Proof. intros t E. apply request_spec in E; [done|]. cbn. lia. Qed.
End spec.

(** ** Concrete instances *)

(** A network that is down. *)
Definition dead_net : Net nat :=
  {| session_request := λ _ n, (Err RequestsConnectionError, S n); time_sleep := λ _ n, n |}.
#[local] Existing Instance dead_net.

Lemma fail_closed_never_direct_witness :
  let t := new_transport 30 3 1 None true in
  (∃ new, [] = [] ++ new ∧
    ∀ q, Sent q ∈ new →
      is_local (rq_url q) = Ok true ∨ ∃ p, proxy_of t = Some p ∧ rq_proxies q = via p) ∧
  (proxy_of t = None → is_local "https://relay.example" = Ok false →
   Err TransportError = (Err TransportError : res response) ∧ ([] : list event) = []).
Proof.
  intros t. apply (fail_closed_never_direct t "GET" "https://relay.example" None [] [] NoBody 0%nat []
                     (Err TransportError) 0%nat []); [vm_compute; discriminate | reflexivity |].
  vm_compute. reflexivity.
Defined.

Lemma request_bounded_witness :
  let t := new_transport 30 3 1 None false in
  let q := {| rq_method := "GET"; rq_url := "http://a"; rq_timeout := 30; rq_proxies := [];
              rq_headers := []; rq_params := []; rq_body := NoBody |} in
  let log := [Sent q; Slept 1; Sent q; Slept 2; Sent q] in
  (∃ e, proxies_for t "http://a" = Err e ∧ Err TransportError = (Err e : res response) ∧ log = []) ∨
  ∃ px j,
    let q := {| rq_method := "GET"; rq_url := "http://a"; rq_timeout := 30; rq_proxies := px;
                rq_headers := []; rq_params := []; rq_body := NoBody |} in
    proxies_for t "http://a" = Ok px ∧ 1 ≤ Z.of_nat j ≤ 3 ∧ log = [] ++ tries 1 q 0 j ∧
    ((Err TransportError = (Err TransportError : res response) ∧ Z.of_nat j = 3) ∨
     (∃ m, session_request q m = (Err TransportError, 3%nat)) ∧
     ∀ e, Err TransportError = (Err e : res response) → retried e = false).
Proof.
  intros t q log. apply (request_bounded 30 3 1 None false "GET" "http://a" None [] [] NoBody 0%nat []
                     (Err TransportError) 3%nat log). vm_compute. reflexivity.
Defined.
