(* ===== verification/HttpRelay.v ===== *)
(** * One relay over HTTP ([wire/backends/http_relay.py])

    Each operation is a request through the transport, the status of the answer
    mapped to an exception, and the answer's JSON read; [Client.RelayBackend] is the
    interface the pool of relays is written against. *)

From S2P Require Import Prelude PyStr Json Dict Primitives Encoding Backend Transport.

Record HttpRelayBackend := { base_url : string; transport : Transport }.
Definition new_backend (url : string) (t : Transport) : HttpRelayBackend :=
  {| base_url := rstrip_char "/" url; transport := t |}.

Definition url_of (b : HttpRelayBackend) (path : string) : string := base_url b +:+ "/api" +:+ path.

Definition raise_for_status (r : response) : res unit :=
  let status := status_code r in
  raise_if (400 <=? status) && (status =? 404) with RelayNotFound status ;;
  raise_if (400 <=? status) && ((status =? 401) || (status =? 403)) with RelayUnauthorized status ;;
  raise_if (400 <=? status) && (status =? 429) with RelayQuotaExceeded status ;;
  raise_if 400 <=? status with RelayHTTPError status ;;
  Ok tt.

(** A fetched message: [(int(m["seq"]), b64d(m["blob"]))]. *)
Definition row_of_json (m : json) : res (Z * bytes) :=
  let? s := (let? j := jitem "seq" m in to_int j) in
  let? b := (let? j := jitem "blob" m in b64d_json j) in
  Ok (s, b).

Section relay.
Context {N : Type} {Network : Net N}.

(** A request whose error statuses are raised. *)
Definition call (b : HttpRelayBackend) (method path : string) (headers : list (string * string))
    (params : list (string * Z)) (body : payload) : SE N response :=
  do! r := request (transport b) method (url_of b path) None headers params body in
  do! _ := se_lift (raise_for_status r) in
  se_ret r.

(** [if capability.read_token is None: raise RelayUnauthorized(401, ...)] *)
Definition need_read (c : MailboxCapability) : SE N string :=
  se_lift (of_option (RelayUnauthorized 401) (read_token c)).

Definition create_mailbox (b : HttpRelayBackend) (c : MailboxCapability) : SE N unit :=
  do! _ := call b "POST" "/mailbox" [] [] (JsonBody (JObj (to_json c))) in se_ret tt.

Definition put (b : HttpRelayBackend) (c : MailboxCapability) (envelope : bytes) : SE N Z :=
  do! r := call b "POST" ("/mailbox/" +:+ mailbox_id c +:+ "/messages")
             [("X-NK-Write", write_token c)]%string [] (Data envelope) in
  se_lift (let? j := response_json r in let? s := jitem "seq" j in to_int s).

Definition fetch (b : HttpRelayBackend) (c : MailboxCapability) (after_seq wait : Z)
    : SE N (list (Z * bytes)) :=
  do! token := need_read c in
  do! r := call b "GET" ("/mailbox/" +:+ mailbox_id c) [("X-NK-Read", token)]%string
             [("after_seq", after_seq); ("wait", wait)]%string NoBody in
  se_lift (let? j := response_json r in
           let? ms := (let? m := jget_def "messages" (JList []) j in iter_json m) in
           mapM row_of_json ms).

Definition ack (b : HttpRelayBackend) (c : MailboxCapability) (upto_seq : Z) : SE N Z :=
  do! token := need_read c in
  do! r := call b "POST" ("/mailbox/" +:+ mailbox_id c +:+ "/ack") [("X-NK-Read", token)]%string []
             (JsonBody (JObj [("upto_seq", JInt upto_seq)]%string)) in
  se_lift (let? j := response_json r in let? d := jget_def "deleted" (JInt 0) j in to_int d).

Definition delete_mailbox (b : HttpRelayBackend) (c : MailboxCapability) : SE N unit :=
  do! token := need_read c in
  do! _ := call b "DELETE" ("/mailbox/" +:+ mailbox_id c) [("X-NK-Read", token)]%string [] NoBody in
  se_ret tt.

Definition publish_bundle (b : HttpRelayBackend) (bundle_id : string) (bundle : bytes) : SE N string :=
  do! r := call b "POST" "/prekeys" [("Content-Type", "application/json")]%string [] (Data bundle) in
  se_lift (let? j := response_json r in let? id := jitem "bundle_id" j in Ok (to_pystr id)).

Definition fetch_bundle (b : HttpRelayBackend) (bundle_id : string) : SE N json :=
  do! r := call b "GET" ("/prekeys/" +:+ bundle_id) [] [] NoBody in
  se_lift (response_json r).

Definition put_blob (b : HttpRelayBackend) (c : MailboxCapability) (chunk_id : string) (chunk : bytes)
    : SE N string :=
  do! r := call b "POST" "/blob"
             [("X-NK-Write", write_token c); ("X-NK-Mailbox", mailbox_id c); ("X-NK-Chunk", chunk_id)]%string
             [] (Data chunk) in
  se_lift (let? j := response_json r in let? id := jitem "chunk_id" j in Ok (to_pystr id)).

Definition get_blob (b : HttpRelayBackend) (c : MailboxCapability) (chunk_id : string) : SE N bytes :=
  do! token := need_read c in
  do! r := call b "GET" ("/blob/" +:+ chunk_id)
             [("X-NK-Read", token); ("X-NK-Mailbox", mailbox_id c)]%string [] NoBody in
  se_ret (content r).

Definition health (b : HttpRelayBackend) : SE N json :=
  do! r := call b "GET" "/health" [] [] NoBody in
  se_lift (response_json r).
End relay.

(** ** Properties *)

Lemma raise_for_status_spec r :
  (raise_for_status r = Ok tt ↔ status_code r < 400) ∧
  (raise_for_status r = Err (RelayNotFound 404) ↔ status_code r = 404).
Proof.
  unfold raise_for_status. set (s := status_code r).
  destruct (Z.leb_spec 400 s), (Z.eqb_spec s 404), (Z.eqb_spec s 401), (Z.eqb_spec s 403), (Z.eqb_spec s 429);
    cbn [andb orb]; split; split; intros; try done; try lia; try congruence.
Qed.
