(* ===== verification/MultiRelay.v ===== *)
(** * A pool of relays ([wire/backends/multi_relay.py])

    Written against the interface [RelayBackend] (the protocol class of
    [wire/backends/base.py]), which [HttpRelay] implements.  Calls handed to the
    thread pool run in the order given by a schedule, each call as a whole; their
    results are read in the order of the relays. *)

From S2P Require Import Prelude PyStr Json Dict Primitives Encoding RelayUrls Backend Transport.
From S2P Require HttpRelay.

Class RelayBackend (N B : Type) := {
  base_url : B → string;
  create_mailbox : B → MailboxCapability → SE N unit;
  put : B → MailboxCapability → bytes → SE N Z;
  fetch : B → MailboxCapability → Z → Z → SE N (list (Z * bytes));
  ack : B → MailboxCapability → Z → SE N Z;
  delete_mailbox : B → MailboxCapability → SE N unit;
  publish_bundle : B → string → bytes → SE N string;
  fetch_bundle : B → string → SE N json;
  put_blob : B → MailboxCapability → string → bytes → SE N string;
  get_blob : B → MailboxCapability → string → SE N bytes
}.

#[export] Instance http_backend {N} `{Net N} : RelayBackend N HttpRelay.HttpRelayBackend := {
  base_url := HttpRelay.base_url;
  create_mailbox := HttpRelay.create_mailbox;
  put := HttpRelay.put;
  fetch := HttpRelay.fetch;
  ack := HttpRelay.ack;
  delete_mailbox := HttpRelay.delete_mailbox;
  publish_bundle := HttpRelay.publish_bundle;
  fetch_bundle := HttpRelay.fetch_bundle;
  put_blob := HttpRelay.put_blob;
  get_blob := HttpRelay.get_blob
}.

(** [MultiRelayBackend(urls, transport).relays]. *)
Definition new_relays (urls : list string) (t : Transport) : res (list HttpRelay.HttpRelayBackend) :=
  match map (λ u, HttpRelay.new_backend u t) (normalize_relay_urls urls) with
  | [] => Err ValueError
  | relays => Ok relays
  end.

(** The relays of a pool have different base URLs. *)
Lemma new_relays_distinct urls t rs :
  new_relays urls t = Ok rs → NoDup (map HttpRelay.base_url rs) ∧ rs ≠ [].
Proof.
  unfold new_relays. intros E. assert (rs = map (λ u, HttpRelay.new_backend u t) (normalize_relay_urls urls)) as ->.
  { by destruct (map _ _); [done|injection E as <-]. }
  split; [|by intros H; rewrite H in E]. rewrite map_map. cbn [HttpRelay.base_url HttpRelay.new_backend].
  rewrite (map_ext_in _ id), map_id; [apply normalize_NoDup|].
  intros u Hu%list_elem_of_In. apply normalize_elem in Hu as (_ & url & _ & <-). apply clean_url_rstrip.
Qed.

(** ** The thread pool *)

Section pool.
Context {N A : Type}.

Fixpoint run_pool (calls : list (SE N A)) (sched : list nat) (futures : gmap nat (res A)) (s : N)
    : gmap nat (res A) * N :=
  match sched with
  | [] => (futures, s)
  | i :: sched' =>
      match calls !! i with
      | Some c => let '(r, s') := c s in run_pool calls sched' (<[i := r]> futures) s'
      | None => run_pool calls sched' futures s
      end
  end.

(** The results of the calls, in order; a call never scheduled never returns. *)
Definition submit_all (sched : list nat) (calls : list (SE N A)) (s : N) : list (res A) * N :=
  let '(futures, s') := run_pool calls sched ∅ s in
  (map (λ i, default (Err OutOfFuel) (futures !! i)) (seq 0 (length calls)), s').

(** A plain loop over the relays, exceptions caught. *)
Fixpoint run_each (calls : list (SE N A)) (s : N) : list (res A) * N :=
  match calls with
  | [] => ([], s)
  | c :: calls' => let '(r, s1) := c s in let '(rs, s2) := run_each calls' s1 in (r :: rs, s2)
  end.

(** The first relay that answers; its exceptions are dropped. *)
Fixpoint first_answer (calls : list (SE N A)) : SE N A :=
  match calls with
  | [] => se_raise (RelayNotFound 404)
  | c :: calls' => λ s,
      match c s with
      | (Ok a, s') => (Ok a, s')
      | (Err e, s') => if isa_Exception e then first_answer calls' s' else (Err e, s')
      end
  end.
End pool.

(** [succeeded] and [last_error] after the loop; exceptions of class [skip] are
    passed over. *)
Fixpoint tally {A} (skip : exn → bool) (rs : list (res A)) (succeeded : Z) (last_error : option exn)
    : res (Z * option exn) :=
  match rs with
  | [] => Ok (succeeded, last_error)
  | Ok _ :: rs' => tally skip rs' (succeeded + 1) last_error
  | Err e :: rs' =>
      if skip e then tally skip rs' succeeded last_error
      else if isa_Exception e then tally skip rs' succeeded (Some e)
      else Err e
  end.

Definition never (e : exn) : bool := false.
Definition not_found (e : exn) : bool := match e with RelayNotFound _ => true | _ => false end.

(** ** Operations *)

Section multi.
Context {N B : Type} {Backend : RelayBackend N B}.

(** [if succeeded == 0: raise AllRelaysFailed]. *)
Definition require_one {A} (rs : list (res A)) : res unit :=
  let? (n, _) := tally never rs 0 None in
  raise_if n =? 0 with AllRelaysFailed ;; Ok tt.

Definition register_mailbox (sched : list nat) (relays : list B) (c : MailboxCapability)
    : SE N MailboxCapability := λ s,
  let '(rs, s') := submit_all sched (map (λ b, create_mailbox b c) relays) s in
  (let? _ := require_one rs in Ok c, s').

(** [create_mailbox], from the random bytes it draws. *)
Definition create_new_mailbox (sched : list nat) (relays : list B) (id w r : bytes)
    : SE N MailboxCapability := register_mailbox sched relays (generate id w r).

Definition put_result {A} (rs : list (res A)) : res unit :=
  let? (n, last_error) := tally not_found rs 0 None in
  if n =? 0 then
    match last_error with
    | Some _ => Err AllRelaysFailed
    | None => Err (RelayNotFound 404)
    end
  else Ok tt.
Definition put_all (sched : list nat) (relays : list B) (c : MailboxCapability) (envelope : bytes)
    : SE N unit := λ s,
  let '(rs, s') := submit_all sched (map (λ b, put b c envelope) relays) s in
  (put_result rs, s').

(** The messages of one relay's answer; a failed relay gives none. *)
Definition collected (b : B) (r : res (list (Z * bytes))) : res (list FetchedMessage) :=
  match r with
  | Ok rows => Ok (map (λ row, {| fm_relay := base_url b; fm_seq := row.1; fm_blob := row.2 |}) rows)
  | Err e => if isa_Exception e then Ok [] else Err e
  end.
Definition fetch_all (sched : list nat) (relays : list B) (c : MailboxCapability)
    (cursors : gmap string Z) (wait : Z) : SE N (list FetchedMessage) := λ s,
  let '(rs, s') := submit_all sched
    (map (λ b, fetch b c (default 0 (cursors !! base_url b)) wait) relays) s in
  (let? ls := mapM (λ p, collected p.1 p.2) (zip relays rs) in Ok (concat ls), s').

Definition has_cursor (cursors : gmap string Z) (b : B) : bool :=
  match cursors !! base_url b with Some _ => true | None => false end.
Definition ack_all (sched : list nat) (relays : list B) (c : MailboxCapability)
    (cursors : gmap string Z) : SE N unit := λ s,
  let '(rs, s') := submit_all sched
    (map (λ b, ack b c (default 0 (cursors !! base_url b))) (List.filter (has_cursor cursors) relays)) s in
  (let? _ := tally never rs 0 None in Ok tt, s').

Definition delete_all (relays : list B) (c : MailboxCapability) : SE N unit := λ s,
  let '(rs, s') := run_each (map (λ b, delete_mailbox b c) relays) s in
  (let? _ := tally never rs 0 None in Ok tt, s').

Definition publish_all (relays : list B) (bundle_id : string) (bundle : bytes) : SE N string := λ s,
  let '(rs, s') := run_each (map (λ b, publish_bundle b bundle_id bundle) relays) s in
  (let? _ := require_one rs in Ok bundle_id, s').

Definition fetch_any_bundle (relays : list B) (bundle_id : string) : SE N json :=
  first_answer (map (λ b, fetch_bundle b bundle_id) relays).

Definition put_blob_all (relays : list B) (c : MailboxCapability) (fresh chunk : bytes) : SE N string := λ s,
  let chunk_id := b64e fresh in
  let '(rs, s') := run_each (map (λ b, put_blob b c chunk_id chunk) relays) s in
  (let? _ := require_one rs in Ok chunk_id, s').

Definition get_any_blob (relays : list B) (c : MailboxCapability) (chunk_id : string) : SE N bytes :=
  first_answer (map (λ b, get_blob b c chunk_id) relays).
End multi.

(** ** The pool runs every call once *)

Section pool_spec.
Context {N A : Type}.

Lemma run_pool_frame (calls : list (SE N A)) sched : ∀ f s i,
  i ∉ sched → (run_pool calls sched f s).1 !! i = f !! i.
Proof.
  induction sched as [|j sched IH]; intros f s i Hi; cbn [run_pool]; [done|].
  apply not_elem_of_cons in Hi as [Hne Hi].
  destruct (calls !! j) as [c|]; [|by apply IH]. destruct (c s) as [r s'].
  rewrite IH by done. by rewrite lookup_insert_ne.
Qed.

(** What a call that was run returned, in the state it was run in; facts that every
    call keeps hold there. *)
Lemma run_pool_result (P : N → Prop) (calls : list (SE N A)) sched : ∀ f s i c,
  NoDup sched → i ∈ sched → calls !! i = Some c →
  (∀ d s, d ∈ calls → P s → P (d s).2) → P s →
  ∃ s1, P s1 ∧ (run_pool calls sched f s).1 !! i = Some (c s1).1.
Proof.
  induction sched as [|j sched IH]; intros f s i c Hnd Hi Hc Hk HP; [by apply not_elem_of_nil in Hi|].
  apply NoDup_cons in Hnd as [Hj Hnd]. cbn [run_pool].
  apply elem_of_cons in Hi as [->|Hi].
  - rewrite Hc. destruct (c s) as [r s'] eqn:E. exists s. split; [done|]. rewrite run_pool_frame by done.
    by rewrite lookup_insert_eq, E.
  - destruct (calls !! j) as [d|] eqn:Ej; [|by apply IH].
    pose proof (Hk d s (list_elem_of_lookup_2 _ _ _ Ej) HP) as HP'. destruct (d s) as [r s']. by apply IH.
Qed.

Lemma submit_all_length sched (calls : list (SE N A)) s : length (submit_all sched calls s).1 = length calls.
Proof. unfold submit_all. destruct (run_pool _ _ _ _). cbn. by rewrite length_map, length_seq. Qed.

Lemma submit_all_lookup (P : N → Prop) sched (calls : list (SE N A)) s i c :
  sched ≡ₚ seq 0 (length calls) → calls !! i = Some c →
  (∀ d s, d ∈ calls → P s → P (d s).2) → P s →
  ∃ s1, P s1 ∧ (submit_all sched calls s).1 !! i = Some (c s1).1.
Proof.
  intros Hs Hc Hk HP. pose proof (lookup_lt_Some _ _ _ Hc) as Hi.
  assert (NoDup sched) as Hnd by (rewrite Hs; apply NoDup_seq).
  assert (i ∈ sched) as Hin by (rewrite Hs; apply elem_of_seq; split; [lia | exact Hi]).
  destruct (run_pool_result P calls sched ∅ s i c Hnd Hin Hc Hk HP) as (s1 & HP1 & E).
  exists s1. split; [done|].
  unfold submit_all. destruct (run_pool _ _ _ _) as [f s']. cbn [fst] in *.
  rewrite list_lookup_fmap, lookup_seq_lt by exact Hi. cbn. by rewrite E.
Qed.

(** An invariant that every call keeps is kept by the pool. *)
Lemma run_pool_inv (P : N → Prop) (calls : list (SE N A)) sched : ∀ f s,
  (∀ c s, c ∈ calls → P s → P (c s).2) → P s → P (run_pool calls sched f s).2.
Proof.
  induction sched as [|j sched IH]; intros f s Hc HP; cbn [run_pool]; [done|].
  destruct (calls !! j) as [c|] eqn:E; [|by apply IH].
  pose proof (Hc c s (list_elem_of_lookup_2 _ _ _ E) HP) as H. destruct (c s). by apply IH.
Qed.
Lemma submit_all_inv (P : N → Prop) sched (calls : list (SE N A)) s :
  (∀ c s, c ∈ calls → P s → P (c s).2) → P s → P (submit_all sched calls s).2.
Proof.
  intros Hc HP. unfold submit_all. pose proof (run_pool_inv P calls sched ∅ s Hc HP) as H.
  by destruct (run_pool _ _ _ _).
Qed.

(** A monotone fact one of the calls establishes holds in the end. *)
Lemma run_pool_establish (I P : N → Prop) (calls : list (SE N A)) sched : ∀ f s i c,
  NoDup sched → i ∈ sched → calls !! i = Some c →
  (∀ d s, d ∈ calls → I s → I (d s).2) → (∀ d s, d ∈ calls → P s → P (d s).2) → I s →
  ∃ s1, I s1 ∧ (run_pool calls sched f s).1 !! i = Some (c s1).1 ∧
        (P (c s1).2 → P (run_pool calls sched f s).2).
Proof.
  induction sched as [|j sched IH]; intros f s i c Hnd Hi Hc HI Hk HIs; [by apply not_elem_of_nil in Hi|].
  apply NoDup_cons in Hnd as [Hj Hnd]. cbn [run_pool]. apply elem_of_cons in Hi as [->|Hi].
  - rewrite Hc. destruct (c s) as [r s'] eqn:E. exists s. rewrite E. split_and!; [done| |].
    + rewrite run_pool_frame by done. by rewrite lookup_insert_eq.
    + intros HP. by apply run_pool_inv.
  - destruct (calls !! j) as [d|] eqn:Ej; [|by apply IH].
    pose proof (HI d s (list_elem_of_lookup_2 _ _ _ Ej) HIs) as HI'. destruct (d s) as [r s']. by apply IH.
Qed.

(** Calls that do not interfere. *)
Definition commute (c d : SE N A) : Prop := ∀ s,
  (c s).1 = (c (d s).2).1 ∧ (d (c s).2).1 = (d s).1 ∧ (d (c s).2).2 = (c (d s).2).2.

Lemma run_pool_perm (calls : list (SE N A)) sched sched' :
  (∀ i j c d, i ≠ j → calls !! i = Some c → calls !! j = Some d → commute c d) →
  sched ≡ₚ sched' → NoDup sched → ∀ f s, run_pool calls sched f s = run_pool calls sched' f s.
Proof.
  intros Hc. induction 1 as [|x l l' _ IH|x y l|l1 l2 l3 H12 IH1 _ IH2]; intros Hnd f s; cbn [run_pool].
  - done.
  - apply NoDup_cons in Hnd as [_ Hnd].
    destruct (calls !! x) as [c|]; [|by apply IH]. destruct (c s). by apply IH.
  - assert (x ≠ y) as Hne by (apply NoDup_cons in Hnd as [H _]; set_solver).
    destruct (calls !! x) as [c|] eqn:Ex, (calls !! y) as [d|] eqn:Ey; try done.
    destruct (Hc x y c d Hne Ex Ey s) as (H1 & H2 & H3).
    destruct (d s) as [rd sd] eqn:Ed, (c s) as [rc sc] eqn:Ec. cbn [fst snd] in *.
    destruct (c sd) as [rc' s1] eqn:Ec', (d sc) as [rd' s2] eqn:Ed'. cbn [fst snd] in *. subst.
    by rewrite insert_insert_ne.
  - rewrite IH1 by done. apply IH2. by rewrite <-H12.
Qed.
End pool_spec.

(** ** Counting answers *)

Definition is_ok {A} (r : res A) : bool := match r with Ok _ => true | Err _ => false end.
(** The program's own exceptions: what its [except Exception] clauses see. *)
Definition proper {A} (r : res A) : Prop := ∀ e, r = Err e → isa_Exception e = true.

Lemma tally_spec {A} skip (rs : list (res A)) : ∀ n le, Forall proper rs →
  ∃ le', tally skip rs n le = Ok (n + Z.of_nat (length (List.filter is_ok rs)), le') ∧
    (le' = None ↔ le = None ∧ ∀ e, Err e ∈ rs → skip e = true).
Proof.
  induction rs as [|[a|e] rs IH]; intros n le Hp; cbn [tally List.filter is_ok].
  - exists le. split; [f_equal; f_equal; cbn; lia|].
    split; [intros ->; split; [done|]; by intros e ?%not_elem_of_nil | by intros [-> _]].
  - apply Forall_cons in Hp as [_ Hp]. destruct (IH (n + 1) le Hp) as (le' & -> & H). exists le'.
    split; [f_equal; f_equal; cbn [length]; lia|]. rewrite H. split; intros [? H']; split; try done;
      intros e He; apply H'; set_solver.
  - apply Forall_cons in Hp as [He Hp]. destruct (skip e) eqn:Es.
    + destruct (IH n le Hp) as (le' & -> & H). exists le'. split; [done|]. rewrite H.
      split; intros [? H']; split; try done; intros e' He'; [|apply H'; set_solver].
      apply elem_of_cons in He' as [[= ->]|He']; auto.
    + rewrite (He e eq_refl). destruct (IH n (Some e) Hp) as (le' & -> & H). exists le'.
      split; [done|]. rewrite H. split; [by intros [? _]|]. intros [_ H'].
      rewrite (H' e) in Es by set_solver. done.
Qed.

Lemma no_ok_filter {A} (rs : list (res A)) :
  Z.of_nat (length (List.filter is_ok rs)) = 0 ↔ ∀ a, Ok a ∉ rs.
Proof.
  induction rs as [|[a|e] rs IH]; cbn [List.filter is_ok length].
  - split; [intros _ a; apply not_elem_of_nil | done].
  - split; [lia|]. intros H. destruct (H a). by left.
  - rewrite IH. split; intros H a; specialize (H a); set_solver.
Qed.

Lemma put_result_spec {A} (rs : list (res A)) :
  Forall proper rs →
  (put_result rs = Ok tt ↔ ∃ a, Ok a ∈ rs) ∧
  (put_result rs = Err (RelayNotFound 404) ↔ ∀ r, r ∈ rs → ∃ st, r = Err (RelayNotFound st)) ∧
  (put_result rs = Ok tt ∨ put_result rs = Err (RelayNotFound 404) ∨ put_result rs = Err AllRelaysFailed).
Proof.
  intros Hp. unfold put_result. destruct (tally_spec not_found rs 0 None Hp) as (le & -> & Hle).
  cbn [res_bind]. rewrite Z.add_0_l. pose proof (no_ok_filter rs) as Hn.
  destruct (Z.eqb_spec (Z.of_nat (length (List.filter is_ok rs))) 0) as [E|E].
  - pose proof (proj1 Hn E) as E0. clear E. rename E0 into E. split; [|split].
    + split; [by destruct le|]. intros [a Ha]. by destruct (E a).
    + destruct le as [e|].
      * split; [done|]. intros H. assert (Some e = None); [|done]. apply Hle. split; [done|].
        intros e' He'. apply H in He' as [st [= ->]]. done.
      * split; [|done]. intros _ r Hr. destruct (proj1 Hle eq_refl) as [_ H].
        destruct r as [a|e]; [by destruct (E a)|]. apply H in Hr. destruct e; try done. by eexists.
    + destruct le; auto.
  - split; [|split].
    + split; [|done]. intros _. destruct (List.filter is_ok rs) as [|r l] eqn:Ef; [done|].
      assert (In r rs ∧ is_ok r = true) as [Hr Ho].
      { rewrite <-filter_In, Ef. by left. }
      destruct r as [a|]; [|done]. exists a. by apply list_elem_of_In.
    + split; [done|]. intros H. exfalso. apply E, (proj2 Hn). intros a Ha. by apply H in Ha as [? [=]].
    + by left.
Qed.

Lemma require_one_spec {A} (rs : list (res A)) :
  Forall proper rs →
  require_one rs = if existsb is_ok rs then Ok tt else Err AllRelaysFailed.
Proof.
  intros Hp. unfold require_one. destruct (tally_spec never rs 0 None Hp) as (le & -> & _).
  cbn [res_bind]. rewrite Z.add_0_l. clear Hp.
  replace (Z.of_nat (length (List.filter is_ok rs)) =? 0) with (negb (existsb is_ok rs)); [by destruct (existsb _ _)|].
  induction rs as [|[a|e] rs IH]; cbn [existsb List.filter is_ok length orb]; [done| |done].
  symmetry. apply Z.eqb_neq. lia.
Qed.

(** ** What a relay promises *)

(** The contract of a backend, on the states that are [lawful] and for the relays that
    serve the capability: [stored s b c] are the messages relay [b] holds in the mailbox
    of [c], with their numbers.  A successful [put] stores the message under the number
    it returns, no operation here loses messages, failures are exceptions the client
    catches, and [fetch] returns at least every message of the first [page] numbers
    after the cursor. *)
Class RelayContract (N B : Type) {Backend : RelayBackend N B} := {
  lawful : N → Prop;
  serves : B → MailboxCapability → Prop;
  stored : N → B → MailboxCapability → list (Z * bytes);
  page : Z;
  put_lawful b c e s : lawful s → lawful (put b c e s).2;
  fetch_lawful b c a w s : lawful s → lawful (fetch b c a w s).2;
  put_proper b c e s : lawful s → serves b c → proper (put b c e s).1;
  fetch_proper b c a w s : lawful s → serves b c → proper (fetch b c a w s).1;
  put_stores b c e s n s' :
    lawful s → serves b c → put b c e s = (Ok n, s') → (n, e) ∈ stored s' b c;
  put_keeps b c e s b' c' x : lawful s → x ∈ stored s b' c' → x ∈ stored (put b c e s).2 b' c';
  fetch_keeps b c a w s b' c' x :
    lawful s → x ∈ stored s b' c' → x ∈ stored (fetch b c a w s).2 b' c';
  fetch_page b c a w s rows s' x :
    lawful s → serves b c → fetch b c a w s = (Ok rows, s') → x ∈ stored s b c →
    a < x.1 ≤ a + page → x ∈ rows
}.

Section contract.
Context {N B : Type} {Backend : RelayBackend N B} {Contract : RelayContract N B}.

(** Relay [b], holding the message, was asked for it and failed to answer. *)
Definition failed (b : B) (c : MailboxCapability) (cursor w n : Z) (e : bytes) : Prop :=
  ∃ s err, lawful s ∧ (n, e) ∈ stored s b c ∧ (fetch b c cursor w s).1 = Err err.

(** The results of one operation on every relay. *)
Lemma submit_relays {A} (P : N → Prop) (op : B → SE N A) sched (relays : list B) s :
  sched ≡ₚ seq 0 (length relays) →
  (∀ b s, P s → P (op b s).2) → P s →
  length (submit_all sched (map op relays) s).1 = length relays ∧
  P (submit_all sched (map op relays) s).2 ∧
  ∀ i b, relays !! i = Some b →
    ∃ s1, P s1 ∧ (submit_all sched (map op relays) s).1 !! i = Some (op b s1).1.
Proof using.
  intros Hs Hk HP. assert (∀ d s, d ∈ map op relays → P s → P (d s).2) as Hk'.
  { intros d s0 (b & -> & _)%list_elem_of_fmap. apply Hk. }
  split_and!; [by rewrite submit_all_length, length_map | by apply submit_all_inv |].
  intros i b Hb. apply submit_all_lookup; [by rewrite length_map| |done..].
  by rewrite list_lookup_fmap, Hb.
Qed.

Lemma submit_relays_proper {A} (P : N → Prop) (op : B → SE N A) sched (relays : list B) s :
  sched ≡ₚ seq 0 (length relays) → (∀ b s, P s → P (op b s).2) → P s →
  (∀ b s, b ∈ relays → P s → proper (op b s).1) →
  Forall proper (submit_all sched (map op relays) s).1.
Proof using.
  intros Hs Hk HP Hp. destruct (submit_relays P op sched relays s Hs Hk HP) as (Hl & _ & Hr).
  apply Forall_lookup. intros i r Hi. pose proof (lookup_lt_Some _ _ _ Hi) as Hlt. rewrite Hl in Hlt.
  apply lookup_lt_is_Some in Hlt as [b Hb]. destruct (Hr i b Hb) as (s1 & HP1 & E).
  rewrite Hi in E. injection E as ->. apply Hp; [by eapply list_elem_of_lookup_2|done].
Qed.

(** The end of a run of the pool: what was established on the way still holds. *)
Lemma put_all_stores sched relays c e s s' :
  sched ≡ₚ seq 0 (length relays) → lawful s → (∀ b, b ∈ relays → serves b c) →
  put_all sched relays c e s = (Ok tt, s') →
  lawful s' ∧ ∃ b n, b ∈ relays ∧ (n, e) ∈ stored s' b c.
Proof.
  intros Hs Hl Hsv E. unfold put_all in E. set (calls := map (λ b, put b c e) relays) in *.
  pose proof (submit_relays_proper lawful (λ b, put b c e) sched relays s Hs
                ltac:(intros; by apply put_lawful) Hl ltac:(intros; apply put_proper; auto)) as Hprop.
  fold calls in Hprop.
  assert (lawful (submit_all sched calls s).2) as Hl'.
  { apply submit_all_inv; [|done]. intros d s0 (b & -> & _)%list_elem_of_fmap. by apply put_lawful. }
  destruct (submit_all sched calls s) as [rs s2] eqn:Es. injection E as Er <-. cbn [fst snd] in *.
  split; [done|].
  apply (put_result_spec rs Hprop) in Er as [n Hn]. apply list_elem_of_lookup_1 in Hn as [i Hi].
  assert (length rs = length calls) as Hlen by (rewrite <-(submit_all_length sched calls s), Es; done).
  pose proof (lookup_lt_Some _ _ _ Hi) as Hlt. rewrite Hlen in Hlt. unfold calls in Hlt.
  rewrite length_map in Hlt. apply lookup_lt_is_Some in Hlt as [b Hb].
  assert (b ∈ relays) as Hbin by by eapply list_elem_of_lookup_2.
  exists b, n. split; [done|].
  assert (calls !! i = Some (put b c e)) as Hc by (unfold calls; by rewrite list_lookup_fmap, Hb).
  assert (NoDup sched) as Hnd by (rewrite Hs; apply NoDup_seq).
  assert (i ∈ sched) as Hin.
  { rewrite Hs. apply elem_of_seq. split; [lia|]. cbn. by eapply lookup_lt_Some. }
  destruct (run_pool_establish lawful (λ s, lawful s ∧ (n, e) ∈ stored s b c) calls sched ∅ s i (put b c e) Hnd Hin Hc)
    as (s1 & Hl1 & H1 & H2); [| |done|].
  { intros d s0 Hd Hx. apply list_elem_of_fmap in Hd as (b' & -> & _). by apply put_lawful. }
  { intros d s0 Hd [Hx Hy]. apply list_elem_of_fmap in Hd as (b' & -> & _).
    split; [by apply put_lawful|by apply put_keeps]. }
  unfold submit_all in Es. destruct (run_pool calls sched ∅ s) as [f s3] eqn:Ef.
  injection Es as <- <-. cbn [fst snd] in *. apply H2.
  assert (Some (Ok n) = f !! i) as Hf.
  { rewrite list_lookup_fmap in Hi. destruct (seq _ _ !! i) as [i'|] eqn:Ei; [|done].
    apply lookup_seq in Ei as [-> _]. cbn in Hi. destruct (f !! i); cbn in Hi; [by injection Hi as ->|done]. }
  rewrite H1 in Hf. pose proof (put_lawful b c e s1 Hl1) as Hl2.
  destruct (put b c e s1) as [r0 s0] eqn:Ep. injection Hf as <-.
  split; [done|]. by eapply put_stores; [| |exact Ep]; auto.
Qed.

(** Collecting never fails, and keeps the messages of every relay that answered. *)
Lemma collect_spec (relays : list B) rs :
  Forall proper rs →
  ∃ ls, mapM (λ p, collected p.1 p.2) (zip relays rs) = Ok ls ∧
    ∀ i b rows row, relays !! i = Some b → rs !! i = Some (Ok rows) → row ∈ rows →
      {| fm_relay := base_url b; fm_seq := row.1; fm_blob := row.2 |} ∈ concat ls.
Proof using.
  revert rs. induction relays as [|b relays IH]; intros [|r rs] Hp; cbn [zip zip_with mapM].
  1-3: exists []; split; [done|]; intros i ? ? ? H1 H2; rewrite ?lookup_nil in *; done.
  apply Forall_cons in Hp as [Hr Hp]. destruct (IH rs Hp) as (ls & E & H). cbn [fst snd].
  assert (∃ l, collected b r = Ok l ∧ ∀ rows row, r = Ok rows → row ∈ rows →
     {| fm_relay := base_url b; fm_seq := row.1; fm_blob := row.2 |} ∈ l) as (l & -> & Hl).
  { unfold collected. destruct r as [rows|e]; [|exists []; rewrite (Hr e eq_refl); split; [done|]; by intros ? ? [=]].
    eexists. split; [done|]. intros ? row [= <-] Hrow. apply list_elem_of_fmap. eauto. }
  cbn [res_bind] in *. rewrite E. exists (l :: ls). split; [done|].
  intros [|i] b0 rows row Hb Hrs Hrow; cbn [concat]; apply elem_of_app.
  - left. injection Hb as ->. injection Hrs as ->. by eapply Hl.
  - right. by eapply H.
Qed.

(** A fetch succeeds, loses nothing, and finds a stored message on a relay that answers. *)
Lemma fetch_all_finds sched relays c e s cursors w b n :
  sched ≡ₚ seq 0 (length relays) → lawful s → (∀ b, b ∈ relays → serves b c) →
  b ∈ relays → (n, e) ∈ stored s b c →
  ∃ msgs s', fetch_all sched relays c cursors w s = (Ok msgs, s') ∧ lawful s' ∧ (n, e) ∈ stored s' b c ∧
    let cursor := default 0 (cursors !! base_url b) in
    (cursor < n ≤ cursor + page →
     {| fm_relay := base_url b; fm_seq := n; fm_blob := e |} ∈ msgs ∨ failed b c cursor w n e).
Proof.
  intros Hs Hl Hsv Hb Hn. set (op := λ b, fetch b c (default 0 (cursors !! base_url b)) w).
  destruct (submit_relays (λ s, lawful s ∧ (n, e) ∈ stored s b c) op sched relays s Hs) as (Hlen & [Hl2 H2] & Hr);
    [intros b' s0 [Hx Hy]; split; [by apply fetch_lawful|by apply fetch_keeps] | done |].
  pose proof (submit_relays_proper lawful op sched relays s Hs ltac:(intros; by apply fetch_lawful) Hl
                ltac:(intros; apply fetch_proper; auto)) as Hprop.
  unfold fetch_all. fold op. destruct (submit_all sched (map op relays) s) as [rs s2]. cbn [fst snd] in *.
  destruct (collect_spec relays rs Hprop) as (ls & -> & Hls). cbn [res_bind].
  exists (concat ls), s2. split_and!; [reflexivity | exact Hl2 | exact H2 |]. intros Hc.
  set (cursor := default 0 (cursors !! base_url b)) in *.
  pose proof Hb as Hb'. apply list_elem_of_lookup_1 in Hb' as [i Hi]. destruct (Hr i b Hi) as (s0 & [Hl0 Hst] & Hrs).
  unfold op in Hrs. fold cursor in Hrs.
  destruct (fetch b c cursor w s0) as [[rows|err] s3] eqn:Ef; [left|right; exists s0, err; by rewrite Ef].
  apply (Hls i b rows (n, e) Hi Hrs).
  by eapply fetch_page; [| |exact Ef|..]; auto.
Qed.

(** The relay set, not the relay, is what a message depends on.  Whatever the order
    in which the pool runs its calls: when [put] reports success some relay holds the
    message; [fetch] then succeeds even if other relays fail, loses nothing, and
    returns the message, tagged with its relay and number, when the number is within a
    page of the cursor, unless that very relay failed to answer. *)
Theorem replicated_delivery sched sched' relays c e s s1 cursors w :
  sched ≡ₚ seq 0 (length relays) → sched' ≡ₚ seq 0 (length relays) →
  lawful s → (∀ b, b ∈ relays → serves b c) →
  put_all sched relays c e s = (Ok tt, s1) →
  ∃ b n msgs s2,
    b ∈ relays ∧ (n, e) ∈ stored s1 b c ∧
    fetch_all sched' relays c cursors w s1 = (Ok msgs, s2) ∧ (n, e) ∈ stored s2 b c ∧
    let cursor := default 0 (cursors !! base_url b) in
    (cursor < n ≤ cursor + page →
     {| fm_relay := base_url b; fm_seq := n; fm_blob := e |} ∈ msgs ∨ failed b c cursor w n e).
Proof.
  intros Hs Hs' Hl Hsv E. destruct (put_all_stores sched relays c e s s1 Hs Hl Hsv E) as (Hl1 & b & n & Hb & Hn).
  destruct (fetch_all_finds sched' relays c e s1 cursors w b n Hs' Hl1 Hsv Hb Hn) as (msgs & s2 & E2 & _ & H2 & H).
  by exists b, n, msgs, s2.
Qed.
End contract.

(** ** Schedules *)

Section schedules.
Context {N B : Type} {Backend : RelayBackend N B}.

(** Different relays are different machines: calls to two of them do not interfere. *)
Definition independent {A} (op : B → SE N A) (relays : list B) : Prop :=
  ∀ i j b b', i ≠ j → relays !! i = Some b → relays !! j = Some b' → commute (op b) (op b').

Lemma submit_all_perm {A} (op : B → SE N A) relays sched sched' s :
  independent op relays → sched ≡ₚ sched' → NoDup sched →
  submit_all sched (map op relays) s = submit_all sched' (map op relays) s.
Proof using.
  intros Hi Hp Hnd. unfold submit_all. rewrite (run_pool_perm _ sched sched'); [done| |done..].
  intros i j c d Hne Hc Hd. rewrite list_lookup_fmap in Hc, Hd.
  destruct (relays !! i) as [b|] eqn:Eb; [|done]. destruct (relays !! j) as [b'|] eqn:Eb'; [|done].
  injection Hc as <-. injection Hd as <-. by apply (Hi i j).
Qed.

(** The thread pool does not matter.  When calls to different relays do not
    interfere, registering, writing and fetching give the same result and leave the
    relays in the same state whatever the order in which the calls run. *)
Theorem schedule_irrelevant sched sched' relays c e cursors w s :
  sched ≡ₚ sched' → NoDup sched →
  independent (λ b, create_mailbox b c) relays → independent (λ b, put b c e) relays →
  independent (λ b, fetch b c (default 0 (cursors !! base_url b)) w) relays →
  register_mailbox sched relays c s = register_mailbox sched' relays c s ∧
  put_all sched relays c e s = put_all sched' relays c e s ∧
  fetch_all sched relays c cursors w s = fetch_all sched' relays c cursors w s.
Proof using.
  intros Hp Hnd H1 H2 H3. unfold register_mailbox, put_all, fetch_all.
  by rewrite (submit_all_perm _ relays sched sched' s H1 Hp Hnd),
    (submit_all_perm _ relays sched sched' s H2 Hp Hnd),
    (submit_all_perm _ relays sched sched' s H3 Hp Hnd).
Qed.

(** The relays tried before the one that answered. *)
Inductive all_fail {A} : list (SE N A) → N → N → Prop :=
| af_nil s : all_fail [] s s
| af_cons c calls s e s1 s2 :
    c s = (Err e, s1) → all_fail calls s1 s2 → all_fail (c :: calls) s s2.

Lemma first_answer_spec {A} (calls : list (SE N A)) : ∀ s r s',
  (∀ c s, c ∈ calls → proper (c s).1) → first_answer calls s = (r, s') →
  (∃ before c after s1 a, calls = before ++ c :: after ∧ all_fail before s s1 ∧
     c s1 = (Ok a, s') ∧ r = Ok a) ∨
  (all_fail calls s s' ∧ r = Err (RelayNotFound 404)).
Proof using.
  induction calls as [|c calls IH]; intros s r s' Hp E; cbn [first_answer] in E.
  - injection E as <- <-. right. split; [constructor|done].
  - pose proof (Hp c s ltac:(by left)) as Hc. destruct (c s) as [[a|e] s1] eqn:Ec.
    + injection E as <- <-. left. exists [], c, calls, s, a. split_and!; [done|constructor|done|done].
    + rewrite (Hc e eq_refl) in E. apply IH in E as [(bef & d & aft & s2 & a & -> & Hf & Hd & ->)|[Hf ->]].
      * left. exists (c :: bef), d, aft, s2, a. split_and!; [done| |done..]. by econstructor.
      * right. split; [|done]. by econstructor.
      * intros. apply Hp. by right.
Qed.

(** Reads fail over.  A bundle or blob is the answer of the first relay that gives
    one, in the order of the relays, the ones after it not being asked; the read
    fails, as not found, only when every relay failed. *)
Theorem reads_fail_over relays bid c chunk s :
  (∀ b s, proper (fetch_bundle b bid s).1) → (∀ b s, proper (get_blob b c chunk s).1) →
  (∀ r s', fetch_any_bundle relays bid s = (r, s') →
    (∃ before b after s1 j, relays = before ++ b :: after ∧
       all_fail (map (λ b, fetch_bundle b bid) before) s s1 ∧
       fetch_bundle b bid s1 = (Ok j, s') ∧ r = Ok j) ∨
    (all_fail (map (λ b, fetch_bundle b bid) relays) s s' ∧ r = Err (RelayNotFound 404))) ∧
  (∀ r s', get_any_blob relays c chunk s = (r, s') →
    (∃ before b after s1 data, relays = before ++ b :: after ∧
       all_fail (map (λ b, get_blob b c chunk) before) s s1 ∧
       get_blob b c chunk s1 = (Ok data, s') ∧ r = Ok data) ∨
    (all_fail (map (λ b, get_blob b c chunk) relays) s s' ∧ r = Err (RelayNotFound 404))).
Proof using.
  assert (∀ A (op : B → SE N A) r s', (∀ b s, proper (op b s).1) → first_answer (map op relays) s = (r, s') →
    (∃ before b after s1 a, relays = before ++ b :: after ∧ all_fail (map op before) s s1 ∧
       op b s1 = (Ok a, s') ∧ r = Ok a) ∨ (all_fail (map op relays) s s' ∧ r = Err (RelayNotFound 404))) as H.
  { intros A op r s' Hp E. apply first_answer_spec in E as [(bef & d & aft & s1 & a & El & Hf & Hd & ->)|?];
      [|by right|by intros d s0 (b & -> & _)%list_elem_of_fmap].
    left. apply map_eq_app in El as (l1 & l2 & -> & <- & El). apply map_eq_cons in El as (b & l3 & -> & <- & <-).
    exists l1, b, l3, s1, a. done. }
  intros H1 H2. split; intros; by apply H.
Qed.
End schedules.

(** ** Concrete relays *)

Module Sample.
(** A relay is a number; the state maps it to its messages.  Relay 7 is down. *)
Definition down (b : nat) : bool := (b =? 7)%nat.
Definition held (s : gmap nat (list bytes)) (b : nat) : list bytes := default [] (s !! b).
Definition ok_unless_down {A} (b : nat) (m : SE (gmap nat (list bytes)) A) : SE (gmap nat (list bytes)) A :=
  if down b then se_raise TransportError else m.
Definition put (b : nat) (c : MailboxCapability) (e : bytes) : SE (gmap nat (list bytes)) Z :=
  ok_unless_down b (λ s, (Ok (Z.of_nat (length (held s b)) + 1), <[b := held s b ++ [e]]> s)).
Definition number (l : list bytes) : list (Z * bytes) := imap (λ i e, (Z.of_nat i + 1, e)) l.
Definition fetch (b : nat) (c : MailboxCapability) (a w : Z) : SE (gmap nat (list bytes)) (list (Z * bytes)) :=
  ok_unless_down b (λ s, (Ok (number (held s b)), s)).

#[export] Instance sample_backend : RelayBackend (gmap nat (list bytes)) nat := {
  base_url := λ b, if down b then "https://down" else "https://up";
  create_mailbox := λ b _, ok_unless_down b (se_ret tt);
  put := put;
  fetch := fetch;
  ack := λ b _ _, ok_unless_down b (se_ret 0);
  delete_mailbox := λ b _, ok_unless_down b (se_ret tt);
  publish_bundle := λ b id _, ok_unless_down b (se_ret id);
  fetch_bundle := λ b _, ok_unless_down b (se_ret JNull);
  put_blob := λ b _ id _, ok_unless_down b (se_ret id);
  get_blob := λ b _ _, ok_unless_down b (se_ret [])
}.

Lemma number_app l e : number (l ++ [e]) = number l ++ [(Z.of_nat (length l) + 1, e)].
Proof. unfold number. rewrite imap_app. cbn. by rewrite Nat.add_0_r. Qed.

Lemma held_insert b b' l s : held (<[b := l]> s) b' = if decide (b = b') then l else held s b'.
Proof. unfold held. rewrite lookup_insert. by case_decide. Qed.

Lemma sample_put_stores b c e s n s' : put b c e s = (Ok n, s') → (n, e) ∈ number (held s' b).
Proof.
  unfold put, ok_unless_down. destruct (down b); [done|].
  intros [= <- <-]. rewrite held_insert, decide_True by done. rewrite number_app.
  apply elem_of_app. right. by left.
Qed.
Lemma sample_put_keeps b c e s b' x :
  x ∈ number (held s b') → x ∈ number (held (put b c e s).2 b').
Proof.
  intros Hx. unfold put, ok_unless_down. destruct (down b); [done|]. cbn.
  rewrite held_insert. case_decide as Hb; [subst b'|done].
  rewrite number_app. apply elem_of_app. by left.
Qed.
Lemma sample_fetch_keeps b c a w s b' x :
  x ∈ number (held s b') → x ∈ number (held (fetch b c a w s).2 b').
Proof. intros Hx. unfold fetch, ok_unless_down. by destruct (down b). Qed.
Lemma sample_fetch_page b c a w s rows s' x :
  fetch b c a w s = (Ok rows, s') → x ∈ number (held s b) → a < x.1 ≤ a + 200 → x ∈ rows.
Proof. unfold fetch, ok_unless_down. destruct (down b); [done|]. by intros [= <- _]. Qed.

Lemma sample_proper {A} b (m : SE (gmap nat (list bytes)) A) s :
  (∀ s e, (m s).1 ≠ Err e) → proper (ok_unless_down b m s).1.
Proof.
  intros H e E. unfold ok_unless_down in E. destruct (down b); [by injection E as <-|]. by apply H in E.
Qed.

#[export] Program Instance sample_contract : RelayContract (gmap nat (list bytes)) nat := {
  lawful := λ _, True;
  serves := λ _ _, True;
  stored := λ s b _, number (held s b);
  page := 200
}.
Next Obligation. done. Qed.
Next Obligation. done. Qed.
Next Obligation. intros. by apply sample_proper. Qed.
Next Obligation. intros. by apply sample_proper. Qed.
Next Obligation. intros b c e s n s' _ _. apply sample_put_stores. Qed.
Next Obligation. intros b c e s b' c' x _. apply sample_put_keeps. Qed.
Next Obligation. intros b c a w s b' c' x _. apply sample_fetch_keeps. Qed.
Next Obligation. intros b c a w s rows s' x _ _. apply sample_fetch_page. Qed.

Lemma independent_down {A} (op : nat → SE (gmap nat (list bytes)) A) b : down b = false →
  independent (λ b, ok_unless_down b (op b)) [7%nat; b].
Proof.
  intros Hb [|[|i]] [|[|j]] d d' Hne Hd Hd'; cbn in Hd, Hd'; simplify_eq;
    intros s; unfold ok_unless_down; rewrite Hb; cbn; try done; by destruct (op _ s).
Qed.
End Sample.

Import Sample.

Definition sample_capability : MailboxCapability :=
  {| mailbox_id := "box"; write_token := "w"; read_token := None |}.

Lemma replicated_delivery_witness :
  let s1 : gmap nat (list bytes) := (put_all [1%nat; 0%nat] [7%nat; 3%nat] sample_capability (bs "hi") ∅).2 in
  ∃ b n msgs s2,
    b ∈ [7%nat; 3%nat] ∧ (n, bs "hi") ∈ stored s1 b sample_capability ∧
    fetch_all [0%nat; 1%nat] [7%nat; 3%nat] sample_capability ∅ 0 s1 = (Ok msgs, s2) ∧
    (n, bs "hi") ∈ stored s2 b sample_capability ∧
    let cursor := default 0 ((∅ : gmap string Z) !! base_url b) in
    (cursor < n ≤ cursor + page →
     {| fm_relay := base_url b; fm_seq := n; fm_blob := bs "hi" |} ∈ msgs ∨ failed b sample_capability cursor 0 n (bs "hi")).
Proof.
  intros s1.
  apply (replicated_delivery [1%nat; 0%nat] [0%nat; 1%nat] [7%nat; 3%nat] sample_capability (bs "hi") ∅ s1 ∅ 0).
  - apply perm_swap.
  - reflexivity.
  - done.
  - done.
  - reflexivity.
Defined.

Lemma schedule_irrelevant_witness :
  let relays := [7%nat; 3%nat] in
  register_mailbox [0%nat; 1%nat] relays sample_capability ∅ = register_mailbox [1%nat; 0%nat] relays sample_capability ∅ ∧
  put_all [0%nat; 1%nat] relays sample_capability (bs "hi") ∅ = put_all [1%nat; 0%nat] relays sample_capability (bs "hi") ∅ ∧
  fetch_all [0%nat; 1%nat] relays sample_capability ∅ 0 ∅ = fetch_all [1%nat; 0%nat] relays sample_capability ∅ 0 ∅.
Proof.
  intros relays. apply (schedule_irrelevant [0%nat; 1%nat] [1%nat; 0%nat] relays sample_capability (bs "hi") ∅ 0 ∅).
  - apply perm_swap.
  - apply (bool_decide_unpack _). vm_compute. exact I.
  - by apply (independent_down (λ _, se_ret tt)).
  - by apply (independent_down (λ b s, (Ok (Z.of_nat (length (held s b)) + 1), <[b := held s b ++ [bs "hi"]]> s))).
  - by apply (independent_down (λ b s, (Ok (number (held s b)), s))).
Defined.

Lemma reads_fail_over_witness :
  let relays := [7%nat; 3%nat] in
  let s : gmap nat (list bytes) := ∅ in
  (∀ r s', fetch_any_bundle relays "id" s = (r, s') →
    (∃ before b after s1 j, relays = before ++ b :: after ∧
       all_fail (map (λ b, fetch_bundle b "id") before) s s1 ∧
       fetch_bundle b "id" s1 = (Ok j, s') ∧ r = Ok j) ∨
    (all_fail (map (λ b, fetch_bundle b "id") relays) s s' ∧ r = Err (RelayNotFound 404))) ∧
  (∀ r s', get_any_blob relays sample_capability "x" s = (r, s') →
    (∃ before b after s1 data, relays = before ++ b :: after ∧
       all_fail (map (λ b, get_blob b sample_capability "x") before) s s1 ∧
       get_blob b sample_capability "x" s1 = (Ok data, s') ∧ r = Ok data) ∨
    (all_fail (map (λ b, get_blob b sample_capability "x") relays) s s' ∧ r = Err (RelayNotFound 404))).
Proof.
  intros relays s. apply (reads_fail_over relays "id" sample_capability "x" s).
  - intros b s0. by apply sample_proper.
  - intros b s0. by apply sample_proper.
Defined.
