(* ===== verification/Discovery.v ===== *)
(** * Relay discovery ([wire/discovery.py])

    The client asks each of its relays which others it knows, keeps the candidates
    that are safe to contact, and adds those that answer a health check. *)

From S2P Require Import Prelude PyStr Json Dict RelayUrls Url Transport.

Definition RELAYS_PATH : string := "/api/relays".
Definition HEALTH_PATH : string := "/api/health".
Definition MAX_RELAYS : Z := 8.
Definition MAX_CANDIDATES : Z := 50.

Definition bracket (c : ascii) : bool := bool_decide (c = "["%char) || bool_decide (c = "]"%char).

Definition host_is_internal (host : bytes) : bool :=
  let host := ascii_lower (strip_chars bracket host) in
  if is_empty host || bool_decide (host = bs "localhost") || prefix_b (rev (bs ".local")) (rev host)
  then true
  else match ip_address host with
       | None => false
       | Some a => is_private a || is_loopback a || is_link_local a || is_reserved a
                   || is_multicast a || is_unspecified a
       end.

(** [allow_private]: whether [NK_ALLOW_PRIVATE_RELAYS] is set and not empty. *)
Definition is_discoverable (allow_private : bool) (url : string) : res bool :=
  let? parsed := urlparse url in
  if negb (bool_decide (scheme parsed ∈ ["http"; "https"]%string)) then Ok false else
  if is_empty (hostname parsed) then Ok false else
  match port parsed with
  | Err e => if isa_ValueError e then Ok false else Err e
  | Ok p =>
      if match p with Some p => negb ((1 <=? p) && (p <=? 65535)) | None => false end then Ok false else
      if host_is_internal (hostname parsed) && negb allow_private then Ok false else Ok true
  end.

Definition host_key (url : string) : res (string * bytes * Z) :=
  let? parsed := urlparse url in
  let? p := port parsed in
  let dflt := if String.eqb (scheme parsed) "https" then 443 else 80 in
  let port := match p with Some p => if p =? 0 then dflt else p | None => dflt end in
  Ok (scheme parsed, ascii_lower (hostname parsed), port).

(** [l[:limit]]. *)
Definition slice_to {A} (limit : Z) (l : list A) : list A :=
  take (Z.to_nat (if limit <? 0 then Z.of_nat (length l) + limit else limit)) l.

(** The texts of a list of JSON values. *)
Definition strings (l : list json) : list string :=
  omap (λ j, match j with JStr s => Some s | _ => None end) l.

Section discovery.
Context {N : Type} {Network : Net N}.

Definition get (t : Transport) (url : string) (timeout : Z) : SE N response :=
  request t "GET" url (Some timeout) [] [] NoBody.

Definition advertised_of (r : response) (limit : Z) : res (list string) :=
  if negb (status_code r =? 200) then Ok [] else
  match response_json r with
  | Err e => if isa_ValueError e then Ok [] else Err e
  | Ok payload =>
      let? advertised := jget "relays" payload in
      match advertised with
      | JList l => Ok (strings (slice_to limit l))
      | _ => Ok []
      end
  end.

Definition fetch_known_relays (t : Transport) (relay_url : string) (timeout limit : Z)
    : SE N (list string) := λ s,
  match get t (relay_url +:+ RELAYS_PATH) timeout s with
  | (Err e, s') => (if isa_Exception e then Ok [] else Err e, s')
  | (Ok r, s') => (advertised_of r limit, s')
  end.

Definition healthy (r : response) : res bool :=
  if negb (status_code r =? 200) then Ok false else
  match response_json r with
  | Err e => if isa_ValueError e then Ok false else Err e
  | Ok j => let? s := jget "status" j in Ok (eq_str s "ok")
  end.
Definition probe_relay (t : Transport) (url : string) (timeout : Z) : SE N bool := λ s,
  match get t (url +:+ HEALTH_PATH) timeout s with
  | (Err e, s') => (if isa_Exception e then Ok false else Err e, s')
  | (Ok r, s') => (healthy r, s')
  end.

(** The inner loop: the candidates of one relay. *)
Fixpoint scan (allow : bool) (max_candidates : Z) (advertised : list string)
    (seen : list (string * bytes * Z)) (candidates : list string)
    : res (list (string * bytes * Z) * list string) :=
  match advertised with
  | [] => Ok (seen, candidates)
  | url :: rest =>
      match normalize_relay_urls [url] with
      | [] => scan allow max_candidates rest seen candidates
      | candidate :: _ =>
          let? ok := is_discoverable allow candidate in
          if negb ok then scan allow max_candidates rest seen candidates else
          let? key := host_key candidate in
          if bool_decide (key ∈ seen) then scan allow max_candidates rest seen candidates else
          let candidates := candidates ++ [candidate] in
          if max_candidates <=? Z.of_nat (length candidates) then Ok (key :: seen, candidates)
          else scan allow max_candidates rest (key :: seen) candidates
      end
  end.

Fixpoint gather (t : Transport) (allow : bool) (timeout max_candidates : Z) (relays : list string)
    (seen : list (string * bytes * Z)) (candidates : list string) : SE N (list string) :=
  match relays with
  | [] => se_ret candidates
  | relay :: rest =>
      do! advertised := fetch_known_relays t relay timeout max_candidates in
      do! (seen, candidates) := se_lift (scan allow max_candidates advertised seen candidates) in
      if max_candidates <=? Z.of_nat (length candidates) then se_ret candidates
      else gather t allow timeout max_candidates rest seen candidates
  end.

Fixpoint adopt (t : Transport) (probe : bool) (timeout max_relays : Z) (candidates result : list string)
    : SE N (list string) :=
  match candidates with
  | [] => se_ret result
  | candidate :: rest =>
      if max_relays <=? Z.of_nat (length result) then se_ret result else
      do! alive := (if probe then probe_relay t candidate timeout else se_ret true) in
      adopt t probe timeout max_relays rest (if alive then result ++ [candidate] else result)
  end.

Definition discover_relays (t : Transport) (allow : bool) (current : list string)
    (max_relays timeout : Z) (probe : bool) (max_candidates : Z) : SE N (list string) :=
  let known := normalize_relay_urls current in
  do! seen := se_lift (mapM host_key known) in
  do! candidates := gather t allow timeout max_candidates known seen [] in
  do! result := adopt t probe timeout max_relays candidates known in
  se_ret (normalize_relay_urls result).
End discovery.

(** ** What discovery may contact *)

Section events.
Context {N : Type} {Network : Net N}.

(** Every effect of a computation satisfies [P]. *)
Definition emits {A} (P : event → Prop) (m : SE (N * list event) A) : Prop :=
  ∀ n log r n' log', m (n, log) = (r, (n', log')) → ∃ new, log' = log ++ new ∧ Forall P new.

Lemma emits_pure {A} P (r : res A) : emits P (se_lift r).
Proof. intros n log r' n' log' [= <- <- <-]. exists []. by rewrite app_nil_r. Qed.
Lemma emits_ret {A} P (a : A) : emits P (se_ret a).
Proof. apply (emits_pure P (Ok a)). Qed.
Lemma emits_bind {A B} P (m : SE (N * list event) A) (f : A → SE (N * list event) B) :
  emits P m → (∀ a, emits P (f a)) → emits P (se_bind m f).
Proof.
  intros Hm Hf n log r n' log' E. unfold se_bind in E. destruct (m (n, log)) as [[a|e] [n1 log1]] eqn:Em.
  - apply Hm in Em as (new1 & -> & H1). apply Hf in E as (new2 & -> & H2).
    exists (new1 ++ new2). rewrite app_assoc. split; [done|]. by apply Forall_app.
  - injection E as _ _ <-. by eapply Hm.
Qed.
Lemma emits_map {A B} P (m : SE (N * list event) A) (f : res A → res B) :
  emits P m → emits P (λ s, (f (m s).1, (m s).2)).
Proof.
  intros Hm n log r n' log' E. destruct (m (n, log)) as [a [n1 log1]] eqn:Em. injection E as _ <- <-.
  by eapply Hm.
Qed.

(** Discovery may ask a known relay for its list, or a safe candidate for its health. *)
Definition permitted (allow : bool) (known : list string) (ev : event) : Prop :=
  match ev with
  | Slept _ => True
  | Sent q => (∃ u, u ∈ known ∧ rq_url q = u +:+ RELAYS_PATH) ∨
              (∃ c, is_discoverable allow c = Ok true ∧ rq_url q = c +:+ HEALTH_PATH)
  end.

Context (t : Transport) (Ht : 1 ≤ retries t).

Lemma get_emits P url to :
  (∀ q, rq_url q = url → P (Sent q)) → (∀ d, P (Slept d)) → emits P (get t url to).
Proof using Ht.
  intros Hq Hd n log r n' log' E. unfold get in E.
  apply request_spec in E as [(e & _ & _ & ->)|(px & j & _ & _ & -> & _)]; [| |done].
  - exists []. by rewrite app_nil_r.
  - eexists. split; [done|]. apply Forall_forall. intros ev [->|[d ->]]%tries_sent; auto.
Qed.

Lemma fetch_known_relays_emits allow known u to limit :
  u ∈ known → emits (permitted allow known) (fetch_known_relays t u to limit).
Proof using Ht.
  intros Hu n log r n' log' E.
  assert (∃ r0, get t (u +:+ RELAYS_PATH) to (n, log) = (r0, (n', log'))) as [r0 E0].
  { unfold fetch_known_relays in E. destruct (get _ _ _ _) as [[x|e] s1]; injection E as _ ->; eauto. }
  revert E0. apply get_emits; [|done]. intros q Hq. left. by exists u.
Qed.

Lemma probe_relay_emits allow known c to :
  is_discoverable allow c = Ok true → emits (permitted allow known) (probe_relay t c to).
Proof using Ht.
  intros Hc n log r n' log' E.
  assert (∃ r0, get t (c +:+ HEALTH_PATH) to (n, log) = (r0, (n', log'))) as [r0 E0].
  { unfold probe_relay in E. destruct (get _ _ _ _) as [[x|e] s1]; injection E as _ ->; eauto. }
  revert E0. apply get_emits; [|done]. intros q Hq. right. by exists c.
Qed.

Lemma gather_emits allow known to mc relays : ∀ seen cands,
  relays ⊆ known → emits (permitted allow known) (gather t allow to mc relays seen cands).
Proof using Ht.
  induction relays as [|u relays IH]; intros seen cands Hk; cbn [gather]; [apply emits_ret|].
  apply emits_bind; [apply fetch_known_relays_emits; set_solver|]. intros advs.
  apply emits_bind; [apply emits_pure|]. intros [seen' cands']. case_match; [apply emits_ret|].
  apply IH. set_solver.
Qed.

Lemma adopt_emits allow known probe to mr cands : ∀ result,
  Forall (λ c, is_discoverable allow c = Ok true) cands →
  emits (permitted allow known) (adopt t probe to mr cands result).
Proof using Ht.
  induction cands as [|c cands IH]; intros result Hc; cbn [adopt]; [apply emits_ret|].
  apply Forall_cons in Hc as [Hc Hcs]. case_match; [apply emits_ret|].
  apply emits_bind; [|intros alive; by apply IH].
  destruct probe; [by apply probe_relay_emits | apply emits_ret].
Qed.
End events.

(** ** What discovery adds *)

Definition safe_candidates (allow : bool) (known : list (string * bytes * Z)) (cands : list string) : Prop :=
  Forall (λ c, is_discoverable allow c = Ok true) cands ∧
  ∃ keys, mapM host_key cands = Ok keys ∧ NoDup keys ∧ ∀ k, k ∈ keys → k ∉ known.

Lemma mapM_snoc {A B} (f : A → res B) l ys x y :
  mapM f l = Ok ys → f x = Ok y → mapM f (l ++ [x]) = Ok (ys ++ [y]).
Proof. rewrite !mapM_Ok. intros. apply Forall2_app; [done|]. by constructor. Qed.

Lemma scan_safe allow mc K advs : ∀ seen cands seen' cands',
  safe_candidates allow K cands → (∀ keys, mapM host_key cands = Ok keys → ∀ k, k ∈ seen ↔ k ∈ keys ++ K) →
  scan allow mc advs seen cands = Ok (seen', cands') →
  safe_candidates allow K cands' ∧ (∀ keys, mapM host_key cands' = Ok keys → ∀ k, k ∈ seen' ↔ k ∈ keys ++ K).
Proof.
  induction advs as [|url advs IH]; intros seen cands seen' cands' Hs Hk E; cbn [scan] in E.
  { injection E as <- <-. done. }
  destruct (normalize_relay_urls [url]) as [|c ?]; [by eapply IH|].
  apply res_bind_Ok in E as (ok & Hok & E). destruct ok; cbn [negb] in E; [|by eapply IH].
  apply res_bind_Ok in E as (key & Hkey & E). case_bool_decide as Hin; [by eapply IH|].
  destruct Hs as (Hd & keys & Hkeys & Hnd & HK). specialize (Hk keys Hkeys).
  assert (mapM host_key (cands ++ [c]) = Ok (keys ++ [key])) as Hkeys' by by apply mapM_snoc.
  assert (safe_candidates allow K (cands ++ [c])) as Hs'.
  { split; [apply Forall_app; split; [done|]; by constructor|]. exists (keys ++ [key]). split; [done|].
    rewrite Hk in Hin. split; [|set_solver]. apply NoDup_app.
    split_and!; [done|set_solver|apply NoDup_singleton]. }
  assert (∀ keys0, mapM host_key (cands ++ [c]) = Ok keys0 → ∀ k, k ∈ key :: seen ↔ k ∈ keys0 ++ K) as Hk'.
  { intros keys0 E0 k. rewrite Hkeys' in E0. injection E0 as <-.
    rewrite elem_of_cons, Hk, !elem_of_app, list_elem_of_singleton. tauto. }
  case_match; [injection E as <- <-; done|]. by eapply IH.
Qed.

Lemma gather_safe {N} `{Net N} t allow to mc K relays : ∀ seen cands (s s' : N) cands',
  safe_candidates allow K cands → (∀ keys, mapM host_key cands = Ok keys → ∀ k, k ∈ seen ↔ k ∈ keys ++ K) →
  gather t allow to mc relays seen cands s = (Ok cands', s') → safe_candidates allow K cands'.
Proof.
  induction relays as [|u relays IH]; intros seen cands s s' cands' Hs Hk E; cbn [gather] in E.
  { by injection E as <- _. }
  apply se_bind_Ok in E as (advs & s1 & _ & E). apply se_bind_Ok in E as ([seen1 cands1] & s2 & E1 & E).
  unfold se_lift in E1. injection E1 as E1 <-. apply (scan_safe allow mc K) in E1 as [Hs1 Hk1]; [|done..].
  case_match; [by injection E as <- _|]. by eapply IH.
Qed.

Lemma adopt_spec {N} `{Net N} t probe to mr cands : ∀ result (s s' : N) result',
  adopt t probe to mr cands result s = (Ok result', s') →
  ∃ added, result' = result ++ added ∧ sublist added cands ∧
    Z.of_nat (length result') ≤ Z.max (Z.of_nat (length result)) mr.
Proof.
  induction cands as [|c cands IH]; intros result s s' result' E; cbn [adopt] in E.
  - injection E as <- _. exists []. rewrite app_nil_r. split_and!; [done|constructor|lia].
  - destruct (Z.leb_spec mr (Z.of_nat (length result))) as [Hle|Hlt].
    + injection E as <- _. exists []. rewrite app_nil_r. split_and!; [done|apply sublist_nil_l|lia].
    + apply se_bind_Ok in E as (alive & s1 & _ & E). apply IH in E as (added & -> & Hsub & Hlen).
      destruct alive.
      * exists (c :: added). rewrite <-app_assoc. split_and!; [done|by apply sublist_skip|].
        rewrite !length_app in *. cbn [length] in *. lia.
      * exists added. split_and!; [done|by apply sublist_cons|done].
Qed.

Lemma Forall2_sublist {A B} (R : A → B → Prop) l k : sublist k l → ∀ ys,
  Forall2 R l ys → ∃ zs, sublist zs ys ∧ Forall2 R k zs.
Proof.
  induction 1 as [|x k l _ IH|x k l _ IH]; intros ys H.
  - exists []. split; [apply sublist_nil_l|constructor].
  - apply Forall2_cons_inv_l in H as (y & ys' & Hxy & H & ->). destruct (IH ys' H) as (zs & H1 & H2).
    exists (y :: zs). split; [by apply sublist_skip|by constructor].
  - apply Forall2_cons_inv_l in H as (y & ys' & Hxy & H & ->). destruct (IH ys' H) as (zs & H1 & H2).
    exists zs. split; [by apply sublist_cons|done].
Qed.

Lemma safe_sublist allow K cands added :
  safe_candidates allow K cands → sublist added cands → safe_candidates allow K added.
Proof.
  intros (Hd & keys & Hk & Hnd & HK) Hs. split.
  - rewrite Forall_forall in *. intros c Hc. apply Hd. by eapply elem_of_sublist.
  - rewrite mapM_Ok in Hk. destruct (Forall2_sublist _ _ _ Hs _ Hk) as (keys' & Hsub & Hk').
    exists keys'. rewrite mapM_Ok. split_and!; [done|by eapply sublist_NoDup|].
    intros k Hkk. apply HK. by eapply elem_of_sublist.
Qed.

Lemma safe_nil allow K : safe_candidates allow K [].
Proof.
  split; [constructor|]. exists []. split_and!; [done|by apply NoDup_nil_2|].
  by intros k ?%not_elem_of_nil.
Qed.

(** The candidates a run of [gather] from the start returns. *)
Lemma gather_start {N} `{Net N} t allow to mc K relays (s s' : N) cands :
  gather t allow to mc relays K [] s = (Ok cands, s') → safe_candidates allow K cands.
Proof. apply gather_safe; [apply safe_nil|]. by intros ? [= <-]. Qed.

Lemma discover_emits {N} {Network : Net N} t allow current mr to probe mc :
  1 ≤ retries t →
  emits (permitted allow (normalize_relay_urls current)) (discover_relays t allow current mr to probe mc).
Proof.
  intros Ht. unfold discover_relays. set (known := normalize_relay_urls current).
  apply emits_bind; [apply emits_pure|]. intros K n log r n' log' E.
  unfold se_bind at 1 in E. destruct (gather _ _ _ _ _ _ _ _) as [[cands|e] [n1 log1]] eqn:Eg.
  2:{ injection E as _ _ <-. revert Eg. by apply gather_emits. }
  assert (∃ new, log1 = log ++ new ∧ Forall (permitted allow known) new) as (new1 & -> & H1).
  { revert Eg. by apply gather_emits. }
  apply gather_start in Eg as [Hd _].
  assert (emits (permitted allow known) (do! result := adopt t probe to mr cands known in
      se_ret (normalize_relay_urls result))) as H.
  { apply emits_bind; [by apply adopt_emits|]. intros. apply emits_ret. }
  apply H in E as (new2 & -> & H2). exists (new1 ++ new2). rewrite app_assoc. split; [done|].
  by apply Forall_app.
Qed.

Lemma discover_result {N} {Network : Net N} t allow current mr to probe mc (s s' : N) result :
  discover_relays t allow current mr to probe mc s = (Ok result, s') →
  let known := normalize_relay_urls current in
  ∃ added K, mapM host_key known = Ok K ∧ safe_candidates allow K added ∧
    result = normalize_relay_urls (known ++ added) ∧
    Z.of_nat (length result) ≤ Z.max (Z.of_nat (length known)) mr ∧
    (Forall is_clean known → known `prefix_of` result).
Proof.
  intros E known. unfold discover_relays in E. fold known in E.
  apply se_bind_Ok in E as (K & s1 & EK & E). unfold se_lift in EK. injection EK as EK <-.
  apply se_bind_Ok in E as (cands & s2 & Eg & E). apply gather_start in Eg.
  apply se_bind_Ok in E as (res & s3 & Ea & E). injection E as <- _.
  apply adopt_spec in Ea as (added & -> & Hsub & Hlen).
  exists added, K. split_and!; [done|by eapply safe_sublist|done| |].
  - pose proof (normalize_length (known ++ added)). lia.
  - intros Hc. apply normalize_app_clean; [done|apply normalize_NoDup].
Qed.

(** Discovery only adds, only safe relays, and only contacts what it may.  It
    contacts nothing but the relays it knows (for their lists) and candidates that
    passed the address checks (for their health).  When it succeeds, the result is the
    known list followed by candidates that passed the checks, with pairwise different
    hosts, none of them a host already known; it is never longer than the larger of
    the known list and [max_relays], and keeps a clean known list as its prefix. *)
Theorem discover_safe {N} {Network : Net N} t allow current mr to probe mc (n : N) log r n' log' :
  1 ≤ retries t →
  discover_relays t allow current mr to probe mc (n, log) = (r, (n', log')) →
  let known := normalize_relay_urls current in
  (∃ new, log' = log ++ new ∧ Forall (permitted allow known) new) ∧
  ∀ result, r = Ok result →
    ∃ added K, mapM host_key known = Ok K ∧ safe_candidates allow K added ∧
      result = normalize_relay_urls (known ++ added) ∧
      Z.of_nat (length result) ≤ Z.max (Z.of_nat (length known)) mr ∧
      (Forall is_clean known → known `prefix_of` result).
Proof.
  intros Ht E known. split; [by eapply discover_emits|]. intros result ->.
  by apply discover_result in E.
Qed.

(** What the address checks promise: no loopback, private, link-local, reserved,
    multicast or unspecified address in its numeric form, no [localhost], no [.local]
    name, unless private relays are allowed. *)
Definition public_host (host : bytes) : Prop :=
  let h := ascii_lower (strip_chars bracket host) in
  h ≠ [] ∧ h ≠ bs "localhost" ∧ prefix_b (rev (bs ".local")) (rev h) = false ∧
  ∀ a, ip_address h = Some a →
    is_private a = false ∧ is_loopback a = false ∧ is_link_local a = false ∧
    is_reserved a = false ∧ is_multicast a = false ∧ is_unspecified a = false.

Lemma host_is_internal_false host : host_is_internal host = false → public_host host.
Proof.
  unfold host_is_internal, public_host. cbv zeta. set (h := ascii_lower _).
  destruct (is_empty h) eqn:E1; [done|]. destruct (bool_decide _) eqn:E2; [done|].
  destruct (prefix_b _ _) eqn:E3; [done|]. cbn [orb]. intros E.
  apply bool_decide_eq_false in E2. split_and!; [by intros H; rewrite H in E1|done|done|].
  intros a Ha. rewrite Ha in E. by rewrite !orb_false_iff in E; destruct_and!.
Qed.

(** A candidate that passes the checks has an HTTP scheme, a host, a usable port
    and, unless private relays are allowed, a host that is not written as an internal
    address. *)
Theorem discoverable_public allow url :
  is_discoverable allow url = Ok true →
  ∃ p, urlparse url = Ok p ∧ (scheme p = "http" ∨ scheme p = "https")%string ∧ hostname p ≠ [] ∧
    (∃ q, port p = Ok q ∧ ∀ n, q = Some n → 1 ≤ n ≤ 65535) ∧
    (allow = false → public_host (hostname p)).
Proof.
  unfold is_discoverable. intros (p & Hp & E)%res_bind_Ok. exists p. split; [done|].
  case_bool_decide as Hs; cbn [negb] in E; [|done].
  destruct (is_empty (hostname p)) eqn:Eh; [done|].
  destruct (port p) as [q|e] eqn:Eq; [|by case_match].
  destruct (match q with Some _ => _ | None => _ end) eqn:Er; [done|].
  destruct (host_is_internal (hostname p) && negb allow) eqn:Ei; [done|].
  split_and!.
  - set_solver.
  - intros H. by rewrite H in Eh.
  - exists q. split; [done|]. intros n ->. lia.
  - intros ->. apply host_is_internal_false. by rewrite andb_true_r in Ei.
Qed.

(** ** Where the checks fall short *)

(** Other spellings of an internal address are host names to the checks. *)
Lemma internal_spellings_accepted :
  Forall (λ u, is_discoverable false u = Ok true)
    ["http://127.1"; "http://2130706433"; "http://0x7f.1"; "http://localhost."]%string.
Proof. repeat constructor. Qed.

(** A network in which every relay gives the same answer. *)
Definition answering (j : json) : Net unit :=
  {| session_request := λ _ _, (Ok {| status_code := 200; response_json := Ok j; content := [] |}, tt);
     time_sleep := λ _ _, tt |}.
Definition plain_transport : Transport := new_transport 30 3 1 None false.

(** An answer from one relay can end the whole discovery with an exception, although
    asking a relay is meant to be best effort: a list instead of an object, or an
    advertised URL with an unclosed bracket. *)
Lemma hostile_answer_aborts :
  (@discover_relays unit (answering (JList [])) plain_transport false ["https://a"; "https://b"]%string
     8 6 true 50 tt).1 = Err AttributeError ∧
  (@discover_relays unit (answering (JObj [("relays", JList [JStr "http://["])]%string)) plain_transport
     false ["https://a"; "https://b"]%string 8 6 true 50 tt).1 = Err ValueError.
Proof. split; vm_compute; reflexivity. Qed.

(** ** Concrete instances *)

Definition good_net : Net unit :=
  answering (JObj [("relays", JList [JStr "https://new.example"; JStr "http://127.0.0.1:9"; JStr "a"]);
                   ("status", JStr "ok")]%string).

Lemma discover_safe_witness :
  let run := @discover_relays _ (recorded unit good_net) plain_transport false ["https://a"]%string
               8 6 true 50 (tt, []) in
  let known := ["https://a"]%string in
  run.1 = Ok ["https://a"; "https://new.example"]%string ∧
  (∃ new, run.2.2 = [] ++ new ∧ Forall (permitted false known) new) ∧
  ∀ result, run.1 = Ok result →
    ∃ added K, mapM host_key known = Ok K ∧ safe_candidates false K added ∧
      result = normalize_relay_urls (known ++ added) ∧
      Z.of_nat (length result) ≤ Z.max (Z.of_nat (length known)) 8 ∧
      (Forall is_clean known → known `prefix_of` result).
Proof.
  intros run known. split; [vm_compute; reflexivity|].
  apply (@discover_safe unit good_net plain_transport false ["https://a"]%string 8 6 true 50 tt []
           run.1 run.2.1 run.2.2); [vm_compute; discriminate|].
  vm_compute. reflexivity.
Defined.

Lemma discoverable_public_witness :
  ∃ p, urlparse "https://relay.example:8443" = Ok p ∧ (scheme p = "http" ∨ scheme p = "https")%string ∧
    hostname p ≠ [] ∧ (∃ q, port p = Ok q ∧ ∀ n, q = Some n → 1 ≤ n ≤ 65535) ∧
    (false = false → public_host (hostname p)).
Proof. apply (discoverable_public false). vm_compute. reflexivity. Defined.
