(* ===== verification/Card.v ===== *)
(** * Contact cards ([core/card.py])

    A card read from outside may hold any JSON in its relay list and name; those
    fields are JSON values.  The signature of a card that has none yet is empty. *)

From S2P Require Import Prelude PyStr Json JsonProps Dict Primitives Encoding Kdf Identity Backend.

Definition CARD_VERSION : Z := 1.

Record ContactCard := {
  card_id : string;
  isign : bytes;
  idh : bytes;
  bundle_id : string;
  inbox : MailboxCapability;
  relays : list json;
  name : json;
  signature : bytes
}.

Definition payload (c : ContactCard) : dict :=
  let payload := [("v", JInt CARD_VERSION); ("id", JStr (card_id c)); ("isign", JStr (b64e (isign c)));
                  ("idh", JStr (b64e (idh c))); ("bundle", JStr (bundle_id c));
                  ("inbox", JObj (card_view (inbox c))); ("relays", JList (relays c))]%string in
  if truthy (name c) then payload ++ [("name"%string, name c)] else payload.

Definition signed_dict (c : ContactCard) : dict :=
  dset "sig" (JStr (b64e (signature c))) (payload c).

Section card.
Context {C : Crypto} {Zl : Zlib}.

Definition signed_bytes (c : ContactCard) : bytes := CARD_SIGN_INFO ++ canonical_json (JObj (payload c)).

Definition to_string (c : ContactCard) : string := card_encode (JObj (signed_dict c)).

(** The fields read inside the [try]. *)
Definition card_fields (data : json) : res ContactCard :=
  except isa_KTV CardError
    (let? isign := (let? j := jitem "isign" data in b64d_json j) in
     let? idh := (let? j := jitem "idh" data in b64d_json j) in
     let? id := jitem "id" data in
     let? bundle := jitem "bundle" data in
     let? inbox := (let? j := jitem "inbox" data in from_card_view j) in
     let? relays := (let? j := jget "relays" data in iter_json (jor j (JList []))) in
     let? name := jget "name" data in
     let? signature := (let? j := jitem "sig" data in b64d_json j) in
     Ok {| card_id := to_pystr id; isign := isign; idh := idh; bundle_id := to_pystr bundle;
           inbox := inbox; relays := relays; name := name; signature := signature |}).

Definition from_dict (data : json) : res ContactCard :=
  let? v := jget "v" data in
  raise_if negb (eq_int v CARD_VERSION) with CardError ;;
  let? card := card_fields data in
  raise_if match relays card with [] => true | _ => false end with CardError ;;
  raise_if negb (String.eqb (compute_identity_id (isign card) (idh card)) (card_id card)) with CardError ;;
  let? _ := validate (inbox card) in
  raise_if negb (Identity.verify (isign card) (signature card) (signed_bytes card)) with CardError ;;
  Ok card.

Definition from_string (text : string) : res ContactCard :=
  let? data := except isa_ValueError CardError (card_decode text) in
  from_dict data.

Definition unsigned (identity : Identity) (bundle_id : string) (inbox : MailboxCapability)
    (relays : list string) (name : json) : ContactCard :=
  {| card_id := identity_id identity; isign := ed_public_bytes identity; idh := x_public_bytes identity;
     bundle_id := bundle_id; inbox := write_only inbox; relays := map JStr relays; name := name;
     signature := [] |}.
Definition sign_card (identity : Identity) (c : ContactCard) : ContactCard :=
  {| card_id := card_id c; isign := isign c; idh := idh c; bundle_id := bundle_id c; inbox := inbox c;
     relays := relays c; name := name c; signature := Identity.sign identity (signed_bytes c) |}.
Definition create (identity : Identity) (bundle_id : string) (inbox : MailboxCapability)
    (relays : list string) (name : json) : ContactCard :=
  sign_card identity (unsigned identity bundle_id inbox relays name).

Context {L : CryptoLaws C} {ZL : ZlibLaws Zl}.

Definition wf_capability (c : MailboxCapability) : Prop :=
  utf8_str (mailbox_id c) ∧ utf8_str (write_token c).
Definition wf_name (j : json) : Prop := j = JNull ∨ ∃ s, j = JStr s ∧ utf8_str s.

Lemma payload_wf c :
  utf8_str (card_id c) → utf8_str (bundle_id c) → wf_capability (inbox c) →
  Forall (wf_json utf8_str) (relays c) → wf_json utf8_str (name c) → wf_dict (payload c).
Proof using.
  intros H1 H2 [H3 H4] H5 H6.
  assert (wf_json utf8_str (JList (relays c))) as H5' by (cbn [wf_json]; by rewrite Forall_map).
  assert (wf_dict (card_view (inbox c))) as H7 by (unfold card_view; solve_wf).
  unfold payload. destruct (truthy (name c)); cbn [app]; solve_wf; auto using b64e_utf8.
  all: by apply wf_dict_elems in H7 as [_ H7].
Qed.

Lemma canon_strings srt l : canon srt (JList (map JStr l)) = JList (map JStr l).
Proof using. cbn [canon]. f_equal. rewrite map_map. by induction l; cbn; f_equal. Qed.

(** What [from_dict] reads of a dictionary that looks like a signed card. *)
Lemma card_fields_canon srt c d :
  wf_dict d → d = signed_dict c → canon srt (JList (relays c)) = JList (relays c) →
  wf_name (name c) → read_token (inbox c) = None → relays c ≠ [] →
  jget "v" (canon srt (JObj d)) = Ok (JInt CARD_VERSION) ∧
  card_fields (canon srt (JObj d))
  = Ok {| card_id := card_id c; isign := isign c; idh := idh c; bundle_id := bundle_id c;
          inbox := inbox c; relays := relays c;
          name := if truthy (name c) then name c else JNull; signature := signature c |}.
Proof using.
  intros Hwf Hd Hr Hn Hi Hne. pose proof (wf_dict_nodup _ Hwf) as Hnd.
  pose proof (canon_views srt d Hnd) as V.
  assert (∀ k v, dget k (signed_dict c) = Some v → dget k d = Some v) as Hget by by intros; subst d.
  split; [rewrite (vw_get _ _ _ V "v" (JInt CARD_VERSION));
          [by rewrite canon_int | apply Hget; unfold signed_dict, payload; by case_match]|].
  unfold card_fields.
  rewrite !(vw_item _ _ _ V "isign" (JStr (b64e (isign c)))),
    !(vw_item _ _ _ V "idh" (JStr (b64e (idh c)))), !(vw_item _ _ _ V "id" (JStr (card_id c))),
    !(vw_item _ _ _ V "bundle" (JStr (bundle_id c))),
    !(vw_item _ _ _ V "inbox" (JObj (card_view (inbox c)))),
    !(vw_get _ _ _ V "relays" (JList (relays c))), !(vw_item _ _ _ V "sig" (JStr (b64e (signature c))))
    by (apply Hget; unfold signed_dict, payload; by case_match).
  rewrite !canon_str, Hr. cbn [res_bind b64d_json to_pystr]. rewrite !b64d_b64e. cbn [res_bind].
  assert (from_card_view (canon srt (JObj (card_view (inbox c)))) = Ok (inbox c)) as ->.
  { set (e := card_view (inbox c)). canon_intro srt e J HJ. unfold from_card_view. view HJ.
    rewrite ?canon_str. cbn [to_pystr]. destruct (inbox c). cbn in *. by subst. }
  cbn [res_bind]. unfold jor. destruct (relays c) as [|r rs] eqn:Er; [done|]. cbn [truthy iter_json res_bind].
  destruct (truthy (name c)) eqn:Et.
  - rewrite (vw_get _ _ _ V "name" (name c)).
    2:{ apply Hget. unfold signed_dict, payload. by rewrite Et. }
    destruct Hn as [-> | (s & -> & Hs)]; rewrite ?canon_null, ?canon_str; cbn [res_bind except]; done.
  - rewrite (vw_none _ _ _ V "name"); [done|]. subst d. unfold signed_dict, payload. by rewrite Et.
Qed.
End card.

Section card_props.
Context {C : Crypto} {Zl : Zlib} {L : CryptoLaws C} {ZL : ZlibLaws Zl}.

Lemma identity_id_utf8 e x : utf8_str (compute_identity_id e x).
Proof using. apply utf8_ok_ascii, identity_id_ascii. Qed.

Lemma wf_name_json j : wf_name j → wf_json utf8_str j.
Proof using. by intros [->|(s & -> & H)]. Qed.

(** The card a reader gets of a created one: an empty name is none. *)
Definition as_read (c : ContactCard) : ContactCard :=
  {| card_id := card_id c; isign := isign c; idh := idh c; bundle_id := bundle_id c; inbox := inbox c;
     relays := relays c; name := if truthy (name c) then name c else JNull; signature := signature c |}.
Definition wf_create (i : Identity) (bid : string) (box : MailboxCapability) (rs : list string) (nm : json) : Prop :=
  wf_identity i ∧ utf8_str bid ∧ wf_capability box ∧ validate (write_only box) = Ok tt ∧
  rs ≠ [] ∧ Forall utf8_str rs ∧ wf_name nm.
Lemma created_wf i bid box rs nm : wf_create i bid box rs nm → wf_dict (signed_dict (create i bid box rs nm)).
Proof using.
  intros (Hi & Hb & Hbox & Hv & Hne & Hrs & Hn). apply wf_dset; [done|apply b64e_utf8|].
  apply payload_wf; [apply identity_id_utf8|done|done| |by apply wf_name_json]. cbn. by rewrite Forall_map.
Qed.
Lemma created_reads srt i bid box rs nm :
  wf_create i bid box rs nm →
  let card := create i bid box rs nm in from_dict (canon srt (JObj (signed_dict card))) = Ok (as_read card).
Proof using L.
  intros Hwf card. pose proof (created_wf _ _ _ _ _ Hwf) as Hd. destruct Hwf as ((Hi & _) & Hb & Hbox & Hv & Hne & Hrs & Hn).
  fold card in Hd.
  destruct (card_fields_canon srt card (signed_dict card)) as [Ev Ef];
    [done|done|apply canon_strings|done|done|by destruct rs|].
  unfold from_dict. rewrite Ev. cbn [res_bind eq_int Z.eqb CARD_VERSION Pos.eqb negb].
  rewrite Ef. cbn [res_bind relays card_id isign idh inbox signature].
  destruct rs as [|r rs]; [done|]. cbn [map create sign_card unsigned relays card_id isign idh inbox] in *.
  unfold card at 1 2 3 4 5. cbn [create sign_card unsigned relays card_id isign idh inbox map].
  unfold identity_id at 1. rewrite String.eqb_refl. cbn [negb]. rewrite Hv. cbn [res_bind].
  set (card' := {| card_id := _ |}).
  assert (signed_bytes card' = signed_bytes (unsigned i bid box (r :: rs) nm)) as ->.
  { unfold signed_bytes, payload, card', card. cbn [name card_id isign idh bundle_id inbox relays create sign_card unsigned].
    destruct (truthy nm) eqn:Et; [by rewrite Et|done]. }
  unfold card at 1 2. cbn [create sign_card unsigned isign signature].
  by rewrite verify_sign.
Qed.

(** A card reaches whoever it is sent to.  The text [to_string] gives for a card
    made by an identity is read by [from_string] as the same card: the identity's
    keys and fingerprint, the bundle, the relays, the write capability of the inbox
    without its read token, and the name unless it is empty. *)
Theorem card_roundtrip i bid box rs nm :
  wf_create i bid box rs nm →
  let card := create i bid box rs nm in
  from_string (to_string card)
  = Ok {| card_id := identity_id i; isign := ed_public_bytes i; idh := x_public_bytes i;
          bundle_id := bid; inbox := write_only box; relays := map JStr rs;
          name := if truthy nm then nm else JNull; signature := signature card |}.
Proof.
  intros Hwf card. unfold from_string, to_string. rewrite card_decode_encode by by apply created_wf.
  cbn [except res_bind]. by apply created_reads.
Qed.

(** The bytes under a card's signature determine everything the card says. *)
Lemma signed_bytes_fields c c' :
  wf_dict (payload c) → wf_dict (payload c') → signed_bytes c = signed_bytes c' →
  card_id c = card_id c' ∧ isign c = isign c' ∧ idh c = idh c' ∧ bundle_id c = bundle_id c' ∧
  write_only (inbox c) = write_only (inbox c') ∧ canon true (JList (relays c)) = canon true (JList (relays c')) ∧
  truthy (name c) = truthy (name c') ∧ (truthy (name c) = true → canon true (name c) = canon true (name c')).
Proof using.
  intros Hc Hc' E. unfold signed_bytes in E. apply app_inv_head in E.
  assert (∀ k v v', dget k (payload c) = Some v → dget k (payload c') = Some v' →
                    canon true v = canon true v') as H.
  { intros k v v' E1 E2. pose proof (canonical_dget _ _ k Hc Hc' E) as H. rewrite E1, E2 in H. by injection H. }
  pose proof (canonical_dget _ _ "name" Hc Hc' E) as Hn. clear E.
  assert (∀ c k v, dget k
    [("v", JInt CARD_VERSION); ("id", JStr (card_id c)); ("isign", JStr (b64e (isign c)));
     ("idh", JStr (b64e (idh c))); ("bundle", JStr (bundle_id c));
     ("inbox", JObj (card_view (inbox c))); ("relays", JList (relays c))]%string = Some v →
     k ≠ "name"%string → dget k (payload c) = Some v) as Hk.
  { intros c0 k v E Hne. unfold payload. destruct (truthy (name c0)); [|done].
    revert E. cbn [app dget]. rewrite (proj2 (String.eqb_neq k "name")) by done. done. }
  assert (∀ c, dget "name" (payload c) = if truthy (name c) then Some (name c) else None) as Hname.
  { intros c0. unfold payload. by destruct (truthy (name c0)). }
  rewrite !Hname in Hn.
  assert (∀ k f, k ≠ "name"%string → (∀ c, dget k
    [("v", JInt CARD_VERSION); ("id", JStr (card_id c)); ("isign", JStr (b64e (isign c)));
     ("idh", JStr (b64e (idh c))); ("bundle", JStr (bundle_id c));
     ("inbox", JObj (card_view (inbox c))); ("relays", JList (relays c))]%string = Some (f c)) →
    canon true (f c) = canon true (f c')) as Hf.
  { intros k f Hne Hf. apply (H k); by apply Hk. }
  pose proof (Hf "id"%string (λ c, JStr (card_id c)) ltac:(done) (λ _, eq_refl)) as H1.
  pose proof (Hf "isign"%string (λ c, JStr (b64e (isign c))) ltac:(done) (λ _, eq_refl)) as H2.
  pose proof (Hf "idh"%string (λ c, JStr (b64e (idh c))) ltac:(done) (λ _, eq_refl)) as H3.
  pose proof (Hf "bundle"%string (λ c, JStr (bundle_id c)) ltac:(done) (λ _, eq_refl)) as H4.
  pose proof (Hf "inbox"%string (λ c, JObj (card_view (inbox c))) ltac:(done) (λ _, eq_refl)) as H5.
  pose proof (Hf "relays"%string (λ c, JList (relays c)) ltac:(done) (λ _, eq_refl)) as H6.
  cbv beta in *.
  rewrite !canon_str in H1, H2, H3, H4. injection H1 as H1. injection H2 as H2%b64e_inj.
  injection H3 as H3%b64e_inj. injection H4 as H4.
  assert (∀ k, canon true <$> dget k (card_view (inbox c)) = canon true <$> dget k (card_view (inbox c'))) as Hi.
  { intros k. apply canon_dget; [unfold card_view; cbn [map fst]; solve_nodup..|exact H5]. }
  pose proof (Hi "id"%string) as Hi1. pose proof (Hi "w"%string) as Hi2. injection Hi1 as Hi1. injection Hi2 as Hi2.
  split_and!; try done.
  - unfold write_only. by rewrite Hi1, Hi2.
  - by destruct (truthy (name c)), (truthy (name c')).
  - intros Ht. rewrite Ht in Hn. destruct (truthy (name c')); [by injection Hn|done].
Qed.

(** C39: a card that [from_string] accepts is what its owner signed.  Its fingerprint is
    that of its keys, its signature verifies over its own content under its own key,
    its inbox is a valid write-only capability and it names a relay; and the signed
    bytes determine every field, so the signature fits no card that differs from it. *)
Theorem card_authentic text c :
  from_string text = Ok c →
  card_id c = compute_identity_id (isign c) (idh c) ∧
  Identity.verify (isign c) (signature c) (signed_bytes c) = true ∧
  validate (inbox c) = Ok tt ∧ read_token (inbox c) = None ∧ relays c ≠ [] ∧
  ∀ c', wf_dict (payload c) → wf_dict (payload c') → signed_bytes c' = signed_bytes c →
    card_id c' = card_id c ∧ isign c' = isign c ∧ idh c' = idh c ∧ bundle_id c' = bundle_id c ∧
    write_only (inbox c') = inbox c ∧ canon true (JList (relays c')) = canon true (JList (relays c)) ∧
    truthy (name c') = truthy (name c) ∧ (truthy (name c) = true → canon true (name c') = canon true (name c)).
Proof using.
  intros (data & _ & E)%res_bind_Ok. unfold from_dict in E.
  apply res_bind_Ok in E as (v & _ & E). destruct (negb (eq_int v CARD_VERSION)); [done|].
  apply res_bind_Ok in E as (c0 & Ef & E). destruct (relays c0) as [|r rs] eqn:Er; [done|].
  destruct (String.eqb_spec (compute_identity_id (isign c0) (idh c0)) (card_id c0)) as [Eid|]; cbn [negb] in E; [|done].
  apply res_bind_Ok in E as ([] & Ev & E).
  destruct (Identity.verify _ _ _) eqn:Es; cbn [negb] in E; [|done]. injection E as ->.
  assert (read_token (inbox c) = None) as Hread.
  { unfold card_fields in Ef. rinv Ef. subst c. cbn [inbox].
    match goal with H : from_card_view _ = Ok _ |- _ => unfold from_card_view in H; rinv H; by subst end. }
  split_and!; try done; [by rewrite Er|]. intros c' Hc Hc' E.
  pose proof (signed_bytes_fields c' c Hc' Hc E) as (H1 & H2 & H3 & H4 & H5 & H6 & H7 & H8).
  split_and!; try done; [|intros Ht; apply H8; congruence].
  rewrite H5. unfold write_only. destruct (inbox c). cbn in *. by subst.
Qed.
End card_props.

(** ** Concrete cards *)

Import Toy.

Definition sample_identity : Identity :=
  {| ed_private := repeat "e"%char 32; x_private := repeat "x"%char 32; label := JNull |}.
Definition sample_inbox : MailboxCapability :=
  generate (repeat "i"%char 16) (repeat "w"%char 32) (repeat "r"%char 32).
Definition sample_card : ContactCard :=
  create sample_identity "bundle" sample_inbox ["https://relay.example"]%string (JStr "Ann").

Lemma card_roundtrip_witness :
  from_string (to_string sample_card)
  = Ok {| card_id := identity_id sample_identity; isign := ed_public_bytes sample_identity;
          idh := x_public_bytes sample_identity; bundle_id := "bundle"; inbox := write_only sample_inbox;
          relays := map JStr ["https://relay.example"]%string; name := JStr "Ann";
          signature := signature sample_card |}.
Proof.
  apply (card_roundtrip sample_identity "bundle" sample_inbox ["https://relay.example"]%string (JStr "Ann")).
  split; [split_and!; [reflexivity|reflexivity|by left]|split_and!].
  - vm_compute. reflexivity.
  - split; vm_compute; reflexivity.
  - vm_compute. reflexivity.
  - discriminate.
  - repeat constructor.
  - right. exists "Ann"%string. split; [reflexivity | vm_compute; reflexivity].
Defined.

Definition sample_read : ContactCard := ok_or sample_card (from_string (to_string sample_card)).
Lemma card_authentic_witness :
  let c := sample_read in
  card_id c = compute_identity_id (isign c) (idh c) ∧
  Identity.verify (isign c) (signature c) (signed_bytes c) = true ∧
  validate (inbox c) = Ok tt ∧ read_token (inbox c) = None ∧ relays c ≠ [] ∧
  ∀ c', wf_dict (payload c) → wf_dict (payload c') → signed_bytes c' = signed_bytes c →
    card_id c' = card_id c ∧ isign c' = isign c ∧ idh c' = idh c ∧ bundle_id c' = bundle_id c ∧
    write_only (inbox c') = inbox c ∧ canon true (JList (relays c')) = canon true (JList (relays c)) ∧
    truthy (name c') = truthy (name c) ∧ (truthy (name c) = true → canon true (name c') = canon true (name c)).
Proof.
  intros c. apply (card_authentic (to_string sample_card) c).
  apply ok_or_eq. vm_compute. reflexivity.
Defined.
