(* ===== verification/Attachments.v ===== *)
(** * Attachments ([core/attachments.py])

    The key and the chunk nonces, drawn from [os.urandom], are arguments. *)

From S2P Require Import Prelude PyStr Json JsonProps Dict Primitives Encoding.
From S2P Require Aead.

Definition CHUNK_SIZE : Z := 256 * 1024.
Definition KEY_SIZE : Z := 32.
Definition MAX_FILE_SIZE : Z := 25 * 1024 * 1024.

Record EncryptedChunk := { ch_nonce : bytes; ch_ciphertext : bytes }.
Record Attachment := { at_key : bytes; chunks : list EncryptedChunk; at_size : Z; at_sha256 : string }.

(** [data[a:b]] for [0 <= a <= b]. *)
Definition slice {A} (a b : Z) (l : list A) : list A := take (Z.to_nat (b - a)) (drop (Z.to_nat a) l).

(** [range(0, stop, step)] for a positive step. *)
Definition range0 (stop step : Z) : list Z :=
  map (λ i, Z.of_nat i * step) (seq 0 (Z.to_nat ((stop + step - 1) / step))).

(** [hexdigest()]. *)
Definition hex (b : bytes) : string :=
  to_str (concat (map (λ c, [hexdig (byte_val c / 16); hexdig (byte_val c mod 16)]) b)).

Section attachments.
Context {C : Crypto}.

Definition encrypt_chunk (key : bytes) (data : bytes) (p : Z * bytes) : res EncryptedChunk :=
  let '(offset, nonce) := p in
  let piece := slice offset (offset + CHUNK_SIZE) data in
  let? (nonce, ciphertext) := Aead.encrypt nonce key piece [] in
  Ok {| ch_nonce := nonce; ch_ciphertext := ciphertext |}.

Definition offsets (data : bytes) : list Z := range0 (Z.max (blen data) 1) CHUNK_SIZE.

Definition encrypt_attachment (key : bytes) (nonces : nat → bytes) (data : bytes) : res Attachment :=
  raise_if MAX_FILE_SIZE <? blen data with AttachmentError ;;
  let? cs := mapM (encrypt_chunk key data)
               (imap (λ i offset, (offset, nonces i)) (offsets data)) in
  Ok {| at_key := key; chunks := cs; at_size := blen data; at_sha256 := hex (sha256 data) |}.

Definition decrypt_attachment (key : bytes) (nonces ciphertexts : list bytes) (expected_sha256 : string)
    : res bytes :=
  raise_if negb (length nonces =? length ciphertexts)%nat with AttachmentError ;;
  let? pieces := mapM (λ p, Aead.decrypt key p.1 p.2 []) (zip nonces ciphertexts) in
  let data := concat pieces in
  raise_if negb (String.eqb (hex (sha256 data)) expected_sha256) with AttachmentError ;;
  Ok data.

Definition chunk_json (p : string * EncryptedChunk) : json :=
  JObj [("id", JStr p.1); ("nonce", JStr (b64e (ch_nonce p.2)))]%string.
Definition manifest_dict (a : Attachment) (chunk_ids : list string) : res dict :=
  raise_if negb (length chunk_ids =? length (chunks a))%nat with AttachmentError ;;
  Ok [("key", JStr (b64e (at_key a))); ("size", JInt (at_size a)); ("sha256", JStr (at_sha256 a));
      ("chunks", JList (map chunk_json (zip chunk_ids (chunks a))))]%string.

Definition decode_manifest (manifest : json) : res (bytes * list string * list bytes * string) :=
  let? (key, size, sha, chunk_ids, nonces) :=
    except isa_KTV AttachmentError
      (let? key := (let? j := jitem "key" manifest in b64d_json j) in
       let? size := (let? j := jitem "size" manifest in to_int j) in
       let? sha := jitem "sha256" manifest in
       let? chunk_ids := (let? j := jitem "chunks" manifest in let? l := iter_json j in
                          mapM (λ c, let? id := jitem "id" c in Ok (to_pystr id)) l) in
       let? nonces := (let? j := jitem "chunks" manifest in let? l := iter_json j in
                       mapM (λ c, let? n := jitem "nonce" c in b64d_json n) l) in
       Ok (key, size, to_pystr sha, chunk_ids, nonces)) in
  raise_if negb (blen key =? KEY_SIZE) with AttachmentError ;;
  raise_if MAX_FILE_SIZE <? size with AttachmentError ;;
  Ok (key, chunk_ids, nonces, sha).
End attachments.

(** ** Splitting and joining *)

Lemma range0_S n step : 0 < step →
  map (λ i, Z.of_nat i * step) (seq 0 (S n)) = 0 :: map (λ o, o + step) (map (λ i, Z.of_nat i * step) (seq 0 n)).
Proof.
  intros Hs. rewrite <-cons_seq. cbn [map]. f_equal. rewrite <-seq_shift, !map_map.
  apply map_ext. intros i. lia.
Qed.

Lemma slice_0 {A} k (l : list A) : slice 0 k l = take (Z.to_nat k) l.
Proof. unfold slice. by rewrite Z.sub_0_r. Qed.

Lemma slice_shift {A} o k s (l : list A) : 0 ≤ o → 0 ≤ s →
  slice (o + s) (o + s + k) l = slice o (o + k) (drop (Z.to_nat s) l).
Proof.
  intros Ho Hs. unfold slice. rewrite drop_drop. f_equal; f_equal; lia.
Qed.

(** The pieces cover the data, in order. *)
Lemma concat_slices {A} (step : Z) n : 0 < step → ∀ l : list A,
  Z.of_nat (length l) ≤ Z.of_nat n * step →
  concat (map (λ o, slice o (o + step) l) (map (λ i, Z.of_nat i * step) (seq 0 n))) = l.
Proof.
  intros Hs. induction n as [|n IH]; intros l Hl; [by destruct l; cbn in *; [|lia]|].
  rewrite range0_S by done. cbn [map concat]. rewrite Z.add_0_l, slice_0, map_map.
  transitivity (take (Z.to_nat step) l ++ drop (Z.to_nat step) l); [f_equal|apply take_drop].
  etrans; [|apply (IH (drop (Z.to_nat step) l)); rewrite length_drop; lia].
  f_equal. rewrite !map_map. apply map_ext_in. intros i Hi. apply slice_shift; lia.
Qed.

Lemma range0_covers n step : 0 < step → n ≤ Z.of_nat (length (range0 (Z.max n 1) step)) * step.
Proof.
  intros Hs. unfold range0. rewrite length_map, length_seq.
  pose proof (Z.div_mod (Z.max n 1 + step - 1) step ltac:(lia)).
  pose proof (Z.mod_pos_bound (Z.max n 1 + step - 1) step Hs).
  rewrite Z2Nat.id by (apply Z.div_pos; lia). nia.
Qed.

Lemma concat_offsets data :
  concat (map (λ o, slice o (o + CHUNK_SIZE) data) (offsets data)) = data.
Proof.
  assert (0 < CHUNK_SIZE) as Hc by done. unfold offsets.
  pose proof (range0_covers (blen data) CHUNK_SIZE Hc) as H. unfold range0 in *. revert H.
  generalize (Z.to_nat ((Z.max (blen data) 1 + CHUNK_SIZE - 1) / CHUNK_SIZE)). intros n H.
  rewrite length_map, length_seq in H. by apply concat_slices.
Qed.

Lemma slice_length {A} a k (l : list A) : 0 ≤ k → Z.of_nat (length (slice a (a + k) l)) ≤ k.
Proof. intros Hk. unfold slice. rewrite length_take. lia. Qed.

Lemma offsets_some data : (1 ≤ length (offsets data))%nat.
Proof.
  unfold offsets. pose proof (range0_covers (Z.max (blen data) 1) CHUNK_SIZE ltac:(done)) as H.
  rewrite (Z.max_l (Z.max _ _) 1) in H by lia. revert H. generalize (Z.max (blen data) 1) (Z.le_max_r (blen data) 1).
  intros m Hm. destruct (range0 m CHUNK_SIZE); cbn [length]; lia.
Qed.

Lemma hex_utf8 b : utf8_str (hex b).
Proof.
  unfold utf8_str, hex. apply utf8_ok_ascii. rewrite bs_to_str.
  assert (∀ d, 0 ≤ d < 16 → is_ascii (hexdig d) = true) as H.
  { intros d Hd. unfold is_ascii, code, hexdig. case_match; rewrite byte_val_of, Z.mod_small; lia. }
  induction b as [|c b IH]; [done|]. cbn [map concat app]. unfold all_ascii in *. cbn [forallb].
  pose proof (byte_val_range c). rewrite !H, IH; [done|..].
  - apply Z.mod_pos_bound. lia.
  - split; [apply Z.div_pos; lia|apply Z.div_lt_upper_bound; lia].
Qed.

Section attachment_props.
Context {C : Crypto} {L : CryptoLaws C}.

(** What encrypting the chunks gives: one chunk per offset. *)
Lemma encrypt_chunks key data ps :
  length key = 32%nat → Forall (λ p : Z * bytes, length p.2 = 12%nat) ps →
  mapM (encrypt_chunk key data) ps
  = Ok (map (λ p : Z * bytes, {| ch_nonce := p.2;
          ch_ciphertext := chacha_encrypt key p.2 (slice p.1 (p.1 + CHUNK_SIZE) data) [] |}) ps).
Proof using.
  intros Hk Hps. induction Hps as [|[o n] ps Hn _ IH]; [done|]. cbn [mapM map fst snd] in *.
  unfold encrypt_chunk at 1, Aead.encrypt, blen. rewrite Hk. cbn. by rewrite IH.
Qed.

Lemma decrypt_chunks key (f : Z * bytes → bytes) ps :
  length key = 32%nat → Forall (λ p : Z * bytes, length p.2 = 12%nat) ps →
  mapM (λ p, Aead.decrypt key p.1 p.2 []) (zip (map snd ps) (map (λ p, chacha_encrypt key p.2 (f p) []) ps))
  = Ok (map f ps).
Proof using L.
  intros Hk Hps. induction Hps as [|[o n] ps Hn _ IH]; [done|]. cbn [map zip zip_with mapM fst snd] in *.
  assert (Aead.decrypt key n (chacha_encrypt key n (f (o, n)) []) [] = Ok (f (o, n))) as ->.
  { apply Aead.decrypt_iff. split_and!; [done..|]. unfold Aead.encrypt, blen. by rewrite Hk. }
  cbn [res_bind]. by rewrite IH.
Qed.

Lemma decode_manifest_canon srt a ids d :
  manifest_dict a ids = Ok d → length (at_key a) = 32%nat → at_size a ≤ MAX_FILE_SIZE →
  decode_manifest (canon srt (JObj d)) = Ok (at_key a, ids, map ch_nonce (chunks a), at_sha256 a).
Proof using.
  unfold manifest_dict. intros E Hk Hs. destruct (Nat.eqb_spec (length ids) (length (chunks a))) as [Hl|]; [|done].
  cbn [negb] in E. injection E as <-. set (d := ("key"%string, _) :: _).
  assert (NoDup (map fst d)) as Hnd by (unfold d; cbn [map fst]; solve_nodup).
  pose proof (canon_views srt d Hnd) as V. unfold decode_manifest.
  rewrite !(vw_item _ _ _ V "key" (JStr (b64e (at_key a)))), !(vw_item _ _ _ V "size" (JInt (at_size a))),
    !(vw_item _ _ _ V "sha256" (JStr (at_sha256 a))),
    !(vw_item _ _ _ V "chunks" (JList (map chunk_json (zip ids (chunks a))))) by done.
  rewrite !canon_str, canon_int. cbn [res_bind b64d_json to_int canon iter_json to_pystr].
  rewrite b64d_b64e. cbn [res_bind]. rewrite !map_map.
  assert (∀ p k v, k ∈ ["id"; "nonce"]%string → dget k [("id", JStr p.1); ("nonce", JStr (b64e (ch_nonce p.2)))]%string = Some v →
      jitem k (canon srt (chunk_json p)) = Ok (canon srt v)) as Hc.
  { intros p k v _ Hv. unfold chunk_json. apply jitem_canon; [cbn [map fst]; solve_nodup|done]. }
  assert (mapM (λ c, let? id := jitem "id" c in Ok (to_pystr id))
            (map (λ p, canon srt (chunk_json p)) (zip ids (chunks a))) = Ok ids) as ->.
  { revert Hl. generalize (chunks a). clear - Hc. induction ids as [|i ids IH]; intros [|c cs] Hl; try done.
    cbn [zip zip_with map mapM]. rewrite (Hc (i, c) "id"%string (JStr i)) by (done || set_solver).
    rewrite canon_str. cbn [res_bind to_pystr]. rewrite IH by (cbn in Hl; lia). done. }
  assert (mapM (λ c, let? n := jitem "nonce" c in b64d_json n)
            (map (λ p, canon srt (chunk_json p)) (zip ids (chunks a))) = Ok (map ch_nonce (chunks a))) as ->.
  { revert Hl. generalize (chunks a). clear - Hc. induction ids as [|i ids IH]; intros [|c cs] Hl; try done.
    cbn [zip zip_with map mapM]. rewrite (Hc (i, c) "nonce"%string (JStr (b64e (ch_nonce c)))) by (done || set_solver).
    rewrite canon_str. cbn [res_bind b64d_json]. rewrite b64d_b64e. cbn [res_bind].
    rewrite IH by (cbn in Hl; lia). done. }
  cbn [except res_bind]. unfold blen, KEY_SIZE. rewrite Hk. cbn [Z.of_nat Z.eqb negb]. cbn.
  destruct (Z.ltb_spec MAX_FILE_SIZE (at_size a)); [lia|done].
Qed.

(** An attachment survives its trip.  A file of at most [MAX_FILE_SIZE] bytes is
    split into at least one chunk, none larger than [CHUNK_SIZE], one per nonce; with
    as many chunk ids, the manifest, carried as JSON, gives back the key, the ids and
    the nonces, and with them the chunks decrypt to the file.  A larger file is
    refused. *)
Theorem attachment_roundtrip srt key nonces data ids :
  length key = 32%nat → (∀ i, length (nonces i) = 12%nat) →
  length ids = length (offsets data) →
  if MAX_FILE_SIZE <? blen data then encrypt_attachment key nonces data = Err AttachmentError
  else ∃ a d, encrypt_attachment key nonces data = Ok a ∧ manifest_dict a ids = Ok d ∧
    (1 ≤ length (chunks a))%nat ∧
    Forall (λ c, blen (ch_ciphertext c) ≤ CHUNK_SIZE + 16) (chunks a) ∧
    decode_manifest (canon srt (JObj d)) = Ok (key, ids, map ch_nonce (chunks a), at_sha256 a) ∧
    decrypt_attachment key (map ch_nonce (chunks a)) (map ch_ciphertext (chunks a)) (at_sha256 a) = Ok data.
Proof using L.
  intros Hk Hn Hids. unfold encrypt_attachment. destruct (Z.ltb_spec MAX_FILE_SIZE (blen data)) as [Hb|Hb]; [done|].
  set (ps := imap (λ i offset, (offset, nonces i)) (offsets data)).
  assert (Forall (λ p : Z * bytes, length p.2 = 12%nat) ps) as Hps.
  { apply Forall_lookup. intros i p Hi. unfold ps in Hi. rewrite list_lookup_imap in Hi.
    destruct (offsets data !! i); [|done]. injection Hi as <-. apply Hn. }
  assert (length ps = length (offsets data)) as Hlen by apply length_imap.
  assert (map fst ps = offsets data) as Hfst.
  { apply list_eq. intros i. unfold ps. change (map fst ?l) with (fst <$> l).
    rewrite list_lookup_fmap, list_lookup_imap. by destruct (offsets data !! i). }
  rewrite encrypt_chunks by done. cbn [res_bind]. set (cs := map _ ps).
  set (a := {| at_key := key; chunks := cs; at_size := blen data; at_sha256 := hex (sha256 data) |}).
  assert (length cs = length ids) as Hcs by (unfold cs; rewrite length_map; lia).
  assert (∃ d, manifest_dict a ids = Ok d) as [d Hd].
  { unfold manifest_dict. cbn [chunks a]. rewrite (proj2 (Nat.eqb_eq _ _)) by done. eauto. }
  exists a, d. split_and!; [done|done| | | |].
  - cbn [chunks a]. rewrite Hcs, Hids. apply offsets_some.
  - cbn [chunks a]. unfold cs. apply Forall_map, Forall_forall. intros p _. cbn [ch_ciphertext compose].
    unfold blen. rewrite chacha_length. pose proof (slice_length p.1 CHUNK_SIZE data ltac:(done)). lia.
  - by apply (decode_manifest_canon srt a ids d Hd).
  - unfold decrypt_attachment. cbn [chunks a at_sha256]. unfold cs. rewrite !map_map, !length_map, Nat.eqb_refl.
    cbn [negb ch_nonce ch_ciphertext]. change (map (λ x, x.2) ps) with (map snd ps). rewrite (decrypt_chunks key (λ p, slice p.1 (p.1 + CHUNK_SIZE) data) ps Hk Hps).
    cbn [res_bind]. rewrite <-(map_map fst (λ o, slice o (o + CHUNK_SIZE) data)), Hfst, concat_offsets.
    by rewrite String.eqb_refl.
Qed.
End attachment_props.

(** ** A concrete attachment *)

Import Toy.

Lemma attachment_roundtrip_witness :
  let key := repeat "k"%char 32 in let nonces := λ _ : nat, repeat "n"%char 12 in
  let data := repeat "d"%char 5 in
  length key = 32%nat ∧ length ["c1"%string] = length (offsets data) ∧
  ∃ a d, encrypt_attachment key nonces data = Ok a ∧ manifest_dict a ["c1"%string] = Ok d ∧
    (1 ≤ length (chunks a))%nat ∧
    Forall (λ c, blen (ch_ciphertext c) ≤ CHUNK_SIZE + 16) (chunks a) ∧
    decode_manifest (canon true (JObj d)) = Ok (key, ["c1"%string], map ch_nonce (chunks a), at_sha256 a) ∧
    decrypt_attachment key (map ch_nonce (chunks a)) (map ch_ciphertext (chunks a)) (at_sha256 a) = Ok data.
Proof.
  intros key nonces data. split; [reflexivity|]. split; [reflexivity|].
  exact (attachment_roundtrip true key nonces data ["c1"%string] eq_refl (λ _, eq_refl) eq_refl).
Defined.
