(* ===== verification/DeviceKeys.v ===== *)
(** * Per-device keys ([crypto/devicekeys.py])

    The random generators ([generate_device_keys], [new_agreement_private]) are
    the caller's arguments. *)

From S2P Require Import Prelude PyStr Primitives.

Definition KEY_SIZE : Z := 32.
Definition SIGNATURE_SIZE : Z := 64.

Section devicekeys.
Context {C : Crypto}.

(** [from_private_bytes] wants 32 bytes. *)
Definition private_ok (private : bytes) : res unit :=
  raise_if negb (blen private =? 32) with ValueError ;; Ok tt.
Definition signing_public (private : bytes) : res bytes :=
  let? _ := private_ok private in Ok (ed25519_public private).
Definition agreement_public (private : bytes) : res bytes :=
  let? _ := private_ok private in Ok (x25519_public private).
Definition sign (private data : bytes) : res bytes :=
  let? _ := private_ok private in Ok (ed25519_sign private data).

Definition verify (public signature data : bytes) : bool :=
  if negb (blen public =? KEY_SIZE) || negb (blen signature =? SIGNATURE_SIZE) then false
  else ed25519_verify public signature data.

Definition agreement (private peer_public : bytes) : res bytes :=
  raise_if negb (blen peer_public =? KEY_SIZE) with DeviceKeyError ;;
  let? shared := x25519 private peer_public in
  raise_if bool_decide (shared = repeat (byte_of 0) 32) with DeviceKeyError ;;
  Ok shared.

Context {L : CryptoLaws C}.

Lemma device_verify_sign private data :
  length private = 32%nat →
  ∃ sig, sign private data = Ok sig ∧ verify (ed25519_public private) sig data = true ∧
         length sig = 64%nat.
Proof using L.
  intros H. unfold sign, private_ok, blen. rewrite H. cbn [Z.of_nat Z.eqb negb res_bind]. cbn.
  eexists. split; [reflexivity|]. split; [|apply ed25519_sign_length].
  unfold verify, blen. rewrite ed25519_public_length, ed25519_sign_length. cbn.
  by apply ed25519_sound.
Qed.

(** Two devices agree on a non-zero secret of 32 bytes. *)
Lemma agreement_both a b :
  length a = 32%nat → length b = 32%nat →
  ∃ s, agreement a (x25519_public b) = Ok s ∧ agreement b (x25519_public a) = Ok s ∧
       length s = 32%nat.
Proof using L.
  intros Ha Hb. destruct (x25519_both a b Ha Hb) as (s & E1 & E2 & Hl). exists s.
  unfold agreement, blen. rewrite !x25519_public_length. cbn [Z.of_nat Z.eqb negb]. cbn.
  rewrite E1, E2. cbn [res_bind]. assert (s ≠ repeat (byte_of 0) 32) as Hs.
  { unfold x25519 in E1. rinv E1. by eapply x25519_nonzero. }
  change (repeat (byte_of 0) 32) with (repeat (byte_of 0) 32).
  rewrite !(bool_decide_eq_false_2 (s = _)) by exact Hs. done.
Qed.
End devicekeys.
