(* ===== verification/Devices.v ===== *)
(** * Device lists and device keys ([core/devices.py])

    An account's signed list of devices, the signed keys of one device, and the
    sealed records that hold them on a relay.  The clock and the AEAD nonce are
    arguments.  A record arrives as bytes or as a value already parsed from JSON. *)

From S2P Require Import Prelude PyStr Json JsonProps Primitives Dict Encoding Kdf Identity.
From S2P Require Aead Prekeys X3dh Backend Card.

Definition DEVICE_LIST_VERSION : Z := 1.
Definition DEVICE_ID_SIZE : Z := 16.
Definition LEGACY_DEVICE : string := "legacy".

(** [bytes | str | dict] *)
Inductive raw := RawBytes (b : bytes) | RawJson (j : json).

Record DeviceEntry := {
  device_id : string;
  inbox : dict;
  relays : list string;
  bundle_id : string;
  name : string
}.

Record DeviceList := {
  account : string;
  devices : list DeviceEntry;
  updated : Z;
  isign : bytes;
  idh : bytes;
  signature : bytes;
  version : Z
}.

Record DeviceKeys := {
  dk_device_id : string;
  sdev : bytes;
  sagree : bytes;
  dk_isign : bytes;
  dk_idh : bytes;
  dk_account : string;
  dk_signature : bytes;
  dk_version : Z
}.

(** ** Entries *)

Definition entry_dict (e : DeviceEntry) : dict :=
  let payload := [("device", JStr (device_id e)); ("inbox", JObj (inbox e));
                  ("relays", JList (map JStr (relays e))); ("bundle", JStr (bundle_id e))]%string in
  if String.eqb (name e) "" then payload else payload ++ [("name"%string, JStr (name e))].

(** One element of a sequence given to [dict(...)]: a pair with a string key.  A
    key of another type is outside the modelled values. *)
Definition dict_pair (x : json) : res (string * json) :=
  let? l := iter_json x in
  match l with
  | [JStr k; v] => Ok (k, v)
  | [JList _; _] | [JObj _; _] => Err TypeError
  | [_; _] => Err Unmodelled
  | _ => Err ValueError
  end.
(** [dict(value)] *)
Definition py_dict (j : json) : res dict :=
  match j with
  | JObj d => Ok d
  | _ => let? l := iter_json j in let? ps := mapM dict_pair l in Ok (dict_of_pairs ps)
  end.

Definition entry_from_dict (data : json) : res DeviceEntry :=
  except isa_KTV DeviceListError
    (let? device_id := jitem "device" data in
     let? inbox := (let? j := jitem "inbox" data in py_dict j) in
     let? relays := (let? j := jitem "relays" data in iter_json j) in
     let? bundle_id := jitem "bundle" data in
     let? name := jget "name" data in
     Ok {| device_id := to_pystr device_id; inbox := inbox; relays := map to_pystr relays;
           bundle_id := to_pystr bundle_id; name := to_pystr (jor name (JStr "")) |}).

(** The text of a record, parsed: [decode], then [json.loads]. *)
Definition load_raw (r : raw) : res json :=
  match r with
  | RawBytes b =>
      let? text := decode_utf8 b in except (isa JSONDecodeError) DeviceListError (json_loads text)
  | RawJson (JStr text) => except (isa JSONDecodeError) DeviceListError (json_loads text)
  | RawJson j => Ok j
  end.
Definition is_text (r : raw) : bool :=
  match r with RawBytes _ | RawJson (JStr _) => true | _ => false end.

Section devices.
Context {C : Crypto}.

Definition device_list_id (ed_public x_public : bytes) : string :=
  b64e (take 16 (sha256 (DEVICE_LIST_ID_INFO ++ ed_public ++ x_public))).
Definition new_device_id (random : bytes) : string := b64e random.
Definition device_keys_id (ed_public x_public : bytes) (device_id : string) : string :=
  b64e (take 16 (sha256 (DEVICE_KEYS_ID_INFO ++ ed_public ++ x_public ++ bs device_id))).

(** ** The list *)

Definition address (l : DeviceList) : string := device_list_id (isign l) (idh l).
Definition payload (l : DeviceList) : dict :=
  [("v", JInt (version l)); ("account", JStr (account l)); ("isign", JStr (b64e (isign l)));
   ("idh", JStr (b64e (idh l))); ("bundle_id", JStr (address l)); ("updated", JInt (updated l));
   ("devices", JList (map (λ d, JObj (entry_dict d)) (devices l)))]%string.
Definition signed_bytes (l : DeviceList) : bytes := DEVICE_SIGN_INFO ++ canonical_json (JObj (payload l)).
Definition to_bytes (l : DeviceList) : bytes :=
  canonical_json (JObj (dset "sig" (JStr (b64e (signature l))) (payload l))).

(** The fields read inside the [try]. *)
Definition list_fields (data : json) : res DeviceList :=
  except isa_KTV DeviceListError
    (let? isign := (let? j := jitem "isign" data in b64d_json j) in
     let? idh := (let? j := jitem "idh" data in b64d_json j) in
     let? account := jitem "account" data in
     let? devices := (let? j := jitem "devices" data in let? l := iter_json j in
                      mapM entry_from_dict l) in
     let? updated := (let? j := jitem "updated" data in to_int j) in
     let? signature := (let? j := jitem "sig" data in b64d_json j) in
     Ok {| account := to_pystr account; devices := devices; updated := updated; isign := isign;
           idh := idh; signature := signature; version := DEVICE_LIST_VERSION |}).

Definition from_json (data : json) : res DeviceList :=
  raise_if negb (is_dict data) with DeviceListError ;;
  let? v := jget "v" data in
  raise_if negb (eq_int v DEVICE_LIST_VERSION) with DeviceListError ;;
  let? listing := list_fields data in
  raise_if negb (String.eqb (compute_identity_id (isign listing) (idh listing)) (account listing))
    with DeviceListError ;;
  raise_if match devices listing with [] => true | _ => false end with DeviceListError ;;
  raise_if negb (verify (isign listing) (signature listing) (signed_bytes listing))
    with DeviceListError ;;
  Ok listing.
Definition from_bytes (r : raw) : res DeviceList := let? data := load_raw r in from_json data.

Definition unsigned (account : string) (isign idh : bytes) (devices : list DeviceEntry) (updated : Z)
    : DeviceList :=
  {| account := account; devices := devices; updated := updated; isign := isign; idh := idh;
     signature := []; version := DEVICE_LIST_VERSION |}.
Definition sign_list (identity : Identity) (l : DeviceList) : DeviceList :=
  {| account := account l; devices := devices l; updated := updated l; isign := isign l;
     idh := idh l; signature := sign identity (signed_bytes l); version := version l |}.
(** [now] is [time.time() * 1000]. *)
Definition create (identity : Identity) (devices : list DeviceEntry) (updated : option Z) (now : Z)
    : DeviceList :=
  sign_list identity
    (unsigned (identity_id identity) (ed_public_bytes identity) (x_public_bytes identity)
       devices (default now updated)).

Definition with_device (l : DeviceList) (entry : DeviceEntry) (now : Z) : DeviceList :=
  let others := List.filter (λ d, negb (String.eqb (device_id d) (device_id entry))) (devices l) in
  unsigned (account l) (isign l) (idh l) (others ++ [entry]) now.

Definition belongs_to (l : DeviceList) (account0 : string) (isign0 idh0 : bytes) : bool :=
  String.eqb (account l) account0 && bool_decide (isign l = isign0) && bool_decide (idh l = idh0).

(** ** Sealed records *)

Definition device_list_key (isign idh : bytes) : bytes :=
  hkdf (isign ++ idh) ZERO_SALT DEVICE_LIST_ENC_INFO 32.

Definition sealed_record (address : string) (box : bytes) : dict :=
  [("v", JInt DEVICE_LIST_VERSION); ("bundle_id", JStr address); ("box", JStr (b64e box))]%string.
Definition seal_payload (nonce : bytes) (isign idh : bytes) (address : string) (plaintext : bytes)
    : res bytes :=
  let? (nonce, ciphertext) := Aead.encrypt nonce (device_list_key isign idh) plaintext [] in
  Ok (canonical_json (JObj (sealed_record address (nonce ++ ciphertext)))).

Definition open_payload (r : raw) (isign idh : bytes) : res bytes :=
  let? data := load_raw r in
  raise_if negb (is_dict data) with DeviceListError ;;
  let? box := jget "box" data in
  raise_if bool_decide (box = JNull) with DeviceListError ;;
  let? blob := except isa_Exception DeviceListError (b64d (to_pystr box)) in
  raise_if blen blob <=? 12 with DeviceListError ;;
  except (isa AEADError) DeviceListError
    (Aead.decrypt (device_list_key isign idh) (take 12 blob) (drop 12 blob) []).

(** A record given as text that holds an object without a box. *)
Definition plain_record (r : raw) : res (option json) :=
  if is_text r then
    let? parsed := load_raw r in
    match parsed with
    | JObj d => let? box := jget "box" parsed in
                Ok (if bool_decide (box = JNull) then Some parsed else None)
    | _ => Ok None
    end
  else Ok None.

Definition seal_device_list (nonce : bytes) (l : DeviceList) : res bytes :=
  seal_payload nonce (isign l) (idh l) (address l) (to_bytes l).
Definition open_device_list (r : raw) (isign idh : bytes) : res DeviceList :=
  let? plain := plain_record r in
  match plain with
  | Some parsed => from_bytes (RawJson parsed)
  | None => let? p := open_payload r isign idh in from_bytes (RawBytes p)
  end.

Definition open_signed_payload (r : raw) (isign idh : bytes) : res json :=
  let? plain := plain_record r in
  match plain with
  | Some parsed => Ok parsed
  | None =>
      let? p := open_payload r isign idh in
      let? opened := except isa_ValueError DeviceListError (json_loads_bytes p) in
      raise_if negb (is_dict opened) with DeviceListError ;;
      Ok opened
  end.

(** ** Device keys *)

Definition keys_address (k : DeviceKeys) : string :=
  device_keys_id (dk_isign k) (dk_idh k) (dk_device_id k).
Definition keys_payload (k : DeviceKeys) : dict :=
  [("v", JInt (dk_version k)); ("account", JStr (dk_account k)); ("isign", JStr (b64e (dk_isign k)));
   ("idh", JStr (b64e (dk_idh k))); ("device", JStr (dk_device_id k)); ("sdev", JStr (b64e (sdev k)));
   ("sagree", JStr (b64e (sagree k))); ("bundle_id", JStr (keys_address k))]%string.
Definition keys_signed_bytes (k : DeviceKeys) : bytes :=
  DEVICE_KEYS_SIGN_INFO ++ canonical_json (JObj (keys_payload k)).
Definition keys_to_bytes (k : DeviceKeys) : bytes :=
  canonical_json (JObj (dset "sig" (JStr (b64e (dk_signature k))) (keys_payload k))).

(** [b64d(str(data[k]))] *)
Definition str_b64 (k : string) (data : json) : res bytes :=
  let? j := jitem k data in b64d (to_pystr j).
Definition keys_fields (data : json) : res DeviceKeys :=
  except isa_KTV DeviceListError
    (let? isign := str_b64 "isign" data in
     let? idh := str_b64 "idh" data in
     let? account := jitem "account" data in
     let? device_id := jitem "device" data in
     let? sdev := str_b64 "sdev" data in
     let? sagree := str_b64 "sagree" data in
     let? signature := str_b64 "sig" data in
     Ok {| dk_device_id := to_pystr device_id; sdev := sdev; sagree := sagree; dk_isign := isign;
           dk_idh := idh; dk_account := to_pystr account; dk_signature := signature;
           dk_version := DEVICE_LIST_VERSION |}).

Definition keys_from_json (data : json) : res DeviceKeys :=
  raise_if negb (is_dict data) with DeviceListError ;;
  let? v := jget "v" data in
  raise_if negb (eq_int v DEVICE_LIST_VERSION) with DeviceListError ;;
  let? record := keys_fields data in
  raise_if negb (blen (sdev record) =? 32) || negb (blen (sagree record) =? 32) with DeviceListError ;;
  raise_if negb (String.eqb (compute_identity_id (dk_isign record) (dk_idh record)) (dk_account record))
    with DeviceListError ;;
  raise_if negb (verify (dk_isign record) (dk_signature record) (keys_signed_bytes record))
    with DeviceListError ;;
  Ok record.
Definition keys_from_bytes (r : raw) : res DeviceKeys := let? data := load_raw r in keys_from_json data.

Definition keys_belong_to (k : DeviceKeys) (account0 : string) (isign0 idh0 : bytes) : bool :=
  String.eqb (dk_account k) account0 && bool_decide (dk_isign k = isign0) && bool_decide (dk_idh k = idh0).

Definition keys_unsigned (identity : Identity) (device_id : string) (sdev0 sagree0 : bytes) : DeviceKeys :=
  {| dk_device_id := device_id; sdev := sdev0; sagree := sagree0; dk_isign := ed_public_bytes identity;
     dk_idh := x_public_bytes identity; dk_account := identity_id identity; dk_signature := [];
     dk_version := DEVICE_LIST_VERSION |}.
Definition keys_create (identity : Identity) (device_id : string) (sdev0 sagree0 : bytes) : DeviceKeys :=
  let record := keys_unsigned identity device_id sdev0 sagree0 in
  {| dk_device_id := device_id; sdev := sdev0; sagree := sagree0; dk_isign := dk_isign record;
     dk_idh := dk_idh record; dk_account := dk_account record;
     dk_signature := sign identity (keys_signed_bytes record); dk_version := dk_version record |}.
End devices.

(** ** Reading back what was written *)

Definition canon_entry (e : DeviceEntry) : DeviceEntry :=
  {| device_id := device_id e; inbox := canon_dict true (inbox e); relays := relays e;
     bundle_id := bundle_id e; name := name e |}.
Definition wf_entry (e : DeviceEntry) : Prop :=
  utf8_str (device_id e) ∧ wf_dict (inbox e) ∧ Forall utf8_str (relays e) ∧
  utf8_str (bundle_id e) ∧ utf8_str (name e).

Lemma wf_strings l : Forall utf8_str l → wf_json utf8_str (JList (map JStr l)).
Proof. intros H. cbn [wf_json]. by rewrite map_map, Forall_map. Qed.
Lemma canon_strs srt l : canon srt (JList (map JStr l)) = JList (map JStr l).
Proof. cbn [canon]. f_equal. rewrite map_map. by induction l; cbn; f_equal. Qed.

Lemma entry_wf e : wf_entry e → wf_dict (entry_dict e).
Proof.
  intros (H1 & H2 & H3%wf_strings & H4 & H5). unfold entry_dict.
  destruct (String.eqb _ _); cbn [app]; solve_wf; by apply wf_dict_elems in H2 as [? ?].
Qed.

Lemma entry_name e : dget "name" (entry_dict e) = if String.eqb (name e) "" then None else Some (JStr (name e)).
Proof. unfold entry_dict. by destruct (String.eqb (name e) ""). Qed.
Lemma entry_get e k v :
  dget k [("device", JStr (device_id e)); ("inbox", JObj (inbox e));
          ("relays", JList (map JStr (relays e))); ("bundle", JStr (bundle_id e))]%string = Some v →
  dget k (entry_dict e) = Some v.
Proof.
  unfold entry_dict. destruct (String.eqb (name e) ""); [done|]. cbn [app dget]. repeat case_match; done.
Qed.

(** The same for a record whose keys were not reordered. *)
Lemma entry_read_raw e : entry_from_dict (JObj (entry_dict e)) = Ok e.
Proof.
  unfold entry_from_dict. pose proof (entry_name e) as Hn. cbn [jget].  rewrite Hn.
  cbn [jitem]. rewrite (entry_get e "device" (JStr (device_id e))), (entry_get e "inbox" (JObj (inbox e))),
    (entry_get e "relays" (JList (map JStr (relays e)))), (entry_get e "bundle" (JStr (bundle_id e))) by done.
  cbn [of_option].
  cbn [res_bind py_dict iter_json to_pystr]. rewrite map_map. cbn [to_pystr]. rewrite map_id.
  destruct e as [i x r b n]. cbn. destruct (String.eqb_spec n "") as [->|Hne]; [done|].
  unfold jor. cbn [truthy]. by rewrite (proj2 (String.eqb_neq _ _) Hne).
Qed.
Lemma entry_read e : wf_entry e → entry_from_dict (canon true (JObj (entry_dict e))) = Ok (canon_entry e).
Proof.
  intros Hwf. pose proof (wf_dict_nodup _ (entry_wf e Hwf)) as Hnd.
  pose proof (canon_views true _ Hnd) as V. unfold entry_from_dict.
  rewrite !(vw_item _ _ _ V "device" (JStr (device_id e))), !(vw_item _ _ _ V "inbox" (JObj (inbox e))),
    !(vw_item _ _ _ V "relays" (JList (map JStr (relays e)))), !(vw_item _ _ _ V "bundle" (JStr (bundle_id e)))
    by by apply entry_get.
  rewrite !canon_str, canon_obj, canon_strs. cbn [res_bind py_dict iter_json to_pystr].
  assert (map to_pystr (map JStr (relays e)) = relays e) as -> by (rewrite map_map; apply map_id).
  pose proof (entry_name e) as Hn. unfold canon_entry. destruct (String.eqb_spec (name e) "") as [En|En].
  - rewrite (vw_none _ _ _ V "name" Hn). cbn [res_bind except]. by rewrite En.
  - rewrite (vw_get _ _ _ V "name" _ Hn), canon_str. cbn [res_bind except jor truthy].
    unfold jor. cbn [truthy]. by rewrite (proj2 (String.eqb_neq _ _) En).
Qed.

Lemma entries_read l :
  Forall wf_entry l →
  mapM entry_from_dict (map (canon true) (map (λ d, JObj (entry_dict d)) l)) = Ok (map canon_entry l).
Proof.
  induction 1 as [|e l He _ IH]; [done|]. cbn [map mapM]. rewrite entry_read by done. cbn [res_bind].
  by rewrite IH.
Qed.

Lemma entry_jeq e : jeq (JObj (entry_dict e)) (JObj (entry_dict (canon_entry e))).
Proof.
  eapply jeq_obj; [done|]. unfold entry_dict, canon_entry. cbn [name device_id inbox relays bundle_id].
  assert (jeq (JObj (inbox e)) (JObj (canon_dict true (inbox e)))) by apply (jeq_canon true (JObj _)).
  destruct (String.eqb (name e) ""); cbn [app]; repeat first [constructor | split]; done.
Qed.

Section device_props.
Context {C : Crypto} {L : CryptoLaws C}.

Definition canon_list (l : DeviceList) : DeviceList :=
  {| account := account l; devices := map canon_entry (devices l); updated := updated l;
     isign := isign l; idh := idh l; signature := signature l; version := version l |}.
Definition wf_list (l : DeviceList) : Prop := utf8_str (account l) ∧ Forall wf_entry (devices l).

Lemma list_payload_wf l : wf_list l → wf_dict (payload l).
Proof using.
  intros [H1 H2]. assert (wf_json utf8_str (JList (map (λ d, JObj (entry_dict d)) (devices l)))) as H3.
  { cbn [wf_json]. rewrite map_map, Forall_map. eapply Forall_impl; [exact H2|]. intros e He. by apply entry_wf. }
  unfold payload, address, device_list_id. solve_wf; apply b64e_utf8.
Qed.

Lemma signed_bytes_canon l : wf_list l → signed_bytes (canon_list l) = signed_bytes l.
Proof using.
  intros Hwf. unfold signed_bytes. f_equal. symmetry. apply canonical_jeq; [by apply (wf_nodup utf8_str), list_payload_wf|].
  eapply jeq_obj; [done|]. unfold payload, canon_list, address.
  cbn [account devices updated isign idh signature version].
  repeat first [apply Forall2_nil_2 | apply Forall2_cons_2; [split; [done|]; try apply jeq_refl|]].
  cbn [snd]. apply jeq_list. induction (devices l); constructor; [apply entry_jeq|done].
Qed.

(** Any JSON spelling of a signed list reads as the list. *)
Lemma list_read l i :
  wf_list l → devices l ≠ [] → version l = DEVICE_LIST_VERSION →
  compute_identity_id (isign l) (idh l) = account l →
  verify (isign l) (signature l) (signed_bytes l) = true →
  i = dset "sig" (JStr (b64e (signature l))) (payload l) →
  from_json (canon true (JObj i)) = Ok (canon_list l).
Proof using.
  intros Hwf Hne Hv Hid Hs ->.
  assert (wf_dict (dset "sig" (JStr (b64e (signature l))) (payload l))) as Hi
    by (apply wf_dset; [done|apply b64e_utf8|by apply list_payload_wf]).
  pose proof (signed_bytes_canon l Hwf) as Hsc. destruct Hwf as [_ Hds].
  unfold from_json, list_fields. set (d := dset _ _ _) in *.
  canon_intro true d J HJ. view HJ. rewrite Hv.
  cbn [eq_int DEVICE_LIST_VERSION Z.eqb Pos.eqb negb b64d_json]. rewrite !b64d_b64e. cbn [res_bind canon iter_json].
  rewrite entries_read by done. cbn [res_bind to_int except to_pystr isign idh account]. rewrite Hid, String.eqb_refl. cbn [negb devices signature].
  destruct (devices l) as [|e es] eqn:El; [done|]. cbn [map].
  assert (canon_list l = {| account := account l; devices := canon_entry e :: map canon_entry es; updated := updated l;
     isign := isign l; idh := idh l; signature := signature l; version := DEVICE_LIST_VERSION |}) as <-.
  { unfold canon_list. by rewrite El, Hv. }
  by rewrite Hsc, Hs.
Qed.

Lemma load_canonical j : wf_json utf8_str j → load_raw (RawBytes (canonical_json j)) = Ok (canon true j).
Proof using.
  intros Hj. pose proof (canonical_json_loads j Hj) as E. unfold json_loads_bytes in E. cbn [load_raw].
  destruct (decode_utf8 _); [|done]. cbn [res_bind] in *. by rewrite E.
Qed.

Lemma load_dict srt d : load_raw (RawJson (canon srt (JObj d))) = Ok (canon srt (JObj d)).
Proof using. reflexivity. Qed.

(** The two ways a sealed record comes back: the stored text, or its JSON value. *)
Definition arrives (record : dict) (r : raw) : Prop :=
  r = RawBytes (canonical_json (JObj record)) ∨ ∃ srt, r = RawJson (canon srt (JObj record)).

Lemma arrives_load record r :
  wf_dict record → arrives record r → ∃ srt, load_raw r = Ok (canon srt (JObj record)).
Proof using.
  intros Hwf [-> | [srt ->]]; [|by exists srt]. exists true. by apply load_canonical.
Qed.

Lemma open_seal nonce ke kx addr p record :
  length nonce = 12%nat → utf8_str addr →
  record = sealed_record addr (nonce ++ chacha_encrypt (device_list_key ke kx) nonce p []) →
  seal_payload nonce ke kx addr p = Ok (canonical_json (JObj record)) ∧
  ∀ r, arrives record r → plain_record r = Ok None ∧ open_payload r ke kx = Ok p.
Proof using L.
  intros Hn Ha Hr. assert (length (device_list_key ke kx) = 32%nat) as Hk by apply hkdf_length.
  set (ct := chacha_encrypt _ _ _ _) in *. split.
  { unfold seal_payload, Aead.encrypt, blen. rewrite Hk. by rewrite Hr. }
  assert (wf_dict record) as Hwf by (rewrite Hr; unfold sealed_record; solve_wf; apply b64e_utf8).
  intros r Harr. destruct (arrives_load record r Hwf Harr) as [srt E]. rewrite Hr in E. unfold sealed_record in E.
  set (d := ("v"%string, _) :: _) in E. split.
  - unfold plain_record. destruct (is_text r); [|done]. rewrite E. cbn [res_bind].
    canon_intro srt d J HJ. pose proof (vw_dict _ _ _ HJ) as HD. destruct J; try done. view HJ. done.
  - unfold open_payload. rewrite E. cbn [res_bind]. canon_intro srt d J HJ. view HJ.
    rewrite bool_decide_eq_false_2 by done. cbn [to_pystr]. rewrite b64d_b64e. cbn [except res_bind].
    assert (length ct = (length p + 16)%nat) as Hct by apply chacha_length.
    unfold blen at 1. rewrite length_app, Hn, Hct. destruct (Z.leb_spec (Z.of_nat (12 + (length p + 16))) 12); [lia|].
    rewrite take_app_length', drop_app_length' by done.
    by rewrite (proj2 (Aead.decrypt_iff _ _ _ _ p)) by (unfold Aead.encrypt, blen; rewrite Hk; done).
Qed.

(** A device list reaches whoever knows the account's public keys.  The list an
    identity makes for its devices, sealed for a relay and fetched back, as text or
    as JSON in any key order, opens to the same account, keys, time and devices
    (inboxes as equal JSON objects), belongs to the account, and its signature
    verifies. *)
Theorem device_list_published i ds at' now nonce :
  wf_identity i → ds ≠ [] → Forall wf_entry ds → length nonce = 12%nat →
  let l := create i ds at' now in
  ∃ record, seal_device_list nonce l = Ok (canonical_json (JObj record)) ∧
  ∀ r, arrives record r →
    open_device_list r (ed_public_bytes i) (x_public_bytes i) = Ok (canon_list l) ∧
    belongs_to (canon_list l) (identity_id i) (ed_public_bytes i) (x_public_bytes i) = true ∧
    verify (ed_public_bytes i) (signature l) (signed_bytes (canon_list l)) = true.
Proof using L.
  intros (Hi & _) Hne Hds Hn l.
  assert (wf_list l) as Hwf by (split; [apply utf8_ok_ascii, identity_id_ascii|done]).
  destruct (open_seal nonce (isign l) (idh l) (address l) (to_bytes l) _ Hn (b64e_utf8 _) eq_refl) as [Es Ho].
  eexists. split; [exact Es|]. intros r Harr. destruct (Ho r Harr) as [Ep Eo].
  assert (verify (isign l) (signature l) (signed_bytes l) = true) as Hv by by apply verify_sign.
  split_and!.
  - unfold open_device_list. rewrite Ep. cbn [res_bind]. change (ed_public_bytes i) with (isign l).
    change (x_public_bytes i) with (idh l). rewrite Eo. cbn [res_bind]. unfold from_bytes, to_bytes.
    rewrite load_canonical by (apply wf_dset; [done|apply b64e_utf8|by apply list_payload_wf]). cbn [res_bind].
    by apply (list_read l).
  - unfold belongs_to. cbn [account isign idh canon_list]. rewrite String.eqb_refl, !bool_decide_eq_true_2; done.
  - by rewrite signed_bytes_canon.
Qed.

(** An unsealed list is read from text, but refused as a value already parsed. *)
Lemma plain_list_only_text i ds at' now :
  wf_identity i → ds ≠ [] → Forall wf_entry ds →
  let l := create i ds at' now in
  open_device_list (RawBytes (to_bytes l)) (isign l) (idh l) = Ok (canon_list l) ∧
  ∀ j, load_raw (RawBytes (to_bytes l)) = Ok j →
       open_device_list (RawJson j) (isign l) (idh l) = Err DeviceListError.
Proof using L.
  intros (Hi & _) Hne Hds l.
  assert (wf_list l) as Hwf by (split; [apply utf8_ok_ascii, identity_id_ascii|done]).
  set (d := dset "sig"%string (JStr (b64e (signature l))) (payload l)).
  assert (wf_dict d) as Hd by (apply wf_dset; [done|apply b64e_utf8|by apply list_payload_wf]).
  pose proof (load_canonical (JObj d) Hd) as E. change (canonical_json (JObj d)) with (to_bytes l) in E.
  assert (verify (isign l) (signature l) (signed_bytes l) = true) as Hv by by apply verify_sign.
  assert (from_json (canon true (JObj d)) = Ok (canon_list l)) as Ef by by apply (list_read l).
  pose proof (canon_views true d (wf_dict_nodup d Hd)) as V.
  assert (∃ D, canon true (JObj d) = JObj D) as [D ED] by (rewrite canon_obj; eauto). split.
  - unfold open_device_list, plain_record. rewrite ED in *. cbn [is_text]. rewrite E. cbn [res_bind].
    rewrite (vw_none _ _ _ V "box") by done. cbn [res_bind]. rewrite bool_decide_eq_true_2 by done.
    done.
  - rewrite ED in *. rewrite E. intros j [= <-]. unfold open_device_list, plain_record, open_payload.
    cbn [is_text res_bind load_raw is_dict negb]. rewrite (vw_none _ _ _ V "box") by done. cbn [res_bind].
    by rewrite bool_decide_eq_true_2.
Qed.

(** Equal signed entries are equal entries. *)
Lemma entry_dict_inj e e' :
  wf_entry e → wf_entry e' → canon true (JObj (entry_dict e)) = canon true (JObj (entry_dict e')) →
  canon_entry e = canon_entry e'.
Proof using. intros He He' E. pose proof (entry_read e He) as H. rewrite E, entry_read in H by done. congruence. Qed.

Lemma entries_inj l l' :
  Forall wf_entry l → Forall wf_entry l' →
  canon true (JList (map (λ d, JObj (entry_dict d)) l)) = canon true (JList (map (λ d, JObj (entry_dict d)) l')) →
  map canon_entry l = map canon_entry l'.
Proof using.
  intros Hl Hl' E. pose proof (entries_read l Hl) as H. pose proof (entries_read l' Hl') as H'.
  cbn [canon] in E. injection E as E. rewrite E in H. congruence.
Qed.

Lemma signed_bytes_inj l l' :
  wf_list l → wf_list l' → signed_bytes l = signed_bytes l' →
  account l = account l' ∧ isign l = isign l' ∧ idh l = idh l' ∧ updated l = updated l' ∧
  map canon_entry (devices l) = map canon_entry (devices l').
Proof using.
  intros Hl Hl' E. unfold signed_bytes in E. apply app_inv_head in E.
  pose proof (list_payload_wf l Hl) as Hp. pose proof (list_payload_wf l' Hl') as Hp'.
  assert (∀ k f, (∀ l, dget k (payload l) = Some (f l)) → canon true (f l) = canon true (f l')) as H.
  { intros k f Hf. pose proof (canonical_dget _ _ k Hp Hp' E) as H. rewrite !Hf in H. by injection H. }
  pose proof (H "account"%string (λ l, JStr (account l)) (λ _, eq_refl)) as H1.
  pose proof (H "isign"%string (λ l, JStr (b64e (isign l))) (λ _, eq_refl)) as H2.
  pose proof (H "idh"%string (λ l, JStr (b64e (idh l))) (λ _, eq_refl)) as H3.
  pose proof (H "updated"%string (λ l, JInt (updated l)) (λ _, eq_refl)) as H4.
  pose proof (H "devices"%string (λ l, JList (map (λ d, JObj (entry_dict d)) (devices l))) (λ _, eq_refl)) as H5.
  cbv beta in *. rewrite !canon_str in H1, H2, H3. rewrite !canon_int in H4.
  injection H1 as H1. injection H2 as H2%b64e_inj. injection H3 as H3%b64e_inj. injection H4 as H4.
  split_and!; try done. by apply entries_inj; [apply Hl|apply Hl'|].
Qed.

Lemma from_json_authentic j l :
  from_json j = Ok l →
  account l = compute_identity_id (isign l) (idh l) ∧ devices l ≠ [] ∧
  verify (isign l) (signature l) (signed_bytes l) = true.
Proof using.
  unfold from_json. intros E. rinv E. subst l.
  repeat match goal with H : negb _ = false |- _ => apply negb_false_iff in H end.
  match goal with H : String.eqb _ _ = true |- _ => apply String.eqb_eq in H end.
  split_and!; try done. intros En. by rewrite En in *.
Qed.

(** C38: an accepted device list is the account owner's.  Whatever a relay answers, a
    list that opens and belongs to the account asked about has the account's
    fingerprint, names a device, and carries a signature by the account's key over
    its own content; and two lists with the same signed bytes have the same account,
    keys, time and devices, so no signature can be moved to another list. *)
Theorem device_list_authentic r ke kx acct l :
  open_device_list r ke kx = Ok l → belongs_to l acct ke kx = true →
  acct = compute_identity_id ke kx ∧ devices l ≠ [] ∧ verify ke (signature l) (signed_bytes l) = true ∧
  ∀ l', wf_list l → wf_list l' → signed_bytes l' = signed_bytes l →
    account l' = account l ∧ isign l' = isign l ∧ idh l' = idh l ∧ updated l' = updated l ∧
    map canon_entry (devices l') = map canon_entry (devices l).
Proof using.
  unfold open_device_list, belongs_to. intros (pl & _ & E)%res_bind_Ok Hb.
  rewrite !andb_true_iff, String.eqb_eq, !bool_decide_eq_true in Hb. destruct Hb as [[<- <-] <-].
  assert (∃ j, from_json j = Ok l) as [j Hj].
  { unfold from_bytes in E. destruct pl; rinv E; eauto. }
  destruct (from_json_authentic _ _ Hj) as (H1 & H2 & H3). split_and!; try done.
  intros l' Hl Hl' Es. by apply signed_bytes_inj.
Qed.

(** ** Device keys *)

Lemma keys_payload_wf k : utf8_str (dk_account k) → utf8_str (dk_device_id k) → wf_dict (keys_payload k).
Proof using. intros H1 H2. unfold keys_payload, keys_address, device_keys_id. solve_wf; apply b64e_utf8. Qed.

Lemma keys_read k d :
  dk_version k = DEVICE_LIST_VERSION → d = dset "sig"%string (JStr (b64e (dk_signature k))) (keys_payload k) →
  wf_dict d → length (sdev k) = 32%nat → length (sagree k) = 32%nat →
  compute_identity_id (dk_isign k) (dk_idh k) = dk_account k →
  verify (dk_isign k) (dk_signature k) (keys_signed_bytes k) = true →
  ∀ srt, keys_from_json (canon srt (JObj d)) = Ok k.
Proof using.
  intros Hver Hd Hwf H1 H2 Hid Hv srt. rewrite Hd in *. unfold keys_from_json, keys_fields, str_b64.
  set (e := dset _ _ _) in *. canon_intro srt e J HJ. view HJ. rewrite Hver.
  change (eq_int (JInt DEVICE_LIST_VERSION) DEVICE_LIST_VERSION) with true. cbn [negb to_pystr].
  rewrite !b64d_b64e. cbn [res_bind except].
  assert ({| dk_device_id := dk_device_id k; sdev := sdev k; sagree := sagree k; dk_isign := dk_isign k;
             dk_idh := dk_idh k; dk_account := dk_account k; dk_signature := dk_signature k;
             dk_version := DEVICE_LIST_VERSION |} = k) as -> by (rewrite <-Hver; by destruct k).
  unfold blen. rewrite H1, H2. change (Z.of_nat 32 =? 32) with true. cbn [negb orb].
  by rewrite Hid, String.eqb_refl, Hv.
Qed.

(** A device's own keys reach its siblings.  The record an identity makes for a
    device, sealed at its address and fetched back as text or JSON, opens to exactly
    that record and belongs to the account.  And whatever is accepted as a record of
    the account was signed by its key: two records with the same signed bytes are the
    same up to the signature. *)
Theorem device_keys_published i did sd sa nonce :
  wf_identity i → utf8_str did → length sd = 32%nat → length sa = 32%nat → length nonce = 12%nat →
  let k := keys_create i did sd sa in
  (∃ record,
     seal_payload nonce (dk_isign k) (dk_idh k) (keys_address k) (keys_to_bytes k)
     = Ok (canonical_json (JObj record)) ∧
     ∀ r, arrives record r →
       (let? opened := open_signed_payload r (ed_public_bytes i) (x_public_bytes i) in
        keys_from_bytes (RawJson opened)) = Ok k) ∧
  keys_belong_to k (identity_id i) (ed_public_bytes i) (x_public_bytes i) = true ∧
  ∀ r k', keys_from_bytes r = Ok k' → keys_belong_to k' (identity_id i) (ed_public_bytes i) (x_public_bytes i) = true →
    verify (ed_public_bytes i) (dk_signature k') (keys_signed_bytes k') = true ∧
    (utf8_str (dk_device_id k') → keys_signed_bytes k' = keys_signed_bytes k →
     dk_device_id k' = did ∧ sdev k' = sd ∧ sagree k' = sa).
Proof using L.
  intros (Hi & _) Hd Hsd Hsa Hn k. assert (utf8_str (identity_id i)) as Hid by apply utf8_ok_ascii, identity_id_ascii.
  assert (wf_dict (keys_payload k)) as Hp by by apply keys_payload_wf.
  set (d := dset "sig"%string (JStr (b64e (dk_signature k))) (keys_payload k)).
  assert (wf_dict d) as Hwf by (apply wf_dset; [done|apply b64e_utf8|done]).
  split_and!.
  - destruct (open_seal nonce (dk_isign k) (dk_idh k) (keys_address k) (keys_to_bytes k) _ Hn (b64e_utf8 _) eq_refl) as [Es Ho].
    eexists. split; [exact Es|]. intros r Harr. destruct (Ho r Harr) as [Ep Eo].
    unfold open_signed_payload. rewrite Ep. cbn [res_bind]. change (ed_public_bytes i) with (dk_isign k).
    change (x_public_bytes i) with (dk_idh k). rewrite Eo. cbn [res_bind].
    change (keys_to_bytes k) with (canonical_json (JObj d)).
    rewrite canonical_json_loads by done. cbn [except res_bind].
    rewrite canon_obj. cbn [is_dict negb res_bind]. unfold keys_from_bytes. cbn [load_raw res_bind].
    rewrite <-canon_obj. apply (keys_read k d); try done. by apply verify_sign.
  - unfold keys_belong_to, k. cbn [keys_create keys_unsigned dk_account dk_isign dk_idh].
    by rewrite String.eqb_refl, !bool_decide_eq_true_2.
  - intros r k' E Hb. unfold keys_belong_to in Hb. rewrite !andb_true_iff, String.eqb_eq, !bool_decide_eq_true in Hb.
    destruct Hb as [[Ha He] Hx]. unfold keys_from_bytes, keys_from_json in E. rinv E. subst k'.
    split; [rewrite <-He; by apply negb_false_iff|]. intros Hu Es. unfold keys_signed_bytes in Es. apply app_inv_head in Es.
    assert (wf_dict (keys_payload a1)) as Hp' by (apply keys_payload_wf; [congruence|done]).
    assert (∀ key f, (∀ k, dget key (keys_payload k) = Some (f k)) → canon true (f a1) = canon true (f k)) as H.
    { intros key f Hf. pose proof (canonical_dget _ _ key Hp' Hp Es) as H. rewrite !Hf in H. by injection H. }
    pose proof (H "device"%string (λ k, JStr (dk_device_id k)) (λ _, eq_refl)) as H1.
    pose proof (H "sdev"%string (λ k, JStr (b64e (sdev k))) (λ _, eq_refl)) as H2.
    pose proof (H "sagree"%string (λ k, JStr (b64e (sagree k))) (λ _, eq_refl)) as H3.
    cbv beta in *. rewrite !canon_str in H1, H2, H3. injection H1 as H1.
    injection H2 as H2%b64e_inj. injection H3 as H3%b64e_inj. done.
Qed.
End device_props.

(** ** One key, many uses *)

(** Everything an account's signing key signs: contact cards, signed prekeys, sender
    proofs, device lists, device keys. *)
Inductive purpose := ACard | APrekey | ASender | AList | AKeys.
Inductive signed {C : Crypto} : purpose → bytes → Prop :=
| signed_card c : signed ACard (Card.signed_bytes c)
| signed_prekey bid n k m : Prekeys.spk_message bid n k = Ok m → signed APrekey m
| signed_sender sid d commit : signed ASender (X3dh.auth_message sid d commit)
| signed_list l : signed AList (signed_bytes l)
| signed_keys k : signed AKeys (keys_signed_bytes k).

(** The labels tell the purposes apart; the list's label begins that of the keys, and
    the brace that opens the document decides. *)
Definition purpose_of (m : bytes) : option purpose :=
  if prefix_b CARD_SIGN_INFO m then Some ACard
  else if prefix_b SPK_SIGN_INFO m then Some APrekey
  else if prefix_b AUTH_SIGN_INFO m then Some ASender
  else if prefix_b (DEVICE_SIGN_INFO ++ bs "{") m then Some AList
  else if prefix_b DEVICE_KEYS_SIGN_INFO m then Some AKeys
  else None.

Lemma canonical_obj_head d : ∃ t, canonical_json (JObj d) = "{"%char :: t.
Proof.
  destruct d as [|kv d]; [by eexists|]. unfold canonical_json, dumps. rewrite dumps_at_obj by done. by eexists.
Qed.

(** A signature serves one purpose only.  No byte string is signed for two of the
    five purposes of an account's key, so none of its signatures can be presented as
    one of another kind. *)
Theorem signatures_one_purpose {C : Crypto} p q m : signed p m → signed q m → p = q.
Proof.
  assert (∀ p m, signed p m → purpose_of m = Some p) as H.
  { intros p' m' [c|bid n k m0 E|sid d commit|l|k].
    - reflexivity.
    - unfold Prekeys.spk_message in E. rinv E. by subst.
    - reflexivity.
    - unfold signed_bytes. destruct (canonical_obj_head (payload l)) as [t ->]. reflexivity.
    - reflexivity. }
  intros Hp%H Hq%H. congruence.
Qed.

(** ** Concrete records *)

Import Toy.

Definition sample_identity : Identity :=
  {| ed_private := repeat "e"%char 32; x_private := repeat "x"%char 32; label := JNull |}.
Definition sample_entry : DeviceEntry :=
  {| device_id := "phone"; inbox := [("w", JStr "t"); ("id", JStr "m")]%string;
     relays := ["https://relay.example"]%string; bundle_id := "b"; name := "Phone" |}.
Definition sample_list : DeviceList := create sample_identity [sample_entry] None 5.
Definition sample_nonce : bytes := repeat "n"%char 12.

Lemma owner_wf : wf_identity sample_identity.
Proof. split_and!; [reflexivity | reflexivity | by left]. Qed.
Lemma sample_entry_wf : wf_entry sample_entry.
Proof.
  split_and!; try (vm_compute; reflexivity).
  - unfold sample_entry. cbn [inbox]. solve_wf.
  - repeat constructor.
Qed.

Lemma device_list_published_witness :
  ∃ record, seal_device_list sample_nonce sample_list = Ok (canonical_json (JObj record)) ∧
  ∀ r, arrives record r →
    open_device_list r (ed_public_bytes sample_identity) (x_public_bytes sample_identity)
      = Ok (canon_list sample_list) ∧
    belongs_to (canon_list sample_list) (identity_id sample_identity) (ed_public_bytes sample_identity)
      (x_public_bytes sample_identity) = true ∧
    verify (ed_public_bytes sample_identity) (signature sample_list) (signed_bytes (canon_list sample_list)) = true.
Proof.
  apply (device_list_published sample_identity [sample_entry] None 5 sample_nonce).
  - exact owner_wf.
  - discriminate.
  - constructor; [exact sample_entry_wf | constructor].
  - reflexivity.
Defined.

Definition sample_read : DeviceList :=
  ok_or sample_list (open_device_list (RawBytes (to_bytes sample_list))
    (ed_public_bytes sample_identity) (x_public_bytes sample_identity)).
Lemma device_list_authentic_witness :
  let ke := ed_public_bytes sample_identity in let kx := x_public_bytes sample_identity in
  identity_id sample_identity = compute_identity_id ke kx ∧ devices sample_read ≠ [] ∧
  verify ke (signature sample_read) (signed_bytes sample_read) = true ∧
  ∀ l', wf_list sample_read → wf_list l' → signed_bytes l' = signed_bytes sample_read →
    account l' = account sample_read ∧ isign l' = isign sample_read ∧ idh l' = idh sample_read ∧
    updated l' = updated sample_read ∧
    map canon_entry (devices l') = map canon_entry (devices sample_read).
Proof.
  intros ke kx. apply (device_list_authentic (RawBytes (to_bytes sample_list)) ke kx).
  - apply ok_or_eq. vm_compute. reflexivity.
  - vm_compute. reflexivity.
Defined.

Lemma device_keys_published_witness :
  let k := keys_create sample_identity "phone" (repeat "s"%char 32) (repeat "a"%char 32) in
  (∃ record,
     seal_payload sample_nonce (dk_isign k) (dk_idh k) (keys_address k) (keys_to_bytes k)
     = Ok (canonical_json (JObj record)) ∧
     ∀ r, arrives record r →
       (let? opened := open_signed_payload r (ed_public_bytes sample_identity) (x_public_bytes sample_identity) in
        keys_from_bytes (RawJson opened)) = Ok k) ∧
  keys_belong_to k (identity_id sample_identity) (ed_public_bytes sample_identity)
    (x_public_bytes sample_identity) = true ∧
  ∀ r k', keys_from_bytes r = Ok k' →
    keys_belong_to k' (identity_id sample_identity) (ed_public_bytes sample_identity)
      (x_public_bytes sample_identity) = true →
    verify (ed_public_bytes sample_identity) (dk_signature k') (keys_signed_bytes k') = true ∧
    (utf8_str (dk_device_id k') → keys_signed_bytes k' = keys_signed_bytes k →
     dk_device_id k' = "phone"%string ∧ sdev k' = repeat "s"%char 32 ∧ sagree k' = repeat "a"%char 32).
Proof.
  apply (device_keys_published sample_identity "phone" (repeat "s"%char 32) (repeat "a"%char 32) sample_nonce).
  - exact owner_wf.
  - vm_compute. reflexivity.
  - reflexivity.
  - reflexivity.
  - reflexivity.
Defined.

Lemma signatures_one_purpose_witness :
  signed AList (signed_bytes sample_list) ∧ AList = AList.
Proof.
  split; [constructor|]. apply (signatures_one_purpose AList AList (signed_bytes sample_list)); constructor.
Defined.
