(* ===== verification/DeviceChannel.v ===== *)
(** * The device-to-device channel ([core/device_channel.py])

    Records one device of an account seals for another, and the running digest of a
    transfer.  The ephemeral key, the AEAD nonce and the clock are arguments. *)

From S2P Require Import Prelude PyStr Json JsonProps Dict Primitives Encoding Kdf.
From S2P Require Aead DeviceKeys Attachments.

Definition MAGIC : bytes := bs "NKS1".
Definition VERSION : Z := 1.
Definition PREFIX_BYTES : Z := 12.
Definition REQUEST : Z := 1.
Definition OFFER : Z := 2.
Definition ITEM : Z := 3.
Definition COMPLETE : Z := 4.
Definition APPROVAL : Z := 5.
Definition MIRROR : Z := 6.

(** [blob[a:b]] *)
Definition sub (a b : nat) (l : bytes) : bytes := take (b - a) (drop a l).
(** [blob[i]], in range *)
Definition byte_at (i : nat) (l : bytes) : Z := byte_val (nth i l "0"%char).

Definition is_device_record (blob : bytes) : bool :=
  (PREFIX_BYTES <=? blen blob) && bool_decide (take 4 blob = MAGIC).

(** [bytes([b])] wants an 8-bit value. *)
Definition one_byte (b : Z) : res ascii :=
  if (0 <=? b) && (b <? 256) then Ok (byte_of b) else Err ValueError.

Definition frame (kind : Z) (header : dict) (payload : bytes) : res bytes :=
  let header_bytes := canonical_json (JObj header) in
  let? k := one_byte kind in
  let? n := to_be 4 (blen header_bytes) in
  Ok (MAGIC ++ [byte_of VERSION; k] ++ [byte_of 0; byte_of 0] ++ n ++ header_bytes ++ payload).

Definition parse_record (blob : bytes) : res (Z * dict * bytes) :=
  raise_if negb (is_device_record blob) with SyncError ;;
  raise_if negb (byte_at 4 blob =? VERSION) with SyncError ;;
  let kind := byte_at 5 blob in
  let header_len := from_be (sub 8 12 blob) in
  raise_if (header_len <=? 0) || (blen blob <? PREFIX_BYTES + header_len) with SyncError ;;
  let stop := (12 + Z.to_nat header_len)%nat in
  let? header := except isa_ValueError SyncError (json_loads_bytes (sub 12 stop blob)) in
  match header with
  | JObj header => Ok (kind, header, drop stop blob)
  | _ => Err SyncError
  end.

Section channel.
Context {C : Crypto}.

Definition transfer_key (shared : bytes) (transfer_id : string) : bytes :=
  hkdf shared (bs transfer_id) DEVICE_SYNC_INFO 32.
Definition item_key (key : bytes) (seq : Z) : res bytes :=
  let? n := to_be 4 seq in Ok (hkdf key [] (DEVICE_SYNC_ITEM_INFO ++ n) 32).

Definition unsigned (header : dict) : dict := dpop "sig" header.

(** The header before and after it is signed. *)
Definition base_header (sender_device_id transfer_id : string) (eph : bytes) (now seq : Z) (extra : dict) : dict :=
  dupdate [("v", JInt VERSION); ("transfer", JStr transfer_id); ("from", JStr sender_device_id);
           ("eph", JStr (b64e eph)); ("ts", JInt now); ("seq", JInt seq)]%string extra.
Definition sign_header (sdev_private : bytes) (header : dict) : res dict :=
  let? sig := DeviceKeys.sign sdev_private (canonical_json (JObj (unsigned header))) in
  Ok (dset "sig" (JStr (b64e sig)) header).

Definition seal_record (ephemeral_private nonce : bytes) (now : Z) (kind : Z) (plaintext : bytes)
    (recipient_sagree : bytes) (sender_device_id : string) (sender_sdev_private : bytes)
    (transfer_id : string) (seq : Z) (extra : dict) : res bytes :=
  let? shared := DeviceKeys.agreement ephemeral_private recipient_sagree in
  let key := transfer_key shared transfer_id in
  let? eph := DeviceKeys.agreement_public ephemeral_private in
  let? header := sign_header sender_sdev_private
                   (base_header sender_device_id transfer_id eph now seq extra) in
  let ad := canonical_json (JObj header) in
  let? ikey := item_key key seq in
  let? (nonce, ciphertext) := Aead.encrypt nonce ikey plaintext ad in
  frame kind header (nonce ++ ciphertext).

(** The header fields [open_record] reads. *)
Definition header_fields (header : json) : res (bytes * bytes * string * Z) :=
  except isa_KTV SyncError
    (let? signature := (let? j := jitem "sig" header in b64d (to_pystr j)) in
     let? ephemeral := (let? j := jitem "eph" header in b64d (to_pystr j)) in
     let? transfer_id := jitem "transfer" header in
     let? seq := (let? j := jget "seq" header in to_int (jor j (JInt 0))) in
     Ok (signature, ephemeral, to_pystr transfer_id, seq)).

Definition open_record (blob my_sagree_private sender_sdev : bytes) (sender_device_id : string)
    : res (Z * dict * bytes) :=
  let? (kind, header, payload) := parse_record blob in
  let? from := jget "from" (JObj header) in
  raise_if negb (String.eqb (to_pystr from) sender_device_id) with SyncError ;;
  let? (signature, ephemeral, transfer_id, seq) := header_fields (JObj header) in
  raise_if negb (DeviceKeys.verify sender_sdev signature (canonical_json (JObj (unsigned header))))
    with SyncError ;;
  let? shared := DeviceKeys.agreement my_sagree_private ephemeral in
  let key := transfer_key shared transfer_id in
  raise_if blen payload <=? 12 with SyncError ;;
  let ad := canonical_json (JObj header) in
  let? ikey := item_key key seq in
  let? plaintext := except (isa AEADError) SyncError
                      (Aead.decrypt ikey (take 12 payload) (drop 12 payload) ad) in
  Ok (kind, header, plaintext).

(** ** The hash chain: its state is the digest *)

(** [bytes.fromhex]: white space is skipped between the pairs. *)
Definition hex_ws (c : ascii) : bool := (code c =? 32) || ((9 <=? code c) && (code c <=? 13)).
Fixpoint fromhex_b (l : bytes) : res bytes :=
  match l with
  | [] => Ok []
  | c :: l1 =>
      if hex_ws c then fromhex_b l1 else
      match l1 with
      | [] => Err ValueError
      | d :: l2 =>
          match hexval c, hexval d with
          | Some x, Some y => let? r := fromhex_b l2 in Ok (byte_of (x * 16 + y) :: r)
          | _, _ => Err ValueError
          end
      end
  end.

Definition chain_init (seed resumed : string) : res bytes :=
  if String.eqb resumed "" then Ok (sha256 (bs seed)) else fromhex_b (bs resumed).
Definition chain_input (digest item : bytes) (seq : Z) : res bytes :=
  let? n := to_be 4 seq in Ok (digest ++ n ++ item).
Definition chain_add (digest item : bytes) (seq : Z) : res bytes :=
  let? x := chain_input digest item seq in Ok (sha256 x).
Definition hexdigest (digest : bytes) : string := Attachments.hex digest.

(** Adding the numbered items one after the other. *)
Fixpoint chain_adds (digest : bytes) (items : list (bytes * Z)) : res bytes :=
  match items with
  | [] => Ok digest
  | (item, seq) :: rest => let? d := chain_add digest item seq in chain_adds d rest
  end.
End channel.

(** ** Frames *)

Lemma dget_dupdate k d e : k ∉ map fst e → dget k (dupdate d e) = dget k d.
Proof.
  unfold dupdate. revert d. induction e as [|[k' v'] e IH]; intros d Hk; [done|].
  cbn [map fst] in Hk. apply not_elem_of_cons in Hk as [Hne Hk]. cbn [fold_left].
  rewrite IH by done. by apply dget_dset_ne.
Qed.

Lemma wf_dupdate d e : wf_dict d → wf_dict e → wf_dict (dupdate d e).
Proof.
  unfold dupdate. intros Hd He. apply wf_dict_elems in He as [_ He]. revert d Hd.
  induction He as [|[k v] e [Hk Hv] _ IH]; intros d Hd; [done|]. cbn [fold_left fst snd].
  by apply IH, wf_dset.
Qed.

Lemma canonical_canon d : wf_dict d → canonical_json (JObj (canon_dict true d)) = canonical_json (JObj d).
Proof.
  intros Hd. symmetry. apply canonical_jeq; [by apply (wf_nodup utf8_str)|]. apply (jeq_canon true (JObj d)).
Qed.

Lemma canonical_unsigned d :
  wf_dict d → canonical_json (JObj (unsigned (canon_dict true d))) = canonical_json (JObj (unsigned d)).
Proof.
  intros Hd. unfold unsigned. rewrite canon_dict_dpop by by apply wf_dict_nodup.
  apply canonical_canon. by apply wf_dpop.
Qed.

Lemma canonical_obj_length d : 1 ≤ blen (canonical_json (JObj d)).
Proof.
  unfold blen. destruct d as [|kv d]; [vm_compute; done|].
  unfold canonical_json. rewrite canonical_length by done. lia.
Qed.

(** The layout of a frame. *)
Lemma frame_layout k n h p :
  length n = 4%nat →
  let blob := MAGIC ++ [byte_of VERSION; k] ++ [byte_of 0; byte_of 0] ++ n ++ h ++ p in
  is_device_record blob = true ∧ byte_at 4 blob = VERSION ∧ byte_at 5 blob = byte_val k ∧
  sub 8 12 blob = n ∧ sub 12 (12 + length h) blob = h ∧ drop (12 + length h) blob = p ∧
  blen blob = PREFIX_BYTES + blen h + blen p.
Proof.
  intros Hn. destruct n as [|a [|b [|c [|d [|]]]]]; try done. clear Hn. cbn zeta.
  set (blob := MAGIC ++ _).
  assert (blob = ["N"; "K"; "S"; "1"]%char ++ [byte_of VERSION; k; byte_of 0; byte_of 0; a; b; c; d] ++ h ++ p) as E by done.
  clearbody blob. subst blob.
  assert (blen (["N"; "K"; "S"; "1"]%char ++ [byte_of VERSION; k; byte_of 0; byte_of 0; a; b; c; d] ++ h ++ p)
          = PREFIX_BYTES + blen h + blen p) as Hlen.
  { unfold blen, PREFIX_BYTES. rewrite !length_app. cbn [length]. lia. }
  split_and!; try done.
  - unfold is_device_record. rewrite Hlen. unfold blen. rewrite bool_decide_eq_true_2 by done.
    rewrite (proj2 (Z.leb_le _ _)); [done|lia].
  - unfold sub. rewrite Nat.add_comm, Nat.add_sub. cbn [app drop]. apply take_app_length.
  - rewrite <-drop_drop. cbn [app drop]. apply drop_app_length.
Qed.

Lemma frame_parse kind header payload :
  wf_dict header → 0 ≤ kind < 256 → blen (canonical_json (JObj header)) < 2 ^ 32 →
  ∃ blob, frame kind header payload = Ok blob ∧
          parse_record blob = Ok (kind, canon_dict true header, payload).
Proof.
  intros Hwf Hk Hlen. unfold frame, one_byte, to_be. set (h := canonical_json (JObj header)) in *.
  rewrite (proj2 (andb_true_iff (0 <=? kind) _)) by lia. cbn [res_bind].
  pose proof (canonical_obj_length header) as Hpos. fold h in Hpos.
  rewrite (proj2 (andb_true_iff (0 <=? blen h) _)) by (change (256 ^ Z.of_nat 4) with (2 ^ 32); lia). cbn [res_bind].
  eexists. split; [reflexivity|]. set (n := to_be_raw 4 (blen h)).
  destruct (frame_layout (byte_of kind) n h payload (to_be_raw_length _ _)) as (H1 & H2 & H3 & H4 & H5 & H6 & H7).
  set (blob := MAGIC ++ _) in *. clearbody blob. unfold parse_record. rewrite H1, H2, H3, H4, H7.
  assert (from_be n = blen h) as En by (apply from_be_to_be_raw; change (256 ^ Z.of_nat 4) with (2 ^ 32); lia).
  rewrite En, Z.eqb_refl. cbn [negb].
  rewrite (proj2 (Z.leb_gt _ _)), (proj2 (Z.ltb_ge _ _)) by (unfold blen in *; lia). cbn [orb].
  unfold blen at 1 2. rewrite Nat2Z.id, H5, H6. unfold h. rewrite canonical_json_loads by done.
  cbn [except res_bind]. rewrite canon_obj. by rewrite byte_val_of, Z.mod_small.
Qed.

(** ** Sealing and opening *)

Section channel_props.
Context {C : Crypto} {L : CryptoLaws C}.

(** The header keys of the protocol; extra fields use others. *)
Definition reserved : list string := ["v"; "transfer"; "from"; "eph"; "ts"; "seq"; "sig"]%string.

Lemma base_header_wf did tid eph now seq extra :
  utf8_str did → utf8_str tid → wf_dict extra → wf_dict (base_header did tid eph now seq extra).
Proof using.
  intros H1 H2 H3. apply wf_dupdate; [|done]. assert (utf8_str (b64e eph)) by apply b64e_utf8. solve_wf.
Qed.

Lemma header_get did tid eph now seq extra sig k v :
  Forall (λ kv : string * json, kv.1 ∉ reserved) extra →
  dget k [("v", JInt VERSION); ("transfer", JStr tid); ("from", JStr did);
          ("eph", JStr (b64e eph)); ("ts", JInt now); ("seq", JInt seq)]%string = Some v →
  k ∈ reserved → k ≠ "sig"%string →
  dget k (dset "sig" sig (base_header did tid eph now seq extra)) = Some v.
Proof using.
  intros He Hv Hk Hs. rewrite dget_dset_ne by done. unfold base_header. rewrite dget_dupdate; [done|].
  intros ([k' v'] & -> & Hin)%list_elem_of_fmap. rewrite Forall_forall in He. by apply (He _ Hin).
Qed.

Lemma parse_is_record blob r : parse_record blob = Ok r → is_device_record blob = true.
Proof using. unfold parse_record. by destruct (is_device_record blob). Qed.

(** What [open_record] reads from a signed header. *)
Lemma header_read did tid eph now seq extra sig :
  utf8_str did → utf8_str tid → wf_dict extra → Forall (λ kv : string * json, kv.1 ∉ reserved) extra →
  let header := dset "sig"%string (JStr (b64e sig)) (base_header did tid eph now seq extra) in
  jget "from" (JObj (canon_dict true header)) = Ok (JStr did) ∧
  header_fields (JObj (canon_dict true header)) = Ok (sig, eph, tid, seq).
Proof using C L.
  intros Hd Ht He Hr. cbn zeta. set (header := dset _ _ _).
  assert (wf_dict header) as Hwf by (apply wf_dset; [done|apply b64e_utf8|by apply base_header_wf]).
  assert (∀ k v, dget k [("v", JInt VERSION); ("transfer", JStr tid); ("from", JStr did);
          ("eph", JStr (b64e eph)); ("ts", JInt now); ("seq", JInt seq)]%string = Some v →
          k ∈ reserved → k ≠ "sig"%string → dget k header = Some v) as Hget
    by (intros; by apply header_get).
  pose proof (canon_views true header (wf_dict_nodup _ Hwf)) as V. rewrite canon_obj in V.
  assert (dget "sig" header = Some (JStr (b64e sig))) as Hs by apply dget_dset.
  split.
  - rewrite (vw_get _ _ _ V "from" (JStr did)); [done|]. apply Hget; [done|set_solver|done].
  - unfold header_fields. rewrite (vw_item _ _ _ V _ _ Hs).
    rewrite (vw_item _ _ _ V "eph" (JStr (b64e eph))), (vw_item _ _ _ V "transfer" (JStr tid)),
      (vw_get _ _ _ V "seq" (JInt seq)) by (apply Hget; [done|set_solver|done]).
    rewrite !canon_str, canon_int. cbn [res_bind to_pystr]. rewrite !b64d_b64e. cbn [res_bind except].
    unfold jor. cbn [truthy]. destruct (Z.eqb_spec seq 0) as [->|]; done.
Qed.

(** A device record reaches its recipient.  A record sealed with the sender's
    device key for the recipient's agreement key is a record of the channel, and the
    recipient, knowing the sender's public key and id, opens it to the kind, the
    header and the plaintext that were sent, as long as the header's text is under
    four gigabytes. *)
Theorem record_roundtrip a b eph nonce now kind p did tid seq extra :
  length a = 32%nat → length b = 32%nat → length eph = 32%nat → length nonce = 12%nat →
  utf8_str did → utf8_str tid → wf_dict extra → Forall (λ kv : string * json, kv.1 ∉ reserved) extra →
  0 ≤ kind < 256 → 0 ≤ seq < 2 ^ 32 →
  ∃ header, sign_header a (base_header did tid (x25519_public eph) now seq extra) = Ok header ∧
    (blen (canonical_json (JObj header)) < 2 ^ 32 →
     ∃ blob, seal_record eph nonce now kind p (x25519_public b) did a tid seq extra = Ok blob ∧
       is_device_record blob = true ∧
       open_record blob b (ed25519_public a) did = Ok (kind, canon_dict true header, p)).
Proof using L.
  intros Ha Hb Heph Hn Hd Ht He Hr Hk Hseq.
  destruct (DeviceKeys.device_verify_sign a (canonical_json (JObj (unsigned
    (base_header did tid (x25519_public eph) now seq extra)))) Ha) as (sig & Es & Ev & _).
  destruct (DeviceKeys.agreement_both eph b Heph Hb) as (shared & E1 & E2 & _).
  destruct (header_read did tid (x25519_public eph) now seq extra sig Hd Ht He Hr) as [Hfrom Hfields].
  set (base := base_header _ _ _ _ _ _) in *. set (header := dset _ _ base) in *.
  assert (sign_header a base = Ok header) as Eh by (unfold sign_header; by rewrite Es).
  exists header. split; [done|]. intros Hlen.
  assert (wf_dict base) as Hbase by by apply base_header_wf.
  assert (wf_dict header) as Hwf by (apply wf_dset; [done|apply b64e_utf8|done]).
  assert (∃ ikey, item_key (transfer_key shared tid) seq = Ok ikey ∧ length ikey = 32%nat) as (ikey & Ei & Hi).
  { unfold item_key, to_be. rewrite (proj2 (andb_true_iff (0 <=? seq) _)) by (change (256 ^ Z.of_nat 4) with (2 ^ 32); lia).
    eexists. split; [reflexivity|]. apply hkdf_length. }
  set (ct := chacha_encrypt ikey nonce p (canonical_json (JObj header))).
  destruct (frame_parse kind header (nonce ++ ct) Hwf Hk Hlen) as (blob & Ef & Ep).
  exists blob. split_and!.
  - unfold seal_record. rewrite E1. cbn [res_bind]. unfold DeviceKeys.agreement_public, DeviceKeys.private_ok, blen.
    rewrite Heph. change (Z.of_nat 32 =? 32) with true. cbn [negb res_bind]. fold base. rewrite Eh. cbn [res_bind].
    rewrite Ei. cbn [res_bind]. unfold Aead.encrypt, blen. by rewrite Hi.
  - by eapply parse_is_record.
  - unfold open_record. rewrite Ep. cbn [res_bind]. rewrite Hfrom. cbn [res_bind to_pystr].
    rewrite String.eqb_refl. cbn [negb]. rewrite Hfields. cbn [res_bind].
    rewrite canonical_unsigned by done. unfold header, unsigned. rewrite dpop_dset. fold (unsigned base). rewrite Ev.
    cbn [negb]. rewrite E2. cbn [res_bind]. fold header.
    assert (length ct = (length p + 16)%nat) as Hct by apply chacha_length.
    unfold blen. rewrite length_app, Hn, Hct. destruct (Z.leb_spec (Z.of_nat (12 + (length p + 16))) 12); [lia|].
    rewrite Ei. cbn [res_bind]. rewrite take_app_length', drop_app_length' by done.
    rewrite canonical_canon by done.
    by rewrite (proj2 (Aead.decrypt_iff _ _ _ _ p)) by (unfold Aead.encrypt, blen; rewrite Hi; done).
Qed.

(** What a recipient opens is what its sibling signed.  The header names the
    expected device and carries a signature by that device's key over all its other
    fields, and the rest of the record is exactly the encryption of the plaintext
    under the key both devices derive, bound to the whole header. *)
Theorem record_authentic blob priv sdev did kind header p :
  open_record blob priv sdev did = Ok (kind, header, p) →
  ∃ from sig eph tid seq shared ikey nonce,
    jget "from" (JObj header) = Ok from ∧ to_pystr from = did ∧
    header_fields (JObj header) = Ok (sig, eph, tid, seq) ∧
    DeviceKeys.verify sdev sig (canonical_json (JObj (unsigned header))) = true ∧
    DeviceKeys.agreement priv eph = Ok shared ∧ item_key (transfer_key shared tid) seq = Ok ikey ∧
    parse_record blob = Ok (kind, header, nonce ++ chacha_encrypt ikey nonce p (canonical_json (JObj header))).
Proof using L.
  unfold open_record. intros ([[k h] payload] & Ep & E)%res_bind_Ok.
  apply res_bind_Ok in E as (from & Ef & E). destruct (String.eqb_spec (to_pystr from) did) as [Hd|]; [|done].
  cbn [negb] in E. apply res_bind_Ok in E as ([[[sig eph] tid] seq] & Eh & E).
  destruct (DeviceKeys.verify _ _ _) eqn:Ev; cbn [negb] in E; [|done].
  apply res_bind_Ok in E as (shared & Es & E). destruct (blen payload <=? 12); [done|].
  apply res_bind_Ok in E as (ikey & Ei & E). apply res_bind_Ok in E as (p' & Ed & E). injection E as -> -> ->.
  apply except_Ok in Ed. apply Aead.decrypt_iff in Ed as (Hk & Hn & Ed).
  exists from, sig, eph, tid, seq, shared, ikey, (take 12 payload). split_and!; try done.
  rewrite Ep. do 2 f_equal. rewrite <-(take_drop 12 payload) at 1. f_equal.
  unfold Aead.encrypt, blen in Ed. rewrite Hk in Ed. cbn in Ed. by injection Ed.
Qed.

(** The kind byte stands outside the signed header: changing it goes unnoticed. *)
Definition with_kind (kind : Z) (blob : bytes) : bytes := take 5 blob ++ [byte_of kind] ++ drop 6 blob.

Lemma parse_with_kind k blob kind h p :
  0 ≤ k < 256 → parse_record blob = Ok (kind, h, p) → parse_record (with_kind k blob) = Ok (k, h, p).
Proof using.
  intros Hk E. pose proof (parse_is_record _ _ E) as Hr. unfold is_device_record, PREFIX_BYTES, blen in Hr.
  apply andb_true_iff in Hr as [Hl _]. apply Z.leb_le in Hl.
  do 12 (destruct blob as [|? blob]; [cbn [length] in Hl; lia|]). clear Hl.
  revert E. unfold with_kind, parse_record, is_device_record, byte_at, sub, blen.
  cbn [take drop app length nth Nat.sub Nat.add].
  destruct (negb _); [done|]. destruct (negb _); [done|]. destruct (_ || _); [done|].
  destruct (except _ _ _) as [[]|]; cbn [res_bind]; try done. intros [= _ -> ->].
  by rewrite byte_val_of, Z.mod_small.
Qed.

Lemma kind_not_authenticated blob priv sdev did kind h p k :
  0 ≤ k < 256 → open_record blob priv sdev did = Ok (kind, h, p) →
  open_record (with_kind k blob) priv sdev did = Ok (k, h, p).
Proof using.
  intros Hk E. unfold open_record in *. apply res_bind_Ok in E as ([[k0 h0] payload] & Ep & E).
  rewrite (parse_with_kind k blob k0 h0 payload Hk Ep). cbn [res_bind] in *.
  repeat match type of E with
  | res_bind ?m _ = Ok _ => destruct m; [cbn [res_bind] in *|discriminate E]
  | (if ?b then Err _ else _) = Ok _ => destruct b; [discriminate E|]
  | (let '(_, _) := ?x in _) = Ok _ => destruct x
  end.
  injection E as _ -> ->. done.
Qed.
End channel_props.

(** ** The hash chain *)

Lemma hexdig_val v : 0 ≤ v < 16 → hexval (hexdig v) = Some v ∧ hex_ws (hexdig v) = false.
Proof.
  intros Hv. rewrite <-(Z2Nat.id v) by lia. assert (Z.to_nat v < 16)%nat as Hn by lia. revert Hn.
  generalize (Z.to_nat v). intros n Hn. do 16 (destruct n as [|n]; [by vm_compute|]). lia.
Qed.

Lemma fromhex_hex b : fromhex_b (bs (Attachments.hex b)) = Ok b.
Proof.
  unfold Attachments.hex. rewrite bs_to_str. induction b as [|c b IH]; [done|]. cbn [map concat app fromhex_b].
  pose proof (byte_val_range c) as Hc.
  destruct (hexdig_val (byte_val c / 16)) as [Hx Hw].
  { split; [apply Z.div_pos; lia|apply Z.div_lt_upper_bound; lia]. }
  destruct (hexdig_val (byte_val c mod 16)) as [Hy _]; [by apply Z.mod_pos_bound|].
  rewrite Hw, Hx, Hy, IH. cbn [res_bind]. do 2 f_equal.
  rewrite <-(byte_of_val c) at 3. f_equal. pose proof (Z.div_mod (byte_val c) 16). lia.
Qed.

Lemma hex_not_empty b : b ≠ [] → Attachments.hex b ≠ ""%string.
Proof.
  intros Hb E. pose proof (fromhex_hex b) as H. rewrite E in H. cbn in H. congruence.
Qed.

Section chain.
Context {C : Crypto} {L : CryptoLaws C}.

Lemma chain_adds_app d a b : chain_adds d (a ++ b) = (let? d' := chain_adds d a in chain_adds d' b).
Proof using.
  revert d. induction a as [|[item n] a IH]; intros d; [done|]. cbn [app chain_adds].
  destruct (chain_add d item n); [|done]. apply IH.
Qed.

Lemma chain_add_length d item n d' : chain_add d item n = Ok d' → length d' = 32%nat.
Proof using L. unfold chain_add. intros E. rinv E. subst. apply sha256_length. Qed.

Lemma chain_adds_length d items d' : length d = 32%nat → chain_adds d items = Ok d' → length d' = 32%nat.
Proof using L.
  revert d. induction items as [|[item n] items IH]; intros d Hd E; cbn [chain_adds] in E; [by injection E as <-|].
  apply res_bind_Ok in E as (d1 & E1 & E). eapply IH; [|exact E]. by eapply chain_add_length.
Qed.

(** The strings a chain hashes, the seed first. *)
Fixpoint chain_inputs (d : bytes) (items : list (bytes * Z)) : list bytes :=
  match items with
  | [] => []
  | (item, seq) :: rest =>
      let x := d ++ to_be_raw 4 seq ++ item in x :: chain_inputs (sha256 x) rest
  end.
Definition hashed (seed : string) (items : list (bytes * Z)) : list bytes :=
  bs seed :: chain_inputs (sha256 (bs seed)) items.

Lemma chain_adds_snoc d items item n d' :
  chain_adds d (items ++ [(item, n)]) = Ok d' →
  ∃ d1, chain_adds d items = Ok d1 ∧ 0 ≤ n < 2 ^ 32 ∧ d' = sha256 (d1 ++ to_be_raw 4 n ++ item).
Proof using.
  rewrite chain_adds_app. intros (d1 & E1 & E)%res_bind_Ok. exists d1. split; [done|].
  cbn [chain_adds] in E. unfold chain_add, chain_input in E. rinv E. subst.
  match goal with H : to_be 4 n = Ok _ |- _ => apply to_be_Ok in H as [Hn ->] end. done.
Qed.

Lemma chain_inputs_snoc d items item n d1 :
  chain_adds d items = Ok d1 →
  chain_inputs d (items ++ [(item, n)]) = chain_inputs d items ++ [d1 ++ to_be_raw 4 n ++ item].
Proof using.
  revert d. induction items as [|[it m] items IH]; intros d E; cbn [chain_adds] in E; [by injection E as <-|].
  apply res_bind_Ok in E as (d2 & E2 & E). cbn [app chain_inputs]. f_equal.
  unfold chain_add, chain_input in E2. rinv E2. subst.
  match goal with H : to_be 4 m = Ok _ |- _ => apply to_be_Ok in H as [_ ->] end. by apply IH.
Qed.

Lemma chain_binds_digest seed items items' d :
  (length (bs seed) < 36)%nat →
  (∀ x y, x ∈ hashed seed items ++ hashed seed items' → y ∈ hashed seed items ++ hashed seed items' →
          sha256 x = sha256 y → x = y) →
  chain_adds (sha256 (bs seed)) items = Ok d → chain_adds (sha256 (bs seed)) items' = Ok d → items = items'.
Proof using L.
  intros Hs. pose proof (sha256_length (bs seed)) as H0. unfold hashed. revert items' d.
  induction items as [|[item n] items IH] using rev_ind; intros items' d Hinj E E'.
  - destruct items' as [|[item' n'] items' _] using rev_ind; [done|]. exfalso. cbn [chain_adds] in E. injection E as <-.
    destruct (chain_adds_snoc _ _ _ _ _ E') as (d1 & E1 & _ & Ed).
    pose proof (chain_adds_length _ _ _ H0 E1) as Hd1. apply Hinj in Ed; [|set_solver|].
    2:{ rewrite (chain_inputs_snoc _ _ _ _ _ E1). set_solver. }
    apply (f_equal length) in Ed. rewrite !length_app, to_be_raw_length in Ed. lia.
  - destruct (chain_adds_snoc _ _ _ _ _ E) as (d1 & E1 & Hn & Ed).
    pose proof (chain_adds_length _ _ _ H0 E1) as Hd1.
    destruct items' as [|[item' n'] items' _] using rev_ind.
    + exfalso. cbn [chain_adds] in E'. injection E' as <-. apply Hinj in Ed; [|set_solver|].
      2:{ rewrite (chain_inputs_snoc _ _ _ _ _ E1). set_solver. }
      apply (f_equal length) in Ed. rewrite !length_app, to_be_raw_length in Ed. lia.
    + destruct (chain_adds_snoc _ _ _ _ _ E') as (d2 & E2 & Hn' & Ed').
      pose proof (chain_adds_length _ _ _ H0 E2) as Hd2. rewrite (chain_inputs_snoc _ _ _ _ _ E1) in Hinj.
      rewrite (chain_inputs_snoc _ _ _ _ _ E2) in Hinj. rewrite Ed in Ed'.
      apply Hinj in Ed'; [|set_solver..]. apply app_inj_len in Ed' as [-> Ed']; [|lia].
      apply app_inj_len in Ed' as [En ->]; [|by rewrite !to_be_raw_length].
      apply (f_equal from_be) in En. change (2 ^ 32) with (256 ^ Z.of_nat 4) in *.
      rewrite !from_be_to_be_raw in En by done. subst n'. f_equal.
      apply (IH items' d2); [|done..]. intros x y Hx Hy. apply Hinj; set_solver.
Qed.

(** A transfer's digest stands for the transfer.  The digest may be kept as text
    and the chain resumed from it after any number of items; and unless two of the
    strings it hashed collide under SHA-256, the digest determines every item, its
    number and their order. *)
Theorem hash_chain_binds seed items items' d :
  (length (bs seed) < 36)%nat →
  (let? d0 := chain_init seed "" in chain_adds d0 items) = Ok d →
  (∀ first rest d1, items = first ++ rest → (let? d0 := chain_init seed "" in chain_adds d0 first) = Ok d1 →
     (let? d0 := chain_init seed (hexdigest d1) in chain_adds d0 rest) = Ok d) ∧
  ((∀ x y, x ∈ hashed seed items ++ hashed seed items' → y ∈ hashed seed items ++ hashed seed items' →
           sha256 x = sha256 y → x = y) →
   (let? d0 := chain_init seed "" in chain_adds d0 items') = Ok d → items' = items).
Proof using L.
  unfold chain_init at 1 2 4. cbn [String.eqb res_bind]. intros Hs E. split.
  - intros first rest d1 -> E1. rewrite chain_adds_app, E1 in E. cbn [res_bind] in E.
    pose proof (chain_adds_length _ _ _ (sha256_length _) E1) as Hl.
    unfold chain_init, hexdigest. rewrite (proj2 (String.eqb_neq _ _)) by (apply hex_not_empty; by destruct d1).
    by rewrite fromhex_hex.
  - intros Hinj E'. symmetry. by eapply chain_binds_digest.
Qed.
End chain.

(** ** A concrete transfer *)

Import Toy.

Definition k32 (c : ascii) : bytes := repeat c 32.
Definition sample_extra : dict := [("count"%string, JInt 1)].
Definition sample_record : bytes :=
  ok_or [] (seal_record (k32 "e") (repeat "n"%char 12) 9 ITEM (bs "item") (x25519_public (k32 "b"))
              "phone" (k32 "a") "t1" 1 sample_extra).

Lemma record_roundtrip_witness :
  ∃ header, sign_header (k32 "a") (base_header "phone" "t1" (x25519_public (k32 "e")) 9 1 sample_extra) = Ok header ∧
    (blen (canonical_json (JObj header)) < 2 ^ 32 →
     ∃ blob, seal_record (k32 "e") (repeat "n"%char 12) 9 ITEM (bs "item") (x25519_public (k32 "b"))
               "phone" (k32 "a") "t1" 1 sample_extra = Ok blob ∧
       is_device_record blob = true ∧
       open_record blob (k32 "b") (ed25519_public (k32 "a")) "phone" = Ok (ITEM, canon_dict true header, bs "item")).
Proof.
  apply (record_roundtrip (k32 "a") (k32 "b") (k32 "e") (repeat "n"%char 12) 9 ITEM (bs "item") "phone" "t1" 1
           sample_extra); try reflexivity.
  - apply (wf_dset "count" (JInt 1) []); [vm_compute; reflexivity | exact I | repeat constructor].
  - constructor; [|constructor]. apply (bool_decide_unpack _). vm_compute. exact I.
  - split; [discriminate | reflexivity].
  - split; [discriminate | reflexivity].
Defined.

Lemma record_authentic_witness :
  let opened := ok_or (0, [], []) (open_record sample_record (k32 "b") (ed25519_public (k32 "a")) "phone") in
  let header := opened.1.2 in
  ∃ from sig eph tid seq shared ikey nonce,
    jget "from" (JObj header) = Ok from ∧ to_pystr from = "phone"%string ∧
    header_fields (JObj header) = Ok (sig, eph, tid, seq) ∧
    DeviceKeys.verify (ed25519_public (k32 "a")) sig (canonical_json (JObj (unsigned header))) = true ∧
    DeviceKeys.agreement (k32 "b") eph = Ok shared ∧ item_key (transfer_key shared tid) seq = Ok ikey ∧
    parse_record sample_record
      = Ok (opened.1.1, header, nonce ++ chacha_encrypt ikey nonce opened.2 (canonical_json (JObj header))).
Proof.
  intros opened header.
  apply (record_authentic sample_record (k32 "b") (ed25519_public (k32 "a")) "phone" opened.1.1 header opened.2).
  rewrite <-!surjective_pairing. apply ok_or_eq. vm_compute. reflexivity.
Defined.

Lemma hash_chain_binds_witness :
  let items := [(bs "one", 1); (bs "two", 2)] in
  let d := ok_or [] (chain_adds (sha256 (bs "t1")) items) in
  (∀ first rest d1, items = first ++ rest → (let? d0 := chain_init "t1" "" in chain_adds d0 first) = Ok d1 →
     (let? d0 := chain_init "t1" (hexdigest d1) in chain_adds d0 rest) = Ok d) ∧
  ((∀ x y, x ∈ hashed "t1" items ++ hashed "t1" items → y ∈ hashed "t1" items ++ hashed "t1" items →
           sha256 x = sha256 y → x = y) →
   (let? d0 := chain_init "t1" "" in chain_adds d0 items) = Ok d → items = items).
Proof.
  intros items d. apply (hash_chain_binds "t1" items items d).
  - apply Nat.ltb_lt. vm_compute. reflexivity.
  - apply ok_or_eq. vm_compute. reflexivity.
Defined.
