(* ===== verification/Sql.v ===== *)
(** * SQL values

    What the relay's database and the client's store share of SQLite: the values a
    column takes, sums, and the [LIKE] operator. *)

From S2P Require Import Prelude PyStr Json.

(** A SQLite integer is 64 bits wide; Python's [sqlite3] refuses a wider one. *)
Definition int64 (n : Z) : bool := (- 2 ^ 63 <=? n) && (n <? 2 ^ 63).

(** An [int] bound to a parameter. *)
Definition sql_int (n : Z) : res Z := if int64 n then Ok n else Err OverflowError.

(** A value bound to a TEXT column: a number is stored as its text, [None] is NULL,
    and a list or dict cannot be bound. *)
Definition sql_text (j : json) : res (option string) :=
  match j with
  | JStr s => Ok (Some s)
  | JInt n => if int64 n then Ok (Some (int_str n)) else Err OverflowError
  | JBool b => Ok (Some (int_str (bool_int b)))
  | JNull => Ok None
  | _ => Err SqlInterfaceError
  end.

(** The same for a NOT NULL column. *)
Definition sql_text_nn (j : json) : res string :=
  let? t := sql_text j in of_option IntegrityError t.
(** A nullable TEXT column read back. *)
Definition text_json (t : option string) : json := match t with Some s => JStr s | None => JNull end.
(** [column = ?]: NULL equals nothing. *)
Definition sql_eq (column parameter : option string) : bool :=
  match column, parameter with Some a, Some b => String.eqb a b | _, _ => false end.

(** ** [LIKE]: [%] stands for any text, [_] for one character; ASCII letters match in
    both cases.  SQLite refuses a pattern over 50000 bytes; such a pattern is outside
    the model. *)

Definition MAX_LIKE : Z := 50000.
Fixpoint like_chars (p : list bytes) : list bytes → bool :=
  match p with
  | [] => λ s, match s with [] => true | _ => false end
  | c :: p' =>
      if bool_decide (c = bs "%") then
        fix any (s : list bytes) : bool :=
          like_chars p' s || match s with [] => false | _ :: s' => any s' end
      else λ s, match s with
                | [] => false
                | d :: s' => (bool_decide (c = bs "_") || bool_decide (ascii_lower c = ascii_lower d))
                             && like_chars p' s'
                end
  end.
Definition sql_like (text pattern : string) : res bool :=
  raise_if MAX_LIKE <? blen (bs pattern) with Unmodelled ;;
  Ok (like_chars (utf8_chars [] (bs pattern)) (utf8_chars [] (bs text))).

(** ** Sums *)

Fixpoint zsum {A} (f : A → Z) (l : list A) : Z :=
  match l with [] => 0 | x :: l' => f x + zsum f l' end.

Lemma zsum_app {A} (f : A → Z) l k : zsum f (l ++ k) = zsum f l + zsum f k.
Proof. induction l as [|x l IH]; cbn; [done|]. rewrite IH. lia. Qed.

Lemma zsum_perm {A} (f : A → Z) l k : l ≡ₚ k → zsum f l = zsum f k.
Proof. induction 1; cbn; lia. Qed.

Lemma zsum_nonneg {A} (f : A → Z) l : Forall (λ x, 0 ≤ f x) l → 0 ≤ zsum f l.
Proof. induction 1; cbn; lia. Qed.

Lemma zsum_submseteq {A} (f : A → Z) l k :
  l ⊆+ k → Forall (λ x, 0 ≤ f x) k → zsum f l ≤ zsum f k.
Proof.
  intros (r & Hp)%submseteq_Permutation Hk. rewrite (zsum_perm _ _ _ Hp), zsum_app.
  rewrite Hp in Hk. apply Forall_app in Hk as [_ Hr]. pose proof (zsum_nonneg _ _ Hr). lia.
Qed.

Lemma zsum_filter {A} (f : A → Z) (P : A → bool) l :
  zsum f (List.filter P l) = zsum (λ x, if P x then f x else 0) l.
Proof. induction l as [|x l IH]; cbn; [done|]. destruct (P x); cbn; lia. Qed.

Lemma zsum_filter_le {A} (f : A → Z) (P : A → bool) l :
  Forall (λ x, 0 ≤ f x) l → zsum f (List.filter P l) ≤ zsum f l.
Proof. induction 1 as [|x l]; cbn; [lia|]. destruct (P x); cbn; lia. Qed.

Lemma zsum_map {A B} (f : B → Z) (g : A → B) l : zsum f (map g l) = zsum (λ x, f (g x)) l.
Proof. induction l; cbn; congruence. Qed.

Lemma filter_filter_and {A} (P Q : A → bool) l :
  List.filter P (List.filter Q l) = List.filter (λ x, Q x && P x) l.
Proof.
  induction l as [|x l IH]; [done|]. cbn. destruct (Q x); cbn; [destruct (P x)|]; by rewrite IH.
Qed.
Lemma filter_true {A} (l : list A) : List.filter (λ _, true) l = l.
Proof. induction l as [|x l IH]; [done|]. cbn. by rewrite IH. Qed.
