(* ===== verification/Db.v ===== *)
(** * The relay's database ([server/db.py])

    The SQLite tables as finite maps (the tables with a primary key) and lists in
    rowid order (the tables with an autoincrement key).  Every method is one
    [with self._connect()] block: [connect] commits its changes or, when an
    exception leaves the block, rolls all of them back.  SQLite serialises the
    writing transactions, so a run of the relay is a sequence of these methods
    ([dbop], [apply_op]). *)

From S2P Require Import Prelude PyStr Json JsonProps.
From S2P Require Export Sql.

Record mailbox := {
  read_token_hash : bytes;
  write_token_hash : bytes;
  mb_created_at : Z;
  last_seen : Z;
  max_messages : Z;
  max_bytes : Z;
  next_seq : Z
}.
Record message := {
  msg_mailbox : string;
  seq : Z;
  ciphertext : bytes;
  msg_created_at : Z;
  msg_size : Z
}.
Record bundle_row := { payload : string; b_created_at : Z }.
Record opk_row := { opk_bundle : string; opk_id : Z; opk : string; used : bool }.
Record blob := { blob_mailbox : string; blob_data : bytes; blob_size : Z; blob_created_at : Z }.

Record db := {
  mailboxes : gmap string mailbox;
  messages : list message;
  prekey_bundles : gmap string bundle_row;
  prekey_one_time : list opk_row;
  blobs : gmap string blob
}.

Definition empty_db : db :=
  {| mailboxes := ∅; messages := []; prekey_bundles := ∅; prekey_one_time := []; blobs := ∅ |}.

(** Table updates. *)
Definition set_mailboxes (m : gmap string mailbox) (s : db) : db :=
  {| mailboxes := m; messages := messages s; prekey_bundles := prekey_bundles s;
     prekey_one_time := prekey_one_time s; blobs := blobs s |}.
Definition set_messages (m : list message) (s : db) : db :=
  {| mailboxes := mailboxes s; messages := m; prekey_bundles := prekey_bundles s;
     prekey_one_time := prekey_one_time s; blobs := blobs s |}.
Definition set_bundles (b : gmap string bundle_row) (s : db) : db :=
  {| mailboxes := mailboxes s; messages := messages s; prekey_bundles := b;
     prekey_one_time := prekey_one_time s; blobs := blobs s |}.
Definition set_opks (o : list opk_row) (s : db) : db :=
  {| mailboxes := mailboxes s; messages := messages s; prekey_bundles := prekey_bundles s;
     prekey_one_time := o; blobs := blobs s |}.
Definition set_blobs (b : gmap string blob) (s : db) : db :=
  {| mailboxes := mailboxes s; messages := messages s; prekey_bundles := prekey_bundles s;
     prekey_one_time := prekey_one_time s; blobs := b |}.

(** [with self._connect() as connection: ...] *)
Definition connect {A} (m : SE db A) : SE db A := λ s,
  match m s with
  | (Ok a, s') => (Ok a, s')
  | (Err e, _) => (Err e, s)
  end.

(** ** Mailboxes *)

Definition new_mailbox (r w : bytes) (now maxm maxb : Z) : mailbox :=
  {| read_token_hash := r; write_token_hash := w; mb_created_at := now; last_seen := now;
     max_messages := maxm; max_bytes := maxb; next_seq := 1 |}.

Definition create_mailbox (mailbox_id : string) (r w : bytes) (now maxm maxb : Z) : SE db unit :=
  connect (
    do! s := se_get in
    match mailboxes s !! mailbox_id with
    | Some _ => se_raise IntegrityError
    | None => se_modify (set_mailboxes (<[mailbox_id := new_mailbox r w now maxm maxb]> (mailboxes s)))
    end).

Definition get_mailbox (mailbox_id : string) : SE db (option mailbox) :=
  connect (do! s := se_get in se_ret (mailboxes s !! mailbox_id)).

Definition require_mailbox (mailbox_id : string) : SE db mailbox :=
  do! row := get_mailbox mailbox_id in
  match row with None => se_raise MailboxNotFound | Some m => se_ret m end.

Definition of_mailbox (mailbox_id : string) (m : message) : bool :=
  String.eqb (msg_mailbox m) mailbox_id.
Definition blob_of (mailbox_id : string) (b : blob) : bool :=
  String.eqb (blob_mailbox b) mailbox_id.

Definition delete_messages (P : message → bool) : SE db Z :=
  do! s := se_get in
  let gone := List.filter P (messages s) in
  do! _ := se_put (set_messages (List.filter (λ m, negb (P m)) (messages s)) s) in
  se_ret (Z.of_nat (length gone)).
Definition delete_blobs (P : blob → bool) : SE db Z :=
  do! s := se_get in
  let gone := filter (λ kv : string * blob, P kv.2 = true) (blobs s) in
  do! _ := se_put (set_blobs (filter (λ kv : string * blob, P kv.2 = false) (blobs s)) s) in
  se_ret (Z.of_nat (size gone)).

Definition delete_mailbox (mailbox_id : string) : SE db (Z * Z) :=
  connect (
    do! m := delete_messages (of_mailbox mailbox_id) in
    do! b := delete_blobs (blob_of mailbox_id) in
    do! s := se_get in
    do! _ := se_put (set_mailboxes (delete mailbox_id (mailboxes s)) s) in
    se_ret (m, b)).

Definition set_seen (now : Z) (m : mailbox) : mailbox :=
  {| read_token_hash := read_token_hash m; write_token_hash := write_token_hash m;
     mb_created_at := mb_created_at m; last_seen := now; max_messages := max_messages m;
     max_bytes := max_bytes m; next_seq := next_seq m |}.
Definition set_next (now n : Z) (m : mailbox) : mailbox :=
  {| read_token_hash := read_token_hash m; write_token_hash := write_token_hash m;
     mb_created_at := mb_created_at m; last_seen := now; max_messages := max_messages m;
     max_bytes := max_bytes m; next_seq := n |}.

Definition touch_mailbox (mailbox_id : string) (now : Z) : SE db unit :=
  connect (do! s := se_get in
           se_put (set_mailboxes (alter (set_seen now) mailbox_id (mailboxes s)) s)).

(** ** Messages *)

Definition blobs_of (mailbox_id : string) (s : db) : list blob :=
  List.filter (blob_of mailbox_id) (map snd (map_to_list (blobs s))).
Definition messages_of (mailbox_id : string) (s : db) : list message :=
  List.filter (of_mailbox mailbox_id) (messages s).
(** [(count, bytes)] *)
Definition usage (mailbox_id : string) (s : db) : Z * Z :=
  (Z.of_nat (length (messages_of mailbox_id s)),
   zsum msg_size (messages_of mailbox_id s) + zsum blob_size (blobs_of mailbox_id s)).

Definition put_message (mailbox_id : string) (data : bytes) (now : Z) : SE db Z :=
  let size := blen data in
  connect (
    do! s := se_get in
    match mailboxes s !! mailbox_id with
    | None => se_raise MailboxNotFound
    | Some mb =>
        let '(count, used) := usage mailbox_id s in
        do! _ := se_check ((max_messages mb <=? count) || (max_bytes mb <? used + size))
                   QuotaExceeded in
        let n := next_seq mb in
        (* UNIQUE (mailbox_id, seq) *)
        do! _ := se_check (existsb (λ m, of_mailbox mailbox_id m && (seq m =? n)) (messages s))
                   IntegrityError in
        do! _ := se_modify (set_messages (messages s ++
                   [{| msg_mailbox := mailbox_id; seq := n; ciphertext := data;
                       msg_created_at := now; msg_size := size |}])) in
        do! s := se_get in
        do! _ := se_put (set_mailboxes (alter (set_next now (n + 1)) mailbox_id (mailboxes s)) s) in
        se_ret n
    end).

Definition seq_le (a b : message) : Prop := seq a ≤ seq b.
#[export] Instance seq_le_dec : RelDecision seq_le.
Proof. intros a b. apply Z.le_dec. Defined.

(** [ORDER BY seq ASC LIMIT limit]; a negative limit means none. *)
Definition sql_limit {A} (limit : Z) (l : list A) : list A :=
  if limit <? 0 then l else take (Z.to_nat limit) l.
Definition get_messages (mailbox_id : string) (after_seq limit : Z) : SE db (list message) :=
  connect (
    do! _ := se_check (negb (int64 after_seq && int64 limit)) OverflowError in
    do! s := se_get in
    se_ret (sql_limit limit (merge_sort seq_le
              (List.filter (λ m, of_mailbox mailbox_id m && (after_seq <? seq m)) (messages s))))).

Definition ack_messages (mailbox_id : string) (upto_seq : Z) : SE db Z :=
  connect (
    do! _ := se_check (negb (int64 upto_seq)) OverflowError in
    delete_messages (λ m, of_mailbox mailbox_id m && (seq m <=? upto_seq))).

(** ** Prekeys *)

Definition insert_opk (bundle_id : string) (o : json) : SE db unit :=
  do! i := se_lift (let? i := jitem "opk_id" o in to_int i) in
  do! t := se_lift (jitem "opk" o) in
  do! _ := se_check (negb (int64 i)) OverflowError in
  do! t := se_lift (sql_text t) in
  do! s := se_get in
  match t with
  | None => se_ret tt
  | Some text =>
      if existsb (λ r, String.eqb (opk_bundle r) bundle_id && (opk_id r =? i)) (prekey_one_time s)
      then se_ret tt
      else se_put (set_opks (prekey_one_time s ++
             [{| opk_bundle := bundle_id; opk_id := i; opk := text; used := false |}]) s)
  end.

Fixpoint insert_opks (bundle_id : string) (opks : list json) : SE db unit :=
  match opks with
  | [] => se_ret tt
  | o :: opks' => do! _ := insert_opk bundle_id o in insert_opks bundle_id opks'
  end.

Definition publish_bundle (bundle_id : string) (payload : dict) (opks : list json) (now : Z)
    : SE db unit :=
  connect (
    do! s := se_get in
    let text := to_str (dumps fmt_default (JObj payload)) in
    let created := match prekey_bundles s !! bundle_id with
                   | Some row => b_created_at row   (* ON CONFLICT: only the payload *)
                   | None => now
                   end in
    do! _ := se_put (set_bundles
               (<[bundle_id := {| Db.payload := text; b_created_at := created |}]> (prekey_bundles s)) s) in
    insert_opks bundle_id opks).

(** The first unused one-time prekey of a bundle, marked used. *)
Fixpoint consume_opk (bundle_id : string) (rows : list opk_row) : option opk_row * list opk_row :=
  match rows with
  | [] => (None, [])
  | r :: rows' =>
      if String.eqb (opk_bundle r) bundle_id && negb (used r) then
        (Some r, {| opk_bundle := opk_bundle r; opk_id := opk_id r; opk := opk r; used := true |}
                 :: rows')
      else let '(o, rows'') := consume_opk bundle_id rows' in (o, r :: rows'')
  end.

Definition fetch_bundle (bundle_id : string) : SE db dict :=
  connect (
    do! s := se_get in
    match prekey_bundles s !! bundle_id with
    | None => se_raise BundleNotFound
    | Some row =>
        let '(o, rows) := consume_opk bundle_id (prekey_one_time s) in
        do! _ := se_put (set_opks rows s) in
        do! payload := se_lift (json_loads (Db.payload row)) in
        match payload with
        | JObj d =>
            se_ret (dset "opks" (JList (match o with
              | Some r => [JObj [("opk_id", JInt (opk_id r)); ("opk", JStr (opk r))]]
              | None => []
              end)) d)
        | _ => se_raise TypeError
        end
    end).

(** ** Blobs *)

Definition put_blob (chunk_id mailbox_id : string) (data : bytes) (now : Z) : SE db unit :=
  let size := blen data in
  connect (
    do! s := se_get in
    match mailboxes s !! mailbox_id with
    | None => se_raise MailboxNotFound
    | Some mb =>
        let '(_, used) := usage mailbox_id s in
        do! _ := se_check (max_bytes mb <? used + size) QuotaExceeded in
        match blobs s !! chunk_id with
        | Some _ => se_raise IntegrityError
        | None => se_put (set_blobs (<[chunk_id := {| blob_mailbox := mailbox_id; blob_data := data;
                            blob_size := size; blob_created_at := now |}]> (blobs s)) s)
        end
    end).

Definition get_blob (chunk_id : string) : SE db blob :=
  connect (do! s := se_get in se_lift (of_option BlobNotFound (blobs s !! chunk_id))).

Definition delete_blob (chunk_id : string) : SE db unit :=
  connect (do! s := se_get in se_put (set_blobs (delete chunk_id (blobs s)) s)).

(** ** Housekeeping *)

Definition remove_stale (mailbox_id : string) : SE db (Z * Z) :=
  do! m := delete_messages (of_mailbox mailbox_id) in
  do! b := delete_blobs (blob_of mailbox_id) in
  do! s := se_get in
  do! _ := se_put (set_mailboxes (delete mailbox_id (mailboxes s)) s) in
  se_ret (m, b).
Fixpoint remove_all_stale (stale : list string) (removed : Z * Z) : SE db (Z * Z) :=
  match stale with
  | [] => se_ret removed
  | id :: stale' =>
      do! (m, b) := remove_stale id in remove_all_stale stale' (removed.1 + m, removed.2 + b)
  end.

Definition stale_ids (idle_cutoff : Z) (s : db) : list string :=
  map fst (List.filter (λ kv, last_seen kv.2 <? idle_cutoff) (map_to_list (mailboxes s))).

Definition housekeeping (now mailbox_ttl blob_ttl : Z) : SE db (Z * Z * Z) :=
  let stray_blob_cutoff := now - blob_ttl in
  let idle_cutoff := now - mailbox_ttl in
  connect (
    do! s := se_get in
    do! _ := se_check (negb (int64 idle_cutoff)) OverflowError in
    let stale := stale_ids idle_cutoff s in
    do! (removed_messages, removed_blobs) := remove_all_stale stale (0, 0) in
    do! s := se_get in
    do! _ := se_check (negb (int64 stray_blob_cutoff)) OverflowError in
    do! stray := delete_blobs (λ b, (blob_created_at b <? stray_blob_cutoff)
                    && negb (bool_decide (is_Some (mailboxes s !! blob_mailbox b)))) in
    se_ret (Z.of_nat (length stale), removed_messages, removed_blobs + stray)).

(** [(mailboxes, messages, blobs, bytes, prekey_bundles)] *)
Definition stats : SE db (Z * Z * Z * Z * Z) :=
  connect (
    do! s := se_get in
    se_ret (Z.of_nat (size (mailboxes s)), Z.of_nat (length (messages s)),
            Z.of_nat (size (blobs s)),
            zsum msg_size (messages s) + zsum blob_size (map snd (map_to_list (blobs s))),
            Z.of_nat (size (prekey_bundles s)))).

(** ** Runs *)

Inductive dbop :=
| OpCreate (id : string) (r w : bytes) (now maxm maxb : Z)
| OpDelete (id : string)
| OpTouch (id : string) (now : Z)
| OpPut (id : string) (data : bytes) (now : Z)
| OpGet (id : string) (after limit : Z)
| OpAck (id : string) (upto : Z)
| OpPublish (id : string) (p : dict) (opks : list json) (now : Z)
| OpFetch (id : string)
| OpPutBlob (chunk id : string) (data : bytes) (now : Z)
| OpGetBlob (chunk : string)
| OpDeleteBlob (chunk : string)
| OpHousekeeping (now mailbox_ttl blob_ttl : Z)
| OpStats.

Inductive dbout :=
| OutUnit | OutInt (n : Z) | OutCounts | OutMessages (l : list message) | OutBundle (d : dict)
| OutBlob (b : blob).

Definition out_map {A} (f : A → dbout) (m : SE db A) : SE db dbout :=
  do! a := m in se_ret (f a).

Definition apply_op (o : dbop) : SE db dbout :=
  match o with
  | OpCreate id r w now maxm maxb => out_map (λ _, OutUnit) (create_mailbox id r w now maxm maxb)
  | OpDelete id => out_map (λ _, OutCounts) (delete_mailbox id)
  | OpTouch id now => out_map (λ _, OutUnit) (touch_mailbox id now)
  | OpPut id data now => out_map OutInt (put_message id data now)
  | OpGet id after limit => out_map OutMessages (get_messages id after limit)
  | OpAck id upto => out_map OutInt (ack_messages id upto)
  | OpPublish id p opks now => out_map (λ _, OutUnit) (publish_bundle id p opks now)
  | OpFetch id => out_map OutBundle (fetch_bundle id)
  | OpPutBlob chunk id data now => out_map (λ _, OutUnit) (put_blob chunk id data now)
  | OpGetBlob chunk => out_map OutBlob (get_blob chunk)
  | OpDeleteBlob chunk => out_map (λ _, OutUnit) (delete_blob chunk)
  | OpHousekeeping now m b => out_map (λ _, OutCounts) (housekeeping now m b)
  | OpStats => out_map (λ _, OutCounts) stats
  end.

Fixpoint run_ops (ops : list dbop) (s : db) : list (dbop * res dbout) * db :=
  match ops with
  | [] => ([], s)
  | o :: ops' =>
      let '(r, s') := apply_op o s in
      let '(tr, s'') := run_ops ops' s' in
      ((o, r) :: tr, s'')
  end.
