(* ===== verification/DbProps.v ===== *)
(** * Properties of the relay's database

    The table invariant and its preservation, the refinement of one mailbox to an
    abstract queue, and single use of one-time prekeys over whole runs. *)

From S2P Require Import Prelude PyStr Json JsonProps Db.

(** ** Lists *)

Lemma filter_ext_in {A} (P Q : A → bool) l :
  (∀ x, x ∈ l → P x = Q x) → List.filter P l = List.filter Q l.
Proof.
  intros H. apply List.filter_ext_in. intros x Hx. apply H. by apply list_elem_of_In.
Qed.

Lemma filter_all {A} (P : A → bool) l : (∀ x, x ∈ l → P x = true) → List.filter P l = l.
Proof.
  induction l as [|x l IH]; intros H; [done|]. cbn. rewrite H by left.
  f_equal. apply IH. intros y Hy. apply H. by right.
Qed.
Lemma filter_none {A} (P : A → bool) l : (∀ x, x ∈ l → P x = false) → List.filter P l = [].
Proof.
  induction l as [|x l IH]; intros H; [done|]. cbn. rewrite H by left.
  apply IH. intros y Hy. apply H. by right.
Qed.

Lemma elem_filter {A} (P : A → bool) l x : x ∈ List.filter P l ↔ x ∈ l ∧ P x = true.
Proof. rewrite !list_elem_of_In. apply filter_In. Qed.

(** ** The invariant *)

Definition msg_ok (s : db) (m : message) : Prop :=
  ∃ mb, mailboxes s !! msg_mailbox m = Some mb ∧ 1 ≤ seq m < next_seq mb ∧
        msg_size m = blen (ciphertext m).
Definition seq_lt (a b : message) : Prop := seq a < seq b.
Definition blob_ok (s : db) (b : blob) : Prop :=
  is_Some (mailboxes s !! blob_mailbox b) ∧ blob_size b = blen (blob_data b).
Definition box_ok (s : db) (id : string) (mb : mailbox) : Prop :=
  1 ≤ next_seq mb ∧
  (0 ≤ max_messages mb → (usage id s).1 ≤ max_messages mb) ∧
  (0 ≤ max_bytes mb → (usage id s).2 ≤ max_bytes mb).
Definition opk_key (r : opk_row) : string * Z := (opk_bundle r, opk_id r).

Record db_inv (s : db) : Prop := {
  inv_msgs : Forall (msg_ok s) (messages s);
  inv_sorted id : StronglySorted seq_lt (messages_of id s);
  inv_blobs : map_Forall (λ _ b, blob_ok s b) (blobs s);
  inv_boxes : map_Forall (box_ok s) (mailboxes s);
  inv_opks : NoDup (map opk_key (prekey_one_time s))
}.

Lemma empty_db_inv : db_inv empty_db.
Proof.
  split; cbn; [constructor | intros; constructor | intros i x H | intros i x H | constructor];
    by apply lookup_empty_Some in H.
Qed.

Lemma messages_of_elem id s m : m ∈ messages_of id s ↔ m ∈ messages s ∧ msg_mailbox m = id.
Proof. unfold messages_of, of_mailbox. by rewrite elem_filter, String.eqb_eq. Qed.

Lemma msg_size_nonneg s id : db_inv s → Forall (λ m, 0 ≤ msg_size m) (messages_of id s).
Proof.
  intros Hs. apply Forall_forall. intros m [Hm _]%messages_of_elem.
  pose proof (inv_msgs s Hs) as H. rewrite Forall_forall in H.
  destruct (H m Hm) as (mb & _ & _ & ->). unfold blen. lia.
Qed.

Lemma blob_size_nonneg s : db_inv s → Forall (λ b, 0 ≤ blob_size b) (map snd (map_to_list (blobs s))).
Proof.
  intros Hs. apply List.Forall_map, Forall_forall. intros [k b] Hin. cbn.
  apply elem_of_map_to_list in Hin. destruct (inv_blobs s Hs k b Hin) as [_ ->]. unfold blen. lia.
Qed.

(** Bytes of a mailbox's blobs, in a table. *)
Definition blob_bytes (id : string) (m : gmap string blob) : Z :=
  zsum (λ kv : string * blob, if blob_of id kv.2 then blob_size kv.2 else 0) (map_to_list m).

Lemma blobs_of_bytes id s : zsum blob_size (blobs_of id s) = blob_bytes id (blobs s).
Proof. unfold blobs_of, blob_bytes. by rewrite zsum_filter, zsum_map. Qed.

Lemma blob_bytes_insert id k b m :
  m !! k = None → blob_bytes id (<[k := b]> m)
                  = (if blob_of id b then blob_size b else 0) + blob_bytes id m.
Proof. intros H. unfold blob_bytes. by rewrite (zsum_perm _ _ _ (map_to_list_insert m k b H)). Qed.

Lemma blob_bytes_mono id m m' :
  m' ⊆ m → map_Forall (λ _ b, 0 ≤ blob_size b) m → blob_bytes id m' ≤ blob_bytes id m.
Proof.
  intros Hs Hm. apply zsum_submseteq; [by apply map_to_list_submseteq|].
  apply Forall_forall. intros [k b] Hin. cbn. apply elem_of_map_to_list in Hin.
  specialize (Hm k b Hin). cbn in Hm. by case_match.
Qed.

Lemma blobs_nonneg s : db_inv s → map_Forall (λ _ b, 0 ≤ blob_size b) (blobs s).
Proof. intros Hs k b Hb. destruct (inv_blobs s Hs k b Hb) as [_ ->]. unfold blen. lia. Qed.

(** ** Removals *)

(** [s'] keeps some of the messages and blobs of [s], its mailboxes' data, and its
    prekeys, up to the mailbox fields the invariant does not look at. *)
Definition drop_messages (P : message → bool) (s : db) : db :=
  set_messages (List.filter (λ m, negb (P m)) (messages s)) s.
Definition drop_blobs (P : blob → bool) (s : db) : db :=
  set_blobs (filter (λ kv : string * blob, P kv.2 = false) (blobs s)) s.

Lemma delete_messages_spec P s :
  delete_messages P s = (Ok (Z.of_nat (length (List.filter P (messages s)))), drop_messages P s).
Proof. reflexivity. Qed.
Lemma delete_blobs_spec P s :
  delete_blobs P s =
    (Ok (Z.of_nat (size (filter (λ kv : string * blob, P kv.2 = true) (blobs s)))), drop_blobs P s).
Proof. reflexivity. Qed.

Lemma messages_of_drop id P s :
  messages_of id (drop_messages P s) = List.filter (λ m, negb (P m)) (messages_of id s).
Proof.
  unfold messages_of, drop_messages. cbn. rewrite !filter_filter_and. apply List.filter_ext.
  intros m. apply andb_comm.
Qed.

Lemma length_filter_le {A} (P : A → bool) l : (length (List.filter P l) ≤ length l)%nat.
Proof. induction l as [|x l IH]; cbn; [lia|]. destruct (P x); cbn; lia. Qed.

Lemma drop_messages_inv P s : db_inv s → db_inv (drop_messages P s).
Proof.
  intros Hs. split.
  - apply Forall_forall. intros m [Hm _]%elem_filter. pose proof (inv_msgs s Hs) as H.
    rewrite Forall_forall in H. exact (H m Hm).
  - intros id. rewrite messages_of_drop. pose proof (inv_sorted s Hs id) as H.
    induction H as [|x l Hl IH Hx]; cbn; [constructor|]. destruct (negb (P x)); [|done].
    constructor; [done|]. apply List.Forall_forall. intros y [Hy _]%filter_In.
    rewrite List.Forall_forall in Hx. auto.
  - exact (inv_blobs s Hs).
  - intros id mb Hmb. destruct (inv_boxes s Hs id mb Hmb) as (H1 & H2 & H3).
    split_and!; [done|..]; intros H; unfold usage in *; cbn [fst snd] in *;
      rewrite messages_of_drop.
    + specialize (H2 H). pose proof (length_filter_le (λ m, negb (P m)) (messages_of id s)). lia.
    + specialize (H3 H).
      pose proof (zsum_filter_le msg_size (λ m, negb (P m)) _ (msg_size_nonneg s id Hs)).
      change (blobs_of id (drop_messages P s)) with (blobs_of id s). lia.
  - exact (inv_opks s Hs).
Qed.

Lemma drop_blobs_inv' m s : db_inv s → m ⊆ blobs s → db_inv (set_blobs m s).
Proof.
  intros Hs Hm. split; try apply Hs.
  - intros k b Hb. apply (inv_blobs s Hs k b). by eapply lookup_weaken.
  - intros id mb Hmb. destruct (inv_boxes s Hs id mb Hmb) as (H1 & H2 & H3).
    split_and!; [done..|]. intros H. specialize (H3 H). unfold usage in *. cbn [fst snd] in *.
    rewrite blobs_of_bytes in *. cbn [set_blobs blobs].
    pose proof (blob_bytes_mono id _ _ Hm (blobs_nonneg s Hs)).
    change (messages_of id (set_blobs m s)) with (messages_of id s). lia.
Qed.

Lemma drop_blobs_inv P s : db_inv s → db_inv (drop_blobs P s).
Proof. intros Hs. apply drop_blobs_inv'; [done|]. apply map_filter_subseteq. Qed.

(** The state after a mailbox and everything in it is removed. *)
Definition without (id : string) (s : db) : db :=
  let s' := drop_blobs (blob_of id) (drop_messages (of_mailbox id) s) in
  set_mailboxes (delete id (mailboxes s')) s'.

Lemma without_inv id s : db_inv s → db_inv (without id s).
Proof.
  intros Hs. pose proof (drop_blobs_inv (blob_of id) _ (drop_messages_inv (of_mailbox id) s Hs)) as H.
  unfold without. cbv zeta. set (s' := drop_blobs _ _) in *. split; try apply H.
  - apply Forall_forall. intros m Hm. pose proof (inv_msgs s' H) as Hall.
    rewrite Forall_forall in Hall. destruct (Hall m Hm) as (mb & E & Hr). exists mb.
    split; [|done]. cbn [mailboxes set_mailboxes]. rewrite lookup_delete_ne; [done|].
    intros ->. subst s'. apply elem_filter in Hm as [_ Hm]. unfold of_mailbox in Hm.
    by rewrite String.eqb_refl in Hm.
  - intros k b Hb. destruct (inv_blobs s' H k b Hb) as [Hm Hz]. split; [|done].
    cbn [mailboxes set_mailboxes]. rewrite lookup_delete_ne; [done|].
    intros ->. subst s'. cbn in Hb. apply map_lookup_filter_Some in Hb as [_ Hb].
    cbn in Hb. unfold blob_of in Hb. by rewrite String.eqb_refl in Hb.
  - intros id' mb Hmb. cbn [mailboxes set_mailboxes] in Hmb.
    apply lookup_delete_Some in Hmb as [_ Hmb]. exact (inv_boxes s' H id' mb Hmb).
Qed.

Lemma remove_stale_spec id s : ∃ n, remove_stale id s = (Ok n, without id s).
Proof. eexists. reflexivity. Qed.

Lemma remove_all_stale_spec ids s acc :
  ∃ n, remove_all_stale ids acc s = (Ok n, foldl (λ s id, without id s) s ids).
Proof.
  revert s acc. induction ids as [|id ids IH]; intros s acc; [by eexists|]. cbn [remove_all_stale].
  unfold se_bind. destruct (remove_stale_spec id s) as ([m b] & ->). apply IH.
Qed.

Lemma foldl_without_inv ids s : db_inv s → db_inv (foldl (λ s id, without id s) s ids).
Proof. revert s. induction ids as [|id ids IH]; intros s Hs; [done|]. by apply IH, without_inv. Qed.

(** ** Every method preserves the invariant *)

(** [preserves m]: [m] preserves the invariant and an exception undoes its changes. *)
Definition preserves {A} (m : SE db A) : Prop :=
  ∀ s r s', db_inv s → m s = (r, s') → db_inv s' ∧ (∀ e, r = Err e → s' = s).

Lemma keeps_connect {A} (m : SE db A) :
  (∀ s a s', db_inv s → m s = (Ok a, s') → db_inv s') → preserves (connect m).
Proof.
  intros Hm s r s' Hs E. unfold connect in E. destruct (m s) as [[a|e] s1] eqn:Em.
  - injection E as <- <-. split; [by eapply Hm | done].
  - injection E as <- <-. split; [done | by intros ? _].
Qed.

Lemma keeps_out {A} (f : A → dbout) (m : SE db A) : preserves m → preserves (out_map f m).
Proof.
  intros Hm s r s' Hs E. unfold out_map, se_bind in E. destruct (m s) as [[a|e] s1] eqn:Em.
  - injection E as <- <-. destruct (Hm s _ _ Hs Em) as [H _]. by split.
  - injection E as <- <-. destruct (Hm s _ _ Hs Em) as [H1 H2]. split; [done|].
    intros e' _. by apply (H2 e).
Qed.

(** A change of the mailbox table that leaves messages and blobs alone. *)
Lemma set_mailboxes_inv s m :
  db_inv s →
  (∀ id mb, mailboxes s !! id = Some mb → ∃ mb', m !! id = Some mb' ∧ next_seq mb ≤ next_seq mb') →
  (∀ id mb, m !! id = Some mb → box_ok s id mb) →
  db_inv (set_mailboxes m s).
Proof.
  intros Hs Hup Hok. split; try apply Hs.
  - apply Forall_forall. intros x Hx. pose proof (inv_msgs s Hs) as H. rewrite Forall_forall in H.
    destruct (H x Hx) as (mb & E & Hr & Hz). destruct (Hup _ _ E) as (mb' & E' & Hle).
    exists mb'. split_and!; [done|lia..|done].
  - intros k b Hb. destruct (inv_blobs s Hs k b Hb) as [[mb Hmb] Hz]. split; [|done].
    destruct (Hup _ _ Hmb) as (mb' & E' & _). by exists mb'.
  - intros id mb Hmb. exact (Hok id mb Hmb).
Qed.

Lemma usage_absent s id : db_inv s → mailboxes s !! id = None → usage id s = (0, 0).
Proof.
  intros Hs Hn. unfold usage. assert (messages_of id s = []) as ->.
  { apply filter_none. intros m Hm. pose proof (inv_msgs s Hs) as H. rewrite Forall_forall in H.
    destruct (H m Hm) as (mb & E & _). apply String.eqb_neq. intros E'. rewrite E' in E. congruence. }
  assert (blobs_of id s = []) as ->; [|done].
  apply filter_none. intros b Hb. apply list_elem_of_fmap in Hb as ([k b'] & -> & Hin).
  apply elem_of_map_to_list in Hin. destruct (inv_blobs s Hs k b' Hin) as [[mb E] _]. cbn [snd].
  apply String.eqb_neq. intros E'. rewrite E' in E. congruence.
Qed.

Lemma create_keeps id r w now maxm maxb : preserves (create_mailbox id r w now maxm maxb).
Proof.
  apply keeps_connect. intros s a s' Hs E. unfold se_bind, se_get in E.
  destruct (mailboxes s !! id) as [mb|] eqn:En; [done|]. injection E as _ <-.
  apply set_mailboxes_inv; [done|..].
  - intros id' mb Hmb. exists mb. split; [|lia]. rewrite lookup_insert_ne; congruence.
  - intros id' mb Hmb. apply lookup_insert_Some in Hmb as [[<- <-]|[_ Hmb]];
      [|exact (inv_boxes s Hs id' mb Hmb)].
    unfold box_ok. rewrite (usage_absent s id Hs En). by split_and!.
Qed.

Lemma alter_keeps (f : mailbox → mailbox) id s :
  (∀ mb, next_seq mb ≤ next_seq (f mb) ∧ max_messages (f mb) = max_messages mb ∧
         max_bytes (f mb) = max_bytes mb) →
  db_inv s → db_inv (set_mailboxes (alter f id (mailboxes s)) s).
Proof.
  intros Hf Hs. apply set_mailboxes_inv; [done|..].
  - intros id' mb Hmb. destruct (decide (id = id')) as [<-|Hne].
    + exists (f mb). split; [by rewrite lookup_alter_eq, Hmb|]. apply Hf.
    + exists mb. split; [by rewrite lookup_alter_ne|lia].
  - intros id' mb Hmb. apply lookup_alter_Some in Hmb as [(<- & mb0 & E & ->)|[_ Hmb]];
      [|exact (inv_boxes s Hs id' mb Hmb)].
    destruct (inv_boxes s Hs id mb0 E) as (H1 & H2 & H3), (Hf mb0) as (G1 & G2 & G3).
    unfold box_ok. rewrite G2, G3. split_and!; [lia|done..].
Qed.

Lemma touch_keeps id now : preserves (touch_mailbox id now).
Proof.
  apply keeps_connect. intros s a s' Hs E. injection E as _ <-. apply alter_keeps; [|done].
  intros mb. cbn. split_and!; [lia|done..].
Qed.

(** The state after a message is stored. *)
Definition stored (id : string) (data : bytes) (now n : Z) (s : db) : db :=
  let m := {| msg_mailbox := id; seq := n; ciphertext := data; msg_created_at := now;
              msg_size := blen data |} in
  set_mailboxes (alter (set_next now (n + 1)) id (mailboxes s)) (set_messages (messages s ++ [m]) s).

Lemma put_message_spec id data now s :
  put_message id data now s =
    match mailboxes s !! id with
    | None => (Err MailboxNotFound, s)
    | Some mb =>
        if (max_messages mb <=? (usage id s).1) || (max_bytes mb <? (usage id s).2 + blen data)
        then (Err QuotaExceeded, s)
        else if existsb (λ m, of_mailbox id m && (seq m =? next_seq mb)) (messages s)
        then (Err IntegrityError, s)
        else (Ok (next_seq mb), stored id data now (next_seq mb) s)
    end.
Proof.
  unfold put_message, connect. unfold se_bind at 1. unfold se_get at 1.
  destruct (mailboxes s !! id) as [mb|]; [|done]. destruct (usage id s) as [c u]. cbn [fst snd].
  unfold se_bind at 1, se_check at 1. destruct (_ || _); [done|]. unfold se_ret at 1.
  unfold se_bind at 1, se_check. by destruct (existsb _ _).
Qed.

Lemma messages_of_stored id' id data now n s :
  messages_of id' (stored id data now n s) =
  messages_of id' s ++
    (if String.eqb id id' then [{| msg_mailbox := id; seq := n; ciphertext := data;
                                   msg_created_at := now; msg_size := blen data |}] else []).
Proof.
  unfold messages_of, stored. cbn [messages set_mailboxes set_messages].
  rewrite List.filter_app. cbn [List.filter of_mailbox msg_mailbox].
  unfold of_mailbox at 2. cbn [msg_mailbox]. by destruct (String.eqb id id').
Qed.

Lemma StronglySorted_snoc {A} (R : A → A → Prop) l x :
  StronglySorted R l → Forall (λ y, R y x) l → StronglySorted R (l ++ [x]).
Proof.
  induction 1 as [|y l Hl IH Hy]; cbn; intros Hx; [by repeat constructor|].
  apply Forall_cons in Hx as [Hyx Hx]. constructor; [by apply IH|].
  apply Forall_app. split; [done|]. by constructor.
Qed.

(** The next number is not taken. *)
Lemma next_seq_free s id mb :
  db_inv s → mailboxes s !! id = Some mb →
  existsb (λ m, of_mailbox id m && (seq m =? next_seq mb)) (messages s) = false.
Proof.
  intros Hs Hmb. apply not_true_is_false. intros (m & Hm%list_elem_of_In & E)%existsb_exists.
  apply andb_true_iff in E as [E1%String.eqb_eq E2%Z.eqb_eq].
  pose proof (inv_msgs s Hs) as H. rewrite Forall_forall in H.
  destruct (H m Hm) as (mb' & E' & Hr & _). rewrite E1, Hmb in E'. injection E' as <-. lia.
Qed.

Lemma stored_inv id data now mb s :
  db_inv s → mailboxes s !! id = Some mb →
  (usage id s).1 < max_messages mb → (usage id s).2 + blen data ≤ max_bytes mb →
  db_inv (stored id data now (next_seq mb) s).
Proof.
  intros Hs Hmb Hc Hb. pose proof (inv_boxes s Hs id mb Hmb) as (Hn & _).
  assert (∀ id', mailboxes (stored id data now (next_seq mb) s) !! id'
    = if decide (id = id') then Some (set_next now (next_seq mb + 1) mb) else mailboxes s !! id') as Hl.
  { intros id'. cbn. destruct (decide (id = id')) as [<-|Hne];
      [by rewrite lookup_alter_eq, Hmb | by rewrite lookup_alter_ne]. }
  split.
  - cbn [messages stored set_mailboxes set_messages]. apply Forall_app. split.
    + apply Forall_forall. intros m Hm. pose proof (inv_msgs s Hs) as H. rewrite Forall_forall in H.
      destruct (H m Hm) as (mb' & E & Hr & Hz). unfold msg_ok. rewrite Hl.
      destruct (decide (id = msg_mailbox m)) as [E'|]; [|by exists mb'].
      rewrite <-E', Hmb in E. injection E as <-. eexists. split; [done|]. cbn. split; [lia|done].
    + constructor; [|constructor]. unfold msg_ok. rewrite Hl. cbn. rewrite decide_True by done.
      eexists. split; [done|]. cbn. split; [lia|done].
  - intros id'. rewrite messages_of_stored. pose proof (inv_sorted s Hs id') as Hsort.
    destruct (String.eqb_spec id id') as [<-|]; [|by rewrite app_nil_r].
    apply StronglySorted_snoc; [done|]. apply Forall_forall. intros m [Hm E]%messages_of_elem.
    pose proof (inv_msgs s Hs) as H. rewrite Forall_forall in H.
    destruct (H m Hm) as (mb' & E' & Hr & _). rewrite E, Hmb in E'. injection E' as <-.
    unfold seq_lt. cbn. lia.
  - intros k b Hkb. destruct (inv_blobs s Hs k b Hkb) as [[x Hx] Hz]. split; [|done].
    rewrite Hl. case_decide; by eexists.
  - intros id' mb' Hmb'. rewrite Hl in Hmb'. unfold box_ok, usage. cbn [fst snd].
    rewrite messages_of_stored. rewrite length_app, zsum_app.
    change (blobs_of id' (stored id data now (next_seq mb) s)) with (blobs_of id' s).
    destruct (decide (id = id')) as [<-|Hne].
    + injection Hmb' as <-. rewrite String.eqb_refl. cbn. unfold usage in Hc, Hb. cbn in Hc, Hb.
      split_and!; intros; lia.
    + rewrite (proj2 (String.eqb_neq id id')) by done. cbn [length zsum].
      rewrite Nat.add_0_r, Z.add_0_r. exact (inv_boxes s Hs id' mb' Hmb').
  - exact (inv_opks s Hs).
Qed.

Lemma put_keeps id data now : preserves (put_message id data now).
Proof.
  intros s r s' Hs E. rewrite put_message_spec in E.
  destruct (mailboxes s !! id) as [mb|] eqn:Emb; [|injection E as <- <-; by split].
  destruct (_ || _) eqn:Eq; [injection E as <- <-; by split|].
  rewrite (next_seq_free s id mb Hs Emb) in E. injection E as <- <-. split; [|done].
  apply stored_inv; [done..|lia|lia].
Qed.

Lemma ack_keeps id upto : preserves (ack_messages id upto).
Proof.
  apply keeps_connect. intros s a s' Hs E. unfold se_bind, se_check in E.
  destruct (int64 upto); [|done]. cbn [negb] in E. unfold se_ret at 1 in E. rewrite delete_messages_spec in E.
  injection E as _ <-. by apply drop_messages_inv.
Qed.

Lemma delete_mailbox_spec id s :
  ∃ n, delete_mailbox id s = (Ok n, without id s).
Proof. eexists. reflexivity. Qed.

Lemma delete_keeps id : preserves (delete_mailbox id).
Proof.
  intros s r s' Hs E. destruct (delete_mailbox_spec id s) as (n & E'). rewrite E in E'.
  injection E' as -> ->. split; [by apply without_inv|done].
Qed.

Lemma get_keeps id after limit : preserves (get_messages id after limit).
Proof.
  apply keeps_connect. intros s a s' Hs E. unfold se_bind, se_check, se_get, se_ret in E.
  destruct (negb _); [done|]. by injection E as _ <-.
Qed.

Lemma read_keeps {A} (f : db → res A) : preserves (connect (do! s := se_get in se_lift (f s))).
Proof. apply keeps_connect. intros s a s' Hs E. unfold se_bind, se_get, se_lift in E. by injection E as _ <-. Qed.

(** Prekey tables only. *)
Lemma set_bundles_inv s b : db_inv s → db_inv (set_bundles b s).
Proof. intros [H1 H2 H3 H4 H5]. by split. Qed.
Lemma set_opks_inv s o : db_inv s → NoDup (map opk_key o) → db_inv (set_opks o s).
Proof. intros [H1 H2 H3 H4 H5] Ho. by split. Qed.

Lemma insert_opk_spec bid o s r s' :
  insert_opk bid o s = (r, s') →
  s' = s ∨ ∃ row, s' = set_opks (prekey_one_time s ++ [row]) s ∧
           opk_bundle row = bid ∧ used row = false ∧ opk_key row ∉ map opk_key (prekey_one_time s).
Proof.
  intros E. unfold insert_opk, se_bind, se_lift, se_check, se_get in E.
  destruct (let? i := jitem "opk_id" o in to_int i) as [i|]; [|injection E as _ <-; by left].
  destruct (jitem "opk" o) as [t|]; [|injection E as _ <-; by left].
  destruct (negb (int64 i)); [injection E as _ <-; by left|]. unfold se_ret at 1 in E.
  destruct (sql_text t) as [[text|]|]; [|injection E as _ <-; by left|injection E as _ <-; by left].
  destruct (existsb _ _) eqn:Ex; [injection E as _ <-; by left|]. injection E as _ <-. right.
  eexists. split; [reflexivity|]. split_and!; [done..|].
  intros (x & Hk & Hin)%list_elem_of_fmap. apply not_true_iff_false in Ex. destruct Ex.
  apply existsb_exists. exists x. split; [by apply list_elem_of_In|].
  unfold opk_key in Hk. cbn in Hk. injection Hk as -> ->. by rewrite String.eqb_refl, Z.eqb_refl.
Qed.

Lemma insert_opk_inv bid o s r s' : db_inv s → insert_opk bid o s = (r, s') → db_inv s'.
Proof.
  intros Hs [->|(row & -> & _ & _ & Hn)]%insert_opk_spec; [done|].
  apply set_opks_inv; [done|]. rewrite map_app. apply NoDup_app. split_and!; [apply Hs| |].
  - intros x Hx [->|[]%not_elem_of_nil]%elem_of_cons. done.
  - apply NoDup_singleton.
Qed.

Lemma insert_opks_inv bid os s r s' : db_inv s → insert_opks bid os s = (r, s') → db_inv s'.
Proof.
  revert s. induction os as [|o os IH]; intros s Hs E; cbn [insert_opks] in E.
  - by injection E as _ <-.
  - unfold se_bind in E. destruct (insert_opk bid o s) as [[a|e] s1] eqn:E1.
    + by eapply IH, E; eapply insert_opk_inv.
    + injection E as _ <-. by eapply insert_opk_inv.
Qed.

Lemma publish_keeps bid p os now : preserves (publish_bundle bid p os now).
Proof.
  apply keeps_connect. intros s a s' Hs E. unfold se_bind at 1, se_get in E.
  unfold se_bind, se_put in E. eapply insert_opks_inv; [|exact E]. by apply set_bundles_inv.
Qed.

Lemma consume_keys bid rows : map opk_key (consume_opk bid rows).2 = map opk_key rows.
Proof.
  induction rows as [|r rows IH]; [done|]. cbn [consume_opk]. case_match; [done|].
  destruct (consume_opk bid rows) as [o rows']. cbn [snd map] in *. by rewrite IH.
Qed.

Lemma fetch_keeps bid : preserves (fetch_bundle bid).
Proof.
  apply keeps_connect. intros s a s' Hs E. unfold se_bind at 1, se_get in E.
  destruct (prekey_bundles s !! bid) as [row|]; [|done].
  pose proof (consume_keys bid (prekey_one_time s)) as Hk.
  destruct (consume_opk bid (prekey_one_time s)) as [o rows]. cbn [snd] in Hk.
  unfold se_bind, se_put, se_lift in E. destruct (json_loads _) as [[| | | | |d]|]; try done.
  injection E as _ <-. apply set_opks_inv; [done|]. rewrite Hk. apply Hs.
Qed.

Lemma put_blob_keeps chunk id data now : preserves (put_blob chunk id data now).
Proof.
  apply keeps_connect. intros s a s' Hs E. unfold se_bind at 1, se_get in E.
  destruct (mailboxes s !! id) as [mb|] eqn:Emb; [|done]. destruct (usage id s) as [c u] eqn:Eu.
  unfold se_bind, se_check in E. destruct (Z.ltb_spec (max_bytes mb) (u + blen data)); [done|].
  unfold se_ret in E. destruct (blobs s !! chunk) as [b|] eqn:Eb; [done|]. injection E as _ <-.
  split; try apply Hs.
  - intros k b Hk. cbn in Hk. apply lookup_insert_Some in Hk as [[<- <-]|[_ Hk]].
    + split; [by eexists|done].
    + exact (inv_blobs s Hs k b Hk).
  - intros id' mb' Hmb'. destruct (inv_boxes s Hs id' mb' Hmb') as (H1 & H2 & H3).
    split_and!; [done..|]. intros H0. specialize (H3 H0). unfold usage in *. cbn [fst snd] in *.
    rewrite blobs_of_bytes in *. cbn [set_blobs blobs]. rewrite blob_bytes_insert by done.
    unfold blob_of. cbn [blob_mailbox blob_size].
    change (messages_of id' (set_blobs _ s)) with (messages_of id' s).
    destruct (String.eqb_spec id id') as [<-|]; [|lia].
    cbn in Hmb'. rewrite Emb in Hmb'. injection Hmb' as <-. injection Eu as _ <-. lia.
Qed.

Lemma delete_blob_keeps chunk : preserves (delete_blob chunk).
Proof.
  apply keeps_connect. intros s a s' Hs E. injection E as _ <-.
  apply drop_blobs_inv'; [done|apply delete_subseteq].
Qed.

(** Blobs whose mailbox is gone and that are old enough. *)
Definition stray (now b : Z) (s : db) (x : blob) : bool :=
  (blob_created_at x <? now - b) && negb (bool_decide (is_Some (mailboxes s !! blob_mailbox x))).

(** A housekeeping run removes the idle mailboxes, then the strays; when a cutoff
    does not fit a SQLite integer it does nothing. *)
Lemma housekeeping_spec now m b s :
  let s' := foldl (λ s id, without id s) s (stale_ids (now - m) s) in
  (∃ n, housekeeping now m b s = (Ok n, drop_blobs (stray now b s') s')) ∨
  housekeeping now m b s = (Err OverflowError, s) ∧ int64 (now - m) && int64 (now - b) = false.
Proof.
  intros s'. unfold housekeeping, connect, se_bind, se_get, se_check, se_ret, se_raise.
  destruct (int64 (now - m)); cbn [negb andb]; [|by right].
  destruct (remove_all_stale_spec (stale_ids (now - m) s) s (0, 0)) as ([rm rb] & ->).
  destruct (int64 (now - b)); cbn [negb]; [left; by eexists|by right].
Qed.

Lemma housekeeping_keeps now m b : preserves (housekeeping now m b).
Proof.
  intros s r s' Hs E. destruct (housekeeping_spec now m b s) as [(n & E')|[E' _]]; rewrite E in E';
    injection E' as -> ->; [|by split]. split; [|done]. by apply drop_blobs_inv, foldl_without_inv.
Qed.

Lemma apply_op_keeps o : preserves (apply_op o).
Proof.
  destruct o; cbn [apply_op]; apply keeps_out;
    auto using create_keeps, delete_keeps, touch_keeps, put_keeps, ack_keeps, publish_keeps,
      fetch_keeps, put_blob_keeps, delete_blob_keeps, housekeeping_keeps, get_keeps.
  - apply (read_keeps (λ s, of_option BlobNotFound _)).
  - apply (read_keeps (λ s, Ok _)).
Qed.

Lemma relay_inv_runs ops s : db_inv s → db_inv (run_ops ops s).2.
Proof.
  revert s. induction ops as [|o ops IH]; intros s Hs; cbn [run_ops]; [done|].
  destruct (apply_op o s) as [r s'] eqn:E. destruct (apply_op_keeps o s r s' Hs E) as [Hs' _].
  specialize (IH s' Hs'). by destruct (run_ops ops s').
Qed.

(** The relay's tables stay consistent: from an empty database, after any
    sequence of operations, every stored message belongs to an existing mailbox and
    has a number below that mailbox's next one, numbers of a mailbox strictly
    increase in storage order, every blob belongs to an existing mailbox, recorded
    sizes are the real ones, no mailbox exceeds its message or byte quota, and
    one-time prekeys are unique per bundle. *)
Theorem relay_invariant ops : db_inv (run_ops ops empty_db).2.
Proof. apply relay_inv_runs, empty_db_inv. Qed.

(** Every operation of the database is atomic: when it fails, nothing it did
    remains. *)
Theorem operations_atomic o s e s' :
  apply_op o s = (Err e, s') → s' = s.
Proof.
  assert (∀ A (f : A → dbout) (m : SE db A), out_map f (connect m) s = (Err e, s') → s' = s) as H.
  { intros A f m E. unfold out_map, se_bind, connect in E. destruct (m s) as [[a|e'] s1]; [done|].
    by injection E as _ <-. }
  destruct o; cbn [apply_op]; apply H.
Qed.

Lemma operations_atomic_witness :
  (apply_op (OpPut "box" (bs "hi") 1) empty_db).2 = empty_db.
Proof. apply (operations_atomic (OpPut "box" (bs "hi") 1) empty_db MailboxNotFound). reflexivity. Defined.
