(* ===== verification/DbQueue.v ===== *)
(** * A mailbox as a queue

    The abstract specification of one mailbox of the relay - a counter and the
    numbered messages not yet acknowledged - and the refinement: every database
    operation acts on that view as specified.  Then the life of a stored message
    and of a one-time prekey over whole runs. *)

From S2P Require Import Prelude PyStr Json JsonProps Dict Db DbProps.

(** ** The specification *)

Record queue := { q_next : Z; q_items : list (Z * bytes) }.

Definition view (id : string) (s : db) : option queue :=
  (λ mb, {| q_next := next_seq mb;
            q_items := map (λ m, (seq m, ciphertext m)) (messages_of id s) |}) <$> mailboxes s !! id.

(** What operation [o] with result [r] may do to the queue of mailbox [id]. *)
Inductive queue_step (id : string) : dbop → res dbout → option queue → option queue → Prop :=
| qs_create r w now maxm maxb :
    queue_step id (OpCreate id r w now maxm maxb) (Ok OutUnit) None
      (Some {| q_next := 1; q_items := [] |})
| qs_delete q : queue_step id (OpDelete id) (Ok OutCounts) q None
| qs_put data now q :
    queue_step id (OpPut id data now) (Ok (OutInt (q_next q))) (Some q)
      (Some {| q_next := q_next q + 1; q_items := q_items q ++ [(q_next q, data)] |})
| qs_get after limit q ms :
    map (λ m, (seq m, ciphertext m)) ms
    = sql_limit limit (List.filter (λ x, after <? x.1) (default [] (q_items <$> q))) →
    queue_step id (OpGet id after limit) (Ok (OutMessages ms)) q q
| qs_ack upto q n :
    n = Z.of_nat (length (List.filter (λ x, x.1 <=? upto) (default [] (q_items <$> q)))) →
    queue_step id (OpAck id upto) (Ok (OutInt n)) q
      ((λ q, {| q_next := q_next q; q_items := List.filter (λ x, negb (x.1 <=? upto)) (q_items q) |})
         <$> q)
| qs_expire now m b q : queue_step id (OpHousekeeping now m b) (Ok OutCounts) q None
| qs_idle o r q : idle id o r → queue_step id o r q q
(** Operations and failures that do not touch the mailbox. *)
with idle (id : string) : dbop → res dbout → Prop :=
| idle_error o e : idle id o (Err e)
| idle_create id' r w now maxm maxb out : id' ≠ id → idle id (OpCreate id' r w now maxm maxb) out
| idle_delete id' out : id' ≠ id → idle id (OpDelete id') out
| idle_touch id' now out : idle id (OpTouch id' now) out
| idle_put id' data now out : id' ≠ id → idle id (OpPut id' data now) out
| idle_get id' after limit out : id' ≠ id → idle id (OpGet id' after limit) out
| idle_ack id' upto out : id' ≠ id → idle id (OpAck id' upto) out
| idle_publish b p os now out : idle id (OpPublish b p os now) out
| idle_fetch b out : idle id (OpFetch b) out
| idle_put_blob c id' data now out : idle id (OpPutBlob c id' data now) out
| idle_get_blob c out : idle id (OpGetBlob c) out
| idle_delete_blob c out : idle id (OpDeleteBlob c) out
| idle_housekeeping now m b out : idle id (OpHousekeeping now m b) out
| idle_stats out : idle id OpStats out.

(** ** The view after each operation *)

Lemma view_same id s s' :
  mailboxes s' !! id = mailboxes s !! id → messages_of id s' = messages_of id s →
  view id s' = view id s.
Proof. intros E1 E2. unfold view. by rewrite E1, E2. Qed.

Lemma view_without_ne id id' s : id' ≠ id → view id (without id' s) = view id s.
Proof.
  intros Hne. apply view_same.
  - unfold without. cbn. by rewrite lookup_delete_ne.
  - unfold without. change (messages_of id (drop_messages (of_mailbox id') s) = messages_of id s).
    rewrite messages_of_drop. apply filter_all. intros m [_ E]%messages_of_elem.
    unfold of_mailbox. rewrite E. by rewrite (proj2 (String.eqb_neq id id')) by done.
Qed.
Lemma view_without id s : view id (without id s) = None.
Proof. unfold view, without. cbn. by rewrite lookup_delete_eq. Qed.

Lemma view_foldl_without id ids s :
  view id (foldl (λ s id, without id s) s ids) = view id s ∨
  view id (foldl (λ s id, without id s) s ids) = None.
Proof.
  revert s. induction ids as [|i ids IH]; intros s; [by left|]. cbn [foldl].
  destruct (IH (without i s)) as [E|E]; [|by right]. rewrite E.
  destruct (decide (i = id)) as [->|]; [right; apply view_without | left; by apply view_without_ne].
Qed.

Lemma view_drop_blobs id P s : view id (drop_blobs P s) = view id s.
Proof. by apply view_same. Qed.

Lemma seq_lt_le l : StronglySorted seq_lt l → StronglySorted seq_le l.
Proof.
  induction 1 as [|x l _ IH Hx]; constructor; [done|]. revert Hx. apply List.Forall_impl.
  intros y. unfold seq_lt, seq_le. lia.
Qed.

Lemma seq_lt_inj l x y : StronglySorted seq_lt l → x ∈ l → y ∈ l → seq x = seq y → x = y.
Proof.
  induction 1 as [|z l _ IH Hz]; intros Hx Hy E; [by apply not_elem_of_nil in Hx|].
  rewrite List.Forall_forall in Hz. unfold seq_lt in Hz.
  apply elem_of_cons in Hx as [->|Hx]; apply elem_of_cons in Hy as [->|Hy]; auto.
  - apply list_elem_of_In, Hz in Hy. lia.
  - apply list_elem_of_In, Hz in Hx. lia.
Qed.

#[local] Instance seq_le_total : Total seq_le.
Proof. intros a b. unfold seq_le. lia. Qed.
#[local] Instance seq_le_trans : Transitive seq_le.
Proof. intros a b c. unfold seq_le. lia. Qed.

Lemma StronglySorted_filter_b {A} (R : A → A → Prop) P (l : list A) :
  StronglySorted R l → StronglySorted R (List.filter P l).
Proof.
  induction 1 as [|x l Hs IH Hx]; cbn; [constructor|]. destruct (P x); [|done].
  constructor; [done|]. apply List.Forall_forall. intros y [Hy _]%filter_In.
  rewrite List.Forall_forall in Hx. auto.
Qed.

(** The rows of a mailbox are already in the order [ORDER BY seq] asks for. *)
Lemma merge_sort_sorted l : StronglySorted seq_lt l → merge_sort seq_le l = l.
Proof.
  intros Hl. apply (StronglySorted_unique_strong seq_le).
  - intros x y Hx Hy Hxy Hyx. rewrite merge_sort_Permutation in Hx.
    apply (seq_lt_inj l); [done..|]. unfold seq_le in *. lia.
  - apply StronglySorted_merge_sort; apply _.
  - by apply seq_lt_le.
  - apply merge_sort_Permutation.
Qed.

Lemma get_messages_spec id after limit s :
  db_inv s →
  get_messages id after limit s
  = (if int64 after && int64 limit
     then Ok (sql_limit limit (List.filter (λ m, after <? seq m) (messages_of id s)))
     else Err OverflowError, s).
Proof.
  intros Hs. unfold get_messages, connect, se_bind, se_check, se_get, se_ret.
  destruct (int64 after && int64 limit); [cbn [negb]|done].
  assert (List.filter (λ m, of_mailbox id m && (after <? seq m)) (messages s)
          = List.filter (λ m, after <? seq m) (messages_of id s)) as ->
    by (unfold messages_of; by rewrite filter_filter_and).
  rewrite merge_sort_sorted; [done|]. apply StronglySorted_filter_b, (inv_sorted s Hs).
Qed.

Lemma map_filter_comm {A B} (g : A → B) (P : A → bool) (Q : B → bool) l :
  (∀ x, P x = Q (g x)) → map g (List.filter P l) = List.filter Q (map g l).
Proof. intros H. induction l as [|x l IH]; [done|]. cbn. rewrite <-H. destruct (P x); cbn; by rewrite IH. Qed.

Lemma map_sql_limit {A B} (g : A → B) limit l : map g (sql_limit limit l) = sql_limit limit (map g l).
Proof. unfold sql_limit. case_match; [done|]. symmetry. apply firstn_map. Qed.

Lemma view_items id s :
  db_inv s → default [] (q_items <$> view id s) = map (λ m, (seq m, ciphertext m)) (messages_of id s).
Proof.
  intros Hs. unfold view. destruct (mailboxes s !! id) eqn:E; [done|]. cbn.
  pose proof (usage_absent s id Hs E) as Hu. unfold usage in Hu.
  destruct (messages_of id s); [done|]. discriminate Hu.
Qed.

(** ** Refinement, operation by operation *)

Definition refines (id : string) (o : dbop) : Prop :=
  ∀ s out s', db_inv s → apply_op o s = (Ok out, s') →
              queue_step id o (Ok out) (view id s) (view id s').

Ltac refine_start := intros s out s' Hs E; cbn [apply_op] in E; unfold out_map, se_bind in E.

Ltac same_view :=
  match goal with |- queue_step ?id _ _ (view ?id ?s) (view ?id ?s') => rewrite (view_same id s s') end.

Lemma create_refines id id' r w now maxm maxb : refines id (OpCreate id' r w now maxm maxb).
Proof.
  refine_start. unfold create_mailbox, connect, se_bind, se_get in E.
  destruct (mailboxes s !! id') as [mb|] eqn:Em; [done|]. injection E as <- <-.
  destruct (decide (id' = id)) as [->|Hne].
  - assert (view id s = None) as -> by (unfold view; by rewrite Em).
    assert (messages_of id s = []) as Hm.
    { pose proof (usage_absent s id Hs Em) as Hu. unfold usage in Hu. by destruct (messages_of id s). }
    unfold view. cbn [mailboxes set_mailboxes]. rewrite lookup_insert_eq.
    change (messages_of id (set_mailboxes _ s)) with (messages_of id s). rewrite Hm. apply qs_create.
  - same_view; [by apply qs_idle, idle_create | | done].
    cbn. by rewrite lookup_insert_ne.
Qed.

Lemma delete_refines id id' : refines id (OpDelete id').
Proof.
  refine_start. destruct (delete_mailbox_spec id' s) as (n & En). rewrite En in E.
  injection E as <- <-. destruct (decide (id' = id)) as [->|Hne].
  - rewrite view_without. apply qs_delete.
  - rewrite view_without_ne by done. by apply qs_idle, idle_delete.
Qed.

Lemma touch_refines id id' now : refines id (OpTouch id' now).
Proof.
  refine_start. unfold touch_mailbox, connect, se_bind, se_get, se_put in E. injection E as <- <-.
  assert (view id (set_mailboxes (alter (set_seen now) id' (mailboxes s)) s) = view id s) as ->;
    [|apply qs_idle, idle_touch].
  unfold view. cbn [mailboxes set_mailboxes]. destruct (decide (id' = id)) as [->|Hne].
  - rewrite lookup_alter_eq. by destruct (mailboxes s !! id).
  - by rewrite lookup_alter_ne.
Qed.

Lemma put_refines id id' data now : refines id (OpPut id' data now).
Proof.
  refine_start. rewrite put_message_spec in E. destruct (mailboxes s !! id') as [mb|] eqn:Em; [|done].
  destruct (_ || _); [done|]. rewrite (next_seq_free s id' mb Hs Em) in E. injection E as <- <-.
  destruct (decide (id' = id)) as [->|Hne].
  - unfold view. rewrite messages_of_stored, String.eqb_refl, Em.
    cbn [mailboxes stored set_mailboxes set_messages]. rewrite lookup_alter_eq, Em, map_app.
    apply (qs_put id data now {| q_next := _; q_items := _ |}).
  - same_view; [by apply qs_idle, idle_put | |].
    + cbn. by rewrite lookup_alter_ne.
    + rewrite messages_of_stored. rewrite (proj2 (String.eqb_neq id' id)) by done. apply app_nil_r.
Qed.

Lemma get_refines id id' after limit : refines id (OpGet id' after limit).
Proof.
  refine_start. rewrite get_messages_spec in E by done. destruct (int64 _ && _); [|done].
  injection E as <- <-. destruct (decide (id' = id)) as [->|Hne]; [|by apply qs_idle, idle_get].
  apply qs_get. rewrite view_items, map_sql_limit by done. f_equal. by apply map_filter_comm.
Qed.

Lemma view_ack id upto s :
  view id (drop_messages (λ m, of_mailbox id m && (seq m <=? upto)) s) =
  (λ q, {| q_next := q_next q; q_items := List.filter (λ x, negb (x.1 <=? upto)) (q_items q) |})
    <$> view id s.
Proof.
  unfold view. change (mailboxes (drop_messages _ s)) with (mailboxes s).
  destruct (mailboxes s !! id) as [mb|]; [|done]. cbn [fmap option_fmap option_map q_next q_items]. do 2 f_equal.
  rewrite messages_of_drop. rewrite <-(map_filter_comm _ (λ m, negb (seq m <=? upto))) by done.
  f_equal. apply filter_ext_in. intros m [_ Hm]%messages_of_elem. unfold of_mailbox.
  by rewrite Hm, String.eqb_refl.
Qed.

Lemma ack_refines id id' upto : refines id (OpAck id' upto).
Proof.
  refine_start. unfold ack_messages, connect, se_bind, se_check in E.
  destruct (int64 upto); [|done]. unfold se_ret at 1 in E. cbn [negb] in E.
  rewrite delete_messages_spec in E.
  injection E as <- <-. destruct (decide (id' = id)) as [->|Hne].
  - rewrite view_ack. apply qs_ack. rewrite view_items by done. f_equal.
    rewrite <-(map_filter_comm _ (λ m, seq m <=? upto)) by done. rewrite length_map.
    unfold messages_of. by rewrite filter_filter_and.
  - same_view; [by apply qs_idle, idle_ack | done |].
    rewrite messages_of_drop. apply filter_all. intros m [_ Hm]%messages_of_elem. unfold of_mailbox.
    rewrite Hm. by rewrite (proj2 (String.eqb_neq id id')) by done.
Qed.

Lemma view_insert_opks id bid os s r s' :
  insert_opks bid os s = (r, s') → view id s' = view id s.
Proof.
  revert s. induction os as [|o os IH]; intros s E; cbn [insert_opks] in E.
  - by injection E as _ <-.
  - unfold se_bind in E. destruct (insert_opk bid o s) as [[a|e] s1] eqn:Eo.
    + rewrite (IH _ E). by apply insert_opk_spec in Eo as [->|(row & -> & _)].
    + injection E as _ <-. by apply insert_opk_spec in Eo as [->|(row & -> & _)].
Qed.

Lemma publish_refines id bid p os now : refines id (OpPublish bid p os now).
Proof.
  refine_start. assert (view id s' = view id s) as ->; [|apply qs_idle, idle_publish].
  unfold publish_bundle, connect, se_bind, se_get, se_put in E.
  destruct (insert_opks bid os _) as [[[]|e] s2] eqn:Ei; [|done]. injection E as _ <-.
  by rewrite (view_insert_opks _ _ _ _ _ _ Ei).
Qed.

Lemma fetch_refines id bid : refines id (OpFetch bid).
Proof.
  refine_start. assert (view id s' = view id s) as ->; [|apply qs_idle, idle_fetch].
  destruct (fetch_bundle bid s) as [[d|e] s1] eqn:Ef; [|done]. injection E as _ <-.
  unfold fetch_bundle, connect, se_bind, se_get, se_put, se_lift in Ef.
  destruct (prekey_bundles s !! bid); [|done]. destruct (consume_opk _ _) as [o rows].
  destruct (json_loads _) as [[| | | | |d']|]; try done. by injection Ef as _ <-.
Qed.

Lemma blob_refines id o : match o with
  | OpPutBlob _ _ _ _ | OpGetBlob _ | OpDeleteBlob _ | OpStats => refines id o
  | _ => True end.
Proof.
  destruct o; try done; refine_start.
  - assert (view id s' = view id s) as ->; [|apply qs_idle, idle_put_blob].
    destruct (put_blob chunk id0 data now s) as [[[]|e] s1] eqn:Ep; [|done]. injection E as _ <-.
    unfold put_blob, connect, se_bind, se_get, se_check, se_put, se_ret, se_raise in Ep.
    destruct (mailboxes s !! id0); [|done]. destruct (usage id0 s) as [c u].
    destruct (_ <? _); [done|]. destruct (blobs s !! chunk); [done|]. by injection Ep as <-.
  - unfold get_blob, connect, se_bind, se_get, se_lift in E.
    destruct (blobs s !! chunk); [|done]. injection E as <- <-. apply qs_idle, idle_get_blob.
  - unfold delete_blob, connect, se_bind, se_get, se_put in E. injection E as <- <-.
    apply qs_idle, idle_delete_blob.
  - injection E as <- <-. apply qs_idle, idle_stats.
Qed.

Lemma housekeeping_refines id now m b : refines id (OpHousekeeping now m b).
Proof.
  refine_start. destruct (housekeeping_spec now m b s) as [(n & E')|[E' _]]; rewrite E' in E; [|done].
  injection E as <- <-. rewrite view_drop_blobs.
  destruct (view_foldl_without id (stale_ids (now - m) s) s) as [-> | ->].
  - apply qs_idle, idle_housekeeping.
  - apply qs_expire.
Qed.

Lemma relay_refines id o s r s' :
  db_inv s → apply_op o s = (r, s') → queue_step id o r (view id s) (view id s').
Proof.
  intros Hs E. destruct r as [out|e].
  2:{ assert (s' = s) as -> by (destruct (apply_op_keeps o s _ _ Hs E) as [_ H]; by eapply H).
      apply qs_idle, idle_error. }
  revert s out s' Hs E. change (refines id o).
  destruct o; auto using create_refines, delete_refines, touch_refines, put_refines, get_refines,
    ack_refines, publish_refines, fetch_refines, housekeeping_refines.
  - apply (blob_refines id (OpPutBlob chunk id0 data now)).
  - apply (blob_refines id (OpGetBlob chunk)).
  - apply (blob_refines id (OpDeleteBlob chunk)).
  - apply (blob_refines id OpStats).
Qed.

(** C13: the relay refines a queue per mailbox: a write appends under the next
    number and returns it, a read returns the unacknowledged items after the given
    number in order, an acknowledgement removes exactly the items up to its number,
    deletion and expiry remove the queue, and nothing else touches it. *)
Theorem relay_refines_queue id o s r s' :
  db_inv s → apply_op o s = (r, s') → queue_step id o r (view id s) (view id s').
Proof. apply relay_refines. Qed.

Lemma relay_refines_queue_witness :
  let s := (run_ops [OpCreate "box" [] [] 0 10 1000; OpPut "box" (bs "hi") 1] empty_db).2 in
  queue_step "box" (OpPut "box" (bs "you") 2) (apply_op (OpPut "box" (bs "you") 2) s).1
    (view "box" s) (view "box" (apply_op (OpPut "box" (bs "you") 2) s).2).
Proof.
  intros s. apply relay_refines_queue; [|apply surjective_pairing].
  unfold s. generalize (relay_inv_runs [OpCreate "box" [] [] 0 10 1000; OpPut "box" (bs "hi") 1] empty_db).
  intros H. apply H, empty_db_inv.
Defined.

(** ** A stored message over a run *)

(** Operations that may remove item [n] of the queue of [id]. *)
Definition may_remove (id : string) (n : Z) (o : dbop) : bool :=
  match o with
  | OpAck id' upto => String.eqb id' id && (n <=? upto)
  | OpDelete id' => String.eqb id' id
  | OpHousekeeping _ _ _ => true
  | _ => false
  end.

(** The numbers returned to writers of [id]. *)
Definition put_number (id : string) (e : dbop * res dbout) : list Z :=
  match e with
  | (OpPut id' _ _, Ok (OutInt n)) => if String.eqb id' id then [n] else []
  | _ => []
  end.

Lemma queue_step_keeps id o r q q' n d :
  queue_step id o r q q' → may_remove id n o = false →
  (n, d) ∈ default [] (q_items <$> q) → (n, d) ∈ default [] (q_items <$> q').
Proof.
  intros Hq Hr Hin. destruct Hq; cbn in *; try done.
  - by rewrite String.eqb_refl in Hr.
  - apply elem_of_app. by left.
  - rewrite String.eqb_refl in Hr. cbn in Hr. destruct q as [q|]; [|done]. cbn in *.
    apply elem_filter. split; [done|]. cbn. lia.
Qed.

Lemma queue_step_next id o r q q' x :
  queue_step id o r (Some q) (Some q') → x ∈ put_number id (o, r) ++ [q_next q'] →
  (x ∈ put_number id (o, r) → x = q_next q ∧ x < q_next q') ∧ q_next q ≤ q_next q'.
Proof.
  intros Hq _. inversion Hq as [| |data now q0| | | |? ? ? Hi]; subst; cbn; rewrite ?String.eqb_refl.
  - split; [|lia]. intros ->%list_elem_of_singleton. lia.
  - split; [by intros ?%not_elem_of_nil|lia].
  - split; [by intros ?%not_elem_of_nil|]. simplify_eq/=. lia.
  - split; [|lia]. destruct Hi; cbn; try (by intros ?%not_elem_of_nil).
    + destruct o; cbn; by intros ?%not_elem_of_nil.
    + rewrite (proj2 (String.eqb_neq id' id)) by done. destruct out as [[]|]; by intros ?%not_elem_of_nil.
Qed.

Definition never (id : string) (n : Z) (ops : list dbop) : Prop :=
  Forall (λ o, may_remove id n o = false) ops.

Lemma view_items_run id n d ops s :
  db_inv s → never id n ops → (n, d) ∈ default [] (q_items <$> view id s) →
  (n, d) ∈ default [] (q_items <$> view id (run_ops ops s).2).
Proof.
  intros Hs Hn. revert s Hs. induction Hn as [|o ops Ho Hn IH]; intros s Hs Hin; cbn [run_ops]; [done|].
  destruct (apply_op o s) as [r s'] eqn:E. pose proof (relay_refines id o s r s' Hs E) as Hq.
  destruct (apply_op_keeps o s r s' Hs E) as [Hs' _]. specialize (IH s' Hs').
  destruct (run_ops ops s'). cbn [snd] in *. apply IH. by eapply queue_step_keeps.
Qed.

(** An acknowledgement never loses a later message.  A message the relay
    accepted under number [n] is still delivered, with its bytes, by any later read
    from below [n], until an acknowledgement of [n] or more, the deletion of the
    mailbox, or a housekeeping run. *)
Theorem message_survives id data now s n s1 ops after :
  db_inv s → apply_op (OpPut id data now) s = (Ok (OutInt n), s1) → never id n ops → after < n → int64 after = true →
  ∃ ms, (get_messages id after (-1) (run_ops ops s1).2).1 = Ok ms ∧
        (n, data) ∈ map (λ m, (seq m, ciphertext m)) ms.
Proof.
  intros Hs E Hn Ha H64. pose proof (relay_refines id _ s _ s1 Hs E) as Hq.
  destruct (apply_op_keeps _ s _ s1 Hs E) as [Hs1 _].
  assert ((n, data) ∈ default [] (q_items <$> view id s1)) as Hin.
  { inversion Hq as [| |data' now' q| | | |? ? ? Hi]; subst.
    - cbn. apply elem_of_app. right. by left.
    - inversion Hi; congruence. }
  apply (view_items_run id n data ops s1 Hs1 Hn) in Hin.
  pose proof (relay_inv_runs ops s1 Hs1) as Hs2. set (s2 := (run_ops ops s1).2) in *.
  rewrite get_messages_spec, H64 by done. eexists. split; [reflexivity|]. cbn [sql_limit Z.ltb Z.compare].
  rewrite view_items in Hin by done. apply list_elem_of_fmap in Hin as (m & E' & Hm).
  apply list_elem_of_fmap. exists m. split; [done|]. apply elem_filter. split; [done|].
  injection E' as -> _. lia.
Qed.

(** ** One-time prekeys *)

Definition used_keys (s : db) : list (string * Z) :=
  map opk_key (List.filter used (prekey_one_time s)).

(** The one-time prekeys given out by one operation. *)
Definition handed_out (e : dbop * res dbout) : list (string * Z) :=
  match e with
  | (OpFetch bid, Ok (OutBundle d)) =>
      match dget "opks" d with
      | Some (JList [JObj (("opk_id", JInt i) :: _)%string]) => [(bid, i)]
      | _ => []
      end
  | _ => []
  end.

Lemma consume_opk_spec bid rows :
  consume_opk bid rows = (None, rows) ∨
  ∃ pre r post, rows = pre ++ r :: post ∧ opk_bundle r = bid ∧ used r = false ∧
    consume_opk bid rows
    = (Some r, pre ++ {| opk_bundle := opk_bundle r; opk_id := opk_id r; opk := opk r; used := true |} :: post).
Proof.
  induction rows as [|r rows IH]; [by left|]. cbn [consume_opk].
  destruct (String.eqb (opk_bundle r) bid && negb (used r)) eqn:E.
  - right. apply andb_true_iff in E as [E1%String.eqb_eq E2%negb_true_iff].
    by exists [], r, rows.
  - destruct IH as [-> | (pre & r' & post & -> & H1 & H2 & ->)]; [by left|].
    right. by exists (r :: pre), r', post.
Qed.

(** The prekey table changes only when bundles are published or fetched. *)
Lemma opks_unchanged o s r s' :
  apply_op o s = (r, s') →
  match o with OpPublish _ _ _ _ | OpFetch _ => True | _ => prekey_one_time s' = prekey_one_time s end.
Proof.
  intros E. destruct o; try done; cbn [apply_op] in E; unfold out_map, se_bind in E.
  - unfold create_mailbox, connect, se_bind, se_get in E.
    destruct (mailboxes s !! id); by injection E as _ <-.
  - by injection E as _ <-.
  - by injection E as _ <-.
  - rewrite put_message_spec in E. destruct (mailboxes s !! id); [|by injection E as _ <-].
    destruct (_ || _); [by injection E as _ <-|]. destruct (existsb _ _); by injection E as _ <-.
  - unfold get_messages, connect, se_bind, se_check in E. destruct (negb _); by injection E as _ <-.
  - unfold ack_messages, connect, se_bind, se_check in E. destruct (negb _); by injection E as _ <-.
  - unfold put_blob, connect, se_bind, se_get, se_check, se_put, se_ret, se_raise in E.
    destruct (mailboxes s !! id); [|by injection E as _ <-]. destruct (usage id s).
    destruct (_ <? _); [by injection E as _ <-|]. destruct (blobs s !! chunk); by injection E as _ <-.
  - unfold get_blob, connect, se_bind, se_get, se_lift in E.
    destruct (blobs s !! chunk); by injection E as _ <-.
  - by injection E as _ <-.
  - destruct (housekeeping_spec now mailbox_ttl blob_ttl s) as [(n & E')|[E' _]]; rewrite E' in E;
      [|by injection E as _ <-].
    injection E as _ <-. cbn [prekey_one_time drop_blobs set_blobs].
    generalize (stale_ids (now - mailbox_ttl) s). intros ids. clear. revert s.
    induction ids as [|i ids IH]; intros s; [done|]. cbn [foldl]. by rewrite IH.
  - by injection E as _ <-.
Qed.

Lemma publish_opks bid os s r s' :
  insert_opks bid os s = (r, s') →
  ∃ rows, prekey_one_time s' = prekey_one_time s ++ rows ∧ Forall (λ x, used x = false) rows.
Proof.
  revert s. induction os as [|o os IH]; intros s E; cbn [insert_opks] in E.
  - injection E as _ <-. exists []. by rewrite app_nil_r.
  - unfold se_bind in E. destruct (insert_opk bid o s) as [[a|e] s1] eqn:Eo.
    + apply IH in E as (rows & E & Hr).
      apply insert_opk_spec in Eo as [-> | (row & -> & _ & Hu & _)]; [by exists rows|].
      exists (row :: rows). rewrite E. cbn. rewrite <-app_assoc. split; [done|by constructor].
    + injection E as _ <-. apply insert_opk_spec in Eo as [-> | (row & -> & _ & Hu & _)].
      * exists []. by rewrite app_nil_r.
      * exists [row]. split; [done|by repeat constructor].
Qed.

(** What an operation gives out was unused before it and is used after it; nothing
    becomes unused. *)
Lemma used_keys_step o s r s' :
  db_inv s → apply_op o s = (r, s') →
  (∀ k, k ∈ used_keys s → k ∈ used_keys s') ∧ NoDup (handed_out (o, r)) ∧
  (∀ k, k ∈ handed_out (o, r) → k ∈ used_keys s' ∧ k ∉ used_keys s).
Proof.
  intros Hs E. assert (∀ l : list (string * Z), l = [] → NoDup l ∧ ∀ k, k ∈ l → k ∈ used_keys s' ∧ k ∉ used_keys s)
    as Hnil by (intros l ->; split; [constructor | by intros k ?%not_elem_of_nil]).
  pose proof (opks_unchanged o s r s' E) as Hsame.
  destruct o; try (split; [unfold used_keys; by rewrite Hsame | by apply Hnil]).
  - split; [|by apply Hnil]. cbn [apply_op] in E. unfold out_map, se_bind in E.
    unfold publish_bundle, connect, se_bind, se_get, se_put in E.
    destruct (insert_opks id opks _) as [[[]|e] s2] eqn:Ei; [|by injection E as _ <-].
    injection E as _ <-. apply publish_opks in Ei as (rows & Ei & _). intros k Hk. unfold used_keys in *.
    rewrite Ei, List.filter_app, map_app. apply elem_of_app. by left.
  - cbn [apply_op] in E. unfold out_map, se_bind in E. unfold fetch_bundle, connect, se_bind, se_get in E.
    destruct (prekey_bundles s !! id) as [row|]; [|injection E as <- <-; split; [done|by apply Hnil]].
    destruct (consume_opk_spec id (prekey_one_time s)) as [Ec | (pre & x & post & Ep & Hb & Hu & Ec)];
      rewrite Ec in E; unfold se_put, se_lift in E;
      (destruct (json_loads _) as [[| | | | |d]|]; try (injection E as <- <-; split; [done|by apply Hnil])).
    + injection E as <- <-. split; [done|]. apply Hnil. cbn [handed_out]. by rewrite dget_dset.
    + injection E as <- <-. cbn [handed_out]. rewrite dget_dset.
      unfold used_keys. cbn [prekey_one_time set_opks]. rewrite Ep, !List.filter_app, !map_app.
      cbn [List.filter used]. rewrite Hu. cbn [map]. split_and!; [set_solver | apply NoDup_singleton |].
      intros k ->%list_elem_of_singleton. unfold opk_key at 2. cbn [opk_bundle opk_id]. rewrite Hb.
      split; [set_solver|]. pose proof (inv_opks s Hs) as Hnd. rewrite Ep, map_app in Hnd.
      cbn [map] in Hnd. unfold opk_key at 2 in Hnd. rewrite Hb in Hnd.
      apply NoDup_app in Hnd as (_ & Hd1 & [Hd2 _]%NoDup_cons). rewrite elem_of_app.
      intros [(y & Ey & [Hy _]%elem_filter)%list_elem_of_fmap | (y & Ey & [Hy _]%elem_filter)%list_elem_of_fmap].
      * apply (Hd1 (id, opk_id x)); [apply list_elem_of_fmap; by exists y|by left].
      * apply Hd2. apply list_elem_of_fmap. by exists y.
Qed.

Lemma handed_out_fresh ops s :
  db_inv s →
  NoDup (concat (map handed_out (run_ops ops s).1)) ∧
  (∀ k, k ∈ concat (map handed_out (run_ops ops s).1) → k ∉ used_keys s).
Proof.
  revert s. induction ops as [|o ops IH]; intros s Hs; cbn [run_ops].
  - split; [constructor | by intros k ?%not_elem_of_nil].
  - destruct (apply_op o s) as [r s'] eqn:E. destruct (used_keys_step o s r s' Hs E) as (H1 & H2 & H3).
    destruct (apply_op_keeps o s r s' Hs E) as [Hs' _]. destruct (IH s' Hs') as [I1 I2].
    destruct (run_ops ops s') as [tr s'']. cbn [fst map concat] in *. split.
    + apply NoDup_app. split_and!; [done| |done]. intros k Hk Hin. apply (I2 k Hin), H3, Hk.
    + intros k [Hk|Hk]%elem_of_app; [by apply H3|]. intros Hu. apply (I2 k Hk), H1, Hu.
Qed.

(** C17: a one-time prekey is given out at most once.  Over any run of the relay,
    whatever is published and republished in between, no two fetches return the same
    one-time prekey of the same bundle. *)
Theorem opk_single_use ops : NoDup (concat (map handed_out (run_ops ops empty_db).1)).
Proof. apply handed_out_fresh, empty_db_inv. Qed.

Lemma message_survives_witness :
  let s := (run_ops [OpCreate "box" [] [] 0 10 1000] empty_db).2 in
  let s1 := (apply_op (OpPut "box" (bs "hi") 1) s).2 in
  let ops := [OpPut "box" (bs "you") 2; OpAck "box" 0; OpAck "other" 9] in
  ∃ ms, (get_messages "box" 0 (-1) (run_ops ops s1).2).1 = Ok ms ∧
        (1, bs "hi") ∈ map (λ m, (seq m, ciphertext m)) ms.
Proof.
  intros s s1 ops. apply (message_survives "box" (bs "hi") 1 s 1 s1 ops 0).
  - apply relay_inv_runs, empty_db_inv.
  - unfold s1. rewrite (surjective_pairing (apply_op _ _)) at 1.
    apply (f_equal2 pair); [vm_compute; reflexivity | reflexivity].
  - repeat constructor.
  - lia.
  - reflexivity.
Defined.
