(* ===== verification/Security.v ===== *)
(** * Capability tokens and proof of work ([server/security.py])

    Random tokens and identifiers ([new_token], [new_mailbox_id], [new_chunk_id])
    are arguments of the handlers that use them. *)

From S2P Require Import Prelude PyStr Json Primitives.

Definition TOKEN_SIZE : Z := 32.

Section security.
Context {C : Crypto}.

Definition token_hash (token : bytes) : bytes := sha256 token.

Definition verify_token (token stored_hash : bytes) : bool :=
  match token, stored_hash with
  | [], _ => false
  | _, [] => false
  | _, _ => bool_decide (token_hash token = stored_hash)
  end.

(** [int.bit_length] of a byte. *)
Definition bit_length (n : Z) : Z := if n =? 0 then 0 else Z.log2 n + 1.

Fixpoint leading_zero_bits (digest : bytes) : Z :=
  match digest with
  | [] => 0
  | byte :: digest' =>
      if byte_val byte =? 0 then 8 + leading_zero_bits digest'
      else 8 - bit_length (byte_val byte)
  end.

(** [now] is the given time, or [int(time.time())]. *)
Definition verify_hashcash (value : option string) (bits now max_age : Z) : res bool :=
  if bits <=? 0 then Ok true else
  match value with
  | None => Ok false
  | Some v =>
      match partition_b ":" (bs v) with
      | None => Ok false
      | Some (timestamp_text, nonce) =>
          match py_int (to_str timestamp_text) with
          | Err e => if isa_ValueError e then Ok false else Err e
          | Ok timestamp =>
              if (now + 60 <? timestamp) || (max_age <? now - timestamp) then Ok false else
              let digest := sha256 (int_b timestamp ++ ":"%char :: nonce) in
              Ok (bits <=? leading_zero_bits digest)
          end
      end
  end.

(** ** Leading zero bits *)

Lemma leading_zero_bits_bound l : 0 ≤ leading_zero_bits l ≤ 8 * blen l.
Proof.
  unfold blen. induction l as [|c l IH]; cbn [leading_zero_bits length]; [lia|].
  pose proof (byte_val_range c) as Hc. destruct (Z.eqb_spec (byte_val c) 0); [lia|].
  unfold bit_length. rewrite (proj2 (Z.eqb_neq _ _) n).
  assert (0 ≤ Z.log2 (byte_val c) < 8) by (split; [apply Z.log2_nonneg | apply Z.log2_lt_pow2; lia]).
  lia.
Qed.

Lemma from_be_cons c l : from_be (c :: l) = byte_val c * 256 ^ blen l + from_be l.
Proof.
  unfold blen. induction l as [|d l IH] using rev_ind.
  - unfold from_be. cbn. lia.
  - rewrite app_comm_cons, !from_be_snoc, IH, length_app. cbn [length].
    replace (Z.of_nat (length l + 1)) with (Z.succ (Z.of_nat (length l))) by lia.
    rewrite Z.pow_succ_r by lia. lia.
Qed.

Lemma leading_zero_bits_le l n :
  n ≤ leading_zero_bits l → n ≤ 8 * blen l → from_be l < 2 ^ (8 * blen l - n).
Proof.
  revert n. induction l as [|c l IH]; intros n Hn Hb; cbn [leading_zero_bits] in Hn.
  - change (blen []) with 0 in *. unfold from_be. cbn [from_be_acc].
    apply Z.pow_pos_nonneg; lia.
  - pose proof (byte_val_range c) as Hc. rewrite from_be_cons. pose proof (from_be_bound l) as Hl.
    assert (blen (c :: l) = blen l + 1) as E by (unfold blen; cbn; lia). rewrite E in *.
    pose proof (Zle_0_nat (length l)). fold (blen l) in *.
    change 256 with (2 ^ 8) in Hl |- *. rewrite <-Z.pow_mul_r in Hl |- * by lia.
    destruct (Z.eqb_spec (byte_val c) 0) as [->|Hne].
    + destruct (Z.le_gt_cases n 8).
      * assert (2 ^ (8 * blen l) ≤ 2 ^ (8 * (blen l + 1) - n)) by (apply Z.pow_le_mono_r; lia). lia.
      * replace (8 * (blen l + 1) - n) with (8 * blen l - (n - 8)) by lia. apply IH; lia.
    + unfold bit_length in Hn. rewrite (proj2 (Z.eqb_neq _ _) Hne) in Hn.
      pose proof (Z.log2_spec (byte_val c) ltac:(lia)) as [_ Hlog].
      assert (byte_val c + 1 ≤ 2 ^ (8 - n)).
      { assert (2 ^ Z.succ (Z.log2 (byte_val c)) ≤ 2 ^ (8 - n)) by (apply Z.pow_le_mono_r; lia). lia. }
      replace (8 * (blen l + 1) - n) with ((8 - n) + 8 * blen l) by lia.
      destruct (Z.le_gt_cases n 8); [rewrite Z.pow_add_r by lia; nia|].
      rewrite (Z.pow_neg_r 2 (8 - n)) in * by lia. lia.
Qed.

(** The proof of work is what it says: the counted bits are zero, the digest
    read as a number is below [2^(8*len - bits)]; and a stamp is accepted only when
    its own timestamp is at most a minute ahead and at most [max_age] old and the
    digest of exactly that timestamp and nonce has the bits asked for. *)
Theorem hashcash_sound value bits now max_age :
  0 < bits → verify_hashcash value bits now max_age = Ok true →
  ∃ v stamp_text nonce timestamp,
    value = Some v ∧ partition_b ":" (bs v) = Some (stamp_text, nonce) ∧
    py_int (to_str stamp_text) = Ok timestamp ∧
    now - max_age ≤ timestamp ≤ now + 60 ∧
    let digest := sha256 (int_b timestamp ++ ":"%char :: nonce) in
    bits ≤ 8 * blen digest ∧ from_be digest < 2 ^ (8 * blen digest - bits).
Proof.
  intros Hb E. unfold verify_hashcash in E. rewrite (proj2 (Z.leb_gt bits 0)) in E by lia.
  destruct value as [v|]; [|done]. destruct (partition_b ":" (bs v)) as [[t n]|] eqn:Ep; [|done].
  destruct (py_int (to_str t)) as [ts|e] eqn:Ei; [|by case_match].
  destruct (_ || _) eqn:Et; [done|]. injection E as E%Z.leb_le. exists v, t, n, ts.
  pose proof (leading_zero_bits_bound (sha256 (int_b ts ++ ":"%char :: n))).
  split; [done|]. split; [done|]. split; [done|]. split; [lia|]. split; [lia|].
  apply leading_zero_bits_le; lia.
Qed.

Context {L : CryptoLaws C}.

(** A token verifies against its own hash. *)
Lemma verify_token_hash t : t ≠ [] → verify_token t (token_hash t) = true.
Proof using L.
  intros Ht. unfold verify_token. destruct t as [|c t]; [done|].
  pose proof (sha256_length (c :: t)) as Hl. unfold token_hash.
  destruct (sha256 (c :: t)) eqn:E; [done|]. rewrite <-E. by apply bool_decide_eq_true_2.
Qed.
End security.

Import Toy.

Lemma hashcash_sound_witness :
  ∃ v stamp_text nonce timestamp,
    Some "100:x"%string = Some v ∧ partition_b ":" (bs v) = Some (stamp_text, nonce) ∧
    py_int (to_str stamp_text) = Ok timestamp ∧ 120 - 3600 ≤ timestamp ≤ 120 + 60 ∧
    let digest := sha256 (int_b timestamp ++ ":"%char :: nonce) in
    20 ≤ 8 * blen digest ∧ from_be digest < 2 ^ (8 * blen digest - 20).
Proof. apply (hashcash_sound (Some "100:x"%string) 20 120 3600); [lia | vm_compute; reflexivity]. Defined.
