(* ===== verification/RateLimit.v ===== *)
(** * Sliding-window rate limiter ([server/ratelimit.py])

    Times are integers (the code compares floats); the lock makes one [allow] one
    atomic step. *)

From S2P Require Import Prelude PyStr.

Record SlidingWindowLimiter := {
  limit : Z;
  window : Z;
  events : gmap string (list Z)   (* the deques, oldest first *)
}.

Definition new_limiter (limit0 window_seconds : Z) : SlidingWindowLimiter :=
  {| limit := Z.max 0 limit0; window := window_seconds; events := ∅ |}.

(** [while events and events[0] < cutoff: events.popleft()] *)
Fixpoint popleft_while (cutoff : Z) (l : list Z) : list Z :=
  match l with
  | [] => []
  | t :: l' => if t <? cutoff then popleft_while cutoff l' else l
  end.

Definition set_events (e : gmap string (list Z)) (s : SlidingWindowLimiter) : SlidingWindowLimiter :=
  {| limit := limit s; window := window s; events := e |}.

Definition allow (key : string) (current : Z) (s : SlidingWindowLimiter)
    : bool * SlidingWindowLimiter :=
  if limit s =? 0 then (true, s) else
  let cutoff := current - window s in
  let q := popleft_while cutoff (default [] (events s !! key)) in
  if limit s <=? Z.of_nat (length q) then (false, set_events (<[key := q]> (events s)) s)
  else (true, set_events (<[key := q ++ [current]]> (events s)) s).

Definition reset (s : SlidingWindowLimiter) : SlidingWindowLimiter := set_events ∅ s.

Record RateLimiters := {
  create : SlidingWindowLimiter;
  write : SlidingWindowLimiter;
  bundle : SlidingWindowLimiter
}.
Definition new_limiters (creates_per_hour writes_per_minute bundles_per_hour : Z) : RateLimiters :=
  {| create := new_limiter creates_per_hour 3600; write := new_limiter writes_per_minute 60;
     bundle := new_limiter bundles_per_hour 3600 |}.
Definition reset_all (r : RateLimiters) : RateLimiters :=
  {| create := reset (create r); write := reset (write r); bundle := reset (bundle r) |}.

(** ** A run of requests *)

(** Requests [(key, time)]: the accepted ones and the final state. *)
Fixpoint run (reqs : list (string * Z)) (s : SlidingWindowLimiter)
    : list (string * Z) * SlidingWindowLimiter :=
  match reqs with
  | [] => ([], s)
  | (k, t) :: reqs' =>
      let '(ok, s') := allow k t s in
      let '(acc, s'') := run reqs' s' in
      (if ok then (k, t) :: acc else acc, s'')
  end.

(** The times of [key] in a history, oldest first. *)
Definition times (key : string) (l : list (string * Z)) : list Z :=
  map snd (List.filter (λ p, String.eqb p.1 key) l).
Definition count (t w : Z) (l : list Z) : nat :=
  length (List.filter (λ x, (t - w <=? x) && (x <=? t)) l).

Lemma times_snoc key l k t :
  times key (l ++ [(k, t)]) = times key l ++ (if String.eqb k key then [t] else []).
Proof. unfold times. rewrite List.filter_app, map_app. cbn. by destruct (String.eqb k key). Qed.

Lemma count_app t w a b : count t w (a ++ b) = (count t w a + count t w b)%nat.
Proof. unfold count. by rewrite List.filter_app, length_app. Qed.
Lemma count_le t w l : (count t w l ≤ length l)%nat.
Proof. unfold count. induction l as [|x l IH]; cbn; [lia|]. case_match; cbn; lia. Qed.
Lemma count_old t w l : Forall (λ x, x < t - w) l → count t w l = 0%nat.
Proof.
  unfold count. induction 1 as [|x l Hx _ IH]; [done|]. cbn.
  by rewrite (proj2 (Z.leb_gt (t - w) x)) by lia.
Qed.

Lemma popleft_split cutoff l :
  ∃ p, l = p ++ popleft_while cutoff l ∧ Forall (λ t, t < cutoff) p.
Proof.
  induction l as [|t l (p & E & Hp)]; [by exists []|]. cbn. destruct (Z.ltb_spec t cutoff).
  - exists (t :: p). cbn. rewrite <-E. split; [done|by constructor].
  - by exists [].
Qed.

Lemma popleft_ge cutoff l :
  StronglySorted Z.le l → Forall (λ t, cutoff ≤ t) (popleft_while cutoff l).
Proof.
  induction 1 as [|t l Hl IH Ht]; cbn; [constructor|]. destruct (Z.ltb_spec t cutoff); [done|].
  constructor; [done|]. revert Ht. apply List.Forall_impl. lia.
Qed.

Lemma count_all t w l : Forall (λ x, t - w ≤ x ≤ t) l → count t w l = length l.
Proof.
  unfold count. induction 1 as [|x l Hx _ IH]; [done|]. cbn.
  rewrite (proj2 (Z.leb_le (t - w) x)), (proj2 (Z.leb_le x t)) by lia. cbn. by rewrite IH.
Qed.

Lemma StronglySorted_app_r {A} (R : A → A → Prop) l k :
  StronglySorted R (l ++ k) → StronglySorted R k.
Proof. induction l; [done|]. cbn. inversion 1; subst; auto. Qed.

(** The deque of a key is its history without events that left the window. *)
Definition tracks (now : Z) (acc : list (string * Z)) (s : SlidingWindowLimiter) : Prop :=
  ∀ key, StronglySorted Z.le (times key acc) ∧ Forall (λ t, t ≤ now) (times key acc) ∧
    ∃ old, times key acc = old ++ default [] (events s !! key) ∧
           Forall (λ t, t < now - window s) old.

Lemma tracks_weaken now now' acc s : tracks now acc s → now ≤ now' → tracks now' acc s.
Proof.
  intros Hs Hn key. destruct (Hs key) as (H1 & H2 & old & E & Ho). split_and!; [done| |].
  - revert H2. apply List.Forall_impl. lia.
  - exists old. split; [done|]. revert Ho. apply List.Forall_impl. lia.
Qed.

(** After the expired events are dropped, the deque holds the window exactly. *)
Lemma tracks_pop now acc s key :
  tracks now acc s →
  let q := popleft_while (now - window s) (default [] (events s !! key)) in
  length q = count now (window s) (times key acc) ∧
  ∃ old, times key acc = old ++ q ∧ Forall (λ x, x < now - window s) old.
Proof.
  intros Hs q. destruct (Hs key) as (H1 & H2 & old & E & Ho).
  destruct (popleft_split (now - window s) (default [] (events s !! key))) as (p & Ep & Hp).
  fold q in Ep. assert (times key acc = (old ++ p) ++ q) as E' by (by rewrite <-app_assoc, <-Ep).
  assert (Forall (λ x, x < now - window s) (old ++ p)) as Hop by (by apply Forall_app).
  split; [|by exists (old ++ p)]. rewrite E', count_app, (count_old _ _ (old ++ p)) by done.
  rewrite count_all; [done|]. rewrite E in H1. apply StronglySorted_app_r in H1.
  pose proof (popleft_ge (now - window s) _ H1) as Hge. fold q in Hge.
  rewrite E' in H2. apply Forall_app in H2 as [_ H2]. apply Forall_and. by split.
Qed.

Lemma tracks_set now acc acc' s key q :
  tracks now acc s → (∀ k, k ≠ key → times k acc' = times k acc) →
  StronglySorted Z.le (times key acc') → Forall (λ t, t ≤ now) (times key acc') →
  (∃ old, times key acc' = old ++ q ∧ Forall (λ x, x < now - window s) old) →
  tracks now acc' (set_events (<[key := q]> (events s)) s).
Proof.
  intros Hs Hne H1 H2 H3 k. cbn [events window set_events]. destruct (decide (k = key)) as [->|Hk].
  - rewrite lookup_insert_eq. by split_and!.
  - rewrite lookup_insert_ne by done. rewrite Hne by done. apply Hs.
Qed.

(** One request: accepted exactly when the window of its key has room. *)
Lemma allow_spec acc s k t :
  0 < limit s → tracks t acc s →
  let '(ok, s') := allow k t s in
  limit s' = limit s ∧ window s' = window s ∧
  ok = (Z.of_nat (count t (window s) (times k acc)) <? limit s) ∧
  tracks t (if ok then acc ++ [(k, t)] else acc) s'.
Proof.
  intros Hl Hs. unfold allow. rewrite (proj2 (Z.eqb_neq (limit s) 0)) by lia.
  destruct (tracks_pop t acc s k Hs) as (Hlen & Hold).
  set (q := popleft_while (t - window s) (default [] (events s !! k))) in *.
  destruct (Hs k) as (H1 & H2 & _). destruct (Z.leb_spec (limit s) (Z.of_nat (length q))).
  - split_and!; [done|done|symmetry; lia|]. by apply (tracks_set t acc acc).
  - split_and!; [done|done|symmetry; lia|]. apply (tracks_set t acc); [done|..];
      rewrite ?times_snoc, ?String.eqb_refl.
    + intros k' Hk'. rewrite times_snoc. rewrite (proj2 (String.eqb_neq k k')) by done.
      apply app_nil_r.
    + revert H1 H2. generalize (times k acc). induction l as [|x l IH]; cbn; intros G1 G2;
        [by repeat constructor|]. inversion G1; subst. apply Forall_cons in G2 as [G2 G3].
      constructor; [by apply IH|]. apply Forall_app. split; [done|]. by constructor.
    + apply Forall_app. split; [done|]. constructor; [lia|constructor].
    + destruct Hold as (old & E & Ho). exists old. rewrite E, <-app_assoc. done.
Qed.

(** Requests arrive in time order. *)
Fixpoint ordered (now : Z) (reqs : list (string * Z)) : Prop :=
  match reqs with [] => True | (_, t) :: reqs' => now ≤ t ∧ ordered t reqs' end.

Definition bounded (acc : list (string * Z)) (w n : Z) : Prop :=
  ∀ key t, Z.of_nat (count t w (times key acc)) ≤ n.

Lemma bounded_snoc acc k t w n :
  bounded acc w n → Z.of_nat (count t w (times k acc)) < n →
  Forall (λ x, x ≤ t) (times k acc) → bounded (acc ++ [(k, t)]) w n.
Proof.
  intros Hb Hc Hle key t'. rewrite times_snoc, count_app. specialize (Hb key t') as Hb'.
  destruct (String.eqb_spec k key) as [<-|]; [|cbn; lia].
  unfold count at 2. cbn. destruct (Z.leb_spec (t' - w) t), (Z.leb_spec t t'); cbn; try lia.
  assert (count t' w (times k acc) ≤ count t w (times k acc))%nat; [|lia].
  clear -Hle H H0. unfold count. induction Hle as [|x l Hx _ IH]; cbn; [lia|].
  destruct (Z.leb_spec (t' - w) x), (Z.leb_spec x t'), (Z.leb_spec (t - w) x), (Z.leb_spec x t);
    cbn; lia.
Qed.

Lemma run_spec reqs : ∀ now acc s,
  0 < limit s → tracks now acc s → bounded acc (window s) (limit s) → ordered now reqs →
  let '(acc', s') := run reqs s in
  limit s' = limit s ∧ window s' = window s ∧ bounded (acc ++ acc') (window s) (limit s) ∧
  ∃ now', now ≤ now' ∧ tracks now' (acc ++ acc') s' ∧ (∀ k t, ordered now (reqs ++ [(k, t)]) → now' ≤ t).
Proof.
  induction reqs as [|[k t] reqs IH]; intros now acc s Hl Hs Hb Ho; cbn [run].
  - rewrite app_nil_r. split_and!; [done..|]. exists now. split_and!; [lia|done|].
    intros k t [H _]. done.
  - destruct Ho as [Hnt Ho]. pose proof (tracks_weaken now t acc s Hs Hnt) as Hs'.
    pose proof (allow_spec acc s k t Hl Hs') as Ha. destruct (allow k t s) as [ok s1].
    destruct Ha as (L1 & W1 & Hok & Ht).
    assert (bounded (if ok then acc ++ [(k, t)] else acc) (window s) (limit s)) as Hb1.
    { destruct ok; [|done]. apply bounded_snoc; [done|lia|apply Hs']. }
    specialize (IH t (if ok then acc ++ [(k, t)] else acc) s1). rewrite L1, W1 in IH.
    specialize (IH Hl Ht Hb1 Ho). destruct (run reqs s1) as [acc' s2].
    destruct IH as (L2 & W2 & B2 & now' & N1 & T2 & N2).
    assert ((if ok then acc ++ [(k, t)] else acc) ++ acc'
            = acc ++ (if ok then (k, t) :: acc' else acc')) as E.
    { destruct ok; [by rewrite <-app_assoc|done]. }
    rewrite E in *. split_and!; [done..|]. exists now'. split_and!; [lia|done|].
    intros k' t' [_ H]. by apply (N2 k').
Qed.

(** The limiter is an exact sliding window.  After any requests in time order,
    a request is accepted exactly when fewer than [limit] requests of its key were
    accepted in the [window] seconds up to it; hence no window of that length, at
    any time, ever holds more than [limit] accepted requests of one key. *)
Theorem limiter_exact n w reqs k t :
  0 < n → ordered 0 (reqs ++ [(k, t)]) → 0 ≤ t →
  let '(acc, s) := run reqs (new_limiter n w) in
  (allow k t s).1 = (Z.of_nat (count t w (times k acc)) <? n) ∧
  ∀ key t', Z.of_nat (count t' w (times key acc)) ≤ n.
Proof.
  intros Hn Ho Ht. pose proof (run_spec reqs 0 [] (new_limiter n w)) as H.
  cbn [new_limiter limit window events] in H. rewrite Z.max_r in H by lia.
  assert (ordered 0 reqs) as Ho'.
  { clear -Ho. revert Ho. generalize 0. induction reqs as [|[k' t'] reqs IH]; [done|].
    intros z [H1 H2]. split; [done|]. by apply IH. }
  unfold new_limiter in *. rewrite Z.max_r in * by lia.
  specialize (H Hn). destruct (run reqs _) as [acc s].
  destruct H as (L & W & B & now' & N1 & T & N2); [| |done|].
  - intros key. cbn. split_and!; [constructor..|]. exists []. rewrite lookup_empty. by split.
  - intros key t'. cbn. lia.
  - cbn [app] in *. cbn [limit window] in L, W. split; [|exact B].
    pose proof (tracks_weaken now' t acc s T (N2 k t Ho)) as T'.
    pose proof (allow_spec acc s k t ltac:(lia) T') as Ha. destruct (allow k t s) as [ok s'].
    cbn [fst]. destruct Ha as (_ & _ & -> & _). by rewrite L, W.
Qed.

Lemma limiter_exact_witness :
  let '(acc, s) := run [("a"%string, 1); ("a"%string, 5); ("a"%string, 9)] (new_limiter 2 10) in
  (allow "a" 12 s).1 = (Z.of_nat (count 12 10 (times "a" acc)) <? 2) ∧
  ∀ key t', Z.of_nat (count t' 10 (times key acc)) ≤ 2.
Proof.
  apply (limiter_exact 2 10 [("a"%string, 1); ("a"%string, 5); ("a"%string, 9)] "a" 12);
    [lia | cbn; lia | lia].
Defined.
