(* ===== verification/Config.v ===== *)
(** * Relay configuration ([server/config.py])

    The environment is an argument: [env name] is [os.environ.get(name)]. *)

From S2P Require Import Prelude PyStr.

Definition MAX_BLOB_BYTES : Z := 256 * 1024.
Definition MAX_CHUNK_BYTES : Z := 1024 * 1024.
Definition MAX_MESSAGES_PER_MAILBOX : Z := 1000.
Definition MAX_BYTES_PER_MAILBOX : Z := 64 * 1024 * 1024.
Definition MAX_WAIT_SECONDS : Z := 60.
Definition MAX_MESSAGES_PER_FETCH : Z := 200.

Definition env_int (env : string → option string) (name : string) (dflt : Z) : res Z :=
  match env name with
  | None => Ok dflt
  | Some raw =>
      if String.eqb raw "" then Ok dflt else
      match py_int raw with
      | Ok n => Ok n
      | Err e => if isa_ValueError e then Ok dflt else Err e
      end
  end.

Definition env_str (env : string → option string) (name dflt : string) : string :=
  default dflt (env name).

Definition env_list (env : string → option string) (name : string) : list string :=
  List.filter (λ s, negb (String.eqb s "")) (map py_strip (py_split "," (env_str env name ""))).

Record Settings := {
  data_dir : string;
  host : string;
  port : Z;
  max_blob_bytes : Z;
  max_chunk_bytes : Z;
  max_messages_per_mailbox : Z;
  max_bytes_per_mailbox : Z;
  max_wait_seconds : Z;
  max_messages_per_fetch : Z;
  mailbox_ttl_seconds : Z;
  blob_ttl_seconds : Z;
  housekeeping_interval : Z;
  require_hashcash : bool;
  hashcash_bits : Z;
  mailbox_creates_per_hour : Z;
  writes_per_minute : Z;
  bundles_per_hour : Z;
  advertise_url : string;
  known_relays : list string
}.

Definition default_settings : Settings :=
  {| data_dir := "relay_data"; host := "127.0.0.1"; port := 8000;
     max_blob_bytes := MAX_BLOB_BYTES; max_chunk_bytes := MAX_CHUNK_BYTES;
     max_messages_per_mailbox := MAX_MESSAGES_PER_MAILBOX;
     max_bytes_per_mailbox := MAX_BYTES_PER_MAILBOX; max_wait_seconds := MAX_WAIT_SECONDS;
     max_messages_per_fetch := MAX_MESSAGES_PER_FETCH;
     mailbox_ttl_seconds := 90 * 24 * 3600; blob_ttl_seconds := 30 * 24 * 3600;
     housekeeping_interval := 3600; require_hashcash := false; hashcash_bits := 20;
     mailbox_creates_per_hour := 30; writes_per_minute := 240; bundles_per_hour := 20;
     advertise_url := ""; known_relays := [] |}.

(** [from_env] without keyword overrides. *)
Definition from_env (env : string → option string) : res Settings :=
  let d := default_settings in
  let? port := env_int env "NK_PORT" 8000 in
  let? bits := env_int env "NK_HASHCASH_BITS" 20 in
  let? mttl := env_int env "NK_MAILBOX_TTL" (90 * 24 * 3600) in
  let? bttl := env_int env "NK_BLOB_TTL" (30 * 24 * 3600) in
  let? creates := env_int env "NK_MAILBOXES_PER_HOUR" 30 in
  let? writes := env_int env "NK_WRITES_PER_MINUTE" 240 in
  let? bundles := env_int env "NK_BUNDLES_PER_HOUR" 20 in
  let hc := env_str env "NK_REQUIRE_HASHCASH" "" in
  Ok {| data_dir := env_str env "NK_DATA_DIR" "relay_data";
        host := env_str env "NK_HOST" "127.0.0.1"; port := port;
        max_blob_bytes := max_blob_bytes d; max_chunk_bytes := max_chunk_bytes d;
        max_messages_per_mailbox := max_messages_per_mailbox d;
        max_bytes_per_mailbox := max_bytes_per_mailbox d;
        max_wait_seconds := max_wait_seconds d;
        max_messages_per_fetch := max_messages_per_fetch d;
        mailbox_ttl_seconds := mttl; blob_ttl_seconds := bttl;
        housekeeping_interval := housekeeping_interval d;
        require_hashcash := negb (String.eqb hc "" || String.eqb hc "0");
        hashcash_bits := bits; mailbox_creates_per_hour := creates; writes_per_minute := writes;
        bundles_per_hour := bundles;
        advertise_url := rstrip_char "/" (env_str env "NK_ADVERTISE_URL" "");
        known_relays := env_list env "NK_KNOWN_RELAYS" |}.
