(* ===== verification/Routers.v ===== *)
(** * Relay endpoints ([server/deps.py], [server/routers/])

    A request is its headers (lower-case names), client address and body; a
    handler is a computation on the application state (database and rate
    limiters) that returns the response body or raises: [HTTPException n] is the
    status the code chooses, any other exception a 500.  Clocks and fresh random
    identifiers are arguments.  Each handler runs alone here; its database calls
    are single transactions. *)

From S2P Require Import Prelude PyStr Json JsonProps Dict Primitives Encoding.
From S2P Require Import Prekeys Db DbProps DbQueue Security RateLimit Config RelayUrls.

Record request := {
  headers : list (string * string);
  client_host : option string;
  body : bytes
}.
Fixpoint header_get (k : string) (h : list (string * string)) : option string :=
  match h with
  | [] => None
  | (k', v) :: h' => if String.eqb k k' then Some v else header_get k h'
  end.

Record app := { a_db : db; a_limiters : RateLimiters; a_settings : Settings }.
Definition with_db (d : db) (a : app) : app :=
  {| a_db := d; a_limiters := a_limiters a; a_settings := a_settings a |}.
Definition with_limiters (l : RateLimiters) (a : app) : app :=
  {| a_db := a_db a; a_limiters := l; a_settings := a_settings a |}.

(** A database call of a handler. *)
Definition on_db {A} (m : SE db A) : SE app A := λ a,
  let '(r, d) := m (a_db a) in (r, with_db d a).

(** ** deps.py *)

Definition MAILBOX_HEADER : string := "x-nk-mailbox".

Definition client_key (r : request) : string := default "unknown"%string (client_host r).

Definition token_from_header (r : request) (header : string) : option bytes :=
  match header_get header (headers r) with
  | None => None
  | Some raw => if String.eqb raw "" then None else ok_or_none (b64d raw)
  end.

Inductive capability := Read | Write.

Section routers.
Context {C : Crypto}.

Definition authenticate_mailbox (r : request) (mailbox_id : string) (cap : capability)
    : SE app mailbox :=
  let header := match cap with Read => "x-nk-read" | Write => "x-nk-write" end%string in
  match token_from_header r header with
  | None => se_raise (HTTPException 401)
  | Some token =>
      do! row := on_db (get_mailbox mailbox_id) in
      match row with
      | None => se_raise (HTTPException 404)
      | Some mb =>
          let stored := match cap with Read => read_token_hash mb | Write => write_token_hash mb end in
          do! _ := se_check (negb (verify_token token stored)) (HTTPException 401) in
          se_ret mb
      end
  end.

Definition mailbox_id_from_header (r : request) : SE app string :=
  match header_get MAILBOX_HEADER (headers r) with
  | None => se_raise (HTTPException 400)
  | Some id => if String.eqb id "" then se_raise (HTTPException 400) else se_ret id
  end.

(** [if not limiter.allow(client_key(request)): raise 429] *)
Definition check_limit (get : RateLimiters → SlidingWindowLimiter)
    (put : SlidingWindowLimiter → RateLimiters → RateLimiters) (r : request) (mono : Z) : SE app unit :=
  do! a := se_get in
  let '(ok, l) := allow (client_key r) mono (get (a_limiters a)) in
  do! _ := se_put (with_limiters (put l (a_limiters a)) a) in
  se_check (negb ok) (HTTPException 429).
Definition put_create (l : SlidingWindowLimiter) (r : RateLimiters) : RateLimiters :=
  {| create := l; write := write r; bundle := bundle r |}.
Definition put_write (l : SlidingWindowLimiter) (r : RateLimiters) : RateLimiters :=
  {| create := create r; write := l; bundle := bundle r |}.
Definition put_bundle (l : SlidingWindowLimiter) (r : RateLimiters) : RateLimiters :=
  {| create := create r; write := write r; bundle := l |}.

(** ** routers/mailboxes.py *)

Definition id_char (c : ascii) : bool :=
  let x := code c in
  ((65 <=? x) && (x <=? 90)) || ((97 <=? x) && (x <=? 122)) || ((48 <=? x) && (x <=? 57))
  || (x =? 95) || (x =? 45).
(** [^[A-Za-z0-9_-]{8,64}$] with [match]: a final newline is allowed by [$]. *)
Definition MAILBOX_ID_PATTERN (s : string) : bool :=
  let l := bs s in
  let core := match rev l with
              | c :: l' => if code c =? 10 then rev l' else l
              | [] => l
              end in
  forallb id_char core && (8 <=? blen core) && (blen core <=? 64).

Definition provided_capability (data : json) : res (string * bytes * bytes) :=
  let? (mailbox_id, read_token, write_token) :=
    except isa_KTV (HTTPException 400)
      (let? id := jitem "mailbox_id" data in
       let? r := (let? j := jitem "read_token" data in b64d_json j) in
       let? w := (let? j := jitem "write_token" data in b64d_json j) in
       Ok (to_pystr id, r, w)) in
  raise_if negb (MAILBOX_ID_PATTERN mailbox_id) with HTTPException 400 ;;
  raise_if negb (blen read_token =? TOKEN_SIZE) || negb (blen write_token =? TOKEN_SIZE)
    with HTTPException 400 ;;
  Ok (mailbox_id, read_token, write_token).

Definition capability_json (id : string) (r w : bytes) : json :=
  JObj [("mailbox_id", JStr id); ("read_token", JStr (b64e r)); ("write_token", JStr (b64e w))].

(** The insertion at the end of [create_mailbox]. *)
Definition register (id : string) (r w : bytes) (now : Z) : SE app json :=
  do! a := se_get in
  do! _ := on_db (create_mailbox id (token_hash r) (token_hash w) now
                    (max_messages_per_mailbox (a_settings a)) (max_bytes_per_mailbox (a_settings a))) in
  se_ret (capability_json id r w).

Definition create_mailbox_handler (req : request) (mono now : Z) (fresh_id fresh_r fresh_w : bytes)
    : SE app json :=
  do! _ := check_limit create put_create req mono in
  do! a := se_get in
  do! _ :=
    (if require_hashcash (a_settings a) then
       do! ok := se_lift (verify_hashcash (header_get "x-nk-hashcash" (headers req))
                            (hashcash_bits (a_settings a)) now 3600) in
       se_check (negb ok) (HTTPException 400)
     else se_ret tt) in
  match body req with
  | [] => register (b64e fresh_id) fresh_r fresh_w now
  | _ =>
      do! data := se_lift (except (isa JSONDecodeError) (HTTPException 400) (json_loads_raw (body req))) in
      do! (mailbox_id, read_token, write_token) := se_lift (provided_capability data) in
      do! existing := on_db (get_mailbox mailbox_id) in
      match existing with
      | Some mb =>
          if verify_token read_token (read_token_hash mb) && verify_token write_token (write_token_hash mb)
          then se_ret (capability_json mailbox_id read_token write_token)
          else se_raise (HTTPException 409)
      | None => register mailbox_id read_token write_token now
      end
  end.

(** The polling loop: [polls] are the states the database is found in and the
    clock after each read. *)
Fixpoint poll_messages (mailbox_id : string) (after_seq limit deadline : Z) (polls : list (db * Z))
    : res (list message) :=
  match polls with
  | [] => Err OutOfFuel
  | (d, clock) :: polls' =>
      let? rows := (get_messages mailbox_id after_seq limit d).1 in
      match rows with
      | [] => if deadline <=? clock then Ok [] else poll_messages mailbox_id after_seq limit deadline polls'
      | _ => Ok rows
      end
  end.

Definition message_json (m : message) : json :=
  JObj [("seq", JInt (seq m)); ("blob", JStr (b64e (ciphertext m)))].

Definition get_mailbox_handler (mailbox_id : string) (req : request) (after_seq wait start : Z)
    (polls : list (db * Z)) : SE app json :=
  do! _ := authenticate_mailbox req mailbox_id Read in
  do! a := se_get in
  let wait := Z.max 0 (Z.min wait (max_wait_seconds (a_settings a))) in
  do! rows := se_lift (poll_messages mailbox_id after_seq (max_messages_per_fetch (a_settings a))
                         (start + wait) polls) in
  let next_seq := match last rows with Some m => seq m | None => after_seq end in
  se_ret (JObj [("messages", JList (map message_json rows)); ("next_seq", JInt next_seq)]).

Definition isa_MailboxNotFound (e : exn) : bool := bool_decide (e = MailboxNotFound).
Definition isa_QuotaExceeded (e : exn) : bool := bool_decide (e = QuotaExceeded).
Definition isa_BlobNotFound (e : exn) : bool := bool_decide (e = BlobNotFound).

Definition put_message_handler (mailbox_id : string) (req : request) (mono now : Z) : SE app json :=
  do! _ := authenticate_mailbox req mailbox_id Write in
  do! _ := check_limit write put_write req mono in
  do! a := se_get in
  do! _ := se_check (match body req with [] => true | _ => false end) (HTTPException 400) in
  do! _ := se_check (max_blob_bytes (a_settings a) <? blen (body req)) (HTTPException 413) in
  do! n := se_except isa_QuotaExceeded (HTTPException 429)
             (se_except isa_MailboxNotFound (HTTPException 404)
               (on_db (put_message mailbox_id (body req) now))) in
  se_ret (JObj [("seq", JInt n)]).

Definition ack_handler (mailbox_id : string) (req : request) : SE app json :=
  do! _ := authenticate_mailbox req mailbox_id Read in
  do! upto := se_lift (except isa_Exception (HTTPException 400)
                (let? payload := json_loads_raw (body req) in
                 let? u := jitem "upto_seq" payload in to_int u)) in
  do! n := on_db (ack_messages mailbox_id upto) in
  se_ret (JObj [("deleted", JInt n)]).

Definition delete_mailbox_handler (mailbox_id : string) (req : request) : SE app json :=
  do! _ := authenticate_mailbox req mailbox_id Read in
  do! (m, b) := on_db (delete_mailbox mailbox_id) in
  se_ret (JObj [("deleted_messages", JInt m); ("deleted_blobs", JInt b)]).

(** ** routers/prekeys.py *)

Definition MAX_BUNDLE_BYTES : Z := 16 * 1024.

Definition parse_bundle (b : bytes) : res (string * list json * dict) :=
  except isa_Exception (HTTPException 400)
    (let? payload := json_loads_raw b in
     let? bundle_id := jitem "bundle_id" payload in
     let? opks := (let? o := jget "opks" payload in iter_json (jor o (JList []))) in
     let? d := items_json payload in
     Ok (to_pystr bundle_id, opks, d)).

Definition publish_handler (req : request) (mono now : Z) : SE app json :=
  do! _ := check_limit bundle put_bundle req mono in
  do! _ := se_check (match body req with [] => true | _ => MAX_BUNDLE_BYTES <? blen (body req) end)
             (HTTPException 413) in
  do! (bundle_id, opks, payload) := se_lift (parse_bundle (body req)) in
  do! _ := se_check (MAX_OPKS <? Z.of_nat (length opks)) (HTTPException 400) in
  let stored := dset "opks" (JList []) (dpop "opks" payload) in
  do! _ := on_db (publish_bundle bundle_id stored opks now) in
  se_ret (JObj [("bundle_id", JStr bundle_id)]).

Definition fetch_handler (bundle_id : string) : SE app json :=
  do! d := se_except (λ e, bool_decide (e = BundleNotFound)) (HTTPException 404)
             (on_db (fetch_bundle bundle_id)) in
  se_ret (JObj d).

(** ** routers/blobs.py *)

Definition CHUNK_ID_SIZE : Z := 16.

Definition chunk_id_of (req : request) (fresh : string) : res string :=
  match header_get "x-nk-chunk" (headers req) with
  | None => Ok fresh
  | Some provided =>
      if String.eqb provided "" then Ok fresh else
      let? raw := except isa_Exception (HTTPException 400) (b64d provided) in
      raise_if negb (blen raw =? CHUNK_ID_SIZE) with HTTPException 400 ;;
      Ok provided
  end.

Definition upload_handler (req : request) (mono now : Z) (fresh : string) : SE app json :=
  do! mailbox_id := mailbox_id_from_header req in
  do! _ := authenticate_mailbox req mailbox_id Write in
  do! _ := check_limit write put_write req mono in
  do! a := se_get in
  do! _ := se_check (match body req with [] => true | _ => false end) (HTTPException 400) in
  do! _ := se_check (max_chunk_bytes (a_settings a) <? blen (body req)) (HTTPException 413) in
  do! chunk_id := se_lift (chunk_id_of req fresh) in
  do! a := se_get in
  match (get_blob chunk_id (a_db a)).1 with
  | Ok existing =>
      if String.eqb (blob_mailbox existing) mailbox_id
      then se_ret (JObj [("chunk_id", JStr chunk_id)])
      else se_raise (HTTPException 409)
  | Err e =>
      if isa_BlobNotFound e then
        do! _ := se_except isa_QuotaExceeded (HTTPException 429)
                   (se_except isa_MailboxNotFound (HTTPException 404)
                     (on_db (put_blob chunk_id mailbox_id (body req) now))) in
        se_ret (JObj [("chunk_id", JStr chunk_id)])
      else se_raise e
  end.

Definition download_handler (chunk_id : string) (req : request) : SE app bytes :=
  do! mailbox_id := mailbox_id_from_header req in
  do! _ := authenticate_mailbox req mailbox_id Read in
  do! row := se_except isa_BlobNotFound (HTTPException 404) (on_db (get_blob chunk_id)) in
  do! _ := se_check (negb (String.eqb (blob_mailbox row) mailbox_id)) (HTTPException 404) in
  se_ret (blob_data row).

(** ** routers/relays.py *)

(** [_normalize]. *)
Definition normalize (urls : list string) : list string := normalize_relay_urls urls.

(** [relays.json]: [None] when the file does not exist, [Some (Err OSError)] when it
    cannot be read. *)
Definition file_relays (file : option (res bytes)) : res (list string) :=
  match file with
  | None => Ok []
  | Some content =>
      match (let? b := content in let? text := decode_utf8 b in json_loads text) with
      | Err e => if bool_decide (e = OSError) || bool_decide (e = JSONDecodeError) then Ok [] else Err e
      | Ok data =>
          let? data := (if is_dict data then jget_def "relays" (JList []) data else Ok data) in
          match data with
          | JList l => Ok (map to_pystr l)
          | _ => Ok []
          end
      end
  end.

Definition list_relays (s : Settings) (file : option (res bytes)) : res json :=
  let own := if String.eqb (advertise_url s) "" then [] else [advertise_url s] in
  let? extra := file_relays file in
  let relays := normalize (own ++ known_relays s ++ extra) in
  Ok (JObj [("relays", JList (map JStr relays));
            ("advertise", if String.eqb (advertise_url s) "" then JNull else JStr (advertise_url s))]).
End routers.

(** ** Authorisation *)

Section authorisation.
Context {C : Crypto}.

(** The request carries the capability of an existing mailbox. *)
Definition authorised (r : request) (id : string) (cap : capability) (d : db) : Prop :=
  ∃ mb token,
    mailboxes d !! id = Some mb ∧
    token_from_header r (match cap with Read => "x-nk-read" | Write => "x-nk-write" end) = Some token ∧
    token_hash token = match cap with Read => read_token_hash mb | Write => write_token_hash mb end.

Lemma with_db_same a : with_db (a_db a) a = a.
Proof. by destruct a. Qed.

Lemma authenticate_spec r id cap a res a' :
  authenticate_mailbox r id cap a = (res, a') →
  a' = a ∧
  match res with
  | Ok mb => mailboxes (a_db a) !! id = Some mb ∧ authorised r id cap (a_db a)
  | Err e => e = HTTPException 401 ∨ (e = HTTPException 404 ∧ mailboxes (a_db a) !! id = None)
  end.
Proof.
  intros E. unfold authenticate_mailbox in E.
  destruct (token_from_header r _) as [token|] eqn:Et; [|injection E as <- <-; auto].
  unfold se_bind, on_db, get_mailbox, connect, se_bind, se_get, se_ret in E. rewrite with_db_same in E.
  destruct (mailboxes (a_db a) !! id) as [mb|] eqn:Em; [|injection E as <- <-; auto].
  unfold se_check in E. destruct (verify_token token _) eqn:Ev; cbn [negb] in E;
    [|injection E as <- <-; auto].
  injection E as <- <-. split; [done|]. split; [done|]. exists mb, token. split_and!; [done..|].
  revert Ev. generalize (match cap with Read => read_token_hash mb | Write => write_token_hash mb end).
  intros stored Ev. unfold verify_token in Ev. destruct token; [done|]. destruct stored; [done|].
  by apply bool_decide_eq_true in Ev.
Qed.

(** [guarded P m]: when [m] changes the database or succeeds, [P] held before. *)
Definition guarded {A} (P : app → Prop) (m : SE app A) : Prop :=
  ∀ a r a', m a = (r, a') → (a_db a' ≠ a_db a ∨ ∃ x, r = Ok x) → P a.

Lemma guarded_auth {A} r id cap (f : mailbox → SE app A) :
  guarded (λ a, authorised r id cap (a_db a)) (do! mb := authenticate_mailbox r id cap in f mb).
Proof.
  intros a res a' E Hc. unfold se_bind in E.
  destruct (authenticate_mailbox r id cap a) as [[mb|e] a1] eqn:Ea;
    apply authenticate_spec in Ea as [-> Ha]; [by destruct Ha|].
  injection E as <- <-. by destruct Hc as [Hc|(x & Hx)].
Qed.

Lemma guarded_header {A} r cap (f : string → mailbox → SE app A) :
  guarded (λ a, ∃ id, header_get MAILBOX_HEADER (headers r) = Some id ∧ authorised r id cap (a_db a))
    (do! id := mailbox_id_from_header r in do! mb := authenticate_mailbox r id cap in f id mb).
Proof.
  intros a res a' E Hc. unfold se_bind at 1, mailbox_id_from_header in E.
  destruct (header_get MAILBOX_HEADER (headers r)) as [id|] eqn:Eh.
  2:{ injection E as <- <-. by destruct Hc as [Hc|(x & Hx)]. }
  destruct (String.eqb id ""); cbn [se_raise se_ret] in E; unfold se_raise, se_ret in E.
  { injection E as <- <-. by destruct Hc as [Hc|(x & Hx)]. }
  exists id. split; [done|]. by eapply (guarded_auth r id cap (f id)).
Qed.

(** C33: nobody reads or changes a mailbox without its capability.  A write, an
    acknowledgement, a deletion, a blob upload that changed the database, and a
    read or a download that succeeded, came with a token whose hash is the one
    stored for that existing mailbox - the write token for writes and uploads, the
    read token for the rest. *)
Theorem capability_required :
  (∀ id r mono now, guarded (λ a, authorised r id Write (a_db a)) (put_message_handler id r mono now)) ∧
  (∀ id r, guarded (λ a, authorised r id Read (a_db a)) (ack_handler id r)) ∧
  (∀ id r, guarded (λ a, authorised r id Read (a_db a)) (delete_mailbox_handler id r)) ∧
  (∀ id r after wait start polls,
     guarded (λ a, authorised r id Read (a_db a)) (get_mailbox_handler id r after wait start polls)) ∧
  (∀ r mono now fresh,
     guarded (λ a, ∃ id, header_get MAILBOX_HEADER (headers r) = Some id ∧ authorised r id Write (a_db a))
       (upload_handler r mono now fresh)) ∧
  (∀ chunk r,
     guarded (λ a, ∃ id, header_get MAILBOX_HEADER (headers r) = Some id ∧ authorised r id Read (a_db a))
       (download_handler chunk r)).
Proof.
  split_and!; intros.
  - apply guarded_auth.
  - apply guarded_auth.
  - apply guarded_auth.
  - apply guarded_auth.
  - apply (guarded_header r Write (λ id _, _)).
  - apply (guarded_header r Read (λ id _, _)).
Qed.

(** A blob is only served to holders of the read capability of the mailbox it
    was uploaded under: a download that succeeds returns the stored bytes of a blob
    of exactly the mailbox named by the request. *)
Theorem download_own_mailbox chunk r a data a' :
  download_handler chunk r a = (Ok data, a') →
  a' = a ∧ ∃ id b, header_get MAILBOX_HEADER (headers r) = Some id ∧
    authorised r id Read (a_db a) ∧ blobs (a_db a) !! chunk = Some b ∧
    blob_mailbox b = id ∧ blob_data b = data.
Proof.
  intros E. unfold download_handler in E.
  apply se_bind_Ok in E as (id & a1 & E1 & E).
  assert (a1 = a ∧ header_get MAILBOX_HEADER (headers r) = Some id) as [-> Eh].
  { unfold mailbox_id_from_header in E1. destruct (header_get _ _) as [h|]; [|done].
    destruct (String.eqb h ""); [done|]. by injection E1 as -> ->. }
  apply se_bind_Ok in E as (mb & a2 & E2 & E).
  apply authenticate_spec in E2 as [-> [_ Ha]].
  apply se_bind_Ok in E as (b & a3 & E3 & E).
  unfold se_except, on_db, get_blob, connect, se_bind, se_get, se_lift in E3.
  destruct (blobs (a_db a) !! chunk) as [b'|] eqn:Eb; cbn [of_option] in E3; [|done].
  rewrite with_db_same in E3. injection E3 as -> ->.
  unfold se_bind, se_check in E. destruct (String.eqb_spec (blob_mailbox b) id); cbn [negb] in E; [|done].
  injection E as <- <-. split; [done|]. by exists id, b.
Qed.


End authorisation.

(** ** Concrete requests *)

Import Toy.

Definition sample_app : app :=
  {| a_db := {| mailboxes := {["box"%string := new_mailbox (token_hash (bs "read-token"))
                                                  (token_hash (bs "write-token")) 0 10 1000]};
                messages := []; prekey_bundles := ∅; prekey_one_time := [];
                blobs := {["chunk"%string := {| blob_mailbox := "box"; blob_data := bs "data";
                                                blob_size := 4; blob_created_at := 0 |}]} |};
     a_limiters := new_limiters 30 240 20; a_settings := default_settings |}.
Definition sample_request : request :=
  {| headers := [("x-nk-mailbox"%string, "box"%string); ("x-nk-read"%string, b64e (bs "read-token"))];
     client_host := None; body := [] |}.

Lemma download_own_mailbox_witness :
  sample_app = sample_app ∧ ∃ id b, header_get MAILBOX_HEADER (headers sample_request) = Some id ∧
    authorised sample_request id Read (a_db sample_app) ∧
    blobs (a_db sample_app) !! "chunk"%string = Some b ∧ blob_mailbox b = id ∧ blob_data b = bs "data".
Proof.
  apply (download_own_mailbox "chunk" sample_request sample_app (bs "data") sample_app).
  vm_compute. reflexivity.
Defined.
