(* ===== verification/RelayApp.v ===== *)
(** * The relay as a whole ([server/app.py], [server/__main__.py])

    The application built by [create_app]: the endpoints of Routers behind one
    [serve], the housekeeping loop, and the health endpoint.  A run of the relay is a
    sequence of served requests, turns of the housekeeping loop and restarts on the
    same database file; each of them runs alone (the waiting of a long poll is in the
    states its read finds, see Routers).

    FastAPI turns an [HTTPException] into its status and any other exception into a
    500; it answers 422 itself when a query parameter is no integer, so [after_seq] and
    [wait] are integers here. *)

From S2P Require Import Prelude PyStr Json JsonProps Dict Primitives Encoding.
From S2P Require Import Keeps Db DbProps DbQueue Security RateLimit Config Routers.

(** ** The command line *)

(** What [argparse] leaves of the arguments. *)
Record Args := {
  arg_host : option string;
  arg_port : option Z;
  arg_data_dir : option string;
  arg_require_hashcash : bool
}.

(** [if args.x: overrides["x"] = args.x]: an empty string or a zero is no override. *)
Definition given_str (o : option string) (dflt : string) : string :=
  match o with Some s => if String.eqb s "" then dflt else s | None => dflt end.
Definition given_int (o : option Z) (dflt : Z) : Z :=
  match o with Some n => if n =? 0 then dflt else n | None => dflt end.

(** [Settings.from_env] followed by the [setattr] of each override. *)
Definition override (a : Args) (s : Settings) : Settings :=
  {| data_dir := given_str (arg_data_dir a) (data_dir s); host := given_str (arg_host a) (host s);
     port := given_int (arg_port a) (port s);
     max_blob_bytes := max_blob_bytes s; max_chunk_bytes := max_chunk_bytes s;
     max_messages_per_mailbox := max_messages_per_mailbox s;
     max_bytes_per_mailbox := max_bytes_per_mailbox s; max_wait_seconds := max_wait_seconds s;
     max_messages_per_fetch := max_messages_per_fetch s;
     mailbox_ttl_seconds := mailbox_ttl_seconds s; blob_ttl_seconds := blob_ttl_seconds s;
     housekeeping_interval := housekeeping_interval s;
     require_hashcash := arg_require_hashcash a || require_hashcash s;
     hashcash_bits := hashcash_bits s;
     mailbox_creates_per_hour := mailbox_creates_per_hour s;
     writes_per_minute := writes_per_minute s; bundles_per_hour := bundles_per_hour s;
     advertise_url := advertise_url s; known_relays := known_relays s |}.

(** [create_app]: [disk] is what the database file holds once [initialize] has made the
    missing tables. *)
Definition create_app (settings : Settings) (disk : db) : app :=
  {| a_db := disk;
     a_limiters := new_limiters (mailbox_creates_per_hour settings) (writes_per_minute settings)
                     (bundles_per_hour settings);
     a_settings := settings |}.

(** [main]: the application it runs. *)
Definition main (env : string → option string) (args : Args) (disk : db) : res app :=
  let? settings := from_env env in
  Ok (create_app (override args settings) disk).

(** ** Requests *)

Definition __version__ : string := "1.4.0".

(** [{"status": "ok", "version": __version__, **app.state.db.stats()}] *)
Definition health : SE app json :=
  do! (mailboxes, messages, blobs, bytes, bundles) := on_db stats in
  se_ret (JObj [("status", JStr "ok"); ("version", JStr __version__);
                ("mailboxes", JInt mailboxes); ("messages", JInt messages); ("blobs", JInt blobs);
                ("bytes", JInt bytes); ("prekey_bundles", JInt bundles)]%string).

(** One call of an endpoint, with the clocks, the fresh identifiers and the file
    contents it finds. *)
Inductive call :=
| PostMailbox (mono now : Z) (fresh_id fresh_r fresh_w : bytes)
| GetMailbox (mailbox_id : string) (after_seq wait start clock : Z) (later : list (db * Z))
| PostMessages (mailbox_id : string) (mono now : Z)
| PostAck (mailbox_id : string)
| DeleteMailbox (mailbox_id : string)
| PostPrekeys (mono now : Z)
| GetPrekeys (bundle_id : string)
| PostBlob (mono now : Z) (fresh : string)
| GetBlob (chunk_id : string)
| GetRelays (file : option (res bytes))
| GetHealth.

Inductive response :=
| Answer (status : Z) (body : json)
| Octets (content : bytes)
| Refuse (status : Z)
| Outside (e : exn).   (* the call left the model: see [Unmodelled], [OutOfFuel] *)

Definition refuse (e : exn) : response :=
  match e with
  | HTTPException n => Refuse n
  | OutOfFuel | Unmodelled => Outside e
  | _ => Refuse 500
  end.
Definition reply {A} (f : A → response) (m : SE app A) : app → response * app := λ a,
  match m a with
  | (Ok x, a') => (f x, a')
  | (Err e, a') => (refuse e, a')
  end.

Section relay.
Context {C : Crypto}.

Definition serve (req : request) (c : call) : app → response * app :=
  match c with
  | PostMailbox mono now fresh_id fresh_r fresh_w =>
      reply (Answer 201) (create_mailbox_handler req mono now fresh_id fresh_r fresh_w)
  | GetMailbox id after_seq wait start clock later => λ a,
      reply (Answer 200) (get_mailbox_handler id req after_seq wait start ((a_db a, clock) :: later)) a
  | PostMessages id mono now => reply (Answer 201) (put_message_handler id req mono now)
  | PostAck id => reply (Answer 200) (ack_handler id req)
  | DeleteMailbox id => reply (Answer 200) (delete_mailbox_handler id req)
  | PostPrekeys mono now => reply (Answer 201) (publish_handler req mono now)
  | GetPrekeys id => reply (Answer 200) (fetch_handler id)
  | PostBlob mono now fresh => reply (Answer 201) (upload_handler req mono now fresh)
  | GetBlob chunk => reply Octets (download_handler chunk req)
  | GetRelays file => λ a, reply (Answer 200) (se_lift (list_relays (a_settings a) file)) a
  | GetHealth => reply (Answer 200) health
  end.

(** ** Runs *)

(** The body of [housekeeping_loop], between two sleeps: no exception stops it. *)
Definition housekeeping_turn (now : Z) : SE app unit :=
  do! a := se_get in
  se_try (do! _ := on_db (housekeeping now (mailbox_ttl_seconds (a_settings a))
                            (blob_ttl_seconds (a_settings a))) in se_ret tt).

Inductive event :=
| Request (req : request) (c : call)
| Turn (now : Z)
| Restart (settings : Settings).

Definition step (e : event) (a : app) : app :=
  match e with
  | Request req c => (serve req c a).2
  | Turn now => (housekeeping_turn now a).2
  | Restart settings => create_app settings (a_db a)
  end.
Definition run_relay (es : list event) (a : app) : app := foldl (λ a e, step e a) a es.
End relay.
