(* ===== verification/RelayAppProps.v ===== *)
(** * Properties of the relay as a whole

    What a request may do to the database ([footprint]), and from it: the tables stay
    consistent over any run, and a message the relay accepted is kept until its owner or
    its age removes it. *)

From S2P Require Import Prelude PyStr Json JsonProps Dict Primitives Encoding.
From S2P Require Import Keeps Sql Db DbProps DbQueue Security RateLimit Config Routers RelayApp.

(** ** Requests as database operations *)

(** The effect of a computation is a sequence of database operations in [P]; the
    settings stay. *)
Definition does (P : dbop → Prop) (a a' : app) : Prop :=
  a_settings a' = a_settings a ∧
  ∃ ops, Forall P ops ∧ a_db a' = (run_ops ops (a_db a)).2.

Lemma run_ops_app ops ops' s : (run_ops (ops ++ ops') s).2 = (run_ops ops' (run_ops ops s).2).2.
Proof.
  revert s. induction ops as [|o ops IH]; intros s; [done|]. cbn [Datatypes.app run_ops].
  destruct (apply_op o s) as [r s']. specialize (IH s').
  destruct (run_ops (ops ++ ops') s'), (run_ops ops s'). exact IH.
Qed.

#[export] Instance does_preorder P : PreOrder (does P).
Proof.
  split.
  - intros a. split; [done|]. by exists [].
  - intros a b c (E1 & o1 & H1 & D1) (E2 & o2 & H2 & D2). split; [congruence|].
    exists (o1 ++ o2). split; [by apply Forall_app|]. by rewrite run_ops_app, <-D1.
Qed.

Lemma out_map_state {A} (f : A → dbout) (m : SE db A) s : (out_map f m s).2 = (m s).2.
Proof. unfold out_map, se_bind. by destruct (m s) as [[]]. Qed.

Section rules.
Context {C : Crypto} (P : dbop → Prop).

Lemma does_op {A} o f (m : SE db A) : apply_op o = out_map f m → P o → keeps (does P) (on_db m).
Proof using.
  intros E Ho a. pose proof (out_map_state f m (a_db a)) as H. rewrite <-E in H.
  unfold on_db. destruct (m (a_db a)) as [r d] eqn:Em. cbn [snd] in *. split; [done|].
  exists [o]. split; [by constructor|]. cbn [run_ops]. destruct (apply_op o (a_db a)). cbn in *. congruence.
Qed.

Lemma does_limiters (l : RateLimiters) a : does P a (with_limiters l a).
Proof using. split; [done|]. by exists []. Qed.

Lemma does_limit get put r mono : keeps (does P) (check_limit get put r mono).
Proof using.
  unfold check_limit. apply keeps_get_bind. intros a. destruct (allow _ _ _) as [ok l].
  unfold se_bind, se_put, se_check. destruct (negb ok); cbn; apply does_limiters.
Qed.

Lemma does_read id : keeps (does P) (on_db (get_mailbox id)).
Proof using. intros a. cbn. by rewrite with_db_same. Qed.
Lemma does_blob chunk : keeps (does P) (on_db (get_blob chunk)).
Proof using.
  intros a. unfold on_db, get_blob, connect, se_bind, se_get, se_lift.
  destruct (of_option _ _); cbn [snd]; by rewrite with_db_same.
Qed.
Lemma does_auth r id cap : keeps (does P) (authenticate_mailbox r id cap).
Proof using.
  intros a. destruct (authenticate_mailbox r id cap a) as [x a'] eqn:E.
  by apply authenticate_spec in E as [-> _].
Qed.
Lemma does_header r : keeps (does P) (mailbox_id_from_header r).
Proof using. intros a. unfold mailbox_id_from_header. repeat case_match; done. Qed.
End rules.

#[export] Hint Resolve does_limit does_read does_blob does_auth does_header : keeps.

(** The operations a call may make. *)
Definition footprint (req : request) (c : call) (o : dbop) : Prop :=
  match c, o with
  | PostMailbox _ now _ _ _, OpCreate _ _ _ now' _ _ => now' = now
  | PostMessages id _ now, OpPut id' data now' => id' = id ∧ data = body req ∧ now' = now
  | PostAck id, OpAck id' _ => id' = id
  | DeleteMailbox id, OpDelete id' => id' = id
  | PostPrekeys _ now, OpPublish _ _ _ now' => now' = now
  | GetPrekeys id, OpFetch id' => id' = id
  | PostBlob _ now _, OpPutBlob _ _ data now' => data = body req ∧ now' = now
  | GetHealth, OpStats => True
  | _, _ => False
  end.

Lemma keeps_reply {C : Crypto} {A} R (f : A → response) (m : SE app A) a :
  keeps R m → R a (reply f m a).2.
Proof. intros H. specialize (H a). unfold reply. by destruct (m a) as [[x|e] a']. Qed.

Lemma serve_footprint {C : Crypto} req c a : does (footprint req c) a (serve req c a).2.
Proof.
  destruct c; cbn [serve]; apply keeps_reply.
  - unfold create_mailbox_handler, register. keeping; by eapply (does_op _ (OpCreate _ _ _ now _ _)).
  - unfold get_mailbox_handler. keeping.
  - unfold put_message_handler. keeping. by eapply (does_op _ (OpPut mailbox_id (body req) now)).
  - unfold ack_handler. keeping. by eapply (does_op _ (OpAck mailbox_id _)).
  - unfold delete_mailbox_handler. keeping. by eapply (does_op _ (OpDelete mailbox_id)).
  - unfold publish_handler. keeping. by eapply (does_op _ (OpPublish _ _ _ now)).
  - unfold fetch_handler. keeping. by eapply (does_op _ (OpFetch bundle_id)).
  - unfold upload_handler. keeping; by eapply (does_op _ (OpPutBlob _ _ (body req) now)).
  - unfold download_handler. keeping.
  - keeping.
  - unfold health. keeping. by eapply (does_op _ OpStats).
Qed.

Lemma does_inv P a a' : does P a a' → db_inv (a_db a) → db_inv (a_db a').
Proof. intros (_ & ops & _ & ->). apply relay_inv_runs. Qed.

(** ** Turns, restarts and runs *)

Lemma turn_does {C : Crypto} now a :
  does (λ o, o = OpHousekeeping now (mailbox_ttl_seconds (a_settings a)) (blob_ttl_seconds (a_settings a)))
    a (housekeeping_turn now a).2.
Proof.
  set (m := mailbox_ttl_seconds (a_settings a)). set (b := blob_ttl_seconds (a_settings a)).
  enough (keeps (does (λ o, o = OpHousekeeping now m b))
            (se_try (do! _ := on_db (housekeeping now m b) in se_ret tt))) as H by exact (H a).
  keeping. by eapply (does_op _ (OpHousekeeping now m b)).
Qed.

(** C32: the relay's tables stay consistent over its whole life: from an empty database
    file, after any sequence of requests to its endpoints, turns of the housekeeping
    loop and restarts with any settings, every stored message belongs to an existing
    mailbox and has a number below that mailbox's next one, the numbers of a mailbox
    strictly increase, every blob belongs to an existing mailbox, recorded sizes are
    the real ones, no mailbox exceeds its quotas, and one-time prekeys are unique per
    bundle. *)
Theorem relay_consistent {C : Crypto} settings es :
  db_inv (a_db (run_relay es (create_app settings empty_db))).
Proof.
  unfold run_relay. assert (db_inv (a_db (create_app settings empty_db))) as H by apply empty_db_inv.
  revert H. generalize (create_app settings empty_db). induction es as [|e es IH]; intros a Ha; [done|].
  cbn [foldl]. apply IH. destruct e as [req c|now|s]; cbn [step]; [| |done].
  - eapply does_inv, Ha. apply serve_footprint.
  - eapply does_inv, Ha. apply turn_does.
Qed.

(** ** The life of an accepted message *)

Lemma insert_opks_mailboxes bid os s : mailboxes (insert_opks bid os s).2 = mailboxes s.
Proof.
  revert s. induction os as [|o os IH]; intros s; [done|]. cbn [insert_opks]. unfold se_bind.
  destruct (insert_opk bid o s) as [r s'] eqn:E.
  assert (mailboxes s' = mailboxes s) as <- by (by apply insert_opk_spec in E as [->|(row & -> & _)]).
  destruct r; [apply IH|done].
Qed.

Lemma publish_mailboxes bid p os now s : mailboxes (publish_bundle bid p os now s).2 = mailboxes s.
Proof.
  unfold publish_bundle, connect, se_bind, se_get, se_put.
  match goal with |- context [insert_opks bid os ?s1] => pose proof (insert_opks_mailboxes bid os s1) end.
  by destruct (insert_opks _ _ _) as [[] s'].
Qed.

Section kept.
Context {C : Crypto}.
Context (id : string) (h : bytes) (n : Z) (data : bytes) (t0 ttl : Z).

(** The mailbox is there with its read capability, was written at [t0] or later, and
    holds item [n]. *)
Record kept (s : db) : Prop := {
  kept_inv : db_inv s;
  kept_box : ∃ mb, mailboxes s !! id = Some mb ∧ read_token_hash mb = h ∧ t0 ≤ last_seen mb;
  kept_item : (n, data) ∈ default [] (q_items <$> view id s)
}.

(** Operations that leave it so. *)
Definition harmless (o : dbop) : Prop :=
  match o with
  | OpAck id' _ | OpDelete id' => id' ≠ id
  | OpPut id' _ now | OpTouch id' now => id' = id → t0 ≤ now
  | OpHousekeeping now m _ => now - m ≤ t0
  | _ => True
  end.

(** The mailbox as the operations see it. *)
Definition box_kept (mb mb' : mailbox) : Prop :=
  read_token_hash mb' = read_token_hash mb ∧ write_token_hash mb' = write_token_hash mb ∧
  (t0 ≤ last_seen mb → t0 ≤ last_seen mb').

Definition box_same (s s' : db) : Prop :=
  ∀ mb, mailboxes s !! id = Some mb → ∃ mb', mailboxes s' !! id = Some mb' ∧ box_kept mb mb'.

Lemma box_same_eq s s' : mailboxes s' = mailboxes s → box_same s s'.
Proof using. intros E mb Hm. exists mb. by rewrite E. Qed.

Lemma box_same_alter f id' s m :
  (id' = id → ∀ mb, box_kept mb (f mb)) →
  box_same s (set_mailboxes (alter f id' (mailboxes s)) (set_messages m s)).
Proof using.
  intros Hf mb E. cbn [mailboxes set_mailboxes]. destruct (decide (id' = id)) as [->|Hne].
  - exists (f mb). rewrite lookup_alter_eq, E. split; [done|]. by apply Hf.
  - exists mb. by rewrite lookup_alter_ne.
Qed.

Lemma without_ids_ne ids s :
  id ∉ ids → mailboxes (foldl (λ s id, without id s) s ids) !! id = mailboxes s !! id ∧
             view id (foldl (λ s id, without id s) s ids) = view id s.
Proof using.
  revert s. induction ids as [|i ids IH]; intros s Hids; [done|].
  apply not_elem_of_cons in Hids as [Hi Hn]. cbn [foldl].
  destruct (IH (without i s) Hn) as [-> ->]. rewrite view_without_ne by done.
  split; [|done]. unfold without. cbn [mailboxes set_mailboxes]. by rewrite lookup_delete_ne by congruence.
Qed.

Lemma not_stale cutoff s mb :
  mailboxes s !! id = Some mb → cutoff ≤ last_seen mb → id ∉ stale_ids cutoff s.
Proof using.
  intros E Hs. unfold stale_ids. intros ([k mb'] & -> & [Hin Hl]%elem_filter)%list_elem_of_fmap.
  apply elem_of_map_to_list in Hin. cbn [fst snd] in *. lia || (replace mb' with mb in * by congruence; lia).
Qed.

(** Each harmless operation keeps the mailbox. *)
Lemma box_step o s :
  harmless o → db_inv s → (∃ mb, mailboxes s !! id = Some mb ∧ t0 ≤ last_seen mb) →
  box_same s (apply_op o s).2.
Proof using.
  intros Ho Hs (mb0 & E0 & Hl0). destruct o; cbn [apply_op harmless] in *; rewrite out_map_state.
  - unfold create_mailbox, connect, se_bind, se_get. destruct (mailboxes s !! id0) eqn:E;
      [by apply box_same_eq|]. intros mb Emb. exists mb. split; [|done]. cbn.
    rewrite lookup_insert_ne; congruence.
  - destruct (delete_mailbox_spec id0 s) as (x & ->). intros mb Emb. exists mb. split; [|done].
    unfold without. cbn [snd mailboxes set_mailboxes drop_blobs drop_messages set_blobs set_messages].
    by rewrite lookup_delete_ne.
  - apply (box_same_alter _ _ _ (messages s)). intros Hid mb. split_and!; [done..|]. intros _. by apply Ho.
  - rewrite put_message_spec. destruct (mailboxes s !! id0); [|by apply box_same_eq].
    destruct (_ || _); [by apply box_same_eq|]. destruct (existsb _ _); [by apply box_same_eq|].
    apply box_same_alter. intros Hid mb. split_and!; [done..|]. intros _. by apply Ho.
  - unfold get_messages, connect, se_bind, se_check. destruct (negb _); by apply box_same_eq.
  - unfold ack_messages, connect, se_bind, se_check. destruct (negb _); [by apply box_same_eq|].
    by apply box_same_eq.
  - apply box_same_eq, publish_mailboxes.
  - apply box_same_eq. unfold fetch_bundle, connect, se_bind, se_get, se_put, se_lift.
    destruct (prekey_bundles s !! id0); [|done]. destruct (consume_opk _ _).
    by destruct (json_loads _) as [[]|].
  - apply box_same_eq. unfold put_blob, connect, se_bind, se_get, se_check, se_put.
    destruct (mailboxes s !! id0); [|done]. destruct (usage id0 s). destruct (_ <? _); [done|].
    by destruct (blobs s !! chunk).
  - apply box_same_eq. unfold get_blob, connect, se_bind, se_get, se_lift. by destruct (of_option _ _).
  - by apply box_same_eq.
  - destruct (housekeeping_spec now mailbox_ttl blob_ttl s) as [(x & ->)|[-> _]]; [|by apply box_same_eq].
    intros mb Emb. exists mb. split; [|done]. cbn [snd mailboxes drop_blobs set_blobs].
    rewrite (proj1 (without_ids_ne _ _ (not_stale (now - mailbox_ttl) _ _ E0 ltac:(lia)))). done.
  - by apply box_same_eq.
Qed.

Lemma harmless_may_remove o :
  harmless o → match o with OpHousekeeping _ _ _ => True | _ => may_remove id n o = false end.
Proof using. destruct o; cbn; try done; intros H; by rewrite (proj2 (String.eqb_neq _ _)). Qed.

Lemma item_step o s :
  harmless o → kept s → (n, data) ∈ default [] (q_items <$> view id (apply_op o s).2).
Proof using.
  intros Ho [Hs (mb & E & _ & Hl) Hin]. destruct (apply_op o s) as [r s'] eqn:Ea. cbn [snd].
  pose proof (relay_refines id o s r s' Hs Ea) as Hq. apply harmless_may_remove in Ho as Hm.
  destruct o; try (by eapply queue_step_keeps). cbn [apply_op harmless] in *.
  replace s' with ((housekeeping now mailbox_ttl blob_ttl s).2)
    by (by rewrite <-(out_map_state (λ _, OutCounts)), Ea).
  destruct (housekeeping_spec now mailbox_ttl blob_ttl s) as [(x & ->)|[-> _]]; [|done].
  cbn [snd]. rewrite view_drop_blobs.
  by rewrite (proj2 (without_ids_ne _ _ (not_stale (now - mailbox_ttl) _ _ E ltac:(lia)))).
Qed.

Lemma kept_step o s : harmless o → kept s → kept (apply_op o s).2.
Proof using.
  intros Ho Hk. pose proof (item_step o s Ho Hk) as Hi. destruct Hk as [Hs (mb & E & Hh & Hl) _].
  split; [|destruct (box_step o s Ho Hs ltac:(eauto) mb E) as (mb' & E' & Hh' & _ & Hl')|done].
  - by eapply (apply_op_keeps o s (apply_op o s).1), surjective_pairing.
  - exists mb'. split_and!; [done|congruence|auto].
Qed.

Lemma kept_ops ops s : Forall harmless ops → kept s → kept (run_ops ops s).2.
Proof using.
  intros Hops. revert s. induction Hops as [|o ops Ho _ IH]; intros s Hs; [done|]. cbn [run_ops].
  apply (kept_step o s Ho) in Hs. destruct (apply_op o s) as [r s']. specialize (IH s' Hs).
  by destruct (run_ops ops s').
Qed.

Lemma kept_does P a a' : does P a a' → (∀ o, P o → harmless o) → kept (a_db a) → kept (a_db a').
Proof using.
  intros (_ & ops & Hops & ->) HP. apply kept_ops. by eapply Forall_impl.
Qed.

(** Settings under which messages live [ttl] seconds and can be fetched. *)
Definition settings_ok (s : Settings) : Prop :=
  ttl ≤ mailbox_ttl_seconds s ∧ 1 ≤ max_messages_per_fetch s < 2 ^ 63.

(** Events that leave the message alone: acknowledgements and deletions of this mailbox
    carry no token of its read capability, the clock does not run backwards, and the
    message is no older than [ttl]. *)
Definition spares (e : event) : Prop :=
  match e with
  | Request req (PostAck id' | DeleteMailbox id') =>
      id' = id → ∀ token, token_from_header req "x-nk-read" = Some token → token_hash token ≠ h
  | Request _ (PostMessages id' _ now) => id' = id → t0 ≤ now
  | Request _ _ => True
  | Turn now => now - ttl ≤ t0
  | Restart s => settings_ok s
  end.

Lemma denied {A} r cap (f : mailbox → SE app A) a :
  ¬ authorised r id cap (a_db a) →
  ∃ e, (do! mb := authenticate_mailbox r id cap in f mb) a = (Err e, a).
Proof using.
  intros Hn. unfold se_bind. destruct (authenticate_mailbox r id cap a) as [[mb|e] a1] eqn:Ea;
    apply authenticate_spec in Ea as [-> Ha]; [by destruct Ha|eauto].
Qed.

(** An acknowledgement or a deletion without the read token changes nothing. *)
Lemma unauthorised_harmless req c id' a :
  c = PostAck id' ∨ c = DeleteMailbox id' → kept (a_db a) → spares (Request req c) →
  kept (a_db (serve req c a).2).
Proof using.
  intros Hc Hk Hsp. destruct (decide (id' = id)) as [->|Hne].
  2:{ eapply kept_does; [apply serve_footprint| |done].
      intros o Ho. destruct Hc as [-> | ->], o; try done; by destruct Ho. }
  assert (¬ authorised req id Read (a_db a)) as Hn.
  { intros (mb & token & E & Et & Eh). destruct (kept_box _ Hk) as (mb' & E' & Hh & _).
    assert (token_hash token ≠ h) as Hne by (destruct Hc as [-> | ->]; by apply Hsp). congruence. }
  destruct Hc as [-> | ->]; cbn [serve]; unfold reply;
    [unfold ack_handler|unfold delete_mailbox_handler];
    match goal with |- context [se_bind _ ?f a] => destruct (denied req Read f a Hn) as (e & ->) end; done.
Qed.

Lemma spares_harmless req c o :
  match c with PostAck _ | DeleteMailbox _ => False | _ => True end →
  spares (Request req c) → footprint req c o → harmless o.
Proof using.
  intros Hc Hsp Ho. destruct c, o; cbn in *; try done.
  destruct Ho as (-> & _ & ->). exact Hsp.
Qed.

Lemma spared_step e a :
  spares e → settings_ok (a_settings a) → kept (a_db a) →
  kept (a_db (step e a)) ∧ settings_ok (a_settings (step e a)).
Proof using.
  intros Hsp Hset Hk. destruct e as [req c|now|s]; cbn [step].
  - split.
    + destruct c; try (eapply kept_does; [apply serve_footprint| |done]; intros o; by apply spares_harmless).
      * by eapply unauthorised_harmless; [left| |].
      * by eapply unauthorised_harmless; [right| |].
    + by destruct (serve_footprint req c a) as [-> _].
  - pose proof (turn_does now a) as Ht. split.
    + eapply kept_does; [exact Ht| |done]. intros o ->. cbn in *. destruct Hset. lia.
    + by destruct Ht as [-> _].
  - by split.
Qed.

Lemma spared_run es a :
  Forall spares es → settings_ok (a_settings a) → kept (a_db a) →
  kept (a_db (run_relay es a)) ∧ settings_ok (a_settings (run_relay es a)).
Proof using.
  intros Hes. revert a. induction Hes as [|e es He _ IH]; intros a Hset Hk; [done|].
  apply (spared_step e a He Hset) in Hk as [Hk Hset']. by apply IH.
Qed.

(** A read of a kept message, from just below its number, starts with it. *)
Lemma first_from l m :
  StronglySorted seq_lt l → m ∈ l → ∃ l', List.filter (λ x, seq m - 1 <? seq x) l = m :: l'.
Proof using.
  induction 1 as [|x l Hl IH Hx]; [by intros ?%not_elem_of_nil|].
  intros [->|Hin]%elem_of_cons; cbn [List.filter].
  - rewrite (proj2 (Z.ltb_lt _ _)) by lia. eauto.
  - rewrite Forall_forall in Hx. specialize (Hx m Hin). unfold seq_lt in Hx.
    rewrite (proj2 (Z.ltb_ge _ _)) by lia. by apply IH.
Qed.

Lemma kept_fetched s limit :
  kept s → 1 ≤ limit < 2 ^ 63 → n < 2 ^ 63 →
  ∃ m ms, get_messages id (n - 1) limit s = (Ok (m :: ms), s) ∧ seq m = n ∧ ciphertext m = data.
Proof using.
  intros [Hs _ Hin] Hl Hn. rewrite view_items in Hin by done.
  apply list_elem_of_fmap in Hin as (m & [= En Ed] & Hm).
  destruct (first_from _ m (inv_sorted s Hs id) Hm) as (l' & E).
  apply messages_of_elem in Hm as [Hm _]. pose proof (inv_msgs s Hs) as Hall.
  rewrite Forall_forall in Hall. destruct (Hall m Hm) as (mb & _ & H1 & _).
  rewrite get_messages_spec, En in * by done. unfold int64, sql_limit.
  rewrite !(proj2 (Z.leb_le _ _)), !(proj2 (Z.ltb_lt _ (2 ^ 63))), (proj2 (Z.ltb_ge limit 0)), E by lia.
  destruct (Z.to_nat limit) as [|k] eqn:Ek; [lia|]. by exists m, (take k l').
Qed.

Lemma kept_read req token a wait start clock later :
  token_from_header req "x-nk-read" = Some token → verify_token token h = true →
  kept (a_db a) → settings_ok (a_settings a) → n < 2 ^ 63 →
  ∃ ms next,
    serve req (GetMailbox id (n - 1) wait start clock later) a =
    (Answer 200 (JObj [("messages", JList (JObj [("seq", JInt n); ("blob", JStr (b64e data))] :: ms));
                       ("next_seq", JInt next)]%string), a).
Proof using.
  intros Et Eh Hk [_ Hl] Hn. destruct (kept_box _ Hk) as (mb & E & Hh & _).
  destruct (kept_fetched (a_db a) _ Hk Hl Hn) as (m & ms & Hg & Em & Ed).
  cbn [serve]. unfold reply, get_mailbox_handler, authenticate_mailbox. rewrite Et.
  unfold se_bind, on_db, get_mailbox, connect, se_bind, se_get, se_ret, se_check, se_lift.
  rewrite with_db_same, E, Hh, Eh. cbn [negb]. unfold se_ret. cbn [poll_messages].
  rewrite Hg. cbn [fst res_bind map]. unfold message_json at 1. rewrite Em, Ed. eauto.
Qed.
End kept.

Lemma check_Ok {S} b e (s s' : S) x : se_check b e s = (Ok x, s') → s' = s.
Proof. unfold se_check. destruct b; [done|]. by intros [= _ <-]. Qed.

Lemma put_kept id mb data now k s s' :
  db_inv s → mailboxes s !! id = Some mb → put_message id data now s = (Ok k, s') →
  kept id (read_token_hash mb) k data now s'.
Proof.
  intros Hs E Ep. pose proof (put_keeps id data now s _ _ Hs Ep) as [Hs' _].
  rewrite put_message_spec, E in Ep. destruct (_ || _); [done|]. destruct (existsb _ _); [done|].
  injection Ep as <- <-. split; [done| |].
  - exists (set_next now (next_seq mb + 1) mb). unfold stored. cbn [mailboxes set_mailboxes set_messages].
    by rewrite lookup_alter_eq, E.
  - rewrite view_items, messages_of_stored, String.eqb_refl, map_app by done.
    apply elem_of_app. right. by left.
Qed.

(** What the relay answered to an accepted write. *)
Lemma put_accepted {C : Crypto} req id mono now a k a1 :
  db_inv (a_db a) →
  serve req (PostMessages id mono now) a = (Answer 201 (JObj [("seq"%string, JInt k)]), a1) →
  a_settings a1 = a_settings a ∧ ∃ mb, mailboxes (a_db a) !! id = Some mb ∧
    kept id (read_token_hash mb) k (body req) now (a_db a1).
Proof.
  intros Hs E. destruct (serve_footprint req (PostMessages id mono now) a) as [Hset _].
  rewrite E in Hset. split; [exact Hset|]. clear Hset. cbn [serve] in E. unfold reply in E.
  destruct (put_message_handler id req mono now a) as [[j|e] a2] eqn:Eh; [|by destruct e].
  injection E as -> ->. unfold put_message_handler in Eh.
  apply se_bind_Ok in Eh as (mb & b1 & E1 & Eh). apply authenticate_spec in E1 as [-> [Emb _]].
  apply se_bind_Ok in Eh as ([] & b2 & E2 & Eh).
  assert (a_db b2 = a_db a) as Eb.
  { unfold check_limit, se_bind, se_get, se_put, se_check in E2. destruct (allow _ _ _) as [ok l].
    destruct (negb ok); [done|]. by injection E2 as <-. }
  apply se_bind_Ok in Eh as (b3 & ? & [= <- <-] & Eh).
  apply se_bind_Ok in Eh as ([] & b4 & E4 & Eh). apply check_Ok in E4 as ->.
  apply se_bind_Ok in Eh as ([] & b5 & E5 & Eh). apply check_Ok in E5 as ->.
  apply se_bind_Ok in Eh as (k' & b6 & E6 & Eh). injection Eh as -> ->.
  unfold se_except, on_db in E6. rewrite Eb in E6. exists mb. split; [done|].
  destruct (put_message id (body req) now (a_db a)) as [[k'|e] d] eqn:Ep; [|done].
  injection E6 as -> <-. cbn [a_db with_db]. by eapply put_kept.
Qed.

(** C16: what the relay accepts it delivers.  When a write was answered with number
    [k], then after any run of other requests, housekeeping turns and restarts - in
    which acknowledgements and deletions of that mailbox carry no valid read token, the
    clock does not run backwards, and the housekeeping turns come within the mailbox
    lifetime of the write - a reader who presents the read token is answered with
    exactly the bytes that were written, under number [k]. *)
Theorem accepted_is_delivered {C : Crypto} req id mono now a k a1 h ttl es reader token wait start clock later :
  db_inv (a_db a) → k < 2 ^ 63 → settings_ok ttl (a_settings a) →
  read_token_hash <$> mailboxes (a_db a) !! id = Some h →
  serve req (PostMessages id mono now) a = (Answer 201 (JObj [("seq"%string, JInt k)]), a1) →
  Forall (spares id h now ttl) es →
  token_from_header reader "x-nk-read" = Some token → verify_token token h = true →
  ∃ ms next,
    (serve reader (GetMailbox id (k - 1) wait start clock later) (run_relay es a1)).1 =
    Answer 200 (JObj [("messages", JList (JObj [("seq", JInt k); ("blob", JStr (b64e (body req)))] :: ms));
                      ("next_seq", JInt next)]%string).
Proof.
  intros Hs Hk Hset Hh Hput Hes Et Ev. destruct (put_accepted req id mono now a k a1 Hs Hput) as (Es & mb & E & Hkept).
  rewrite E in Hh. injection Hh as Hh. rewrite Hh in Hkept. rewrite <-Es in Hset.
  destruct (spared_run id h k (body req) now ttl es a1 Hes Hset Hkept) as [Hkept' Hset'].
  destruct (kept_read id h k (body req) now ttl reader token _ wait start clock later Et Ev Hkept' Hset' Hk)
    as (ms & next & ->). by exists ms, next.
Qed.

(** ** What housekeeping removes *)

Lemma gone_stays id ids s :
  mailboxes s !! id = None → mailboxes (foldl (λ s id, without id s) s ids) !! id = None.
Proof.
  revert s. induction ids as [|i ids IH]; intros s E; [done|]. cbn [foldl]. apply IH.
  unfold without. cbn [mailboxes set_mailboxes]. apply lookup_delete_None. by right.
Qed.

Lemma without_ids_in id ids s :
  id ∈ ids → mailboxes (foldl (λ s id, without id s) s ids) !! id = None.
Proof.
  revert s. induction ids as [|i ids IH]; intros s; [by intros ?%not_elem_of_nil|].
  intros [->|Hin]%elem_of_cons; cbn [foldl]; [|by apply IH].
  apply gone_stays. unfold without. cbn [mailboxes set_mailboxes]. by rewrite lookup_delete_eq.
Qed.

Definition is_read (e : event) : Prop :=
  match e with Request _ (GetMailbox _ _ _ _ _ _) => True | _ => False end.

(** Reads change neither the database nor the settings. *)
Lemma reads_change_nothing {C : Crypto} es a :
  Forall is_read es →
  a_db (run_relay es a) = a_db a ∧ a_settings (run_relay es a) = a_settings a.
Proof.
  intros Hes. revert a. induction Hes as [|e es He _ IH]; intros a; [done|].
  destruct (IH (step e a)) as [E1 E2]. unfold run_relay in *. cbn [foldl]. rewrite E1, E2.
  destruct e as [req c| |]; try done. destruct c; try done. cbn [step].
  destruct (serve_footprint req (GetMailbox mailbox_id after_seq wait start clock later) a)
    as (Es & ops & Hops & Ed).
  split; [|done]. rewrite Ed. destruct Hops as [|o ops Ho]; [done|]. by destruct o.
Qed.

(** A mailbox lives from write to write: however often its owner reads it, the first
    housekeeping turn more than the mailbox lifetime after the last write removes it
    with its unread messages. *)
Theorem reading_does_not_keep {C : Crypto} id mb es now a :
  mailboxes (a_db a) !! id = Some mb → Forall is_read es →
  last_seen mb < now - mailbox_ttl_seconds (a_settings a) →
  int64 (now - mailbox_ttl_seconds (a_settings a)) && int64 (now - blob_ttl_seconds (a_settings a)) = true →
  mailboxes (a_db (step (Turn now) (run_relay es a))) !! id = None.
Proof.
  intros E Hes Hl Hi. destruct (reads_change_nothing es a Hes) as [Ed Es]. cbn [step].
  unfold housekeeping_turn, se_bind at 1, se_get, se_try, se_bind, on_db. rewrite Ed, Es.
  destruct (housekeeping_spec now (mailbox_ttl_seconds (a_settings a)) (blob_ttl_seconds (a_settings a)) (a_db a))
    as [(x & ->)|[_ Hn]]; [|congruence].
  cbn [snd a_db with_db se_ret mailboxes drop_blobs set_blobs]. apply without_ids_in.
  unfold stale_ids. apply list_elem_of_fmap. exists (id, mb). split; [done|].
  apply elem_filter. split; [by apply elem_of_map_to_list|]. cbn. lia.
Qed.

(** The blob lifetime has no effect: a blob goes with its mailbox, so that no orphan is
    left for housekeeping to find. *)
Theorem blob_ttl_without_effect now m b b' s :
  db_inv s → int64 (now - m) = true → int64 (now - b) = true → int64 (now - b') = true →
  (housekeeping now m b s).2 = (housekeeping now m b' s).2.
Proof.
  intros Hs Hm Hb Hb'. set (s1 := foldl (λ s id, without id s) s (stale_ids (now - m) s)).
  assert (∀ b, drop_blobs (stray now b s1) s1 = s1) as Hnone.
  { intros b0. assert (db_inv s1) as H1 by by apply foldl_without_inv. destruct s1 as [mbs ms pb po bl] eqn:E.
    unfold drop_blobs, set_blobs. cbn. f_equal. apply map_filter_id. intros i x Hx. cbn.
    destruct (inv_blobs _ H1 i x Hx) as [Hx' _]. unfold stray. rewrite (bool_decide_eq_true_2 _ Hx').
    apply andb_false_r. }
  destruct (housekeeping_spec now m b s) as [(x & ->)|[-> Hn]], (housekeeping_spec now m b' s) as [(x' & ->)|[-> Hn']];
    [by rewrite !Hnone|by rewrite Hm, ?Hb, ?Hb' in *..].
Qed.

(** ** Answers to failing requests *)

(** The statuses an endpoint refuses with. *)
Definition refusals (c : call) : list Z :=
  match c with
  | PostMailbox _ _ _ _ _ => [400; 409; 429]
  | GetMailbox _ _ _ _ _ _ => [401; 404]
  | PostMessages _ _ _ => [400; 401; 404; 413; 429]
  | PostAck _ => [400; 401; 404]
  | DeleteMailbox _ => [401; 404]
  | PostPrekeys _ _ => [400; 413; 429]
  | GetPrekeys _ => [404]
  | PostBlob _ _ _ => [400; 401; 404; 409; 413; 429]
  | GetBlob _ => [400; 401; 404]
  | GetRelays _ | GetHealth => []
  end.

(** The statuses section 8.1 of PROTOCOL.md lists. *)
Definition documented : list Z := [400; 401; 404; 405; 413; 429; 503].

Section refusals.
Context {C : Crypto}.

(** [safe Q m]: from a consistent database, [m] leaves one and raises only exceptions
    in [Q]. *)
Definition safe {A} (Q : exn → Prop) (m : SE app A) : Prop :=
  ∀ a r a', db_inv (a_db a) → m a = (r, a') → db_inv (a_db a') ∧ ∀ e, r = Err e → Q e.

Lemma safe_ret {A} Q (x : A) : safe Q (se_ret x).
Proof using. intros a r a' Ha [= <- <-]. by split. Qed.
Lemma safe_raise {A} (Q : exn → Prop) e : Q e → safe Q (se_raise (A:=A) e).
Proof using. intros He a r a' Ha [= <- <-]. split; [done|]. by intros ? [= <-]. Qed.
Lemma safe_check (Q : exn → Prop) b e : Q e → safe Q (se_check (S:=app) b e).
Proof using. intros He. unfold se_check. destruct b; [by apply safe_raise|apply safe_ret]. Qed.
Lemma safe_lift {A} (Q : exn → Prop) (m : res A) : (∀ e, m = Err e → Q e) → safe Q (se_lift m).
Proof using. intros Hm a r a' Ha [= <- <-]. by split. Qed.
Lemma safe_bind {A B} Q (m : SE app A) (f : A → SE app B) :
  safe Q m → (∀ x, safe Q (f x)) → safe Q (se_bind m f).
Proof using.
  intros Hm Hf a r a' Ha E. unfold se_bind in E. destruct (m a) as [[x|e] a1] eqn:Em;
    destruct (Hm a _ _ Ha Em) as [H1 H2]; [by eapply Hf|]. injection E as <- <-. by split; [|intros ? [= <-]; apply H2].
Qed.
Lemma safe_lift_bind {A B} (Q : exn → Prop) (m : res A) (f : A → SE app B) :
  (∀ x, m = Ok x → safe Q (f x)) → (∀ e, m = Err e → Q e) → safe Q (se_bind (se_lift m) f).
Proof using.
  intros Hf He a r a' Ha E. unfold se_bind, se_lift in E. destruct m as [x|e]; [by eapply Hf|].
  injection E as <- <-. split; [done|]. intros ? [= <-]. by apply He.
Qed.
Lemma safe_get_bind {A} Q (f : app → SE app A) :
  (∀ a r a', db_inv (a_db a) → f a a = (r, a') → db_inv (a_db a') ∧ ∀ e, r = Err e → Q e) →
  safe Q (se_bind se_get f).
Proof using. intros H a r a' Ha E. by eapply H. Qed.
Lemma safe_get Q : safe Q (se_get (S:=app)).
Proof using. intros a r a' Ha [= <- <-]. by split. Qed.
Lemma safe_except {A} (Q Q' : exn → Prop) (p : exn → bool) (e' : exn) (m : SE app A) :
  safe Q' m → (∀ e, Q' e → Q (if p e then e' else e)) → safe Q (se_except p e' m).
Proof using.
  intros Hm HQ a r a' Ha E. unfold se_except in E. destruct (m a) as [[x|e] a1] eqn:Em;
    destruct (Hm a _ _ Ha Em) as [H1 H2]; injection E as <- <-; (split; [done|]); [done|].
  intros ? [= <-]. by apply HQ, H2.
Qed.
Lemma safe_op {A} (Q : exn → Prop) (m : SE db A) :
  preserves m → (∀ s e s', db_inv s → m s = (Err e, s') → Q e) → safe Q (on_db m).
Proof using.
  intros Hp Hm a r a' Ha E. unfold on_db in E. destruct (m (a_db a)) as [x d] eqn:Em.
  injection E as <- <-. split; [exact (proj1 (Hp _ _ _ Ha Em))|]. intros e ->. by eapply Hm.
Qed.

Lemma safe_auth (Q : exn → Prop) r id cap :
  Q (HTTPException 401) → Q (HTTPException 404) → safe Q (authenticate_mailbox r id cap).
Proof using.
  intros H1 H4 a x a' Ha E. apply authenticate_spec in E as [-> H]. split; [done|].
  intros e ->. by destruct H as [->|[-> _]].
Qed.
Lemma safe_header (Q : exn → Prop) r : Q (HTTPException 400) → safe Q (mailbox_id_from_header r).
Proof using.
  intros H. unfold mailbox_id_from_header. repeat case_match; by (apply safe_raise || apply safe_ret).
Qed.
Lemma safe_limit (Q : exn → Prop) get put r mono :
  Q (HTTPException 429) → safe Q (check_limit get put r mono).
Proof using.
  intros H. unfold check_limit. apply safe_get_bind. intros a x a' Ha E.
  destruct (allow _ _ _) as [ok l]. unfold se_bind, se_put, se_check in E.
  destruct (negb ok); injection E as <- <-; by split; [|intros ? [= <-]].
Qed.

Lemma put_message_errors id data now s e s' :
  db_inv s → put_message id data now s = (Err e, s') → e = MailboxNotFound ∨ e = QuotaExceeded.
Proof using.
  intros Hs E. rewrite put_message_spec in E. destruct (mailboxes s !! id) as [mb|] eqn:Em; [|injection E; auto].
  destruct (_ || _); [injection E; auto|]. by rewrite (next_seq_free s id mb Hs Em) in E.
Qed.

(** Exceptions that stand for one of the statuses [l]. *)
Definition within (l : list Z) (e : exn) : Prop :=
  match e with HTTPException n => n ∈ l | OutOfFuel | Unmodelled => True | _ => False end.

Ltac in_list := cbn; set_solver.

Lemma safe_put (Q : exn → Prop) id data now :
  Q (HTTPException 404) → Q (HTTPException 429) →
  safe Q (se_except isa_QuotaExceeded (HTTPException 429)
            (se_except isa_MailboxNotFound (HTTPException 404) (on_db (put_message id data now)))).
Proof using.
  intros H4 H9. apply (safe_except _ (λ e, e = HTTPException 404 ∨ e = QuotaExceeded)).
  - apply (safe_except _ (λ e, e = MailboxNotFound ∨ e = QuotaExceeded)).
    + apply safe_op; [apply put_keeps|]. intros. by eapply put_message_errors.
    + intros e [-> | ->]; [by left|by right].
  - by intros e [-> | ->].
Qed.

(** A write raises nothing but its refusals. *)
Lemma safe_write (Q : exn → Prop) id req mono now :
  (∀ n, n ∈ refusals (PostMessages id mono now) → Q (HTTPException n)) →
  safe Q (put_message_handler id req mono now).
Proof using.
  intros HQ. unfold put_message_handler. apply safe_bind; [apply safe_auth; apply HQ; in_list|intros _].
  apply safe_bind; [apply safe_limit; apply HQ; in_list|intros _]. apply safe_bind; [apply safe_get|intros a].
  apply safe_bind; [apply safe_check; apply HQ; in_list|intros _].
  apply safe_bind; [apply safe_check; apply HQ; in_list|intros _].
  apply safe_bind; [apply safe_put; apply HQ; in_list|intros n]. apply safe_ret.
Qed.

Lemma safe_delete id req : safe (within (refusals (DeleteMailbox id))) (delete_mailbox_handler id req).
Proof using.
  unfold delete_mailbox_handler. apply safe_bind; [apply safe_auth; in_list|intros _].
  apply safe_bind; [|intros [m b]; apply safe_ret]. apply safe_op; [apply delete_keeps|].
  intros s e s' _ E. destruct (delete_mailbox_spec id s) as (x & E'). congruence.
Qed.

Lemma get_blob_errors chunk s e s' : get_blob chunk s = (Err e, s') → e = BlobNotFound.
Proof using.
  unfold get_blob, connect, se_bind, se_get, se_lift. destruct (blobs s !! chunk); cbn; [done|].
  by intros [= <- _].
Qed.

Lemma get_blob_keeps chunk : preserves (get_blob chunk).
Proof using. apply (read_keeps (λ s, of_option BlobNotFound _)). Qed.

Lemma safe_download chunk req : safe (within (refusals (GetBlob chunk))) (download_handler chunk req).
Proof using.
  unfold download_handler. apply safe_bind; [apply safe_header; in_list|intros id].
  apply safe_bind; [apply safe_auth; in_list|intros _].
  apply safe_bind; [|intros row; apply safe_bind; [apply safe_check; in_list|intros _; apply safe_ret]].
  apply (safe_except _ (λ e, e = BlobNotFound)); [|intros e ->; in_list].
  apply safe_op; [apply get_blob_keeps|]. intros s e s' _. apply get_blob_errors.
Qed.

(** A chunk whose identifier is free: only the mailbox and its quota can refuse it. *)
Lemma put_blob_errors chunk id data now s e s' :
  blobs s !! chunk = None → put_blob chunk id data now s = (Err e, s') → e = MailboxNotFound ∨ e = QuotaExceeded.
Proof using.
  intros En E. unfold put_blob, connect, se_bind, se_get, se_check, se_put, se_raise, se_ret in E.
  destruct (mailboxes s !! id); [|injection E; auto]. destruct (usage id s).
  destruct (_ <? _); [injection E; auto|]. by rewrite En in E.
Qed.

Lemma chunk_id_errors l req fresh e : 400 ∈ l → chunk_id_of req fresh = Err e → within l e.
Proof using.
  intros H E. unfold chunk_id_of, except in E. destruct (header_get _ _) as [v|]; [|done].
  destruct (String.eqb v ""); [done|]. destruct (b64d v) as [raw|e0]; cbn in E.
  - destruct (negb _); [by injection E as <-|done].
  - destruct (isa_Exception e0) eqn:Ee; injection E as <-; [done|]. by destruct e0.
Qed.

Lemma safe_upload req mono now fresh :
  safe (within (refusals (PostBlob mono now fresh))) (upload_handler req mono now fresh).
Proof using.
  unfold upload_handler. apply safe_bind; [apply safe_header; in_list|intros id].
  apply safe_bind; [apply safe_auth; in_list|intros _].
  apply safe_bind; [apply safe_limit; in_list|intros _]. apply safe_bind; [apply safe_get|intros a0].
  apply safe_bind; [apply safe_check; in_list|intros _].
  apply safe_bind; [apply safe_check; in_list|intros _].
  apply safe_bind; [apply safe_lift; intros e; apply chunk_id_errors; in_list|intros chunk].
  apply safe_get_bind. intros a r a' Ha. destruct (get_blob chunk (a_db a)).1 as [b|e] eqn:Eg.
  - destruct (String.eqb _ _); [by apply safe_ret|]. apply safe_raise; [in_list|done].
  - destruct (isa_BlobNotFound e) eqn:Ei.
    2:{ destruct (get_blob chunk (a_db a)) as [x d] eqn:E. cbn in Eg. subst x.
        apply get_blob_errors in E as ->. done. }
    assert (blobs (a_db a) !! chunk = None) as En.
    { unfold get_blob, connect, se_bind, se_get, se_lift in Eg. by destruct (blobs (a_db a) !! chunk). }
    intros E. unfold se_bind, se_except, on_db in E.
    destruct (put_blob chunk id (body req) now (a_db a)) as [x d] eqn:Ep.
    pose proof (put_blob_keeps chunk id (body req) now _ _ _ Ha Ep) as [Hd _].
    destruct x as [[]|e']; [injection E as <- <-; by split|].
    destruct (put_blob_errors _ _ _ _ _ _ _ En Ep) as [-> | ->]; injection E as <- <-;
      (split; [done|]); intros ? [= <-]; in_list.
Qed.

(** The number in the body of an acknowledgement. *)
Definition ack_number (b : bytes) : res Z :=
  let? payload := json_loads_raw b in let? u := jitem "upto_seq" payload in to_int u.

Lemma safe_ack id req :
  (∀ u, ack_number (body req) = Ok u → int64 u = true) →
  safe (within (refusals (PostAck id))) (ack_handler id req).
Proof using.
  intros Hu. unfold ack_handler. apply safe_bind; [apply safe_auth; in_list|intros _].
  change (let? payload := json_loads_raw (body req) in let? u := jitem "upto_seq" payload in to_int u)
    with (ack_number (body req)).
  apply safe_lift_bind.
  - intros u E. apply safe_bind; [|intros n; apply safe_ret]. apply safe_op; [apply ack_keeps|].
    intros s e s' _ Ea. unfold ack_messages, connect, se_bind, se_check in Ea.
    rewrite Hu in Ea; [done|]. unfold except in E. destruct (ack_number _); [by injection E as ->|].
    by destruct (isa_Exception _).
  - intros e E. unfold except in E. destruct (ack_number _) as [|e0]; [done|].
    destruct (isa_Exception e0) eqn:Ee; injection E as <-; [in_list|]. by destruct e0.
Qed.

Lemma poll_errors id after limit deadline polls e :
  int64 after && int64 limit = true →
  poll_messages id after limit deadline polls = Err e → e = OutOfFuel.
Proof using.
  intros Hi. induction polls as [|[d clock] polls IH]; cbn [poll_messages]; [by intros [= <-]|].
  unfold get_messages, connect, se_bind, se_check, se_get, se_ret. rewrite Hi. cbn [negb fst res_bind].
  destruct (sql_limit _ _); [|done]. by destruct (deadline <=? clock).
Qed.

(** Calls that cannot fail inside the relay: writes, deletions, uploads, downloads and
    the health check always; reads and acknowledgements whose number fits a SQLite
    integer. *)
Definition orderly (req : request) (c : call) (a : app) : Prop :=
  match c with
  | PostMessages _ _ _ | DeleteMailbox _ | PostBlob _ _ _ | GetBlob _ | GetHealth => True
  | GetMailbox _ after _ _ _ _ => int64 after && int64 (max_messages_per_fetch (a_settings a)) = true
  | PostAck _ => ∀ u, ack_number (body req) = Ok u → int64 u = true
  | _ => False
  end.

Lemma safe_refused {A} l f (m : SE app A) a n a' :
  safe (within l) m → (∀ x k, f x ≠ Refuse k) → db_inv (a_db a) → reply f m a = (Refuse n, a') → n ∈ l.
Proof using.
  intros Hm Hf Ha E. unfold reply in E. destruct (m a) as [[x|e] a1] eqn:Em.
  - injection E as E _. by destruct (Hf x n).
  - destruct (Hm a _ _ Ha Em) as [_ Hw]. specialize (Hw e eq_refl).
    destruct e; try done. by injection E as <- _.
Qed.
End refusals.

Lemma refusals_listed req c a n :
  orderly req c a → n ∈ refusals c → n ∈ documented ∨ n = 409 ∧ ∃ mono now fresh, c = PostBlob mono now fresh.
Proof.
  assert (∀ l : list Z, forallb (λ n, bool_decide (n ∈ documented)) l = true → n ∈ l → n ∈ documented) as Hl.
  { intros l Hf Hn%list_elem_of_In. rewrite forallb_forall in Hf. by apply (bool_decide_eq_true_1 _ (Hf _ Hn)). }
  intros Ho Hn. destruct c; try done; try (left; by apply Hl in Hn).
  cbn in Hn. destruct (decide (n = 409)) as [->|Hne]; [right; eauto|left].
  apply (Hl [400; 401; 404; 413; 429]); [done|]. set_solver.
Qed.

(** C34: a refused request is refused with a status of its endpoint, and, but for one, a status
    that section 8.1 of PROTOCOL.md lists.  From a consistent database, a write, a deletion, an
    upload, a download, a health check, and a read or an acknowledgement whose number fits a
    SQLite integer, are answered, or refused with one of the statuses of that endpoint - never
    with an internal error.  The exception is 409, which the document does not have: an upload
    under a chunk id that belongs to another mailbox ([upload_conflict]). *)
Theorem refusals_documented {C : Crypto} req c a n a' :
  db_inv (a_db a) → orderly req c a → serve req c a = (Refuse n, a') →
  n ∈ refusals c ∧ (n ∈ documented ∨ n = 409 ∧ ∃ mono now fresh, c = PostBlob mono now fresh).
Proof.
  intros Ha Ho E. enough (n ∈ refusals c) as Hn by (split; [done|by apply refusals_listed with req a]).
  destruct c; try done; cbn [serve] in E.
  - cbn [orderly] in Ho. unfold reply, get_mailbox_handler, se_bind in E.
    destruct (authenticate_mailbox req mailbox_id Read a) as [[mb|e] a1] eqn:Ea;
      apply authenticate_spec in Ea as [-> H].
    + unfold se_get, se_lift in E. destruct (poll_messages _ _ _ _ _) as [l|e] eqn:Ep; [done|].
      by rewrite (poll_errors _ _ _ _ _ _ Ho Ep) in E.
    + destruct H as [->|[-> _]]; injection E as <- _; cbn; set_solver.
  - by apply (safe_refused _ (Answer 201) _ a n a' (safe_write _ mailbox_id req mono now (λ _, id))).
  - by apply (safe_refused _ (Answer 200) _ a n a' (safe_ack mailbox_id req Ho)).
  - by apply (safe_refused _ (Answer 200) _ a n a' (safe_delete mailbox_id req)).
  - by apply (safe_refused _ (Answer 201) _ a n a' (safe_upload req mono now fresh)).
  - by apply (safe_refused _ Octets _ a n a' (safe_download chunk_id req)).
Qed.

(** ** Concrete runs *)

Module Sample.
Import Toy.

Definition settings : Settings := default_settings.
Definition with_headers (h : list (string * string)) (b : bytes) : request :=
  {| headers := h; client_host := Some "10.0.0.1"%string; body := b |}.
Definition read_token : bytes := bs "0123456789abcdef0123456789abcdef".
Definition write_token : bytes := bs "fedcba9876543210fedcba9876543210".
Definition box : string := b64e (bs "0123456789ab").
Definition reader : request := with_headers [("x-nk-read"%string, b64e read_token)] [].
Definition writer (b : bytes) : request := with_headers [("x-nk-write"%string, b64e write_token)] b.

(** A relay with one mailbox. *)
Definition opened : app :=
  (serve (with_headers [] []) (PostMailbox 0 1000 (bs "0123456789ab") read_token write_token)
     (create_app settings empty_db)).2.
Definition written : app := (serve (writer (bs "hello")) (PostMessages box 1 1001) opened).2.

(** A stranger tries to delete the mailbox, another message arrives, the housekeeping
    loop turns and the relay restarts. *)
Definition traffic : list event :=
  [Request (with_headers [] []) (DeleteMailbox box); Request (writer (bs "again")) (PostMessages box 2 1002);
   Turn 4600; Restart settings; Request (with_headers [] (bs "{")) (PostAck box)].

Definition bare_opk : bytes :=
  dumps fmt_default (JObj [("bundle_id", JStr "b"); ("opks", JList [JObj []])]%string).

Lemma opened_inv : db_inv (a_db opened).
Proof. eapply (does_inv _ (create_app settings empty_db)); [apply serve_footprint|apply empty_db_inv]. Qed.

Lemma accepted_is_delivered_witness :
  ∃ ms next,
    (serve reader (GetMailbox box (1 - 1) 0 0 0 []) (run_relay traffic written)).1 =
    Answer 200 (JObj [("messages", JList (JObj [("seq", JInt 1); ("blob", JStr (b64e (bs "hello")))] :: ms));
                      ("next_seq", JInt next)]%string).
Proof.
  apply (accepted_is_delivered (writer (bs "hello")) box 1 1001 opened 1 written (token_hash read_token)
           (90 * 24 * 3600) traffic reader read_token 0 0 0 []).
  - apply opened_inv.
  - reflexivity.
  - change (a_settings opened) with settings. split_and!; by vm_compute.
  - vm_compute. reflexivity.
  - unfold written. rewrite (surjective_pairing (serve _ _ opened)) at 1.
    apply (f_equal2 pair); [vm_compute; reflexivity|reflexivity].
  - unfold traffic. repeat constructor; cbn [spares]; try done; try lia.
  - vm_compute. reflexivity.
  - vm_compute. reflexivity.
Defined.

(** Requests answered with an internal error: a body that is not UTF-8, a prekey without
    its fields, and a number wider than 64 bits. *)
Lemma internal_errors :
  (serve (with_headers [] [byte_of 0xFF]) (PostMailbox 1 1001 [] [] []) opened).1 = Refuse 500 ∧
  (serve (with_headers [] bare_opk) (PostPrekeys 1 1001) opened).1 = Refuse 500 ∧
  (serve reader (GetMailbox box (2 ^ 63) 0 0 0 []) opened).1 = Refuse 500.
Proof. vm_compute. auto. Qed.

Lemma reading_does_not_keep_witness :
  mailboxes (a_db (step (Turn 7777002) (run_relay [Request reader (GetMailbox box 0 0 0 0 [])] written))) !! box = None.
Proof.
  apply (reading_does_not_keep box (set_next 1001 2 (new_mailbox (token_hash read_token) (token_hash write_token) 1000 1000 (64 * 1024 * 1024)))).
  - vm_compute. reflexivity.
  - by repeat constructor.
  - vm_compute. reflexivity.
  - vm_compute. reflexivity.
Defined.

(** Two mailboxes, and the same chunk id for both. *)
Definition other_box : string := b64e (bs "ba9876543210").
Definition both : app :=
  (serve (with_headers [] []) (PostMailbox 0 1000 (bs "ba9876543210") read_token write_token) opened).2.
Definition upload_to (id : string) : request :=
  with_headers [("x-nk-mailbox", id); ("x-nk-write", b64e write_token); ("x-nk-chunk", b64e (repeat "c"%char 16))]%string
    (bs "chunk").
Lemma upload_conflict :
  let first := (serve (upload_to box) (PostBlob 1 1001 "") both).2 in
  (serve (upload_to box) (PostBlob 2 1002 "") first).1
    = Answer 201 (JObj [("chunk_id", JStr (b64e (repeat "c"%char 16)))]%string) ∧
  (serve (upload_to other_box) (PostBlob 2 1002 "") first).1 = Refuse 409 ∧ 409 ∉ documented.
Proof. split_and!; [vm_compute; reflexivity..|]. apply (bool_decide_eq_false_1 _). reflexivity. Qed.

Lemma refusals_documented_witness : 401 ∈ refusals (GetBlob "chunk") ∧ 401 ∈ documented.
Proof.
  destruct (refusals_documented (with_headers [("x-nk-mailbox"%string, box)] []) (GetBlob "chunk") opened 401 opened)
    as [H1 H2].
  - apply opened_inv.
  - done.
  - vm_compute. reflexivity.
  - split; [exact H1|]. destruct H2 as [H2|[H2 _]]; [exact H2|discriminate].
Defined.
End Sample.
