(* ===== verification/Exchange.v ===== *)
(** * Clients and relays: HTTP between them

    [wire/backends/http_relay.py] on one side, [server/] on the other.  What lies between
    - [requests], the network, uvicorn and FastAPI - is not the program's code: it is the
    class [Web], whose law says what may become of a request.  A request may be lost; it
    may reach a relay and be served, by the endpoint its method and path name in the
    routers; and then its answer may be lost.  A path that names no endpoint with an
    identifier as clients generate them (a peer may have chosen it) may be read as any
    endpoint of the request's method.  Nothing else happens to the relays. *)

From S2P Require Import Prelude PyStr Json JsonProps Dict Primitives Encoding Backend.
From S2P Require Import Sql Db DbProps DbQueue Config Security Routers RelayApp RelayAppProps.
From S2P Require Transport HttpRelay MultiRelay.

(** ** Paths *)

(** ["/a/b"] for [["a"; "b"]]. *)
Fixpoint path_str (segs : list string) : string :=
  match segs with [] => "" | s :: segs' => "/" +:+ s +:+ path_str segs' end.

(** The identifiers clients put in paths are URL-safe base 64. *)
Definition segment (s : string) : bool := negb (String.eqb s "") && forallb id_char (bs s).

(** A query parameter; the endpoints' default is 0. *)
Definition param (name : string) (ps : list (string * Z)) : Z :=
  match List.find (λ p, String.eqb p.1 name) ps with Some p => p.2 | None => 0 end.

(** ** The routers' table

    [routed method segs params c]: FastAPI calls [c] for this method and path under
    [/api], with any clocks and fresh identifiers; a long poll goes on until its
    deadline. *)
Inductive routed : string → list string → list (string * Z) → call → Prop :=
| post_mailbox ps mono now i r w : routed "POST" ["mailbox"] ps (PostMailbox mono now i r w)
| get_mailbox_at ps id start clock later :
    segment id = true → start + Z.max 0 (param "wait" ps) ≤ List.last (map snd later) clock →
    routed "GET" ["mailbox"; id] ps (GetMailbox id (param "after_seq" ps) (param "wait" ps) start clock later)
| post_messages ps id mono now :
    segment id = true → routed "POST" ["mailbox"; id; "messages"] ps (PostMessages id mono now)
| post_ack ps id : segment id = true → routed "POST" ["mailbox"; id; "ack"] ps (PostAck id)
| delete_mailbox_at ps id : segment id = true → routed "DELETE" ["mailbox"; id] ps (DeleteMailbox id)
| post_prekeys ps mono now : routed "POST" ["prekeys"] ps (PostPrekeys mono now)
| get_prekeys ps id : segment id = true → routed "GET" ["prekeys"; id] ps (GetPrekeys id)
| post_blob ps mono now fresh : routed "POST" ["blob"] ps (PostBlob mono now fresh)
| get_blob_at ps id : segment id = true → routed "GET" ["blob"; id] ps (GetBlob id)
| get_relays ps file : routed "GET" ["relays"] ps (GetRelays file)
| get_health ps : routed "GET" ["health"] ps GetHealth.

Definition method (c : call) : string :=
  match c with
  | PostMailbox _ _ _ _ _ | PostMessages _ _ _ | PostAck _ | PostPrekeys _ _ | PostBlob _ _ _ => "POST"
  | DeleteMailbox _ => "DELETE"
  | GetMailbox _ _ _ _ _ _ | GetPrekeys _ | GetBlob _ | GetRelays _ | GetHealth => "GET"
  end.
Lemma routed_method m segs ps c : routed m segs ps c → method c = m.
Proof. by destruct 1. Qed.

(** ** Requests and answers on the wire *)

(** The body of a request; [json=] prints with [json.dumps]. *)
Definition body_bytes (p : Transport.payload) : bytes :=
  match p with
  | Transport.NoBody => []
  | Transport.Data b => b
  | Transport.JsonBody j => dumps fmt_default j
  end.

(** Header names are compared in lower case. *)
Definition lower (name : string) : string := to_str (ascii_lower (bs name)).

(** What arrives: the headers that were given, among those [requests] adds, which are
    none of the program's own, and the body. *)
Definition carried (r : Transport.http_request) (q : request) : Prop :=
  (∀ k v, (k, v) ∈ Transport.rq_headers r → header_get (lower k) (headers q) = Some v) ∧
  (∀ k, startswith k "x-nk-" = true → k ∉ map (λ kv, lower kv.1) (Transport.rq_headers r) →
        header_get k (headers q) = None) ∧
  body q = body_bytes (Transport.rq_body r).

(** The exceptions of [requests] and of what is under it are none of the program's. *)
Definition library_error (e : exn) : bool :=
  match e with
  | RelayHTTPError _ | RelayNotFound _ | RelayUnauthorized _ | RelayQuotaExceeded _ => false
  | _ => isa_Exception e
  end.

(** What a client may get for the relay's answer: nothing, or its status and content.  A
    value that cannot be printed is an internal error of the relay; about a call that
    left the model nothing is known. *)
Inductive answered : response → res Transport.response → Prop :=
| answer_lost a e : library_error e = true → answered a (Err e)
| answer_json st j b :
    wf_json utf8_str j →
    answered (Answer st j) (Ok {| Transport.status_code := st; Transport.response_json := Ok j; Transport.content := b |})
| answer_unprintable st j x :
    ¬ wf_json utf8_str j → Transport.status_code x = 500 → answered (Answer st j) (Ok x)
| answer_octets b j :
    answered (Octets b) (Ok {| Transport.status_code := 200; Transport.response_json := j; Transport.content := b |})
| answer_refused st j b :
    answered (Refuse st) (Ok {| Transport.status_code := st; Transport.response_json := j; Transport.content := b |})
| answer_outside e x : answered (Outside e) x.

(** ** The network between *)

Section exchange.
Context {C : Crypto} {N : Type} (relay_at : N → string → option app).

(** The relays of two states are the same. *)
Definition same_relays (n n' : N) : Prop := ∀ u, relay_at n' u = relay_at n u.

(** The request names an endpoint of the relay under [u]. *)
Definition addressed (r : Transport.http_request) (u : string) (segs : list string) (c : call) : Prop :=
  Transport.rq_url r = u +:+ path_str ("api" :: segs) ∧
  routed (Transport.rq_method r) segs (Transport.rq_params r) c.

(** One request in the state [n] of the network: the client's answer and the state after. *)
Inductive exchange (r : Transport.http_request) (n : N) : res Transport.response * N → Prop :=
| unanswered e n' : library_error e = true → same_relays n n' → exchange r n (Err e, n')
| elsewhere x n' :
    (∀ u segs c, addressed r u segs c → relay_at n u = None) → same_relays n n' → exchange r n (x, n')
| served u segs q c a x n' :
    addressed r u segs c → relay_at n u = Some a → carried r q →
    relay_at n' u = Some (serve q c a).2 → (∀ v, v ≠ u → relay_at n' v = relay_at n v) →
    answered (serve q c a).1 x → exchange r n (x, n')
| astray u q c a x n' :
    (∀ v segs c', ¬ addressed r v segs c') → method c = Transport.rq_method r →
    relay_at n u = Some a → carried r q →
    relay_at n' u = Some (serve q c a).2 → (∀ v, v ≠ u → relay_at n' v = relay_at n v) →
    exchange r n (x, n').
End exchange.

(** A network and the relays it reaches, by base URL.  While a client waits between two
    tries its relays stay as they are: others act before and after its calls. *)
Class Web {C : Crypto} (N : Type) {Network : Transport.Net N} := {
  relay_at : N → string → option app;
  web_sleep d n : same_relays relay_at n (Transport.time_sleep d n);
  web_request r n : exchange relay_at r n (Transport.session_request r n)
}.

Lemma library_proper e : library_error e = true → isa_Exception e = true.
Proof. by destruct e. Qed.

(** ** A URL names one endpoint *)

Definition no_slash (s : string) : Prop := "/"%char ∉ bs s.

Lemma segment_no_slash s : segment s = true → no_slash s.
Proof.
  unfold segment, no_slash. intros [_ H]%andb_true_iff Hin. rewrite forallb_forall in H.
  apply list_elem_of_In, H in Hin. done.
Qed.

Lemma sapp_assoc s t u : s +:+ (t +:+ u) = (s +:+ t) +:+ u.
Proof. apply bs_inj. by rewrite !bs_app, app_assoc. Qed.
Lemma sapp_nil s : s +:+ "" = s.
Proof. apply bs_inj. rewrite bs_app. apply app_nil_r. Qed.

Lemma path_str_app l k : path_str (l ++ k) = path_str l +:+ path_str k.
Proof. induction l as [|s l IH]; [done|]. cbn [Datatypes.app path_str]. by rewrite IH, !sapp_assoc. Qed.

(** Two ways to cut one URL into a base and segments: one is longer than the other. *)
Lemma path_suffix l l' u u' :
  Forall no_slash l → Forall no_slash l' → u +:+ path_str l = u' +:+ path_str l' →
  (∃ k, l' = k ++ l ∧ u = u' +:+ path_str k) ∨ (∃ k, l = k ++ l' ∧ u' = u +:+ path_str k).
Proof.
  revert l'. induction l as [|s l IH] using rev_ind; intros l' Hl Hl' E.
  { left. exists l'. rewrite app_nil_r. split; [done|]. rewrite <-E. cbn. by rewrite sapp_nil. }
  destruct l' as [|s' l' _] using rev_ind.
  { right. exists (l ++ [s]). rewrite app_nil_r. split; [done|]. rewrite E. cbn. by rewrite sapp_nil. }
  apply Forall_app in Hl as [Hl [Hs _]%Forall_cons], Hl' as [Hl' [Hs' _]%Forall_cons].
  rewrite !path_str_app in E. cbn [path_str] in E. rewrite !sapp_nil, !(sapp_assoc _ (path_str _)) in E.
  apply (f_equal bs) in E. rewrite !(bs_app (_ +:+ path_str _)) in E.
  apply not_elem_of_app_cons_inv_r in E as (E1 & _ & E2); [|done..].
  apply bs_inj in E1, E2. subst s'. destruct (IH l' Hl Hl' E1) as [(k & -> & ->)|(k & -> & ->)].
  - left. exists k. by rewrite app_assoc.
  - right. exists k. by rewrite app_assoc.
Qed.

Lemma routed_no_slash m segs ps c : routed m segs ps c → Forall no_slash ("api" :: segs)%string.
Proof.
  destruct 1; repeat constructor; try (by apply segment_no_slash); vm_compute; set_solver.
Qed.

Lemma routed_head m segs ps c : routed m segs ps c → ∃ s segs', segs = s :: segs' ∧ s ≠ "api"%string.
Proof. destruct 1; by eexists _, _. Qed.

(** A routed path holds no second [/api/...] that is routed itself. *)
Lemma routed_inside m segs ps c m' segs' ps' c' k :
  routed m segs ps c → routed m' segs' ps' c' → "api"%string :: segs = k ++ "api"%string :: segs' → k = [].
Proof.
  intros H H' E. destruct k as [|x k]; [done|]. injection E as _ E.
  destruct (routed_head _ _ _ _ H') as (s & l & -> & Hs). destruct H;
    destruct k as [|k1 [|k2 [|k3 k]]]; simplify_eq/=; try (by destruct k); inversion H'.
Qed.

Lemma addressed_unique r u u' segs segs' c c' :
  addressed r u segs c → addressed r u' segs' c' → u = u' ∧ segs = segs'.
Proof.
  intros [E H] [E' H']. rewrite E in E'.
  apply path_suffix in E' as [(k & Ek & ->)|(k & Ek & ->)]; try by eapply routed_no_slash.
  - pose proof (routed_inside _ _ _ _ _ _ _ _ _ H' H Ek) as ->. rewrite sapp_nil. by simplify_eq/=.
  - pose proof (routed_inside _ _ _ _ _ _ _ _ _ H H' Ek) as ->. rewrite sapp_nil. by simplify_eq/=.
Qed.

(** ** A client's request, with its retries *)

Section client.
Context {C : Crypto} {N : Type} {Network : Transport.Net N}.

(** What was so before every try is so at the end; the result is the last try's, or the
    transport gave up. *)
Lemma attempts_ends (J : N → Prop) t r k a n x n' :
  (∀ n, J n → J (Transport.session_request r n).2) → (∀ d n, J n → J (Transport.time_sleep d n)) → J n →
  Transport.attempts t r k a n = (x, n') →
  J n' ∧ (x = Err TransportError ∨ ∃ n0, J n0 ∧ Transport.session_request r n0 = (x, n')).
Proof using.
  intros Hr Hd. revert a n. induction k as [|k IH]; intros a n Hn E; cbn [Transport.attempts] in E.
  { injection E as <- <-. auto. }
  pose proof (Hr n Hn) as Hn1. destruct (Transport.session_request r n) as [[resp|e] n1] eqn:Es; cbn [snd] in Hn1.
  - injection E as <- <-. eauto.
  - destruct (Transport.retried e); [|injection E as <- <-; eauto].
    destruct k; [injection E as <- <-; auto|]. apply IH in E; auto.
Qed.

(** The request behind a call of the backend. *)
Definition sent (b : HttpRelay.HttpRelayBackend) (m path : string) (hs : list (string * string))
    (ps : list (string * Z)) (body : Transport.payload) (px : list (string * string)) : Transport.http_request :=
  {| Transport.rq_method := m; Transport.rq_url := HttpRelay.url_of b path;
     Transport.rq_timeout := Transport.timeout (HttpRelay.transport b); Transport.rq_proxies := px;
     Transport.rq_headers := hs; Transport.rq_params := ps; Transport.rq_body := body |}.

Definition checked (y : res Transport.response) : res Transport.response :=
  let? resp := y in let? _ := HttpRelay.raise_for_status resp in Ok resp.

Lemma call_ends (J : N → Prop) b m path hs ps body n x n' :
  (∀ px n, J n → J (Transport.session_request (sent b m path hs ps body px) n).2) →
  (∀ d n, J n → J (Transport.time_sleep d n)) → J n →
  HttpRelay.call b m path hs ps body n = (x, n') →
  J n' ∧ ((∃ e, Transport.proxies_for (HttpRelay.transport b) (HttpRelay.url_of b path) = Err e ∧ x = Err e) ∨
          x = Err TransportError ∨
          ∃ px y n0, J n0 ∧ Transport.session_request (sent b m path hs ps body px) n0 = (y, n') ∧ x = checked y).
Proof using.
  intros Hr Hd Hn E. unfold HttpRelay.call, Transport.request, se_bind, se_lift in E.
  destruct (Transport.proxies_for _ _) as [px|e]; [|injection E as <- <-; eauto 6].
  change (default _ None) with (Transport.timeout (HttpRelay.transport b)) in E.
  fold (sent b m path hs ps body px) in E.
  destruct (Transport.attempts _ _ _ _ n) as [y n1] eqn:Ea.
  apply (attempts_ends J) in Ea as [Hn1 Hy]; [|exact (Hr px)|exact Hd|exact Hn].
  assert (x = checked y ∧ n' = n1) as [-> ->].
  { unfold checked. destruct y as [resp|e]; cbn [res_bind]; [|by injection E].
    by destruct (HttpRelay.raise_for_status resp) as [[]|]; injection E. }
  split; [done|]. destruct Hy as [->|(n0 & Hn0 & Ey)]; [by right; left|]. right. right. by exists px, y, n0.
Qed.

Lemma raise_proper resp e : HttpRelay.raise_for_status resp = Err e → isa_Exception e = true.
Proof using. unfold HttpRelay.raise_for_status. repeat case_match; by intros [= <-]. Qed.

Lemma checked_Ok y resp : checked y = Ok resp → y = Ok resp ∧ Transport.status_code resp < 400.
Proof using.
  unfold checked. intros (r & -> & (u & Hr & [= ->])%res_bind_Ok)%res_bind_Ok. split; [done|].
  destruct u. by apply (proj1 (HttpRelay.raise_for_status_spec resp)).
Qed.
End client.

(** ** The relays under the requests *)

Section relays.
Context {C : Crypto} {N : Type} {Network : Transport.Net N} {W : Web N}.

(** A relay whose tables are consistent and which gives out pages of [page] messages. *)
Definition page_size : Z := MAX_MESSAGES_PER_FETCH.
Definition good (a : app) : Prop :=
  db_inv (a_db a) ∧ page_size ≤ max_messages_per_fetch (a_settings a) < 2 ^ 63.

Definition items (id : string) (a : app) : list (Z * bytes) := default [] (q_items <$> view id (a_db a)).

Lemma serve_good q c a : good a → good (serve q c a).2.
Proof using.
  intros [H1 H2]. split; [by eapply does_inv, H1; apply serve_footprint|].
  by destruct (serve_footprint q c a) as [-> _].
Qed.

(** Calls that take no message away: acknowledging and deleting need the read token. *)
Definition gentle (q : request) (c : call) : Prop :=
  match c with PostAck _ | DeleteMailbox _ => header_get "x-nk-read" (headers q) = None | _ => True end.
Definition adds_only (c : call) : Prop := match c with PostAck _ | DeleteMailbox _ => False | _ => True end.

Lemma gentle_cases q c a : gentle q c → adds_only c ∨ (serve q c a).2 = a.
Proof using.
  destruct c; try (by left); intros H; right; cbn [gentle serve] in *; unfold reply, ack_handler, delete_mailbox_handler;
    unfold se_bind at 1, authenticate_mailbox, token_from_header; by rewrite H.
Qed.

Lemma serve_gentle q c a id x : gentle q c → db_inv (a_db a) → x ∈ items id a → x ∈ items id (serve q c a).2.
Proof using.
  intros Hc Hs Hx. destruct (gentle_cases q c a Hc) as [Ha| ->]; [|done].
  destruct (serve_footprint q c a) as (_ & ops & Hops & E). unfold items in *. rewrite E.
  destruct x as [n d]. apply view_items_run; [done| |done]. eapply Forall_impl; [exact Hops|].
  intros o Ho. by destruct c, o.
Qed.

(** Requests that take no message away, whatever endpoint of a relay they reach. *)
Definition gentle_request (r : Transport.http_request) : Prop :=
  ∀ q c, method c = Transport.rq_method r → carried r q → gentle q c.

Lemma get_gentle r : Transport.rq_method r = "GET"%string → gentle_request r.
Proof using. intros Hm q c H _. rewrite Hm in H. by destruct c. Qed.

Lemma tokenless_gentle r :
  "x-nk-read"%string ∉ map (λ kv, lower kv.1) (Transport.rq_headers r) → gentle_request r.
Proof using. intros Hr q c _ (_ & Hno & _). destruct c; try done; by apply Hno. Qed.

(** A relation that serving keeps holds between the relays before and after a request. *)
Lemma request_effect (R : app → app → Prop) r n :
  (∀ a, R a a) → (∀ q c a, method c = Transport.rq_method r → carried r q → R a (serve q c a).2) →
  ∀ u, option_Forall2 R (relay_at n u) (relay_at (Transport.session_request r n).2 u).
Proof using.
  intros Hrefl Hserve u. assert (∀ n', same_relays relay_at n n' → option_Forall2 R (relay_at n u) (relay_at n' u)) as Hsame.
  { intros n' ->. destruct (relay_at n u); by constructor. }
  pose proof (web_request r n) as H. destruct (Transport.session_request r n) as [x n'].
  assert (∀ v q c a, method c = Transport.rq_method r → relay_at n v = Some a → carried r q →
    relay_at n' v = Some (serve q c a).2 → (∀ w, w ≠ v → relay_at n' w = relay_at n w) →
    option_Forall2 R (relay_at n u) (relay_at n' u)) as Hone.
  { intros v q c a Hm Ea Hq Ea' Hv. destruct (decide (u = v)) as [->|Hne].
    - rewrite Ea, Ea'. constructor. by apply Hserve.
    - rewrite (Hv u Hne). destruct (relay_at n u); by constructor. }
  inversion H as [e ? _ Hs|y ? _ Hs|v segs q c a y ? [_ Ha] ? ? ? ? _|v q c a y ? _ Hm ? ? ? ?]; subst; cbn [snd];
    [by apply Hsame..| |by eapply Hone].
  eapply (Hone v q c a); [by eapply routed_method|done..].
Qed.

(** A request to a relay that is there is served by it or goes unanswered. *)
Lemma exchange_here r n x n' u segs c0 a0 :
  addressed r u segs c0 → relay_at n u = Some a0 → Transport.session_request r n = (x, n') →
  (∃ e, x = Err e ∧ library_error e = true) ∨
  ∃ q c, routed (Transport.rq_method r) segs (Transport.rq_params r) c ∧ carried r q ∧
    relay_at n' u = Some (serve q c a0).2 ∧ answered (serve q c a0).1 x.
Proof using.
  intros Ha Ea E. pose proof (web_request r n) as H. rewrite E in H.
  inversion H as [e ? He _|y ? Hno _|v segs' q c a y ? Hv Ev Hq Ev' _ Hans|v q c a y ? Hno]; subst; [eauto| | |].
  - by rewrite (Hno _ _ _ Ha) in Ea.
  - destruct (addressed_unique _ _ _ _ _ _ _ Ha Hv) as [<- <-]. right. exists q, c.
    assert (a = a0) as -> by congruence. destruct Hv as [_ Hv]. done.
  - by apply Hno in Ha.
Qed.

(** Lawful networks: every relay is good, and those under [U] are there. *)
Section lawful.
Context (U : string → Prop).
Definition lawful_net (n : N) : Prop :=
  (∀ u a, relay_at n u = Some a → good a) ∧ ∀ u, U u → is_Some (relay_at n u).

Lemma lawful_request r n : lawful_net n → lawful_net (Transport.session_request r n).2.
Proof using.
  intros [Hg HU]. pose proof (request_effect (λ a a', good a → good a') r n (λ _, id)
    (λ _ _ _ _ _, serve_good _ _ _)) as H.
  split.
  - intros u a' E. specialize (H u). rewrite E in H. inversion H as [a ? Ha Eq|]; subst. apply Ha. by eapply Hg.
  - intros u Hu. specialize (H u). destruct (HU u Hu) as [a E]. rewrite E in H. inversion H; subst. by eexists.
Qed.

Lemma lawful_sleep d n : lawful_net n → lawful_net (Transport.time_sleep d n).
Proof using.
  intros [Hg HU]. split.
  - intros u a. rewrite web_sleep. apply Hg.
  - intros u Hu. rewrite web_sleep. by apply HU.
Qed.

(** What the relay under a base URL holds in a mailbox. *)
Definition held (n : N) (u id : string) : list (Z * bytes) :=
  match relay_at n u with Some a => items id a | None => [] end.

Lemma held_request r n u id x :
  lawful_net n → gentle_request r → x ∈ held n u id → x ∈ held (Transport.session_request r n).2 u id.
Proof using.
  intros [Hg _] Hr Hx. unfold held in *. destruct (relay_at n u) as [a|] eqn:E; [|by apply not_elem_of_nil in Hx].
  pose proof (request_effect (λ a a', db_inv (a_db a) → x ∈ items id a → x ∈ items id a') r n (λ _ _ H, H)) as H.
  specialize (H (λ q c a Hm Hq, serve_gentle q c a id x (Hr q c Hm Hq)) u). rewrite E in H.
  inversion H as [? a' Ha Eq|]; subst. apply Ha; [|done]. by destruct (Hg u a E).
Qed.

Lemma held_sleep d n u id : held (Transport.time_sleep d n) u id = held n u id.
Proof using. unfold held. by rewrite web_sleep. Qed.
End lawful.
End relays.

(** ** What the endpoints answer *)

Section endpoints.
Context {C : Crypto}.

Definition seq_answer (k : Z) : json := JObj [("seq"%string, JInt k)].

Lemma refusals_error c n : n ∈ refusals c → 400 ≤ n.
Proof using.
  destruct c; cbn; intros H; repeat (apply elem_of_cons in H as [->|H]; [lia|]); by apply not_elem_of_nil in H.
Qed.

Lemma put_responses q id mono now a resp a' :
  db_inv (a_db a) → serve q (PostMessages id mono now) a = (resp, a') →
  (∃ k, resp = Answer 201 (seq_answer k)) ∨ ∃ st, resp = Refuse st ∧ 400 ≤ st.
Proof using.
  intros Ha E. cbn [serve] in E. unfold reply in E.
  destruct (put_message_handler id q mono now a) as [[j|e] a1] eqn:Em; injection E as <- <-.
  - left. unfold put_message_handler in Em. do 6 (apply se_bind_Ok in Em as (? & ? & _ & Em)).
    injection Em as <- _. by eexists.
  - right. destruct (safe_write (λ e, ∃ n, e = HTTPException n ∧ n ∈ refusals (PostMessages id mono now)) id q mono now
      (λ n Hn, ex_intro _ n (conj eq_refl Hn)) a _ _ Ha Em) as [_ H]. destruct (H e eq_refl) as (n & -> & Hn). exists n. split; [done|].
    by eapply refusals_error.
Qed.

Lemma poll_ends id after limit deadline polls clock :
  polls ≠ [] → deadline ≤ List.last (map snd polls) clock →
  (∃ rows, poll_messages id after limit deadline polls = Ok rows) ∨
  poll_messages id after limit deadline polls = Err OverflowError.
Proof using.
  intros Hne. induction polls as [|[d k] polls IH]; [done|]. clear Hne. intros Hd. cbn [poll_messages].
  unfold get_messages, connect, se_bind, se_check, se_get, se_ret.
  destruct (negb _); cbn [fst res_bind]; [by right|]. destruct (sql_limit _ _); [|eauto].
  destruct (Z.leb_spec deadline k); [eauto|]. destruct polls as [|p polls]; [cbn in Hd; lia|].
  by apply IH.
Qed.

Definition page_answer (rows : list message) (next : Z) : json :=
  JObj [("messages", JList (map message_json rows)); ("next_seq", JInt next)]%string.

Lemma get_responses q id after wait start clock later a resp a' :
  start + Z.max 0 wait ≤ List.last (map snd later) clock →
  serve q (GetMailbox id after wait start clock later) a = (resp, a') →
  (∃ rows next deadline, resp = Answer 200 (page_answer rows next) ∧
     poll_messages id after (max_messages_per_fetch (a_settings a)) deadline ((a_db a, clock) :: later) = Ok rows) ∨
  ∃ st, resp = Refuse st ∧ 400 ≤ st.
Proof using.
  intros Hp E. cbn [serve] in E. unfold reply, get_mailbox_handler, se_bind in E.
  destruct (authenticate_mailbox q id Read a) as [[mb|e] a1] eqn:Ea; apply authenticate_spec in Ea as [-> H].
  - unfold se_get, se_lift in E. set (dl := start + _) in E.
    destruct (poll_ends id after (max_messages_per_fetch (a_settings a)) dl ((a_db a, clock) :: later) clock)
      as [(rows & Er)|Er]; [done| |rewrite Er in E..].
    + unfold dl. etrans; [|destruct later; exact Hp]. lia.
    + left. injection E as <- _. by eexists _, _, _.
    + right. injection E as <- _. by eexists.
  - right. destruct H as [->|[-> _]]; injection E as <- _; by eexists.
Qed.
End endpoints.
