(* ===== verification/HttpContract.v ===== *)
(** * The relay backend keeps the contract of the pool

    [HttpRelay.put] and [fetch] against relays that run [server/]: what a client is told
    is what the relay did.  Together these are the contract [MultiRelay] is proved
    against, for every network the class [Web] allows - requests and answers may be
    lost, and a lost request is tried again. *)

From S2P Require Import Prelude PyStr Json JsonProps Dict Primitives Encoding Backend.
From S2P Require Import Sql Db DbProps DbQueue Config Security Routers RelayApp RelayAppProps Exchange.
From S2P Require Transport HttpRelay MultiRelay.

Section contract.
Context {C : Crypto} {N : Type} {Network : Transport.Net N} {W : Web N} (U : string → Prop).
Implicit Types (b : HttpRelay.HttpRelayBackend) (c : MailboxCapability) (n : N).

Definition put_path (id : string) : string := "/mailbox/" +:+ id +:+ "/messages".
Definition get_path (id : string) : string := "/mailbox/" +:+ id.

(** The backend's relay is one of [U], its transport has a way there, and the mailbox
    identifier can stand in a path. *)
Record reaches b c : Prop := {
  rc_base : U (HttpRelay.base_url b);
  rc_id : segment (mailbox_id c) = true;
  rc_put : ∃ px, Transport.proxies_for (HttpRelay.transport b) (HttpRelay.url_of b (put_path (mailbox_id c))) = Ok px;
  rc_get : ∃ px, Transport.proxies_for (HttpRelay.transport b) (HttpRelay.url_of b (get_path (mailbox_id c))) = Ok px
}.

Lemma after_lift {A B} (m : SE N A) (f : A → res B) n : (se_bind m (λ r, se_lift (f r)) n).2 = (m n).2.
Proof using. unfold se_bind. by destruct (m n) as [[]]. Qed.

(** What every try keeps, the call keeps. *)
Lemma call_keeps (J : N → Prop) b m path hs ps body n :
  (∀ px n, J n → J (Transport.session_request (sent b m path hs ps body px) n).2) →
  (∀ d n, J n → J (Transport.time_sleep d n)) → J n → J (HttpRelay.call b m path hs ps body n).2.
Proof using.
  intros Hr Hd Hn. destruct (HttpRelay.call b m path hs ps body n) as [x n'] eqn:E.
  by apply (call_ends J _ _ _ _ _ _ _ _ _ Hr Hd Hn E).
Qed.

Lemma call_lawful b m path hs ps body n : lawful_net U n → lawful_net U (HttpRelay.call b m path hs ps body n).2.
Proof using.
  intros Hn. apply call_keeps; [|intros; by apply lawful_sleep|done]. intros px n0. apply lawful_request.
Qed.

Lemma call_held b m path hs ps body n u id x :
  (∀ px, gentle_request (sent b m path hs ps body px)) → lawful_net U n → x ∈ held n u id →
  x ∈ held (HttpRelay.call b m path hs ps body n).2 u id.
Proof using.
  intros Hg Hn Hx. apply (call_keeps (λ n, lawful_net U n ∧ x ∈ held n u id)); [| |done].
  - intros px n0 [H1 H2]. split; [by apply lawful_request|]. by eapply held_request.
  - intros d n0 [H1 H2]. split; [by apply lawful_sleep|]. by rewrite held_sleep.
Qed.

(** A refusal reaches the client as an exception. *)
Lemma refused_error st y :
  answered (Refuse st) y → 400 ≤ st → ∃ e, checked y = Err e ∧ isa_Exception e = true.
Proof using.
  intros H Hst. inversion H as [? e He| | | |? j bd|]; subst; [exists e; by split; [|apply library_proper]|].
  unfold checked. cbn [res_bind]. set (resp := {| Transport.status_code := st |}).
  destruct (HttpRelay.raise_for_status resp) as [[]|e] eqn:Er; [|exists e; split; [done|by eapply raise_proper]].
  apply HttpRelay.raise_for_status_spec in Er. cbn in Er. lia.
Qed.

(** ** Writing *)

Definition put_call b c (e : bytes) : SE N Transport.response :=
  HttpRelay.call b "POST" (put_path (mailbox_id c)) [("X-NK-Write"%string, write_token c)] [] (Transport.Data e).

Lemma put_gentle b id w ps body px :
  gentle_request (sent b "POST" (put_path id) [("X-NK-Write"%string, w)] ps body px).
Proof using. apply tokenless_gentle. by intros ?%list_elem_of_singleton. Qed.

Lemma put_addressed b c ps hs body px :
  segment (mailbox_id c) = true →
  addressed (sent b "POST" (put_path (mailbox_id c)) hs ps body px) (HttpRelay.base_url b)
    ["mailbox"; mailbox_id c; "messages"]%string (PostMessages (mailbox_id c) 0 0).
Proof using. intros H. split; [reflexivity|by constructor]. Qed.

Lemma get_addressed b c ps hs body px :
  segment (mailbox_id c) = true →
  addressed (sent b "GET" (get_path (mailbox_id c)) hs ps body px) (HttpRelay.base_url b)
    ["mailbox"; mailbox_id c]%string
    (GetMailbox (mailbox_id c) (param "after_seq" ps) (param "wait" ps) 0 (Z.max 0 (param "wait" ps)) []).
Proof using.
  intros H. split.
  - cbn [sent Transport.rq_url]. unfold HttpRelay.url_of, get_path. cbn [path_str]. by rewrite sapp_nil.
  - constructor; [done|]. cbn. lia.
Qed.

Lemma put_state b c e n : (HttpRelay.put b c e n).2 = (put_call b c e n).2.
Proof using. exact (after_lift _ _ _). Qed.

(** A write that comes back with a number was answered by the relay, which holds it. *)
Lemma put_ends b c e n x n' :
  lawful_net U n → reaches b c → HttpRelay.put b c e n = (x, n') →
  MultiRelay.proper x ∧
  ∀ k, x = Ok k → ∃ q mono now a a',
    good a ∧ body q = e ∧ relay_at n' (HttpRelay.base_url b) = Some a' ∧
    serve q (PostMessages (mailbox_id c) mono now) a = (Answer 201 (seq_answer k), a').
Proof using.
  intros Hn [Hu Hid [px0 Hpx] _] E. unfold HttpRelay.put in E. fold (put_path (mailbox_id c)) in E.
  unfold se_bind in E. match type of E with context [HttpRelay.call ?b ?m ?p ?h ?ps ?bd n] =>
    destruct (HttpRelay.call b m p h ps bd n) as [y n1] eqn:Ec end.
  apply (call_ends (lawful_net U)) in Ec as [Hn1 Hy]; [|intros ? ?; apply lawful_request|intros ? ?; apply lawful_sleep|done].
  destruct Hy as [(e0 & He & _)|[->|(px & y0 & n0 & Hn0 & Es & ->)]]; [congruence| |].
  { injection E as <- <-. split; [by intros ? [= <-]|done]. }
  destruct Hn0 as [Hg HU]. destruct (HU _ Hu) as [a Ea].
  pose proof (put_addressed b c [] [("X-NK-Write"%string, write_token c)] (Transport.Data e) px Hid) as Hadr.
  destruct (exchange_here _ _ _ _ _ _ _ _ Hadr Ea Es) as [(e0 & -> & He0)|(q & cl & Hr & (_ & _ & Hq) & Ea' & Hans)].
  { injection E as <- <-. split; [by intros ? [= <-]; apply library_proper|done]. }
  inversion Hr; subst. destruct (serve q (PostMessages (mailbox_id c) mono now) a) as [resp a'] eqn:Eserve.
  destruct (put_responses _ _ _ _ _ _ _ (proj1 (Hg _ _ Ea)) Eserve) as [(k & ->)|(st & -> & Hst)]; cbn [fst] in Hans.
  - inversion Hans as [? e0 He0|? ? bd Hwf|? ? y Hwf| | |]; subst.
    + injection E as <- <-. split; [by intros ? [= <-]; apply library_proper|done].
    + cbn in E. injection E as <- <-. split; [done|]. intros ? [= <-].
      exists q, mono, now, a, a'. split_and!; [by eapply Hg|done..].
    + destruct Hwf. unfold seq_answer. solve_wf.
  - destruct (refused_error _ _ Hans Hst) as (e0 & Ee & He0).
    rewrite Ee in E. injection E as <- <-. split; [by intros ? [= <-]|done].
Qed.

(** ** Reading *)

Definition row (m : message) : Z * bytes := (seq m, ciphertext m).

Lemma rows_read ms : mapM HttpRelay.row_of_json (map message_json ms) = Ok (map row ms).
Proof using.
  induction ms as [|m ms IH]; [done|]. cbn [map mapM]. unfold HttpRelay.row_of_json at 1, message_json at 1.
  cbn -[b64e b64d]. rewrite b64d_b64e. cbn [res_bind]. by rewrite IH.
Qed.

Lemma page_wf ms next : wf_json utf8_str (page_answer ms next).
Proof using.
  assert (wf_json utf8_str (JList (map message_json ms))) as H.
  { cbn [wf_json]. apply List.Forall_map, List.Forall_map, Forall_true. intros m.
    change (wf_json utf8_str (message_json m)). unfold message_json. solve_wf. }
  unfold page_answer. solve_wf.
Qed.

(** Numbers grow, so a number close to the cursor is on the page. *)
Lemma in_page l y : ∀ a k,
  StronglySorted seq_lt l → Forall (λ m, a < seq m) l → y ∈ l → seq y ≤ a + Z.of_nat k → y ∈ take k l.
Proof using.
  induction l as [|m l IH]; intros a k Hl Ha Hy Hk; [by apply not_elem_of_nil in Hy|].
  apply StronglySorted_inv in Hl as [Hl Hm]. apply Forall_cons in Ha as [Ha1 Ha].
  assert (a < seq y) as Hlow. { apply elem_of_cons in Hy as [->|Hy]; [done|]. rewrite Forall_forall in Ha. auto. }
  destruct k as [|k]; [lia|]. cbn [take]. apply elem_of_cons in Hy as [->|Hy]; [by left|]. right.
  apply (IH (seq m)); [done| |done|lia]. eapply Forall_impl; [exact Hm|done].
Qed.

Lemma poll_finds id after limit deadline d clock later ms (k : Z) e :
  db_inv d → (k, e) ∈ default [] (q_items <$> view id d) → after < k ≤ after + page_size → page_size ≤ limit →
  poll_messages id after limit deadline ((d, clock) :: later) = Ok ms → (k, e) ∈ map row ms.
Proof using.
  intros Hd Hin Hn Hlim E. cbn [poll_messages] in E. rewrite get_messages_spec in E by done. cbn [fst] in E.
  destruct (int64 after && int64 limit); [|done]. cbn [res_bind] in E.
  rewrite view_items in Hin by done. apply list_elem_of_fmap in Hin as (m & [= -> ->] & Hm).
  assert (m ∈ sql_limit limit (List.filter (λ m, after <? seq m) (messages_of id d))) as Hp.
  { unfold sql_limit. unfold page_size, MAX_MESSAGES_PER_FETCH in *. rewrite (proj2 (Z.ltb_ge limit 0)) by lia.
    apply (in_page _ _ after); [by apply StronglySorted_filter_b, inv_sorted| |by apply elem_filter; split; [|lia]|lia].
    apply Forall_forall. intros y [_ Hy]%elem_filter. lia. }
  destruct (sql_limit _ _) as [|m0 ms0]; [by apply not_elem_of_nil in Hp|]. injection E as <-.
  apply list_elem_of_fmap. by exists m.
Qed.

Lemma fetch_state b c after wait n :
  (HttpRelay.fetch b c after wait n).2 =
  match read_token c with
  | Some token => (HttpRelay.call b "GET" (get_path (mailbox_id c)) [("X-NK-Read", token)]%string
                     [("after_seq", after); ("wait", wait)]%string Transport.NoBody n).2
  | None => n
  end.
Proof using.
  unfold HttpRelay.fetch, HttpRelay.need_read. destruct (read_token c); [|done]. exact (after_lift _ _ _).
Qed.

(** A read that comes back with rows was answered by the relay: whatever it held in the
    mailbox before, within a page of the cursor, is among them. *)
Lemma fetch_ends b c after wait n x n' :
  lawful_net U n → reaches b c → HttpRelay.fetch b c after wait n = (x, n') →
  MultiRelay.proper x ∧
  ∀ rows y, x = Ok rows → y ∈ held n (HttpRelay.base_url b) (mailbox_id c) →
    after < y.1 ≤ after + page_size → y ∈ rows.
Proof using.
  intros Hn [Hu Hid _ [px0 Hpx]] E. unfold HttpRelay.fetch, HttpRelay.need_read in E.
  destruct (read_token c) as [token|]; cbn [of_option] in E.
  2:{ unfold se_bind at 1, se_lift at 1 in E. injection E as <- <-. split; [by intros ? [= <-]|done]. }
  unfold se_bind at 1, se_lift at 1 in E. fold (get_path (mailbox_id c)) in E. unfold se_bind in E.
  match type of E with context [HttpRelay.call ?b ?m ?p ?h ?ps ?bd n] =>
    destruct (HttpRelay.call b m p h ps bd n) as [y n1] eqn:Ec; set (params := ps) in * end.
  set (J := λ n0, lawful_net U n0 ∧ ∀ y, y ∈ held n (HttpRelay.base_url b) (mailbox_id c) →
                                         y ∈ held n0 (HttpRelay.base_url b) (mailbox_id c)).
  apply (call_ends J) in Ec as [_ Hy]; [| | |by split].
  2:{ intros px n0 [H1 H2]. split; [by apply lawful_request|]. intros y0 Hy0.
      eapply held_request; [done|by apply get_gentle|auto]. }
  2:{ intros d n0 [H1 H2]. split; [by apply lawful_sleep|]. intros y0. rewrite held_sleep. auto. }
  destruct Hy as [(e0 & He & _)|[->|(px & y0 & n0 & [[Hg HU] Hheld] & Es & ->)]]; [congruence| |].
  { injection E as <- <-. split; [by intros ? [= <-]|done]. }
  destruct (HU _ Hu) as [a Ea].
  destruct (exchange_here _ _ _ _ _ _ _ _ (get_addressed b c params _ _ px Hid) Ea Es)
    as [(e0 & -> & He0)|(q & cl & Hr & _ & _ & Hans)].
  { injection E as <- <-. split; [by intros ? [= <-]; apply library_proper|done]. }
  cbn [sent Transport.rq_method Transport.rq_params] in Hr. inversion Hr; subst.
  match type of Hans with context [serve q ?c0 a] => destruct (serve q c0 a) as [resp a'] eqn:Eserve end.
  apply get_responses in Eserve as [(ms & next & dl & -> & Hpoll)|(st & -> & Hst)]; [| |done]; cbn [fst] in Hans.
  2:{ destruct (refused_error _ _ Hans Hst) as (e0 & Ee & He0). rewrite Ee in E. injection E as <- <-.
      split; [by intros ? [= <-]|done]. }
  inversion Hans as [? e0 He0|? ? bd Hwf|? ? y Hwf| | |]; subst; [| |by destruct Hwf; apply page_wf].
  { injection E as <- <-. split; [by intros ? [= <-]; apply library_proper|done]. }
  assert (x = Ok (map row ms)) as ->.
  { revert E. cbn -[mapM HttpRelay.row_of_json map]. rewrite rows_read. by intros [= <- _]. }
  split; [done|]. intros rows [k e] [= <-] Hin Hk.
  apply Hheld in Hin. unfold held in Hin. rewrite Ea in Hin. destruct (Hg _ _ Ea) as [Hdb Hpg].
  eapply (poll_finds (mailbox_id c)); [exact Hdb|exact Hin|exact Hk|apply Hpg|exact Hpoll].
Qed.
End contract.

(** ** The contract *)

#[local] Existing Instance MultiRelay.http_backend.
#[local] Program Instance http_contract {C : Crypto} {N : Type} {Network : Transport.Net N} {W : Web N} (U : string → Prop) :
    MultiRelay.RelayContract N HttpRelay.HttpRelayBackend := {
  lawful := lawful_net U;
  serves := reaches U;
  stored n b c := held n (HttpRelay.base_url b) (mailbox_id c);
  page := page_size
}.
Next Obligation. intros. cbn. rewrite put_state. by apply call_lawful. Qed.
Next Obligation.
  intros C N Network W U b c a w s Hl. change (lawful_net U (HttpRelay.fetch b c a w s).2).
  rewrite fetch_state. destruct (read_token c); [|done]. by apply call_lawful.
Qed.
Next Obligation.
  intros C N Network W U b c e s Hl Hr. destruct (HttpRelay.put b c e s) as [x n'] eqn:E.
  change (MultiRelay.proper (HttpRelay.put b c e s).1). rewrite E. by apply (put_ends U b c e s x n').
Qed.
Next Obligation.
  intros C N Network W U b c a w s Hl Hr. destruct (HttpRelay.fetch b c a w s) as [x n'] eqn:E.
  change (MultiRelay.proper (HttpRelay.fetch b c a w s).1). rewrite E. by apply (fetch_ends U b c a w s x n').
Qed.
Next Obligation.
  intros C N Network W U b c e s k s' Hl Hr E.
  destruct (put_ends U b c e s _ _ Hl Hr E) as [_ H]. destruct (H k eq_refl) as (q & mono & now & a & a' & Hg & <- & Ea & Es).
  unfold held, items. rewrite Ea. destruct (put_accepted q _ mono now a k a' (proj1 Hg) Es) as (_ & mb & _ & Hk).
  apply (kept_item _ _ _ _ _ _ Hk).
Qed.
Next Obligation.
  intros. cbn in *. rewrite put_state. eapply call_held; [|done..]. intros px. apply put_gentle.
Qed.
Next Obligation.
  intros C N Network W U b c a w s b' c' x Hl Hx.
  change (x ∈ held (HttpRelay.fetch b c a w s).2 (HttpRelay.base_url b') (mailbox_id c')).
  rewrite fetch_state. destruct (read_token c); [|done]. eapply call_held; [|done..].
  intros px. by apply get_gentle.
Qed.
Next Obligation.
  intros C N Network W U b c a w s rows s' y Hl Hr E Hy Hk.
  destruct (fetch_ends U b c a w s _ _ Hl Hr E) as [_ H]. by apply H.
Qed.
