(* ===== verification/Store.v ===== *)
(** * The client's encrypted store ([core/store.py])

    The SQLite tables: lists in rowid order where order or ties matter, finite maps
    where a key selects one row.  Columns named [_enc] hold what [_seal] produced.
    The connection is in autocommit mode and every method but [prune_local_blobs]
    runs one statement, which SQLite applies whole or not at all.  Where SQL leaves an
    order open (equal sort keys, [LIMIT 1] without [ORDER BY]) rows keep their
    insertion order.  The AEAD nonces and the clock are arguments.  The key file and
    the keyring are input and output around the two wrapping functions. *)

From S2P Require Import Prelude PyStr Json JsonProps Primitives Dict Encoding Sql.
From S2P Require Aead.

Definition LOCAL_KEY_SIZE : Z := 32.
Definition LOCAL_BLOB_CAP_BYTES : Z := 2 * 1024 * 1024 * 1024.
Definition PBKDF2_DEFAULT : Z := 600000.

(** ** Tables *)

Record identity_row := { i_id : string; i_label : option string; i_vault : string; i_created : Z }.
Record contact_row := {
  cr_identity : string; cr_id : string; cr_nickname : option string; cr_isign : bytes;
  cr_idh : bytes; cr_bundle : option string; cr_inbox : string; cr_relays : string;
  cr_session : option bytes; cr_verified : bool; cr_created : Z
}.
Record message_row := {
  mr_id : string; mr_identity : string; mr_contact : string; mr_direction : string;
  mr_type : string; mr_body : option bytes; mr_remote : option string; mr_ts : Z;
  mr_state : option string; mr_meta : option bytes
}.
Record outbox_row := {
  or_id : string; or_identity : string; or_contact : string; or_mailbox : string;
  or_relay : option string; or_payload : bytes; or_seq : option Z; or_created : Z
}.
Record blob_row := { br_id : string; br_data : bytes; br_size : Z; br_created : Z }.

Record LocalStore := {
  store_key : bytes;
  identities : list identity_row;
  contacts : list contact_row;
  messages : list message_row;
  prekeys : gmap string bytes;
  outbox : list outbox_row;
  cursors : gmap (string * string * string) Z;
  state : gmap (string * string) bytes;
  local_blobs : list blob_row
}.

Definition set_identities x (s : LocalStore) : LocalStore :=
  {| store_key := store_key s; identities := x; contacts := contacts s; messages := messages s;
     prekeys := prekeys s; outbox := outbox s; cursors := cursors s; state := state s; local_blobs := local_blobs s |}.
Definition set_contacts x (s : LocalStore) : LocalStore :=
  {| store_key := store_key s; identities := identities s; contacts := x; messages := messages s;
     prekeys := prekeys s; outbox := outbox s; cursors := cursors s; state := state s; local_blobs := local_blobs s |}.
Definition set_messages x (s : LocalStore) : LocalStore :=
  {| store_key := store_key s; identities := identities s; contacts := contacts s; messages := x;
     prekeys := prekeys s; outbox := outbox s; cursors := cursors s; state := state s; local_blobs := local_blobs s |}.
Definition set_prekeys x (s : LocalStore) : LocalStore :=
  {| store_key := store_key s; identities := identities s; contacts := contacts s; messages := messages s;
     prekeys := x; outbox := outbox s; cursors := cursors s; state := state s; local_blobs := local_blobs s |}.
Definition set_outbox x (s : LocalStore) : LocalStore :=
  {| store_key := store_key s; identities := identities s; contacts := contacts s; messages := messages s;
     prekeys := prekeys s; outbox := x; cursors := cursors s; state := state s; local_blobs := local_blobs s |}.
Definition set_cursors x (s : LocalStore) : LocalStore :=
  {| store_key := store_key s; identities := identities s; contacts := contacts s; messages := messages s;
     prekeys := prekeys s; outbox := outbox s; cursors := x; state := state s; local_blobs := local_blobs s |}.
Definition set_state_table x (s : LocalStore) : LocalStore :=
  {| store_key := store_key s; identities := identities s; contacts := contacts s; messages := messages s;
     prekeys := prekeys s; outbox := outbox s; cursors := cursors s; state := x; local_blobs := local_blobs s |}.
Definition set_blobs x (s : LocalStore) : LocalStore :=
  {| store_key := store_key s; identities := identities s; contacts := contacts s; messages := messages s;
     prekeys := prekeys s; outbox := outbox s; cursors := cursors s; state := state s; local_blobs := x |}.

(** The dictionaries the methods take and return.  A field that may come from another
    device or a card unchecked is a JSON value. *)
Record contact := {
  c_id : string; c_identity : string; c_nickname : json; c_isign : bytes; c_idh : bytes;
  c_bundle : json; c_inbox : json; c_relays : json; c_session : json; c_verified : bool; c_created : Z
}.
Record message := {
  m_id : string; m_identity : string; m_contact : json; m_direction : json; m_type : json;
  m_body : json; m_remote : json; m_ts : Z; m_state : json; m_meta : json
}.
Record outbox_entry := {
  o_id : string; o_identity : string; o_contact : string; o_mailbox : json; o_relay : json;
  o_payload : json; o_seq : option Z; o_created : Z
}.

(** ** Table operations *)

(** [INSERT ... ON CONFLICT DO UPDATE]: the row that has the key is rewritten in
    place, or the new row is appended. *)
Fixpoint upsert {R} (same : R → bool) (update : R → R) (row : R) (l : list R) : list R :=
  match l with
  | [] => [row]
  | r :: l' => if same r then update r :: l' else r :: upsert same update row l'
  end.
(** [UPDATE ... WHERE] *)
Definition update_where {R} (P : R → bool) (f : R → R) (l : list R) : list R :=
  map (λ r, if P r then f r else r) l.

(** [ORDER BY]: a stable insertion sort. *)
Fixpoint insert_by {R} (le : R → R → bool) (x : R) (l : list R) : list R :=
  match l with
  | [] => [x]
  | y :: l' => if le x y then x :: l else y :: insert_by le x l'
  end.
Definition order_by {R} (le : R → R → bool) (l : list R) : list R := foldr (insert_by le) [] l.

Section store.
Context {C : Crypto}.

Definition derive_key_from_passphrase (passphrase : string) (salt : bytes) (iterations : Z) : res bytes :=
  pbkdf2_sha256 (bs passphrase) salt iterations.

(** [_write_key_file] and [_load_key_file], without the file. *)
Definition key_file (salt nonce key : bytes) (passphrase : string) : res dict :=
  if negb (String.eqb passphrase "") then
    let? wrapper := derive_key_from_passphrase passphrase salt PBKDF2_DEFAULT in
    let? (nonce, ciphertext) := Aead.encrypt nonce wrapper key [] in
    Ok [("salt", JStr (b64e salt)); ("iterations", JInt PBKDF2_DEFAULT);
        ("wrapped", JStr (b64e (nonce ++ ciphertext)))]%string
  else Ok [("key"%string, JStr (b64e key))].
Definition split (blob : bytes) : bytes * bytes := (take 12 blob, drop 12 blob).
Definition load_key_file (data : json) (passphrase : string) : res bytes :=
  let? wrapped := jget "wrapped" data in
  if truthy wrapped then
    raise_if String.eqb passphrase "" with ValueError ;;
    let? salt := (let? j := jitem "salt" data in b64d_json j) in
    let? iterations := (let? j := jitem "iterations" data in to_int j) in
    let? wrapper := derive_key_from_passphrase passphrase salt iterations in
    let? blob := (let? j := jitem "wrapped" data in b64d_json j) in
    let '(nonce, ciphertext) := split blob in
    Aead.decrypt wrapper nonce ciphertext []
  else (let? j := jitem "key" data in b64d_json j).

Definition new_store (key : bytes) : res LocalStore :=
  raise_if negb (blen key =? LOCAL_KEY_SIZE) with ValueError ;;
  Ok {| store_key := key; identities := []; contacts := []; messages := []; prekeys := ∅;
        outbox := []; cursors := ∅; state := ∅; local_blobs := [] |}.

Definition seal (key nonce : bytes) (value : json) : res bytes :=
  let? (nonce, ciphertext) := Aead.encrypt nonce key (dumps fmt_default value) [] in
  Ok (nonce ++ ciphertext).
Definition seal_opt (key nonce : bytes) (value : json) : res (option bytes) :=
  if bool_decide (value = JNull) then Ok None
  else let? b := seal key nonce value in Ok (Some b).
Definition open (key : bytes) (blob : option bytes) : res json :=
  match blob with
  | None => Ok JNull
  | Some blob =>
      let '(nonce, ciphertext) := split blob in
      let? plaintext := Aead.decrypt key nonce ciphertext [] in json_loads_bytes plaintext
  end.

(** ** Identities *)

Definition register_identity (identity_id : string) (label : json) (vault_path : string) (now : Z)
    : SE LocalStore unit :=
  do! s := se_get in
  do! label := se_lift (sql_text label) in
  se_put (set_identities
    (upsert (λ r, String.eqb (i_id r) identity_id)
       (λ r, {| i_id := i_id r; i_label := label; i_vault := vault_path; i_created := i_created r |})
       {| i_id := identity_id; i_label := label; i_vault := vault_path; i_created := now |}
       (identities s)) s).
Definition list_identities : SE LocalStore (list identity_row) :=
  do! s := se_get in se_ret (order_by (λ a b, i_created a <=? i_created b) (identities s)).

(** ** Contacts *)

Definition is_contact (identity_id contact_id : string) (r : contact_row) : bool :=
  String.eqb (cr_identity r) identity_id && String.eqb (cr_id r) contact_id.
Definition with_session (b : option bytes) (r : contact_row) : contact_row :=
  {| cr_identity := cr_identity r; cr_id := cr_id r; cr_nickname := cr_nickname r; cr_isign := cr_isign r;
     cr_idh := cr_idh r; cr_bundle := cr_bundle r; cr_inbox := cr_inbox r; cr_relays := cr_relays r;
     cr_session := b; cr_verified := cr_verified r; cr_created := cr_created r |}.
(** The columns an upsert overwrites: all but the key and the creation time. *)
Definition excluded (new r : contact_row) : contact_row :=
  {| cr_identity := cr_identity r; cr_id := cr_id r; cr_nickname := cr_nickname new; cr_isign := cr_isign new;
     cr_idh := cr_idh new; cr_bundle := cr_bundle new; cr_inbox := cr_inbox new; cr_relays := cr_relays new;
     cr_session := cr_session new; cr_verified := cr_verified new; cr_created := cr_created r |}.

Definition contact_to_row (key nonce : bytes) (now : Z) (identity_id : string) (c : contact) : res contact_row :=
  let? session := seal_opt key nonce (c_session c) in
  let? nickname := sql_text (c_nickname c) in
  let? bundle := sql_text (c_bundle c) in
  let? created := sql_int (if c_created c =? 0 then now else c_created c) in
  Ok {| cr_identity := identity_id; cr_id := c_id c; cr_nickname := nickname; cr_isign := c_isign c;
        cr_idh := c_idh c; cr_bundle := bundle; cr_inbox := to_str (dumps fmt_default (c_inbox c));
        cr_relays := to_str (dumps fmt_default (jor (c_relays c) (JList [])));
        cr_session := session; cr_verified := c_verified c; cr_created := created |}.
Definition upsert_contact (nonce : bytes) (now : Z) (identity_id : string) (c : contact) : SE LocalStore unit :=
  do! s := se_get in
  do! row := se_lift (contact_to_row (store_key s) nonce now identity_id c) in
  se_put (set_contacts (upsert (is_contact identity_id (c_id c)) (excluded row) row (contacts s)) s).

Definition contact_from_row (key : bytes) (r : contact_row) : res contact :=
  let? inbox := json_loads (cr_inbox r) in
  let? relays := json_loads (cr_relays r) in
  let? session := open key (cr_session r) in
  Ok {| c_id := cr_id r; c_identity := cr_identity r; c_nickname := text_json (cr_nickname r);
        c_isign := cr_isign r; c_idh := cr_idh r; c_bundle := text_json (cr_bundle r); c_inbox := inbox;
        c_relays := relays; c_session := session; c_verified := cr_verified r; c_created := cr_created r |}.
Definition get_contact (identity_id contact_id : string) : SE LocalStore (option contact) :=
  do! s := se_get in
  match List.find (is_contact identity_id contact_id) (contacts s) with
  | None => se_ret None
  | Some r => do! c := se_lift (contact_from_row (store_key s) r) in se_ret (Some c)
  end.
Definition list_contacts (identity_id : string) : SE LocalStore (list contact) :=
  do! s := se_get in
  se_lift (mapM (contact_from_row (store_key s))
    (order_by (λ a b, cr_created a <=? cr_created b)
       (List.filter (λ r, String.eqb (cr_identity r) identity_id) (contacts s)))).
Definition delete_contact (identity_id contact_id : string) : SE LocalStore unit :=
  do! s := se_get in
  se_put (set_contacts (List.filter (λ r, negb (is_contact identity_id contact_id r)) (contacts s)) s).
Definition set_contact_session (nonce : bytes) (identity_id contact_id : string) (session : json)
    : SE LocalStore unit :=
  do! s := se_get in
  do! b := se_lift (seal_opt (store_key s) nonce session) in
  se_put (set_contacts (update_where (is_contact identity_id contact_id) (with_session b) (contacts s)) s).

(** ** Messages *)

Definition message_to_row (key n1 n2 : bytes) (m : message) : res message_row :=
  let? body := seal_opt key n1 (m_body m) in
  let? meta := seal_opt key n2 (m_meta m) in
  let? contact := sql_text (m_contact m) in
  let? direction := sql_text (m_direction m) in
  let? type := sql_text (m_type m) in
  let? remote := sql_text (m_remote m) in
  let? ts := sql_int (m_ts m) in
  let? state := sql_text (m_state m) in
  let? contact := of_option IntegrityError contact in
  let? direction := of_option IntegrityError direction in
  let? type := of_option IntegrityError type in
  Ok {| mr_id := m_id m; mr_identity := m_identity m; mr_contact := contact; mr_direction := direction;
        mr_type := type; mr_body := body; mr_remote := remote; mr_ts := ts; mr_state := state; mr_meta := meta |}.
Definition is_message (id : string) (r : message_row) : bool := String.eqb (mr_id r) id.
(** The columns an existing message takes from the new one. *)
Definition message_excluded (new r : message_row) : message_row :=
  {| mr_id := mr_id r; mr_identity := mr_identity r; mr_contact := mr_contact r;
     mr_direction := mr_direction r; mr_type := mr_type r; mr_body := mr_body new;
     mr_remote := mr_remote new; mr_ts := mr_ts r; mr_state := mr_state new; mr_meta := mr_meta new |}.
Definition add_message (n1 n2 : bytes) (m : message) : SE LocalStore unit :=
  do! s := se_get in
  do! row := se_lift (message_to_row (store_key s) n1 n2 m) in
  se_put (set_messages (upsert (is_message (m_id m)) (message_excluded row) row (messages s)) s).

Definition message_from_row (key : bytes) (r : message_row) : res message :=
  let? body := open key (mr_body r) in
  let? meta := open key (mr_meta r) in
  Ok {| m_id := mr_id r; m_identity := mr_identity r; m_contact := JStr (mr_contact r);
        m_direction := JStr (mr_direction r); m_type := JStr (mr_type r); m_body := body;
        m_remote := text_json (mr_remote r); m_ts := mr_ts r; m_state := text_json (mr_state r); m_meta := meta |}.
Definition one_message (P : message_row → bool) : SE LocalStore (option message) :=
  do! s := se_get in
  match List.find P (messages s) with
  | None => se_ret None
  | Some r => do! m := se_lift (message_from_row (store_key s) r) in se_ret (Some m)
  end.
(** The id may come from a peer's envelope. *)
Definition get_message (message_id : json) : SE LocalStore (option message) :=
  do! id := se_lift (sql_text message_id) in
  one_message (λ r, sql_eq (Some (mr_id r)) id).
Definition ts_le (a b : message_row) : bool := mr_ts a <=? mr_ts b.
(** [ORDER BY ts, id] *)
Definition ts_id_le (a b : message_row) : bool :=
  (mr_ts a <? mr_ts b) || ((mr_ts a =? mr_ts b) && bool_decide (String.le (mr_id a) (mr_id b))).
Definition list_messages (identity_id contact_id : string) : SE LocalStore (list message) :=
  do! s := se_get in
  se_lift (mapM (message_from_row (store_key s)) (order_by ts_le
    (List.filter (λ r, String.eqb (mr_identity r) identity_id && String.eqb (mr_contact r) contact_id)
       (messages s)))).
Definition list_all_messages (identity_id : string) : SE LocalStore (list message) :=
  do! s := se_get in
  se_lift (mapM (message_from_row (store_key s)) (order_by ts_id_le
    (List.filter (λ r, String.eqb (mr_identity r) identity_id) (messages s)))).
(** [direction] is empty for [None]. *)
Definition find_by_remote_id (identity_id : string) (remote_id : json) (direction : string)
    : SE LocalStore (option message) :=
  do! remote := se_lift (sql_text remote_id) in
  one_message (λ r, String.eqb (mr_identity r) identity_id && sql_eq (mr_remote r) remote &&
                    (String.eqb direction "" || String.eqb (mr_direction r) direction)).

(** [update_message(id, **fields)], for the columns the program updates. *)
Definition set_field (key nonce : bytes) (name : string) (value : json) : res (message_row → message_row) :=
  if String.eqb name "body" then
    let? b := seal_opt key nonce value in
    Ok (λ r, {| mr_id := mr_id r; mr_identity := mr_identity r; mr_contact := mr_contact r;
                mr_direction := mr_direction r; mr_type := mr_type r; mr_body := b; mr_remote := mr_remote r;
                mr_ts := mr_ts r; mr_state := mr_state r; mr_meta := mr_meta r |})
  else if String.eqb name "meta" then
    let? b := seal_opt key nonce value in
    Ok (λ r, {| mr_id := mr_id r; mr_identity := mr_identity r; mr_contact := mr_contact r;
                mr_direction := mr_direction r; mr_type := mr_type r; mr_body := mr_body r; mr_remote := mr_remote r;
                mr_ts := mr_ts r; mr_state := mr_state r; mr_meta := b |})
  else if String.eqb name "state" then
    let? t := sql_text value in
    Ok (λ r, {| mr_id := mr_id r; mr_identity := mr_identity r; mr_contact := mr_contact r;
                mr_direction := mr_direction r; mr_type := mr_type r; mr_body := mr_body r; mr_remote := mr_remote r;
                mr_ts := mr_ts r; mr_state := t; mr_meta := mr_meta r |})
  else if String.eqb name "remote_id" then
    let? t := sql_text value in
    Ok (λ r, {| mr_id := mr_id r; mr_identity := mr_identity r; mr_contact := mr_contact r;
                mr_direction := mr_direction r; mr_type := mr_type r; mr_body := mr_body r; mr_remote := t;
                mr_ts := mr_ts r; mr_state := mr_state r; mr_meta := mr_meta r |})
  else Err Unmodelled.
Definition update_message (nonce : nat → bytes) (message_id : json) (fields : list (string * json))
    : SE LocalStore unit :=
  do! s := se_get in
  match fields with
  | [] => se_ret tt
  | _ =>
      do! fs := se_lift (mapM (λ p : nat * (string * json), set_field (store_key s) (nonce p.1) p.2.1 p.2.2)
                           (imap pair fields)) in
      do! id := se_lift (sql_text message_id) in
      se_put (set_messages (update_where (λ r, sql_eq (Some (mr_id r)) id)
                (λ r, fold_left (λ r f, f r) fs r) (messages s)) s)
  end.

(** ** Prekeys, cursors, state *)

Definition save_prekeys (nonce : bytes) (identity_id : string) (data : json) : SE LocalStore unit :=
  do! s := se_get in
  do! b := se_lift (seal (store_key s) nonce data) in
  se_put (set_prekeys (<[identity_id := b]> (prekeys s)) s).
Definition load_prekeys (identity_id : string) : SE LocalStore json :=
  do! s := se_get in se_lift (open (store_key s) (prekeys s !! identity_id)).

Definition get_cursors (identity_id mailbox_id : string) : SE LocalStore (list (string * Z)) :=
  do! s := se_get in
  se_ret (map (λ kv : string * string * string * Z, (kv.1.2, kv.2))
    (List.filter (λ kv : string * string * string * Z,
       String.eqb kv.1.1.1 identity_id && String.eqb kv.1.1.2 mailbox_id) (map_to_list (cursors s)))).
Definition set_cursor (identity_id mailbox_id relay : string) (seq : Z) : SE LocalStore unit :=
  do! s := se_get in
  do! seq := se_lift (sql_int seq) in
  let k := (identity_id, mailbox_id, relay) in
  let seq := match cursors s !! k with Some old => Z.max old seq | None => seq end in
  se_put (set_cursors (<[k := seq]> (cursors s)) s).

Definition set_state (nonce : bytes) (identity_id key : string) (value : json) : SE LocalStore unit :=
  do! s := se_get in
  do! b := se_lift (seal (store_key s) nonce value) in
  se_put (set_state_table (<[(identity_id, key) := b]> (state s)) s).
(** The default is always [None] here. *)
Definition get_state (identity_id key : string) : SE LocalStore json :=
  do! s := se_get in se_lift (open (store_key s) (state s !! (identity_id, key))).

(** ** The outbox *)

Definition outbox_add (nonce : bytes) (now : Z) (e : outbox_entry) : SE LocalStore unit :=
  do! s := se_get in
  do! payload := se_lift (seal (store_key s) nonce (o_payload e)) in
  do! mailbox := se_lift (sql_text (o_mailbox e)) in
  do! relay := se_lift (sql_text (o_relay e)) in
  do! seq := se_lift match o_seq e with
                     | Some n => let? n := sql_int n in Ok (Some n)
                     | None => Ok None
                     end in
  do! created := se_lift (sql_int (if o_created e =? 0 then now else o_created e)) in
  do! mailbox := se_lift (of_option IntegrityError mailbox) in
  do! _ := se_check (existsb (λ r, String.eqb (or_id r) (o_id e)) (outbox s)) IntegrityError in
  se_put (set_outbox (outbox s ++
    [{| or_id := o_id e; or_identity := o_identity e; or_contact := o_contact e; or_mailbox := mailbox;
        or_relay := relay; or_payload := payload; or_seq := seq; or_created := created |}]) s).
Definition outbox_from_row (key : bytes) (r : outbox_row) : res outbox_entry :=
  let? payload := open key (Some (or_payload r)) in
  Ok {| o_id := or_id r; o_identity := or_identity r; o_contact := or_contact r;
        o_mailbox := JStr (or_mailbox r); o_relay := text_json (or_relay r); o_payload := payload;
        o_seq := or_seq r; o_created := or_created r |}.
(** [contact_id] is empty for [None]. *)
Definition outbox_list (identity_id contact_id : string) : SE LocalStore (list outbox_entry) :=
  do! s := se_get in
  se_lift (mapM (outbox_from_row (store_key s)) (order_by (λ a b, or_created a <=? or_created b)
    (List.filter (λ r, String.eqb (or_identity r) identity_id &&
                       (String.eqb contact_id "" || String.eqb (or_contact r) contact_id)) (outbox s)))).
Definition outbox_remove (entry_id : string) : SE LocalStore unit :=
  do! s := se_get in
  se_put (set_outbox (List.filter (λ r, negb (String.eqb (or_id r) entry_id)) (outbox s)) s).
(** The rows a message id clears; the id may come from a peer's envelope. *)
Definition cleared_by (id : option string) (pattern : string) (r : outbox_row) : res bool :=
  let? l := sql_like (or_id r) pattern in Ok (sql_eq (Some (or_id r)) id || l).
Fixpoint filterM {R} (P : R → res bool) (l : list R) : res (list R) :=
  match l with
  | [] => Ok []
  | r :: l' => let? b := P r in let? k := filterM P l' in Ok (if b then r :: k else k)
  end.
Definition outbox_remove_for_message (message_id : json) : SE LocalStore unit :=
  do! s := se_get in
  do! id := se_lift (sql_text message_id) in
  let pattern := to_pystr message_id +:+ ":%" in
  do! kept := se_lift (filterM (λ r, let? b := cleared_by id pattern r in Ok (negb b)) (outbox s)) in
  se_put (set_outbox kept s).
Definition outbox_mark_sent (entry_id : string) : SE LocalStore unit :=
  do! s := se_get in
  se_put (set_outbox (update_where (λ r, String.eqb (or_id r) entry_id)
    (λ r, {| or_id := or_id r; or_identity := or_identity r; or_contact := or_contact r; or_mailbox := or_mailbox r;
             or_relay := or_relay r; or_payload := or_payload r; or_seq := Some 1; or_created := or_created r |})
    (outbox s)) s).
Definition outbox_count (identity_id : string) : SE LocalStore Z :=
  do! s := se_get in
  se_ret (Z.of_nat (length (List.filter (λ r, String.eqb (or_identity r) identity_id) (outbox s)))).

(** ** The attachment cache *)

Definition is_blob (chunk_id : string) (r : blob_row) : bool := String.eqb (br_id r) chunk_id.
Definition blob_total (l : list blob_row) : Z := zsum br_size l.
Definition oldest (l : list blob_row) : option blob_row :=
  head (order_by (λ a b, br_created a <=? br_created b) l).
(** The [while total > cap] loop; every round removes a row. *)
Fixpoint prune_loop (fuel : nat) (cap total dropped : Z) (l : list blob_row) : Z * list blob_row :=
  match fuel with
  | O => (dropped, l)
  | S f =>
      if cap <? total then
        match oldest l with
        | None => (dropped, l)
        | Some r => prune_loop f cap (total - br_size r) (dropped + 1)
                      (List.filter (λ x, negb (is_blob (br_id r) x)) l)
        end
      else (dropped, l)
  end.
Definition prune_local_blobs (cap : Z) : SE LocalStore Z :=
  do! s := se_get in
  let '(dropped, l) := prune_loop (S (length (local_blobs s))) cap (blob_total (local_blobs s)) 0 (local_blobs s) in
  do! _ := se_put (set_blobs l s) in se_ret dropped.
Definition has_local_blob (chunk_id : string) : SE LocalStore bool :=
  do! s := se_get in se_ret (existsb (is_blob chunk_id) (local_blobs s)).
Definition put_local_blob (now : Z) (chunk_id : string) (data : bytes) : SE LocalStore unit :=
  do! s := se_get in
  do! _ := (if existsb (is_blob chunk_id) (local_blobs s) then se_ret tt
            else se_put (set_blobs (local_blobs s ++
                   [{| br_id := chunk_id; br_data := data; br_size := blen data; br_created := now |}]) s)) in
  do! _ := prune_local_blobs LOCAL_BLOB_CAP_BYTES in se_ret tt.
Definition get_local_blob (chunk_id : string) : SE LocalStore (option bytes) :=
  do! s := se_get in se_ret (br_data <$> List.find (is_blob chunk_id) (local_blobs s)).
Definition local_blob_count : SE LocalStore Z :=
  do! s := se_get in se_ret (Z.of_nat (length (local_blobs s))).
Definition local_blob_bytes : SE LocalStore Z :=
  do! s := se_get in se_ret (blob_total (local_blobs s)).
End store.
