(* ===== verification/StoreProps.v ===== *)
(** * Properties of the client's store

    Sealed values read back, the table invariant, and the bound on the attachment
    cache. *)

From S2P Require Import Prelude PyStr Json JsonProps Primitives Dict Encoding Sql Store.
From S2P Require Aead.

(** ** Tables as lists with a key *)

Section tables.
Context {R : Type} (same : R → bool) (update : R → R).

Lemma upsert_new row l : existsb same l = false → upsert same update row l = l ++ [row].
Proof using.
  induction l as [|r l IH]; [done|]. cbn [existsb upsert]. intros [H1 H2]%orb_false_iff. rewrite H1. cbn [app]. by rewrite IH.
Qed.
Lemma upsert_keys {K} (key : R → K) row l :
  (∀ r, key (update r) = key r) →
  map key (upsert same update row l) = if existsb same l then map key l else map key l ++ [key row].
Proof using.
  intros Hu. induction l as [|r l IH]; [done|]. cbn [existsb upsert map]. destruct (same r); cbn [orb map].
  - by rewrite Hu.
  - rewrite IH. by destruct (existsb same l).
Qed.
Lemma upsert_find row l :
  same row = true → (∀ r, same r = true → same (update r) = true) →
  List.find same (upsert same update row l)
  = Some (match List.find same l with Some r => update r | None => row end).
Proof using.
  intros Hrow Hu. induction l as [|r l IH]; cbn [upsert List.find]; [by rewrite Hrow|].
  destruct (same r) eqn:E; cbn [List.find]; [by rewrite Hu|]. by rewrite E.
Qed.
Lemma upsert_find_other (other : R → bool) row l :
  other row = false → (∀ r, same r = true → other r = false) →
  (∀ r, same r = true → other (update r) = false) →
  List.find other (upsert same update row l) = List.find other l.
Proof using.
  intros Hrow Hs Hu. induction l as [|r l IH]; cbn [upsert List.find]; [by rewrite Hrow|].
  destruct (same r) eqn:E; cbn [List.find]; [by rewrite (Hu r E), (Hs r E)|]. by rewrite IH.
Qed.
Lemma upsert_forall (P : R → Prop) row l :
  P row → (∀ r, P r → P (update r)) → Forall P l → Forall P (upsert same update row l).
Proof using.
  intros Hrow Hu. induction 1 as [|r l Hr Hl IH]; cbn [upsert]; [by repeat constructor|].
  destruct (same r); constructor; auto.
Qed.
End tables.

Lemma existsb_key {R K} `{EqDecision K} (key : R → K) (same : R → bool) k l :
  (∀ r, same r = true ↔ key r = k) → existsb same l = false ↔ k ∉ map key l.
Proof.
  intros Hs. induction l as [|r l IH]; cbn [existsb map].
  - split; [intros _; apply not_elem_of_nil|done].
  - rewrite orb_false_iff, IH, not_elem_of_cons, <-not_true_iff_false, Hs. naive_solver.
Qed.

Lemma upsert_nodup {R K} `{EqDecision K} (key : R → K) (same : R → bool) update row l :
  (∀ r, same r = true ↔ key r = key row) → (∀ r, key (update r) = key r) →
  NoDup (map key l) → NoDup (map key (upsert same update row l)).
Proof.
  intros Hs Hu Hnd. rewrite upsert_keys by done. destruct (existsb same l) eqn:E; [done|].
  apply (existsb_key key same (key row)) in E; [|done]. apply NoDup_app. split_and!; [done| |by apply NoDup_singleton].
  intros k Hk ->%list_elem_of_singleton. done.
Qed.

Lemma update_where_keys {R K} (key : R → K) P f (l : list R) :
  (∀ r, key (f r) = key r) → map key (update_where P f l) = map key l.
Proof. intros Hf. unfold update_where. rewrite map_map. apply map_ext. intros r. by destruct (P r). Qed.

Lemma filter_nodup {R K} (key : R → K) P (l : list R) : NoDup (map key l) → NoDup (map key (List.filter P l)).
Proof.
  induction l as [|r l IH]; [done|]. cbn [map List.filter]. intros [Hr Hnd]%NoDup_cons.
  destruct (P r); cbn [map]; [|by apply IH]. apply NoDup_cons. split; [|by apply IH].
  intros (x & E & Hx)%list_elem_of_fmap. apply Hr, list_elem_of_fmap. exists x. split; [done|].
  rewrite list_elem_of_In in *. by apply filter_In in Hx as [? _].
Qed.

Lemma filterM_sublist {R} (P : R → res bool) l k : filterM P l = Ok k → k `sublist_of` l.
Proof.
  revert k. induction l as [|r l IH]; intros k E; cbn [filterM] in E; [by injection E as <-|].
  apply res_bind_Ok in E as (b & _ & E). apply res_bind_Ok in E as (k' & Ek & E). injection E as <-.
  destruct b; [constructor|apply sublist_cons]; auto.
Qed.

(** ** Order *)

Lemma insert_by_perm {R} le (x : R) l : insert_by le x l ≡ₚ x :: l.
Proof.
  induction l as [|y l IH]; [done|]. cbn [insert_by]. destruct (le x y); [done|]. rewrite IH. apply perm_swap.
Qed.
Lemma order_by_perm {R} le (l : list R) : order_by le l ≡ₚ l.
Proof. induction l as [|x l IH]; [done|]. cbn [order_by foldr]. unfold order_by in IH. by rewrite insert_by_perm, IH. Qed.
Lemma insert_by_sorted {R} (f : R → Z) x l :
  StronglySorted (λ a b, f a ≤ f b) l → StronglySorted (λ a b, f a ≤ f b) (insert_by (λ a b, f a <=? f b) x l).
Proof.
  induction 1 as [|y l Hs IH Hy]; cbn [insert_by]; [by repeat constructor|].
  destruct (Z.leb_spec (f x) (f y)).
  - constructor; [by constructor|]. constructor; [done|]. eapply List.Forall_impl; [|exact Hy]. cbn. lia.
  - constructor; [done|]. apply Forall_forall. intros z Hz. rewrite insert_by_perm in Hz.
    apply elem_of_cons in Hz as [->|Hz]; [lia|]. rewrite List.Forall_forall in Hy. apply Hy. by apply list_elem_of_In.
Qed.
Lemma order_by_sorted {R} (f : R → Z) l : StronglySorted (λ a b, f a ≤ f b) (order_by (λ a b, f a <=? f b) l).
Proof. induction l as [|x l IH]; [constructor|]. by apply insert_by_sorted. Qed.

(** ** Sealed values *)

Section sealed.
Context {C : Crypto} {L : CryptoLaws C}.

Lemma seal_open key nonce v :
  length key = 32%nat → length nonce = 12%nat → wf_json utf8_str v →
  ∃ b, seal key nonce v = Ok b ∧ open key (Some b) = Ok v.
Proof using L.
  intros Hk Hn Hv. unfold seal, Aead.encrypt, blen. rewrite Hk. eexists. split; [reflexivity|].
  unfold open, split. rewrite take_app_length', drop_app_length' by done.
  rewrite (proj2 (Aead.decrypt_iff _ _ _ _ (dumps fmt_default v)))
    by (unfold Aead.encrypt, blen; rewrite Hk; done).
  cbn [res_bind]. unfold json_loads_bytes, decode_utf8, dumps.
  rewrite (utf8_dumps _ utf8_str utf8_str) by eauto using fmt_default_ok, esc_utf8_default. cbn [res_bind].
  pose proof (default_loads v Hv) as E. unfold dumps in E. by rewrite E, canon_false.
Qed.
Lemma seal_opt_open key nonce v :
  length key = 32%nat → length nonce = 12%nat → wf_json utf8_str v →
  ∃ b, seal_opt key nonce v = Ok b ∧ open key b = Ok v.
Proof using L.
  intros Hk Hn Hv. unfold seal_opt. case_bool_decide as E; [subst; by eexists|].
  destruct (seal_open key nonce v Hk Hn Hv) as (b & -> & Hb). by eexists.
Qed.
End sealed.

(** ** The table invariant *)

Definition contact_key (r : contact_row) : string * string := (cr_identity r, cr_id r).
Definition wf_blob (r : blob_row) : Prop := br_size r = blen (br_data r).
Record wf_store (s : LocalStore) : Prop := {
  ws_key : length (store_key s) = 32%nat;
  ws_identities : NoDup (map i_id (identities s));
  ws_contacts : NoDup (map contact_key (contacts s));
  ws_messages : NoDup (map mr_id (messages s));
  ws_outbox : NoDup (map or_id (outbox s));
  ws_blobs : NoDup (map br_id (local_blobs s));
  ws_sizes : Forall wf_blob (local_blobs s)
}.

(** The methods that write. *)
Inductive store_op :=
| RegisterIdentity (id : string) (label : json) (vault : string) (now : Z)
| UpsertContact (nonce : bytes) (now : Z) (id : string) (c : contact)
| DeleteContact (id contact_id : string)
| SetContactSession (nonce : bytes) (id contact_id : string) (session : json)
| AddMessage (n1 n2 : bytes) (m : message)
| UpdateMessage (nonce : nat → bytes) (id : json) (fields : list (string * json))
| SavePrekeys (nonce : bytes) (id : string) (data : json)
| OutboxAdd (nonce : bytes) (now : Z) (e : outbox_entry)
| OutboxRemove (id : string)
| OutboxRemoveForMessage (id : json)
| OutboxMarkSent (id : string)
| PutLocalBlob (now : Z) (chunk_id : string) (data : bytes)
| PruneLocalBlobs (cap : Z)
| SetCursor (id mailbox relay : string) (seq : Z)
| SetState (nonce : bytes) (id key : string) (value : json).

Definition run_op {C : Crypto} (op : store_op) (s : LocalStore) : LocalStore :=
  match op with
  | RegisterIdentity id label vault now => (register_identity id label vault now s).2
  | UpsertContact nonce now id c => (upsert_contact nonce now id c s).2
  | DeleteContact id c => (delete_contact id c s).2
  | SetContactSession nonce id c v => (set_contact_session nonce id c v s).2
  | AddMessage n1 n2 m => (add_message n1 n2 m s).2
  | UpdateMessage nonce id fields => (update_message nonce id fields s).2
  | SavePrekeys nonce id data => (save_prekeys nonce id data s).2
  | OutboxAdd nonce now e => (outbox_add nonce now e s).2
  | OutboxRemove id => (outbox_remove id s).2
  | OutboxRemoveForMessage id => (outbox_remove_for_message id s).2
  | OutboxMarkSent id => (outbox_mark_sent id s).2
  | PutLocalBlob now id data => (put_local_blob now id data s).2
  | PruneLocalBlobs cap => (prune_local_blobs cap s).2
  | SetCursor id mailbox relay seq => (set_cursor id mailbox relay seq s).2
  | SetState nonce id key value => (set_state nonce id key value s).2
  end.

(** [se_steps]: split a run into its steps; a failing step leaves the store as it was. *)
Lemma se_lift_snd {S A B} (m : res A) (f : A → SE S B) (P : S → Prop) s :
  P s → (∀ a, m = Ok a → P (f a s).2) → P (se_bind (se_lift m) f s).2.
Proof. unfold se_bind, se_lift. destruct m; auto. Qed.
Lemma se_check_snd {S B} b e (f : unit → SE S B) (P : S → Prop) s :
  P s → (b = false → P (f tt s).2) → P (se_bind (se_check b e) f s).2.
Proof. unfold se_bind, se_check. destruct b; cbn; auto. Qed.
Ltac se_steps :=
  repeat first
    [ apply se_lift_snd; [|intros ? ?]
    | apply se_check_snd; [|intros ?]
    | match goal with |- context [se_bind se_get ?f ?s] => change (se_bind se_get f s) with (f s s); cbv beta end ].

Lemma prune_filter cap fuel total dropped l :
  ∃ P, (prune_loop fuel cap total dropped l).2 = List.filter P l.
Proof.
  revert total dropped l. induction fuel as [|f IH]; intros total dropped l; cbn [prune_loop].
  - exists (λ _, true). cbn [snd]. by rewrite filter_true.
  - destruct (cap <? total); [|exists (λ _, true); cbn [snd]; by rewrite filter_true].
    destruct (oldest l) as [r|]; [|exists (λ _, true); cbn [snd]; by rewrite filter_true].
    destruct (IH (total - br_size r) (dropped + 1) (List.filter (λ x, negb (is_blob (br_id r) x)) l)) as [P HP].
    rewrite HP, filter_filter_and. by eexists.
Qed.

Lemma wf_set_blobs s l :
  wf_store s → NoDup (map br_id l) → Forall wf_blob l → wf_store (set_blobs l s).
Proof. intros [] ? ?. by split. Qed.
Lemma wf_filter_blobs s l P :
  wf_store s → NoDup (map br_id l) → Forall wf_blob l → wf_store (set_blobs (List.filter P l) s).
Proof.
  intros Hs Hnd Hf. apply wf_set_blobs; [done|by apply filter_nodup|].
  rewrite List.Forall_forall in *. intros x [Hx _]%filter_In. auto.
Qed.
Lemma prune_wf cap s : wf_store s → wf_store (prune_local_blobs cap s).2.
Proof.
  intros Hs. unfold prune_local_blobs. unfold se_bind at 1, se_get.
  destruct (prune_filter cap (S (length (local_blobs s))) (blob_total (local_blobs s)) 0 (local_blobs s)) as [P HP].
  destruct (prune_loop _ _ _ _ _) as [n l]. cbn [snd] in HP. subst l. cbn. apply wf_filter_blobs; [done|apply Hs..].
Qed.

Lemma wf_set_identities s l : wf_store s → NoDup (map i_id l) → wf_store (set_identities l s).
Proof. intros [] ?. by split. Qed.
Lemma wf_set_contacts s l : wf_store s → NoDup (map contact_key l) → wf_store (set_contacts l s).
Proof. intros [] ?. by split. Qed.
Lemma wf_set_messages s l : wf_store s → NoDup (map mr_id l) → wf_store (set_messages l s).
Proof. intros [] ?. by split. Qed.
Lemma wf_set_outbox s l : wf_store s → NoDup (map or_id l) → wf_store (set_outbox l s).
Proof. intros [] ?. by split. Qed.
Lemma wf_set_prekeys s m : wf_store s → wf_store (set_prekeys m s).
Proof. intros []. by split. Qed.
Lemma wf_set_cursors s m : wf_store s → wf_store (set_cursors m s).
Proof. intros []. by split. Qed.
Lemma wf_set_state s m : wf_store s → wf_store (set_state_table m s).
Proof. intros []. by split. Qed.

Lemma is_contact_key id c r : is_contact id c r = true ↔ contact_key r = (id, c).
Proof. unfold is_contact, contact_key. rewrite andb_true_iff, !String.eqb_eq. naive_solver. Qed.

Lemma set_field_keeps {C : Crypto} key nonce name value f r :
  set_field key nonce name value = Ok f → mr_id (f r) = mr_id r.
Proof. unfold set_field. intros E. repeat case_match; try done; rinv E; by subst. Qed.
Lemma set_fields_keep {C : Crypto} key (nonce : nat → bytes) l fs r :
  mapM (λ p : nat * (string * json), set_field key (nonce p.1) p.2.1 p.2.2) l = Ok fs →
  mr_id (fold_left (λ r f, f r) fs r) = mr_id r.
Proof.
  revert fs r. induction l as [|p l IH]; intros fs r E; cbn [mapM] in E; [by injection E as <-|].
  apply res_bind_Ok in E as (f & Ef & E). apply res_bind_Ok in E as (fs' & Efs & E). injection E as <-.
  cbn [fold_left]. rewrite (IH _ _ Efs). by eapply set_field_keeps.
Qed.

Lemma contact_row_key {C : Crypto} key nonce now id c r :
  contact_to_row key nonce now id c = Ok r → contact_key r = (id, c_id c).
Proof. unfold contact_to_row. intros E. rinv E. by subst. Qed.
Lemma message_row_id {C : Crypto} key n1 n2 m r : message_to_row key n1 n2 m = Ok r → mr_id r = m_id m.
Proof. unfold message_to_row. intros E. rinv E. by subst. Qed.

Lemma snoc_nodup {R K} `{EqDecision K} (key : R → K) (same : R → bool) r l :
  (∀ x, same x = true ↔ key x = key r) → existsb same l = false →
  NoDup (map key l) → NoDup (map key (l ++ [r])).
Proof.
  intros Hs E Hnd. apply (existsb_key key same (key r)) in E; [|done]. rewrite map_app. apply NoDup_app.
  split_and!; [done| |by apply NoDup_singleton]. intros k Hk ->%list_elem_of_singleton. done.
Qed.

Lemma wf_put_blob now id data s : wf_store s → wf_store (put_local_blob now id data s).2.
Proof.
  intros Hs. unfold put_local_blob. unfold se_bind at 1, se_get. unfold se_bind at 1.
  assert (∀ s', wf_store s' → wf_store ((do! _ := prune_local_blobs LOCAL_BLOB_CAP_BYTES in se_ret tt) s').2) as Hp.
  { intros s' Hs'. pose proof (prune_wf LOCAL_BLOB_CAP_BYTES s' Hs') as H. unfold se_bind.
    by destruct (prune_local_blobs _ s') as [[]]. }
  destruct (existsb (is_blob id) (local_blobs s)) eqn:E; cbn [se_ret se_put]; apply Hp; [done|].
  apply wf_set_blobs; [done| |apply Forall_app; split; [apply Hs|by repeat constructor]].
  apply (snoc_nodup br_id (is_blob id)); [|done|apply Hs]. intros x. apply String.eqb_eq.
Qed.

Lemma run_op_wf {C : Crypto} op s : wf_store s → wf_store (run_op op s).
Proof.
  intros Hs. destruct op; cbn [run_op].
  - unfold register_identity. se_steps; [done|]. apply wf_set_identities; [done|].
    apply (upsert_nodup i_id); [|done|apply Hs]. intros r. apply String.eqb_eq.
  - unfold upsert_contact. se_steps; [done|]. apply wf_set_contacts; [done|].
    apply (upsert_nodup contact_key); [|done|apply Hs]. intros r.
    match goal with H : contact_to_row _ _ _ _ _ = Ok _ |- _ => rewrite (contact_row_key _ _ _ _ _ _ H) end.
    apply is_contact_key.
  - apply wf_set_contacts; [done|]. apply filter_nodup, Hs.
  - unfold set_contact_session. se_steps; [done|]. apply wf_set_contacts; [done|].
    rewrite update_where_keys; [apply Hs|done].
  - unfold add_message. se_steps; [done|]. apply wf_set_messages; [done|].
    apply (upsert_nodup mr_id); [|done|apply Hs]. intros r. 
    match goal with H : message_to_row _ _ _ _ = Ok _ |- _ => rewrite (message_row_id _ _ _ _ _ H) end.
    apply String.eqb_eq.
  - unfold update_message. se_steps. destruct fields as [|f fields]; [done|]. se_steps; try done.
    apply wf_set_messages; [done|]. rewrite update_where_keys; [apply Hs|]. intros r. by eapply set_fields_keep.
  - unfold save_prekeys. se_steps; [done|]. by apply wf_set_prekeys.
  - unfold outbox_add. se_steps; try done. apply wf_set_outbox; [done|].
    apply (snoc_nodup or_id (λ r, String.eqb (or_id r) (o_id e))); [|done|apply Hs]. intros r. apply String.eqb_eq.
  - apply wf_set_outbox; [done|]. apply filter_nodup, Hs.
  - unfold outbox_remove_for_message. se_steps; try done. apply wf_set_outbox; [done|].
    eapply sublist_NoDup; [apply (ws_outbox _ Hs)|]. apply (fmap_sublist or_id). by eapply filterM_sublist.
  - apply wf_set_outbox; [done|]. rewrite update_where_keys; [apply Hs|done].
  - by apply wf_put_blob.
  - by apply prune_wf.
  - unfold set_cursor. se_steps; [done|]. by apply wf_set_cursors.
  - unfold set_state. se_steps; [done|]. by apply wf_set_state.
Qed.

(** Nothing but [set_cursor] moves a cursor, and it only moves it forward. *)
Definition forward (s s' : LocalStore) : Prop :=
  store_key s' = store_key s ∧
  ∀ k n, cursors s !! k = Some n → ∃ n', cursors s' !! k = Some n' ∧ n ≤ n'.

Lemma forward_same s s' : store_key s' = store_key s → cursors s' = cursors s → forward s s'.
Proof. intros H1 H2. split; [done|]. rewrite H2. intros k n Hk. exists n. split; [done|lia]. Qed.
#[local] Hint Resolve forward_same : nk.

Lemma forward_trans s1 s2 s3 : forward s1 s2 → forward s2 s3 → forward s1 s3.
Proof.
  intros [H1 H2] [H3 H4]. split; [congruence|]. intros k n Hk. destruct (H2 k n Hk) as (n' & Hk' & Hn).
  destruct (H4 k n' Hk') as (n'' & Hk'' & Hn'). exists n''. split; [done|lia].
Qed.

Lemma prune_forward cap s : forward s (prune_local_blobs cap s).2.
Proof.
  unfold prune_local_blobs, se_bind, se_get. destruct (prune_loop _ _ _ _ _) as [n l]. by apply forward_same.
Qed.

Lemma run_op_forward {C : Crypto} op s : forward s (run_op op s).
Proof.
  destruct op; cbn [run_op]; try (by apply forward_same).
  - unfold register_identity. se_steps; by apply forward_same.
  - unfold upsert_contact. se_steps; by apply forward_same.
  - unfold set_contact_session. se_steps; by apply forward_same.
  - unfold add_message. se_steps; by apply forward_same.
  - unfold update_message. se_steps. destruct fields; se_steps; by apply forward_same.
  - unfold save_prekeys. se_steps; by apply forward_same.
  - unfold outbox_add. se_steps; by apply forward_same.
  - unfold outbox_remove_for_message. se_steps; by apply forward_same.
  - unfold put_local_blob. unfold se_bind at 1, se_get. unfold se_bind at 1.
    assert (∀ s', forward s s' → forward s ((do! _ := prune_local_blobs LOCAL_BLOB_CAP_BYTES in se_ret tt) s').2) as Hp.
    { intros s' Hs'. pose proof (prune_forward LOCAL_BLOB_CAP_BYTES s') as H. unfold se_bind.
      destruct (prune_local_blobs _ s') as [[] s'']; cbn; by eapply forward_trans. }
    destruct (existsb _ _); cbn [se_ret se_put]; apply Hp; by apply forward_same.
  - apply prune_forward.
  - unfold set_cursor. se_steps; [by apply forward_same|]. cbn [snd se_put]. split; [done|].
    cbn [cursors set_cursors]. intros k n Hk. destruct (decide (k = (id, mailbox, relay))) as [->|Hne].
    + rewrite lookup_insert_eq, Hk. eexists. split; [done|]. lia.
    + rewrite lookup_insert_ne by done. exists n. split; [done|lia].
  - unfold set_state. se_steps; by apply forward_same.
Qed.

(** The store stays well formed.  After any sequence of the methods that write,
    whatever their arguments and whether or not they fail, no table has two rows with
    one key, every cached chunk's recorded size is its length, the key is the one the
    store was opened with, and no cursor has moved backwards. *)
Theorem store_invariant {C : Crypto} key s0 ops :
  new_store key = Ok s0 →
  let s := fold_left (λ s op, run_op op s) ops s0 in
  wf_store s ∧ store_key s = key ∧
  ∀ op k n, cursors s !! k = Some n → ∃ n', cursors (run_op op s) !! k = Some n' ∧ n ≤ n'.
Proof.
  intros E s. assert (wf_store s ∧ forward s0 s) as [Hw [Hk _]].
  { assert (wf_store s0) as H0.
    { unfold new_store, blen in E. destruct (Z.eqb_spec (Z.of_nat (length key)) LOCAL_KEY_SIZE) as [Hl|]; [|done].
      injection E as <-. split; cbn; try constructor. unfold LOCAL_KEY_SIZE in Hl. lia. }
    unfold s. clear E. generalize s0 H0. induction ops as [|op ops IH]; intros s1 H1; [split; [done|by apply forward_same]|].
    cbn [fold_left]. destruct (IH (run_op op s1) (run_op_wf op s1 H1)) as [Hw Hf]. split; [done|].
    eapply forward_trans; [apply run_op_forward|done]. }
  split_and!; [done| |].
  - rewrite Hk. unfold new_store in E. rinv E. by subst.
  - intros op. apply (run_op_forward op s).
Qed.

(** ** Reading back *)

Section reads.
Context {C : Crypto} {L : CryptoLaws C}.

Definition textual (j : json) : Prop := ∃ t, j = text_json t.
Definition storable_contact (c : contact) : Prop :=
  textual (c_nickname c) ∧ textual (c_bundle c) ∧ wf_json utf8_str (c_inbox c) ∧ wf_json utf8_str (c_relays c) ∧
  wf_json utf8_str (c_session c) ∧ int64 (c_created c) = true ∧ c_created c ≠ 0.
Definition storable_message (m : message) : Prop :=
  (∃ t, m_contact m = JStr t) ∧ (∃ t, m_direction m = JStr t) ∧ (∃ t, m_type m = JStr t) ∧
  textual (m_remote m) ∧ textual (m_state m) ∧ wf_json utf8_str (m_body m) ∧ wf_json utf8_str (m_meta m) ∧
  int64 (m_ts m) = true.

(** What reading gives: the creation time of a contact that existed stays. *)
Definition stored_contact (id : string) (old : option contact_row) (c : contact) : contact :=
  {| c_id := c_id c; c_identity := id; c_nickname := c_nickname c; c_isign := c_isign c; c_idh := c_idh c;
     c_bundle := c_bundle c; c_inbox := c_inbox c; c_relays := jor (c_relays c) (JList []);
     c_session := c_session c; c_verified := c_verified c;
     c_created := match old with Some r => cr_created r | None => c_created c end |}.
(** A message that existed keeps its contact, direction, type and time. *)
Definition stored_message (old : option message_row) (m : message) : message :=
  match old with
  | None => m
  | Some r => {| m_id := m_id m; m_identity := mr_identity r; m_contact := JStr (mr_contact r);
                 m_direction := JStr (mr_direction r); m_type := JStr (mr_type r); m_body := m_body m;
                 m_remote := m_remote m; m_ts := mr_ts r; m_state := m_state m; m_meta := m_meta m |}
  end.

Lemma sql_text_json t : sql_text (text_json t) = Ok t.
Proof using. by destruct t. Qed.

Lemma json_text_loads j : wf_json utf8_str j → json_loads (to_str (dumps fmt_default j)) = Ok j.
Proof using. intros Hj. by rewrite default_loads, canon_false. Qed.

(** The two halves of a write and a read, as equations. *)
Lemma upsert_contact_run s nonce now id c row :
  contact_to_row (store_key s) nonce now id c = Ok row →
  upsert_contact nonce now id c s
  = (Ok tt, set_contacts (upsert (is_contact id (c_id c)) (excluded row) row (contacts s)) s).
Proof using. intros E. unfold upsert_contact, se_bind, se_get, se_lift, se_put. by rewrite E. Qed.
Lemma get_contact_run s id cid :
  get_contact id cid s
  = (match List.find (is_contact id cid) (contacts s) with
     | None => Ok None
     | Some r => let? c := contact_from_row (store_key s) r in Ok (Some c)
     end, s).
Proof using.
  unfold get_contact, se_bind, se_get, se_lift, se_ret. destruct (List.find _ _); [|done].
  by destruct (contact_from_row _ _).
Qed.
Lemma add_message_run s n1 n2 m row :
  message_to_row (store_key s) n1 n2 m = Ok row →
  add_message n1 n2 m s
  = (Ok tt, set_messages (upsert (is_message (m_id m)) (message_excluded row) row (messages s)) s).
Proof using. intros E. unfold add_message, se_bind, se_get, se_lift, se_put. by rewrite E. Qed.
Lemma get_message_run s id :
  get_message (JStr id) s
  = (match List.find (is_message id) (messages s) with
     | None => Ok None
     | Some r => let? m := message_from_row (store_key s) r in Ok (Some m)
     end, s).
Proof using.
  unfold get_message, one_message, se_bind, se_get, se_lift, se_ret. cbn [sql_text sql_eq].
  change (λ r : message_row, String.eqb (mr_id r) id) with (is_message id).
  destruct (List.find _ _); [|done]. by destruct (message_from_row _ _).
Qed.

(** The row of a storable contact, read alone or over an older row. *)
Lemma contact_row_reads key nonce now id c :
  length key = 32%nat → length nonce = 12%nat → storable_contact c →
  ∃ row, contact_to_row key nonce now id c = Ok row ∧ is_contact id (c_id c) row = true ∧
    contact_from_row key row = Ok (stored_contact id None c) ∧
    ∀ r, is_contact id (c_id c) r = true →
         contact_from_row key (excluded row r) = Ok (stored_contact id (Some r) c).
Proof using L.
  intros Hk Hn ([tn Hnick] & [tb Hbundle] & Hinbox & Hrelays & Hsession & Hi & Hz).
  destruct (seal_opt_open key nonce (c_session c) Hk Hn Hsession) as (b & Eb & Ob).
  unfold contact_to_row, sql_int. rewrite Eb, Hnick, Hbundle, !sql_text_json, (proj2 (Z.eqb_neq _ 0) Hz), Hi.
  cbn [res_bind]. eexists. split; [reflexivity|].
  assert (wf_json utf8_str (jor (c_relays c) (JList []))) as Hr.
  { unfold jor. destruct (truthy (c_relays c)); [done|constructor]. }
  split_and!; [by apply is_contact_key| |].
  - unfold contact_from_row. cbn [cr_inbox cr_relays cr_session]. rewrite !json_text_loads by done. cbn [res_bind].
    rewrite Ob. unfold stored_contact. by rewrite Hnick, Hbundle.
  - intros r Hr'%is_contact_key. injection Hr' as H1 H2. unfold contact_from_row.
    cbn [cr_inbox cr_relays cr_session excluded]. rewrite !json_text_loads by done. cbn [res_bind].
    rewrite Ob. cbn [res_bind cr_id cr_identity cr_nickname cr_bundle cr_isign cr_idh cr_verified cr_created excluded].
    unfold stored_contact. by rewrite Hnick, Hbundle, H1, H2.
Qed.

Lemma message_row_reads key n1 n2 m :
  length key = 32%nat → length n1 = 12%nat → length n2 = 12%nat → storable_message m →
  ∃ row, message_to_row key n1 n2 m = Ok row ∧ is_message (m_id m) row = true ∧
    message_from_row key row = Ok (stored_message None m) ∧
    ∀ r, is_message (m_id m) r = true →
         message_from_row key (message_excluded row r) = Ok (stored_message (Some r) m).
Proof using L.
  intros Hk Hn1 Hn2 ([tc Hc] & [td Hd] & [tt Ht] & [tr Hr] & [ts Hs] & Hbody & Hmeta & Hi).
  destruct (seal_opt_open key n1 (m_body m) Hk Hn1 Hbody) as (b1 & Eb1 & Ob1).
  destruct (seal_opt_open key n2 (m_meta m) Hk Hn2 Hmeta) as (b2 & Eb2 & Ob2).
  unfold message_to_row, sql_int. rewrite Eb1, Eb2, Hc, Hd, Ht, Hr, Hs, Hi, !sql_text_json.
  cbn [res_bind sql_text of_option]. eexists. split; [reflexivity|].
  split_and!; [apply String.eqb_refl| |].
  - unfold message_from_row. cbn [mr_body mr_meta]. rewrite Ob1. cbn [res_bind]. rewrite Ob2. cbn [res_bind].
    destruct m. cbn in *. by subst.
  - intros r Hr'%String.eqb_eq. unfold message_from_row. cbn [mr_body mr_meta message_excluded].
    rewrite Ob1. cbn [res_bind]. rewrite Ob2. cbn [res_bind]. unfold stored_message.
    cbn [mr_id mr_identity mr_contact mr_direction mr_type mr_remote mr_ts mr_state message_excluded]. by rewrite Hr, Hs, Hr'.
Qed.

(** What the client stores is what it reads.  A contact, a message or a state value
    that is written is read back as written, sealed columns included, except that
    writing over an existing row keeps its creation time (contacts) or its contact,
    direction, type and time (messages); and the rows under other keys read as before. *)
Theorem store_reads_back s n1 n2 now :
  wf_store s → length n1 = 12%nat → length n2 = 12%nat →
  (∀ id c, storable_contact c →
     let s' := run_op (UpsertContact n1 now id c) s in
     (get_contact id (c_id c) s').1
       = Ok (Some (stored_contact id (List.find (is_contact id (c_id c)) (contacts s)) c)) ∧
     ∀ id' cid, (id', cid) ≠ (id, c_id c) → (get_contact id' cid s').1 = (get_contact id' cid s).1) ∧
  (∀ m, storable_message m →
     let s' := run_op (AddMessage n1 n2 m) s in
     (get_message (JStr (m_id m)) s').1
       = Ok (Some (stored_message (List.find (is_message (m_id m)) (messages s)) m)) ∧
     ∀ id, id ≠ m_id m → (get_message (JStr id) s').1 = (get_message (JStr id) s).1) ∧
  (∀ id k v, wf_json utf8_str v →
     let s' := run_op (SetState n1 id k v) s in
     (get_state id k s').1 = Ok v ∧
     ∀ id' k', (id', k') ≠ (id, k) → (get_state id' k' s').1 = (get_state id' k' s).1).
Proof using L.
  intros Hs Hn1 Hn2. split_and!.
  - intros id c Hc. destruct (contact_row_reads (store_key s) n1 now id c (ws_key _ Hs) Hn1 Hc) as (row & E & Hrow & R0 & R1).
    cbn [run_op]. rewrite (upsert_contact_run _ _ _ _ _ _ E). cbn [snd]. split.
    + rewrite get_contact_run. cbn [fst contacts set_contacts store_key].
      rewrite upsert_find; [|done|intros r Hr; by rewrite is_contact_key in *].
      destruct (List.find _ (contacts s)) as [r|] eqn:Ef; [|by rewrite R0].
      rewrite R1; [done|]. by apply List.find_some in Ef as [_ Ef].
    + intros id' cid Hne. rewrite !get_contact_run. cbn [fst contacts set_contacts store_key].
      rewrite upsert_find_other; [done|..];
        [rename Hrow into Hk | clear Hrow; intros r Hk..]; rewrite is_contact_key in Hk;
        apply not_true_iff_false; rewrite is_contact_key; unfold contact_key in *; cbn [excluded cr_identity cr_id]; congruence.
  - intros m Hm. destruct (message_row_reads (store_key s) n1 n2 m (ws_key _ Hs) Hn1 Hn2 Hm) as (row & E & Hrow & R0 & R1).
    cbn [run_op]. rewrite (add_message_run _ _ _ _ _ E). cbn [snd]. split.
    + rewrite get_message_run. cbn [fst messages set_messages store_key].
      rewrite upsert_find; [|done|intros r Hr; exact Hr]. destruct (List.find _ (messages s)) as [r|] eqn:Ef; [|by rewrite R0].
      rewrite R1; [done|]. by apply List.find_some in Ef as [_ Ef].
    + intros id Hne. rewrite !get_message_run. cbn [fst messages set_messages store_key].
      rewrite upsert_find_other; [done|..]; [rename Hrow into Hk | clear Hrow; intros r Hk..]; apply String.eqb_eq in Hk;
        apply String.eqb_neq; cbn [message_excluded mr_id]; congruence.
  - intros id k v Hv. destruct (seal_open (store_key s) n1 v (ws_key _ Hs) Hn1 Hv) as (b & Eb & Ob).
    cbn [run_op]. unfold set_state, get_state, se_bind, se_get, se_lift, se_put. rewrite Eb.
    cbn [snd fst state set_state_table store_key]. split; [by rewrite lookup_insert_eq|].
    intros id' k' Hne. by rewrite lookup_insert_ne.
Qed.
End reads.

(** ** The attachment cache *)

Lemma oldest_spec l r : oldest l = Some r → r ∈ l ∧ ∀ k, k ∈ l → br_created r ≤ br_created k.
Proof.
  unfold oldest. pose proof (order_by_perm (λ a b, br_created a <=? br_created b) l) as Hp.
  pose proof (order_by_sorted br_created l) as Hs. destruct (order_by _ l) as [|x l'] eqn:E; [done|].
  cbn [head]. intros [= ->]. split; [rewrite <-Hp; left|]. intros k Hk. rewrite <-Hp in Hk.
  apply StronglySorted_inv in Hs as [_ Hx]. apply elem_of_cons in Hk as [->|Hk]; [lia|].
  rewrite List.Forall_forall in Hx. apply Hx. by apply list_elem_of_In.
Qed.
Lemma oldest_none l : oldest l = None → l = [].
Proof.
  unfold oldest. pose proof (order_by_perm (λ a b, br_created a <=? br_created b) l) as Hp.
  destruct (order_by _ l); [intros _|done]. by apply Permutation_nil_l in Hp.
Qed.

Lemma remove_blob l r :
  NoDup (map br_id l) → r ∈ l → l ≡ₚ r :: List.filter (λ x, negb (is_blob (br_id r) x)) l.
Proof.
  induction l as [|x l IH]; [by intros _ ?%not_elem_of_nil|]. cbn [map List.filter]. intros [Hx Hnd]%NoDup_cons Hr.
  unfold is_blob at 1. destruct (String.eqb_spec (br_id x) (br_id r)) as [E|E]; cbn [negb].
  - apply elem_of_cons in Hr as [->|Hr].
    + assert (List.filter (λ y, negb (is_blob (br_id x) y)) l = l) as ->; [|done].
      apply forallb_filter_id, forallb_forall. intros y Hy%list_elem_of_In. apply negb_true_iff, String.eqb_neq.
      intros Ey. apply Hx, list_elem_of_fmap. by exists y.
    + destruct Hx. rewrite E. apply list_elem_of_fmap. by exists r.
  - apply elem_of_cons in Hr as [->|Hr]; [done|]. rewrite IH at 1 by done. apply perm_swap.
Qed.

Lemma prune_loop_spec cap fuel n l :
  0 ≤ cap → NoDup (map br_id l) → (length l < fuel)%nat →
  ∃ ds kept, prune_loop fuel cap (blob_total l) n l = (n + Z.of_nat (length ds), kept) ∧
    l ≡ₚ ds ++ kept ∧ blob_total kept ≤ cap ∧
    (∀ d k, d ∈ ds → k ∈ kept → br_created d ≤ br_created k) ∧
    (∀ ds' d, ds = ds' ++ [d] → cap < blob_total kept + br_size d).
Proof.
  intros Hc. revert n l. induction fuel as [|f IH]; intros n l Hnd Hf; [lia|]. cbn [prune_loop].
  destruct (Z.ltb_spec cap (blob_total l)) as [Hlt|Hle].
  2:{ exists [], l. cbn. rewrite Z.add_0_r. split_and!; try done; [set_solver|by intros [] ?]. }
  destruct (oldest l) as [r|] eqn:Eo; [|apply oldest_none in Eo as ->; cbn in Hlt; lia].
  destruct (oldest_spec l r Eo) as [Hr Hmin]. pose proof (remove_blob l r Hnd Hr) as Hp.
  set (l' := List.filter _ l) in *. assert (blob_total l = br_size r + blob_total l') as Ht.
  { unfold blob_total. by rewrite (zsum_perm _ _ _ Hp). }
  replace (blob_total l - br_size r) with (blob_total l') by lia.
  destruct (IH (n + 1) l') as (ds & kept & E & Hpk & Htot & Hold & Hlast); [by apply filter_nodup| |].
  { apply Permutation_length in Hp. cbn in Hp. lia. }
  exists (r :: ds), kept. rewrite E. split_and!.
  - f_equal. cbn [length]. lia.
  - by rewrite Hp, Hpk.
  - done.
  - intros d k [->|Hd]%elem_of_cons Hk; [|by apply Hold]. apply Hmin. rewrite Hp, Hpk. set_solver.
  - intros [|x ds'] d [= E1 E2]; [subst|by eapply Hlast].
    assert (blob_total l' = blob_total kept) as Hk by (unfold blob_total; by rewrite (zsum_perm _ _ _ Hpk)). lia.
Qed.

(** The attachment cache is bounded, and drops no more than it must.  Pruning always
    ends, with the cached bytes at most the cap; what it drops is older than what it
    keeps, it counts what it drops, and it stops as soon as the rest fits: putting the
    last dropped chunk back would exceed the cap. *)
Theorem prune_bounds cap s :
  0 ≤ cap → wf_store s →
  ∃ dropped, (prune_local_blobs cap s).1 = Ok (Z.of_nat (length dropped)) ∧
    let kept := local_blobs (prune_local_blobs cap s).2 in
    local_blobs s ≡ₚ dropped ++ kept ∧ blob_total kept ≤ cap ∧
    (∀ d k, d ∈ dropped → k ∈ kept → br_created d ≤ br_created k) ∧
    (∀ ds d, dropped = ds ++ [d] → cap < blob_total kept + br_size d).
Proof.
  intros Hc Hs. destruct (prune_loop_spec cap (S (length (local_blobs s))) 0 (local_blobs s) Hc (ws_blobs _ Hs) (Nat.lt_succ_diag_r _))
    as (ds & kept & E & H). exists ds.
  unfold prune_local_blobs, se_bind, se_get, se_put, se_ret. rewrite E. cbn [fst snd local_blobs set_blobs].
  split; [done|exact H].
Qed.

(** ** The pattern that clears a message's rows *)

Lemma like_any p s :
  like_chars (bs "%" :: p) s
  = like_chars p s || match s with [] => false | _ :: s' => like_chars (bs "%" :: p) s' end.
Proof. by destruct s. Qed.
Lemma like_suffix p s1 s2 : like_chars p s2 = true → like_chars (bs "%" :: p) (s1 ++ s2) = true.
Proof.
  intros H. induction s1 as [|c s1 IH]; cbn [app]; rewrite like_any; [by rewrite H|]. by rewrite IH, orb_true_r.
Qed.
Lemma like_rest s : like_chars [bs "%"] s = true.
Proof. rewrite <-(app_nil_r s). by apply like_suffix. Qed.

Lemma flush_word_app cur l1 l2 : ∃ l, flush_word cur (l1 ++ l2) = l ++ l2.
Proof. destruct cur as [|c cur]; [by exists l1|]. cbn [flush_word]. eexists (_ :: l1). reflexivity. Qed.

Lemma utf8_chars_colon a b cur :
  match b with c :: _ => cont c = false | [] => True end →
  ∃ l1 l2, utf8_chars cur (a ++ ":"%char :: b) = l1 ++ bs ":" :: l2.
Proof.
  intros Hb. revert cur. induction a as [|c a IH]; intros cur; cbn [app utf8_chars].
  - assert (∃ l2, utf8_chars [":"%char] b = bs ":" :: l2) as [l2 E].
    { destruct b as [|c b]; cbn [utf8_chars]; [by eexists|]. rewrite Hb. by eexists. }
    change (cont ":") with false. cbv iota. rewrite E. destruct (flush_word_app cur [] (bs ":" :: l2)) as [l El].
    exists l, l2. exact El.
  - destruct (cont c); [apply IH|]. destruct (IH [c]) as (l1 & l2 & ->).
    destruct (flush_word_app cur l1 (bs ":" :: l2)) as [l El]. by exists l, l2.
Qed.

(** A receipt for the message id [%] clears the queued rows of every message, whatever
    contact they are for: row ids are [message:device], and the id is used as a
    pattern. *)
Lemma receipt_wildcard_clears s :
  Forall (λ r, ∃ m d, or_id r = m +:+ ":" +:+ d ∧ match bs d with c :: _ => cont c = false | [] => True end)
    (outbox s) →
  outbox_remove_for_message (JStr "%") s = (Ok tt, set_outbox [] s).
Proof.
  intros Hl. unfold outbox_remove_for_message, se_bind, se_get, se_lift. cbn [sql_text].
  match goal with |- context [filterM ?P _] => assert (filterM P (outbox s) = Ok []) as -> end; [|done].
  induction Hl as [|r l (m & d & E & Hd) Hl IH]; [done|]. cbn [filterM]. rewrite IH.
  assert (sql_like (or_id r) (to_pystr (JStr "%") +:+ ":%") = Ok true) as E'.
  { unfold sql_like. change (MAX_LIKE <? blen (bs (to_pystr (JStr "%") +:+ ":%"))) with false. cbv iota. f_equal.
    change (utf8_chars [] (bs (to_pystr (JStr "%") +:+ ":%"))) with [bs "%"; bs ":"; bs "%"].
    rewrite E, !bs_app. cbn [bs app]. destruct (utf8_chars_colon (bs m) (bs d) [] Hd) as (l1 & l2 & ->).
    apply like_suffix. exact (like_rest l2). }
  unfold cleared_by. rewrite E'. cbn [res_bind]. by rewrite orb_true_r.
Qed.

(** ** A concrete store *)

Import Toy.
Definition sample_key : bytes := repeat "k"%char 32.
Definition sample_iv : bytes := repeat "n"%char 12.
Definition sample_contact : contact :=
  {| c_id := "c"; c_identity := "me"; c_nickname := JNull; c_isign := bs "s"; c_idh := bs "d"; c_bundle := JStr "b";
     c_inbox := JObj []; c_relays := JList []; c_session := JNull; c_verified := false; c_created := 7 |}.
Definition sample_message : message :=
  {| m_id := "m"; m_identity := "me"; m_contact := JStr "c"; m_direction := JStr "sent"; m_type := JStr "text";
     m_body := JObj [("text"%string, JStr "hi")]; m_remote := JNull; m_ts := 5; m_state := JStr "sent"; m_meta := JNull |}.
Definition sample_ops : list store_op :=
  [UpsertContact sample_iv 1 "me" sample_contact; AddMessage sample_iv sample_iv sample_message;
   PutLocalBlob 1 "x" (bs "abc"); PutLocalBlob 2 "y" (bs "de"); SetCursor "me" "mb" "r" 4].
Definition sample_store : LocalStore :=
  {| store_key := sample_key; identities := []; contacts := []; messages := []; prekeys := ∅; outbox := [];
     cursors := ∅; state := ∅;
     local_blobs := [{| br_id := "x"; br_data := bs "abc"; br_size := 3; br_created := 1 |};
                     {| br_id := "y"; br_data := bs "de"; br_size := 2; br_created := 2 |}] |}.
Lemma sample_store_wf : wf_store sample_store.
Proof.
  split; cbn [sample_store store_key identities contacts messages outbox local_blobs map br_id];
    first [done | by constructor | by repeat constructor | idtac].
  apply (bool_decide_unpack _). reflexivity.
Qed.

Lemma sample_contact_ok : storable_contact sample_contact.
Proof. split_and!; [by exists None|by exists (Some "b"%string)| | | |done|done]; cbn [sample_contact c_inbox c_relays c_session]; solve_wf; by constructor. Qed.
Lemma sample_message_ok : storable_message sample_message.
Proof.
  split_and!; [by eexists..|by exists None|by exists (Some "sent"%string)| | |done]; cbn [sample_message m_body m_meta]; solve_wf; done.
Qed.

Lemma store_invariant_witness :
  let s0 := ok_or sample_store (new_store sample_key) in
  let s := fold_left (λ s op, run_op op s) sample_ops s0 in
  wf_store s ∧ store_key s = sample_key ∧
  ∀ op k n, cursors s !! k = Some n → ∃ n', cursors (run_op op s) !! k = Some n' ∧ n ≤ n'.
Proof. apply (store_invariant sample_key (ok_or sample_store (new_store sample_key)) sample_ops). reflexivity. Defined.

Lemma store_reads_back_witness :
  (let s' := run_op (UpsertContact sample_iv 1 "me" sample_contact) sample_store in
   (get_contact "me" "c" s').1 = Ok (Some (stored_contact "me" None sample_contact))) ∧
  (let s' := run_op (AddMessage sample_iv sample_iv sample_message) sample_store in
   (get_message (JStr "m") s').1 = Ok (Some sample_message)).
Proof.
  destruct (store_reads_back sample_store sample_iv sample_iv 1 sample_store_wf eq_refl eq_refl) as (H1 & H2 & _).
  split; [apply H1, sample_contact_ok | apply H2, sample_message_ok].
Defined.

Lemma prune_bounds_witness :
  ∃ dropped, (prune_local_blobs 2 sample_store).1 = Ok (Z.of_nat (length dropped)) ∧
    let kept := local_blobs (prune_local_blobs 2 sample_store).2 in
    local_blobs sample_store ≡ₚ dropped ++ kept ∧ blob_total kept ≤ 2 ∧
    (∀ d k, d ∈ dropped → k ∈ kept → br_created d ≤ br_created k) ∧
    (∀ ds d, dropped = ds ++ [d] → 2 < blob_total kept + br_size d).
Proof. apply (prune_bounds 2 sample_store); [lia|apply sample_store_wf]. Defined.
