(* ===== verification/History.v ===== *)
(** * History bundles ([core/history.py])

    What an account knows, as one JSON value: collected from the store, merged into a
    store, and sealed into an export file.  The client is its identity id and its
    store.  The clock, the random ids, the salt and the nonces are arguments. *)

From S2P Require Import Prelude PyStr Json JsonProps Primitives Dict Encoding Sql Store.
From S2P Require Aead Attachments.

Definition HISTORY_VERSION : Z := 1.
Definition HISTORY_MAGIC : bytes := bs "NKX1".
Definition DEFAULT_BUDGET_BYTES : Z := 100 * 1024 * 1024.
Definition PBKDF2_ITERATIONS : Z := 600000.

(** A list or a dict cannot be a dictionary key. *)
Definition hashable (j : json) : bool := negb (is_list j || is_dict j).

(** [STATE_RANK.get(state, 0)] *)
Definition state_rank (state : json) : res Z :=
  raise_if negb (hashable state) with TypeError ;;
  Ok (if eq_str state "delivered" then 1 else if eq_str state "read" then 2 else 0).

(** ** Items *)

Definition contact_item (c : contact) : res dict :=
  let? relays := iter_json (jor (c_relays c) (JList [])) in
  Ok [("id", JStr (c_id c)); ("isign", JStr (b64e (c_isign c))); ("idh", JStr (b64e (c_idh c)));
      ("bundle", c_bundle c); ("inbox", jor (c_inbox c) (JObj [])); ("relays", JList relays);
      ("nickname", c_nickname c); ("verified", JBool (c_verified c)); ("created_at", JInt (c_created c))]%string.

Definition message_item (contact_id : json) (m : message) : dict :=
  [("contact_id", contact_id); ("direction", m_direction m); ("type", m_type m); ("body", m_body m);
   ("remote_id", m_remote m); ("ts", JInt (m_ts m)); ("state", m_state m)]%string.

(** The dictionary a store method returns for a message. *)
Definition message_json (m : message) : json :=
  JObj [("id", JStr (m_id m)); ("identity_id", JStr (m_identity m)); ("contact_id", m_contact m);
        ("direction", m_direction m); ("type", m_type m); ("body", m_body m); ("remote_id", m_remote m);
        ("ts", JInt (m_ts m)); ("state", m_state m); ("meta", m_meta m)]%string.

(** The key of a message, as a dictionary key: the booleans equal 0 and 1. *)
Inductive mkey :=
| KRemote (contact_id direction : json) (remote_id : string)
| KLocal (contact_id direction : json) (ts : Z) (type digest : string).
#[export] Instance mkey_eq_dec : EqDecision mkey.
Proof. solve_decision. Defined.
Definition as_key (j : json) : json := match j with JBool b => JInt (bool_int b) | _ => j end.
Definition key_hashable (k : mkey) : bool :=
  match k with KRemote c d _ | KLocal c d _ _ _ => hashable c && hashable d end.

(** The index of the messages held: a later entry of a key hides an earlier one. *)
Abbreviation msg_index := (list (mkey * message)).

Section history.
Context {C : Crypto}.

Definition body_digest (body : json) : string :=
  let raw := canonical_json (if bool_decide (body = JNull) then JObj [] else body) in
  take_chars 16 (Attachments.hex (sha256 raw)).

Definition message_key (item : json) : res mkey :=
  let? remote_id := jget "remote_id" item in
  let? contact_id := jget "contact_id" item in
  let? direction := jget "direction" item in
  if truthy remote_id then Ok (KRemote (as_key contact_id) (as_key direction) (to_pystr remote_id))
  else
    let? ts := (let? j := jget "ts" item in to_int (jor j (JInt 0))) in
    let? type := jget "type" item in
    let? body := jget "body" item in
    Ok (KLocal (as_key contact_id) (as_key direction) ts (to_pystr type) (body_digest body)).

(** ** Collection *)

(** The chunks met, their total size, what is carried and what is not. *)
Record collected := {
  seen : list string; used : Z; carried : list (string * bytes); skipped : list (string * string)
}.
Definition nothing : collected := {| seen := []; used := 0; carried := []; skipped := [] |}.
Definition collect_chunk (budget : Z) (chunk_id : string) (c : collected) : SE LocalStore collected :=
  if String.eqb chunk_id "" || bool_decide (chunk_id ∈ seen c) then se_ret c
  else
    let seen := chunk_id :: seen c in
    do! ciphertext := get_local_blob chunk_id in
    se_ret match ciphertext with
           | None => {| seen := seen; used := used c; carried := carried c;
                        skipped := skipped c ++ [(chunk_id, "not held here"%string)] |}
           | Some ct =>
               if budget <? used c + blen ct
               then {| seen := seen; used := used c; carried := carried c;
                       skipped := skipped c ++ [(chunk_id, "over budget"%string)] |}
               else {| seen := seen; used := used c + blen ct; carried := carried c ++ [(chunk_id, ct)];
                       skipped := skipped c |}
           end.
(** The chunk entries of a message's manifest. *)
Definition chunk_entries (item : json) : res (list json) :=
  let? body := jget "body" item in
  let? attachment := jget "attachment" (jor body (JObj [])) in
  let? chunks := jget "chunks" (jor attachment (JObj [])) in
  iter_json (jor chunks (JList [])).
Fixpoint collect_entries (budget : Z) (entries : list json) (c : collected) : SE LocalStore collected :=
  match entries with
  | [] => se_ret c
  | entry :: rest =>
      do! id := se_lift (jget "id" entry) in
      do! c := collect_chunk budget (to_pystr id) c in
      collect_entries budget rest c
  end.
Fixpoint collect_items (budget : Z) (items : list json) (c : collected) : SE LocalStore collected :=
  match items with
  | [] => se_ret c
  | item :: rest =>
      do! entries := se_lift (chunk_entries item) in
      do! c := collect_entries budget entries c in
      collect_items budget rest c
  end.

Record Bundle := {
  b_created : Z; b_from : string; b_since : Z; b_until : Z;
  b_contacts : list json; b_messages : list json; b_chunks : list json; b_skipped : list json
}.
Definition bundle_dict (b : Bundle) : dict :=
  [("v", JInt HISTORY_VERSION); ("created", JInt (b_created b)); ("from_device", JStr (b_from b));
   ("range", JObj [("since", JInt (b_since b)); ("until", JInt (b_until b))]);
   ("contacts", JList (b_contacts b)); ("messages", JList (b_messages b));
   ("chunks", JList (b_chunks b)); ("skipped", JList (b_skipped b))]%string.

Definition in_window (since until : Z) (m : message) : bool := (since <=? m_ts m) && (m_ts m <=? until).
Definition chunk_json (c : string * bytes) : json := JObj [("id", JStr c.1); ("ct", JStr (b64e c.2))]%string.
Definition skipped_json (s : string * string) : json := JObj [("id", JStr s.1); ("reason", JStr s.2)]%string.

(** [now] and [created]: the clock when the window and the bundle are made;
    [device_id] is empty for [None]. *)
Definition build_bundle (identity_id device_id : string) (now created : Z) (since_ms until_ms : option Z)
    (budget : Z) (include_attachments : bool) : SE LocalStore Bundle :=
  let until_ms := default now until_ms in
  let since_ms := default 0 since_ms in
  do! cs := list_contacts identity_id in
  do! cs := se_lift (mapM contact_item cs) in
  do! ms := list_all_messages identity_id in
  let items := map (λ m, JObj (message_item (m_contact m) m)) (List.filter (in_window since_ms until_ms) ms) in
  do! c := (if include_attachments then collect_items budget items nothing else se_ret nothing) in
  se_ret {| b_created := created; b_from := if String.eqb device_id "" then "legacy" else device_id;
            b_since := since_ms; b_until := until_ms; b_contacts := map JObj cs; b_messages := items;
            b_chunks := map chunk_json (carried c); b_skipped := map skipped_json (skipped c) |}.

Definition encode_bundle (b : Bundle) : bytes := canonical_json (JObj (bundle_dict b)).
(** [for field in ...: if not isinstance(bundle.get(field), list)] *)
Definition has_lists (bundle : json) : res bool :=
  let? contacts := jget "contacts" bundle in
  let? messages := jget "messages" bundle in
  let? chunks := jget "chunks" bundle in
  Ok (is_list contacts && is_list messages && is_list chunks).
Definition decode_bundle (data : bytes) : res json :=
  let? text := decode_utf8 data in
  let? bundle := except (isa JSONDecodeError) HistoryError (json_loads text) in
  raise_if negb (is_dict bundle) with HistoryError ;;
  let? v := jget "v" bundle in
  raise_if negb (eq_int v HISTORY_VERSION) with HistoryError ;;
  let? lists := has_lists bundle in
  raise_if negb lists with HistoryError ;;
  Ok bundle.

(** ** Merge *)

Definition contact_of_item (identity_id contact_id : string) (now : Z) (item : json) : res contact :=
  let? nickname := jget "nickname" item in
  let? isign := (let? j := jitem "isign" item in b64d (to_pystr j)) in
  let? idh := (let? j := jitem "idh" item in b64d (to_pystr j)) in
  let? bundle := jget "bundle" item in
  let? inbox := jget "inbox" item in
  let? relays := (let? j := jget "relays" item in iter_json (jor j (JList []))) in
  let? verified := jget "verified" item in
  let? created := (let? j := jget "created_at" item in if truthy j then to_int j else Ok now) in
  Ok {| c_id := contact_id; c_identity := identity_id; c_nickname := nickname; c_isign := isign; c_idh := idh;
        c_bundle := bundle; c_inbox := jor inbox (JObj []); c_relays := JList relays; c_session := JNull;
        c_verified := truthy verified; c_created := created |}.
(** The dictionary is built and stored inside one [try]; the session is [None], so no
    nonce is drawn. *)
Definition merge_contact (identity_id : string) (now : Z) (item : json) : SE LocalStore bool :=
  do! id := se_lift (jget "id" item) in
  let contact_id := to_pystr (jor id (JStr "")) in
  if String.eqb contact_id "" then se_ret false else
  do! existing := get_contact identity_id contact_id in
  match existing with
  | Some _ => se_ret false
  | None =>
      do! _ := se_except isa_KTV HistoryError
        (do! c := se_lift (contact_of_item identity_id contact_id now item) in
         upsert_contact [] now identity_id c) in
      se_ret true
  end.

Record counts := { n_contacts : Z; n_messages : Z; n_updates : Z; n_chunks : Z }.
Definition new_counts : counts := {| n_contacts := 0; n_messages := 0; n_updates := 0; n_chunks := 0 |}.
Definition add_contact (k : counts) : counts :=
  {| n_contacts := n_contacts k + 1; n_messages := n_messages k; n_updates := n_updates k; n_chunks := n_chunks k |}.
Definition count_message (k : counts) : counts :=
  {| n_contacts := n_contacts k; n_messages := n_messages k + 1; n_updates := n_updates k; n_chunks := n_chunks k |}.
Definition add_update (k : counts) : counts :=
  {| n_contacts := n_contacts k; n_messages := n_messages k; n_updates := n_updates k + 1; n_chunks := n_chunks k |}.
Definition add_chunk (k : counts) : counts :=
  {| n_contacts := n_contacts k; n_messages := n_messages k; n_updates := n_updates k; n_chunks := n_chunks k + 1 |}.

Fixpoint merge_contacts (identity_id : string) (now : Z) (items : list json) (k : counts) : SE LocalStore counts :=
  match items with
  | [] => se_ret k
  | item :: rest =>
      do! added := merge_contact identity_id now item in
      merge_contacts identity_id now rest (if added then add_contact k else k)
  end.

Fixpoint known_find (k : mkey) (known : msg_index) : option message :=
  match known with
  | [] => None
  | (k', m) :: rest => if bool_decide (k = k') then Some m else known_find k rest
  end.
Definition known_get (k : mkey) (known : msg_index) : res (option message) :=
  raise_if negb (key_hashable k) with TypeError ;; Ok (known_find k known).
Fixpoint index_messages (ms : list message) (known : msg_index) : res msg_index :=
  match ms with
  | [] => Ok known
  | m :: rest =>
      let? k := message_key (message_json m) in
      raise_if negb (key_hashable k) with TypeError ;;
      index_messages rest ((k, m) :: known)
  end.
Definition message_index (identity_id : string) : SE LocalStore msg_index :=
  do! ms := list_all_messages identity_id in se_lift (index_messages ms []).

Definition message_of_item (identity_id message_id : string) (item : json) : res message :=
  let? contact_id := jitem "contact_id" item in
  let? direction := jget "direction" item in
  let? type := jget "type" item in
  let? body := jget "body" item in
  let? remote_id := jget "remote_id" item in
  let? ts := (let? j := jget "ts" item in to_int (jor j (JInt 0))) in
  let? state := jget "state" item in
  Ok {| m_id := message_id; m_identity := identity_id; m_contact := contact_id;
        m_direction := jor direction (JStr "received"); m_type := jor type (JStr "text"); m_body := body;
        m_remote := remote_id; m_ts := ts; m_state := state; m_meta := JNull |}.
(** [os.urandom(16).hex()] and the nonces of the two sealed columns *)
Record draw := { d_id : string; d_n1 : bytes; d_n2 : bytes }.
Definition merge_message (identity_id : string) (d : draw) (item : json) (known : msg_index) (n : counts)
    : SE LocalStore (msg_index * counts) :=
  do! contact_id := se_lift (jget "contact_id" item) in
  if negb (truthy contact_id) then se_ret (known, n) else
  do! key := se_lift (message_key item) in
  do! existing := se_lift (known_get key known) in
  match existing with
  | Some m =>
      do! incoming := se_lift (jget "state" item) in
      do! r := se_lift (state_rank incoming) in
      do! r' := se_lift (state_rank (m_state m)) in
      if r' <? r then
        do! _ := update_message (λ _, []) (JStr (m_id m)) [("state"%string, incoming)] in
        se_ret (known, add_update n)
      else se_ret (known, n)
  | None =>
      do! id := se_lift (jget "id" item) in
      let message_id := to_pystr (jor id (JStr (d_id d))) in
      do! m := se_lift (message_of_item identity_id message_id item) in
      do! _ := add_message (d_n1 d) (d_n2 d) m in
      do! stored := get_message (JStr message_id) in
      se_ret (match stored with Some m => (key, m) :: known | None => known end, count_message n)
  end.
Fixpoint merge_messages (identity_id : string) (items : list (draw * json)) (known : msg_index) (n : counts)
    : SE LocalStore (msg_index * counts) :=
  match items with
  | [] => se_ret (known, n)
  | (d, item) :: rest =>
      do! (known, n) := merge_message identity_id d item known n in
      merge_messages identity_id rest known n
  end.

Definition merge_chunk (now : Z) (chunk : json) (n : counts) : SE LocalStore counts :=
  do! id := se_lift (jget "id" chunk) in
  let chunk_id := to_pystr (jor id (JStr "")) in
  if String.eqb chunk_id "" then se_ret n else
  do! ciphertext := se_lift (except isa_Exception HistoryError
                               (let? ct := jitem "ct" chunk in b64d (to_pystr ct))) in
  do! held := has_local_blob chunk_id in
  if held then se_ret n
  else do! _ := put_local_blob now chunk_id ciphertext in se_ret (add_chunk n).
Fixpoint merge_chunks (now : Z) (items : list json) (n : counts) : SE LocalStore counts :=
  match items with
  | [] => se_ret n
  | chunk :: rest => do! n := merge_chunk now chunk n in merge_chunks now rest n
  end.

(** [for item in items or []] *)
Definition items_or_none (j : json) : res (list json) := iter_json (jor j (JList [])).
(** [now] in milliseconds; [draws i]: what is drawn for the [i]-th message. *)
Definition merge_bundle (identity_id : string) (now : Z) (draws : nat → draw) (bundle : json)
    : SE LocalStore counts :=
  do! cs := se_lift (let? j := jget "contacts" bundle in items_or_none j) in
  do! n := merge_contacts identity_id (now / 1000) cs new_counts in
  do! known := message_index identity_id in
  do! ms := se_lift (let? j := jget "messages" bundle in items_or_none j) in
  do! (known, n) := merge_messages identity_id (imap (λ i item, (draws i, item)) ms) known n in
  do! chunks := se_lift (let? j := jget "chunks" bundle in items_or_none j) in
  merge_chunks now chunks n.

(** ** The export file *)

Context {Zl : Zlib}.

Definition export_header (b : Bundle) (salt : bytes) : dict :=
  let len {A} (l : list A) := JInt (Z.of_nat (length l)) in
  [("v", JInt HISTORY_VERSION); ("created", JInt (b_created b));
   ("kdf", JObj [("salt", JStr (b64e salt)); ("iterations", JInt PBKDF2_ITERATIONS)]);
   ("counts", JObj [("contacts", len (b_contacts b)); ("messages", len (b_messages b));
                    ("chunks", len (b_chunks b)); ("skipped", len (b_skipped b))])]%string.
Definition seal_export (salt nonce : bytes) (passphrase : string) (b : Bundle) : res bytes :=
  let? key := derive_key_from_passphrase passphrase salt PBKDF2_ITERATIONS in
  let header_bytes := canonical_json (JObj (export_header b salt)) in
  let plaintext := zlib_compress (encode_bundle b) in
  let? (nonce, ciphertext) := Aead.encrypt nonce key plaintext HISTORY_MAGIC in
  let? length := to_be 4 (blen header_bytes) in
  Ok (HISTORY_MAGIC ++ [byte_of HISTORY_VERSION] ++ length ++ header_bytes ++ nonce ++ ciphertext).
Definition export_history (identity_id device_id : string) (now created : Z) (salt nonce : bytes)
    (passphrase : string) (since_ms until_ms : option Z) (budget : Z) (include_attachments : bool)
    : SE LocalStore bytes :=
  do! _ := se_check (String.eqb passphrase "") HistoryError in
  do! b := build_bundle identity_id device_id now created since_ms until_ms budget include_attachments in
  se_lift (seal_export salt nonce passphrase b).

Definition is_history_file (data : bytes) : bool := bool_decide (take 4 data = HISTORY_MAGIC).
(** [int.from_bytes(data[5:9], "big")] *)
Definition header_length (data : bytes) : nat := Z.to_nat (from_be (take 4 (drop 5 data))).
Definition read_export_header (data : bytes) : res json :=
  raise_if negb (is_history_file data) with HistoryError ;;
  let? (version, header) :=
    except (λ e, isa IndexError e || isa_ValueError e) HistoryError
      (let? version := of_option IndexError (data !! 4%nat) in
       let? header := json_loads_bytes (take (header_length data) (drop 9 data)) in
       Ok (byte_val version, header)) in
  raise_if negb (version =? HISTORY_VERSION) with HistoryError ;;
  let? v := jget "v" header in
  raise_if negb (eq_int v HISTORY_VERSION) with HistoryError ;;
  Ok header.
Definition kdf_params (header : json) : res (bytes * Z) :=
  except isa_KTV HistoryError
    (let? kdf := jitem "kdf" header in
     let? salt := (let? j := jitem "salt" kdf in b64d (to_pystr j)) in
     let? iterations := (let? j := jitem "iterations" kdf in to_int j) in
     Ok (salt, iterations)).
(** Everything before the merge. *)
Definition open_export (data : bytes) (passphrase : string) : res json :=
  let? header := read_export_header data in
  raise_if String.eqb passphrase "" with HistoryError ;;
  let? (salt, iterations) := kdf_params header in
  let body := drop (9 + header_length data) data in
  raise_if blen body <=? 12 with HistoryError ;;
  let? key := derive_key_from_passphrase passphrase salt iterations in
  let? plaintext := except (isa AEADError) HistoryError
                      (Aead.decrypt key (take 12 body) (drop 12 body) HISTORY_MAGIC) in
  except (isa ZlibError) HistoryError (let? raw := zlib_decompress plaintext in decode_bundle raw).
Definition import_history (identity_id : string) (now : Z) (draws : nat → draw) (data : bytes)
    (passphrase : string) : SE LocalStore counts :=
  do! bundle := se_lift (open_export data passphrase) in
  merge_bundle identity_id now draws bundle.
End history.
