(* ===== verification/HistoryProps.v ===== *)
(** * Properties of history bundles

    Merging is a join on the messages an account holds, keyed as the code keys them;
    the export file reads back; and a bundle keeps to its budget. *)

From S2P Require Import Prelude PyStr Json JsonProps Primitives Dict Encoding Sql Store StoreProps History.
From S2P Require Aead Attachments.

(** ** Indexes *)

Lemma known_find_elem k m (l : msg_index) : known_find k l = Some m → (k, m) ∈ l.
Proof.
  induction l as [|[k' m'] l IH]; [done|]. cbn [known_find]. case_bool_decide as E; [intros [= ->]; subst; left|].
  intros H. right. by apply IH.
Qed.
Lemma known_find_None k (l : msg_index) : known_find k l = None ↔ k ∉ map fst l.
Proof.
  induction l as [|[k' m'] l IH]; cbn [known_find map fst].
  - split; [intros _; apply not_elem_of_nil|done].
  - case_bool_decide as E; [subst; split; [done|set_solver]|]. rewrite IH. set_solver.
Qed.
Lemma elem_known_find k m (l : msg_index) : NoDup (map fst l) → (k, m) ∈ l → known_find k l = Some m.
Proof.
  intros Hnd Hin. destruct (known_find k l) as [m'|] eqn:E.
  - apply known_find_elem in E. pose proof (NoDup_fst_inj l _ _ Hnd E Hin eq_refl). congruence.
  - apply known_find_None in E. destruct E. apply list_elem_of_fmap. by exists (k, m).
Qed.
Lemma known_find_perm k (l l' : msg_index) : l ≡ₚ l' → NoDup (map fst l) → known_find k l = known_find k l'.
Proof.
  intros Hp Hnd. destruct (known_find k l) as [m|] eqn:E.
  - symmetry. apply elem_known_find; [by rewrite <-Hp|]. rewrite <-Hp. by apply known_find_elem.
  - symmetry. apply known_find_None. apply known_find_None in E. by rewrite <-Hp.
Qed.
Lemma known_find_app k (l l' : msg_index) :
  known_find k (l ++ l') = match known_find k l with Some m => Some m | None => known_find k l' end.
Proof. induction l as [|[k' m] l IH]; [done|]. cbn [app known_find]. by case_bool_decide. Qed.

Lemma mapM_perm {A B} (f : A → res B) l l' ys :
  l ≡ₚ l' → mapM f l = Ok ys → ∃ ys', mapM f l' = Ok ys' ∧ ys ≡ₚ ys'.
Proof.
  intros Hp. revert ys. induction Hp as [|x l l' Hp IH|x y l|l1 l2 l3 _ IH1 _ IH2]; intros ys E; cbn [mapM] in *.
  - by eexists.
  - apply res_bind_Ok in E as (b & Eb & E). apply res_bind_Ok in E as (bs' & Ebs & E). injection E as <-.
    destruct (IH _ Ebs) as (ys' & -> & Hys). rewrite Eb. eexists. split; [reflexivity|]. by constructor.
  - apply res_bind_Ok in E as (b & Eb & E). apply res_bind_Ok in E as (bs' & E' & E). injection E as <-.
    apply res_bind_Ok in E' as (b2 & Eb2 & E'). apply res_bind_Ok in E' as (bs2 & Ebs & E'). injection E' as <-.
    rewrite Eb, Eb2, Ebs. eexists. split; [reflexivity|]. constructor.
  - destruct (IH1 _ E) as (y1 & E1 & H1). destruct (IH2 _ E1) as (y2 & E2 & H2). exists y2. split; [done|]. by etrans.
Qed.
Lemma mapM_app_Ok {A B} (f : A → res B) l1 l2 :
  mapM f (l1 ++ l2) = let? y1 := mapM f l1 in let? y2 := mapM f l2 in Ok (y1 ++ y2).
Proof.
  induction l1 as [|x l1 IH]; cbn [app mapM res_bind]; [by destruct (mapM f l2)|].
  destruct (f x); [|done]. cbn [res_bind]. rewrite IH. destruct (mapM f l1); [|done]. cbn [res_bind].
  by destruct (mapM f l2).
Qed.

(** ** What an account holds *)

Definition rank (state : json) : Z := match state_rank state with Ok r => r | Err _ => 0 end.
Definition with_state (state : json) (m : message) : message :=
  {| m_id := m_id m; m_identity := m_identity m; m_contact := m_contact m; m_direction := m_direction m;
     m_type := m_type m; m_body := m_body m; m_remote := m_remote m; m_ts := m_ts m; m_state := state;
     m_meta := m_meta m |}.
(** The abstract merge: a new key is added, a known one only moves forward. *)
Definition join (old new : option message) : option message :=
  match old, new with
  | Some m, Some m' => Some (if rank (m_state m) <? rank (m_state m') then with_state (m_state m') m else m)
  | None, _ => new
  | _, None => old
  end.
Definition merge_one (l : msg_index) (p : mkey * message) : msg_index :=
  match known_find p.1 l with
  | None => l ++ [p]
  | Some m => if rank (m_state m) <? rank (m_state p.2)
              then map (λ q, if bool_decide (q.1 = p.1) then (q.1, with_state (m_state p.2) q.2) else q) l else l
  end.

Lemma join_None_r o : join o None = o.
Proof. by destruct o. Qed.
Lemma map_state_keys k st (l : msg_index) :
  map fst (map (λ q : mkey * message, if bool_decide (q.1 = k) then (q.1, with_state st q.2) else q) l) = map fst l.
Proof. rewrite map_map. apply map_ext. intros q. by case_bool_decide. Qed.
Lemma map_state_find k st k' (l : msg_index) :
  known_find k' (map (λ q : mkey * message, if bool_decide (q.1 = k) then (q.1, with_state st q.2) else q) l)
  = (if bool_decide (k' = k) then with_state st else id) <$> known_find k' l.
Proof.
  induction l as [|[k2 m] l IH]; [done|]. cbn [map known_find fst].
  destruct (bool_decide (k2 = k)) eqn:E2; cbn [known_find fst snd].
  - apply bool_decide_eq_true in E2 as ->. destruct (decide (k' = k)) as [->|Hne].
    + rewrite !bool_decide_true by done. done.
    + rewrite !(bool_decide_false (k' = k)) in * by done. by rewrite IH.
  - apply bool_decide_eq_false in E2. destruct (decide (k' = k2)) as [->|Hne].
    + rewrite (bool_decide_true (k2 = k2)), (bool_decide_false (k2 = k)) by done. done.
    + rewrite !(bool_decide_false (k' = k2)) by done. by rewrite IH.
Qed.
Lemma merge_one_keys l p :
  map fst (merge_one l p) = if bool_decide (p.1 ∈ map fst l) then map fst l else map fst l ++ [p.1].
Proof.
  unfold merge_one. destruct (known_find p.1 l) as [m|] eqn:E.
  - rewrite bool_decide_true by (apply known_find_elem in E; apply list_elem_of_fmap; by exists (p.1, m)).
    destruct (_ <? _); [by rewrite map_state_keys|done].
  - apply known_find_None in E. rewrite bool_decide_false by done. by rewrite map_app.
Qed.
Lemma merge_one_find l p k :
  known_find k (merge_one l p)
  = join (known_find k l) (if bool_decide (k = p.1) then Some p.2 else None).
Proof.
  unfold merge_one. destruct (decide (k = p.1)) as [->|Hne].
  - rewrite bool_decide_true by done. destruct (known_find p.1 l) as [m|] eqn:E; cbn [join].
    + destruct (_ <? _) eqn:Er; [|by rewrite E]. rewrite map_state_find, E, bool_decide_true; done.
    + rewrite known_find_app, E. destruct p as [k m]. cbn. by rewrite bool_decide_true.
  - rewrite bool_decide_false, join_None_r by done. destruct (known_find p.1 l) as [m|] eqn:E.
    + destruct (_ <? _); [|done]. rewrite map_state_find, bool_decide_false by done. by destruct (known_find k l).
    + rewrite known_find_app. destruct (known_find k l); [done|]. destruct p as [k2 m]. cbn. by rewrite bool_decide_false.
Qed.
Lemma merge_one_nodup l p : NoDup (map fst l) → NoDup (map fst (merge_one l p)).
Proof.
  intros H. rewrite merge_one_keys. case_bool_decide; [done|]. apply NoDup_app. split_and!; [done|set_solver|apply NoDup_singleton].
Qed.
(** Merging entries with distinct keys joins them with what is held. *)
Lemma merge_all_find ps l k :
  NoDup (map fst ps) → known_find k (fold_left merge_one ps l) = join (known_find k l) (known_find k ps).
Proof.
  revert l. induction ps as [|[k' m] ps IH]; intros l Hnd; cbn [fold_left known_find].
  - by rewrite join_None_r.
  - cbn [map fst] in Hnd. apply NoDup_cons in Hnd as [Hk Hnd]. rewrite IH, merge_one_find by done. cbn [fst snd].
    case_bool_decide as E; [subst k'|].
    + apply known_find_None in Hk. by rewrite Hk, join_None_r.
    + by destruct (known_find k l).
Qed.
Lemma merge_all_nodup ps l : NoDup (map fst l) → NoDup (map fst (fold_left merge_one ps l)).
Proof. revert l. induction ps as [|p ps IH]; intros l H; [done|]. apply IH. by apply merge_one_nodup. Qed.
Section held.
Context {C : Crypto} {L : CryptoLaws C}.

Definition held_row (key : bytes) (r : message_row) : res (mkey * message) :=
  let? m := message_from_row key r in let? k := message_key (message_json m) in Ok (k, m).
Definition mine (identity_id : string) (r : message_row) : bool := String.eqb (mr_identity r) identity_id.
(** The messages of an identity with their keys, in the order they were added. *)
Definition held (identity_id : string) (s : LocalStore) : res msg_index :=
  mapM (held_row (store_key s)) (List.filter (mine identity_id) (messages s)).

(** An item that stands for a message of [identity_id], up to the message's id. *)
Record says (identity_id : string) (item : json) (m : message) : Prop := {
  sa_contact : jget "contact_id" item = Ok (m_contact m);
  sa_direction : jget "direction" item = Ok (m_direction m);
  sa_type : jget "type" item = Ok (m_type m);
  sa_body : jget "body" item = Ok (m_body m);
  sa_remote : jget "remote_id" item = Ok (m_remote m);
  sa_ts : jget "ts" item = Ok (JInt (m_ts m));
  sa_state : jget "state" item = Ok (m_state m);
  sa_nonempty : truthy (m_contact m) && truthy (m_direction m) && truthy (m_type m) = true;
  sa_owner : m_identity m = identity_id;
  sa_meta : m_meta m = JNull;
  sa_storable : storable_message m
}.
(** The same with the id: the item's own, or the one drawn for it. *)
Record reads (identity_id : string) (p : draw * json) (m : message) : Prop := {
  rd_says : says identity_id p.2 m;
  rd_id : ∃ j, jget "id" p.2 = Ok j ∧ m_id m = to_pystr (jor j (JStr (d_id p.1)));
  rd_nonces : length (d_n1 p.1) = 12%nat ∧ length (d_n2 p.1) = 12%nat
}.

Lemma jget_jitem k j v : jget k j = Ok v → truthy v = true → jitem k j = Ok v.
Proof using.
  destruct j as [| | | | |d]; try done. cbn. destruct (dget k d); [by intros [= ->]|]. by intros [= <-].
Qed.
Lemma to_int_or n : to_int (jor (JInt n) (JInt 0)) = Ok n.
Proof using. unfold jor. cbn [truthy]. by destruct (Z.eqb_spec n 0) as [->|]. Qed.

Lemma storable_key m : storable_message m → ∃ k, message_key (message_json m) = Ok k ∧ key_hashable k = true.
Proof using.
  intros ([c Hc] & [d Hd] & _). unfold message_key, message_json. cbn [jget dget String.eqb Ascii.eqb Bool.eqb res_bind].
  rewrite Hc, Hd. cbn [as_key]. destruct (truthy (m_remote m)); [by eexists|]. rewrite to_int_or. by eexists.
Qed.
Lemma says_key id item m : says id item m → message_key item = message_key (message_json m).
Proof using.
  intros H. unfold message_key. rewrite (sa_contact _ _ _ H), (sa_direction _ _ _ H), (sa_type _ _ _ H),
    (sa_body _ _ _ H), (sa_remote _ _ _ H), (sa_ts _ _ _ H). reflexivity.
Qed.
Lemma says_message id item m mid :
  says id item m → mid = m_id m → message_of_item id mid item = Ok m.
Proof using.
  intros H ->. pose proof (sa_nonempty _ _ _ H) as [[Hc Hd]%andb_true_iff Ht]%andb_true_iff. unfold message_of_item.
  rewrite (jget_jitem _ _ _ (sa_contact _ _ _ H) Hc), (sa_direction _ _ _ H), (sa_type _ _ _ H),
    (sa_body _ _ _ H), (sa_remote _ _ _ H), (sa_ts _ _ _ H), (sa_state _ _ _ H). cbn [res_bind].
  rewrite to_int_or. cbn [res_bind]. unfold jor. rewrite Hd, Ht, <-(sa_owner _ _ _ H), <-(sa_meta _ _ _ H). by destruct m.
Qed.

Lemma state_rank_textual st : textual st → state_rank st = Ok (rank st).
Proof using. intros [[t|] ->]; reflexivity. Qed.

(** What a row reads as. *)
Lemma row_reads key r m : message_from_row key r = Ok m →
  m_id m = mr_id r ∧ m_identity m = mr_identity r ∧ m_contact m = JStr (mr_contact r) ∧
  m_direction m = JStr (mr_direction r) ∧ m_type m = JStr (mr_type r) ∧ m_state m = text_json (mr_state r).
Proof using. unfold message_from_row. intros E. rinv E. by subst. Qed.
Lemma held_row_key key r k m : held_row key r = Ok (k, m) →
  message_from_row key r = Ok m ∧ message_key (message_json m) = Ok k ∧ key_hashable k = true.
Proof using.
  unfold held_row. intros E. apply res_bind_Ok in E as (m' & Em & E). apply res_bind_Ok in E as (k' & Ek & E).
  injection E as -> ->. split_and!; [done..|]. destruct (row_reads _ _ _ Em) as (_ & _ & Hc & Hd & _).
  unfold message_key, message_json in Ek. cbn [jget dget String.eqb Ascii.eqb Bool.eqb res_bind] in Ek.
  rewrite Hc, Hd in Ek. cbn [as_key] in Ek. destruct (truthy (m_remote m)); [by injection Ek as <-|].
  rewrite to_int_or in Ek. by injection Ek as <-.
Qed.
Lemma held_rows id s l : held id s = Ok l →
  Forall2 (λ r p, message_from_row (store_key s) r = Ok p.2 ∧ message_key (message_json p.2) = Ok p.1 ∧
                  key_hashable p.1 = true) (List.filter (mine id) (messages s)) l.
Proof using.
  unfold held. intros E%mapM_Ok. eapply Forall2_impl; [exact E|]. intros r [k m]. apply held_row_key.
Qed.
Lemma held_ids id s l : held id s = Ok l →
  map (λ p : mkey * message, m_id p.2) l = map mr_id (List.filter (mine id) (messages s)).
Proof using.
  intros H%held_rows. induction H as [|r p rows l (Hr & _) _ IH]; [done|]. cbn [map]. rewrite IH. f_equal.
  by apply row_reads in Hr as [? _].
Qed.

(** Adding a message whose id is new appends it. *)
Lemma add_held id s l d m k :
  wf_store s → held id s = Ok l → storable_message m → m_identity m = id →
  message_key (message_json m) = Ok k → length (d_n1 d) = 12%nat → length (d_n2 d) = 12%nat →
  m_id m ∉ map mr_id (messages s) →
  ∃ row, mr_id row = m_id m ∧ let s' := set_messages (messages s ++ [row]) s in
    add_message (d_n1 d) (d_n2 d) m s = (Ok tt, s') ∧ held id s' = Ok (l ++ [(k, m)]) ∧
    get_message (JStr (m_id m)) s' = (Ok (Some m), s').
Proof using L.
  intros Hs Hl Hm Hid Hk Hn1 Hn2 Hfresh.
  destruct (message_row_reads (store_key s) (d_n1 d) (d_n2 d) m (ws_key _ Hs) Hn1 Hn2 Hm) as (row & E & Hrow & R0 & _).
  exists row. split; [by apply String.eqb_eq in Hrow|]. cbv zeta. rewrite (add_message_run _ _ _ _ _ E).
  rewrite upsert_new by (apply (existsb_key mr_id (is_message (m_id m)) (m_id m)); [intros r; apply String.eqb_eq|done]).
  split_and!; [done| |].
  - unfold held in *. cbn [store_key messages set_messages]. rewrite List.filter_app, mapM_app_Ok, Hl. cbn [res_bind List.filter].
    destruct (row_reads _ _ _ R0) as (_ & Hi & _). cbn [stored_message] in Hi. unfold mine at 1.
    rewrite <-Hi, Hid, String.eqb_refl. cbn [mapM]. unfold held_row. rewrite R0. cbn [stored_message res_bind]. by rewrite Hk.
  - rewrite get_message_run. cbn [messages set_messages store_key].
    assert (List.find (is_message (m_id m)) (messages s ++ [row]) = Some row) as ->.
    { clear -Hfresh Hrow. induction (messages s) as [|r l IH]; cbn [app List.find]; [by rewrite Hrow|].
      cbn [map] in Hfresh. apply not_elem_of_cons in Hfresh as [H1 H2]. unfold is_message at 1.
      rewrite (proj2 (String.eqb_neq _ _)) by congruence. by apply IH. }
    by rewrite R0.
Qed.

(** Setting the state of a held message sets it in its place. *)
Lemma set_state_run s st id :
  textual st →
  ∃ f, update_message (λ _, []) (JStr id) [("state"%string, st)] s
       = (Ok tt, set_messages (update_where (λ r, String.eqb (mr_id r) id) f (messages s)) s) ∧
    ∀ key r, mr_id (f r) = mr_id r ∧ mr_identity (f r) = mr_identity r ∧
      message_from_row key (f r) = let? m := message_from_row key r in Ok (with_state st m).
Proof using.
  intros [t ->]. eexists. split.
  - unfold update_message, se_bind, se_get, se_lift, se_put. cbn [imap]. unfold set_field.
    cbn [mapM fst snd String.eqb Ascii.eqb Bool.eqb]. rewrite sql_text_json. reflexivity.
  - intros key r. cbn [fold_left]. split_and!; [done..|]. unfold message_from_row. cbn [mr_body mr_meta].
    destruct (open key (mr_body r)); [|done]. cbn [res_bind]. by destruct (open key (mr_meta r)).
Qed.

Lemma with_state_key st m : message_key (message_json (with_state st m)) = message_key (message_json m).
Proof using. reflexivity. Qed.

Lemma filter_update_where {R} (P Q : R → bool) f (l : list R) :
  (∀ r, P (f r) = P r) → List.filter P (update_where Q f l) = update_where Q f (List.filter P l).
Proof using.
  intros HP. unfold update_where. induction l as [|r l IH]; [done|]. cbn [map List.filter].
  assert (P (if Q r then f r else r) = P r) as -> by (destruct (Q r); [apply HP|done]). rewrite IH.
  by destruct (P r).
Qed.

Lemma held_nodup_ids id s l : wf_store s → held id s = Ok l → NoDup (map (λ p : mkey * message, m_id p.2) l).
Proof using. intros Hs Hl. rewrite (held_ids _ _ _ Hl). apply filter_nodup, Hs. Qed.

Lemma update_held id s l k old st :
  wf_store s → held id s = Ok l → NoDup (map fst l) → known_find k l = Some old → textual st →
  ∃ f, let s' := set_messages (update_where (λ r, String.eqb (mr_id r) (m_id old)) f (messages s)) s in
    update_message (λ _, []) (JStr (m_id old)) [("state"%string, st)] s = (Ok tt, s') ∧
    held id s' = Ok (map (λ q, if bool_decide (q.1 = k) then (q.1, with_state st q.2) else q) l) ∧
    map mr_id (messages s') = map mr_id (messages s).
Proof using.
  intros Hs Hl Hnd Hk Hst. destruct (set_state_run s st (m_id old) Hst) as (f & E & Hf). exists f. cbv zeta.
  split_and!; [done| |cbn [messages set_messages]; apply update_where_keys; intros r; apply (Hf [])].
  pose proof (held_nodup_ids _ _ _ Hs Hl) as Hids. apply known_find_elem in Hk.
  unfold held in *. cbn [store_key messages set_messages].
  rewrite filter_update_where by (intros r; unfold mine; by rewrite (proj1 (proj2 (Hf [] r)))).
  assert (∀ q, q ∈ l → (m_id q.2 = m_id old ↔ q.1 = k)) as Hq.
  { intros q Hq. split; intros Eq.
    - apply list_elem_of_split in Hk as (l1 & l2 & ->). rewrite map_app in Hids. cbn [map snd] in Hids.
      apply elem_of_app in Hq as [Hq|[->|Hq]%elem_of_cons]; [|done|].
      + apply NoDup_app in Hids as (_ & Hd & _). destruct (Hd (m_id q.2)); [apply list_elem_of_fmap; by exists q|].
        rewrite Eq. by left.
      + apply NoDup_app in Hids as (_ & _ & [Hn _]%NoDup_cons). destruct Hn. rewrite <-Eq. apply list_elem_of_fmap. by exists q.
    - by rewrite (NoDup_fst_inj l q (k, old) Hnd Hq Hk Eq). }
  clear Hnd Hk Hids. revert l Hl Hq. induction (List.filter (mine id) (messages s)) as [|r rows IH]; intros l Hl Hq.
  - injection Hl as <-. done.
  - cbn [mapM] in Hl. apply res_bind_Ok in Hl as ([k' m] & Er & Hl). apply res_bind_Ok in Hl as (l' & Hl & E').
    injection E' as <-. unfold update_where in *. cbn [map mapM fst snd].
    rewrite (IH l' Hl) by (intros q Hin; apply Hq; by right). clear IH Hl.
    pose proof (Hq (k', m) (list_elem_of_here _ _)) as Hkm. cbn [fst snd] in Hkm. unfold held_row in *.
    apply res_bind_Ok in Er as (m' & Em & Er). apply res_bind_Ok in Er as (k2 & Ek & Er). injection Er as -> ->.
    destruct (row_reads _ _ _ Em) as (Hmr & _). rewrite <-Hmr.
    destruct (String.eqb_spec (m_id m) (m_id old)) as [Eo|Eo].
    + rewrite (proj2 (proj2 (Hf (store_key s) r))), Em. cbn [res_bind]. rewrite with_state_key, Ek.
      rewrite bool_decide_true by tauto. done.
    + rewrite Em. cbn [res_bind]. rewrite Ek. rewrite bool_decide_false by tauto. done.
Qed.

(** ** One step of the merge *)

(** Nothing changed but the message table. *)
Definition only_messages (s s' : LocalStore) : Prop := s' = set_messages (messages s') s.

Lemma set_messages_wf ms s : wf_store s → NoDup (map mr_id ms) → wf_store (set_messages ms s).
Proof using. intros Hs Hnd. by apply wf_set_messages. Qed.

(** Up to the lookup in the index nothing happens. *)
Lemma merge_message_start id d item m k known n s :
  says id item m → message_key (message_json m) = Ok k →
  merge_message id d item known n s =
  match known_find k known with
  | Some old =>
      (do! r' := se_lift (state_rank (m_state old)) in
       if r' <? rank (m_state m)
       then do! _ := update_message (λ _, []) (JStr (m_id old)) [("state"%string, m_state m)] in
            se_ret (known, add_update n)
       else se_ret (known, n)) s
  | None =>
      (do! id' := se_lift (jget "id" item) in
       let message_id := to_pystr (jor id' (JStr (d_id d))) in
       do! m := se_lift (message_of_item id message_id item) in
       do! _ := add_message (d_n1 d) (d_n2 d) m in
       do! stored := get_message (JStr message_id) in
       se_ret (match stored with Some m => (k, m) :: known | None => known end, count_message n)) s
  end.
Proof using.
  intros Hr Hk. pose proof (sa_nonempty _ _ _ Hr) as [[Hc _]%andb_true_iff _]%andb_true_iff.
  destruct (storable_key m (sa_storable _ _ _ Hr)) as (k' & Ek & Hh). rewrite Hk in Ek. injection Ek as <-.
  unfold merge_message. unfold se_bind at 1, se_lift at 1. rewrite (sa_contact _ _ _ Hr), Hc. cbn [negb].
  unfold se_bind at 1, se_lift at 1. rewrite (says_key _ _ _ Hr), Hk.
  unfold se_bind at 1, se_lift at 1, known_get. rewrite Hh. cbn [negb].
  destruct (known_find k known) as [old|] eqn:Ef; [|done]. unfold se_bind at 1, se_lift at 1.
  rewrite (sa_state _ _ _ Hr). destruct (sa_storable _ _ _ Hr) as (_ & _ & _ & _ & Hst & _).
  unfold se_bind at 1, se_lift at 1. by rewrite (state_rank_textual _ Hst).
Qed.
Lemma merge_message_known id d item m k known n s old :
  says id item m → message_key (message_json m) = Ok k → known_find k known = Some old → textual (m_state old) →
  merge_message id d item known n s =
  if rank (m_state old) <? rank (m_state m)
  then (do! _ := update_message (λ _, []) (JStr (m_id old)) [("state"%string, m_state m)] in
        se_ret (known, add_update n)) s
  else (Ok (known, n), s).
Proof using.
  intros Hr Hk Hf Ht. rewrite (merge_message_start id d item m k known n s Hr Hk), Hf.
  unfold se_bind at 1, se_lift at 1. rewrite (state_rank_textual _ Ht). by destruct (_ <? _).
Qed.
Lemma merge_message_new id p m k known n s :
  reads id p m → message_key (message_json m) = Ok k → known_find k known = None →
  merge_message id p.1 p.2 known n s =
  (do! _ := add_message (d_n1 p.1) (d_n2 p.1) m in
   do! stored := get_message (JStr (m_id m)) in
   se_ret (match stored with Some m => (k, m) :: known | None => known end, count_message n)) s.
Proof using.
  intros Hr Hk Hf. rewrite (merge_message_start id p.1 p.2 m k known n s (rd_says _ _ _ Hr) Hk), Hf.
  destruct (rd_id _ _ _ Hr) as (j & Ej & Hid). unfold se_bind at 1, se_lift at 1. rewrite Ej, <-Hid.
  unfold se_bind at 1, se_lift at 1. by rewrite (says_message id p.2 m _ (rd_says _ _ _ Hr) eq_refl).
Qed.

Lemma held_textual id s l k m : held id s = Ok l → known_find k l = Some m → textual (m_state m).
Proof using.
  intros Hl%held_rows Hk%known_find_elem. apply list_elem_of_lookup in Hk as [i Hi].
  destruct (Forall2_lookup_r _ _ _ _ _ Hl Hi) as (r & _ & Hr & _). apply row_reads in Hr as (_ & _ & _ & _ & _ & Hst). cbn [snd] in Hst. rewrite Hst.
  by eexists.
Qed.

(** The message ids of the table after a merge of [p]. *)
Definition ids_after (l : msg_index) (p : mkey * message) (ids : list string) : list string :=
  if bool_decide (p.1 ∈ map fst l) then ids else ids ++ [m_id p.2].

Lemma merge_step id p m k s l known n :
  wf_store s → held id s = Ok l → NoDup (map fst l) → reads id p m → message_key (message_json m) = Ok k →
  known_find k known = known_find k l → (k ∉ map fst l → m_id m ∉ map mr_id (messages s)) →
  ∃ s' known' n', merge_message id p.1 p.2 known n s = (Ok (known', n'), s') ∧
    wf_store s' ∧ only_messages s s' ∧ held id s' = Ok (merge_one l (k, m)) ∧
    (∀ k', k' ≠ k → known_find k' known' = known_find k' known) ∧
    map mr_id (messages s') = ids_after l (k, m) (map mr_id (messages s)).
Proof using L.
  intros Hs Hl Hnd Hr Hk Hkn Hfresh. unfold merge_one, ids_after. cbn [fst snd].
  destruct (known_find k l) as [old|] eqn:Ef.
  - rewrite (merge_message_known id p.1 p.2 m k known n s old (rd_says _ _ _ Hr) Hk Hkn (held_textual id s l k old Hl Ef)).
    assert (k ∈ map fst l) as Hin by (apply known_find_elem in Ef; apply list_elem_of_fmap; by exists (k, old)).
    rewrite bool_decide_true by done. destruct (rank (m_state old) <? rank (m_state m)).
    + destruct (update_held id s l k old (m_state m) Hs Hl Hnd Ef) as (f & E & Hl' & Hids);
        [by destruct (sa_storable _ _ _ (rd_says _ _ _ Hr)) as (_ & _ & _ & _ & ? & _)|].
      unfold se_bind. rewrite E. eexists _, known, _. split; [reflexivity|].
      split_and!; [|done|done|done|done]. apply set_messages_wf; [done|]. cbn [messages set_messages] in Hids.
      rewrite Hids. apply Hs.
    + exists s, known, n. split_and!; try done. by destruct s.
  - rewrite (merge_message_new id p m k known n s Hr Hk Hkn).
    apply known_find_None in Ef. rewrite bool_decide_false by done. destruct (rd_nonces _ _ _ Hr) as [Hn1 Hn2].
    destruct (add_held id s l p.1 m k Hs Hl (sa_storable _ _ _ (rd_says _ _ _ Hr)) (sa_owner _ _ _ (rd_says _ _ _ Hr)) Hk Hn1 Hn2 (Hfresh Ef))
      as (row & Erow & E & Hl' & Hg).
    unfold se_bind. rewrite E, Hg. eexists _, ((k, m) :: known), _. split; [reflexivity|].
    split_and!; try done.
    + apply set_messages_wf; [done|]. rewrite map_app. cbn [map]. rewrite Erow. apply NoDup_app.
      split_and!; [apply Hs| |apply NoDup_singleton]. intros x Hx ->%list_elem_of_singleton. by apply (Hfresh Ef).
    + intros k' Hne. cbn [known_find]. by rewrite bool_decide_false.
    + cbn [messages set_messages]. rewrite map_app. cbn [map]. by rewrite Erow.
Qed.

(** Items that stand for the keyed messages [ps], with distinct keys. *)
Definition item_reads (id : string) (p : draw * json) (q : mkey * message) : Prop :=
  reads id p q.2 ∧ message_key (message_json q.2) = Ok q.1.
Record good_items (id : string) (items : list (draw * json)) (ps : msg_index) : Prop := {
  gi_reads : Forall2 (item_reads id) items ps;
  gi_keys : NoDup (map fst ps);
  gi_ids : NoDup (map (λ q : mkey * message, m_id q.2) ps)
}.
(** No new message takes the id of a message that is in the table. *)
Definition fresh_ids (ps : msg_index) (s : LocalStore) : Prop :=
  ∀ q, q ∈ ps → m_id q.2 ∉ map mr_id (messages s).

Lemma only_messages_trans s1 s2 s3 : only_messages s1 s2 → only_messages s2 s3 → only_messages s1 s3.
Proof using. unfold only_messages. intros H1 H2. rewrite H2, H1. by destruct s1. Qed.

Lemma merge_messages_spec id items ps s l known n :
  wf_store s → held id s = Ok l → NoDup (map fst l) → good_items id items ps → fresh_ids ps s →
  (∀ k, k ∈ map fst ps → known_find k known = known_find k l) →
  ∃ s' known' n', merge_messages id items known n s = (Ok (known', n'), s') ∧
    wf_store s' ∧ only_messages s s' ∧ held id s' = Ok (fold_left merge_one ps l).
Proof using L.
  intros Hs Hl Hnd [Hread Hkeys Hids] Hfresh Hkn. revert s l known n Hs Hl Hnd Hkeys Hids Hfresh Hkn.
  induction Hread as [|p [k m] items ps [Hr Hk] Hread IH]; intros s l known n Hs Hl Hnd Hkeys Hids Hfresh Hkn.
  - exists s, known, n. split_and!; try done. by destruct s.
  - cbn [map fst snd] in *. apply NoDup_cons in Hkeys as [Hk1 Hkeys]. apply NoDup_cons in Hids as [Hi1 Hids].
    destruct (merge_step id p m k s l known n Hs Hl Hnd Hr Hk) as (s1 & known1 & n1 & E & Hs1 & Ho1 & Hl1 & Hkn1 & Hids1).
    { apply Hkn. by left. }
    { intros _. apply (Hfresh (k, m)). by left. }
    destruct (IH s1 (merge_one l (k, m)) known1 n1 Hs1 Hl1 (merge_one_nodup l (k, m) Hnd) Hkeys Hids) as (s2 & known2 & n2 & E2 & Hs2 & Ho2 & Hl2).
    { intros q Hq. rewrite Hids1. unfold ids_after. cbn [fst snd]. pose proof (Hfresh q (list_elem_of_further _ _ _ Hq)) as Hf.
      case_bool_decide; [done|]. apply not_elem_of_app. split; [done|]. intros Eq%list_elem_of_singleton.
      apply Hi1. rewrite <-Eq. apply list_elem_of_fmap. by exists q. }
    { intros k' Hk'. assert (k' ≠ k) by congruence. rewrite Hkn1, merge_one_find, (Hkn k') by (done || by right).
      cbn [fst]. by rewrite bool_decide_false, join_None_r. }
    exists s2, known2, n2. cbn [merge_messages fold_left]. destruct p as [d item]. unfold se_bind. cbn [fst snd] in E.
    rewrite E. split_and!; [done..|by eapply only_messages_trans|done].
Qed.

(** The index lists what is held. *)
Lemma index_messages_spec key rows ms known :
  mapM (message_from_row key) rows = Ok ms → ∀ l, mapM (held_row key) rows = Ok l →
  index_messages ms known = Ok (rev l ++ known).
Proof using.
  revert ms known. induction rows as [|r rows IH]; intros ms known Em l El; cbn [mapM] in *.
  - injection Em as <-. by injection El as <-.
  - apply res_bind_Ok in Em as (m & Er & Em). apply res_bind_Ok in Em as (ms' & Em & E). injection E as <-.
    apply res_bind_Ok in El as ([k m'] & Eh & El). apply res_bind_Ok in El as (l' & El & E). injection E as <-.
    apply held_row_key in Eh as (Er' & Ek & Hh). rewrite Er in Er'. injection Er' as <-.
    cbn [index_messages]. rewrite Ek. cbn [res_bind]. rewrite Hh. cbn [negb rev].
    rewrite (IH ms' _ Em l' El), <-app_assoc. reflexivity.
Qed.
Lemma message_index_run id s l :
  held id s = Ok l → ∃ known, message_index id s = (Ok known, s) ∧ known ≡ₚ l.
Proof using.
  intros Hl. unfold held in Hl.
  destruct (mapM_perm (held_row (store_key s)) _ (order_by ts_id_le (List.filter (mine id) (messages s))) l
              (Permutation_sym (order_by_perm _ _)) Hl) as (l' & El & Hp).
  assert (∃ ms, mapM (message_from_row (store_key s)) (order_by ts_id_le (List.filter (mine id) (messages s))) = Ok ms) as [ms Ems].
  { clear Hl Hp. revert l' El. induction (order_by _ _) as [|r rows IH]; intros l' El; [by eexists|]. cbn [mapM] in *.
    apply res_bind_Ok in El as ([k m] & Eh & El). apply res_bind_Ok in El as (l2 & El & _).
    apply held_row_key in Eh as (-> & _). destruct (IH _ El) as [ms ->]. by eexists. }
  exists (rev l' ++ []). split; [|by rewrite app_nil_r, Permutation_rev, rev_involutive, Hp].
  unfold message_index, list_all_messages, se_bind, se_get, se_lift. fold (mine id). unfold mine in Ems, El |- *.
  rewrite Ems. by rewrite (index_messages_spec _ _ _ [] Ems l' El).
Qed.

(** A second merge changes nothing, whatever is drawn for it. *)
Definition item_says (id : string) (p : draw * json) (q : mkey * message) : Prop :=
  says id p.2 q.2 ∧ message_key (message_json q.2) = Ok q.1.
Lemma merge_known_messages id items ps known n s :
  Forall2 (item_says id) items ps →
  (∀ k m, (k, m) ∈ ps → ∃ old, known_find k known = Some old ∧ textual (m_state old) ∧ rank (m_state m) ≤ rank (m_state old)) →
  merge_messages id items known n s = (Ok (known, n), s).
Proof using.
  intros Hread Hk. induction Hread as [|[d item] [k m] items ps [Hr Ek] Hread IH]; [done|]. cbn [merge_messages].
  destruct (Hk k m (list_elem_of_here _ _)) as (old & Hf & Ht & Hle). cbn [snd fst] in *.
  unfold se_bind. rewrite (merge_message_known id d item m k known n s old Hr Ek Hf Ht), (proj2 (Z.ltb_ge _ _) Hle).
  apply IH. intros k' m' Hin. apply Hk. by right.
Qed.

(** C35: merging messages is a join.  For an account whose messages have distinct keys, and
    items with distinct keys and unused ids, the merge succeeds, touches no other table,
    and what is held under each key afterwards is the join of what was held and what
    came: a new message is added, a known one keeps its content and its state only
    moves forward.  So the result does not depend on the order of the items. *)
Theorem merge_joins id items ps s l n :
  wf_store s → held id s = Ok l → NoDup (map fst l) → good_items id items ps → fresh_ids ps s →
  ∃ s' r, (do! known := message_index id in merge_messages id items known n) s = (Ok r, s') ∧
    wf_store s' ∧ only_messages s s' ∧
    ∃ l', held id s' = Ok l' ∧ NoDup (map fst l') ∧
      ∀ k, known_find k l' = join (known_find k l) (known_find k ps).
Proof using L.
  intros Hs Hl Hnd Hg Hf. destruct (message_index_run id s l Hl) as (known & Ei & Hp).
  destruct (merge_messages_spec id items ps s l known n Hs Hl Hnd Hg Hf) as (s' & known' & n' & E & Hs' & Ho & Hl').
  { intros k _. apply known_find_perm; [done|]. by rewrite Hp. }
  exists s', (known', n'). unfold se_bind. rewrite Ei. split_and!; [done..|]. eexists. split_and!; [done|by apply merge_all_nodup|].
  intros k. apply merge_all_find, Hg.
Qed.

(** ** Contacts and chunks *)

Definition readable_contacts (id : string) (s : LocalStore) : Prop :=
  ∀ r, r ∈ contacts s → cr_identity r = id → ∃ c, contact_from_row (store_key s) r = Ok c.
Definition only_contacts (s s' : LocalStore) : Prop := s' = set_contacts (contacts s') s.
Definition item_contact (id : string) (now : Z) (item : json) (c : contact) : Prop :=
  jget "id" item = Ok (JStr (c_id c)) ∧ c_id c ≠ ""%string ∧ contact_of_item id (c_id c) now item = Ok c ∧ storable_contact c.

Lemma contact_of_item_session id cid now item c : contact_of_item id cid now item = Ok c → c_session c = JNull.
Proof using. unfold contact_of_item. intros E. rinv E. by subst. Qed.

Lemma get_contact_readable id cid s :
  readable_contacts id s →
  ∃ o, get_contact id cid s = (Ok o, s) ∧ (is_Some o ↔ existsb (is_contact id cid) (contacts s) = true).
Proof using.
  intros Hr. rewrite get_contact_run. destruct (List.find _ (contacts s)) as [r|] eqn:E.
  - apply List.find_some in E as [Hin Hc]. destruct (Hr r) as [c ->]; [by apply list_elem_of_In| |].
    { by apply andb_true_iff in Hc as [?%String.eqb_eq _]. }
    exists (Some c). split; [done|]. split; [|by eexists]. intros _. apply existsb_exists. by exists r.
  - exists None. split; [done|]. split; [by intros []|]. intros (r & Hin & Hc)%existsb_exists.
    by rewrite (List.find_none _ _ E r Hin) in Hc.
Qed.

(** A contact that exists is left alone. *)
Lemma merge_contact_known id now item c s :
  readable_contacts id s → jget "id" item = Ok (JStr (c_id c)) → c_id c ≠ ""%string →
  existsb (is_contact id (c_id c)) (contacts s) = true → merge_contact id now item s = (Ok false, s).
Proof using.
  intros Hr Hid Hne He. destruct (get_contact_readable id (c_id c) s Hr) as (o & E & Ho).
  unfold merge_contact, se_bind, se_lift. rewrite Hid. unfold jor. cbn [truthy].
  rewrite (proj2 (String.eqb_neq _ _) Hne). cbn [negb to_pystr]. rewrite (proj2 (String.eqb_neq _ _) Hne), E.
  apply Ho in He. by destruct o as [c'|]; [|destruct He].
Qed.
Lemma merge_contact_step id now item c s :
  wf_store s → readable_contacts id s → item_contact id now item c →
  ∃ s' b, merge_contact id now item s = (Ok b, s') ∧ wf_store s' ∧ readable_contacts id s' ∧ only_contacts s s' ∧
    existsb (is_contact id (c_id c)) (contacts s') = true ∧
    ∀ cid, existsb (is_contact id cid) (contacts s) = true → existsb (is_contact id cid) (contacts s') = true.
Proof using L.
  intros Hs Hr (Hid & Hne & Hc & Hst). destruct (existsb (is_contact id (c_id c)) (contacts s)) eqn:He.
  { exists s, false. rewrite (merge_contact_known id now item c s) by done. split_and!; try done. by destruct s. }
  destruct (get_contact_readable id (c_id c) s Hr) as (o & E & Ho). assert (o = None) as ->.
  { apply eq_None_not_Some. rewrite Ho, He. done. }
  clear Ho.
  destruct (contact_row_reads (store_key s) (repeat "0"%char 12) now id c (ws_key _ Hs) eq_refl Hst) as (row & Erow & Hrow & R0 & _).
  assert (contact_to_row (store_key s) [] now id c = Ok row) as Erow'.
  { rewrite <-Erow. unfold contact_to_row. by rewrite (contact_of_item_session _ _ _ _ _ Hc). }
  exists (run_op (UpsertContact [] now id c) s), true. cbn [run_op]. rewrite (upsert_contact_run _ _ _ _ _ _ Erow'). cbn [snd].
  rewrite upsert_new by done. split_and!.
  - unfold merge_contact, se_bind, se_lift. rewrite Hid. unfold jor. cbn [truthy].
    rewrite (proj2 (String.eqb_neq _ _) Hne). cbn [negb to_pystr]. rewrite (proj2 (String.eqb_neq _ _) Hne), E.
    unfold se_except. rewrite Hc, (upsert_contact_run _ _ _ _ _ _ Erow'). by rewrite upsert_new.
  - pose proof (run_op_wf (UpsertContact [] now id c) s Hs) as H. cbn [run_op] in H.
    rewrite (upsert_contact_run _ _ _ _ _ _ Erow'), upsert_new in H by done. exact H.
  - intros r [Hin|Hin%list_elem_of_singleton]%elem_of_app Hi; [by apply Hr|]. subst r. cbn [store_key set_contacts]. by eexists.
  - done.
  - cbn [contacts set_contacts]. rewrite existsb_app. cbn [existsb]. by rewrite Hrow, orb_true_r.
  - intros cid H. cbn [contacts set_contacts]. by rewrite existsb_app, H.
Qed.
Lemma merge_contacts_spec id now items cs s n :
  wf_store s → readable_contacts id s → Forall2 (item_contact id now) items cs →
  ∃ s' n', merge_contacts id now items n s = (Ok n', s') ∧ wf_store s' ∧ readable_contacts id s' ∧ only_contacts s s' ∧
    (∀ cid, existsb (is_contact id cid) (contacts s) = true → existsb (is_contact id cid) (contacts s') = true) ∧
    ∀ c, c ∈ cs → existsb (is_contact id (c_id c)) (contacts s') = true.
Proof using L.
  intros Hs Hr Hi. revert s n Hs Hr. induction Hi as [|item c items cs Hc Hi IH]; intros s n Hs Hr.
  - exists s, n. split_and!; try done; [by destruct s|by intros c ?%not_elem_of_nil].
  - destruct (merge_contact_step id now item c s Hs Hr Hc) as (s1 & b & E & Hs1 & Hr1 & Ho1 & Hc1 & Hk1).
    destruct (IH s1 (if b then add_contact n else n) Hs1 Hr1) as (s2 & n2 & E2 & Hs2 & Hr2 & Ho2 & Hk2 & Hc2).
    exists s2, n2. cbn [merge_contacts]. unfold se_bind. rewrite E. split_and!; try done.
    + unfold only_contacts in *. rewrite Ho2, Ho1. by destruct s.
    + auto.
    + intros c' [->|Hin]%elem_of_cons; auto.
Qed.
Lemma merge_contacts_known id now now' items cs s n :
  readable_contacts id s → Forall2 (item_contact id now) items cs →
  (∀ c, c ∈ cs → existsb (is_contact id (c_id c)) (contacts s) = true) →
  merge_contacts id now' items n s = (Ok n, s).
Proof using.
  intros Hr Hi Hk. induction Hi as [|item c items cs (Hid & Hne & _) Hi IH]; [done|]. cbn [merge_contacts]. unfold se_bind.
  rewrite (merge_contact_known id now' item c s) by (done || apply Hk; by left). apply IH. intros c' Hc'. apply Hk. by right.
Qed.

Definition item_chunk (item : json) (c : string * bytes) : Prop :=
  jget "id" item = Ok (JStr c.1) ∧ c.1 ≠ ""%string ∧ ∃ ct, jitem "ct" item = Ok ct ∧ b64d (to_pystr ct) = Ok c.2.
Definition only_blobs (s s' : LocalStore) : Prop := s' = set_blobs (local_blobs s') s.
Definition holds_blob (cid : string) (s : LocalStore) : bool := existsb (is_blob cid) (local_blobs s).

(** Nothing is dropped while the cache fits. *)
Lemma put_blob_fits now cid data s :
  holds_blob cid s = false → blob_total (local_blobs s) + blen data ≤ LOCAL_BLOB_CAP_BYTES →
  put_local_blob now cid data s =
  (Ok tt, set_blobs (local_blobs s ++ [{| br_id := cid; br_data := data; br_size := blen data; br_created := now |}]) s).
Proof using.
  intros He Ht. unfold put_local_blob. unfold holds_blob in He. unfold se_bind at 1, se_get at 1. rewrite He.
  unfold prune_local_blobs, se_bind, se_put, se_get, se_ret. cbn [local_blobs set_blobs prune_loop].
  assert (LOCAL_BLOB_CAP_BYTES <? blob_total (local_blobs s ++ [{| br_id := cid; br_data := data; br_size := blen data; br_created := now |}]) = false) as ->.
  { apply Z.ltb_ge. unfold blob_total in *. rewrite zsum_app. cbn [zsum br_size]. lia. }
  reflexivity.
Qed.

Lemma merge_chunk_run now item c n s :
  item_chunk item c →
  merge_chunk now item n s =
  if holds_blob c.1 s then (Ok n, s) else (do! _ := put_local_blob now c.1 c.2 in se_ret (add_chunk n)) s.
Proof using.
  intros (Hid & Hne & ct & Hct & Hd). unfold merge_chunk. unfold se_bind at 1, se_lift at 1. rewrite Hid.
  unfold jor. cbn [truthy]. rewrite (proj2 (String.eqb_neq _ _) Hne). cbn [negb to_pystr].
  rewrite (proj2 (String.eqb_neq _ _) Hne). unfold se_bind at 1, se_lift at 1. rewrite Hct. cbn [res_bind]. rewrite Hd.
  unfold has_local_blob, holds_blob, se_bind, se_get, se_ret. cbn [except]. by destruct (existsb _ _).
Qed.

Lemma merge_chunks_spec now items cs s n :
  wf_store s → Forall2 item_chunk items cs →
  blob_total (local_blobs s) + zsum (λ c : string * bytes, blen c.2) cs ≤ LOCAL_BLOB_CAP_BYTES →
  ∃ s' n', merge_chunks now items n s = (Ok n', s') ∧ wf_store s' ∧ only_blobs s s' ∧
    (∀ cid, holds_blob cid s = true → holds_blob cid s' = true) ∧ ∀ c, c ∈ cs → holds_blob c.1 s' = true.
Proof using.
  intros Hs Hi. revert s n Hs. induction Hi as [|item c items cs Hc Hi IH]; intros s n Hs Ht.
  - exists s, n. split_and!; try done; [by destruct s|by intros c ?%not_elem_of_nil].
  - cbn [merge_chunks zsum] in *. unfold se_bind. rewrite (merge_chunk_run now item c n s Hc).
    assert (0 ≤ zsum (λ c : string * bytes, blen c.2) cs) as Hz.
    { apply zsum_nonneg, Forall_forall. intros x _. unfold blen. lia. }
    destruct (holds_blob c.1 s) eqn:He.
    + destruct (IH s n Hs) as (s' & n' & E & Hs' & Ho & Hk & Hin); [unfold blen in *; lia|].
      exists s', n'. split_and!; try done. intros c' [->|Hc']%elem_of_cons; auto.
    + assert (blob_total (local_blobs s) + blen c.2 ≤ LOCAL_BLOB_CAP_BYTES) as Hfit by lia.
      pose proof (wf_put_blob now c.1 c.2 s Hs) as Hs1. unfold se_bind.
      rewrite (put_blob_fits now c.1 c.2 s He Hfit) in Hs1 |- *. cbn [se_ret snd] in *.
      set (s1 := set_blobs _ s) in *.
      assert (blob_total (local_blobs s1) = blob_total (local_blobs s) + blen c.2) as Ht1.
      { unfold s1, blob_total. cbn [local_blobs set_blobs]. rewrite zsum_app. cbn [zsum br_size]. lia. }
      destruct (IH s1 (add_chunk n) Hs1) as (s' & n' & E & Hs' & Ho & Hk & Hin); [lia|].
      exists s', n'. split_and!; try done.
      * intros cid H. apply Hk. unfold holds_blob, s1 in *. cbn [local_blobs set_blobs]. by rewrite existsb_app, H.
      * intros c' [->|Hc']%elem_of_cons; [|by apply Hin]. apply Hk. unfold holds_blob, s1. cbn [local_blobs set_blobs].
        rewrite existsb_app. cbn [existsb]. unfold is_blob. cbn [br_id]. by rewrite String.eqb_refl, orb_true_r.
Qed.
Lemma merge_chunks_known now items cs s n :
  Forall2 item_chunk items cs → (∀ c, c ∈ cs → holds_blob c.1 s = true) → merge_chunks now items n s = (Ok n, s).
Proof using.
  intros Hi Hk. induction Hi as [|item c items cs Hc Hi IH]; [done|]. cbn [merge_chunks]. unfold se_bind.
  rewrite (merge_chunk_run now item c n s Hc), (Hk c (list_elem_of_here _ _)). apply IH. intros c' Hc'. apply Hk. by right.
Qed.

(** ** A whole bundle *)

(** The lists of a bundle and what they stand for, for an account and a store. *)
Record good_bundle (id : string) (now : Z) (draws : nat → draw) (bundle : json) (s : LocalStore)
    (cs : list contact) (ps : msg_index) (ks : list (string * bytes)) : Prop := {
  gb_contacts : ∃ l, jget "contacts" bundle = Ok (JList l) ∧ Forall2 (item_contact id (now / 1000)) l cs;
  gb_messages : ∃ l, jget "messages" bundle = Ok (JList l) ∧ good_items id (imap (λ i item, (draws i, item)) l) ps;
  gb_chunks : ∃ l, jget "chunks" bundle = Ok (JList l) ∧ Forall2 item_chunk l ks;
  gb_fresh : fresh_ids ps s;
  gb_fits : blob_total (local_blobs s) + zsum (λ c : string * bytes, blen c.2) ks ≤ LOCAL_BLOB_CAP_BYTES
}.

Lemma items_or_none_list l : items_or_none (JList l) = Ok l.
Proof using. by destruct l. Qed.

(** The three merges of a bundle, in order. *)
Lemma merge_bundle_run id now draws bundle cl ml kl s :
  jget "contacts" bundle = Ok (JList cl) → jget "messages" bundle = Ok (JList ml) → jget "chunks" bundle = Ok (JList kl) →
  merge_bundle id now draws bundle s =
  (do! n := merge_contacts id (now / 1000) cl new_counts in
   do! known := message_index id in
   do! (known, n) := merge_messages id (imap (λ i item, (draws i, item)) ml) known n in
   merge_chunks now kl n) s.
Proof using.
  intros H1 H2 H3. unfold merge_bundle. unfold se_bind at 1, se_lift at 1. rewrite H1. cbn [res_bind].
  rewrite items_or_none_list. unfold se_bind, se_lift. destruct (merge_contacts _ _ _ _ _) as [[n|] s1]; [|done].
  destruct (message_index id s1) as [[known|] s2]; [|done]. rewrite H2. cbn [res_bind]. rewrite items_or_none_list.
  destruct (merge_messages _ _ _ _ _) as [[[known' n']|] s3]; [|done]. rewrite H3. cbn [res_bind]. by rewrite items_or_none_list.
Qed.

Lemma item_says_any (f g : nat → draw) id l ps :
  Forall2 (item_reads id) (imap (λ i item, (f i, item)) l) ps →
  Forall2 (item_says id) (imap (λ i item, (g i, item)) l) ps.
Proof using.
  revert f g ps. induction l as [|x l IH]; intros f g ps H; inversion H as [|? q ? ps' [Hr Hk] Hl]; subst; [constructor|].
  constructor; [split; [apply Hr|done]|]. exact (IH (λ i, f (S i)) (λ i, g (S i)) ps' Hl).
Qed.

(** The parts of a store that the three merges read are kept by the others. *)
Lemma held_frame id s s' : store_key s' = store_key s → messages s' = messages s → held id s' = held id s.
Proof using. unfold held. by intros -> ->. Qed.
Lemma readable_frame id s s' :
  store_key s' = store_key s → contacts s' = contacts s → readable_contacts id s → readable_contacts id s'.
Proof using. unfold readable_contacts. by intros -> ->. Qed.

(** C36: merging a bundle is idempotent, as its doc comment says.  On a store whose
    contacts and messages can be read, with distinct message keys, a well-formed bundle
    that fits the attachment cache is merged whole: every contact and chunk of it is
    there afterwards; and merging it again, at any later time and with any random draws,
    counts nothing and leaves the store exactly as it is. *)
Theorem merge_bundle_idempotent id now draws bundle s l cs ps ks :
  wf_store s → readable_contacts id s → held id s = Ok l → NoDup (map fst l) →
  good_bundle id now draws bundle s cs ps ks →
  ∃ n s', merge_bundle id now draws bundle s = (Ok n, s') ∧ wf_store s' ∧
    (∀ c, c ∈ cs → existsb (is_contact id (c_id c)) (contacts s') = true) ∧
    (∀ c, c ∈ ks → holds_blob c.1 s' = true) ∧
    ∀ now' draws', merge_bundle id now' draws' bundle s' = (Ok new_counts, s').
Proof using L.
  intros Hs Hr Hl Hnd [(cl & Ecl & Hcl) (ml & Eml & Hml) (kl & Ekl & Hkl) Hfresh Hfits].
  destruct (merge_contacts_spec id (now / 1000) cl cs s new_counts Hs Hr Hcl) as (s1 & n1 & E1 & Hs1 & Hr1 & Ho1 & _ & Hc1).
  assert (held id s1 = Ok l) as Hl1 by (rewrite Ho1; exact Hl).
  destruct (message_index_run id s1 l Hl1) as (known & Ei & Hp).
  destruct (merge_messages_spec id _ ps s1 l known n1 Hs1 Hl1 Hnd Hml) as (s2 & known2 & n2 & E2 & Hs2 & Ho2 & Hl2).
  { rewrite Ho1. exact Hfresh. }
  { intros k _. apply known_find_perm; [done|]. by rewrite Hp. }
  destruct (merge_chunks_spec now kl ks s2 n2 Hs2 Hkl) as (s3 & n3 & E3 & Hs3 & Ho3 & _ & Hk3).
  { rewrite Ho2, Ho1. exact Hfits. }
  assert (contacts s3 = contacts s1 ∧ messages s3 = messages s2 ∧ store_key s3 = store_key s2 ∧ store_key s2 = store_key s1)
    as (Hcs & Hms & Hk32 & Hk21) by (rewrite Ho3, Ho2; done).
  exists n3, s3. split_and!; [|done|rewrite Hcs; exact Hc1|exact Hk3|].
  - rewrite (merge_bundle_run id now draws bundle cl ml kl s) by done. unfold se_bind. by rewrite E1, Ei, E2.
  - intros now' draws'. rewrite (merge_bundle_run id now' draws' bundle cl ml kl s3) by done. unfold se_bind.
    rewrite (merge_contacts_known id (now / 1000) (now' / 1000) cl cs s3 new_counts);
      [|apply (readable_frame id s1); [congruence..|done]|done|by rewrite Hcs].
    set (l2 := fold_left merge_one ps l) in *.
    assert (held id s3 = Ok l2) as Hl3 by (rewrite (held_frame id s2); done).
    destruct (message_index_run id s3 l2 Hl3) as (known' & Ei' & Hp'). rewrite Ei'.
    assert (NoDup (map fst l2)) as Hnd2 by by apply merge_all_nodup.
    rewrite (merge_known_messages id _ ps known' new_counts s3 (item_says_any draws draws' id ml ps (gi_reads _ _ _ Hml))).
    { by apply (merge_chunks_known now' kl ks). }
    intros k m Hin. assert (known_find k known' = known_find k l2) as -> by (apply known_find_perm; [done|by rewrite Hp']).
    pose proof (elem_known_find k m ps (gi_keys _ _ _ Hml) Hin) as Hk.
    assert (known_find k l2 = join (known_find k l) (Some m)) as E by (unfold l2; by rewrite merge_all_find, Hk by apply Hml).
    destruct (known_find k l2) as [m2|] eqn:E2'; [|by destruct (known_find k l)].
    exists m2. split_and!; [done|by apply (held_textual id s3 l2 k)|].
    destruct (known_find k l) as [old|]; cbn [join] in E; [|injection E as ->; done].
    destruct (Z.ltb_spec (rank (m_state old)) (rank (m_state m))); injection E as ->; cbn [m_state with_state]; lia.
Qed.

End held.

(** ** A concrete merge *)

Import Toy.
Definition sample_draw : draw := {| d_id := "new"; d_n1 := sample_iv; d_n2 := sample_iv |}.
Definition received (id : string) (state : json) : message :=
  {| m_id := id; m_identity := "me"; m_contact := JStr "c"; m_direction := JStr "received"; m_type := JStr "text";
     m_body := JObj [("text"%string, JStr "hi")]; m_remote := JStr "r"; m_ts := 5; m_state := state; m_meta := JNull |}.
Definition received_item (state : json) : json := JObj (message_item (JStr "c") (received "new" state)).
Definition received_key : mkey := KRemote (JStr "c") (JStr "received") "r".

Lemma received_storable id st : textual st → storable_message (received id st).
Proof.
  intros Hst. split_and!; [by eexists..|by exists (Some "r"%string)|done| | |done]; cbn [received m_body m_meta]; solve_wf; done.
Qed.
Lemma received_good (f : nat → draw) st :
  textual st → d_id (f 0%nat) = "new"%string → length (d_n1 (f 0%nat)) = 12%nat ∧ length (d_n2 (f 0%nat)) = 12%nat →
  good_items "me" (imap (λ i item, (f i, item)) [received_item st]) [(received_key, received "new" st)].
Proof.
  intros Hst Hd Hn. split; [|apply NoDup_singleton..]. constructor; [|constructor]. split; [|reflexivity].
  split; [split; try reflexivity; by apply received_storable|exists JNull; cbn [fst]; by rewrite Hd|exact Hn].
Qed.
Lemma sample_fresh q : fresh_ids [q] sample_store.
Proof. intros q' _. apply not_elem_of_nil. Qed.

Lemma merge_joins_witness :
  ∃ s' r, (do! known := message_index "me" in
           merge_messages "me" [(sample_draw, received_item (JStr "read"))] known new_counts) sample_store = (Ok r, s') ∧
    wf_store s' ∧ only_messages sample_store s' ∧
    ∃ l', held "me" s' = Ok l' ∧ NoDup (map fst l') ∧
      ∀ k, known_find k l' = join (known_find k []) (known_find k [(received_key, received "new" (JStr "read"))]).
Proof.
  apply (merge_joins "me" [(sample_draw, received_item (JStr "read"))] [(received_key, received "new" (JStr "read"))]
           sample_store [] new_counts sample_store_wf eq_refl NoDup_nil_2).
  - apply (received_good (λ _, sample_draw)); [by exists (Some "read"%string)|done|done].
  - apply sample_fresh.
Defined.

Definition peer_contact : contact :=
  {| c_id := "p"; c_identity := "me"; c_nickname := JStr "peer"; c_isign := []; c_idh := []; c_bundle := JNull;
     c_inbox := JObj []; c_relays := JList []; c_session := JNull; c_verified := false; c_created := 9 |}.
Definition sample_bundle : json :=
  JObj [("v", JInt 1);
        ("contacts", JList [JObj [("id", JStr "p"); ("isign", JStr ""); ("idh", JStr ""); ("nickname", JStr "peer");
                                  ("created_at", JInt 9)]]);
        ("messages", JList [received_item (JStr "read")]);
        ("chunks", JList [JObj [("id", JStr "z"); ("ct", JStr "")]])]%string.
Lemma sample_bundle_good :
  good_bundle "me" 1 (λ _, sample_draw) sample_bundle sample_store [peer_contact]
    [(received_key, received "new" (JStr "read"))] [("z"%string, [])].
Proof.
  split.
  - eexists. split; [reflexivity|]. constructor; [|constructor]. split_and!; [done|done|reflexivity|].
    split_and!; [by exists (Some "peer"%string)|by exists None|..|done|done]; cbn [peer_contact c_inbox c_relays c_session]; solve_wf; by constructor.
  - eexists. split; [reflexivity|]. apply (received_good (λ _, sample_draw)); [by exists (Some "read"%string)|done|done].
  - eexists. split; [reflexivity|]. constructor; [|constructor]. split_and!; [done|done|]. exists (JStr ""). done.
  - apply sample_fresh.
  - apply Z.leb_le. reflexivity.
Qed.
Lemma merge_bundle_idempotent_witness :
  ∃ n s', merge_bundle "me" 1 (λ _, sample_draw) sample_bundle sample_store = (Ok n, s') ∧ wf_store s' ∧
    (∀ c, c ∈ [peer_contact] → existsb (is_contact "me" (c_id c)) (contacts s') = true) ∧
    (∀ c, c ∈ [("z"%string, [] : bytes)] → holds_blob c.1 s' = true) ∧
    ∀ now' draws', merge_bundle "me" now' draws' sample_bundle s' = (Ok new_counts, s').
Proof.
  apply (merge_bundle_idempotent "me" 1 (λ _, sample_draw) sample_bundle sample_store [] [peer_contact]
           [(received_key, received "new" (JStr "read"))] [("z"%string, [])] sample_store_wf).
  - by intros r ?%not_elem_of_nil.
  - reflexivity.
  - apply NoDup_nil_2.
  - apply sample_bundle_good.
Defined.

(** The distinct keys matter: the index is not refreshed when a state moves, so a list
    with the same message twice takes the state back, from read to delivered. *)
Definition repeated_run : res (msg_index * counts) * LocalStore :=
  (do! known := message_index "me" in
   merge_messages "me" [(sample_draw, received_item (JStr "read")); (sample_draw, received_item (JStr "delivered"))]
     known new_counts)
  (add_message sample_iv sample_iv (received "old" (JStr "received")) sample_store).2.
Lemma repeated_item_moves_back :
  (let? m := (get_message (JStr "old") repeated_run.2).1 in Ok (m_state <$> m)) = Ok (Some (JStr "delivered")).
Proof. vm_compute. reflexivity. Qed.
