(* ===== verification/HistoryFile.v ===== *)
(** * Export files and bundle contents

    What an export file is and who can read it, and what a bundle carries. *)

From S2P Require Import Prelude PyStr Json JsonProps Primitives Dict Encoding Sql Store StoreProps History HistoryProps.
From S2P Require Aead Attachments.

(** ** The parts of a file *)

Definition file_layout (v : ascii) (header rest : bytes) : bytes :=
  HISTORY_MAGIC ++ [v] ++ to_be_raw 4 (blen header) ++ header ++ rest.

Section layout.
Context (v : ascii) (header rest : bytes) (Hlen : blen header < 2 ^ 32).

Lemma layout_length : header_length (file_layout v header rest) = length header.
Proof using Hlen.
  unfold header_length. change (drop 5 (file_layout v header rest)) with (to_be_raw 4 (blen header) ++ header ++ rest).
  rewrite take_app_length' by (by rewrite to_be_raw_length). rewrite from_be_to_be_raw by (unfold blen in *; lia).
  unfold blen. lia.
Qed.
Lemma layout_drop9 : drop 9 (file_layout v header rest) = header ++ rest.
Proof using.
  change (drop 9 (file_layout v header rest)) with (drop 4 (to_be_raw 4 (blen header) ++ header ++ rest)).
  by rewrite drop_app_length' by (by rewrite to_be_raw_length).
Qed.
Lemma layout_header : take (header_length (file_layout v header rest)) (drop 9 (file_layout v header rest)) = header.
Proof using Hlen. rewrite layout_length, layout_drop9. by rewrite take_app_length. Qed.
Lemma layout_rest : drop (9 + header_length (file_layout v header rest)) (file_layout v header rest) = rest.
Proof using Hlen. rewrite layout_length, <-drop_drop, layout_drop9. by rewrite drop_app_length. Qed.
End layout.

(** Every file with the magic has a layout, when its header is not cut short. *)
Lemma file_parts data v :
  is_history_file data = true → data !! 4%nat = Some v → (9 + header_length data ≤ length data)%nat →
  data = file_layout v (take (header_length data) (drop 9 data)) (drop (9 + header_length data) data).
Proof.
  intros Hm%bool_decide_eq_true Hv Hl. unfold file_layout.
  assert (blen (take (header_length data) (drop 9 data)) = from_be (take 4 (drop 5 data))) as ->.
  { unfold blen. rewrite length_take_le by (rewrite length_drop; lia). unfold header_length.
    pose proof (from_be_nonneg (take 4 (drop 5 data))). lia. }
  assert (length (take 4 (drop 5 data)) = 4%nat) as H4 by (rewrite length_take, length_drop; lia).
  rewrite <-H4 at 1. rewrite to_be_raw_from_be, <-drop_drop, take_drop, <-Hm.
  rewrite <-(take_drop 4 data) at 1. f_equal. rewrite (drop_S data v 4 Hv). cbn [app]. f_equal.
  rewrite <-(take_drop 4 (drop 5 data)) at 1. by rewrite drop_drop.
Qed.

Section file.
Context {C : Crypto} {L : CryptoLaws C} {Zl : Zlib} {ZL : ZlibLaws Zl}.

Lemma export_header_wf b salt : wf_dict (export_header b salt).
Proof using. unfold export_header. pose proof (b64e_utf8 salt). solve_wf. Qed.

Lemma derive_ok passphrase salt :
  ∃ key, derive_key_from_passphrase passphrase salt PBKDF2_ITERATIONS = Ok key ∧ length key = 32%nat.
Proof using L. apply pbkdf2_ok. unfold PBKDF2_ITERATIONS. lia. Qed.

Lemma encoded_bundle_decodes b :
  wf_dict (bundle_dict b) → decode_bundle (encode_bundle b) = Ok (canon true (JObj (bundle_dict b))).
Proof using.
  intros Hwf. unfold decode_bundle, encode_bundle. pose proof (canonical_json_loads (JObj (bundle_dict b)) Hwf) as E.
  unfold json_loads_bytes in E. destruct (decode_utf8 _) as [t|e]; [|done]. cbn [res_bind] in *. rewrite E. cbn [except res_bind].
  set (d := bundle_dict b) in *. canon_intro true d J HJ. view HJ. cbn [negb eq_int]. unfold has_lists. view HJ. done.
Qed.

Lemma seal_export_layout salt nonce passphrase b data :
  seal_export salt nonce passphrase b = Ok data →
  ∃ key, derive_key_from_passphrase passphrase salt PBKDF2_ITERATIONS = Ok key ∧
    blen (canonical_json (JObj (export_header b salt))) < 2 ^ 32 ∧
    data = file_layout (byte_of HISTORY_VERSION) (canonical_json (JObj (export_header b salt)))
             (nonce ++ chacha_encrypt key nonce (zlib_compress (encode_bundle b)) HISTORY_MAGIC).
Proof using.
  unfold seal_export. intros E. apply res_bind_Ok in E as (key & Ek & E). exists key. split; [done|].
  apply res_bind_Ok in E as ([n c] & Ec & E). apply res_bind_Ok in E as (len & El & E). injection E as <-.
  apply to_be_Ok in El as [Hl ->]. split; [unfold blen in *; lia|].
  unfold Aead.encrypt in Ec. destruct (negb _); [done|]. by injection Ec as -> <-.
Qed.

Lemma read_layout v header rest h :
  blen header < 2 ^ 32 → byte_val v = HISTORY_VERSION → json_loads_bytes header = Ok h →
  is_dict h = true → (∃ j, jget "v" h = Ok j ∧ eq_int j HISTORY_VERSION = true) →
  read_export_header (file_layout v header rest) = Ok h.
Proof using.
  intros Hl Hv Hh Hd (j & Hj & Hjv). unfold read_export_header. rewrite layout_header by done.
  assert (is_history_file (file_layout v header rest) = true) as -> by by apply bool_decide_eq_true.
  cbn [negb]. change (file_layout v header rest !! 4%nat) with (Some v). cbn [of_option res_bind].
  rewrite Hh. cbn [res_bind except]. rewrite Hv, Z.eqb_refl. cbn [negb]. rewrite Hj. cbn [res_bind]. by rewrite Hjv.
Qed.

(** C37: an export file reads back with its passphrase.  Exporting writes a file whose
    clear header shows the bundle's counts, and importing the file, on any device and
    any store, merges exactly the exported bundle (its dictionaries with sorted keys). *)
Theorem export_import_roundtrip id dev now created salt nonce passphrase since until budget attach s b :
  build_bundle id dev now created since until budget attach s = (Ok b, s) →
  wf_dict (bundle_dict b) → passphrase ≠ ""%string → length nonce = 12%nat →
  blen (canonical_json (JObj (export_header b salt))) < 2 ^ 32 →
  ∃ data, export_history id dev now created salt nonce passphrase since until budget attach s = (Ok data, s) ∧
    read_export_header data = Ok (canon true (JObj (export_header b salt))) ∧
    ∀ id' now' draws s', import_history id' now' draws data passphrase s'
                         = merge_bundle id' now' draws (canon true (JObj (bundle_dict b))) s'.
Proof using L ZL.
  intros Hb Hwf Hp%String.eqb_neq Hn Hlen. destruct (derive_ok passphrase salt) as (key & Ek & Hk).
  set (hdr := canonical_json (JObj (export_header b salt))) in *.
  set (ct := chacha_encrypt key nonce (zlib_compress (encode_bundle b)) HISTORY_MAGIC).
  set (data := file_layout (byte_of HISTORY_VERSION) hdr (nonce ++ ct)). exists data.
  assert (read_export_header data = Ok (canon true (JObj (export_header b salt)))) as Hread.
  { apply read_layout; [done|done|apply canonical_json_loads, export_header_wf|..].
    - by rewrite canon_obj.
    - set (d := export_header b salt). canon_intro true d J HJ. view HJ. by eexists. }
  split_and!; [|done|].
  - unfold export_history, se_check. rewrite Hp. unfold se_bind, se_ret, se_lift. rewrite Hb. unfold seal_export.
    rewrite Ek. cbn [res_bind]. unfold Aead.encrypt, blen. rewrite Hk. cbn [res_bind negb]. fold hdr. unfold to_be.
    assert ((0 <=? Z.of_nat (length hdr)) && (Z.of_nat (length hdr) <? 256 ^ Z.of_nat 4) = true) as ->; [|done].
    unfold blen in Hlen. change (256 ^ Z.of_nat 4) with (2 ^ 32). lia.
  - intros id' now' draws s'. unfold import_history, se_bind, se_lift.
    assert (open_export data passphrase = Ok (canon true (JObj (bundle_dict b)))) as ->; [|done].
    unfold open_export. rewrite Hread. cbn [res_bind]. rewrite Hp. unfold kdf_params.
    set (d := export_header b salt). canon_intro true d J HJ. view HJ.
    set (d' := [("salt"%string, _); _]). canon_intro true d' J' HJ'.
    view HJ'. cbn [to_pystr]. rewrite b64d_b64e. cbn [res_bind to_int except].
    unfold data. rewrite layout_rest by done.
    assert (blen (nonce ++ ct) <=? 12 = false) as ->.
    { apply Z.leb_gt. unfold blen, ct. rewrite length_app, Hn. pose proof (chacha_length key nonce (zlib_compress (encode_bundle b)) HISTORY_MAGIC). lia. }
    rewrite Ek. cbn [res_bind]. rewrite take_app_length', drop_app_length' by done.
    rewrite (proj2 (Aead.decrypt_iff key nonce ct HISTORY_MAGIC (zlib_compress (encode_bundle b)))).
    2:{ split_and!; [done..|]. unfold Aead.encrypt, blen. by rewrite Hk. }
    cbn [except res_bind]. rewrite zlib_roundtrip. cbn [res_bind]. by rewrite encoded_bundle_decodes.
Qed.
(** An import is all or nothing up to the merge.  Either the file is refused and the
    store is untouched, or what follows its header was sealed, with the file's magic as
    associated data, under the key the passphrase gives for the header's parameters, and
    exactly the bundle sealed there is merged: a damaged file or a wrong passphrase never
    reaches the store. *)
Theorem import_authentic id now draws data passphrase s :
  (∃ e, import_history id now draws data passphrase s = (Err e, s)) ∨
  ∃ header salt iterations key nonce plaintext raw bundle,
    read_export_header data = Ok header ∧ kdf_params header = Ok (salt, iterations) ∧
    derive_key_from_passphrase passphrase salt iterations = Ok key ∧
    drop (9 + header_length data) data = nonce ++ chacha_encrypt key nonce plaintext HISTORY_MAGIC ∧
    zlib_decompress plaintext = Ok raw ∧ decode_bundle raw = Ok bundle ∧
    import_history id now draws data passphrase s = merge_bundle id now draws bundle s.
Proof using L.
  unfold import_history, se_bind, se_lift. destruct (open_export data passphrase) as [bundle|e] eqn:E; [right|left; by eexists].
  unfold open_export in E. apply res_bind_Ok in E as (header & Eh & E). destruct (String.eqb passphrase ""); [done|].
  apply res_bind_Ok in E as ([salt iterations] & Ek & E). destruct (_ <=? 12); [done|].
  apply res_bind_Ok in E as (key & Ed & E). apply res_bind_Ok in E as (plaintext & Ep & E). apply except_Ok in Ep.
  apply except_Ok in E. apply res_bind_Ok in E as (raw & Er & E).
  apply Aead.decrypt_iff in Ep as (Hk & Hn & Ep). unfold Aead.encrypt, blen in Ep. rewrite Hk in Ep. cbn [negb] in Ep.
  injection Ep as Ep. set (body := drop _ data) in *.
  exists header, salt, iterations, key, (take 12 body), plaintext, raw, bundle. split_and!; try done.
  rewrite <-(take_drop 12 body) at 1. by rewrite Ep.
Qed.

(** ** What a bundle carries *)

(** The chunks met so far, split into those carried and those skipped. *)
Record accounted (budget : Z) (s : LocalStore) (c : collected) : Prop := {
  ac_seen : seen c ≡ₚ map fst (carried c) ++ map fst (skipped c);
  ac_nodup : NoDup (seen c);
  ac_used : used c = zsum (λ p : string * bytes, blen p.2) (carried c);
  ac_budget : used c ≤ Z.max 0 budget;
  ac_held : ∀ p, p ∈ carried c → (get_local_blob p.1 s).1 = Ok (Some p.2)
}.

Lemma collect_chunk_spec budget cid c s :
  accounted budget s c →
  ∃ c', collect_chunk budget cid c s = (Ok c', s) ∧ accounted budget s c' ∧
    (∀ x, x ∈ seen c → x ∈ seen c') ∧ (cid ≠ ""%string → cid ∈ seen c').
Proof using.
  intros [H1 H2 H3 H4 H5]. unfold collect_chunk. destruct (String.eqb_spec cid "") as [->|Hne]; cbn [orb].
  { exists c. by split_and!. }
  case_bool_decide as Hs; [exists c; by split_and!|].
  change ((do! ciphertext := get_local_blob cid in se_ret ?f) s) with (f (br_data <$> List.find (is_blob cid) (local_blobs s)) s).
  unfold se_bind, get_local_blob at 1, se_get, se_ret. unfold se_bind.
  destruct (br_data <$> List.find (is_blob cid) (local_blobs s)) as [ct|] eqn:Ef; [destruct (Z.ltb_spec budget (used c + blen ct))|];
    (eexists; split; [reflexivity|]; split_and!; [|intros x Hx; by right|intros _; by left]); split;
    cbn [seen carried skipped used]; rewrite ?map_app, ?zsum_app; cbn [map fst zsum]; try done.
  - rewrite H1. solve_Permutation.
  - by apply NoDup_cons.
  - rewrite H1. solve_Permutation.
  - by apply NoDup_cons.
  - cbn [snd]. lia.
  - lia.
  - intros p [Hp|Hp%list_elem_of_singleton]%elem_of_app; [by apply H5|]. subst p. cbn [fst snd]. unfold get_local_blob, se_bind, se_get, se_ret. cbn [fst]. by rewrite Ef.
  - rewrite H1. solve_Permutation.
  - by apply NoDup_cons.
Qed.
(** The chunk ids a list of manifest entries names. *)
Definition entry_id (entry : json) (cid : string) : Prop :=
  ∃ j, jget "id" entry = Ok j ∧ cid = to_pystr j ∧ cid ≠ ""%string.
Definition names_chunk (item : json) (cid : string) : Prop :=
  ∃ entries entry, chunk_entries item = Ok entries ∧ entry ∈ entries ∧ entry_id entry cid.

Lemma collect_entries_spec budget entries c s c' s' :
  accounted budget s c → collect_entries budget entries c s = (Ok c', s') →
  s' = s ∧ accounted budget s c' ∧ (∀ x, x ∈ seen c → x ∈ seen c') ∧
  ∀ entry cid, entry ∈ entries → entry_id entry cid → cid ∈ seen c'.
Proof using.
  revert c. induction entries as [|entry entries IH]; intros c Hc E; cbn [collect_entries] in E.
  - injection E as <- <-. split_and!; try done. by intros ? ? ?%not_elem_of_nil.
  - apply se_bind_Ok in E as (j & s1 & [= Ej <-] & E). apply se_bind_Ok in E as (c1 & s2 & E1 & E).
    destruct (collect_chunk_spec budget (to_pystr j) c s Hc) as (c2 & E2 & Hc2 & Hk & Hin).
    rewrite E2 in E1. injection E1 as <- <-. destruct (IH c2 Hc2 E) as (-> & Hc' & Hk' & Hin'). split_and!; [done..|by auto|].
    intros e cid [->|He]%elem_of_cons Hid; [|by eapply Hin']. destruct Hid as (j' & Ej' & -> & Hne).
    rewrite Ej in Ej'. injection Ej' as <-. auto.
Qed.
Lemma collect_items_spec budget items c s c' s' :
  accounted budget s c → collect_items budget items c s = (Ok c', s') →
  s' = s ∧ accounted budget s c' ∧ (∀ x, x ∈ seen c → x ∈ seen c') ∧
  ∀ item cid, item ∈ items → names_chunk item cid → cid ∈ seen c'.
Proof using.
  revert c. induction items as [|item items IH]; intros c Hc E; cbn [collect_items] in E.
  - injection E as <- <-. split_and!; try done. by intros ? ? ?%not_elem_of_nil.
  - apply se_bind_Ok in E as (entries & s1 & [= Ee <-] & E). apply se_bind_Ok in E as (c1 & s2 & E1 & E).
    destruct (collect_entries_spec budget entries c s c1 s2 Hc E1) as (-> & Hc1 & Hk & Hin).
    destruct (IH c1 Hc1 E) as (-> & Hc' & Hk' & Hin'). split_and!; [done..|by auto|].
    intros it cid [->|Hi]%elem_of_cons Hn; [|by eapply Hin']. destruct Hn as (es & e & Ees & He & Hid).
    rewrite Ee in Ees. injection Ees as <-. eauto.
Qed.

Lemma nothing_accounted budget s : accounted budget s nothing.
Proof using. split; cbn; try constructor; try lia. intros p ?%not_elem_of_nil. done. Qed.

Lemma list_contacts_same id s r s' : list_contacts id s = (r, s') → s' = s.
Proof using. unfold list_contacts, se_bind, se_get, se_lift. by intros [= _ <-]. Qed.
Lemma list_all_messages_same id s r s' : list_all_messages id s = (r, s') → s' = s.
Proof using. unfold list_all_messages, se_bind, se_get, se_lift. by intros [= _ <-]. Qed.

(** A bundle keeps to its window and its budget and accounts for every chunk.  It
    carries the account's messages inside the window and no others; the carried
    ciphertexts are the cached ones and together stay within the budget; no chunk is listed
    twice; every chunk a carried message names is either carried or listed as skipped;
    and the store is not changed. *)
Theorem bundle_contents id dev now created since until budget s b s' :
  build_bundle id dev now created since until budget true s = (Ok b, s') →
  s' = s ∧
  (∃ ms, (list_all_messages id s).1 = Ok ms ∧
     b_messages b = map (λ m, JObj (message_item (m_contact m) m)) (List.filter (in_window (b_since b) (b_until b)) ms)) ∧
  ∃ carried skipped, b_chunks b = map chunk_json carried ∧ b_skipped b = map skipped_json skipped ∧
    NoDup (map fst carried ++ map fst skipped) ∧
    zsum (λ p : string * bytes, blen p.2) carried ≤ Z.max 0 budget ∧
    (∀ p, p ∈ carried → (get_local_blob p.1 s).1 = Ok (Some p.2)) ∧
    ∀ item cid, item ∈ b_messages b → names_chunk item cid → cid ∈ map fst carried ++ map fst skipped.
Proof using.
  unfold build_bundle. intros E. apply se_bind_Ok in E as (cs & s1 & E1 & E). apply list_contacts_same in E1 as ->.
  apply se_bind_Ok in E as (ci & s2 & [= Eci <-] & E). apply se_bind_Ok in E as (ms & s3 & E3 & E).
  pose proof (list_all_messages_same _ _ _ _ E3) as ->. apply se_bind_Ok in E as (c & s4 & E4 & E).
  destruct (collect_items_spec _ _ _ _ _ _ (nothing_accounted budget s) E4) as (-> & [H1 H2 H3 H4 H5] & _ & Hin).
  injection E as <- <-. split; [done|]. split; [exists ms; by rewrite E3|].
  exists (carried c), (skipped c). split_and!; try done; cbn [b_messages].
  - by rewrite <-H1.
  - lia.
  - intros item cid Hi Hn. rewrite <-H1. by eapply Hin.
Qed.
End file.

(** ** A concrete file *)

Import Toy.
Definition file_store : LocalStore := (add_message sample_iv sample_iv sample_message sample_store).2.
Definition file_build (attach : bool) (s : LocalStore) : res Bundle * LocalStore :=
  build_bundle "me" "d" 9 9 None None 3 attach s.
Definition no_bundle : Bundle :=
  {| b_created := 0; b_from := ""; b_since := 0; b_until := 0; b_contacts := []; b_messages := [];
     b_chunks := []; b_skipped := [] |}.
Definition file_bundle : Bundle := ok_or no_bundle (file_build false sample_store).1.

Lemma pair_ok {A S} (d : A) (x : res A * S) : succeeds x.1 = true → x = (Ok (ok_or d x.1), x.2).
Proof. by destruct x as [[a|e] s]. Qed.

Lemma export_import_roundtrip_witness :
  ∃ data, export_history "me" "d" 9 9 (bs "salt") sample_iv "pw" None None 3 false sample_store = (Ok data, sample_store) ∧
    read_export_header data = Ok (canon true (JObj (export_header file_bundle (bs "salt")))) ∧
    ∀ id' now' draws s', import_history id' now' draws data "pw" s'
                         = merge_bundle id' now' draws (canon true (JObj (bundle_dict file_bundle))) s'.
Proof.
  apply (export_import_roundtrip "me" "d" 9 9 (bs "salt") sample_iv "pw" None None 3 false sample_store file_bundle);
    [reflexivity| |done|done|apply Z.ltb_lt; vm_compute; reflexivity].
  unfold bundle_dict, file_bundle. cbn. solve_wf; try solve [constructor | repeat constructor; by apply (bool_decide_unpack _)].
Defined.

Lemma bundle_contents_witness :
  ∃ ms, (list_all_messages "me" file_store).1 = Ok ms ∧
    let b := ok_or no_bundle (file_build true file_store).1 in
    b_messages b = map (λ m, JObj (message_item (m_contact m) m)) (List.filter (in_window (b_since b) (b_until b)) ms).
Proof.
  refine (proj1 (proj2 (bundle_contents "me" "d" 9 9 None None 3 file_store (ok_or no_bundle (file_build true file_store).1)
    (file_build true file_store).2 _))).
  apply (pair_ok no_bundle (file_build true file_store)). vm_compute. reflexivity.
Defined.

Definition sample_draw (n : nat) : draw := {| d_id := "x"; d_n1 := sample_iv; d_n2 := sample_iv |}.
Definition sample_export : bytes :=
  ok_or [] (export_history "me" "d" 9 9 (bs "salt") sample_iv "pw" None None 3 false sample_store).1.

Lemma import_authentic_witness :
  (∃ e, import_history "me" 9 sample_draw sample_export "pw" sample_store = (Err e, sample_store)) ∨
  ∃ header salt iterations key nonce plaintext raw bundle,
    read_export_header sample_export = Ok header ∧ kdf_params header = Ok (salt, iterations) ∧
    derive_key_from_passphrase "pw" salt iterations = Ok key ∧
    drop (9 + header_length sample_export) sample_export = nonce ++ chacha_encrypt key nonce plaintext HISTORY_MAGIC ∧
    zlib_decompress plaintext = Ok raw ∧ decode_bundle raw = Ok bundle ∧
    import_history "me" 9 sample_draw sample_export "pw" sample_store
      = merge_bundle "me" 9 sample_draw bundle sample_store.
Proof. apply (import_authentic "me" 9 sample_draw sample_export "pw" sample_store). Defined.
