(* ===== verification/ClientState.v ===== *)
(** * The client's state ([core/client.py])

    A client is its identity, its store, what it keeps in memory, the network its
    relays are on, and what it draws from the operating system: random bytes and the
    clock, as streams it reads in order.  The relay pools it talks through are an
    interface, [Pool], which [MultiRelay] implements.  The clock counts milliseconds. *)

From S2P Require Import Prelude PyStr Json JsonProps Primitives Dict Encoding RelayUrls Sql Store Backend.
From S2P Require Identity Card Devices History Session Attachments Protocol Transport HttpRelay MultiRelay.

(** ** Relay pools: one per list of relay URLs *)

Class Pool (N : Type) := {
  pool_register : list string → MailboxCapability → SE N unit;
  pool_put : list string → MailboxCapability → bytes → SE N unit;
  pool_fetch : list string → MailboxCapability → gmap string Z → Z → SE N (list FetchedMessage);
  pool_ack : list string → MailboxCapability → gmap string Z → SE N unit;
  pool_publish : list string → string → bytes → SE N unit;
  pool_bundle : list string → string → SE N json;
  pool_put_blob : list string → MailboxCapability → bytes → bytes → SE N string;
  pool_get_blob : list string → MailboxCapability → string → SE N bytes
}.

#[local] Existing Instance MultiRelay.http_backend.
(** [MultiRelayBackend(urls, transport)], every call of a pool scheduled by [sched]. *)
Section multi_pool.
Context {N : Type} `{Transport.Net N} (t : Transport.Transport) (sched : nat → list nat).
Definition on_pool {A} (urls : list string) (f : list HttpRelay.HttpRelayBackend → SE N A) : SE N A :=
  do! rs := se_lift (MultiRelay.new_relays urls t) in f rs.
Definition ignore {A} (m : SE N A) : SE N unit := do! _ := m in se_ret tt.
Definition multi_pool : Pool N := {|
  pool_register urls c := on_pool urls (λ rs, ignore (MultiRelay.register_mailbox (sched (length rs)) rs c));
  pool_put urls c e := on_pool urls (λ rs, MultiRelay.put_all (sched (length rs)) rs c e);
  pool_fetch urls c cursors wait := on_pool urls (λ rs, MultiRelay.fetch_all (sched (length rs)) rs c cursors wait);
  pool_ack urls c cursors := on_pool urls (λ rs, MultiRelay.ack_all (sched (length rs)) rs c cursors);
  pool_publish urls id b := on_pool urls (λ rs, ignore (MultiRelay.publish_all rs id b));
  pool_bundle urls id := on_pool urls (λ rs, MultiRelay.fetch_any_bundle rs id);
  pool_put_blob urls c fresh chunk := on_pool urls (λ rs, MultiRelay.put_blob_all rs c fresh chunk);
  pool_get_blob urls c id := on_pool urls (λ rs, MultiRelay.get_any_blob rs c id)
|}.
End multi_pool.

(** ** What the client draws from outside *)

Record Env := {
  tape : nat → ascii; tpos : nat;         (* os.urandom *)
  clock : nat → Z; ticks : nat;           (* time.time() * 1000 *)
  pads : nat → nat → nat; padded : nat    (* secrets.choice *)
}.

Record Client {N : Type} := {
  cl_identity : Identity.Identity;
  cl_store : LocalStore;
  cl_relays : list string;
  cl_name : string;
  cl_opk_count : nat;
  cl_inbox : option MailboxCapability;
  cl_bundle : option string;
  cl_card : option Card.ContactCard;
  cl_device : option string;
  cl_siblings : gmap string (Devices.DeviceKeys * Z);   (* _sibling_keys: record, time *)
  cl_list : option (Devices.DeviceList * Z);            (* _device_list_cache: list, time *)
  cl_index : option History.msg_index;                  (* _sync_message_index *)
  cl_net : N;
  cl_env : Env
}.
Arguments Client N : clear implicits.

Section setters.
Context {N : Type}.
Definition set_store x (c : Client N) : Client N :=
  {| cl_identity := cl_identity c; cl_store := x; cl_relays := cl_relays c; cl_name := cl_name c; cl_opk_count := cl_opk_count c;
     cl_inbox := cl_inbox c; cl_bundle := cl_bundle c; cl_card := cl_card c; cl_device := cl_device c;
     cl_siblings := cl_siblings c; cl_list := cl_list c; cl_index := cl_index c; cl_net := cl_net c; cl_env := cl_env c |}.
Definition set_relays x (c : Client N) : Client N :=
  {| cl_identity := cl_identity c; cl_store := cl_store c; cl_relays := x; cl_name := cl_name c; cl_opk_count := cl_opk_count c;
     cl_inbox := cl_inbox c; cl_bundle := cl_bundle c; cl_card := cl_card c; cl_device := cl_device c;
     cl_siblings := cl_siblings c; cl_list := cl_list c; cl_index := cl_index c; cl_net := cl_net c; cl_env := cl_env c |}.
(** The fields provisioning sets. *)
Definition set_account inbox bundle name (c : Client N) : Client N :=
  {| cl_identity := cl_identity c; cl_store := cl_store c; cl_relays := cl_relays c; cl_name := name; cl_opk_count := cl_opk_count c;
     cl_inbox := inbox; cl_bundle := bundle; cl_card := cl_card c; cl_device := cl_device c;
     cl_siblings := cl_siblings c; cl_list := cl_list c; cl_index := cl_index c; cl_net := cl_net c; cl_env := cl_env c |}.
Definition set_card x (c : Client N) : Client N :=
  {| cl_identity := cl_identity c; cl_store := cl_store c; cl_relays := cl_relays c; cl_name := cl_name c; cl_opk_count := cl_opk_count c;
     cl_inbox := cl_inbox c; cl_bundle := cl_bundle c; cl_card := x; cl_device := cl_device c;
     cl_siblings := cl_siblings c; cl_list := cl_list c; cl_index := cl_index c; cl_net := cl_net c; cl_env := cl_env c |}.
Definition set_device x (c : Client N) : Client N :=
  {| cl_identity := cl_identity c; cl_store := cl_store c; cl_relays := cl_relays c; cl_name := cl_name c; cl_opk_count := cl_opk_count c;
     cl_inbox := cl_inbox c; cl_bundle := cl_bundle c; cl_card := cl_card c; cl_device := x;
     cl_siblings := cl_siblings c; cl_list := cl_list c; cl_index := cl_index c; cl_net := cl_net c; cl_env := cl_env c |}.
Definition set_siblings x (c : Client N) : Client N :=
  {| cl_identity := cl_identity c; cl_store := cl_store c; cl_relays := cl_relays c; cl_name := cl_name c; cl_opk_count := cl_opk_count c;
     cl_inbox := cl_inbox c; cl_bundle := cl_bundle c; cl_card := cl_card c; cl_device := cl_device c;
     cl_siblings := x; cl_list := cl_list c; cl_index := cl_index c; cl_net := cl_net c; cl_env := cl_env c |}.
Definition set_list x (c : Client N) : Client N :=
  {| cl_identity := cl_identity c; cl_store := cl_store c; cl_relays := cl_relays c; cl_name := cl_name c; cl_opk_count := cl_opk_count c;
     cl_inbox := cl_inbox c; cl_bundle := cl_bundle c; cl_card := cl_card c; cl_device := cl_device c;
     cl_siblings := cl_siblings c; cl_list := x; cl_index := cl_index c; cl_net := cl_net c; cl_env := cl_env c |}.
Definition set_index x (c : Client N) : Client N :=
  {| cl_identity := cl_identity c; cl_store := cl_store c; cl_relays := cl_relays c; cl_name := cl_name c; cl_opk_count := cl_opk_count c;
     cl_inbox := cl_inbox c; cl_bundle := cl_bundle c; cl_card := cl_card c; cl_device := cl_device c;
     cl_siblings := cl_siblings c; cl_list := cl_list c; cl_index := x; cl_net := cl_net c; cl_env := cl_env c |}.
Definition set_net x (c : Client N) : Client N :=
  {| cl_identity := cl_identity c; cl_store := cl_store c; cl_relays := cl_relays c; cl_name := cl_name c; cl_opk_count := cl_opk_count c;
     cl_inbox := cl_inbox c; cl_bundle := cl_bundle c; cl_card := cl_card c; cl_device := cl_device c;
     cl_siblings := cl_siblings c; cl_list := cl_list c; cl_index := cl_index c; cl_net := x; cl_env := cl_env c |}.
Definition set_env x (c : Client N) : Client N :=
  {| cl_identity := cl_identity c; cl_store := cl_store c; cl_relays := cl_relays c; cl_name := cl_name c; cl_opk_count := cl_opk_count c;
     cl_inbox := cl_inbox c; cl_bundle := cl_bundle c; cl_card := cl_card c; cl_device := cl_device c;
     cl_siblings := cl_siblings c; cl_list := cl_list c; cl_index := cl_index c; cl_net := cl_net c; cl_env := x |}.

Definition on_store {A} (m : SE LocalStore A) : SE (Client N) A := λ c,
  let '(r, s) := m (cl_store c) in (r, set_store s c).
Definition on_net {A} (m : SE N A) : SE (Client N) A := λ c,
  let '(r, n) := m (cl_net c) in (r, set_net n c).

(** [os.urandom(n)] *)
Definition urandom (n : nat) : SE (Client N) bytes := λ c,
  let e := cl_env c in
  (Ok (map (tape e) (seq (tpos e) n)),
   set_env {| tape := tape e; tpos := tpos e + n; clock := clock e; ticks := ticks e; pads := pads e; padded := padded e |} c).
(** [int(time.time() * 1000)] *)
Definition now_ms : SE (Client N) Z := λ c,
  let e := cl_env c in
  (Ok (clock e (ticks e)),
   set_env {| tape := tape e; tpos := tpos e; clock := clock e; ticks := S (ticks e); pads := pads e; padded := padded e |} c).
(** The choices behind one padding string. *)
Definition pad_choices : SE (Client N) (nat → nat) := λ c,
  let e := cl_env c in
  (Ok (pads e (padded e)),
   set_env {| tape := tape e; tpos := tpos e; clock := clock e; ticks := ticks e; pads := pads e; padded := S (padded e) |} c).
(** [uuid.uuid4().hex] *)
Definition new_id : SE (Client N) string :=
  do! b := urandom 16 in
  let fix_byte (i : nat) (x : ascii) : ascii :=
    if Nat.eqb i 6 then byte_of (Z.lor (Z.land (byte_val x) 0x0f) 0x40)
    else if Nat.eqb i 8 then byte_of (Z.lor (Z.land (byte_val x) 0x3f) 0x80) else x in
  se_ret (Attachments.hex (imap fix_byte b)).

End setters.

(** A value the client itself put in its store as a string. *)
Definition own_str (j : json) : res (option string) :=
  match j with JNull => Ok None | JStr s => Ok (Some s) | _ => Err Unmodelled end.

(** Association lists: Python dictionaries with string keys. *)
Section alist.
Context {A : Type}.
Fixpoint aget (k : string) (l : list (string * A)) : option A :=
  match l with [] => None | (k', v) :: l' => if String.eqb k k' then Some v else aget k l' end.
Fixpoint aset (k : string) (v : A) (l : list (string * A)) : list (string * A) :=
  match l with
  | [] => [(k, v)]
  | (k', v') :: l' => if String.eqb k k' then (k, v) :: l' else (k', v') :: aset k v l'
  end.
End alist.

Section client.
Context {C : Crypto} {N : Type} {P : Pool N}.

Definition me (c : Client N) : string := Identity.identity_id (cl_identity c).
Definition ed_pub (c : Client N) : bytes := Identity.ed_public_bytes (cl_identity c).
Definition x_pub (c : Client N) : bytes := Identity.x_public_bytes (cl_identity c).

(** ** Store calls that seal a value draw its nonce *)

Definition get_state_ (key : string) : SE (Client N) json :=
  do! c := se_get in on_store (get_state (me c) key).
Definition set_state_ (key : string) (value : json) : SE (Client N) unit :=
  do! c := se_get in do! n := urandom 12 in on_store (set_state n (me c) key value).
Definition save_prekeys_ (data : json) : SE (Client N) unit :=
  do! c := se_get in do! n := urandom 12 in on_store (save_prekeys n (me c) data).
Definition add_message_ (m : message) : SE (Client N) unit :=
  do! n1 := urandom 12 in do! n2 := urandom 12 in on_store (add_message n1 n2 m).
Definition update_state_ (message_id state : json) : SE (Client N) unit :=
  on_store (update_message (λ _, []) message_id [("state"%string, state)]).
Definition upsert_contact_ (k : contact) : SE (Client N) unit :=
  do! c := se_get in do! n := urandom 12 in do! now := now_ms in on_store (upsert_contact n (now / 1000) (me c) k).

(** ** Pools *)

(** [normalize_relay_urls(list(relays or []))] of a value from a card or a list. *)
Definition relay_list (relays : json) : res (list string) :=
  let? l := iter_json (jor relays (JList [])) in
  let? urls := mapM (λ j, match j with JStr s => Ok s | _ => Err AttributeError end) l in
  Ok (normalize_relay_urls urls).
(** The relays a pool for [relays] is on: the client's own when there are none.  Pools
    are cached by their URLs and share one transport. *)
Definition backend_for (relays : json) : SE (Client N) (list string) :=
  do! c := se_get in
  do! urls := se_lift (relay_list relays) in
  se_ret match urls with [] => cl_relays c | _ => urls end.
Definition own_backend : SE (Client N) (list string) := do! c := se_get in se_ret (cl_relays c).
Definition device_relays (d : Devices.DeviceEntry) : json := JList (map JStr (Devices.relays d)).
Definition device_capability (d : Devices.DeviceEntry) : res MailboxCapability :=
  from_card_view (JObj (Devices.inbox d)).

(** ** The account's device list *)

Definition fetch_own_device_list : SE (Client N) (option Devices.DeviceList) :=
  do! c := se_get in
  do! urls := own_backend in
  do! payload := se_catch isa_Exception None
    (do! j := on_net (pool_bundle urls (Devices.device_list_id (ed_pub c) (x_pub c))) in se_ret (Some j)) in
  match payload with
  | None => se_ret None
  | Some payload =>
      do! listing := se_catch (isa DeviceListError) None
        (do! l := se_lift (Devices.open_device_list (Devices.RawJson payload) (ed_pub c) (x_pub c)) in
         se_ret (Some l)) in
      se_ret match listing with
             | Some l => if Devices.belongs_to l (me c) (ed_pub c) (x_pub c) then Some l else None
             | None => None
             end
  end.
(** [max_age] in milliseconds. *)
Definition own_device_list (max_age : Z) : SE (Client N) (option Devices.DeviceList) :=
  do! c := se_get in
  do! fresh := match cl_list c with
               | Some (l, ts) => do! now := now_ms in se_ret (if now - ts <? max_age then Some l else None)
               | None => se_ret None
               end in
  match fresh with
  | Some l => se_ret (Some l)
  | None =>
      do! listing := fetch_own_device_list in
      match listing with
      | Some l => do! now := now_ms in do! _ := se_modify (set_list (Some (l, now))) in se_ret (Some l)
      | None => do! c := se_get in se_ret (fst <$> cl_list c)
      end
  end.

(** ** Session state of a contact *)

Record state_t := {
  st_devices : list Devices.DeviceEntry;
  st_outbound : list (string * Session.Session);
  st_inbound : list (string * Session.Session)
}.
Definition no_state : state_t := {| st_devices := []; st_outbound := []; st_inbound := [] |}.

(** Entries that cannot be read are passed over. *)
Fixpoint read_devices (l : list json) : res (list Devices.DeviceEntry) :=
  match l with
  | [] => Ok []
  | data :: rest =>
      match Devices.entry_from_dict data with
      | Ok e => let? es := read_devices rest in Ok (e :: es)
      | Err e => if isa DeviceListError e then read_devices rest else Err e
      end
  end.
Definition read_sessions (j : json) : res (list (string * Session.Session)) :=
  let? d := items_json (jor j (JObj [])) in
  mapM (λ kv : string * json, let? s := Session.from_dict kv.2 in Ok (kv.1, s)) d.
Definition load_state (k : contact) : res state_t :=
  let raw := c_session k in
  if truthy raw then
    let? v := jget "v" raw in
    if eq_int v 2 then
      let? devices := (let? j := jget "devices" raw in let? l := iter_json (jor j (JList [])) in read_devices l) in
      let? outbound := (let? j := jget "outbound" raw in read_sessions j) in
      let? inbound := (let? j := jget "inbound" raw in read_sessions j) in
      Ok {| st_devices := devices; st_outbound := outbound; st_inbound := inbound |}
    else
      let? s := Session.from_dict raw in
      Ok {| st_devices := []; st_outbound := [(Devices.LEGACY_DEVICE, s)]; st_inbound := [] |}
  else Ok no_state.

Definition sessions_json (l : list (string * Session.Session)) : json :=
  JObj (map (λ kv : string * Session.Session, (kv.1, JObj (Session.to_dict kv.2))) l).
Definition state_json (st : state_t) : json :=
  JObj [("v", JInt 2); ("devices", JList (map (λ d, JObj (Devices.entry_dict d)) (st_devices st)));
        ("outbound", sessions_json (st_outbound st)); ("inbound", sessions_json (st_inbound st))]%string.
Definition save_state (contact_id : string) (st : state_t) : SE (Client N) unit :=
  do! c := se_get in do! n := urandom 12 in
  on_store (set_contact_session n (me c) contact_id (state_json st)).

(** A column that is [str] or [None], where the program needs a [str]. *)
Definition json_str (j : json) : res string :=
  match j with JStr s => Ok s | _ => Err Unmodelled end.
Definition legacy_device (k : contact) : res Devices.DeviceEntry :=
  let? inbox := items_json (c_inbox k) in
  let? relays := (let? l := iter_json (jor (c_relays k) (JList [])) in mapM json_str l) in
  let? bundle := json_str (c_bundle k) in
  let? name := json_str (jor (c_nickname k) (JStr "")) in
  Ok {| Devices.device_id := Devices.LEGACY_DEVICE; Devices.inbox := inbox; Devices.relays := relays;
        Devices.bundle_id := bundle; Devices.name := name |}.
Definition cached_devices (k : contact) : res (list Devices.DeviceEntry) :=
  let? st := load_state k in
  match st_devices st with [] => let? d := legacy_device k in Ok [d] | l => Ok l end.

(** The first session with a wire id: contacts in order, outbound before inbound. *)
Fixpoint session_by_sid (sid : bytes) (l : list (string * Session.Session)) : option (string * Session.Session) :=
  match l with
  | [] => None
  | (k, s) :: rest => if bool_decide (Session.sid s = sid) then Some (k, s) else session_by_sid sid rest
  end.
Record located := {
  lo_contact : contact; lo_state : state_t; lo_outbound : bool; lo_key : string; lo_session : Session.Session
}.
Fixpoint find_in (sid : bytes) (ks : list contact) : res (option located) :=
  match ks with
  | [] => Ok None
  | k :: rest =>
      let? st := load_state k in
      match session_by_sid sid (st_outbound st), session_by_sid sid (st_inbound st) with
      | Some (key, s), _ => Ok (Some {| lo_contact := k; lo_state := st; lo_outbound := true; lo_key := key; lo_session := s |})
      | None, Some (key, s) => Ok (Some {| lo_contact := k; lo_state := st; lo_outbound := false; lo_key := key; lo_session := s |})
      | None, None => find_in sid rest
      end
  end.
Definition find_session (sid : bytes) : SE (Client N) (option located) :=
  do! c := se_get in
  do! ks := on_store (list_contacts (me c)) in
  se_lift (find_in sid ks).
End client.
