(* ===== verification/Sync.v ===== *)
(** * Device sync ([core/sync.py])

    Approvals, mirroring and history back-fill between the devices of an account.  The
    descriptions [handle_record] returns are values of [outcome]. *)

From S2P Require Import Prelude PyStr Json JsonProps Primitives Dict Encoding Sql Store Backend History ClientState.
From S2P Require Identity Devices DeviceKeys DeviceChannel.

Definition DEVICE_KEYS_STATE : string := "device_keys".
Definition APPROVALS_STATE : string := "sync_approvals".
Definition REQUESTED_STATE : string := "sync_requested".
Definition INCOMING_STATE : string := "sync_incoming".
Definition REQUESTS_STATE : string := "sync_requests".
Definition SEEN_STATE : string := "sync_seen".
Definition MAX_SEEN_TRANSFERS : nat := 200.

Inductive outcome :=
| ORequest | OApproved | OOffered | OItem (kind : json) | OComplete (complete : bool)
| OMirrored (added : bool) | OState (changed : bool) | OUnknownMessage | OUnknownMirror | ONothing.

(** A dictionary or a list the client itself keeps in its store. *)
Definition own_dict (j : json) : res dict :=
  if truthy j then match j with JObj d => Ok d | _ => Err Unmodelled end else Ok [].
Definition own_list (j : json) : res (list json) :=
  if truthy j then match j with JList l => Ok l | _ => Err Unmodelled end else Ok [].
(** [int(j or d)] *)
Definition int_or (d : Z) (j : json) : res Z := if truthy j then to_int j else Ok d.
Definition str_or (j : json) : string := if truthy j then to_pystr j else ""%string.

Section sync.
Context {C : Crypto} {N : Type} {P : Pool N}.

(** ** Device keys *)

Definition stored_keys (stored : json) : res (option (bytes * bytes)) :=
  if truthy stored then
    let? sdev := jget "sdev" stored in
    let? sagree := jget "sagree" stored in
    if truthy sdev && truthy sagree then
      let? a := b64d_json sdev in let? b := b64d_json sagree in Ok (Some (a, b))
    else Ok None
  else Ok None.
(** The pair [(sdev, sagree)]. *)
Definition ensure_device_keys : SE (Client N) (bytes * bytes) :=
  do! stored := get_state_ DEVICE_KEYS_STATE in
  do! keys := se_lift (stored_keys stored) in
  match keys with
  | Some k => se_ret k
  | None =>
      do! sdev := urandom 32 in
      do! sagree := urandom 32 in
      do! _ := set_state_ DEVICE_KEYS_STATE
                 (JObj [("sdev", JStr (b64e sdev)); ("sagree", JStr (b64e sagree))]%string) in
      se_ret (sdev, sagree)
  end.

Definition device_keys_record : SE (Client N) Devices.DeviceKeys :=
  do! (sdev, sagree) := ensure_device_keys in
  do! c := se_get in
  do! device_id := se_lift (of_option SyncError (cl_device c)) in
  do! sdev_public := se_lift (DeviceKeys.signing_public sdev) in
  do! sagree_public := se_lift (DeviceKeys.agreement_public sagree) in
  se_ret (Devices.keys_create (cl_identity c) device_id sdev_public sagree_public).
Definition publish_device_keys : SE (Client N) unit :=
  do! record := device_keys_record in
  do! nonce := urandom 12 in
  do! sealed := se_lift (Devices.seal_payload nonce (Devices.dk_isign record) (Devices.dk_idh record)
                           (Devices.keys_address record) (Devices.keys_to_bytes record)) in
  do! urls := own_backend in
  se_try (on_net (pool_publish urls (Devices.keys_address record) sealed)).

Definition DAY_MS : Z := 24 * 3600 * 1000.
Definition read_device_keys (c : Client N) (device : Devices.DeviceEntry) : SE (Client N) Devices.DeviceKeys :=
  do! urls := backend_for (device_relays device) in
  do! payload := on_net (pool_bundle urls
                   (Devices.device_keys_id (ed_pub c) (x_pub c) (Devices.device_id device))) in
  do! opened := se_lift (Devices.open_signed_payload (Devices.RawJson payload) (ed_pub c) (x_pub c)) in
  se_lift (Devices.keys_from_bytes (Devices.RawJson opened)).
(** The checks on a record, and the cache. *)
Definition keep_device_keys (device : Devices.DeviceEntry) (now : Z) (record : Devices.DeviceKeys)
    : SE (Client N) (option Devices.DeviceKeys) :=
  do! c := se_get in
  if negb (String.eqb (Devices.dk_device_id record) (Devices.device_id device)) then se_ret None
  else if negb (Devices.keys_belong_to record (me c) (ed_pub c) (x_pub c)) then se_ret None
  else
    do! _ := se_modify (set_siblings (<[Devices.device_id device := (record, now)]> (cl_siblings c))) in
    se_ret (Some record).
Definition fetch_device_keys (device : Devices.DeviceEntry) : SE (Client N) (option Devices.DeviceKeys) :=
  do! c := se_get in
  let entry := cl_siblings c !! Devices.device_id device in
  do! now := now_ms in
  if match entry with Some (_, ts) => now - ts <? DAY_MS | None => false end then se_ret (fst <$> entry)
  else
    do! record := se_catch isa_Exception None (do! k := read_device_keys c device in se_ret (Some k)) in
    match record with
    | None => se_ret (fst <$> entry)
    | Some record => keep_device_keys device now record
    end.

Definition sibling_devices (include_self fresh : bool) : SE (Client N) (list Devices.DeviceEntry) :=
  do! listing := own_device_list (if fresh then 0 else 300000) in
  let devices := match listing with Some l => Devices.devices l | None => [] end in
  do! c := se_get in
  se_ret (List.filter (λ d, include_self || negb (bool_decide (cl_device c = Some (Devices.device_id d)))) devices).
Definition device_by_id (device_id : string) (fresh : bool) : SE (Client N) (option Devices.DeviceEntry) :=
  do! devices := sibling_devices true fresh in
  se_ret (List.find (λ d, String.eqb (Devices.device_id d) device_id) devices).
Definition locate_device (device_id : string) : SE (Client N) (option Devices.DeviceEntry) :=
  do! d := device_by_id device_id false in
  match d with Some d => se_ret (Some d) | None => device_by_id device_id true end.

(** ** Approvals *)

Definition approvals : SE (Client N) dict := do! j := get_state_ APPROVALS_STATE in se_lift (own_dict j).
Definition set_approvals (value : dict) : SE (Client N) unit := set_state_ APPROVALS_STATE (JObj value).
Definition approved_devices : SE (Client N) (list string) :=
  do! a := approvals in se_ret (merge_sort String.le (map fst a)).
Definition mark_approved (device_id transfer : string) (since_ms until_ms : json) : SE (Client N) unit :=
  do! value := approvals in
  do! since := se_lift (int_or 0 since_ms) in
  do! until := (if truthy until_ms then se_lift (to_int until_ms) else now_ms) in
  do! ts := now_ms in
  set_approvals (dset device_id
    (JObj [("transfer", JStr transfer); ("since", JInt since); ("until", JInt until); ("ts", JInt ts)]%string) value).
Definition revoke_approval (device_id : string) : SE (Client N) unit :=
  do! value := approvals in set_approvals (dpop device_id value).

(** [l[-n:]] *)
Definition last_n {A} (n : nat) (l : list A) : list A := drop (length l - n) l.
Definition mark_seen (transfer : string) : SE (Client N) bool :=
  do! seen := (do! j := get_state_ SEEN_STATE in se_lift (own_list j)) in
  if existsb (λ j, eq_str j transfer) seen then se_ret false
  else
    do! _ := set_state_ SEEN_STATE (JList (last_n MAX_SEEN_TRANSFERS (seen ++ [JStr transfer]))) in
    se_ret true.

Definition requests : SE (Client N) dict := do! j := get_state_ REQUESTS_STATE in se_lift (own_dict j).
Definition incoming_request (device_id transfer : string) (since_ms : json) : SE (Client N) unit :=
  do! pending := requests in
  do! since := se_lift (int_or 0 since_ms) in
  do! ts := now_ms in
  set_state_ REQUESTS_STATE
    (JObj (dset device_id (JObj [("transfer", JStr transfer); ("since", JInt since); ("ts", JInt ts)]%string) pending)).

Record request := { rq_device : string; rq_name : string; rq_since : json; rq_ts : Z; rq_transfer : json }.
Definition request_of (known : list Devices.DeviceEntry) (a : dict) (kv : string * json) : res (list request) :=
  if dhas kv.1 a then Ok []
  else
    let? since := jget "since" kv.2 in
    let? ts := (let? j := jget "ts" kv.2 in match jor j (JInt 0) with JInt n => Ok n | _ => Err Unmodelled end) in
    let? transfer := jget "transfer" kv.2 in
    (* of two devices with one id the dictionary keeps the last *)
    let device := List.find (λ d, String.eqb (Devices.device_id d) kv.1) (rev known) in
    Ok [{| rq_device := kv.1; rq_name := match device with Some d => Devices.name d | None => "" end;
           rq_since := jor since (JInt 0); rq_ts := ts; rq_transfer := transfer |}].
Definition pending_requests : SE (Client N) (list request) :=
  do! pending := requests in
  do! known := sibling_devices true false in
  do! a := approvals in
  do! out := se_lift (mapM (request_of known a) pending) in
  se_ret (order_by (λ x y, rq_ts y <=? rq_ts x) (concat out)).
Definition requested_from : SE (Client N) dict := do! j := get_state_ REQUESTED_STATE in se_lift (own_dict j).

(** ** Writing records *)

Definition new_transfer_id : SE (Client N) string := do! b := urandom 16 in se_ret (b64e b).
Definition write_record (device : Devices.DeviceEntry) (kind : Z) (plaintext : bytes) (transfer : string)
    (seq : Z) (extra : dict) : SE (Client N) bytes :=
  do! (sdev, sagree) := ensure_device_keys in
  do! record := fetch_device_keys device in
  do! record := se_lift (of_option SyncError record) in
  do! c := se_get in
  do! ephemeral := urandom 32 in
  do! nonce := urandom 12 in
  do! now := now_ms in
  do! blob := se_lift (DeviceChannel.seal_record ephemeral nonce now kind plaintext (Devices.sagree record)
                         (default "" (cl_device c)) sdev transfer seq extra) in
  do! urls := backend_for (device_relays device) in
  do! capability := se_lift (device_capability device) in
  do! _ := on_net (pool_put urls capability blob) in
  se_ret blob.

(** [try: write except Exception: continue], counting the devices written to. *)
Fixpoint write_each (devices : list Devices.DeviceEntry) (write : Devices.DeviceEntry → SE (Client N) bytes)
    : SE (Client N) (list string) :=
  match devices with
  | [] => se_ret []
  | d :: rest =>
      do! ok := se_catch isa_Exception false (do! _ := write d in se_ret true) in
      do! ids := write_each rest write in
      se_ret (if ok then Devices.device_id d :: ids else ids)
  end.

Definition request_payload (since budget : Z) (device : string) : bytes :=
  canonical_json (JObj [("since", JInt since); ("budget", JInt budget); ("device", JStr device)]%string).
Definition request_history (since_ms budget : option Z) : SE (Client N) (list string) :=
  do! transfer := new_transfer_id in
  do! c := se_get in
  let payload := request_payload (default 0 since_ms) (default DEFAULT_BUDGET_BYTES budget) (default "" (cl_device c)) in
  do! devices := sibling_devices false false in
  do! asked := write_each devices (λ d, write_record d DeviceChannel.REQUEST payload transfer 0 []) in
  match asked with
  | [] => se_ret []
  | _ =>
      do! ts := now_ms in
      do! _ := set_state_ REQUESTED_STATE
        (JObj [("transfer", JStr transfer); ("since", JInt (default 0 since_ms));
               ("asked", JList (map JStr asked)); ("ts", JInt ts)]%string) in
      se_ret asked
  end.

(** Contacts, then messages, then chunks, each with its kind. *)
Definition bundle_items (b : Bundle) : list (string * json) :=
  map (pair "contact"%string) (b_contacts b) ++ map (pair "message"%string) (b_messages b) ++
  map (pair "chunk"%string) (b_chunks b).
Definition build_items (since_ms until_ms budget : Z) : SE (Client N) (list (string * json) * list json) :=
  do! c := se_get in
  do! created := now_ms in
  do! b := on_store (build_bundle (me c) (default "" (cl_device c)) until_ms created (Some since_ms) (Some until_ms) budget true) in
  se_ret (bundle_items b, b_skipped b).

(** [canonical_json({"kind": kind, **payload})] *)
Definition item_bytes (it : string * json) : bytes :=
  canonical_json (JObj (dupdate [("kind"%string, JStr it.1)] (match it.2 with JObj d => d | _ => [] end))).
Fixpoint send_items (device : Devices.DeviceEntry) (transfer : string) (index : Z) (items : list (string * json))
    (chain : bytes) : SE (Client N) bytes :=
  match items with
  | [] => se_ret chain
  | it :: rest =>
      let raw := item_bytes it in
      do! _ := write_record device DeviceChannel.ITEM raw transfer index [] in
      do! chain := se_lift (DeviceChannel.chain_add chain raw index) in
      send_items device transfer (index + 1) rest chain
  end.
Definition offer_bytes (count skipped since until budget : Z) : bytes :=
  canonical_json (JObj [("count", JInt count); ("skipped", JInt skipped); ("since", JInt since);
                        ("until", JInt until); ("budget", JInt budget)]%string).
Definition complete_dict (count : Z) (digest : bytes) : dict :=
  [("count", JInt count); ("chain", JStr (DeviceChannel.hexdigest digest))]%string.
(** The numbers of items sent and skipped. *)
Definition send_history (device : Devices.DeviceEntry) (since_ms until_ms budget : Z) (transfer : string)
    : SE (Client N) (Z * Z) :=
  do! (items, skipped) := build_items since_ms until_ms budget in
  let count := Z.of_nat (length items) in
  do! _ := write_record device DeviceChannel.OFFER
             (offer_bytes count (Z.of_nat (length skipped)) since_ms until_ms budget) transfer 0 [("count"%string, JInt count)] in
  do! chain := se_lift (DeviceChannel.chain_init transfer "") in
  do! chain := send_items device transfer 1 items chain in
  do! _ := write_record device DeviceChannel.COMPLETE (canonical_json (JObj (complete_dict count chain))) transfer 0
             (complete_dict count chain) in
  se_ret (count, Z.of_nat (length skipped)).

Definition approval_bytes (device_id : string) (since until budget : Z) : bytes :=
  canonical_json (JObj [("device", JStr device_id); ("since", JInt since); ("until", JInt until); ("budget", JInt budget)]%string).
Definition approve_device (device_id : string) (since_ms budget : option Z) : SE (Client N) (Z * string * (Z * Z)) :=
  do! device := locate_device device_id in
  do! device := se_lift (of_option SyncError device) in
  do! pending := requests in
  do! asked := se_lift (jget "since" (jor (default JNull (dget device_id pending)) (JObj []))) in
  do! since := (match since_ms with Some n => se_ret n | None => se_lift (int_or 0 asked) end) in
  let budget := default DEFAULT_BUDGET_BYTES budget in
  do! transfer := new_transfer_id in
  do! until := now_ms in
  do! _ := write_record device DeviceChannel.APPROVAL (approval_bytes device_id since until budget) transfer 0
             [("since", JInt since); ("until", JInt until)]%string in
  do! _ := mark_approved device_id transfer (JInt since) (JInt until) in
  do! counts := send_history device since until budget transfer in
  do! _ := set_state_ REQUESTS_STATE (JObj (dpop device_id pending)) in
  se_ret (since, transfer, counts).
Definition deny_device (device_id : string) : SE (Client N) unit :=
  do! pending := requests in set_state_ REQUESTS_STATE (JObj (dpop device_id pending)).

(** ** Mirroring *)

(** [device.device_id in approvals(client)], read for each device. *)
Definition mirror_targets : SE (Client N) (list Devices.DeviceEntry) :=
  do! devices := sibling_devices false false in
  do! a := approvals in
  se_ret (List.filter (λ d, dhas (Devices.device_id d) a) devices).
Definition mirror_bytes (contact_item message : dict) : bytes :=
  canonical_json (JObj [("kind", JStr "mirror"); ("contact", JObj contact_item); ("message", JObj message)]%string).
Definition write_mirror (raw : bytes) (d : Devices.DeviceEntry) : SE (Client N) bytes :=
  do! transfer := new_transfer_id in write_record d DeviceChannel.MIRROR raw transfer 0 [].
Definition mirror_message (contact_id : string) (m : message) : SE (Client N) Z :=
  do! targets := mirror_targets in
  match targets with
  | [] => se_ret 0
  | _ =>
      do! c := se_get in
      do! k := on_store (get_contact (me c) contact_id) in
      match k with
      | None => se_ret 0
      | Some k =>
          let item := dset "id" (JStr (m_id m)) (message_item (JStr contact_id) m) in
          do! ci := se_lift (contact_item k) in
          do! sent := write_each targets (write_mirror (mirror_bytes ci item)) in
          se_ret (Z.of_nat (length sent))
      end
  end.
Definition state_bytes (id remote_id contact_id state : json) : bytes :=
  canonical_json (JObj [("kind", JStr "state");
    ("state", JObj [("id", id); ("remote_id", remote_id); ("contact_id", contact_id); ("state", state)])]%string).
Definition mirror_state (contact_id : string) (m : message) (state : json) : SE (Client N) Z :=
  do! targets := mirror_targets in
  match targets with
  | [] => se_ret 0
  | _ =>
      let raw := state_bytes (JStr (m_id m)) (m_remote m) (jor (JStr contact_id) (m_contact m)) state in
      do! sent := write_each targets (write_mirror raw) in
      se_ret (Z.of_nat (length sent))
  end.
(** ** Receiving *)

Definition loads (plaintext : bytes) : res dict :=
  let? value := except isa_ValueError SyncError (json_loads_bytes plaintext) in
  match value with JObj d => Ok d | _ => Err SyncError end.

Definition incoming : SE (Client N) dict := do! j := get_state_ INCOMING_STATE in se_lift (own_dict j).
Definition set_incoming (state : dict) : SE (Client N) unit := set_state_ INCOMING_STATE (JObj state).

Definition draw_message : SE (Client N) draw :=
  do! id := urandom 16 in do! n1 := urandom 12 in do! n2 := urandom 12 in
  se_ret {| d_id := Attachments.hex id; d_n1 := n1; d_n2 := n2 |}.
Definition merge_contacts_ (items : list json) (n : counts) : SE (Client N) counts :=
  do! c := se_get in do! now := now_ms in on_store (merge_contacts (me c) (now / 1000) items n).
Definition merge_item_ (item : json) (known : msg_index) (n : counts) : SE (Client N) (msg_index * counts) :=
  do! c := se_get in do! d := draw_message in on_store (merge_messages (me c) [(d, item)] known n).

(** The index of an in-flight back-fill: built on first use, then kept up to date. *)
Definition transfer_index : SE (Client N) msg_index :=
  do! c := se_get in
  match cl_index c with
  | Some known => se_ret known
  | None =>
      do! known := on_store (message_index (me c)) in
      do! _ := se_modify (set_index (Some known)) in se_ret known
  end.
Definition merge_one_item (item : dict) : SE (Client N) unit :=
  do! kind := se_lift (jget "kind" (JObj item)) in
  let payload := JObj (dpop "kind" item) in
  if eq_str kind "contact" then do! _ := merge_contacts_ [payload] new_counts in se_ret tt
  else if eq_str kind "message" then
    do! known := transfer_index in
    do! (known, n) := merge_item_ payload known new_counts in
    se_modify (set_index (Some known))
  else if eq_str kind "chunk" then
    do! now := now_ms in do! _ := on_store (merge_chunks now [payload] new_counts) in se_ret tt
  else se_raise SyncError.

(** The entry of a device among the incoming transfers. *)
Definition incoming_entry (device_id transfer : string) (state : dict) : res dict :=
  let entry := default JNull (dget device_id state) in
  if truthy entry then match entry with JObj d => Ok d | _ => Err Unmodelled end
  else Ok [("transfer", JStr transfer); ("seq", JInt 0); ("count", JInt 0); ("chain", JStr ""); ("done", JBool false)]%string.
Definition update_entry (entry : dict) (transfer : string) (received expected : Z) (digest : bytes) : dict :=
  dupdate entry [("transfer", JStr transfer); ("received", JInt (received + 1)); ("expected", JInt expected);
                 ("chain", JStr (DeviceChannel.hexdigest digest)); ("done", JBool false)]%string.
Definition apply_item (device_id transfer : string) (plaintext : bytes) (seq : Z) : SE (Client N) outcome :=
  do! item := se_lift (loads plaintext) in
  do! kind := se_lift (jget "kind" (JObj item)) in
  do! state := incoming in
  do! entry := se_lift (incoming_entry device_id transfer state) in
  do! _ := merge_one_item item in
  do! chain := se_lift (let? j := jget "chain" (JObj entry) in DeviceChannel.chain_init transfer (str_or j)) in
  do! chain := se_lift (DeviceChannel.chain_add chain plaintext seq) in
  do! received := se_lift (let? j := jget "received" (JObj entry) in int_or 0 j) in
  do! expected := se_lift (let? j := jget "expected" (JObj entry) in int_or 0 j) in
  do! _ := set_incoming (dset device_id (JObj (update_entry entry transfer received expected chain)) state) in
  se_ret (OItem kind).

Definition apply_state (change : json) : SE (Client N) outcome :=
  do! c := se_get in
  do! remote := se_lift (jget "remote_id" change) in
  do! target := (if truthy remote
                 then on_store (find_by_remote_id (me c) (JStr (to_pystr remote)) "") else se_ret None) in
  do! id := se_lift (jget "id" change) in
  do! target := match target with
                | Some m => se_ret (Some m)
                | None => if truthy id then on_store (get_message (JStr (to_pystr id))) else se_ret None
                end in
  match target with
  | None => se_ret OUnknownMessage
  | Some m =>
      do! j := se_lift (jget "state" change) in
      let state := JStr (str_or j) in
      do! r := se_lift (state_rank state) in
      do! r' := se_lift (state_rank (m_state m)) in
      if r' <? r then do! _ := update_state_ (JStr (m_id m)) state in se_ret (OState true)
      else se_ret (OState false)
  end.
Definition apply_mirror (item : dict) : SE (Client N) outcome :=
  do! c := se_get in
  do! kind := se_lift (jget "kind" (JObj item)) in
  if eq_str kind "mirror" then
    do! k := se_lift (jget "contact" (JObj item)) in
    do! n := (if truthy k then merge_contacts_ [k] new_counts else se_ret new_counts) in
    do! known := on_store (message_index (me c)) in
    do! m := se_lift (jget "message" (JObj item)) in
    do! (_, n) := merge_item_ m known n in
    se_ret (OMirrored (negb (n_messages n =? 0)))
  else if eq_str kind "state" then
    do! change := se_lift (jget "state" (JObj item)) in apply_state (jor change (JObj []))
  else se_ret OUnknownMirror.

Definition apply_offer (device_id transfer : string) (offer : dict) : SE (Client N) outcome :=
  do! state := incoming in
  do! previous := se_lift (jget "transfer" (jor (default JNull (dget device_id state)) (JObj []))) in
  do! _ := (if negb (eq_str previous transfer) then se_modify (set_index None) else se_ret tt) in
  do! count := se_lift (let? j := jget "count" (JObj offer) in int_or 0 j) in
  do! skipped := se_lift (let? j := jget "skipped" (JObj offer) in int_or 0 j) in
  do! _ := set_incoming (dset device_id
    (JObj [("transfer", JStr transfer); ("received", JInt 0); ("expected", JInt count); ("skipped", JInt skipped);
           ("chain", JStr ""); ("done", JBool false)]%string) state) in
  se_ret OOffered.
Definition apply_complete (device_id : string) (complete : dict) : SE (Client N) outcome :=
  do! state := incoming in
  do! entry := se_lift (items_json (jor (default JNull (dget device_id state)) (JObj []))) in
  do! expected := se_lift (let? j := jget "count" (JObj complete) in int_or 0 j) in
  do! received := se_lift (let? j := jget "received" (JObj entry) in int_or 0 j) in
  do! mine := se_lift (jget "chain" (JObj entry)) in
  do! theirs := se_lift (jget "chain" (JObj complete)) in
  let ok := (expected <=? received) && String.eqb (str_or mine) (str_or theirs) in
  do! _ := set_incoming (dset device_id
    (JObj (dupdate entry [("done", JBool true); ("expected", JInt expected); ("complete", JBool ok)]%string)) state) in
  se_ret (OComplete ok).

(** What follows the opening of a record. *)
Definition dispatch (device_id : string) (kind : Z) (header : dict) (plaintext : bytes) : SE (Client N) outcome :=
  do! transfer := se_lift (let? j := jget "transfer" (JObj header) in Ok (str_or j)) in
  if kind =? DeviceChannel.REQUEST then
    do! request := se_lift (loads plaintext) in
    do! since := se_lift (jget "since" (JObj request)) in
    do! _ := incoming_request device_id transfer since in se_ret ORequest
  else if kind =? DeviceChannel.APPROVAL then
    do! new := mark_seen transfer in
    do! since := se_lift (jget "since" (JObj header)) in
    do! until := se_lift (jget "until" (JObj header)) in
    do! _ := (if new then mark_approved device_id transfer since until else se_ret tt) in se_ret OApproved
  else if kind =? DeviceChannel.OFFER then
    do! offer := se_lift (loads plaintext) in apply_offer device_id transfer offer
  else if kind =? DeviceChannel.ITEM then
    do! seq := se_lift (let? j := jget "seq" (JObj header) in int_or 0 j) in
    apply_item device_id transfer plaintext seq
  else if kind =? DeviceChannel.COMPLETE then
    do! complete := se_lift (loads plaintext) in apply_complete device_id complete
  else if kind =? DeviceChannel.MIRROR then
    do! item := se_lift (loads plaintext) in apply_mirror item
  else se_ret ONothing.

(** The record's device, its keys and its contents. *)
Definition open_incoming (blob : bytes) : SE (Client N) (string * Z * dict * bytes) :=
  do! (kind, header, payload) := se_lift (DeviceChannel.parse_record blob) in
  do! device_id := se_lift (let? j := jget "from" (JObj header) in Ok (str_or j)) in
  do! device := locate_device device_id in
  do! device := se_lift (of_option SyncError device) in
  do! record := fetch_device_keys device in
  do! record := se_lift (of_option SyncError record) in
  do! (sdev, sagree) := ensure_device_keys in
  do! (kind, header, plaintext) := se_lift (DeviceChannel.open_record blob sagree (Devices.sdev record) device_id) in
  se_ret (device_id, kind, header, plaintext).
Definition handle_record (blob : bytes) : SE (Client N) outcome :=
  do! (device_id, kind, header, plaintext) := open_incoming blob in
  dispatch device_id kind header plaintext.

(** ** Status *)

Record device_status := {
  ds_device : string; ds_name : string; ds_approved : bool; ds_received : Z; ds_expected : Z; ds_done : bool;
  ds_asked : bool; ds_has_keys : bool
}.
Fixpoint status_of (incoming outgoing approved : dict) (devices : list Devices.DeviceEntry)
    : SE (Client N) (list device_status) :=
  match devices with
  | [] => se_ret []
  | d :: rest =>
      let id := Devices.device_id d in
      let entry := jor (default JNull (dget id incoming)) (JObj []) in
      do! received := se_lift (let? j := jget "received" entry in int_or 0 j) in
      do! expected := se_lift (let? j := jget "expected" entry in int_or 0 j) in
      do! finished := se_lift (jget "done" entry) in
      do! asked := se_lift (let? j := jget "asked" (JObj outgoing) in iter_json (jor j (JList []))) in
      do! keys := fetch_device_keys d in
      do! more := status_of incoming outgoing approved rest in
      se_ret ({| ds_device := id; ds_name := Devices.name d; ds_approved := dhas id approved; ds_received := received;
                 ds_expected := expected; ds_done := truthy finished; ds_asked := existsb (λ j, eq_str j id) asked;
                 ds_has_keys := bool_decide (is_Some keys) |} :: more)
  end.
Definition iter_status : SE (Client N) (list device_status) :=
  do! i := incoming in
  do! o := requested_from in
  do! a := approvals in
  do! devices := sibling_devices false true in
  status_of i o a devices.
End sync.
