(* ===== verification/Client.v ===== *)
(** * The client ([core/client.py])

    Provisioning, contacts, sessions, sending, receiving, receipts and attachments, on
    the state of [ClientState].  Reading the file of [send_file] is an argument, and so
    is the MIME type guessed from its name. *)

From S2P Require Import Prelude PyStr Json JsonProps Primitives Dict Encoding RelayUrls Sql Store Backend ClientState Sync.
From S2P Require Identity Prekeys X3dh Ratchet Session Protocol Card Devices DeviceChannel Attachments.

Section client.
Context {C : Crypto} {Zl : Zlib} {N : Type} {P : Pool N}.

(** ** Prekeys *)

Definition keypair : SE (Client N) (bytes * bytes) :=
  do! private := urandom 32 in se_ret (private, x25519_public private).
(** The one-time prekeys from [index] on. *)
Fixpoint generate_opks (index : Z) (count : nat) : SE (Client N) dict :=
  match count with
  | O => se_ret []
  | S n =>
      do! (private, public) := keypair in
      do! rest := generate_opks (index + 1) n in
      se_ret ((int_str index, JObj [("priv", JStr (b64e private)); ("pub", JStr (b64e public))]%string) :: rest)
  end.
Definition generate_prekeys (count : nat) : SE (Client N) dict :=
  do! (spk_private, spk_public) := keypair in
  do! opks := generate_opks 1 count in
  se_ret [("spk_id", JInt 1); ("spk_private", JStr (b64e spk_private)); ("spk_public", JStr (b64e spk_public));
          ("opks", JObj opks); ("next_opk_id", JInt (Z.of_nat count + 1))]%string.

Definition read_opk (kv : string * json) : res (Z * bytes) :=
  let? id := py_int kv.1 in
  let? pub := (let? j := jitem "pub" kv.2 in b64d_json j) in Ok (id, pub).
Definition bundle_of (identity : Identity.Identity) (bundle_id : string) (prekeys : json) : res Prekeys.PrekeyBundle :=
  let? id := b64d bundle_id in
  let? spk_id := (let? j := jitem "spk_id" prekeys in to_int j) in
  let? spk := (let? j := jitem "spk_public" prekeys in b64d_json j) in
  let? opks := (let? j := jitem "opks" prekeys in let? d := items_json j in mapM read_opk d) in
  Prekeys.make_bundle identity id spk_id spk opks.
Definition publish_bundle (prekeys : json) : SE (Client N) unit :=
  do! c := se_get in
  do! bundle_id := se_some (cl_bundle c) in
  do! b := se_lift (bundle_of (cl_identity c) bundle_id prekeys) in
  do! urls := own_backend in
  on_net (pool_publish urls bundle_id (Prekeys.to_bytes b)).

(** ** Provisioning *)

Definition make_card : SE (Client N) unit :=
  do! c := se_get in
  do! bundle_id := se_some (cl_bundle c) in
  do! inbox := se_some (cl_inbox c) in
  se_modify (set_card (Some (Card.create (cl_identity c) bundle_id inbox (cl_relays c) (JStr (cl_name c))))).

Definition device_entry : SE (Client N) Devices.DeviceEntry :=
  do! c := se_get in
  do! inbox := se_some (cl_inbox c) in
  do! bundle_id := se_some (cl_bundle c) in
  se_ret {| Devices.device_id := default Devices.LEGACY_DEVICE (cl_device c); Devices.inbox := card_view inbox;
            Devices.relays := cl_relays c; Devices.bundle_id := bundle_id; Devices.name := cl_name c |}.
(** [device.inbox == entry.inbox]: dictionaries are equal in any order. *)
Definition dict_eqb (a b : dict) : bool := json_eqb (canon true (JObj a)) (canon true (JObj b)).
Definition same_entry (entry d : Devices.DeviceEntry) : bool :=
  String.eqb (Devices.device_id d) (Devices.device_id entry) && dict_eqb (Devices.inbox d) (Devices.inbox entry) &&
  String.eqb (Devices.bundle_id d) (Devices.bundle_id entry) && bool_decide (Devices.relays d = Devices.relays entry).
Definition assign_device_id : SE (Client N) unit :=
  do! c := se_get in
  match cl_device c with
  | Some _ => se_ret tt
  | None =>
      do! stored := get_state_ "device_id" in
      do! id := (if truthy stored then se_lift (own_str stored) else
                 do! b := urandom 16 in se_ret (Some (Devices.new_device_id b))) in
      do! _ := se_modify (set_device id) in
      set_state_ "device_id" (JStr (default ""%string id))
  end.
Definition ensure_device_registered : SE (Client N) unit :=
  do! _ := assign_device_id in
  do! entry := device_entry in
  do! existing := fetch_own_device_list in
  let devices := match existing with Some l => Devices.devices l | None => [] end in
  if existsb (same_entry entry) devices then se_ret tt
  else
    let entries := List.filter (λ d, negb (String.eqb (Devices.device_id d) (Devices.device_id entry))) devices ++ [entry] in
    do! c := se_get in
    do! now := now_ms in
    let listing := Devices.create (cl_identity c) entries None now in
    do! nonce := urandom 12 in
    do! _ := se_try
      (do! sealed := se_lift (Devices.seal_device_list nonce listing) in
       on_net (pool_publish (cl_relays c) (Devices.address listing) sealed)) in
    do! now := now_ms in
    do! _ := se_modify (set_list (Some (listing, now))) in
    publish_device_keys.

(** [try: register; try: republish the prekeys], failures ignored. *)
Definition register_existing (inbox : MailboxCapability) : SE (Client N) unit :=
  do! c := se_get in
  do! _ := se_try (on_net (pool_register (cl_relays c) inbox)) in
  se_try (do! prekeys := on_store (load_prekeys (me c)) in
          if truthy prekeys then publish_bundle prekeys else se_ret tt).
Definition load_account (inbox_json : json) : SE (Client N) unit :=
  do! inbox := se_lift (from_json inbox_json true) in
  do! bundle := (do! j := get_state_ "bundle_id" in se_lift (own_str j)) in
  do! stored_name := (do! j := get_state_ "name" in se_lift (own_str j)) in
  do! c := se_get in
  let name := match stored_name with Some n => if String.eqb n "" then cl_name c else n | None => cl_name c end in
  do! _ := se_modify (set_account (Some inbox) bundle name) in
  register_existing inbox.
Definition create_account : SE (Client N) unit :=
  do! c := se_get in
  do! id := urandom 16 in do! w := urandom 32 in do! r := urandom 32 in
  let inbox := generate id w r in
  do! _ := on_net (pool_register (cl_relays c) inbox) in
  do! b := urandom 16 in
  do! _ := se_modify (set_account (Some inbox) (Some (b64e b)) (cl_name c)) in
  do! prekeys := generate_prekeys (cl_opk_count c) in
  do! _ := save_prekeys_ (JObj prekeys) in
  do! _ := publish_bundle (JObj prekeys) in
  do! _ := set_state_ "inbox" (JObj (to_json inbox)) in
  do! _ := set_state_ "bundle_id" (JStr (b64e b)) in
  set_state_ "name" (JStr (cl_name c)).
Definition provision : SE (Client N) unit :=
  do! inbox_json := get_state_ "inbox" in
  do! _ := (if truthy inbox_json then load_account inbox_json else create_account) in
  do! _ := make_card in
  ensure_device_registered.
Definition ensure_provisioned : SE (Client N) unit :=
  do! c := se_get in match cl_card c with Some _ => se_ret tt | None => provision end.
Definition get_card : SE (Client N) Card.ContactCard :=
  do! _ := ensure_provisioned in do! c := se_get in se_some (cl_card c).
Definition devices : SE (Client N) (list Devices.DeviceEntry) :=
  do! listing := fetch_own_device_list in
  match listing with
  | Some l => se_ret (Devices.devices l)
  | None => do! e := device_entry in se_ret [e]
  end.

(** [_apply_relays], after a discovery. *)
Definition apply_relays (relays : list string) : SE (Client N) unit :=
  let urls := normalize_relay_urls relays in
  do! c := se_get in
  if match urls with [] => true | _ => false end || bool_decide (urls = cl_relays c) then se_ret tt
  else
    do! _ := se_modify (set_relays urls) in
    do! _ := match cl_inbox c with Some inbox => register_existing inbox | None => se_ret tt end in
    match cl_card c, cl_inbox c, cl_bundle c with
    | Some _, Some _, Some b => if String.eqb b "" then se_ret tt else make_card
    | _, _, _ => se_ret tt
    end.

(** ** Contacts *)

Definition first_chars (n : nat) (s : string) : string := take_chars n s.
(** The contact a card becomes. *)
Definition card_contact (id : string) (card : Card.ContactCard) (nickname : json) (session : option json)
    (existing : option contact) (now : Z) : contact :=
  {| c_id := Card.card_id card; c_identity := id;
     c_nickname := jor nickname (jor (match existing with Some k => c_nickname k | None => JNull end)
                     (jor (Card.name card) (JStr (first_chars 8 (Card.card_id card)))));
     c_isign := Card.isign card; c_idh := Card.idh card; c_bundle := JStr (Card.bundle_id card);
     c_inbox := JObj (card_view (Card.inbox card)); c_relays := JList (Card.relays card);
     c_session := match session, existing with Some s, _ => s | None, Some k => c_session k | None, None => JNull end;
     c_verified := match existing with Some k => c_verified k | None => false end;
     c_created := match existing with Some k => c_created k | None => now end |}.
Definition store_card (card : Card.ContactCard) (nickname : json) : SE (Client N) contact :=
  do! c := se_get in
  do! existing := on_store (get_contact (me c) (Card.card_id card)) in
  do! now := now_ms in
  let k := card_contact (me c) card nickname None existing (now / 1000) in
  do! _ := upsert_contact_ k in
  do! stored := on_store (get_contact (me c) (Card.card_id card)) in
  se_ret (default k stored).
Definition add_contact (card_string : string) (nickname : json) : SE (Client N) contact :=
  do! c := se_get in
  do! card := se_lift (except (isa CardError) ClientError (Card.from_string card_string)) in
  do! _ := se_check (String.eqb (Card.card_id card) (me c)) ClientError in
  store_card card nickname.
Definition remove_contact (contact_id : string) : SE (Client N) unit :=
  do! c := se_get in on_store (delete_contact (me c) contact_id).
Definition require_contact (contact_id : string) : SE (Client N) contact :=
  do! c := se_get in
  do! k := on_store (get_contact (me c) contact_id) in
  se_lift (of_option UnknownContact k).

(** ** Outbound sessions *)

Definition fetch_peer_device_list (k : contact) : SE (Client N) (option Devices.DeviceList) :=
  do! payload := se_catch isa_Exception None
    (do! urls := backend_for (c_relays k) in
     do! j := on_net (pool_bundle urls (Devices.device_list_id (c_isign k) (c_idh k))) in se_ret (Some j)) in
  match payload with
  | None => se_ret None
  | Some payload =>
      do! listing := se_catch (isa DeviceListError) None
        (do! l := se_lift (Devices.open_device_list (Devices.RawJson payload) (c_isign k) (c_idh k)) in
         se_ret (Some l)) in
      se_ret match listing with
             | Some l => if Devices.belongs_to l (c_id k) (c_isign k) (c_idh k) then Some l else None
             | None => None
             end
  end.
Definition peer_devices (k : contact) : SE (Client N) (list Devices.DeviceEntry) :=
  do! listing := fetch_peer_device_list k in
  match listing with
  | Some l => se_ret (Devices.devices l)
  | None => se_lift (cached_devices k)
  end.
Definition fetch_device_bundle (k : contact) (device : Devices.DeviceEntry) : SE (Client N) Prekeys.PrekeyBundle :=
  do! payload := se_except isa_Exception ClientError
    (do! urls := backend_for (device_relays device) in on_net (pool_bundle urls (Devices.bundle_id device))) in
  se_except isa_Exception ClientError (se_lift (Prekeys.from_public payload (c_isign k) (c_idh k))).
Definition start_session (k : contact) (device : Devices.DeviceEntry) : SE (Client N) Session.Session :=
  do! bundle := fetch_device_bundle k device in
  do! ephemeral := urandom 32 in
  do! i := se_lift (X3dh.initiate ephemeral bundle (c_isign k) (c_idh k)) in
  do! sid := urandom 16 in
  do! fresh := urandom 32 in
  do! ratchet := se_lift (Ratchet.initiator fresh (X3dh.sk i) (Prekeys.spk bundle)) in
  se_ret {| Session.sid := sid; Session.ratchet := ratchet; Session.sk := Some (X3dh.sk i);
            Session.init := JObj (X3dh.init_dict i); Session.established := false |}.
Fixpoint start_missing (k : contact) (devices : list Devices.DeviceEntry) (outbound : list (string * Session.Session))
    : SE (Client N) (list (string * Session.Session)) :=
  match devices with
  | [] => se_ret outbound
  | d :: rest =>
      match aget (Devices.device_id d) outbound with
      | Some _ => start_missing k rest outbound
      | None => do! s := start_session k d in start_missing k rest (aset (Devices.device_id d) s outbound)
      end
  end.
(** The devices to write to, and the state with a session for each. *)
Definition ensure_outbound_sessions (k : contact) (st : state_t) : SE (Client N) (list Devices.DeviceEntry * state_t) :=
  do! ds := peer_devices k in
  do! ds := match ds with [] => (do! d := se_lift (legacy_device k) in se_ret [d]) | _ => se_ret ds end in
  do! outbound := start_missing k ds (st_outbound st) in
  se_ret (ds, {| st_devices := ds; st_outbound := outbound; st_inbound := st_inbound st |}).
(** ** Sending *)

(** [session.init] and [session.sk] of a pending session. *)
Definition handshake_of (s : Session.Session) : res (dict * bytes) :=
  match Session.sk s, Session.init s with
  | Some sk, JObj init => Ok (init, sk)
  | None, _ | _, JNull => Err ClientError
  | _, _ => Err Unmodelled
  end.
(** The envelope as sent, and the handshake header that goes with it. *)
Definition dress_envelope (s : Session.Session) (envelope : dict) : SE (Client N) (dict * json) :=
  if Session.is_pending s then
    do! (init, sk) := se_lift (handshake_of s) in
    do! c := se_get in
    let auth := X3dh.build_auth (cl_identity c) (Session.sid s) init sk in
    do! card := get_card in
    se_ret (dset "card" (JObj (Card.signed_dict card)) (dset "auth" (JObj auth) envelope), JObj init)
  else se_ret (envelope, JNull).
Definition with_ratchet (r : Ratchet.RatchetState) (s : Session.Session) : Session.Session :=
  {| Session.sid := Session.sid s; Session.ratchet := r; Session.sk := Session.sk s; Session.init := Session.init s;
     Session.established := Session.established s |}.
(** The session's ratchet moves with the seal; an exception later on drops it. *)
Definition send_envelope (device : Devices.DeviceEntry) (s : Session.Session) (envelope : dict) (kind : string)
    : SE (Client N) (bytes * Session.Session) :=
  do! (envelope, init) := dress_envelope s envelope in
  do! choices := pad_choices in
  do! nonce := urandom 12 in
  let '(r, ratchet) := Protocol.seal choices nonce envelope (Session.sid s) init
                         (Some (Protocol.envelope_max_size kind)) (Session.ratchet s) in
  do! blob := se_lift r in
  do! urls := backend_for (device_relays device) in
  do! capability := se_lift (device_capability device) in
  do! _ := on_net (pool_put urls capability blob) in
  se_ret (blob, with_ratchet ratchet s).
(** One copy per device; the sessions as they are afterwards. *)
Fixpoint fan_out (devices : list Devices.DeviceEntry) (sessions : list (string * Session.Session))
    (envelope_for : Devices.DeviceEntry → res dict) (kind : string)
    : SE (Client N) (list (Devices.DeviceEntry * bytes) * list (string * Session.Session)) :=
  match devices with
  | [] => se_ret ([], sessions)
  | d :: rest =>
      do! s := se_lift (of_option KeyError (aget (Devices.device_id d) sessions)) in
      do! envelope := se_lift (envelope_for d) in
      do! (blob, s) := send_envelope d s envelope kind in
      do! (results, sessions) := fan_out rest (aset (Devices.device_id d) s sessions) envelope_for kind in
      se_ret ((d, blob) :: results, sessions)
  end.

Definition queue_outbox (k : contact) (message_id : string) (sent : Devices.DeviceEntry * bytes) : SE (Client N) unit :=
  let '(d, blob) := sent in
  do! c := se_get in
  do! mailbox := se_lift (jitem "id" (JObj (Devices.inbox d))) in
  do! nonce := urandom 12 in
  do! now := now_ms in
  on_store (outbox_add nonce (now / 1000)
    {| o_id := message_id +:+ ":" +:+ Devices.device_id d; o_identity := me c; o_contact := c_id k; o_mailbox := mailbox;
       o_relay := JStr (to_str (join (bs ",") (map bs (Devices.relays d)))); o_payload := JStr (b64e blob);
       o_seq := Some 1; o_created := now / 1000 |}).
Fixpoint queue_all (k : contact) (message_id : string) (sent : list (Devices.DeviceEntry * bytes)) : SE (Client N) unit :=
  match sent with
  | [] => se_ret tt
  | x :: rest => do! _ := queue_outbox k message_id x in queue_all k message_id rest
  end.
Definition mirror_sent (contact_id message_id : string) : SE (Client N) unit :=
  do! row := on_store (get_message (JStr message_id)) in
  match row with
  | None => se_ret tt
  | Some m => se_try (do! _ := mirror_message contact_id m in se_ret tt)
  end.

Definition sent_message (id message_id contact_id type : string) (body : json) (ts : Z) : message :=
  {| m_id := message_id; m_identity := id; m_contact := JStr contact_id; m_direction := JStr "sent"; m_type := JStr type;
     m_body := body; m_remote := JNull; m_ts := ts; m_state := JStr "sent"; m_meta := JNull |}.
(** What [send_text] and [send_file] do once the bodies are known: deliver, save the
    sessions, record the message, queue the copies, mirror. *)
Definition deliver (k : contact) (contact_id message_id type : string) (st : state_t) (ds : list Devices.DeviceEntry)
    (envelope_for : Devices.DeviceEntry → res dict) (body : json) : SE (Client N) string :=
  do! (blobs, outbound) := fan_out ds (st_outbound st) envelope_for type in
  do! _ := save_state contact_id {| st_devices := st_devices st; st_outbound := outbound; st_inbound := st_inbound st |} in
  do! c := se_get in
  do! ts := now_ms in
  do! _ := add_message_ (sent_message (me c) message_id contact_id type body ts) in
  do! _ := queue_all k message_id blobs in
  do! _ := mirror_sent contact_id message_id in
  se_ret message_id.
Definition send_text (contact_id text : string) : SE (Client N) string :=
  do! _ := ensure_provisioned in
  do! k := require_contact contact_id in
  do! st := se_lift (load_state k) in
  do! (ds, st) := ensure_outbound_sessions k st in
  do! message_id := new_id in
  do! ts := now_ms in
  let body := JObj [("text"%string, JStr text)] in
  let envelope := Protocol.make_envelope "text" body message_id ts JNull JNull in
  deliver k contact_id message_id "text" st ds (λ _, Ok envelope) body.

(** [n] draws of [k] bytes *)
Fixpoint urandoms (k n : nat) : SE (Client N) (list bytes) :=
  match n with
  | O => se_ret []
  | S n' => do! b := urandom k in do! rest := urandoms k n' in se_ret (b :: rest)
  end.
Fixpoint put_chunks (urls : list string) (capability : MailboxCapability) (chunks : list Attachments.EncryptedChunk)
    : SE (Client N) (list string) :=
  match chunks with
  | [] => se_ret []
  | ch :: rest =>
      do! fresh := urandom 16 in
      do! id := on_net (pool_put_blob urls capability fresh (Attachments.ch_ciphertext ch)) in
      do! ids := put_chunks urls capability rest in
      se_ret (id :: ids)
  end.
Definition file_body (caption name mime : string) (manifest : dict) : json :=
  JObj [("caption", JStr caption);
        ("attachment", JObj (dset "mime" (JStr mime) (dset "name" (JStr name) manifest)))]%string.
(** The chunks uploaded for each device, and the body made for it. *)
Fixpoint upload_for (devices : list Devices.DeviceEntry) (a : Attachments.Attachment) (caption name mime : string)
    (bodies : list (string * (list string * json))) : SE (Client N) (list (string * (list string * json))) :=
  match devices with
  | [] => se_ret bodies
  | d :: rest =>
      do! urls := backend_for (device_relays d) in
      do! capability := se_lift (device_capability d) in
      do! ids := put_chunks urls capability (Attachments.chunks a) in
      do! manifest := se_lift (Attachments.manifest_dict a ids) in
      upload_for rest a caption name mime (aset (Devices.device_id d) (ids, file_body caption name mime manifest) bodies)
  end.
Fixpoint keep_chunks (chunks : list (string * Attachments.EncryptedChunk)) : SE (Client N) unit :=
  match chunks with
  | [] => se_ret tt
  | (id, ch) :: rest =>
      do! now := now_ms in
      do! _ := on_store (put_local_blob now id (Attachments.ch_ciphertext ch)) in
      keep_chunks rest
  end.
Definition send_file (contact_id : string) (data : bytes) (name mime caption : string) : SE (Client N) string :=
  do! _ := ensure_provisioned in
  do! k := require_contact contact_id in
  do! st := se_lift (load_state k) in
  do! (ds, st) := ensure_outbound_sessions k st in
  do! key := urandom 32 in
  do! nonces := urandoms 12 (length (Attachments.offsets data)) in
  do! a := se_lift (Attachments.encrypt_attachment key (λ i, nth i nonces []) data) in
  do! bodies := upload_for ds a caption name mime [] in
  do! d0 := se_lift (of_option IndexError (head ds)) in
  do! (ids, body) := se_lift (of_option KeyError (aget (Devices.device_id d0) bodies)) in
  do! _ := keep_chunks (zip ids (Attachments.chunks a)) in
  do! message_id := new_id in
  do! ts := now_ms in
  deliver k contact_id message_id "file" st ds
    (λ d, let? (_, b) := of_option KeyError (aget (Devices.device_id d) bodies) in
          Ok (Protocol.make_envelope "file" b message_id ts JNull JNull)) body.

(** [flush_outbox]: rows without a sequence number are sent again. *)
Definition flush_entry (e : outbox_entry) : SE (Client N) bool :=
  if match o_seq e with Some n => negb (n =? 0) | None => false end then se_ret false
  else
    do! c := se_get in
    do! k := on_store (get_contact (me c) (o_contact e)) in
    match k with
    | None => se_ret false
    | Some k =>
        do! ds := se_lift (cached_devices k) in
        match List.find (λ d, bool_decide (default JNull (dget "id" (Devices.inbox d)) = o_mailbox e)) ds with
        | None => se_ret false
        | Some d =>
            se_catch isa_Exception false
              (do! urls := backend_for (device_relays d) in
               do! capability := se_lift (device_capability d) in
               do! blob := se_lift (b64d_json (o_payload e)) in
               do! _ := on_net (pool_put urls capability blob) in
               do! _ := on_store (outbox_mark_sent (o_id e)) in
               se_ret true)
        end
    end.
Fixpoint flush_entries (l : list outbox_entry) : SE (Client N) Z :=
  match l with
  | [] => se_ret 0
  | e :: rest => do! sent := flush_entry e in do! n := flush_entries rest in se_ret (if sent : bool then n + 1 else n)
  end.
Definition flush_outbox : SE (Client N) Z :=
  do! c := se_get in do! l := on_store (outbox_list (me c) "") in flush_entries l.
(** ** Receipts *)

Definition receipt_envelope (of_id : json) (kind id : string) (ts : Z) : dict :=
  Protocol.make_envelope "receipt" (JObj [("of"%string, of_id); ("kind"%string, JStr kind)]) id ts JNull JNull.
Definition deliver_receipt (k : contact) (envelope : dict) : SE (Client N) unit :=
  do! c := se_get in
  do! k' := on_store (get_contact (me c) (c_id k)) in
  let k := default k k' in
  do! st := se_lift (load_state k) in
  do! (ds, st) := ensure_outbound_sessions k st in
  do! (_, outbound) := fan_out ds (st_outbound st) (λ _, Ok envelope) "receipt" in
  save_state (c_id k) {| st_devices := st_devices st; st_outbound := outbound; st_inbound := st_inbound st |}.
Definition send_receipt (k : contact) (of_id : json) (kind : string) : SE (Client N) unit :=
  do! id := new_id in
  do! ts := now_ms in
  se_try (deliver_receipt k (receipt_envelope of_id kind id ts)).

(** ** Receiving *)

Definition received_message (id message_id contact_id : string) (kind body remote : json) (ts : Z) : message :=
  {| m_id := message_id; m_identity := id; m_contact := JStr contact_id; m_direction := JStr "received"; m_type := kind;
     m_body := body; m_remote := remote; m_ts := ts; m_state := JStr "received"; m_meta := JNull |}.
Definition process_message (k : contact) (kind envelope_id body ts : json) : SE (Client N) (option message) :=
  if negb (truthy envelope_id) then se_ret None else
  do! c := se_get in
  do! known := on_store (find_by_remote_id (me c) envelope_id "received") in
  match known with
  | Some _ => se_ret None
  | None =>
      do! id := new_id in
      do! ts := (if truthy ts then se_lift (to_int ts) else now_ms) in
      do! _ := add_message_ (received_message (me c) id (c_id k) kind body envelope_id ts) in
      do! _ := send_receipt k envelope_id "delivered" in
      on_store (get_message (JStr id))
  end.
Definition process_receipt (k : contact) (body : json) : SE (Client N) unit :=
  do! target := se_lift (jget "of" body) in
  if negb (truthy target) then se_ret tt else
  do! kind := se_lift (jget "kind" body) in
  let state := jor kind (JStr "read") in
  do! _ := update_state_ target state in
  do! _ := on_store (outbox_remove_for_message target) in
  do! row := on_store (get_message target) in
  match row with
  | None => se_ret tt
  | Some m => se_try (do! _ := mirror_state (c_id k) m (m_state m) in se_ret tt)
  end.
Definition process_envelope (k : contact) (envelope : dict) : SE (Client N) (option message) :=
  let get key := default JNull (dget key envelope) in
  let body := jor (get "body"%string) (JObj []) in
  let kind := get "type"%string in
  if eq_str kind "text" || eq_str kind "file" then process_message k kind (get "id"%string) body (get "ts"%string)
  else if eq_str kind "receipt" then do! _ := process_receipt k body in se_ret None
  else se_ret None.

(** The private half of the one-time prekey the handshake names: [Ok None] when it was
    already used, empty for no prekey. *)
Definition opk_private (prekeys opk_id : json) : res (option bytes) :=
  match opk_id with
  | JNull => Ok (Some [])
  | _ =>
      let? entry := (let? opks := jitem "opks" prekeys in jget (to_pystr opk_id) opks) in
      match entry with
      | JNull => Ok None
      | _ => let? private := (let? j := jitem "priv" entry in b64d_json j) in Ok (Some private)
      end
  end.
Definition inbound_session (sid key spk_private spk_public : bytes) (init : json) : Session.Session :=
  {| Session.sid := sid; Session.ratchet := Ratchet.responder key spk_private spk_public; Session.sk := Some key;
     Session.init := init; Session.established := false |}.
(** The session key of an incoming handshake; failures of the [try] block give [None]. *)
Definition respond_to (identity : Identity.Identity) (prekeys : json) (private : bytes) (init : json) : res (option bytes) :=
  match (let? spk := (let? j := jitem "spk_private" prekeys in b64d_json j) in
         let? ek := (let? j := jitem "ek" init in b64d_json j) in
         X3dh.respond (Identity.x_private identity) spk private ek) with
  | Ok key => Ok (Some key)
  | Err e => if isa_Exception e then Ok None else Err e
  end.
Definition begin_inbound_ (identity : Identity.Identity) (prekeys : json) (wire : dict) : res (option (Session.Session * json)) :=
  let? init := jitem "init" (JObj wire) in
  if negb (truthy prekeys) then Ok None else
  let? theirs := (let? j := jitem "spk_id" init in to_int j) in
  let? ours := (let? j := jitem "spk_id" prekeys in to_int j) in
  if negb (theirs =? ours) then Ok None else
  let? opk_id := jget "opk_id" init in
  let? private := opk_private prekeys opk_id in
  match private with
  | None => Ok None
  | Some private =>
      let? key := respond_to identity prekeys private init in
      match key with
      | None => Ok None
      | Some key =>
          let? sid := (let? j := jitem "sid" (JObj wire) in b64d_json j) in
          let? spk_private := (let? j := jitem "spk_private" prekeys in b64d_json j) in
          let? spk_public := (let? j := jitem "spk_public" prekeys in b64d_json j) in
          Ok (Some (inbound_session sid key spk_private spk_public init, opk_id))
      end
  end.
Definition begin_inbound (wire : dict) : SE (Client N) (option (Session.Session * json)) :=
  do! c := se_get in
  do! prekeys := on_store (load_prekeys (me c)) in
  se_lift (begin_inbound_ (cl_identity c) prekeys wire).

Definition consume_opk (opk_id : json) : SE (Client N) unit :=
  match opk_id with
  | JNull => se_ret tt
  | _ =>
      do! c := se_get in
      do! prekeys := on_store (load_prekeys (me c)) in
      if negb (truthy prekeys) then se_ret tt else
      do! d := se_lift (items_json prekeys) in
      do! opks := se_lift (let? j := jitem "opks" prekeys in items_json j) in
      match default JNull (dget (to_pystr opk_id) opks) with
      | JNull => se_ret tt
      | _ => save_prekeys_ (JObj (dset "opks" (JObj (dpop (to_pystr opk_id) opks)) d))
      end
  end.

Definition establish (s : Session.Session) : Session.Session :=
  {| Session.sid := Session.sid s; Session.ratchet := Session.ratchet s; Session.sk := None; Session.init := Session.init s;
     Session.established := true |}.
(** The card of an authenticated first message. *)
Definition sender_card (s : Session.Session) (envelope : dict) : res (option Card.ContactCard) :=
  let auth := default JNull (dget "auth" envelope) in
  let card := default JNull (dget "card" envelope) in
  if negb (is_dict auth) || negb (is_dict card) then Ok None else
  match Session.sk s, Session.init s with
  | None, _ | _, JNull => Ok None
  | Some sk, JObj init =>
      let? ok := X3dh.verify_auth auth (Session.sid s) init sk in
      if negb ok then Ok None else
      match Card.from_dict card with
      | Err e => if isa CardError e then Ok None else Err e
      | Ok card =>
          let? id := jget "id" auth in
          if negb (eq_str id (Card.card_id card)) then Ok None else
          let? isign := (let? j := jitem "isign" auth in b64d_json j) in
          Ok (if bool_decide (Card.isign card = isign) then Some card else None)
      end
  | Some _, _ => Err Unmodelled
  end.
Definition finish_inbound (s : Session.Session) (envelope : dict) (opk_id : json) : SE (Client N) (option contact) :=
  do! card := se_lift (sender_card s envelope) in
  match card with
  | None => se_ret None
  | Some card =>
      do! k := store_card card JNull in
      do! _ := consume_opk opk_id in
      se_ret (Some k)
  end.

Definition put_session (outbound : bool) (key : string) (s : Session.Session) (st : state_t) : state_t :=
  if outbound
  then {| st_devices := st_devices st; st_outbound := aset key s (st_outbound st); st_inbound := st_inbound st |}
  else {| st_devices := st_devices st; st_outbound := st_outbound st; st_inbound := aset key s (st_inbound st) |}.
(** [unseal] on a session: the envelope and the session after it; [None] on a [WireError]. *)
Definition unseal_with (s : Session.Session) (blob : bytes) : SE (Client N) (option (dict * Session.Session)) :=
  do! fresh := urandom 32 in
  let '(r, ratchet) := Protocol.unseal fresh blob (Session.ratchet s) in
  se_lift match r with
          | Ok (envelope, _, _) => Ok (Some (envelope, with_ratchet ratchet s))
          | Err e => if isa_WireError e then Ok None else Err e
          end.
Definition accept_envelope (k : contact) (st : state_t) (outbound : bool) (key : string) (s : Session.Session)
    (envelope : dict) : SE (Client N) (option message) :=
  do! _ := save_state (c_id k) (put_session outbound key s st) in
  process_envelope k envelope.
Definition handle_known (l : located) (blob : bytes) : SE (Client N) (option message) :=
  do! opened := unseal_with (lo_session l) blob in
  match opened with
  | None => se_ret None
  | Some (envelope, s) =>
      accept_envelope (lo_contact l) (lo_state l) (lo_outbound l) (lo_key l)
        (if Session.established s then s else establish s) envelope
  end.
Definition handle_first (wire : dict) (blob : bytes) : SE (Client N) (option message) :=
  if negb (dhas "init" wire) then se_ret None else
  do! started := begin_inbound wire in
  match started with
  | None => se_ret None
  | Some (s, opk_id) =>
      do! opened := unseal_with s blob in
      match opened with
      | None => se_ret None
      | Some (envelope, s) =>
          do! k := finish_inbound s envelope opk_id in
          match k with
          | None => se_ret None
          | Some k =>
              do! st := se_lift (load_state k) in
              do! c := se_get in
              accept_envelope k st false (default Devices.LEGACY_DEVICE (cl_device c)) (establish s) envelope
          end
      end
  end.
Definition handle_blob (blob : bytes) : SE (Client N) (option message) :=
  do! wire := se_lift (Protocol.parse_wire blob) in
  do! sid := se_lift (let? j := jitem "sid" (JObj wire) in b64d_json j) in
  do! found := find_session sid in
  match found with
  | Some l => handle_known l blob
  | None => handle_first wire blob
  end.

(** One fetched item: whatever goes wrong with it, the loop goes on. *)
Definition handle_item (item : FetchedMessage) : SE (Client N) (option message) :=
  se_catch isa_Exception None
    (if DeviceChannel.is_device_record (fm_blob item)
     then do! _ := handle_record (fm_blob item) in se_ret None
     else handle_blob (fm_blob item)).
Definition note_seq (max_seq : gmap string Z) (item : FetchedMessage) : gmap string Z :=
  <[fm_relay item := Z.max (default 0 (max_seq !! fm_relay item)) (fm_seq item)]> max_seq.
Fixpoint handle_items (items : list FetchedMessage) (max_seq : gmap string Z)
    : SE (Client N) (list message * gmap string Z) :=
  match items with
  | [] => se_ret ([], max_seq)
  | item :: rest =>
      do! m := handle_item item in
      do! (new, max_seq) := handle_items rest (note_seq max_seq item) in
      se_ret (match m with Some m => m :: new | None => new end, max_seq)
  end.
Definition sync (wait : Z) : SE (Client N) (list message) :=
  do! _ := ensure_provisioned in
  do! c := se_get in
  do! capability := se_some (cl_inbox c) in
  do! urls := own_backend in
  do! fetched := on_net (pool_fetch urls capability ∅ wait) in
  do! (new, max_seq) := handle_items fetched ∅ in
  do! _ := (if bool_decide (max_seq = ∅) then se_ret tt else on_net (pool_ack urls capability max_seq)) in
  se_ret new.

Definition mark_read (contact_id message_id : string) : SE (Client N) unit :=
  do! k := require_contact contact_id in
  do! m := on_store (get_message (JStr message_id)) in
  do! m := se_lift (of_option ClientError m) in
  do! _ := send_receipt k (jor (m_remote m) (JStr message_id)) "read" in
  se_try (do! _ := mirror_state contact_id m (JStr "read") in se_ret tt).

(** ** History between devices, and attachments *)

Definition provisioned {A} (m : SE (Client N) A) : SE (Client N) A := do! _ := ensure_provisioned in m.
Definition client_request_history (since_ms : option Z) := provisioned (request_history since_ms None).
Definition history_requests := provisioned pending_requests.
Definition approve_history (device_id : string) (since_ms : option Z) := provisioned (approve_device device_id since_ms None).
Definition deny_history (device_id : string) := provisioned (deny_device device_id).
Definition revoke_history_approval (device_id : string) := provisioned (revoke_approval device_id).
Definition client_approved_devices := provisioned approved_devices.
Definition sync_status := provisioned iter_status.

Definition fetch_chunk (inbox : MailboxCapability) (chunk_id : string) : SE (Client N) bytes :=
  do! cached := on_store (get_local_blob chunk_id) in
  match cached with
  | Some ct => se_ret ct
  | None =>
      do! urls := own_backend in
      do! ct := on_net (pool_get_blob urls inbox chunk_id) in
      do! now := now_ms in
      do! _ := on_store (put_local_blob now chunk_id ct) in se_ret ct
  end.
Fixpoint fetch_chunks (inbox : MailboxCapability) (ids : list string) : SE (Client N) (list bytes) :=
  match ids with
  | [] => se_ret []
  | id :: rest => do! ct := fetch_chunk inbox id in do! cts := fetch_chunks inbox rest in se_ret (ct :: cts)
  end.
Definition download_attachment (body : json) : SE (Client N) bytes :=
  do! _ := ensure_provisioned in
  do! manifest := se_lift (jget "attachment" (jor body (JObj []))) in
  do! _ := se_check (negb (truthy manifest)) AttachmentError in
  do! (key, chunk_ids, nonces, expected_hash) := se_lift (Attachments.decode_manifest manifest) in
  do! c := se_get in
  do! inbox := se_some (cl_inbox c) in
  do! ciphertexts := fetch_chunks inbox chunk_ids in
  se_lift (Attachments.decrypt_attachment key nonces ciphertexts expected_hash).
End client.
