(* ===== verification/ClientProps.v ===== *)
(** * Invariants of the client

    Every operation of the client keeps the client's identity and the invariant of its
    store, in the sense of [keeps] (Keeps). *)

From S2P Require Import Prelude PyStr Json JsonProps Primitives Dict Encoding Sql Store StoreProps Backend ClientState Sync Client.
From S2P Require Export Keeps.
From S2P Require Identity Devices DeviceChannel History Session Attachments Protocol.

(** ** The store *)

(** One store becomes another without losing its invariant or moving a cursor back. *)
Definition sound (s s' : LocalStore) : Prop := (wf_store s → wf_store s') ∧ forward s s'.
#[export] Instance sound_preorder : PreOrder sound.
Proof.
  split.
  - intros s. split; [done|]. by apply forward_same.
  - intros s1 s2 s3 [H1 H2] [H3 H4]. split; [auto|]. by eapply forward_trans.
Qed.

Lemma run_op_sound {C : Crypto} op s : sound s (run_op op s).
Proof. split; [apply run_op_wf|apply run_op_forward]. Qed.

Section store_ops.
Context {C : Crypto}.
Lemma upsert_contact_sound nonce now id k : keeps sound (upsert_contact nonce now id k).
Proof using. intros s. exact (run_op_sound (UpsertContact nonce now id k) s). Qed.
Lemma delete_contact_sound id k : keeps sound (delete_contact id k).
Proof using. intros s. exact (run_op_sound (C := Toy.toy_crypto) (DeleteContact id k) s). Qed.
Lemma set_contact_session_sound nonce id k v : keeps sound (set_contact_session nonce id k v).
Proof using. intros s. exact (run_op_sound (SetContactSession nonce id k v) s). Qed.
Lemma add_message_sound n1 n2 m : keeps sound (add_message n1 n2 m).
Proof using. intros s. exact (run_op_sound (AddMessage n1 n2 m) s). Qed.
Lemma update_message_sound n id fields : keeps sound (update_message n id fields).
Proof using. intros s. exact (run_op_sound (UpdateMessage n id fields) s). Qed.
Lemma save_prekeys_sound n id v : keeps sound (save_prekeys n id v).
Proof using. intros s. exact (run_op_sound (SavePrekeys n id v) s). Qed.
Lemma outbox_add_sound n now e : keeps sound (outbox_add n now e).
Proof using. intros s. exact (run_op_sound (OutboxAdd n now e) s). Qed.
Lemma outbox_remove_for_message_sound id : keeps sound (outbox_remove_for_message id).
Proof using. intros s. exact (run_op_sound (C := Toy.toy_crypto) (OutboxRemoveForMessage id) s). Qed.
Lemma outbox_mark_sent_sound id : keeps sound (outbox_mark_sent id).
Proof using. intros s. exact (run_op_sound (C := Toy.toy_crypto) (OutboxMarkSent id) s). Qed.
Lemma put_local_blob_sound now id data : keeps sound (put_local_blob now id data).
Proof using. intros s. exact (run_op_sound (C := Toy.toy_crypto) (PutLocalBlob now id data) s). Qed.
Lemma set_state_sound n id k v : keeps sound (set_state n id k v).
Proof using. intros s. exact (run_op_sound (SetState n id k v) s). Qed.

(** Reads. *)
Lemma get_contact_sound id k : keeps sound (get_contact id k).
Proof using. unfold get_contact. keeping. Qed.
Lemma list_contacts_sound id : keeps sound (list_contacts id).
Proof using. unfold list_contacts. keeping. Qed.
Lemma get_message_sound id : keeps sound (get_message id).
Proof using. unfold get_message, one_message. keeping. Qed.
Lemma find_by_remote_id_sound id r d : keeps sound (find_by_remote_id id r d).
Proof using. unfold find_by_remote_id, one_message. keeping. Qed.
Lemma list_all_messages_sound id : keeps sound (list_all_messages id).
Proof using. unfold list_all_messages. keeping. Qed.
Lemma load_prekeys_sound id : keeps sound (load_prekeys id).
Proof using. unfold load_prekeys. keeping. Qed.
Lemma get_state_sound id k : keeps sound (get_state id k).
Proof using. unfold get_state. keeping. Qed.
Lemma outbox_list_sound id k : keeps sound (outbox_list id k).
Proof using. unfold outbox_list. keeping. Qed.
Lemma get_local_blob_sound id : keeps sound (get_local_blob id).
Proof using. unfold get_local_blob. keeping. Qed.
Lemma has_local_blob_sound id : keeps sound (has_local_blob id).
Proof using. unfold has_local_blob. keeping. Qed.
End store_ops.
#[export] Hint Resolve upsert_contact_sound delete_contact_sound set_contact_session_sound add_message_sound
  update_message_sound save_prekeys_sound outbox_add_sound outbox_remove_for_message_sound outbox_mark_sent_sound
  put_local_blob_sound set_state_sound get_contact_sound list_contacts_sound get_message_sound find_by_remote_id_sound
  list_all_messages_sound load_prekeys_sound get_state_sound outbox_list_sound get_local_blob_sound has_local_blob_sound : keeps.

(** History merges and bundles are sequences of store calls. *)
Section history_ops.
Context {C : Crypto}.
Import History.

Lemma message_index_sound id : keeps sound (message_index id).
Proof using. unfold message_index. keeping. Qed.
Lemma merge_contacts_sound id now items n : keeps sound (merge_contacts id now items n).
Proof using.
  revert n. induction items as [|item items IH]; intros n; cbn [merge_contacts]; [keeping|].
  apply keeps_bind; [apply _| |intros b; apply IH]. unfold merge_contact. keeping.
Qed.
Lemma merge_messages_sound id items known n : keeps sound (merge_messages id items known n).
Proof using.
  revert known n. induction items as [|[d item] items IH]; intros known n; cbn [merge_messages]; [keeping|].
  apply keeps_bind; [apply _| |intros []; apply IH]. unfold merge_message. keeping.
Qed.
Lemma merge_chunks_sound now items n : keeps sound (merge_chunks now items n).
Proof using.
  revert n. induction items as [|item items IH]; intros n; cbn [merge_chunks]; [keeping|].
  apply keeps_bind; [apply _| |intros b; apply IH]. unfold merge_chunk. keeping.
Qed.
Lemma collect_items_sound budget items k : keeps sound (collect_items budget items k).
Proof using.
  revert k. induction items as [|item items IH]; intros k; cbn [collect_items]; [keeping|].
  apply keeps_bind; [apply _|keeping|intros entries]. apply keeps_bind; [apply _| |intros k'; apply IH].
  revert k. induction entries as [|e entries IHe]; intros k; cbn [collect_entries]; [keeping|].
  apply keeps_bind; [apply _|keeping|intros i]. apply keeps_bind; [apply _| |intros k'; apply IHe].
  unfold collect_chunk. keeping.
Qed.
Lemma build_bundle_sound id dev now created since until budget attach :
  keeps sound (build_bundle id dev now created since until budget attach).
Proof using. unfold build_bundle. pose proof collect_items_sound. keeping. Qed.
End history_ops.
#[export] Hint Resolve message_index_sound merge_contacts_sound merge_messages_sound merge_chunks_sound build_bundle_sound : keeps.

(** ** The client *)

(** Signed by the account, about the account. *)
Definition list_ok {C : Crypto} (i : Identity.Identity) (l : Devices.DeviceList) : Prop :=
  Devices.belongs_to l (Identity.identity_id i) (Identity.ed_public_bytes i) (Identity.x_public_bytes i) = true ∧
  Identity.verify (Identity.ed_public_bytes i) (Devices.signature l) (Devices.signed_bytes l) = true.
Definition keys_ok {C : Crypto} (i : Identity.Identity) (id : string) (k : Devices.DeviceKeys) : Prop :=
  Devices.dk_device_id k = id ∧
  Devices.keys_belong_to k (Identity.identity_id i) (Identity.ed_public_bytes i) (Identity.x_public_bytes i) = true ∧
  Identity.verify (Identity.ed_public_bytes i) (Devices.dk_signature k) (Devices.keys_signed_bytes k) = true.
(** The device list and the device keys the client remembers are the account's own. *)
Definition caches_ok {C : Crypto} {N} (c : Client N) : Prop :=
  (∀ l ts, cl_list c = Some (l, ts) → list_ok (cl_identity c) l) ∧
  (∀ id k ts, cl_siblings c !! id = Some (k, ts) → keys_ok (cl_identity c) id k).

Definition client_ok {C : Crypto} {N} (c c' : Client N) : Prop :=
  cl_identity c' = cl_identity c ∧ sound (cl_store c) (cl_store c') ∧
  (Identity.wf_identity (cl_identity c) → caches_ok c → caches_ok c').
#[export] Instance client_ok_preorder {C : Crypto} {N} : PreOrder (@client_ok C N).
Proof.
  split.
  - intros c. split_and!; [done|done|auto].
  - intros c1 c2 c3 (H1 & H2 & H3) (H4 & H5 & H6). split_and!; [congruence|by etrans|].
    intros Hw H. apply H6; [by rewrite H1|auto].
Qed.

(** Nothing the relation looks at changes. *)
Lemma client_ok_same {C : Crypto} {N} (c c' : Client N) :
  cl_identity c' = cl_identity c → cl_store c' = cl_store c → cl_list c' = cl_list c → cl_siblings c' = cl_siblings c →
  client_ok c c'.
Proof. intros H1 H2 H3 H4. split_and!; [done|by rewrite H2|]. unfold caches_ok. by rewrite H1, H3, H4. Qed.

Section primitives.
Context {C : Crypto} {N : Type}.
Lemma keeps_on_store {A} (m : SE LocalStore A) : keeps sound m → keeps (@client_ok C N) (on_store m).
Proof using. intros Hm c. unfold on_store. specialize (Hm (cl_store c)). destruct (m (cl_store c)). split_and!; done. Qed.
Lemma keeps_on_net {A} (m : SE N A) : keeps (@client_ok C N) (on_net m).
Proof using. intros c. unfold on_net. destruct (m (cl_net c)). by apply client_ok_same. Qed.
Lemma keeps_urandom n : keeps (@client_ok C N) (urandom n).
Proof using. intros c. by apply client_ok_same. Qed.
Lemma keeps_now_ms : keeps (@client_ok C N) now_ms.
Proof using. intros c. by apply client_ok_same. Qed.
Lemma keeps_pad_choices : keeps (@client_ok C N) pad_choices.
Proof using. intros c. by apply client_ok_same. Qed.

(** The same for a client whose identity is known. *)
Definition keeps_at {A} (i : Identity.Identity) (m : SE (Client N) A) : Prop :=
  ∀ c, cl_identity c = i → client_ok c (m c).2.
Lemma keeps_at_keeps {A} (m : SE (Client N) A) : (∀ i, keeps_at i m) → keeps (@client_ok C N) m.
Proof using. intros H c. by apply (H (cl_identity c)). Qed.
Lemma keeps_keeps_at {A} i (m : SE (Client N) A) : keeps (@client_ok C N) m → keeps_at i m.
Proof using. intros H c _. apply H. Qed.
Lemma keeps_at_bind {A B} i (m : SE (Client N) A) (f : A → SE (Client N) B) :
  keeps_at i m → (∀ a c c', cl_identity c = i → m c = (Ok a, c') → keeps_at i (f a)) → keeps_at i (se_bind m f).
Proof using.
  intros Hm Hf c Hi. unfold se_bind. pose proof (Hm c Hi) as H. destruct (m c) as [[a|e] c'] eqn:E; [|done].
  etrans; [exact H|]. apply (Hf a c c' Hi E). rewrite <-Hi. exact (proj1 H).
Qed.
Lemma keeps_at_set_list i l t : list_ok i l → keeps_at i (se_modify (set_list (Some (l, t)))).
Proof using.
  intros Hl c <-. split_and!; [done|done|]. intros _ [H1 H2]. split; [|done]. cbn.
  by intros l' ts' [= <- _].
Qed.
End primitives.
#[export] Hint Resolve keeps_on_store keeps_on_net keeps_urandom keeps_now_ms keeps_pad_choices : keeps.
(** Setting a field the relation does not look at. *)
#[export] Hint Extern 1 (keeps client_ok (se_modify _)) => (apply keeps_modify; intros ?; by apply client_ok_same) : keeps.

Section client_ops.
Context {C : Crypto} {Zl : Zlib} {N : Type} {P : Pool N}.
Abbreviation ok := (keeps (@client_ok C N)).

Lemma get_state_ok k : ok (get_state_ k). Proof using. unfold get_state_. keeping. Qed.
Lemma set_state_ok k v : ok (set_state_ k v). Proof using. unfold set_state_. keeping. Qed.
Lemma save_prekeys_ok v : ok (save_prekeys_ v). Proof using. unfold save_prekeys_. keeping. Qed.
Lemma add_message_ok m : ok (add_message_ m). Proof using. unfold add_message_. keeping. Qed.
Lemma update_state_ok i v : ok (update_state_ i v). Proof using. unfold update_state_. keeping. Qed.
Lemma upsert_contact_ok k : ok (upsert_contact_ k). Proof using. unfold upsert_contact_. keeping. Qed.
Lemma save_state_ok k st : ok (save_state k st). Proof using. unfold save_state. keeping. Qed.
Lemma backend_for_ok r : ok (backend_for r). Proof using. unfold backend_for. keeping. Qed.
Lemma own_backend_ok : ok own_backend. Proof using. unfold own_backend. keeping. Qed.
Lemma new_id_ok : ok new_id. Proof using. unfold new_id. keeping. Qed.
Lemma fetch_own_device_list_ok : ok fetch_own_device_list.
Proof using. unfold fetch_own_device_list, own_backend. keeping. Qed.
Lemma find_session_ok sid : ok (find_session sid). Proof using. unfold find_session. keeping. Qed.
End client_ops.
#[export] Hint Resolve get_state_ok set_state_ok save_prekeys_ok add_message_ok update_state_ok upsert_contact_ok
  save_state_ok backend_for_ok own_backend_ok new_id_ok fetch_own_device_list_ok find_session_ok : keeps.

Section sync_ops.
Context {C : Crypto} {Zl : Zlib} {N : Type} {P : Pool N}.
Abbreviation ok := (keeps (@client_ok C N)).

(** What the account's relays give is checked before it is remembered. *)
Lemma fetched_list_ok c l c' : fetch_own_device_list c = (Ok (Some l), c') → list_ok (cl_identity c) l.
Proof using.
  unfold fetch_own_device_list. intros E. apply se_bind_Ok in E as (c0 & s0 & [= <- <-] & E).
  apply se_bind_Ok in E as (urls & s1 & _ & E). apply se_bind_Ok in E as ([payload|] & s2 & _ & E); [|done].
  apply se_bind_Ok in E as ([l'|] & s3 & E3 & E); [|done]. cbn in E.
  destruct (Devices.belongs_to l' _ _ _) eqn:Hb; [|done]. injection E as <- <-.
  unfold se_catch, se_bind, se_lift in E3. destruct (Devices.open_device_list _ _ _) as [l2|e] eqn:Eo; [|by destruct (isa _ e)].
  injection E3 as <- <-. split; [done|].
  unfold Devices.belongs_to in Hb. rewrite !andb_true_iff, !bool_decide_eq_true in Hb. destruct Hb as [[_ Hi] _].
  unfold Devices.open_device_list in Eo. apply res_bind_Ok in Eo as (pl & _ & Eo).
  assert (∃ j, Devices.from_json j = Ok l2) as [j Hj] by (unfold Devices.from_bytes in Eo; destruct pl; rinv Eo; eauto).
  destruct (Devices.from_json_authentic _ _ Hj) as (_ & _ & H). by rewrite Hi in H.
Qed.
Lemma own_device_list_ok age : ok (own_device_list age).
Proof using.
  apply keeps_at_keeps. intros i. unfold own_device_list.
  apply keeps_at_bind; [apply keeps_keeps_at; keeping|intros c0 c1 c2 _ _].
  apply keeps_at_bind; [apply keeps_keeps_at; keeping|intros [l|] c3 c4 _ _; [apply keeps_keeps_at; keeping|]].
  apply keeps_at_bind; [apply keeps_keeps_at; keeping|intros [l|] c c' Hi E; [|apply keeps_keeps_at; keeping]].
  apply fetched_list_ok in E. rewrite Hi in E.
  apply keeps_at_bind; [apply keeps_keeps_at; keeping|intros now c5 c6 _ _].
  apply keeps_at_bind; [by apply keeps_at_set_list|intros; apply keeps_keeps_at; keeping].
Qed.
Lemma ensure_device_keys_ok : ok ensure_device_keys. Proof using. unfold ensure_device_keys. keeping. Qed.
Lemma keys_from_json_signed j k : Devices.keys_from_json j = Ok k →
  Identity.verify (Devices.dk_isign k) (Devices.dk_signature k) (Devices.keys_signed_bytes k) = true.
Proof using. unfold Devices.keys_from_json. intros E. rinv E. subst. by apply negb_false_iff. Qed.
Lemma read_keys_signed c0 d c k c' : read_device_keys c0 d c = (Ok k, c') →
  Identity.verify (Devices.dk_isign k) (Devices.dk_signature k) (Devices.keys_signed_bytes k) = true.
Proof using.
  unfold read_device_keys. intros E. do 3 apply se_bind_Ok in E as (? & ? & _ & E). injection E as E _.
  unfold Devices.keys_from_bytes in E. apply res_bind_Ok in E as (j & _ & E). by eapply keys_from_json_signed.
Qed.
Lemma keep_device_keys_ok d now k :
  Identity.verify (Devices.dk_isign k) (Devices.dk_signature k) (Devices.keys_signed_bytes k) = true →
  ok (keep_device_keys d now k).
Proof using.
  intros Hv. unfold keep_device_keys. apply keeps_get_bind. intros c.
  destruct (String.eqb_spec (Devices.dk_device_id k) (Devices.device_id d)) as [Hid|]; cbn [negb]; [|reflexivity].
  destruct (Devices.keys_belong_to k (me c) (ed_pub c) (x_pub c)) eqn:Hb; cbn [negb]; [|reflexivity].
  split_and!; [done|done|]. intros _ [H1 H2]. split; [done|]. cbn. intros id k' ts Hk.
  destruct (decide (id = Devices.device_id d)) as [->|Hne].
  - rewrite lookup_insert_eq in Hk. injection Hk as <- <-. split_and!; [done|done|].
    unfold Devices.keys_belong_to in Hb. rewrite !andb_true_iff, !bool_decide_eq_true in Hb. destruct Hb as [[_ Hi] _].
    by rewrite Hi in Hv.
  - rewrite lookup_insert_ne in Hk by done. by eapply H2.
Qed.
Lemma fetch_device_keys_ok d : ok (fetch_device_keys d).
Proof using.
  apply keeps_at_keeps. intros i. unfold fetch_device_keys.
  apply keeps_at_bind; [apply keeps_keeps_at; keeping|intros c0 c1 c2 _ _].
  apply keeps_at_bind; [apply keeps_keeps_at; keeping|intros now c5 c6 _ _].
  destruct (match cl_siblings c0 !! Devices.device_id d with Some _ => _ | None => _ end); [apply keeps_keeps_at; keeping|].
  apply keeps_at_bind; [apply keeps_keeps_at; unfold read_device_keys; keeping|intros [k|] c c' _ E; apply keeps_keeps_at; [|keeping]].
  apply keep_device_keys_ok. unfold se_catch, se_bind at 1 in E.
  destruct (read_device_keys c0 d c) as [[k'|e] c9] eqn:Er; [|by destruct (isa_Exception e)].
  injection E as <- <-. by eapply read_keys_signed.
Qed.
Lemma sibling_devices_ok a b : ok (sibling_devices a b).
Proof using. unfold sibling_devices. pose proof own_device_list_ok. keeping. Qed.
Lemma locate_device_ok d : ok (locate_device d).
Proof using. unfold locate_device, device_by_id. pose proof sibling_devices_ok. keeping. Qed.
Lemma approvals_ok : ok approvals. Proof using. unfold approvals. keeping. Qed.
Lemma requests_ok : ok requests. Proof using. unfold requests. keeping. Qed.
Lemma incoming_ok : ok incoming. Proof using. unfold incoming. keeping. Qed.
Lemma new_transfer_id_ok : ok new_transfer_id. Proof using. unfold new_transfer_id. keeping. Qed.
Lemma mark_seen_ok t : ok (mark_seen t). Proof using. unfold mark_seen. keeping. Qed.
End sync_ops.
#[export] Hint Resolve own_device_list_ok ensure_device_keys_ok fetch_device_keys_ok sibling_devices_ok locate_device_ok
  approvals_ok requests_ok incoming_ok new_transfer_id_ok mark_seen_ok : keeps.

Section sync_ops2.
Context {C : Crypto} {Zl : Zlib} {N : Type} {P : Pool N}.
Abbreviation ok := (keeps (@client_ok C N)).
Lemma mark_approved_ok d t a b : ok (mark_approved d t a b). Proof using. unfold mark_approved, set_approvals. keeping. Qed.
Lemma revoke_approval_ok d : ok (revoke_approval d). Proof using. unfold revoke_approval, set_approvals. keeping. Qed.
Lemma incoming_request_ok d t a : ok (incoming_request d t a). Proof using. unfold incoming_request. keeping. Qed.
Lemma write_record_ok d k p t q e : ok (write_record d k p t q e). Proof using. unfold write_record. keeping. Qed.
Lemma write_each_ok ds w : (∀ d, ok (w d)) → ok (write_each ds w).
Proof using. intros Hw. induction ds as [|d ds IH]; cbn [write_each]; keeping. Qed.
Lemma mirror_targets_ok : ok mirror_targets. Proof using. unfold mirror_targets. keeping. Qed.
Lemma merge_contacts__ok items n : ok (merge_contacts_ items n). Proof using. unfold merge_contacts_. keeping. Qed.
Lemma merge_item__ok item k n : ok (merge_item_ item k n). Proof using. unfold merge_item_, draw_message. keeping. Qed.
Lemma transfer_index_ok : ok transfer_index. Proof using. unfold transfer_index. keeping. Qed.
Lemma set_incoming_ok d : ok (set_incoming d). Proof using. unfold set_incoming. keeping. Qed.
End sync_ops2.
#[export] Hint Resolve mark_approved_ok revoke_approval_ok incoming_request_ok write_record_ok mirror_targets_ok
  merge_contacts__ok merge_item__ok transfer_index_ok set_incoming_ok : keeps.

Section sync_ops3.
Context {C : Crypto} {Zl : Zlib} {N : Type} {P : Pool N}.
Abbreviation ok := (keeps (@client_ok C N)).
Lemma request_history_ok a b : ok (request_history a b).
Proof using. unfold request_history. keeping. apply write_each_ok. keeping. Qed.
Lemma send_items_ok d t i items ch : ok (send_items d t i items ch).
Proof using. revert i ch. induction items as [|it items IH]; intros i ch; cbn [send_items]; keeping. Qed.
Lemma send_history_ok d a b e t : ok (send_history d a b e t).
Proof using. unfold send_history, build_items. pose proof send_items_ok. keeping. Qed.
Lemma mirror_message_ok k m : ok (mirror_message k m).
Proof using. unfold mirror_message. keeping; apply write_each_ok; intros d'; unfold write_mirror; keeping. Qed.
Lemma mirror_state_ok k m v : ok (mirror_state k m v).
Proof using. unfold mirror_state. keeping; apply write_each_ok; intros d'; unfold write_mirror; keeping. Qed.
Lemma apply_item_ok d t p q : ok (apply_item d t p q).
Proof using. unfold apply_item, merge_one_item. keeping. Qed.
Lemma apply_mirror_ok i : ok (apply_mirror i).
Proof using. unfold apply_mirror, apply_state. keeping. Qed.
Lemma dispatch_ok d k h p : ok (dispatch d k h p).
Proof using.
  unfold dispatch, apply_offer, apply_complete. pose proof apply_item_ok. pose proof apply_mirror_ok. keeping.
Qed.
Lemma handle_record_ok blob : ok (handle_record blob).
Proof using. unfold handle_record, open_incoming. pose proof dispatch_ok. keeping. Qed.
Lemma pending_requests_ok : ok pending_requests. Proof using. unfold pending_requests. keeping. Qed.
Lemma approve_device_ok d a b : ok (approve_device d a b).
Proof using. unfold approve_device. pose proof send_history_ok. keeping. Qed.
Lemma deny_device_ok d : ok (deny_device d). Proof using. unfold deny_device. keeping. Qed.
Lemma publish_device_keys_ok : ok publish_device_keys.
Proof using. unfold publish_device_keys, device_keys_record. keeping. Qed.
Lemma iter_status_ok : ok iter_status.
Proof using.
  unfold iter_status, requested_from. keeping.
  match goal with |- ok (status_of ?a ?b ?c ?ds) => revert a b c; induction ds as [|x ds IH]; intros a b c; cbn [status_of] end; keeping.
Qed.
End sync_ops3.
#[export] Hint Resolve request_history_ok send_history_ok mirror_message_ok mirror_state_ok handle_record_ok
  pending_requests_ok approve_device_ok deny_device_ok publish_device_keys_ok iter_status_ok : keeps.

Section client_ops2.
Context {C : Crypto} {L : CryptoLaws C} {Zl : Zlib} {N : Type} {P : Pool N}.
Abbreviation ok := (keeps (@client_ok C N)).

Lemma keypair_ok : ok keypair. Proof using L. unfold keypair. keeping. Qed.
Lemma generate_opks_ok i n : ok (generate_opks i n).
Proof using L. revert i. induction n as [|n IH]; intros i; cbn [generate_opks]; pose proof keypair_ok; keeping. Qed.
Lemma generate_prekeys_ok n : ok (generate_prekeys n).
Proof using L. unfold generate_prekeys. pose proof keypair_ok. pose proof generate_opks_ok. keeping. Qed.
Lemma publish_bundle_ok p : ok (publish_bundle p). Proof using L. unfold publish_bundle. keeping. Qed.
Lemma make_card_ok : ok make_card. Proof using L. unfold make_card. keeping. Qed.
Lemma device_entry_ok : ok device_entry. Proof using L. unfold device_entry. keeping. Qed.
Lemma assign_device_id_ok : ok assign_device_id. Proof using L. unfold assign_device_id. keeping. Qed.
Lemma created_list_ok i ds now : length (Identity.ed_private i) = 32%nat → list_ok i (Devices.create i ds None now).
Proof using L.
  intros Hw. split.
  - unfold Devices.belongs_to. cbn. by rewrite String.eqb_refl, !bool_decide_true.
  - by apply Identity.verify_sign.
Qed.
Lemma set_created_ok i ds now t : keeps_at i (se_modify (set_list (N := N) (Some (Devices.create i ds None now, t)))).
Proof using L.
  intros c <-. split_and!; [done|done|]. intros [Hw _] [H1 H2]. split; [|done]. cbn.
  intros l' ts' [= <- _]. by apply created_list_ok.
Qed.
Lemma ensure_device_registered_ok : ok ensure_device_registered.
Proof using L.
  pose proof assign_device_id_ok. pose proof device_entry_ok. apply keeps_at_keeps. intros i. unfold ensure_device_registered.
  do 3 (apply keeps_at_bind; [apply keeps_keeps_at; keeping|intros ? x x' _ _; clear x x']).
  match goal with |- context [existsb ?f ?l] => destruct (existsb f l) end; [apply keeps_keeps_at; keeping|].
  apply keeps_at_bind; [apply keeps_keeps_at; keeping|intros c0 c c' Hi [= -> ->]]. rewrite Hi.
  do 4 (apply keeps_at_bind; [apply keeps_keeps_at; keeping|intros ? x x' _ _; clear x x']).
  apply keeps_at_bind; [apply set_created_ok|intros; apply keeps_keeps_at; keeping].
Qed.
Lemma register_existing_ok i : ok (register_existing i).
Proof using L. unfold register_existing. pose proof publish_bundle_ok. keeping. Qed.
Lemma provision_ok : ok provision.
Proof using L.
  unfold provision, load_account, create_account. pose proof register_existing_ok. pose proof generate_prekeys_ok.
  pose proof publish_bundle_ok. pose proof make_card_ok. pose proof ensure_device_registered_ok. keeping.
Qed.
Lemma ensure_provisioned_ok : ok ensure_provisioned.
Proof using L. unfold ensure_provisioned. pose proof provision_ok. keeping. Qed.
Lemma store_card_ok card n : ok (store_card card n). Proof using L. unfold store_card. keeping. Qed.
Lemma require_contact_ok k : ok (require_contact k). Proof using L. unfold require_contact. keeping. Qed.
Lemma fetch_peer_device_list_ok k : ok (fetch_peer_device_list k).
Proof using L. unfold fetch_peer_device_list. keeping. Qed.
Lemma start_session_ok k d : ok (start_session k d).
Proof using L. unfold start_session, fetch_device_bundle. keeping. Qed.
Lemma start_missing_ok k ds o : ok (start_missing k ds o).
Proof using L. revert o. induction ds as [|d ds IH]; intros o; cbn [start_missing]; pose proof start_session_ok; keeping. Qed.
Lemma ensure_outbound_sessions_ok k st : ok (ensure_outbound_sessions k st).
Proof using L.
  unfold ensure_outbound_sessions, peer_devices. pose proof fetch_peer_device_list_ok. pose proof start_missing_ok. keeping.
Qed.
End client_ops2.
#[export] Hint Resolve publish_bundle_ok make_card_ok device_entry_ok ensure_device_registered_ok register_existing_ok
  ensure_provisioned_ok store_card_ok require_contact_ok ensure_outbound_sessions_ok : keeps.

Section client_ops3.
Context {C : Crypto} {L : CryptoLaws C} {Zl : Zlib} {N : Type} {P : Pool N}.
Abbreviation ok := (keeps (@client_ok C N)).

Lemma send_envelope_ok d s e k : ok (send_envelope d s e k).
Proof using L. unfold send_envelope, dress_envelope, get_card. keeping. Qed.
Lemma fan_out_ok ds ss ef k : ok (fan_out ds ss ef k).
Proof using L. revert ss. induction ds as [|d ds IH]; intros ss; cbn [fan_out]; pose proof send_envelope_ok; keeping. Qed.
Lemma queue_all_ok k i l : ok (queue_all k i l).
Proof using L. induction l as [|[d b] l IH]; cbn [queue_all]; unfold queue_outbox; keeping. Qed.
Lemma mirror_sent_ok k i : ok (mirror_sent k i). Proof using L. unfold mirror_sent. keeping. Qed.
Lemma deliver_ok k i mid ty st ds ef b : ok (deliver k i mid ty st ds ef b).
Proof using L. unfold deliver. pose proof fan_out_ok. pose proof queue_all_ok. pose proof mirror_sent_ok. keeping. Qed.
Lemma send_text_ok k t : ok (send_text k t). Proof using L. unfold send_text. pose proof deliver_ok. keeping. Qed.
Lemma urandoms_ok k n : ok (urandoms k n). Proof using L. induction n as [|n IH]; cbn [urandoms]; keeping. Qed.
Lemma put_chunks_ok u c l : ok (put_chunks u c l). Proof using L. induction l as [|x l IH]; cbn [put_chunks]; keeping. Qed.
Lemma upload_for_ok ds a x y z b : ok (upload_for ds a x y z b).
Proof using L. revert b. induction ds as [|d ds IH]; intros b; cbn [upload_for]; pose proof put_chunks_ok; keeping. Qed.
Lemma keep_chunks_ok l : ok (keep_chunks l). Proof using L. induction l as [|[i x] l IH]; cbn [keep_chunks]; keeping. Qed.
Lemma send_file_ok k d n m x : ok (send_file k d n m x).
Proof using L.
  unfold send_file. pose proof urandoms_ok. pose proof upload_for_ok. pose proof keep_chunks_ok. pose proof deliver_ok. keeping.
Qed.
Lemma flush_entries_ok l : ok (flush_entries l).
Proof using L. induction l as [|e l IH]; cbn [flush_entries]; [keeping|]. unfold flush_entry. keeping. Qed.
Lemma send_receipt_ok k o x : ok (send_receipt k o x).
Proof using L. unfold send_receipt, deliver_receipt. pose proof fan_out_ok. keeping. Qed.
Lemma process_message_ok k t i b ts : ok (process_message k t i b ts).
Proof using L. unfold process_message. pose proof send_receipt_ok. keeping. Qed.
Lemma process_envelope_ok k e : ok (process_envelope k e).
Proof using L. unfold process_envelope, process_receipt. pose proof process_message_ok. keeping. Qed.
Lemma consume_opk_ok o : ok (consume_opk o). Proof using L. unfold consume_opk. keeping. Qed.
Lemma handle_blob_ok b : ok (handle_blob b).
Proof using L.
  unfold handle_blob, handle_known, handle_first, unseal_with, accept_envelope, finish_inbound, begin_inbound.
  pose proof process_envelope_ok. pose proof consume_opk_ok. keeping.
Qed.
Lemma handle_items_ok l m : ok (handle_items l m).
Proof using L.
  revert m. induction l as [|x l IH]; intros m; cbn [handle_items]; [keeping|]. unfold handle_item.
  pose proof handle_blob_ok. keeping.
Qed.
Lemma sync_ok w : ok (sync w). Proof using L. unfold sync. pose proof handle_items_ok. keeping. Qed.
Lemma mark_read_ok k m : ok (mark_read k m). Proof using L. unfold mark_read. pose proof send_receipt_ok. keeping. Qed.
Lemma fetch_chunks_ok i l : ok (fetch_chunks i l).
Proof using L. induction l as [|x l IH]; cbn [fetch_chunks]; [keeping|]. unfold fetch_chunk. keeping. Qed.
Lemma download_attachment_ok b : ok (download_attachment b).
Proof using L. unfold download_attachment. pose proof fetch_chunks_ok. keeping. Qed.
Lemma apply_relays_ok l : ok (apply_relays l). Proof using L. unfold apply_relays. keeping. Qed.
End client_ops3.

(** ** Every operation *)

(** What a user interface calls. *)
Inductive client_op :=
| Provision | ApplyRelays (relays : list string)
| AddContact (card : string) (nickname : json) | RemoveContact (id : string)
| SendText (contact_id text : string) | SendFile (contact_id : string) (data : bytes) (name mime caption : string)
| FlushOutbox | SyncNow (wait : Z) | MarkRead (contact_id message_id : string)
| RequestHistory (since : option Z) | HistoryRequests | ApproveHistory (device : string) (since : option Z)
| DenyHistory (device : string) | RevokeApproval (device : string) | SyncStatus | Download (body : json).

Section operations.
Context {C : Crypto} {L : CryptoLaws C} {Zl : Zlib} {N : Type} {P : Pool N}.

Definition after {A} (m : SE (Client N) A) (c : Client N) : Client N := (m c).2.
Definition client_step (op : client_op) : Client N → Client N :=
  match op with
  | Provision => after provision
  | ApplyRelays l => after (apply_relays l)
  | AddContact s n => after (add_contact s n)
  | RemoveContact k => after (remove_contact k)
  | SendText k t => after (send_text k t)
  | SendFile k d n m x => after (send_file k d n m x)
  | FlushOutbox => after flush_outbox
  | SyncNow w => after (sync w)
  | MarkRead k m => after (mark_read k m)
  | RequestHistory s => after (client_request_history s)
  | HistoryRequests => after history_requests
  | ApproveHistory d s => after (approve_history d s)
  | DenyHistory d => after (deny_history d)
  | RevokeApproval d => after (revoke_history_approval d)
  | SyncStatus => after sync_status
  | Download b => after (download_attachment b)
  end.

Lemma client_step_ok op c : client_ok c (client_step op c).
Proof using L.
  destruct op; cbn [client_step]; unfold after;
    first [ apply provision_ok | apply apply_relays_ok | apply send_text_ok | apply send_file_ok
          | apply sync_ok | apply mark_read_ok | apply download_attachment_ok | idtac ];
    revert c; match goal with |- ∀ c, client_ok c (?m c).2 => change (keeps client_ok m) end.
  - unfold add_contact. keeping.
  - unfold remove_contact. keeping.
  - unfold flush_outbox. pose proof flush_entries_ok. keeping.
  - unfold client_request_history, provisioned. keeping.
  - unfold history_requests, provisioned. keeping.
  - unfold approve_history, provisioned. keeping.
  - unfold deny_history, provisioned. keeping.
  - unfold revoke_history_approval, provisioned. keeping.
  - unfold sync_status, provisioned. keeping.
Qed.

Lemma client_steps_ok ops c : client_ok c (fold_left (λ c op, client_step op c) ops c).
Proof using L.
  revert c. induction ops as [|op ops IH]; intros c; [reflexivity|]. cbn [fold_left].
  etrans; [apply (client_step_ok op)|apply IH].
Qed.

(** C22: the client's invariant.  Whatever its user does and whatever its relays, peers
    and sibling devices answer, in any order and with any failures: the client keeps its
    identity; its store stays well formed, under the same key, with no cursor moved back; and
    the device list and device keys it remembers are records about its own account signed by
    its own key. *)
Theorem client_invariant (c : Client N) ops :
  wf_store (cl_store c) → Identity.wf_identity (cl_identity c) → caches_ok c →
  let c' := fold_left (λ c op, client_step op c) ops c in
  cl_identity c' = cl_identity c ∧ wf_store (cl_store c') ∧ forward (cl_store c) (cl_store c') ∧ caches_ok c'.
Proof using L.
  intros Hs Hi Hc c'. destruct (client_steps_ok ops c) as (H1 & [H2 H3] & H4). split_and!; auto.
Qed.
End operations.

(** ** A concrete client *)

Module Sample.
Import Toy.

(** One relay that keeps what it is given. *)
Record relay := { boxes : list (string * bytes); records : gmap string json; files : gmap string bytes }.
Definition empty_relay : relay := {| boxes := []; records := ∅; files := ∅ |}.
#[export] Instance relay_pool : Pool relay := {|
  pool_register _ _ := se_ret tt;
  pool_put _ c e := λ n, (Ok tt, {| boxes := boxes n ++ [(mailbox_id c, e)]; records := records n; files := files n |});
  pool_fetch _ c _ _ := λ n,
    (Ok (imap (λ i e, {| fm_relay := "r"; fm_seq := Z.of_nat i + 1; fm_blob := e |})
           (map snd (List.filter (λ p, String.eqb p.1 (mailbox_id c)) (boxes n)))), n);
  pool_ack _ _ _ := se_ret tt;
  pool_publish _ id b := λ n,
    match json_loads_bytes b with
    | Ok j => (Ok tt, {| boxes := boxes n; records := <[id := j]> (records n); files := files n |})
    | Err e => (Err e, n)
    end;
  pool_bundle _ id := λ n, (of_option (RelayNotFound 404) (records n !! id), n);
  pool_put_blob _ _ fresh chunk := λ n,
    (Ok (b64e fresh), {| boxes := boxes n; records := records n; files := <[b64e fresh := chunk]> (files n) |});
  pool_get_blob _ _ id := λ n, (of_option (RelayNotFound 404) (files n !! id), n)
|}.

Definition env (seed : Z) : Env :=
  {| tape i := byte_of (seed + Z.of_nat i); tpos := 0; clock i := 1700000000000 + Z.of_nat i; ticks := 0;
     pads i j := j; padded := 0 |}.
Definition owner (seed : Z) : Identity.Identity :=
  {| Identity.ed_private := repeat (byte_of seed) 32; Identity.x_private := repeat (byte_of (seed + 1)) 32;
     Identity.label := JNull |}.
Definition new_client (seed : Z) (s : LocalStore) (n : relay) : Client relay :=
  {| cl_identity := owner seed; cl_store := s; cl_relays := ["https://r"%string]; cl_name := "name"; cl_opk_count := 1;
     cl_inbox := None; cl_bundle := None; cl_card := None; cl_device := None; cl_siblings := ∅; cl_list := None;
     cl_index := None; cl_net := n; cl_env := env seed |}.
End Sample.
Import Toy Sample.

Lemma client_invariant_witness :
  let c := Sample.new_client 3 sample_store Sample.empty_relay in
  let c' := fold_left (λ c op, client_step op c) [Provision; SendText "peer" "hello"; SyncNow 0; RequestHistory None] c in
  cl_identity c' = cl_identity c ∧ wf_store (cl_store c') ∧ forward (cl_store c) (cl_store c') ∧ caches_ok c'.
Proof.
  apply (client_invariant (Sample.new_client 3 sample_store Sample.empty_relay));
    [apply sample_store_wf|split_and!; [done|done|by left]|]. split; [done|]. intros id k ts Hk. cbn in Hk. by rewrite lookup_empty in Hk.
Defined.
