(* ===== verification/NetRuns.v ===== *)
(** * What sending does to the network

    A client that sends reads bundles from its pool of relays and puts messages there, and
    does nothing else to the network. *)

From S2P Require Import Prelude Keeps PyStr Json Primitives Dict Encoding Sql Store Backend ClientState Sync Client.
From S2P Require Devices DeviceChannel Session.
From stdpp Require Import relations.

(** ** Calls of the pool, one after the other *)

Inductive net_step {N} {P : Pool N} : N → N → Prop :=
| step_put urls capability blob n : net_step n (pool_put urls capability blob n).2
| step_bundle urls id n : net_step n (pool_bundle urls id n).2.
Definition net_run {N} {P : Pool N} (c c' : Client N) : Prop := rtc net_step (cl_net c) (cl_net c').
#[export] Instance net_run_preorder {N} {P : Pool N} : PreOrder (@net_run N P).
Proof. split; [intros c; apply rtc_refl|]. intros c1 c2 c3. unfold net_run. by etrans. Qed.

(** What every call keeps, a run keeps. *)
Lemma net_run_ind {N} {P : Pool N} (J : N → Prop) c c' :
  (∀ n n', net_step n n' → J n → J n') → net_run c c' → J (cl_net c) → J (cl_net c').
Proof. intros HJ. unfold net_run. induction 1; eauto. Qed.

Section steps.
Context {N : Type} {P : Pool N}.
Abbreviation nr := (keeps (@net_run N P)).
Lemma run_on_store {A} (m : SE LocalStore A) : nr (on_store m).
Proof using. intros c. unfold on_store. destruct (m (cl_store c)). apply rtc_refl. Qed.
Lemma run_put urls capability blob : nr (on_net (pool_put urls capability blob)).
Proof using.
  intros c. pose proof (step_put urls capability blob (cl_net c)) as H. unfold on_net.
  destruct (pool_put _ _ _ _). by apply rtc_once.
Qed.
Lemma run_bundle urls id : nr (on_net (pool_bundle urls id)).
Proof using.
  intros c. pose proof (step_bundle urls id (cl_net c)) as H. unfold on_net.
  destruct (pool_bundle _ _ _). by apply rtc_once.
Qed.
Lemma run_urandom n : nr (urandom n). Proof using. intros c. apply rtc_refl. Qed.
Lemma run_now_ms : nr now_ms. Proof using. intros c. apply rtc_refl. Qed.
Lemma run_pads : nr pad_choices. Proof using. intros c. apply rtc_refl. Qed.
End steps.
#[export] Hint Resolve run_on_store run_put run_bundle run_urandom run_now_ms run_pads : keeps.
#[export] Hint Extern 1 (keeps net_run (se_modify _)) => (apply keeps_modify; intros; apply rtc_refl) : keeps.

Section runs.
Context {C : Crypto} {Zl : Zlib} {N : Type} {P : Pool N}.
Abbreviation nr := (keeps (@net_run N P)).
Lemma new_id_run : nr new_id. Proof using. unfold new_id. keeping. Qed.
Lemma start_session_net k d : nr (start_session k d).
Proof using. unfold start_session, fetch_device_bundle, backend_for. keeping. Qed.
Lemma start_missing_run k ds o : nr (start_missing k ds o).
Proof using. revert o. induction ds as [|d ds IH]; intros o; cbn [start_missing]; pose proof start_session_net; keeping. Qed.
Lemma ensure_outbound_run k s : nr (ensure_outbound_sessions k s).
Proof using.
  pose proof start_missing_run. unfold ensure_outbound_sessions, peer_devices, fetch_peer_device_list, backend_for. keeping.
Qed.

(** Mirrors. *)
Lemma fetch_own_list_run : nr fetch_own_device_list.
Proof using. unfold fetch_own_device_list, own_backend. keeping. Qed.
Lemma own_list_run age : nr (own_device_list age).
Proof using. pose proof fetch_own_list_run. unfold own_device_list. keeping. Qed.
Lemma fetch_keys_run d : nr (fetch_device_keys d).
Proof using. unfold fetch_device_keys, read_device_keys, keep_device_keys, backend_for. keeping. Qed.
Lemma ensure_keys_run : nr ensure_device_keys.
Proof using. unfold ensure_device_keys, get_state_, set_state_. keeping. Qed.
Lemma write_record_run d kind plaintext transfer seq extra : nr (write_record d kind plaintext transfer seq extra).
Proof using. pose proof fetch_keys_run. pose proof ensure_keys_run. unfold write_record, backend_for. keeping. Qed.
Lemma write_each_run ds w : (∀ d, nr (w d)) → nr (write_each ds w).
Proof using. intros Hw. induction ds as [|d ds IH]; cbn [write_each]; keeping. Qed.
Lemma write_mirrors_run raw ds : nr (write_each ds (write_mirror raw)).
Proof using.
  apply write_each_run. intros d. pose proof write_record_run. unfold write_mirror, new_transfer_id. keeping.
Qed.
Lemma mirror_message_run cid m : nr (mirror_message cid m).
Proof using.
  pose proof own_list_run. pose proof write_mirrors_run.
  unfold mirror_message, mirror_targets, sibling_devices, approvals, get_state_. keeping.
Qed.
Lemma queue_all_run k mid sent : nr (queue_all k mid sent).
Proof using. induction sent as [|[d b] sent IH]; cbn [queue_all]; unfold queue_outbox; keeping. Qed.
Lemma mirror_sent_run cid mid : nr (mirror_sent cid mid).
Proof using. pose proof mirror_message_run. unfold mirror_sent. keeping. Qed.
End runs.
#[export] Hint Resolve queue_all_run mirror_sent_run : keeps.
