(* ===== verification/ClientRuns.v ===== *)
(** * How the client's calls run

    The equations of the client's reads and writes of its state table, and the
    computations that leave that table alone: the lemmas the theorems about device
    sync, messages and accounts share. *)

From S2P Require Import Prelude PyStr Json JsonProps Primitives Dict Encoding Sql Store StoreProps Backend ClientState Sync ClientProps.
From S2P Require Devices History.

(** ** Running a step at a time *)

(** A run from its result. *)
Lemma run_pair {S A} (p : res A * S) a : p.1 = Ok a → p = (Ok a, p.2).
Proof. destruct p as [r s]. cbn. by intros ->. Qed.

Section runs.
Context {S : Type}.
Lemma se_bind_run {A B} (m : SE S A) (f : A → SE S B) s a s' : m s = (Ok a, s') → se_bind m f s = f a s'.
Proof. intros E. unfold se_bind. by rewrite E. Qed.
Lemma se_bind_err {A B} (m : SE S A) (f : A → SE S B) s e s' : m s = (Err e, s') → se_bind m f s = (Err e, s').
Proof. intros E. unfold se_bind. by rewrite E. Qed.
Lemma se_get_run {B} (f : S → SE S B) s : se_bind se_get f s = f s s.
Proof. done. Qed.
Lemma se_lift_run {A B} (a : A) (f : A → SE S B) s : se_bind (se_lift (Ok a)) f s = f a s.
Proof. done. Qed.
Lemma se_bind_assoc {A B D} (m : SE S A) (f : A → SE S B) (g : B → SE S D) s :
  se_bind (se_bind m f) g s = se_bind m (λ a, se_bind (f a) g) s.
Proof. unfold se_bind. by destruct (m s) as [[]]. Qed.
Lemma se_catch_inv {A} P (d : A) (m : SE S A) s a s' :
  se_catch P d m s = (Ok a, s') →
  m s = (Ok a, s') ∨ ∃ e, m s = (Err e, s') ∧ P e = true ∧ a = d.
Proof.
  unfold se_catch. destruct (m s) as [[b|e] s1]; [intros [= -> ->]; by left|]. destruct (P e) eqn:HP; [|done].
  intros [= <- <-]. right. by eexists.
Qed.
End runs.

(** ** Reads and writes of the state table *)

Section state_table.
Context {C : Crypto} {N : Type}.

Lemma set_store_id (c : Client N) : set_store (cl_store c) c = c.
Proof using. by destruct c. Qed.
(** A store call that does not change the store does not change the client. *)
Lemma on_store_read {A} (m : SE LocalStore A) (c : Client N) r :
  m (cl_store c) = (r, cl_store c) → on_store m c = (r, c).
Proof using. intros E. unfold on_store. by rewrite E, set_store_id. Qed.

Definition state_value (k : string) (c : Client N) : res json :=
  open (store_key (cl_store c)) (state (cl_store c) !! (me c, k)).
Lemma get_state_run k (c : Client N) : get_state_ k c = (state_value k c, c).
Proof using.
  unfold get_state_. rewrite se_get_run. by apply on_store_read.
Qed.

Lemma get_state_bind {B} k v (f : json → SE (Client N) B) c :
  state_value k c = Ok v → se_bind (get_state_ k) f c = f v c.
Proof using. intros E. apply se_bind_run. by rewrite get_state_run, E. Qed.

(** The identity, the store key and the state table stay. *)
Definition calm (c c' : Client N) : Prop :=
  cl_identity c' = cl_identity c ∧ store_key (cl_store c') = store_key (cl_store c) ∧
  state (cl_store c') = state (cl_store c).
#[export] Instance calm_preorder : PreOrder calm.
Proof using. split; [done|]. intros c1 c2 c3 (?&?&?) (?&?&?). split_and!; congruence. Qed.
Lemma calm_value c c' k : calm c c' → state_value k c' = state_value k c.
Proof using. intros (H1 & H2 & H3). unfold state_value, me. by rewrite H1, H2, H3. Qed.

Context {L : CryptoLaws C}.
Lemma state_written k v (c : Client N) :
  length (store_key (cl_store c)) = 32%nat → wf_json utf8_str v →
  ∃ c', set_state_ k v c = (Ok tt, c') ∧ state_value k c' = Ok v ∧
    cl_identity c' = cl_identity c ∧ store_key (cl_store c') = store_key (cl_store c) ∧
    ∀ k', k' ≠ k → state_value k' c' = state_value k' c.
Proof using L.
  intros Hk Hv. unfold set_state_. rewrite se_get_run.
  set (nonce := map (tape (cl_env c)) (seq (tpos (cl_env c)) 12)).
  assert (length nonce = 12%nat) as Hn by (unfold nonce; by rewrite length_map, length_seq).
  destruct (seal_open (store_key (cl_store c)) nonce v Hk Hn Hv) as (b & Eb & Ob).
  erewrite se_bind_run by reflexivity. unfold on_store. cbn [cl_store set_env].
  unfold set_state at 1. unfold se_bind at 1, se_get. fold nonce. unfold se_bind, se_lift, se_put. rewrite Eb.
  eexists. split; [reflexivity|]. unfold state_value, me. cbn [cl_identity cl_store set_store set_env store_key state set_state_table].
  split_and!; [by rewrite lookup_insert_eq|done|done|]. intros k' Hne. by rewrite lookup_insert_ne by congruence.
Qed.
End state_table.

(** ** Store calls that leave the state table alone *)

(** The store key and the state table stay. *)
Definition calm_store (s s' : LocalStore) : Prop := store_key s' = store_key s ∧ state s' = state s.
#[export] Instance calm_store_preorder : PreOrder calm_store.
Proof. split; [done|]. intros s1 s2 s3 [] []. split; congruence. Qed.

Section calm_ops.
Context {C : Crypto} {N : Type}.
Abbreviation cs := (keeps calm_store).

Lemma upsert_contact_calm nonce now id k : cs (upsert_contact nonce now id k).
Proof using. intros s. unfold upsert_contact. by se_steps. Qed.
Lemma add_message_calm n1 n2 m : cs (add_message n1 n2 m).
Proof using. intros s. unfold add_message. by se_steps. Qed.
Lemma update_message_calm n id fields : cs (update_message n id fields).
Proof using. intros s. unfold update_message. se_steps. destruct fields; by se_steps. Qed.
Lemma prune_calm cap : cs (prune_local_blobs cap).
Proof using. intros s. unfold prune_local_blobs, se_bind, se_get. by destruct (prune_loop _ _ _ _ _). Qed.
Lemma put_local_blob_calm now id data : cs (put_local_blob now id data).
Proof using.
  unfold put_local_blob. pose proof prune_calm. apply keeps_get_bind. intros s. revert s.
  intros s. unfold se_bind at 1. destruct (existsb _ _); cbn [se_ret se_put];
    match goal with |- calm_store _ (se_bind ?m ?f ?s').2 => assert (calm_store s s') as Hs by done end;
    (etrans; [exact Hs|]); apply keeps_bind; try apply _; auto with keeps typeclass_instances.
Qed.

(** Reads. *)
Lemma get_contact_calm id k : cs (get_contact id k).
Proof using. unfold get_contact. keeping. Qed.
Lemma list_contacts_calm id : cs (list_contacts id).
Proof using. unfold list_contacts. keeping. Qed.
Lemma get_message_calm id : cs (get_message id).
Proof using. unfold get_message, one_message. keeping. Qed.
Lemma find_by_remote_id_calm id r d : cs (find_by_remote_id id r d).
Proof using. unfold find_by_remote_id, one_message. keeping. Qed.
Lemma list_all_messages_calm id : cs (list_all_messages id).
Proof using. unfold list_all_messages. keeping. Qed.
Lemma get_state_calm id k : cs (get_state id k).
Proof using. unfold get_state. keeping. Qed.
Lemma has_local_blob_calm id : cs (has_local_blob id).
Proof using. unfold has_local_blob. keeping. Qed.
End calm_ops.
#[export] Hint Resolve upsert_contact_calm add_message_calm update_message_calm put_local_blob_calm get_contact_calm
  list_contacts_calm get_message_calm find_by_remote_id_calm list_all_messages_calm get_state_calm has_local_blob_calm : keeps.

(** History merges are sequences of such calls. *)
Section calm_merges.
Context {C : Crypto}.
Import History.
Abbreviation cs := (keeps calm_store).

Lemma message_index_calm id : cs (message_index id).
Proof using. unfold message_index. keeping. Qed.
Lemma merge_contacts_calm id now items n : cs (merge_contacts id now items n).
Proof using.
  revert n. induction items as [|item items IH]; intros n; cbn [merge_contacts]; [keeping|].
  apply keeps_bind; [apply _| |intros b; apply IH]. unfold merge_contact. keeping.
Qed.
Lemma merge_messages_calm id items known n : cs (merge_messages id items known n).
Proof using.
  revert known n. induction items as [|[d item] items IH]; intros known n; cbn [merge_messages]; [keeping|].
  apply keeps_bind; [apply _| |intros []; apply IH]. unfold merge_message. keeping.
Qed.
Lemma merge_chunks_calm now items n : cs (merge_chunks now items n).
Proof using.
  revert n. induction items as [|item items IH]; intros n; cbn [merge_chunks]; [keeping|].
  apply keeps_bind; [apply _| |intros b; apply IH]. unfold merge_chunk. keeping.
Qed.
End calm_merges.
#[export] Hint Resolve message_index_calm merge_contacts_calm merge_messages_calm merge_chunks_calm : keeps.

Section calm_client.
Context {C : Crypto} {N : Type}.
Abbreviation ck := (keeps (@calm N)).

Lemma calm_on_store {A} (m : SE LocalStore A) : keeps calm_store m → ck (on_store m).
Proof using. intros Hm c. unfold on_store. specialize (Hm (cl_store c)). by destruct (m (cl_store c)). Qed.
Lemma calm_on_net {A} (m : SE N A) : ck (on_net m).
Proof using. intros c. unfold on_net. by destruct (m (cl_net c)). Qed.
Lemma calm_urandom n : ck (urandom n).
Proof using. done. Qed.
Lemma calm_now_ms : ck now_ms.
Proof using. done. Qed.
End calm_client.
#[export] Hint Resolve calm_on_store calm_on_net calm_urandom calm_now_ms : keeps.
#[export] Hint Extern 1 (keeps calm (se_modify _)) => (apply keeps_modify; done) : keeps.

Section calm_sync.
Context {C : Crypto} {N : Type} {P : Pool N}.
Abbreviation ck := (keeps (@calm N)).

Lemma get_state__calm k : ck (get_state_ k).
Proof using. unfold get_state_. keeping. Qed.
Lemma merge_contacts__calm items n : ck (merge_contacts_ items n).
Proof using. unfold merge_contacts_. keeping. Qed.
Lemma merge_item__calm item k n : ck (merge_item_ item k n).
Proof using. unfold merge_item_, draw_message. keeping. Qed.
Lemma transfer_index_calm : ck transfer_index.
Proof using. unfold transfer_index. keeping. Qed.
End calm_sync.
#[export] Hint Resolve get_state__calm merge_contacts__calm merge_item__calm transfer_index_calm : keeps.

Section calm_items.
Context {C : Crypto} {N : Type} {P : Pool N}.
Lemma merge_one_item_calm item : keeps (@calm N) (merge_one_item item).
Proof using. unfold merge_one_item. keeping. Qed.
End calm_items.
#[export] Hint Resolve merge_one_item_calm : keeps.
