(* ===== verification/SyncProps.v ===== *)
(** * Device sync: theorems

    What the receiver of a history transfer reports, and where the records of a
    mirror go. *)

From S2P Require Import Prelude PyStr Json JsonProps Primitives Dict Encoding Sql Store StoreProps Backend ClientState Sync ClientProps ClientRuns.
From S2P Require Attachments Devices DeviceChannel History.
Import DeviceChannel.

(** ** The receiver of a transfer *)

Lemma own_dict_obj k v d : dget k d = Some v → own_dict (JObj d) = Ok d.
Proof. by destruct d. Qed.
Lemma int_or_int n : int_or 0 (JInt n) = Ok n.
Proof. unfold int_or. cbn. by destruct (Z.eqb_spec n 0) as [->|]. Qed.
Lemma str_or_str s : str_or (JStr s) = s.
Proof. unfold str_or. cbn. by destruct (String.eqb_spec s "") as [->|]. Qed.
Lemma hexdigest_inj {C : Crypto} a b : hexdigest a = hexdigest b → a = b.
Proof. intros H. pose proof (fromhex_hex a) as Ha. pose proof (fromhex_hex b) as Hb. unfold hexdigest in H. congruence. Qed.

Section transfer.
Context {C : Crypto} {N : Type} {P : Pool N}.
Context (dev transfer : string).

(** The digest so far, as the client keeps it: empty before the first item. *)
Definition chain_text (taken : list (bytes * Z)) (digest : bytes) : string :=
  match taken with [] => ""%string | _ => hexdigest digest end.
(** The client follows the transfer: it has taken these items, in this order. *)
Definition tracking (taken : list (bytes * Z)) (expected : Z) (c : Client N) : Prop :=
  ∃ st entry digest,
    length (store_key (cl_store c)) = 32%nat ∧
    state_value INCOMING_STATE c = Ok (JObj st) ∧ wf_dict st ∧ dget dev st = Some (JObj entry) ∧
    dget "received" entry = Some (JInt (Z.of_nat (length taken))) ∧ dget "expected" entry = Some (JInt expected) ∧
    chain_adds (sha256 (bs transfer)) taken = Ok digest ∧
    dget "chain" entry = Some (JStr (chain_text taken digest)).

(** What the client needs before a transfer: a readable record of its transfers. *)
Definition listening (c : Client N) : Prop :=
  ∃ v st, length (store_key (cl_store c)) = 32%nat ∧ state_value INCOMING_STATE c = Ok v ∧
    own_dict v = Ok st ∧ wf_dict st ∧ is_dict (jor (default JNull (dget dev st)) (JObj [])) = true.

Lemma tracking_calm taken e c c' : calm c c' → tracking taken e c → tracking taken e c'.
Proof using.
  intros H (st & entry & digest & Hk & Hst & Hrest). exists st, entry, digest.
  split_and!; [|by rewrite (calm_value _ _ _ H)|apply Hrest..]. by destruct H as (_ & -> & _).
Qed.
End transfer.

(** The records of a transfer's items as they arrive, each with its header; a record
    that fails is passed over, as [handle_item] does.  The items taken. *)
Fixpoint take_records {C : Crypto} {N : Type} {P : Pool N} (dev : string) (l : list (dict * (bytes * Z)))
    : SE (Client N) (list (bytes * Z)) :=
  match l with
  | [] => se_ret []
  | (header, (p, n)) :: rest =>
      do! ok := se_catch isa_Exception false (do! _ := dispatch dev ITEM header p in se_ret true) in
      do! taken := take_records dev rest in
      se_ret (if ok then (p, n) :: taken else taken)
  end.
Definition of_transfer (transfer : string) (h : dict) : Prop := dget "transfer" h = Some (JStr transfer).
(** The items as [send_items] numbers them. *)
Fixpoint numbered (i : Z) (items : list (string * json)) : list (bytes * Z) :=
  match items with [] => [] | it :: rest => (item_bytes it, i) :: numbered (i + 1) rest end.

Section transfer_props.
Context {C : Crypto} {L : CryptoLaws C} {N : Type} {P : Pool N}.
Context (dev transfer : string) (Hdev : utf8_str dev) (Htr : utf8_str transfer).

Lemma chain_resume taken digest :
  chain_adds (sha256 (bs transfer)) taken = Ok digest → chain_init transfer (chain_text taken digest) = Ok digest.
Proof using L.
  intros E. pose proof (chain_adds_length _ _ _ (sha256_length _) E) as Hl.
  unfold chain_init, chain_text. destruct taken as [|x taken]; [by injection E as <-|].
  unfold hexdigest. rewrite (proj2 (String.eqb_neq _ _)) by (apply hex_not_empty; by destruct digest).
  apply fromhex_hex.
Qed.

Lemma set_incoming_run d (c : Client N) :
  length (store_key (cl_store c)) = 32%nat → wf_dict d →
  ∃ c', set_incoming d c = (Ok tt, c') ∧ state_value INCOMING_STATE c' = Ok (JObj d) ∧
    length (store_key (cl_store c')) = 32%nat.
Proof using L.
  intros Hk Hd. destruct (state_written INCOMING_STATE (JObj d) c Hk Hd) as (c' & E & Hv & _ & Hk' & _).
  exists c'. split_and!; [done..|]. by rewrite Hk'.
Qed.
Lemma incoming_run st v (c : Client N) :
  state_value INCOMING_STATE c = Ok (JObj st) → dget dev st = Some v → incoming c = (Ok st, c).
Proof using.
  intros Hst Hd. unfold incoming. rewrite (get_state_bind _ _ _ _ Hst). unfold se_lift. by rewrite (own_dict_obj _ _ _ Hd).
Qed.

Lemma entry_run st entry k v :
  dget dev st = Some (JObj entry) → dget k entry = Some v → incoming_entry dev transfer st = Ok entry.
Proof using. intros E Hk. unfold incoming_entry. rewrite E. by destruct entry. Qed.

(** One item: taken, or refused without a trace. *)
Lemma apply_item_tracking taken e p n (c c' : Client N) r :
  tracking dev transfer taken e c → apply_item dev transfer p n c = (r, c') →
  (∃ o, r = Ok o ∧ tracking dev transfer (taken ++ [(p, n)]) e c') ∨
  (∃ err, r = Err err ∧ tracking dev transfer taken e c').
Proof using L Hdev Htr.
  intros Ht. pose proof Ht as (st & entry & digest & Hk & Hst & Hwf & Hent & Hrec & Hexp & Hch & Htext).
  unfold apply_item. destruct (loads p) as [item|err]; [rewrite se_lift_run|intros [= <- <-]; right; eauto].
  cbn [jget]. rewrite se_lift_run, (se_bind_run _ _ _ _ _ (incoming_run _ _ _ Hst Hent)).
  rewrite (entry_run _ _ _ _ Hent Hrec), se_lift_run.
  intros [(err & E & ->)|([] & c1 & E & H)]%se_bind_inv;
    pose proof (merge_one_item_calm item c) as Hc; rewrite E in Hc; cbn [snd] in Hc.
  { right. exists err. split; [done|]. by eapply tracking_calm. }
  apply (tracking_calm _ _ _ _ _ _ Hc) in Ht. destruct Hc as (_ & Hk1 & _). rewrite <-Hk1 in Hk.
  revert H. cbn [jget]. rewrite Htext, Hrec, Hexp. cbn [res_bind]. rewrite str_or_str, (chain_resume _ _ Hch), se_lift_run.
  destruct (chain_add digest p n) as [d|err] eqn:Ed; [rewrite se_lift_run|intros [= <- <-]; right; eauto].
  cbn [res_bind]. rewrite !int_or_int. rewrite !se_lift_run.
  set (entry' := update_entry _ _ _ _ _).
  assert (wf_dict entry') as Hwe.
  { apply wf_dupdate; [by apply (dget_wf dev (JObj entry) st)|].
    assert (utf8_str (hexdigest d)) by apply Attachments.hex_utf8. solve_wf. }
  destruct (set_incoming_run (dset dev (JObj entry') st) c1 Hk) as (c2 & Es & Hv & Hk2); [by apply wf_dset|].
  rewrite (se_bind_run _ _ _ _ _ Es). intros [= <- <-]. left. eexists. split; [reflexivity|].
  exists (dset dev (JObj entry') st), entry', d. split_and!; [done..|by apply wf_dset|apply dget_dset| | | |].
  - unfold entry', update_entry, dupdate. cbn [fold_left fst snd]. rewrite !dget_dset_ne, dget_dset by done.
    rewrite length_app. cbn [length]. do 2 f_equal. lia.
  - unfold entry', update_entry, dupdate. cbn [fold_left fst snd]. by rewrite !dget_dset_ne, dget_dset by done.
  - rewrite chain_adds_app, Hch. cbn [res_bind chain_adds]. by rewrite Ed.
  - unfold entry', update_entry, dupdate. cbn [fold_left fst snd]. rewrite !dget_dset_ne, dget_dset by done.
    unfold chain_text. by destruct taken.
Qed.

Lemma dispatch_item h p n (c : Client N) :
  of_transfer transfer h → dget "seq" h = Some (JInt n) → dispatch dev ITEM h p c = apply_item dev transfer p n c.
Proof using.
  intros Ht Hn. unfold dispatch. cbn [jget]. rewrite Ht, Hn. cbn [res_bind]. rewrite str_or_str, int_or_int.
  by rewrite !se_lift_run.
Qed.
Lemma take_records_tracking taken e l (c c' : Client N) more :
  Forall (λ r : dict * (bytes * Z), of_transfer transfer r.1 ∧ dget "seq" r.1 = Some (JInt r.2.2)) l →
  tracking dev transfer taken e c → take_records dev l c = (Ok more, c') →
  tracking dev transfer (taken ++ more) e c'.
Proof using L Hdev Htr.
  intros Hl. revert taken c more. induction Hl as [|[h [p n]] l [Hh Hn] _ IH]; intros taken c more Ht; cbn [take_records].
  { intros [= <- <-]. by rewrite app_nil_r. }
  intros (ok & c1 & E & H)%se_bind_Ok. apply se_bind_Ok in H as (more' & c2 & E2 & [= <- <-]).
  cbn [fst snd] in Hh, Hn.
  apply se_catch_inv in E as [E|(err & E & _ & ->)].
  - apply se_bind_Ok in E as (o & c3 & E & [= <- <-]). rewrite (dispatch_item _ _ _ _ Hh Hn) in E.
    apply (apply_item_tracking _ _ _ _ _ _ _ Ht) in E as [(o' & _ & Ht')|(err & E & _)]; [|done].
    specialize (IH _ _ _ Ht' E2). by rewrite <-app_assoc in IH.
  - apply se_bind_inv in E as [(err' & E & _)|(o & c3 & _ & [=])]. rewrite (dispatch_item _ _ _ _ Hh Hn) in E.
    apply (apply_item_tracking _ _ _ _ _ _ _ Ht) in E as [(o' & E & _)|(err2 & _ & Ht')]; [done|].
    by eapply IH.
Qed.

Lemma loads_canonical d : wf_dict d → loads (canonical_json (JObj d)) = Ok (canon_dict true d).
Proof using. intros Hd. unfold loads. by rewrite canonical_json_loads. Qed.

(** The offer starts the transfer, whatever the client followed before. *)
Lemma offer_tracking h count skipped since until budget (c : Client N) :
  listening dev c → of_transfer transfer h →
  ∃ c', dispatch dev OFFER h (offer_bytes count skipped since until budget) c = (Ok OOffered, c') ∧
    tracking dev transfer [] count c'.
Proof using L Hdev Htr.
  intros (v & st & Hk & Hv & Hown & Hwf & Hent) Ht. unfold dispatch. cbn [jget]. rewrite Ht. cbn [res_bind].
  rewrite str_or_str, se_lift_run. change (OFFER =? REQUEST) with false. change (OFFER =? APPROVAL) with false.
  change (OFFER =? OFFER) with true. cbv iota. unfold offer_bytes.
  rewrite loads_canonical by solve_wf. rewrite se_lift_run.
  unfold apply_offer, incoming. rewrite se_bind_assoc, (get_state_bind _ _ _ _ Hv), Hown, se_lift_run.
  destruct (jor _ _) as [| | | | |d]; try done. cbn [jget]. rewrite se_lift_run.
  set (m := if negb _ then _ else _).
  assert (∃ c1, m c = (Ok tt, c1) ∧ calm c c1) as (c1 & Em & (_ & Hk1 & _)).
  { unfold m. destruct (negb _); by eexists. }
  rewrite <-Hk1 in Hk. rewrite (se_bind_run _ _ _ _ _ Em). rewrite !dget_canon by solve_nodup.
  cbn [dget fst snd String.eqb Ascii.eqb Bool.eqb fmap option_fmap option_map canon res_bind].
  rewrite !int_or_int, !se_lift_run.
  set (entry := [_; _; _; _; _; _]). set (st' := dset dev (JObj entry) st).
  assert (wf_dict st') as Hst' by (apply wf_dset; [done| |done]; unfold entry; solve_wf).
  destruct (set_incoming_run st' c1 Hk Hst') as (c2 & Es & Hv2 & Hk2). rewrite (se_bind_run _ _ _ _ _ Es).
  eexists. split; [reflexivity|]. exists st', entry, (sha256 (bs transfer)). by split_and!; [..|apply dget_dset| | | |].
Qed.

(** The report compares what was taken with what the sender's digest stands for. *)
Lemma complete_report taken e h count digest (c : Client N) :
  tracking dev transfer taken e c → of_transfer transfer h →
  ∃ c' d, dispatch dev COMPLETE h (canonical_json (JObj (complete_dict count digest))) c
    = (Ok (OComplete ((count <=? Z.of_nat (length taken)) && String.eqb (chain_text taken d) (hexdigest digest))), c') ∧
    chain_adds (sha256 (bs transfer)) taken = Ok d.
Proof using L Hdev Htr.
  intros (st & entry & d & Hk & Hst & Hwf & Hent & Hrec & Hexp & Hch & Htext) Ht.
  unfold dispatch. cbn [jget]. rewrite Ht. cbn [res_bind]. rewrite str_or_str, se_lift_run.
  do 4 (match goal with |- context [COMPLETE =? ?k] => change (COMPLETE =? k) with false end; cbv iota).
  change (COMPLETE =? COMPLETE) with true. cbv iota.
  assert (wf_dict (complete_dict count digest)) as Hwc.
  { assert (utf8_str (hexdigest digest)) by apply Attachments.hex_utf8. unfold complete_dict. solve_wf. }
  rewrite loads_canonical, se_lift_run by done. unfold apply_complete.
  rewrite (se_bind_run _ _ _ _ _ (incoming_run _ _ _ Hst Hent)), Hent. cbn [default from_option id jget].
  replace (jor (JObj entry) (JObj [])) with (JObj entry) by (by destruct entry). cbn [items_json]. rewrite se_lift_run.
  rewrite !dget_canon by by apply wf_dict_nodup. unfold complete_dict at 1 2.
  cbn [dget fst snd String.eqb Ascii.eqb Bool.eqb fmap option_fmap option_map canon res_bind].
  rewrite Hrec, Htext. cbn [res_bind]. rewrite !int_or_int, !se_lift_run, !str_or_str.
  set (ok := _ && _). set (entry' := dupdate entry _).
  assert (wf_dict entry') as Hwe.
  { apply wf_dupdate; [by apply (dget_wf dev (JObj entry) st)|solve_wf]. }
  destruct (set_incoming_run (dset dev (JObj entry') st) c Hk) as (c2 & Es & _); [by apply wf_dset|].
  rewrite (se_bind_run _ _ _ _ _ Es). by exists c2, d.
Qed.

(** The sender's digest is the digest of the items it numbered. *)
Lemma send_items_digest device i items d s d' s' :
  send_items (N := N) device transfer i items d s = (Ok d', s') → chain_adds d (numbered i items) = Ok d'.
Proof using.
  revert i d s. induction items as [|it items IH]; intros i d s; cbn [send_items numbered chain_adds].
  { by intros [= <- <-]. }
  intros (b & s1 & _ & E)%se_bind_Ok. apply se_bind_Ok in E as (d1 & s2 & [= E1 <-] & E). rewrite E1. by eapply IH.
Qed.
End transfer_props.

Section transfer_theorem.
Context {C : Crypto} {L : CryptoLaws C} {N : Type} {P : Pool N}.

(** C10: a history transfer of at least one item is reported complete exactly when it is, and
    an empty one never.  The receiver, having taken an offer, takes the transfer's records as
    they arrive, in any order, with repetitions, losses and failures; when the sender's
    closing record comes it is always answered, and with the sender's digest over its numbered
    items, the answer is "complete" if there were items and those taken are those sent, each
    once and in order, and, unless SHA-256 collides on what was hashed, in no other case: so a
    transfer of no items, of which nothing is missing, is reported incomplete. *)
Theorem transfer_complete_exact dev transfer items digest skipped since until budget h0 h1 arrived taken
    (c c0 c1 : Client N) :
  utf8_str dev → utf8_str transfer → (length (bs transfer) < 36)%nat →
  listening dev c → of_transfer transfer h0 → of_transfer transfer h1 →
  Forall (λ r : dict * (bytes * Z), of_transfer transfer r.1 ∧ dget "seq" r.1 = Some (JInt r.2.2)) arrived →
  let count := Z.of_nat (length items) in
  let sent := numbered 1 items in
  (let? d := chain_init transfer "" in chain_adds d sent) = Ok digest →
  dispatch dev OFFER h0 (offer_bytes count skipped since until budget) c = (Ok OOffered, c0) →
  take_records dev arrived c0 = (Ok taken, c1) →
  (∀ device d (s s' : Client N), (do! d := se_lift (chain_init transfer "") in send_items device transfer 1 items d) s = (Ok d, s') → d = digest) ∧
  ∃ ok c2, dispatch dev COMPLETE h1 (canonical_json (JObj (complete_dict count digest))) c1 = (Ok (OComplete ok), c2) ∧
    (items ≠ [] → taken = sent → ok = true) ∧ (items = [] → taken = [] → ok = false) ∧
    ((∀ x y, x ∈ hashed transfer taken ++ hashed transfer sent → y ∈ hashed transfer taken ++ hashed transfer sent →
             sha256 x = sha256 y → x = y) → ok = true → taken = sent ∧ items ≠ []).
Proof using L.
  intros Hdev Htr Hlen Hc Hh0 Hh1 Har count sent Hd E0 E1. unfold chain_init in Hd. cbn [String.eqb res_bind] in Hd.
  destruct (offer_tracking dev transfer Hdev Htr h0 count skipped since until budget c Hc Hh0) as (c0' & E0' & Ht).
  rewrite E0 in E0'. injection E0' as <-. apply (take_records_tracking dev transfer Hdev Htr _ _ _ _ _ _ Har Ht) in E1.
  cbn [app] in E1. split.
  { intros device d s s' E. unfold chain_init in E. cbn [String.eqb] in E. rewrite se_lift_run in E.
    apply send_items_digest in E. fold sent in E. congruence. }
  destruct (complete_report dev transfer Hdev Htr _ _ _ count digest _ E1 Hh1) as (c2 & d & E2 & Ed).
  assert (length digest = 32%nat) as Hdig by (eapply chain_adds_length; [apply (sha256_length (bs transfer))|exact Hd]).
  assert (taken = [] → String.eqb (chain_text taken d) (hexdigest digest) = false) as Hempty.
  { intros ->. apply String.eqb_neq, not_eq_sym, hex_not_empty. by destruct digest. }
  eexists _, c2. split; [exact E2|]. split; [|split].
  - intros Hne ->. rewrite Ed in Hd. injection Hd as ->. apply andb_true_iff. split.
    + apply Z.leb_le. unfold count, sent. clear. enough (length (numbered 1 items) = length items) as -> by lia.
      generalize 1. induction items as [|it items IH]; intros i; [done|]. cbn. by rewrite IH.
    + apply String.eqb_eq. unfold chain_text. by destruct sent eqn:Es; [unfold sent in Es; destruct items|].
  - intros _ H0. rewrite (Hempty H0). apply andb_false_r.
  - intros Hinj [_ Hs]%andb_true_iff. destruct (decide (taken = [])) as [H0|H0]; [by rewrite (Hempty H0) in Hs|].
    apply String.eqb_eq in Hs. assert (d = digest) as ->.
    { unfold chain_text in Hs. destruct taken; [done|by apply hexdigest_inj]. }
    assert (taken = sent) as Hts by (by eapply chain_binds_digest). split; [done|]. intros ->. by rewrite Hts in H0.
Qed.

(** An empty transfer is never reported complete: the receiver's digest is still empty,
    the sender's is the digest of the transfer's name. *)
Lemma empty_transfer_incomplete dev transfer skipped since until budget h0 h1 (c c0 : Client N) :
  utf8_str dev → utf8_str transfer → listening dev c → of_transfer transfer h0 → of_transfer transfer h1 →
  dispatch dev OFFER h0 (offer_bytes 0 skipped since until budget) c = (Ok OOffered, c0) →
  ∃ c1, dispatch dev COMPLETE h1 (canonical_json (JObj (complete_dict 0 (sha256 (bs transfer))))) c0 = (Ok (OComplete false), c1).
Proof using L.
  intros Hdev Htr Hc Hh0 Hh1 E0.
  destruct (offer_tracking dev transfer Hdev Htr h0 0 skipped since until budget c Hc Hh0) as (c0' & E0' & Ht).
  rewrite E0 in E0'. injection E0' as <-.
  destruct (complete_report dev transfer Hdev Htr _ _ _ 0 (sha256 (bs transfer)) _ Ht Hh1) as (c2 & d & E2 & Ed).
  exists c2. rewrite E2. do 3 f_equal. apply andb_false_iff. right. cbn [chain_text]. apply String.eqb_neq.
  pose proof (sha256_length (bs transfer)). apply not_eq_sym, hex_not_empty. by destruct (sha256 _).
Qed.
End transfer_theorem.

(** ** Where mirrors go *)

(** A device of the account, named in a list the account signed, that has an entry in the table
    of approvals [a] and is not this one. *)
Definition approved_sibling {C : Crypto} {N} (c : Client N) (a : dict) (d : Devices.DeviceEntry) : Prop :=
  dhas (Devices.device_id d) a = true ∧ cl_device c ≠ Some (Devices.device_id d) ∧
  ∃ l, list_ok (cl_identity c) l ∧ d ∈ Devices.devices l.

(** The network keeps [Q]; the client stays the same device of the same account. *)
Definition net_keeps {N} (Q : N → Prop) (c c' : Client N) : Prop :=
  cl_identity c' = cl_identity c ∧ cl_device c' = cl_device c ∧ (Q (cl_net c) → Q (cl_net c')).
#[export] Instance net_keeps_preorder {N} (Q : N → Prop) : PreOrder (net_keeps Q).
Proof. split; [intros c; by split_and!|]. intros c1 c2 c3 (?&?&?) (?&?&?). split_and!; [congruence..|auto]. Qed.

Section net_ops.
Context {C : Crypto} {N : Type} {P : Pool N} (Q : N → Prop).
Abbreviation nk := (keeps (net_keeps Q)).

Lemma net_on_store {A} (m : SE LocalStore A) : nk (on_store m).
Proof using. intros c. unfold on_store. by destruct (m (cl_store c)). Qed.
Lemma net_urandom n : nk (urandom n).
Proof using. done. Qed.
Lemma net_now_ms : nk now_ms.
Proof using. done. Qed.
Lemma net_lift_bind {A B} (m : res A) (f : A → SE (Client N) B) :
  (∀ a, m = Ok a → nk (f a)) → nk (se_bind (se_lift m) f).
Proof using. intros Hf c. destruct m as [a|e]; [by apply Hf|done]. Qed.
Lemma net_call {A} (m : SE N A) : (∀ n, Q n → Q (m n).2) → nk (on_net m).
Proof using. intros Hm c. unfold on_net. specialize (Hm (cl_net c)). by destruct (m (cl_net c)). Qed.
End net_ops.
#[export] Hint Resolve net_on_store net_urandom net_now_ms : keeps.
#[export] Hint Extern 1 (keeps (net_keeps _) (se_modify _)) => (apply keeps_modify; done) : keeps.

Section net_reads.
Context {C : Crypto} {N : Type} {P : Pool N} (Q : N → Prop).
Abbreviation nk := (keeps (net_keeps Q)).
Context (Qread : ∀ urls id n, Q n → Q (pool_bundle urls id n).2).

Lemma net_bundle urls id : nk (on_net (pool_bundle urls id)).
Proof using Qread. apply net_call. auto. Qed.
#[local] Hint Resolve net_bundle : keeps.
Lemma net_get_state k : nk (get_state_ k). Proof using. unfold get_state_. keeping. Qed.
Lemma net_set_state k v : nk (set_state_ k v). Proof using. unfold set_state_. keeping. Qed.
Lemma net_backend r : nk (backend_for r). Proof using. unfold backend_for. keeping. Qed.
#[local] Hint Resolve net_get_state net_set_state net_backend : keeps.
Lemma net_own_list age : nk (own_device_list age).
Proof using Qread. unfold own_device_list, fetch_own_device_list, own_backend. keeping. Qed.
Lemma net_ensure_keys : nk ensure_device_keys.
Proof using. unfold ensure_device_keys. keeping. Qed.
Lemma net_fetch_keys d : nk (fetch_device_keys d).
Proof using Qread. unfold fetch_device_keys, read_device_keys, keep_device_keys. keeping. Qed.
Lemma net_siblings b f : nk (sibling_devices b f).
Proof using Qread. unfold sibling_devices. pose proof net_own_list. keeping. Qed.
Lemma net_targets : nk mirror_targets.
Proof using Qread. unfold mirror_targets, approvals. pose proof net_siblings. keeping. Qed.

(** A record is put in its device's mailbox and nowhere else. *)
Lemma net_write_record d k p t q e :
  (∀ cap urls blob n, device_capability d = Ok cap → Q n → Q (pool_put urls cap blob n).2) →
  nk (write_record d k p t q e).
Proof using Qread.
  intros Hput. unfold write_record. pose proof net_ensure_keys. pose proof net_fetch_keys.
  assert (∀ urls blob, nk (do! capability := se_lift (device_capability d) in
                           do! _ := on_net (pool_put urls capability blob) in se_ret blob)) as Hlast.
  { intros urls blob. apply net_lift_bind. intros cap Hcap. apply keeps_bind; [apply _|apply net_call|keeping]. eauto. }
  keeping.
Qed.
Lemma net_write_each ds w : (∀ d, d ∈ ds → nk (w d)) → nk (write_each ds w).
Proof using.
  induction ds as [|d ds IH]; intros Hw; cbn [write_each]; [keeping|].
  pose proof (Hw d ltac:(by left)). pose proof (IH (λ d Hd, Hw d (list_elem_of_further _ _ _ Hd))). keeping.
Qed.
Lemma net_write_mirror ds raw :
  (∀ d cap urls blob n, d ∈ ds → device_capability d = Ok cap → Q n → Q (pool_put urls cap blob n).2) →
  nk (write_each ds (write_mirror raw)).
Proof using Qread.
  intros Hput. apply net_write_each. intros d Hd. unfold write_mirror, new_transfer_id.
  assert (∀ k p t q e, nk (write_record d k p t q e)) by (intros; apply net_write_record; eauto). keeping.
Qed.
End net_reads.

Section calm_list.
Context {C : Crypto} {N : Type} {P : Pool N}.
Lemma own_list_calm age : keeps (@calm N) (own_device_list age).
Proof using. unfold own_device_list, fetch_own_device_list, own_backend. keeping. Qed.
End calm_list.

Section mirrors.
Context {C : Crypto} {L : CryptoLaws C} {N : Type} {P : Pool N}.

(** The list the client goes by is one its account signed. *)
Lemma own_list_result age (c c' : Client N) l :
  Identity.wf_identity (cl_identity c) → caches_ok c → own_device_list age c = (Ok (Some l), c') →
  list_ok (cl_identity c) l.
Proof using.
  intros Hw Hok. pose proof Hok as [Hl _]. unfold own_device_list. rewrite se_get_run.
  intros (fresh & c1 & E1 & E)%se_bind_Ok.
  assert (client_ok c c1 ∧ ∀ l, fresh = Some l → list_ok (cl_identity c) l) as [(Hi & _ & Hc1) Hf].
  { destruct (cl_list c) as [[l1 ts]|] eqn:El; [|by injection E1 as <- <-].
    apply se_bind_Ok in E1 as (now & c2 & [= <- <-] & [= <- <-]). split; [by apply client_ok_same|].
    intros l2 Hl2. destruct (_ <? age); [|done]. injection Hl2 as <-. by eapply Hl. }
  destruct fresh as [l1|]; [injection E as -> _; auto|].
  apply se_bind_Ok in E as (found & c2 & E2 & E). rewrite <-Hi.
  destruct found as [l1|].
  - apply se_bind_Ok in E as (now & c3 & _ & E). apply se_bind_Ok in E as ([] & c4 & _ & E).
    injection E as <- _. by apply fetched_list_ok in E2.
  - pose proof (fetch_own_device_list_ok c1) as H. rewrite E2 in H. destruct H as (Hi2 & _ & H2).
    rewrite se_get_run in E. injection E as E _. destruct (cl_list c2) as [[l2 ts]|] eqn:El; [|done].
    injection E as ->. rewrite <-Hi2. apply (H2 ltac:(by rewrite Hi) (Hc1 Hw Hok)) in El. done.
Qed.

Lemma targets_approved (c c' : Client N) a ds :
  Identity.wf_identity (cl_identity c) → caches_ok c → approvals c = (Ok a, c) → mirror_targets c = (Ok ds, c') →
  Forall (approved_sibling c a) ds.
Proof using.
  intros Hw Hok Ha. unfold mirror_targets. intros (sib & c1 & E1 & E)%se_bind_Ok.
  apply se_bind_Ok in E as (a' & c2 & Ea & [= <- _]).
  unfold sibling_devices in E1. apply se_bind_Ok in E1 as (listing & c3 & El & E1). rewrite se_get_run in E1.
  injection E1 as <- <-.
  assert (calm c c3) as Hcalm.
  { pose proof (own_list_calm 300000 c) as H. rewrite El in H. exact H. }
  assert (cl_device c3 = cl_device c) as Hdev.
  { pose proof (net_own_list (λ _, True) (λ _ _ _ _, I) 300000 c) as H. rewrite El in H. apply H. }
  assert (a' = a) as ->.
  { unfold approvals in Ea, Ha. unfold se_bind in Ea, Ha. rewrite get_state_run in Ea, Ha.
    rewrite (calm_value _ _ _ Hcalm) in Ea. destruct (state_value _ c); [|done].
    injection Ea as Ea _. injection Ha as Ha. congruence. }
  apply List.Forall_forall. intros d [[Hd Hn]%filter_In Happ]%filter_In. rewrite Hdev in Hn.
  destruct listing as [l|]; [|done]. split_and!; [done| |].
  - cbn in Hn. by apply negb_true_iff, bool_decide_eq_false in Hn.
  - exists l. split; [by eapply own_list_result|by apply list_elem_of_In].
Qed.

Lemma after_targets {B} Q (c : Client N) a (f : list Devices.DeviceEntry → SE (Client N) B) :
  Identity.wf_identity (cl_identity c) → caches_ok c → approvals c = (Ok a, c) →
  (∀ urls id n, Q n → Q (pool_bundle urls id n).2) →
  (∀ ds, Forall (approved_sibling c a) ds → keeps (net_keeps Q) (f ds)) →
  Q (cl_net c) → Q (cl_net (se_bind mirror_targets f c).2).
Proof using.
  intros Hw Hok Ha Hread Hf HQ. pose proof (net_targets Q Hread c) as Ht. unfold se_bind.
  destruct (mirror_targets c) as [[ds|e] c1] eqn:E; apply Ht in HQ; [|done].
  by apply (Hf ds (targets_approved _ _ _ _ Hw Hok Ha E)).
Qed.

(** C11: what is mirrored goes to devices in the table of approvals only.  Sending a copy of a
    message, or of a change of its state, to the other devices of the account reads from the
    relays and puts records in the mailboxes of devices that have an entry in the client's table
    of approvals, each named in a device list signed by the account's key and none this
    one, and in no other mailbox: whatever those two kinds of call cannot change on the network
    stays as it was, and so it does when one of them fails.  An entry of the table is not always
    a decision made on this device: [approve] writes one, and so does an approval record that
    another device of the account sends ([approval_approves_sender]), where section 10.5 of
    PROTOCOL.md asks for a human on this device. *)
Theorem mirror_only_approved (Q : N → Prop) (c : Client N) a contact_id m v :
  Identity.wf_identity (cl_identity c) → caches_ok c → approvals c = (Ok a, c) →
  (∀ urls id n, Q n → Q (pool_bundle urls id n).2) →
  (∀ d cap urls blob n, approved_sibling c a d → device_capability d = Ok cap → Q n → Q (pool_put urls cap blob n).2) →
  Q (cl_net c) →
  Q (cl_net (mirror_message contact_id m c).2) ∧ Q (cl_net (mirror_state contact_id m v c).2).
Proof using.
  intros Hw Hok Ha Hread Hput HQ.
  assert (∀ ds raw, Forall (approved_sibling c a) ds → keeps (net_keeps Q) (write_each ds (write_mirror raw))) as Hwrite.
  { intros ds raw Hds. rewrite List.Forall_forall in Hds. apply net_write_mirror; [done|].
    intros d cap urls blob n Hd%list_elem_of_In. eauto. }
  split; apply (after_targets Q c a); try done; intros ds Hds; pose proof (λ raw, Hwrite ds raw Hds); keeping.
Qed.
End mirrors.

(** ** A concrete transfer *)

Import Toy ClientProps.Sample.

Definition sample_receiver : Client relay := new_client 3 sample_store empty_relay.
Definition sample_items : list (string * json) :=
  [("chunk", JObj [("id", JStr "c1"); ("ct", JStr "YWJj")])]%string.
Definition sample_header (n : Z) : dict := [("transfer", JStr "t1"); ("seq", JInt n)]%string.
(** A damaged record, then the item. *)
Definition sample_arrived : list (dict * (bytes * Z)) :=
  [(sample_header 1, (bs "{", 1)); (sample_header 1, (item_bytes ("chunk", JObj [("id", JStr "c1"); ("ct", JStr "YWJj")])%string, 1))].

Lemma sample_listening : listening "phone" sample_receiver.
Proof. exists JNull, []. split_and!; [reflexivity|reflexivity|reflexivity|repeat constructor|reflexivity]. Qed.

Lemma transfer_complete_exact_witness :
  let digest := ok_or [] (chain_adds (sha256 (bs "t1")) (numbered 1 sample_items)) in
  let c0 := (dispatch "phone" OFFER (sample_header 0) (offer_bytes 1 0 0 9 9) sample_receiver).2 in
  let c1 := (take_records "phone" sample_arrived c0).2 in
  ∃ ok c2, dispatch "phone" COMPLETE (sample_header 0) (canonical_json (JObj (complete_dict 1 digest))) c1
    = (Ok (OComplete ok), c2) ∧ ok = true.
Proof.
  intros digest c0 c1.
  destruct (transfer_complete_exact "phone" "t1" sample_items digest 0 0 9 9 (sample_header 0) (sample_header 0)
    sample_arrived (numbered 1 sample_items) sample_receiver c0 c1) as (_ & ok & c2 & E & Hok & _).
  - reflexivity.
  - reflexivity.
  - apply Nat.ltb_lt. reflexivity.
  - apply sample_listening.
  - reflexivity.
  - reflexivity.
  - repeat constructor.
  - apply ok_or_eq. vm_compute. reflexivity.
  - unfold c0. rewrite (surjective_pairing (dispatch _ _ _ _ _)) at 1. apply (f_equal2 pair); [vm_compute; reflexivity|reflexivity].
  - unfold c1. rewrite (surjective_pairing (take_records _ _ _)) at 1. apply (f_equal2 pair); [vm_compute; reflexivity|reflexivity].
  - exists ok, c2. split; [exact E|]. apply Hok; [discriminate|reflexivity].
Defined.

(** ** A concrete mirror *)

(** An approval record makes its sender approved here, without anyone asking the user. *)
Lemma approval_approves_sender :
  (approvals sample_receiver).1 = Ok [] ∧
  let '(r, c) := dispatch "phone" APPROVAL (sample_header 0) [] sample_receiver in
  r = Ok OApproved ∧ (approved_devices c).1 = Ok ["phone"%string].
Proof. split; vm_compute; [reflexivity|]. split; reflexivity. Qed.

Definition sample_tablet : Devices.DeviceEntry :=
  {| Devices.device_id := "tablet"; Devices.inbox := [("id", JStr "tab"); ("w", JStr "tok")]%string;
     Devices.relays := []; Devices.bundle_id := "b"; Devices.name := "Tablet" |}.
Definition sample_approvals : dict := [("tablet", JObj [])]%string.
(** A client that knows of the tablet, approved. *)
Definition sample_sender : Client relay :=
  set_list (Some (Devices.create (owner 3) [sample_tablet] None 5, 1700000000000))
    (set_device (Some "phone"%string) (set_approvals sample_approvals sample_receiver).2).

Lemma sample_sender_caches : caches_ok sample_sender.
Proof.
  split.
  - intros l ts [= <- _]. apply created_list_ok. reflexivity.
  - intros id k ts H. exfalso. change (cl_siblings sample_sender) with (∅ : gmap string (Devices.DeviceKeys * Z)) in H.
    by rewrite lookup_empty in H.
Qed.
Lemma sample_sender_approvals : approvals sample_sender = (Ok sample_approvals, sample_sender).
Proof. unfold approvals. rewrite (get_state_bind _ (JObj sample_approvals)); [reflexivity|]. vm_compute. reflexivity. Qed.

Lemma mirror_only_approved_witness :
  let Q (n : relay) := Forall (λ p, ∃ d cap, approved_sibling sample_sender sample_approvals d ∧
                                   device_capability d = Ok cap ∧ p.1 = mailbox_id cap) (boxes n) in
  Q (cl_net (mirror_message "c" sample_message sample_sender).2) ∧
  Q (cl_net (mirror_state "c" sample_message (JStr "read") sample_sender).2).
Proof.
  intros Q. apply (mirror_only_approved Q sample_sender sample_approvals "c" sample_message (JStr "read")).
  - split_and!; [reflexivity|reflexivity|by left].
  - apply sample_sender_caches.
  - apply sample_sender_approvals.
  - intros urls id n Hn. exact Hn.
  - intros d cap urls blob n Hd Hcap Hn. apply Forall_app. split; [exact Hn|]. repeat constructor. by exists d, cap.
  - constructor.
Defined.
