(* ===== verification/QuietOps.v ===== *)
(** * What the client does without touching its messages

    Provisioning, sessions and receipts leave the identity, the store's key and the
    table of messages alone. *)

From S2P Require Import Prelude PyStr Json JsonProps Primitives Dict Encoding Sql Store StoreProps Backend ClientState Sync Client ClientProps ClientRuns.
From S2P Require Devices DeviceChannel History Session.

Definition quiet_store (s s' : LocalStore) : Prop := store_key s' = store_key s ∧ messages s' = messages s.
#[export] Instance quiet_store_preorder : PreOrder quiet_store.
Proof. split; [done|]. intros s1 s2 s3 [] []. split; congruence. Qed.
Definition quiet {N} (c c' : Client N) : Prop :=
  cl_identity c' = cl_identity c ∧ quiet_store (cl_store c) (cl_store c').
#[export] Instance quiet_preorder {N} : PreOrder (@quiet N).
Proof. split; [done|]. intros c1 c2 c3 [] []. split; [congruence|by etrans]. Qed.

Section quiet_store_ops.
Context {C : Crypto}.
Abbreviation qs := (keeps quiet_store).
Lemma upsert_contact_quiet nonce now id k : qs (upsert_contact nonce now id k).
Proof using. intros s. unfold upsert_contact. by se_steps. Qed.
Lemma set_contact_session_quiet nonce id k v : qs (set_contact_session nonce id k v).
Proof using. intros s. unfold set_contact_session. by se_steps. Qed.
Lemma save_prekeys_quiet n id v : qs (save_prekeys n id v).
Proof using. intros s. unfold save_prekeys. by se_steps. Qed.
Lemma set_state_quiet n id k v : qs (set_state n id k v).
Proof using. intros s. unfold set_state. by se_steps. Qed.
Lemma get_contact_quiet id k : qs (get_contact id k). Proof using. unfold get_contact. keeping. Qed.
Lemma list_contacts_quiet id : qs (list_contacts id). Proof using. unfold list_contacts. keeping. Qed.
Lemma get_message_quiet id : qs (get_message id). Proof using. unfold get_message, one_message. keeping. Qed.
Lemma load_prekeys_quiet id : qs (load_prekeys id). Proof using. unfold load_prekeys. keeping. Qed.
Lemma get_state_quiet id k : qs (get_state id k). Proof using. unfold get_state. keeping. Qed.
End quiet_store_ops.
#[export] Hint Resolve upsert_contact_quiet set_contact_session_quiet save_prekeys_quiet set_state_quiet get_contact_quiet
  list_contacts_quiet get_message_quiet load_prekeys_quiet get_state_quiet : keeps.

Section quiet_primitives.
Context {C : Crypto} {N : Type}.
Abbreviation q := (keeps (@quiet N)).
Lemma quiet_on_store {A} (m : SE LocalStore A) : keeps quiet_store m → q (on_store m).
Proof using. intros Hm c. unfold on_store. specialize (Hm (cl_store c)). by destruct (m (cl_store c)). Qed.
Lemma quiet_on_net {A} (m : SE N A) : q (on_net m).
Proof using. intros c. unfold on_net. by destruct (m (cl_net c)). Qed.
Lemma quiet_urandom n : q (urandom n). Proof using. done. Qed.
Lemma quiet_now_ms : q now_ms. Proof using. done. Qed.
Lemma quiet_pads : q pad_choices. Proof using. done. Qed.
End quiet_primitives.
#[export] Hint Resolve quiet_on_store quiet_on_net quiet_urandom quiet_now_ms quiet_pads : keeps.
#[export] Hint Extern 1 (keeps quiet (se_modify _)) => (apply keeps_modify; done) : keeps.

Section quiet_ops.
Context {C : Crypto} {Zl : Zlib} {N : Type} {P : Pool N}.
Abbreviation q := (keeps (@quiet N)).
Lemma get_state_q k : q (get_state_ k). Proof using. unfold get_state_. keeping. Qed.
Lemma set_state_q k v : q (set_state_ k v). Proof using. unfold set_state_. keeping. Qed.
Lemma save_prekeys_q v : q (save_prekeys_ v). Proof using. unfold save_prekeys_. keeping. Qed.
Lemma save_state_q k st : q (save_state k st). Proof using. unfold save_state. keeping. Qed.
Lemma upsert_contact_q k : q (upsert_contact_ k). Proof using. unfold upsert_contact_. keeping. Qed.
Lemma backend_for_q r : q (backend_for r). Proof using. unfold backend_for. keeping. Qed.
Lemma own_backend_q : q own_backend. Proof using. unfold own_backend. keeping. Qed.
Lemma new_id_q : q new_id. Proof using. unfold new_id. keeping. Qed.
Lemma find_session_q sid : q (find_session sid). Proof using. unfold find_session. keeping. Qed.
Lemma fetch_own_list_q : q fetch_own_device_list. Proof using. unfold fetch_own_device_list, own_backend. keeping. Qed.
Lemma ensure_device_keys_q : q ensure_device_keys.
Proof using. pose proof get_state_q. pose proof set_state_q. unfold ensure_device_keys. keeping. Qed.
Lemma keypair_q : q keypair. Proof using. unfold keypair. keeping. Qed.
Lemma generate_opks_q i n : q (generate_opks i n).
Proof using. revert i. induction n as [|n IH]; intros i; cbn [generate_opks]; pose proof keypair_q; keeping. Qed.
End quiet_ops.
#[export] Hint Resolve get_state_q set_state_q save_prekeys_q save_state_q upsert_contact_q backend_for_q own_backend_q new_id_q
  find_session_q fetch_own_list_q ensure_device_keys_q keypair_q generate_opks_q : keeps.

Section quiet_ops2.
Context {C : Crypto} {Zl : Zlib} {N : Type} {P : Pool N}.
Abbreviation q := (keeps (@quiet N)).
Lemma publish_bundle_q p : q (publish_bundle p). Proof using. unfold publish_bundle. keeping. Qed.
Lemma make_card_q : q make_card. Proof using. unfold make_card. keeping. Qed.
Lemma register_existing_q i : q (register_existing i).
Proof using. pose proof publish_bundle_q. unfold register_existing. keeping. Qed.
Lemma assign_device_id_q : q assign_device_id. Proof using. unfold assign_device_id. keeping. Qed.
Lemma publish_device_keys_q : q publish_device_keys. Proof using. unfold publish_device_keys, device_keys_record. keeping. Qed.
Lemma ensure_device_registered_q : q ensure_device_registered.
Proof using.
  pose proof assign_device_id_q. pose proof publish_device_keys_q. unfold ensure_device_registered, device_entry. keeping.
Qed.
Lemma provision_q : q provision.
Proof using.
  pose proof publish_bundle_q. pose proof make_card_q. pose proof register_existing_q. pose proof ensure_device_registered_q.
  unfold provision, load_account, create_account, generate_prekeys. keeping.
Qed.
Lemma get_card_q : q get_card.
Proof using. pose proof provision_q. unfold get_card, ensure_provisioned. keeping. Qed.
Lemma fetch_peer_list_q k : q (fetch_peer_device_list k). Proof using. unfold fetch_peer_device_list. keeping. Qed.
Lemma start_session_q k d : q (start_session k d). Proof using. unfold start_session, fetch_device_bundle. keeping. Qed.
Lemma start_missing_q k ds o : q (start_missing k ds o).
Proof using. revert o. induction ds as [|d ds IH]; intros o; cbn [start_missing]; pose proof start_session_q; keeping. Qed.
Lemma ensure_outbound_q k st : q (ensure_outbound_sessions k st).
Proof using. pose proof fetch_peer_list_q. pose proof start_missing_q. unfold ensure_outbound_sessions, peer_devices. keeping. Qed.
Lemma send_envelope_q d s e k : q (send_envelope d s e k).
Proof using. pose proof get_card_q. unfold send_envelope, dress_envelope. keeping. Qed.
Lemma fan_out_q ds ss ef k : q (fan_out ds ss ef k).
Proof using. revert ss. induction ds as [|d ds IH]; intros ss; cbn [fan_out]; pose proof send_envelope_q; keeping. Qed.
Lemma send_receipt_q k o x : q (send_receipt k o x).
Proof using. pose proof ensure_outbound_q. pose proof fan_out_q. unfold send_receipt, deliver_receipt. keeping. Qed.
End quiet_ops2.
