(* ===== verification/Receiving.v ===== *)
(** * Receiving: theorems

    What becomes of a fetched blob: stored once, authenticated first, and acknowledged
    whatever happens. *)

From S2P Require Import Prelude PyStr Json JsonProps Primitives Dict Encoding Sql Store StoreProps Backend ClientState Sync Client ClientProps ClientRuns QuietOps.
From S2P Require Identity Kdf Card Devices DeviceChannel History Session Protocol X3dh.

(** ** A message is stored once *)

(** A row that already holds the message with this envelope id. *)
Definition holds_envelope (id eid : string) (r : message_row) : bool :=
  String.eqb (mr_identity r) id && sql_eq (mr_remote r) (Some eid) && (String.eqb "received" "" || String.eqb (mr_direction r) "received").

Section messages.
Context {C : Crypto} {L : CryptoLaws C} {Zl : Zlib} {N : Type} {P : Pool N}.

Lemma find_by_remote_run id eid s :
  find_by_remote_id id (JStr eid) "received" s
  = (match List.find (holds_envelope id eid) (messages s) with
     | None => Ok None
     | Some r => let? m := message_from_row (store_key s) r in Ok (Some m)
     end, s).
Proof using.
  unfold find_by_remote_id. cbn [sql_text]. rewrite se_lift_run. unfold one_message. rewrite se_get_run.
  unfold holds_envelope. destruct (List.find _ _); [|done].
  unfold se_bind, se_lift. by destruct (message_from_row _ _).
Qed.
Lemma find_none {A} (f : A → bool) l : existsb f l = false → List.find f l = None.
Proof using. induction l as [|x l IH]; [done|]. cbn. destruct (f x); [done|]. cbn. auto. Qed.
Lemma find_snoc {A} (f : A → bool) l x : existsb f l = false → f x = true → List.find f (l ++ [x]) = Some x.
Proof using. induction l as [|y l IH]; cbn; [by intros _ ->|]. destruct (f y); [done|]. cbn. auto. Qed.
Lemma find_some {A} (f : A → bool) l : existsb f l = true → ∃ x, List.find f l = Some x.
Proof using. induction l as [|y l IH]; [done|]. cbn. destruct (f y); [eauto|]. cbn. auto. Qed.

Lemma send_receipt_result k of_id kind (c : Client N) r c' :
  send_receipt k of_id kind c = (r, c') → r = Ok tt ∨ ∃ e, r = Err e ∧ isa_Exception e = false.
Proof using.
  unfold send_receipt. intros [(e & E & _)|(id & c1 & _ & E)]%se_bind_inv.
  { unfold new_id in E. by apply se_bind_inv in E as [(e' & E & _)|(? & ? & _ & E)]. }
  apply se_bind_inv in E as [(e & E & _)|(now & c2 & _ & E)]; [done|]. unfold se_try in E.
  destruct (deliver_receipt _ _ _) as [[u|e] c3]; [injection E as <- _; by left|].
  destruct (isa_Exception e) eqn:He; injection E as <- _; eauto.
Qed.

(** The row a received message becomes. *)
Lemma received_row key n1 n2 id mid contact_id kind body eid ts :
  length key = 32%nat → length n1 = 12%nat → length n2 = 12%nat → wf_json utf8_str body → int64 ts = true →
  let m := received_message id mid contact_id (JStr kind) body (JStr eid) ts in
  ∃ row, message_to_row key n1 n2 m = Ok row ∧ message_from_row key row = Ok m ∧ is_message mid row = true ∧
    holds_envelope id eid row = true.
Proof using L.
  intros Hk Hn1 Hn2 Hb Hts m.
  assert (storable_message m) as Hm.
  { split_and!; [by eexists..|by exists (Some eid)|by exists (Some "received"%string)|done|done|done]. }
  destruct (message_row_reads key n1 n2 m Hk Hn1 Hn2 Hm) as (row & E & Hid & R & _). exists row. split_and!; [done..|].
  unfold message_from_row in R. apply res_bind_Ok in R as (b1 & _ & R). apply res_bind_Ok in R as (b2 & _ & R).
  injection R as _ Hi _ Hd _ _ Hr _ _ _. unfold holds_envelope. rewrite Hi, Hd, String.eqb_refl.
  destruct (mr_remote row) as [t|]; cbn in Hr; [injection Hr as ->|done]. cbn. by rewrite String.eqb_refl.
Qed.

(** Reading by envelope id: the client does not change. *)
Lemma known_run eid (c : Client N) :
  on_store (find_by_remote_id (me c) (JStr eid) "received") c
  = (match List.find (holds_envelope (me c) eid) (messages (cl_store c)) with
     | None => Ok None
     | Some r => let? m := message_from_row (store_key (cl_store c)) r in Ok (Some m)
     end, c).
Proof using. apply on_store_read, find_by_remote_run. Qed.
Lemma process_known k kind eid body ts (c : Client N) r :
  eid ≠ ""%string → List.find (holds_envelope (me c) eid) (messages (cl_store c)) = Some r →
  process_message k kind (JStr eid) body ts c
  = (match message_from_row (store_key (cl_store c)) r with Ok _ => Ok None | Err e => Err e end, c).
Proof using.
  intros He Hr. unfold process_message. cbn [truthy]. rewrite (proj2 (String.eqb_neq _ _) He). cbn [negb].
  rewrite se_get_run. unfold se_bind. rewrite known_run, Hr. by destruct (message_from_row _ _).
Qed.
(** [add_message_] of a new received message appends its row. *)
Lemma add_received_run mid k kind body eid ts (c : Client N) :
  wf_store (cl_store c) → existsb (is_message mid) (messages (cl_store c)) = false →
  wf_json utf8_str body → int64 ts = true →
  let m := received_message (me c) mid (c_id k) (JStr kind) body (JStr eid) ts in
  ∃ row c', add_message_ m c = (Ok tt, c') ∧ cl_identity c' = cl_identity c ∧
    store_key (cl_store c') = store_key (cl_store c) ∧ messages (cl_store c') = messages (cl_store c) ++ [row] ∧
    message_from_row (store_key (cl_store c)) row = Ok m ∧ is_message mid row = true ∧
    holds_envelope (me c) eid row = true.
Proof using L.
  intros Hwf Hnew Hb Hts m. unfold add_message_. erewrite se_bind_run by reflexivity. erewrite se_bind_run by reflexivity.
  match goal with |- context [add_message ?a ?b m] => set (n1 := a); set (n2 := b) end.
  assert (length n1 = 12%nat ∧ length n2 = 12%nat) as [Hn1 Hn2] by (unfold n1, n2; by rewrite !length_map, !length_seq).
  destruct (received_row (store_key (cl_store c)) n1 n2 (me c) mid (c_id k) kind body eid ts (ws_key _ Hwf) Hn1 Hn2 Hb Hts)
    as (row & E & R & Hid & Henv).
  exists row. unfold m, on_store. cbn [cl_store set_env]. rewrite (add_message_run _ _ _ _ _ E). cbn [m_id received_message].
  rewrite (upsert_new _ _ _ _ Hnew). eexists. split; [reflexivity|]. by split_and!.
Qed.

(** A message envelope whose id is not known yet. *)
Lemma process_new k kind eid body ts (c : Client N) mid c1 r c' :
  wf_store (cl_store c) → eid ≠ ""%string → wf_json utf8_str body → int64 ts = true → ts ≠ 0 →
  new_id c = (Ok mid, c1) → existsb (is_message mid) (messages (cl_store c)) = false →
  existsb (holds_envelope (me c) eid) (messages (cl_store c)) = false →
  process_message k (JStr kind) (JStr eid) body (JInt ts) c = (r, c') →
  let m := received_message (me c) mid (c_id k) (JStr kind) body (JStr eid) ts in
  ∃ row, messages (cl_store c') = messages (cl_store c) ++ [row] ∧
    message_from_row (store_key (cl_store c')) row = Ok m ∧ holds_envelope (me c') eid row = true ∧
    (r = Ok (Some m) ∨ ∃ e, r = Err e ∧ isa_Exception e = false).
Proof using L.
  intros Hwf He Hb Hi Hts Hid Hnew Hex E m. revert E. unfold process_message. cbn [truthy].
  rewrite (proj2 (String.eqb_neq _ _) He). cbn [negb].
  rewrite se_get_run. erewrite se_bind_run by (rewrite known_run, (find_none _ _ Hex); reflexivity). cbv beta iota.
  pose proof (new_id_q c) as Hq. rewrite Hid in Hq. destruct Hq as (Hi1 & Hk1 & Hm1). cbn [snd] in *.
  rewrite (se_bind_run _ _ _ _ _ Hid). rewrite (proj2 (Z.eqb_neq _ 0) Hts). cbn [negb to_int]. rewrite se_lift_run.
  assert (wf_store (cl_store c1)) as Hwf1.
  { pose proof (new_id_ok c) as H. rewrite Hid in H. destruct H as (_ & [H _] & _). auto. }
  assert (me c1 = me c) as Hme by (unfold me; by rewrite Hi1).
  destruct (add_received_run mid k kind body eid ts c1) as (row & c2 & E2 & Hi2 & Hk2 & Hm2 & R & Hrid & Henv);
    [done|by rewrite Hm1|done|done|].
  rewrite Hme in E2, R, Henv. fold m in E2, R. rewrite (se_bind_run _ _ _ _ _ E2). rewrite Hm1 in Hm2.
  assert (∀ c3, quiet c2 c3 → messages (cl_store c3) = messages (cl_store c) ++ [row] ∧
            message_from_row (store_key (cl_store c3)) row = Ok m ∧ holds_envelope (me c3) eid row = true) as Hdone.
  { intros c3 (Hi3 & Hk3 & Hm3). split_and!; [by rewrite Hm3|by rewrite Hk3, Hk2|].
    unfold me. by rewrite Hi3, Hi2, Hi1. }
  intros [(e & E & ->)|([] & c3 & E & E')]%se_bind_inv; pose proof (send_receipt_q k (JStr eid) "delivered" c2) as Hq;
    rewrite E in Hq; cbn [snd] in Hq; destruct (Hdone _ Hq) as (H1 & H2 & H3).
  - exists row. split_and!; [done..|]. right. exists e. split; [done|].
    by apply send_receipt_result in E as [E|(e' & [= ->] & ?)].
  - erewrite on_store_read in E'; [injection E' as <- <-|apply get_message_run].
    exists row. split_and!; [done..|]. left. rewrite H1, (find_snoc (is_message mid)) by done. by rewrite H2.
Qed.

Lemma row_message_id key row m : message_from_row key row = Ok m → is_message (m_id m) row = true.
Proof using. unfold message_from_row. intros E. rinv E. subst. apply String.eqb_refl. Qed.
(** Operations of the store that leave the row [mid] what it is: none adds another message with
    that local id, none rewrites a remote id. *)
Definition spares (mid : string) (op : store_op) : Prop :=
  match op with
  | AddMessage _ _ m => m_id m ≠ mid
  | UpdateMessage _ _ fields => Forall (λ f, f.1 ≠ "remote_id"%string) fields
  | _ => True
  end.
Definition kept_row (mid id eid : string) (r : message_row) : bool := is_message mid r && holds_envelope id eid r.
Lemma fields_keep_row key (nonce : nat → bytes) l fs mid id eid r :
  Forall (λ p : nat * (string * json), p.2.1 ≠ "remote_id"%string) l →
  mapM (λ p : nat * (string * json), set_field key (nonce p.1) p.2.1 p.2.2) l = Ok fs →
  kept_row mid id eid (fold_left (λ r f, f r) fs r) = kept_row mid id eid r.
Proof using.
  intros Hl. revert fs r. induction Hl as [|p l Hp _ IH]; intros fs r E; cbn [mapM] in E; [by injection E as <-|].
  apply res_bind_Ok in E as (f & Ef & E). apply res_bind_Ok in E as (fs' & Efs & E). injection E as <-.
  cbn [fold_left]. rewrite (IH _ _ Efs). unfold set_field in Ef. repeat case_match; try done; rinv Ef; try (by subst).
  by apply String.eqb_eq in H2.
Qed.
Lemma existsb_map_keep {A} (f : A → bool) (g : A → A) l :
  (∀ x, f (g x) = f x) → existsb f (map g l) = existsb f l.
Proof using. intros H. induction l as [|x l IH]; [done|]. cbn. by rewrite H, IH. Qed.
Lemma existsb_upsert {A} (f same : A → bool) g x l :
  (∀ y, same y = true → f y = false) → existsb f l = true → existsb f (upsert same g x l) = true.
Proof using.
  intros H. induction l as [|y l IH]; [done|]. cbn. destruct (same y) eqn:E; cbn.
  - rewrite (H _ E). cbn. intros ->. apply orb_true_r.
  - destruct (f y); [done|]. exact IH.
Qed.
Lemma prune_messages cap (s : LocalStore) : messages (prune_local_blobs cap s).2 = messages s.
Proof using. unfold prune_local_blobs. se_steps. by destruct (prune_loop _ _ _ _ _). Qed.
Lemma put_messages now id data (s : LocalStore) : messages (put_local_blob now id data s).2 = messages s.
Proof using.
  unfold put_local_blob. se_steps. destruct (existsb _ _); unfold se_bind, se_ret, se_put;
    match goal with |- context [prune_local_blobs ?cap ?x] =>
      pose proof (prune_messages cap x) as H; destruct (prune_local_blobs cap x) as [[n|e] s'] end; exact H.
Qed.
Lemma op_keeps_row mid id eid op (s : LocalStore) :
  spares mid op → existsb (kept_row mid id eid) (messages s) = true →
  existsb (kept_row mid id eid) (messages (run_op op s)) = true.
Proof using.
  intros Hop Hs. destruct op; cbn [run_op spares] in *; try exact Hs.
  - unfold register_identity. by se_steps.
  - unfold upsert_contact. by se_steps.
  - unfold set_contact_session. by se_steps.
  - unfold add_message. se_steps; [done|]. cbn [se_put snd messages set_messages].
    match goal with H : message_to_row _ _ _ _ = Ok _ |- _ => pose proof (message_row_id _ _ _ _ _ H) end.
    apply existsb_upsert; [|done]. intros r Em. apply String.eqb_eq in Em. unfold kept_row.
    assert (is_message mid r = false) as -> by (apply String.eqb_neq; congruence). done.
  - unfold update_message. se_steps. destruct fields as [|f fields]; [done|]. se_steps; try done.
    cbn [se_put snd messages set_messages]. unfold update_where. rewrite existsb_map_keep; [done|]. intros r.
    destruct (sql_eq _ _); [|done]. eapply fields_keep_row; [|done].
    apply Forall_lookup. intros i [k f'] Hi. apply list_lookup_imap_Some in Hi as (x & Hx & [= <- <-]).
    by eapply Forall_lookup_1 in Hop.
  - unfold save_prekeys. by se_steps.
  - unfold outbox_add. by se_steps.
  - unfold outbox_remove_for_message. by se_steps.
  - by rewrite put_messages.
  - by rewrite prune_messages.
  - unfold set_cursor. by se_steps.
  - unfold set_state. by se_steps.
Qed.
Lemma ops_keep_row mid id eid ops (s : LocalStore) :
  Forall (spares mid) ops → existsb (kept_row mid id eid) (messages s) = true →
  existsb (kept_row mid id eid) (messages (fold_left (λ s op, run_op op s) ops s)) = true.
Proof using.
  intros Hops. revert s. induction Hops as [|op ops Hop _ IH]; intros s Hs; [done|]. cbn [fold_left].
  apply IH. by apply op_keeps_row.
Qed.

(** C9: a message is stored once.  For a message envelope with an id, either a received
    message with that id is already stored, and the client does not change at all; or exactly
    one row is added to its messages, which reads as the message the envelope holds, filed
    under its contact as received, and the message is returned, whatever becomes of
    the receipt.  From then on, whatever becomes of the store short of another message under
    the same local id (a random one) or a rewritten remote id, an envelope with that id changes
    nothing and gives no message, whoever sends it and for however long: the ids are those of
    all stored messages of the account, looked up after decryption, where section 6.3 of
    PROTOCOL.md has a bounded set per contact, consulted before decryption. *)
Theorem message_stored_once k kind eid body ts (c : Client N) mid c1 r c' :
  wf_store (cl_store c) → eid ≠ ""%string → wf_json utf8_str body → int64 ts = true → ts ≠ 0 →
  new_id c = (Ok mid, c1) → existsb (is_message mid) (messages (cl_store c)) = false →
  process_message k (JStr kind) (JStr eid) body (JInt ts) c = (r, c') →
  if existsb (holds_envelope (me c) eid) (messages (cl_store c))
  then c' = c ∧ ∀ m, r ≠ Ok (Some m)
  else
    let m := received_message (me c) mid (c_id k) (JStr kind) body (JStr eid) ts in
    ∃ row, messages (cl_store c') = messages (cl_store c) ++ [row] ∧
      message_from_row (store_key (cl_store c')) row = Ok m ∧
      (r = Ok (Some m) ∨ ∃ e, r = Err e ∧ isa_Exception e = false) ∧
      (∀ k' kind' body' ts', process_message k' kind' (JStr eid) body' ts' c' = (Ok None, c')) ∧
      ∀ ops later, Forall (spares mid) ops → cl_identity later = cl_identity c' →
        cl_store later = fold_left (λ s op, run_op op s) ops (cl_store c') →
        ∀ k' kind' body' ts', let '(r', c3) := process_message k' kind' (JStr eid) body' ts' later in
          c3 = later ∧ ∀ m', r' ≠ Ok (Some m').
Proof using L.
  intros Hwf He Hb Hi Hts Hid Hnew E. destruct (existsb (holds_envelope _ _) _) eqn:Hex.
  { apply find_some in Hex as (row & Hr). rewrite (process_known _ _ _ _ _ _ _ He Hr) in E. injection E as <- <-.
    split; [done|]. intros m. by destruct (message_from_row _ _). }
  destruct (process_new _ _ _ _ _ _ _ _ _ _ Hwf He Hb Hi Hts Hid Hnew Hex E) as (row & Hm & R & Henv & Hr).
  exists row. assert (me c' = me c) as Hme.
  { pose proof (process_message_ok k (JStr kind) (JStr eid) body (JInt ts) c) as [Hsame _]. rewrite E in Hsame. cbn [snd] in Hsame. unfold me. by rewrite Hsame. }
  split_and!; [done..| |].
  - intros k' kind' body' ts'.
    rewrite (process_known _ _ _ _ _ _ row); [by rewrite R|done|]. rewrite Hm. apply find_snoc; [by rewrite Hme|done].
  - intros ops later Hops Hil Hst k' kind' body' ts'.
    assert (existsb (kept_row mid (me later) eid) (messages (cl_store later)) = true) as Hl.
    { rewrite Hst. apply ops_keep_row; [done|]. rewrite Hm, existsb_app. apply orb_true_iff. right. cbn.
      pose proof (row_message_id _ _ _ R) as Hr1. cbn in Hr1. unfold kept_row. rewrite Hr1.
      unfold me in *. by rewrite Hil, Henv. }
    assert (existsb (holds_envelope (me later) eid) (messages (cl_store later)) = true) as Hx.
    { apply existsb_exists in Hl as (x & Hx & Hh). apply andb_true_iff in Hh as [_ Hh].
      apply existsb_exists. by exists x. }
    apply find_some in Hx as (x & Hx). rewrite (process_known _ _ _ _ _ _ _ He Hx).
    split; [done|]. intros m'. by destruct (message_from_row _ x).
Qed.
End messages.

(** ** Every item is acknowledged *)

(** What the acknowledgement of each relay covers: every item it gave, and no more. *)
Definition covers (items : list FetchedMessage) (acked : gmap string Z) : Prop :=
  ∀ relay, match acked !! relay with
           | None => ∀ i, i ∈ items → fm_relay i ≠ relay
           | Some n => (∀ i, i ∈ items → fm_relay i = relay → fm_seq i ≤ n) ∧
                       ∃ i, i ∈ items ∧ fm_relay i = relay ∧ (n = 0 ∨ n = fm_seq i)
           end.

Section acknowledge.
Context {C : Crypto} {Zl : Zlib} {N : Type} {P : Pool N}.

Lemma covers_note items acked item : covers items acked → covers (items ++ [item]) (note_seq acked item).
Proof using.
  intros H relay. specialize (H relay). unfold note_seq. destruct (decide (fm_relay item = relay)) as [<-|Hne].
  - rewrite lookup_insert_eq. split.
    + intros i [Hi|Hi%list_elem_of_singleton]%elem_of_app Er; [|by subst; lia].
      destruct (acked !! fm_relay item); [|by apply H in Hi]. destruct H as [H _]. specialize (H i Hi Er). cbn. lia.
    + destruct (acked !! fm_relay item) as [n|]; cbn [default from_option id].
      * destruct H as (_ & i & Hi & Er & Hn). destruct (Z.le_ge_cases n (fm_seq item)).
        -- exists item. split_and!; [set_solver|done|lia].
        -- exists i. split_and!; [set_solver|done|]. destruct Hn; [left|right]; lia.
      * exists item. split_and!; [set_solver|done|lia].
  - rewrite lookup_insert_ne by done. destruct (acked !! relay).
    + destruct H as [H (i & Hi & Hr)]. split; [|exists i; set_solver].
      intros j [Hj|Hj%list_elem_of_singleton]%elem_of_app Er; [auto|congruence].
    + intros j [Hj|Hj%list_elem_of_singleton]%elem_of_app; [auto|congruence].
Qed.
Lemma handle_items_result items done acked (c : Client N) r c' :
  covers done acked → handle_items items acked c = (r, c') →
  (∃ new acked', r = Ok (new, acked') ∧ covers (done ++ items) acked') ∨ ∃ e, r = Err e ∧ isa_Exception e = false.
Proof using.
  revert done acked c r. induction items as [|item items IH]; intros seen acked c r Hc; cbn [handle_items].
  { intros [= <- <-]. left. rewrite app_nil_r. eauto. }
  intros [(e & E & ->)|(m & c1 & _ & E)]%se_bind_inv.
  { right. exists e. split; [done|]. unfold handle_item, se_catch in E.
    destruct (_ c) as [[a|e'] c2]; [done|]. destruct (isa_Exception e') eqn:He; [done|]. by injection E as <- _. }
  apply (covers_note _ _ item) in Hc.
  apply se_bind_inv in E as [(e & E & ->)|([new acked'] & c2 & E & E')].
  - apply (IH _ _ _ _ Hc) in E as [(n & a & E & _)|E]; [done|by right].
  - injection E' as <- <-. left. apply (IH _ _ _ _ Hc) in E as [(n & a & [= -> ->] & Hn)|(e & E & _)]; [|done].
    rewrite <-app_assoc in Hn. eauto.
Qed.

(** C19: every fetched item is acknowledged, failed device records included.  When the relays answer a fetch, the client goes
    through all the items, and none, however malformed, forged or failing, stops it; then it
    acknowledges to each relay that gave items the highest sequence number it gave, which
    covers each of them, and to no other; the new messages are returned unless the
    acknowledgement itself fails.  A record of another device whose handling failed is no
    exception: it is acknowledged like the rest, where the comment in [sync]
    says that such a record must not be acknowledged, for a truncated transfer to resume.  (A
    run outside the model is set apart.) *)
Theorem sync_acknowledges wait inbox items n (c : Client N) r c' :
  cl_card c ≠ None → cl_inbox c = Some inbox →
  pool_fetch (cl_relays c) inbox ∅ wait (cl_net c) = (Ok items, n) →
  sync wait c = (r, c') →
  (∃ e, (handle_items items ∅ (set_net n c)).1 = Err e ∧ isa_Exception e = false) ∨
  ∃ new acked c1, handle_items items ∅ (set_net n c) = (Ok (new, acked), c1) ∧ covers items acked ∧
    (items = [] → r = Ok new ∧ c' = c1) ∧
    (items ≠ [] → ∃ ack, pool_ack (cl_relays c) inbox acked (cl_net c1) = (ack, cl_net c') ∧
                  r = match ack with Ok _ => Ok new | Err e => Err e end).
Proof using.
  intros Hcard Hinbox Hf. unfold sync.
  assert (ensure_provisioned c = (Ok tt, c)) as Ep.
  { unfold ensure_provisioned. rewrite se_get_run. by destruct (cl_card c). }
  rewrite (se_bind_run _ _ _ _ _ Ep), se_get_run, Hinbox. unfold se_some. cbn [of_option]. rewrite se_lift_run.
  unfold own_backend. rewrite se_bind_assoc, se_get_run.
  erewrite se_bind_run by reflexivity.
  assert (on_net (pool_fetch (cl_relays c) inbox ∅ wait) c = (Ok items, set_net n c)) as Ef by (unfold on_net; by rewrite Hf).
  rewrite (se_bind_run _ _ _ _ _ Ef).
  destruct (handle_items items ∅ (set_net n c)) as [r1 c1] eqn:Eh. intros E.
  assert (covers [] ∅) as H0 by (intros relay; rewrite lookup_empty; set_solver).
  pose proof (handle_items_result _ _ _ _ _ _ H0 Eh) as [(new & acked & -> & Hcov)|(e & -> & He)]; [|left; by exists e].
  right. cbn [app] in Hcov. rewrite (se_bind_run _ _ _ _ _ Eh) in E. cbv beta iota in E.
  exists new, acked, c1. split_and!; [done|done| |].
  - intros ->. rewrite bool_decide_true in E; [by injection E as <- <-|].
    apply map_eq. intros relay. rewrite lookup_empty. specialize (Hcov relay).
    destruct (acked !! relay); [|done]. destruct Hcov as (_ & i & Hi & _). by apply not_elem_of_nil in Hi.
  - intros Hne. rewrite bool_decide_false in E.
    + unfold se_bind, on_net in E. destruct (pool_ack _ _ _ (cl_net c1)) as [[u|e] n2]; injection E as <- <-; by eexists.
    + intros ->. destruct items as [|i items]; [done|]. specialize (Hcov (fm_relay i)). rewrite lookup_empty in Hcov.
      apply (Hcov i); [by left|done].
Qed.
End acknowledge.

(** ** First messages *)

(** The store's key, the account and its prekeys stay. *)
Definition keeps_prekeys {N} (c c' : Client N) : Prop :=
  cl_identity c' = cl_identity c ∧ store_key (cl_store c') = store_key (cl_store c) ∧
  prekeys (cl_store c') = prekeys (cl_store c).
#[export] Instance keeps_prekeys_preorder {N} : PreOrder (@keeps_prekeys N).
Proof. split; [done|]. intros c1 c2 c3 (?&?&?) (?&?&?). split_and!; congruence. Qed.

Section handshakes.
Context {C : Crypto} {L : CryptoLaws C} {Zl : Zlib} {N : Type} {P : Pool N}.

Definition prekeys_value (c : Client N) : res json := open (store_key (cl_store c)) (prekeys (cl_store c) !! me c).
Lemma load_prekeys_bind {B} v (f : json → SE (Client N) B) c :
  prekeys_value c = Ok v → se_bind (on_store (load_prekeys (me c))) f c = f v c.
Proof using. intros E. apply se_bind_run, on_store_read. unfold load_prekeys. rewrite se_get_run. unfold se_lift. by rewrite <-E. Qed.
Lemma keeps_prekeys_value c c' : keeps_prekeys c c' → prekeys_value c' = prekeys_value c.
Proof using. intros (H1 & H2 & H3). unfold prekeys_value, me. by rewrite H1, H2, H3. Qed.
Lemma store_card_prekeys card nick : keeps (@keeps_prekeys N) (store_card card nick).
Proof using.
  assert (∀ A (m : SE LocalStore A), (∀ s, store_key (m s).2 = store_key s ∧ prekeys (m s).2 = prekeys s) →
            keeps (@keeps_prekeys N) (on_store m)) as Hs.
  { intros A m Hm c. unfold on_store. specialize (Hm (cl_store c)). by destruct (m (cl_store c)). }
  assert (∀ id k, keeps (@keeps_prekeys N) (on_store (get_contact id k))).
  { intros id k. apply Hs. intros s. by rewrite get_contact_run. }
  assert (∀ n now id k, keeps (@keeps_prekeys N) (on_store (upsert_contact n now id k))).
  { intros n now id k. apply Hs. intros s. unfold upsert_contact. by se_steps. }
  assert (∀ n, keeps (@keeps_prekeys N) (urandom n)) by done.
  assert (keeps (@keeps_prekeys N) now_ms) by done.
  unfold store_card, upsert_contact_. keeping.
Qed.

Lemma begin_inbound_same wire (c : Client N) : begin_inbound wire c = ((begin_inbound wire c).1, c).
Proof using.
  unfold begin_inbound. rewrite se_get_run.
  assert (on_store (load_prekeys (me c)) c = (prekeys_value c, c)) as E.
  { apply on_store_read. unfold load_prekeys. by rewrite se_get_run. }
  unfold se_bind. rewrite E. by destruct (prekeys_value c).
Qed.

(** No handshake that names the prekey starts a session. *)
Definition spent (opk_id : json) (c : Client N) : Prop :=
  ∀ wire init opk' r c', jitem "init" (JObj wire) = Ok init → jget "opk_id" init = Ok opk' → opk' ≠ JNull →
    to_pystr opk' = to_pystr opk_id → begin_inbound wire c = (r, c') → c' = c ∧ ∀ s, r ≠ Ok (Some s).

Lemma opk_spent opk_id v (c : Client N) :
  prekeys_value c = Ok v →
  (∀ opks, (let? j := jitem "opks" v in items_json j) = Ok opks → default JNull (dget (to_pystr opk_id) opks) = JNull) →
  spent opk_id c.
Proof using.
  intros Hv Hopk wire init opk' r c' Hinit Hid Hne Hstr. unfold begin_inbound. rewrite se_get_run, (load_prekeys_bind _ _ _ Hv).
  unfold se_lift. intros [= <- <-]. split; [done|]. intros s. unfold begin_inbound_. rewrite Hinit. cbn [res_bind].
  destruct (truthy v); [|done]. cbn [negb].
  intros E. apply res_bind_Ok in E as (a & _ & E). apply res_bind_Ok in E as (b & _ & E).
  destruct (negb (a =? b)); [done|]. rewrite Hid in E. cbn [res_bind] in E.
  apply res_bind_Ok in E as (private & E1 & E). destruct private as [private|]; [|done].
  unfold opk_private in E1. rewrite Hstr in E1.
  assert ((let? entry := (let? opks := jitem "opks" v in jget (to_pystr opk_id) opks) in
           match entry with
           | JNull => Ok None
           | _ => let? private := (let? j := jitem "priv" entry in b64d_json j) in Ok (Some private)
           end) = Ok (Some private)) as E2 by (by destruct opk').
  apply res_bind_Ok in E2 as (entry & E2 & E3). apply res_bind_Ok in E2 as (j & Ej & E2).
  destruct j as [| | | | |opks]; try done. cbn [jget] in E2. injection E2 as <-.
  assert (default JNull (dget (to_pystr opk_id) opks) = JNull) as Hn by (apply Hopk; by rewrite Ej).
  destruct (dget (to_pystr opk_id) opks) as [x|]; cbn in Hn; [subst x|]; done.
Qed.

(** [consume_opk] of a named prekey. *)
Lemma consume_opk_named opk_id (c : Client N) :
  opk_id ≠ JNull →
  consume_opk opk_id c
  = (do! c := se_get in
     do! prekeys := on_store (load_prekeys (me c)) in
     if negb (truthy prekeys) then se_ret tt else
     do! d := se_lift (items_json prekeys) in
     do! opks := se_lift (let? j := jitem "opks" prekeys in items_json j) in
     match default JNull (dget (to_pystr opk_id) opks) with
     | JNull => se_ret tt
     | _ => save_prekeys_ (JObj (dset "opks" (JObj (dpop (to_pystr opk_id) opks)) d))
     end) c.
Proof using. by destruct opk_id. Qed.
Lemma consume_opk_spent opk_id v (c c' : Client N) :
  length (store_key (cl_store c)) = 32%nat → prekeys_value c = Ok v → wf_json utf8_str v → opk_id ≠ JNull →
  consume_opk opk_id c = (Ok tt, c') → spent opk_id c'.
Proof using L.
  intros Hk Hv Hwf Hne H. rewrite (consume_opk_named _ _ Hne) in H. revert H. rewrite se_get_run, (load_prekeys_bind _ _ _ Hv).
  destruct (truthy v) eqn:Ht; cbn [negb].
  2:{ intros [= <-]. apply (opk_spent _ v); [done|]. intros opks E. by destruct v as [| | | |[]|[]]. }
  intros (d & c1 & [= E1 <-] & H)%se_bind_Ok. destruct v as [| | | | |d0]; try done. injection E1 as ->.
  apply se_bind_Ok in H as (opks & c1 & [= Eo <-] & H).
  assert (default JNull (dget (to_pystr opk_id) opks) = JNull ∧ c' = c ∨
          save_prekeys_ (JObj (dset "opks" (JObj (dpop (to_pystr opk_id) opks)) d)) c = (Ok tt, c')) as [[Hn ->]|Es].
  { destruct (default JNull _); try (by right). injection H as <-. by left. }
  - apply (opk_spent _ (JObj d)); [done|]. intros opks' E. cbn [jitem] in E, Eo. rewrite Eo in E. by injection E as <-.
  - set (d' := dset _ _ d) in *.
    assert (wf_dict d') as Hwd.
    { apply wf_dset; [reflexivity| |done]. apply res_bind_Ok in Eo as (j & Ej & Eo). cbn [jitem] in Ej.
      apply of_option_Ok in Ej. destruct j as [| | | | |opks2]; try done. injection Eo as ->.
      apply (wf_dpop _ opks). by apply (dget_wf "opks" (JObj opks) d). }
    unfold save_prekeys_ in Es. rewrite se_get_run in Es. erewrite se_bind_run in Es by reflexivity.
    match type of Es with context [save_prekeys ?n _ _] => set (nonce := n) in Es end.
    assert (length nonce = 12%nat) as Hn by (unfold nonce; by rewrite length_map, length_seq).
    destruct (seal_open (store_key (cl_store c)) nonce (JObj d') Hk Hn Hwd) as (b & Eb & Ob).
    unfold on_store, save_prekeys, se_bind, se_get, se_lift, se_put in Es. cbn [cl_store set_env] in Es. rewrite Eb in Es.
    injection Es as <-. apply (opk_spent _ (JObj d')).
    + unfold prekeys_value, me. cbn. by rewrite lookup_insert_eq.
    + intros opks' E. cbn [jitem] in E. unfold d' in E. rewrite dget_dset in E. injection E as <-. by rewrite dget_dpop.
Qed.

(** C18: a one-time prekey starts one session.  Once a first message that names a one-time
    prekey has been accepted and its sender stored, no message that names the same prekey
    starts a session: it is turned away before any key is derived from it, and the client
    does not change. *)
Theorem handshake_spends_prekey s envelope opk_id k v (c c' : Client N) :
  length (store_key (cl_store c)) = 32%nat → prekeys_value c = Ok v → wf_json utf8_str v → opk_id ≠ JNull →
  finish_inbound s envelope opk_id c = (Ok (Some k), c') → spent opk_id c'.
Proof using L.
  intros Hk Hv Hwf Hne. unfold finish_inbound. intros (card & c1 & [= _ <-] & E)%se_bind_Ok.
  destruct card as [card|]; [|done]. apply se_bind_Ok in E as (k' & c2 & E2 & E).
  apply se_bind_Ok in E as ([] & c3 & E3 & [= _ <-]).
  pose proof (store_card_prekeys card JNull c) as H. rewrite E2 in H. cbn [snd] in H.
  apply (consume_opk_spent opk_id v c2); try done.
  - by destruct H as (_ & -> & _).
  - by rewrite (keeps_prekeys_value _ _ H).
Qed.

(** What the card of a first message is checked against. *)
Lemma sender_card_sound s envelope card :
  sender_card s envelope = Ok (Some card) →
  ∃ sk init sig, Session.sk s = Some sk ∧ Session.init s = JObj init ∧
    ed25519_verify (Card.isign card) sig (X3dh.auth_message (Session.sid s) init (Kdf.sk_commitment sk)) = true ∧
    Card.card_id card = Identity.compute_identity_id (Card.isign card) (Card.idh card) ∧
    Identity.verify (Card.isign card) (Card.signature card) (Card.signed_bytes card) = true.
Proof using.
  unfold sender_card. destruct (negb (is_dict _) || _); [done|]. destruct (Session.sk s) as [sk|]; [|done].
  destruct (Session.init s) as [| | | | |init]; try done. intros (ok & Ea & E)%res_bind_Ok.
  destruct ok; [|done]. cbn [negb] in E. apply X3dh.verify_auth_sound in Ea as (isign & idh & sig & _ & Ei & _ & _ & _ & _ & Hv).
  destruct (Card.from_dict _) as [card'|e] eqn:Ec; [|by destruct (isa CardError e)].
  apply res_bind_Ok in E as (id & _ & E). destruct (negb (eq_str id _)); [done|].
  rewrite Ei in E. cbn [res_bind] in E. destruct (bool_decide_reflect (Card.isign card' = isign)) as [<-|]; [|done].
  injection E as <-. exists sk, init, sig. split_and!; [done|done|done| |];
    unfold Card.from_dict in Ec; rinv Ec; subst.
  - match goal with H : negb (String.eqb _ _) = false |- _ => by apply negb_false_iff, String.eqb_eq in H end.
  - match goal with H : negb (Identity.verify _ _ _) = false |- _ => by apply negb_false_iff in H end.
Qed.

(** C5: nobody enters the contacts unauthenticated.  A first message either changes nothing
    in the store and nothing on the network, and yields no message; or it opened under the
    session its handshake derives from the client's own keys, and the envelope sealed
    inside carries a card whose fingerprint and signature are right, and a signature
    by the key of that card over this session's id, its handshake and its secret. *)
Theorem first_message_authentic wire blob (c : Client N) r c' :
  handle_first wire blob c = (r, c') →
  (cl_store c' = cl_store c ∧ cl_net c' = cl_net c ∧ ∀ m, r ≠ Ok (Some m)) ∨
  ∃ s opk_id fresh opened ratchet card sk init sig,
    begin_inbound wire c = (Ok (Some (s, opk_id)), c) ∧
    Protocol.unseal fresh blob (Session.ratchet s) = (Ok opened, ratchet) ∧
    sender_card (with_ratchet ratchet s) opened.1.1 = Ok (Some card) ∧
    Session.sk s = Some sk ∧ Session.init s = JObj init ∧
    ed25519_verify (Card.isign card) sig (X3dh.auth_message (Session.sid s) init (Kdf.sk_commitment sk)) = true ∧
    Card.card_id card = Identity.compute_identity_id (Card.isign card) (Card.idh card) ∧
    Identity.verify (Card.isign card) (Card.signature card) (Card.signed_bytes card) = true.
Proof using.
  unfold handle_first. destruct (negb (dhas "init" wire)); [intros [= <- <-]; by left|].
  pose proof (begin_inbound_same wire c) as Eb. revert Eb.
  generalize (begin_inbound wire c).1 as started. intros started Eb.
  destruct started as [[[s opk_id]|]|e].
  2,3: unfold se_bind; rewrite Eb; intros [= <- <-]; by left.
  rewrite (se_bind_run _ _ _ _ _ Eb). unfold unseal_with. rewrite se_bind_assoc. erewrite se_bind_run by reflexivity.
  match goal with |- context [Protocol.unseal ?f blob _] => set (fresh := f) end.
  destruct (Protocol.unseal fresh blob (Session.ratchet s)) as [[[[envelope sid] init0]|e] ratchet] eqn:Eu.
  2:{ destruct (isa_WireError e); intros [= <- <-]; by left. }
  rewrite se_lift_run. unfold finish_inbound at 1. rewrite se_bind_assoc.
  destruct (sender_card (with_ratchet ratchet s) envelope) as [[card|]|e] eqn:Es;
    [|intros [= <- <-]; by left..].
  intros _. right. destruct (sender_card_sound _ _ _ Es) as (sk & init & sig & Hsk & Hin & Hv & Hid & Hsig).
  by exists s, opk_id, fresh, (envelope, sid, init0), ratchet, card, sk, init, sig.
Qed.
End handshakes.

(** ** A concrete client *)

Import Toy ClientProps.Sample.

Definition sample_known : contact :=
  {| c_id := "peer"; c_identity := me (new_client 3 sample_store empty_relay); c_nickname := JNull; c_isign := []; c_idh := [];
     c_bundle := JStr "b"; c_inbox := JObj []; c_relays := JList []; c_session := JNull; c_verified := false; c_created := 7 |}.
Lemma message_stored_once_witness :
  let c := new_client 3 sample_store empty_relay in
  let mid := ok_or ""%string (new_id c).1 in
  let body := JObj [("text", JStr "hi")]%string in
  let '(r, c') := process_message sample_known (JStr "text") (JStr "e1") body (JInt 5) c in
  ∃ row, messages (cl_store c') = messages (cl_store c) ++ [row] ∧
    message_from_row (store_key (cl_store c')) row
      = Ok (received_message (me c) mid "peer" (JStr "text") body (JStr "e1") 5) ∧
    (r = Ok (Some (received_message (me c) mid "peer" (JStr "text") body (JStr "e1") 5))
     ∨ ∃ e, r = Err e ∧ isa_Exception e = false) ∧
    let later := set_store (run_op (DeleteContact (me c) "peer") (cl_store c')) c' in
    ∀ k' kind' body' ts', process_message k' kind' (JStr "e1") body' ts' c' = (Ok None, c') ∧
      (process_message k' kind' (JStr "e1") body' ts' later).2 = later.
Proof.
  intros c mid body. destruct (process_message _ _ _ _ _ c) as [r c'] eqn:E.
  destruct (message_stored_once sample_known "text" "e1" body 5 c mid (new_id c).2 r c') as (row & H1 & H2 & H3 & H4 & H5); [..|exact E|].
  - apply sample_store_wf.
  - discriminate.
  - repeat constructor; by apply (bool_decide_unpack _).
  - reflexivity.
  - discriminate.
  - reflexivity.
  - reflexivity.
  - exists row. split; [exact H1|]. split; [exact H2|]. split; [exact H3|].
    intros later k' kind' body' ts'. split; [apply H4|].
    assert (Forall (spares mid) [DeleteContact (me c) "peer"]) as Hs by (repeat constructor).
    specialize (H5 [DeleteContact (me c) "peer"] later Hs eq_refl eq_refl k' kind' body' ts').
    destruct (process_message k' kind' _ body' ts' later) as [r' c3]. apply H5.
Defined.


Definition busy_relay : relay := {| boxes := [("mine", bs "junk"); ("mine", bs "more")]%string; records := ∅; files := ∅ |}.
Definition sample_ready : Client relay :=
  let c := new_client 3 sample_store busy_relay in
  let inbox := {| mailbox_id := "mine"; write_token := "w"; read_token := Some "r"%string |} in
  set_card (Some (Card.create (owner 3) "b" inbox ["https://r"%string] (JStr "n"))) (set_account (Some inbox) (Some "b"%string) "n" c).

Lemma sync_acknowledges_witness :
  let inbox := {| mailbox_id := "mine"; write_token := "w"; read_token := Some "r"%string |} in
  let items := ok_or [] (pool_fetch ["https://r"%string] inbox ∅ 0 busy_relay).1 in
  let '(r, c') := sync 0 sample_ready in
  length items = 2%nat ∧
  ((∃ e, (handle_items items ∅ (set_net busy_relay sample_ready)).1 = Err e ∧ isa_Exception e = false) ∨
   ∃ new acked c1, handle_items items ∅ (set_net busy_relay sample_ready) = (Ok (new, acked), c1) ∧ covers items acked ∧
     (items = [] → r = Ok new ∧ c' = c1) ∧
     (items ≠ [] → ∃ ack, pool_ack ["https://r"%string] inbox acked (cl_net c1) = (ack, cl_net c') ∧
                   r = match ack with Ok _ => Ok new | Err e => Err e end)).
Proof.
  intros inbox items. destruct (sync 0 sample_ready) as [r c'] eqn:E. split; [reflexivity|].
  apply (sync_acknowledges 0 inbox items busy_relay sample_ready r c'); [discriminate|reflexivity|reflexivity|exact E].
Defined.

(** A first message's session and envelope, and a client with one prekey left. *)
Definition sample_sk : bytes := repeat "k"%char 32.
Definition sample_init : dict := [("ek", JStr "e"); ("opk_id", JInt 1)]%string.
Definition first_session : Session.Session := inbound_session (bs "sid") sample_sk [] [] (JObj sample_init).
Definition first_card : Card.ContactCard := 
  Card.create (owner 5) "b" {| mailbox_id := "box"; write_token := b64e (repeat "w"%char 32); read_token := None |}
    ["https://r"%string] (JStr "Bob").
Definition first_envelope : dict :=
  [("auth", JObj (X3dh.build_auth (owner 5) (bs "sid") sample_init sample_sk)); ("card", JObj (Card.signed_dict first_card))]%string.
Definition sample_prekeys : dict := [("opks", JObj [("1", JObj [("priv", JStr "cA")])])]%string.
Definition with_prekeys : Client relay := (save_prekeys_ (JObj sample_prekeys) (new_client 3 sample_store empty_relay)).2.

Lemma handshake_spends_prekey_witness :
  let c' := (finish_inbound first_session first_envelope (JInt 1) with_prekeys).2 in spent (JInt 1) c'.
Proof.
  intros c'.
  assert (match (finish_inbound first_session first_envelope (JInt 1) with_prekeys).1 with
          | Ok (Some _) => true | _ => false end = true) as H by (vm_compute; reflexivity).
  destruct (finish_inbound first_session first_envelope (JInt 1) with_prekeys).1 as [[k|]|e] eqn:E; [|discriminate H..].
  - apply (handshake_spends_prekey first_session first_envelope (JInt 1) k (JObj sample_prekeys) with_prekeys c').
    + reflexivity.
    + vm_compute. reflexivity.
    + repeat constructor; by apply (bool_decide_unpack _).
    + discriminate.
    + rewrite <-E. apply surjective_pairing.
Defined.

Lemma first_message_authentic_witness :
  let wire := [("init", JObj sample_init)]%string in
  let '(r, c') := handle_first wire (bs "blob") with_prekeys in
  (cl_store c' = cl_store with_prekeys ∧ cl_net c' = cl_net with_prekeys ∧ ∀ m, r ≠ Ok (Some m)) ∨
  ∃ s opk_id fresh opened ratchet card sk init sig,
    begin_inbound wire with_prekeys = (Ok (Some (s, opk_id)), with_prekeys) ∧
    Protocol.unseal fresh (bs "blob") (Session.ratchet s) = (Ok opened, ratchet) ∧
    sender_card (with_ratchet ratchet s) opened.1.1 = Ok (Some card) ∧
    Session.sk s = Some sk ∧ Session.init s = JObj init ∧
    ed25519_verify (Card.isign card) sig (X3dh.auth_message (Session.sid s) init (Kdf.sk_commitment sk)) = true ∧
    Card.card_id card = Identity.compute_identity_id (Card.isign card) (Card.idh card) ∧
    Identity.verify (Card.isign card) (Card.signature card) (Card.signed_bytes card) = true.
Proof.
  intros wire. destruct (handle_first wire (bs "blob") with_prekeys) as [r c'] eqn:E.
  apply (first_message_authentic wire (bs "blob") with_prekeys r c' E).
Defined.
