(* ===== verification/AccountProps.v ===== *)
(** * The account on disk: theorems

    The sessions of a contact, and the account itself, survive the end of the process:
    what the client reads back from its store is what it saved. *)

From S2P Require Import Prelude PyStr Json JsonProps Primitives Dict Encoding Sql Store StoreProps Backend ClientState Sync Client ClientProps ClientRuns.
From S2P Require Identity RatchetSafety Devices DeviceChannel History Session.

(** ** Sessions *)

Definition wf_sessions (l : list (string * Session.Session)) : Prop :=
  NoDup (map fst l) ∧ Forall (λ kv : string * Session.Session, utf8_str kv.1 ∧ Session.wf_session kv.2) l.
Definition wf_state (st : state_t) : Prop :=
  Forall Devices.wf_entry (st_devices st) ∧ wf_sessions (st_outbound st) ∧ wf_sessions (st_inbound st).

Lemma sessions_json_wf l : wf_sessions l → wf_json utf8_str (sessions_json l).
Proof.
  intros [Hnd Hl]. unfold sessions_json. change (wf_dict (map (λ kv : string * Session.Session, (kv.1, JObj (Session.to_dict kv.2))) l)).
  apply wf_dict_elems. split.
  - rewrite map_map. exact Hnd.
  - apply Forall_map. eapply Forall_impl; [exact Hl|]. intros [k s] [Hk Hs]. split; [done|]. by apply Session.session_wf.
Qed.
Lemma sessions_read l : wf_sessions l → read_sessions (sessions_json l) = Ok l.
Proof.
  intros [_ Hl]. unfold read_sessions, sessions_json.
  assert (∀ d : dict, (let? d' := items_json (jor (JObj d) (JObj [])) in
            mapM (λ kv : string * json, let? s := Session.from_dict kv.2 in Ok (kv.1, s)) d')
          = mapM (λ kv : string * json, let? s := Session.from_dict kv.2 in Ok (kv.1, s)) d) as -> by (intros []; done).
  apply mapM_fmap_id. intros [k s] Hs. rewrite Forall_forall in Hl. destruct (Hl _ Hs) as [_ Hw]. cbn [fst snd] in *.
  pose proof (Session.session_read false s Hw) as E. rewrite !canon_false in E. rewrite E. cbn. by destruct s.
Qed.
Lemma read_devices_all l : read_devices (map (λ d, JObj (Devices.entry_dict d)) l) = Ok l.
Proof. induction l as [|d l IH]; [done|]. cbn [map read_devices]. rewrite Devices.entry_read_raw, IH. done. Qed.

Lemma state_json_wf st : wf_state st → wf_json utf8_str (state_json st).
Proof.
  intros (Hd & Ho & Hi). pose proof (sessions_json_wf _ Ho). pose proof (sessions_json_wf _ Hi).
  assert (wf_json utf8_str (JList (map (λ d, JObj (Devices.entry_dict d)) (st_devices st)))).
  { cbn [wf_json]. rewrite map_map, Forall_map. eapply Forall_impl; [exact Hd|]. intros d Hw. by apply Devices.entry_wf. }
  unfold state_json. change (wf_dict [("v", JInt 2); ("devices", JList (map (λ d, JObj (Devices.entry_dict d)) (st_devices st)));
        ("outbound", sessions_json (st_outbound st)); ("inbound", sessions_json (st_inbound st))]%string).
  solve_wf.
Qed.
(** Loading is the inverse of saving. *)
Lemma load_saved k st : wf_state st → c_session k = state_json st → load_state k = Ok st.
Proof.
  intros (Hd & Ho & Hi) E. unfold load_state. rewrite E. unfold state_json. cbn [truthy jget dget fst snd String.eqb Ascii.eqb Bool.eqb res_bind eq_int Z.eqb Pos.eqb].
  assert (∀ l, iter_json (jor (JList l) (JList [])) = Ok l) as -> by (by intros []). cbn [res_bind].
  rewrite read_devices_all, !sessions_read by done. cbn [res_bind]. by destruct st.
Qed.

Lemma update_where_find {R} (same : R → bool) f (l : list R) :
  (∀ r, same (f r) = same r) → List.find same (update_where same f l) = f <$> List.find same l.
Proof.
  intros Hf. unfold update_where. induction l as [|r l IH]; [done|]. cbn [map List.find].
  destruct (same r) eqn:E; [by rewrite Hf, E|]. rewrite E. exact IH.
Qed.
Lemma update_where_find_other {R} (same other : R → bool) f (l : list R) :
  (∀ r, same r = true → other r = false ∧ other (f r) = false) →
  List.find other (update_where same f l) = List.find other l.
Proof.
  intros Hf. unfold update_where. induction l as [|r l IH]; [done|]. cbn [map List.find].
  destruct (same r) eqn:E; [|by rewrite IH]. destruct (Hf r E) as [-> ->]. exact IH.
Qed.

Section sessions.
Context {C : Crypto} {L : CryptoLaws C} {N : Type}.

(** A contact with another session value. *)
Definition resession (v : json) (k : contact) : contact :=
  {| c_id := c_id k; c_identity := c_identity k; c_nickname := c_nickname k; c_isign := c_isign k; c_idh := c_idh k;
     c_bundle := c_bundle k; c_inbox := c_inbox k; c_relays := c_relays k; c_session := v; c_verified := c_verified k;
     c_created := c_created k |}.

(** C21: the sessions of a contact survive a restart.  Saving the session state of a stored
    contact always succeeds; what a later process reads for that contact is the same contact
    with exactly the state saved, every ratchet, device and pending handshake of it; and
    no other contact is touched. *)
Theorem sessions_survive contact_id st k (c : Client N) r c' :
  wf_store (cl_store c) → wf_state st → (get_contact (me c) contact_id (cl_store c)).1 = Ok (Some k) →
  save_state contact_id st c = (r, c') →
  r = Ok tt ∧
  (∃ k', (get_contact (me c) contact_id (cl_store c')).1 = Ok (Some k') ∧
         k' = resession (state_json st) k ∧ load_state k' = Ok st) ∧
  ∀ id cid, (id, cid) ≠ (me c, contact_id) →
    (get_contact id cid (cl_store c')).1 = (get_contact id cid (cl_store c)).1.
Proof using L.
  intros Hwf Hst Hk. unfold save_state. rewrite se_get_run. erewrite se_bind_run by reflexivity.
  unfold on_store. cbn [cl_store set_env].
  match goal with |- context [set_contact_session ?n _ _ _ _] => set (nonce := n) end.
  assert (length nonce = 12%nat) as Hn by (unfold nonce; by rewrite length_map, length_seq).
  destruct (seal_opt_open (store_key (cl_store c)) nonce (state_json st) (ws_key _ Hwf) Hn (state_json_wf _ Hst)) as (b & Eb & Ob).
  unfold set_contact_session. rewrite se_get_run, Eb, se_lift_run. unfold se_put. intros [= <- <-]. split; [done|].
  rewrite get_contact_run in Hk. cbn [fst] in Hk. destruct (List.find _ _) as [row|] eqn:Ef; [|done].
  apply res_bind_Ok in Hk as (k0 & Hk & [= ->]). split.
  - exists (resession (state_json st) k). split_and!; [|done|by apply load_saved].
    rewrite get_contact_run. cbn [fst cl_store set_store set_contacts contacts store_key set_env].
    rewrite update_where_find, Ef by done. cbn [fmap option_fmap option_map].
    unfold contact_from_row in *. cbn [cr_inbox cr_relays cr_session with_session]. rewrite Ob.
    apply res_bind_Ok in Hk as (inbox & -> & Hk). apply res_bind_Ok in Hk as (relays & -> & Hk).
    apply res_bind_Ok in Hk as (sess & _ & [= <-]). done.
  - intros id cid Hne. rewrite !get_contact_run. cbn [fst cl_store set_store set_contacts contacts store_key set_env].
    rewrite update_where_find_other; [done|]. intros x Hx%is_contact_key.
    assert (is_contact id cid x = false) as Hf.
    { apply not_true_iff_false. rewrite is_contact_key. congruence. }
    by split.
Qed.
End sessions.

(** ** The account *)

(** What provisioning settles: the fields stay. *)
Definition same_fields {N} (c c' : Client N) : Prop :=
  cl_identity c' = cl_identity c ∧ store_key (cl_store c') = store_key (cl_store c) ∧ cl_inbox c' = cl_inbox c ∧
  cl_bundle c' = cl_bundle c ∧ cl_name c' = cl_name c ∧ cl_device c' = cl_device c.
#[export] Instance same_fields_preorder {N} : PreOrder (@same_fields N).
Proof. split; [done|]. intros c1 c2 c3 (?&?&?&?&?&?) (?&?&?&?&?&?). split_and!; congruence. Qed.
(** And so do the prekeys and what the store holds of the account. *)
Definition account_keys : list string := ["inbox"; "bundle_id"; "name"; "device_id"]%string.
Definition same_account {C : Crypto} {N} (c c' : Client N) : Prop :=
  same_fields c c' ∧ prekeys (cl_store c') = prekeys (cl_store c) ∧
  ∀ k, k ∈ account_keys → state_value k c' = state_value k c.
#[export] Instance same_account_preorder {C : Crypto} {N} : PreOrder (@same_account C N).
Proof.
  split; [by intros c; split_and!|]. intros c1 c2 c3 (H1 & H2 & H3) (H4 & H5 & H6).
  split_and!; [by etrans|congruence|]. intros k Hk. by rewrite H6, H3.
Qed.

Section fields.
Context {C : Crypto} {N : Type}.
Abbreviation sf := (keeps (@same_fields N)).
Abbreviation sa := (keeps (@same_account C N)).

Lemma sf_on_store {A} (m : SE LocalStore A) : (∀ s, store_key (m s).2 = store_key s) → sf (on_store m).
Proof using. intros Hm c. unfold on_store. specialize (Hm (cl_store c)). by destruct (m (cl_store c)). Qed.
Lemma sa_on_store {A} (m : SE LocalStore A) :
  (∀ s, store_key (m s).2 = store_key s ∧ prekeys (m s).2 = prekeys s ∧ state (m s).2 = state s) → sa (on_store m).
Proof using.
  intros Hm c. unfold on_store. destruct (Hm (cl_store c)) as (H1 & H2 & H3). destruct (m (cl_store c)) as [r s].
  cbn [snd] in *. split_and!; [by split_and!|done|]. intros k _. unfold state_value, me. cbn. by rewrite H1, H3.
Qed.
Lemma sf_on_net {A} (m : SE N A) : sf (on_net m).
Proof using. intros c. unfold on_net. by destruct (m (cl_net c)). Qed.
Lemma sa_on_net {A} (m : SE N A) : sa (on_net m).
Proof using. intros c. unfold on_net. by destruct (m (cl_net c)). Qed.
Lemma sf_urandom n : sf (urandom n). Proof using. done. Qed.
Lemma sa_urandom n : sa (urandom n). Proof using. done. Qed.
Lemma sa_now_ms : sa now_ms. Proof using. done. Qed.
Lemma sa_get_state k : sa (get_state_ k).
Proof using. intros c. rewrite get_state_run. reflexivity. Qed.
Lemma sa_load_prekeys id : sa (on_store (load_prekeys id)).
Proof using. by apply sa_on_store. Qed.
Lemma sf_set_state k v : sf (set_state_ k v).
Proof using.
  unfold set_state_. apply keeps_bind; [apply _|apply keeps_get, _|intros c]. apply keeps_bind; [apply _|apply sf_urandom|intros n].
  apply sf_on_store. intros s. unfold set_state. by se_steps.
Qed.
Lemma sf_save_prekeys v : sf (save_prekeys_ v).
Proof using.
  unfold save_prekeys_. apply keeps_bind; [apply _|apply keeps_get, _|intros c]. apply keeps_bind; [apply _|apply sf_urandom|intros n].
  apply sf_on_store. intros s. unfold save_prekeys. by se_steps.
Qed.
(** A write under another key. *)
Lemma sa_set_state k v : k ∉ account_keys → sa (set_state_ k v).
Proof using.
  intros Hk c. split; [apply sf_set_state|]. unfold set_state_. rewrite se_get_run. erewrite se_bind_run by reflexivity.
  unfold on_store, set_state, se_bind, se_get, se_lift, se_put. cbn [cl_store set_env].
  destruct (seal _ _ _) as [b|e]; cbn; [|done]. split; [done|].
  intros k' Hk'. unfold state_value, me. cbn. rewrite lookup_insert_ne; [done|]. intros [= ->]. done.
Qed.
End fields.
#[export] Hint Resolve sf_on_net sf_urandom sf_set_state sf_save_prekeys sa_on_net sa_urandom sa_now_ms sa_get_state
  sa_load_prekeys : keeps.
#[export] Hint Extern 1 (keeps same_fields (se_modify _)) => (apply keeps_modify; done) : keeps.
#[export] Hint Extern 1 (keeps same_account (se_modify _)) => (apply keeps_modify; done) : keeps.

Section account_ops.
Context {C : Crypto} {Zl : Zlib} {N : Type} {P : Pool N}.
Abbreviation sf := (keeps (@same_fields N)).
Abbreviation sa := (keeps (@same_account C N)).

Lemma keypair_sf : sf keypair. Proof using. unfold keypair. keeping. Qed.
Lemma generate_opks_sf i n : sf (generate_opks i n).
Proof using. revert i. induction n as [|n IH]; intros i; cbn [generate_opks]; pose proof keypair_sf; keeping. Qed.
Lemma generate_prekeys_sf n : sf (generate_prekeys n).
Proof using. unfold generate_prekeys. pose proof keypair_sf. pose proof generate_opks_sf. keeping. Qed.
Lemma publish_bundle_sf p : sf (publish_bundle p). Proof using. unfold publish_bundle, own_backend. keeping. Qed.
Lemma publish_bundle_sa p : sa (publish_bundle p). Proof using. unfold publish_bundle, own_backend. keeping. Qed.
Lemma register_existing_sa i : sa (register_existing i).
Proof using. unfold register_existing. pose proof publish_bundle_sa. keeping. Qed.
Lemma make_card_sa : sa make_card. Proof using. unfold make_card. keeping. Qed.
Lemma ensure_device_keys_sa : sa ensure_device_keys.
Proof using.
  assert (∀ v, sa (set_state_ DEVICE_KEYS_STATE v)) by (intros v; apply sa_set_state, (bool_decide_unpack _); exact I).
  unfold ensure_device_keys. keeping.
Qed.
Lemma fetch_own_list_sa : sa fetch_own_device_list.
Proof using. unfold fetch_own_device_list, own_backend. keeping. Qed.
Lemma publish_device_keys_sa : sa publish_device_keys.
Proof using. pose proof ensure_device_keys_sa. unfold publish_device_keys, device_keys_record, own_backend. keeping. Qed.
End account_ops.

Section restart.
Context {C : Crypto} {L : CryptoLaws C} {Zl : Zlib} {N : Type} {P : Pool N}.

(** The store holds the account the client runs. *)
Definition saved (c : Client N) : Prop :=
  ∃ inbox b id, cl_inbox c = Some inbox ∧ cl_bundle c = Some b ∧ cl_device c = Some id ∧ id ≠ ""%string ∧
    validate inbox = Ok tt ∧ state_value "inbox" c = Ok (JObj (to_json inbox)) ∧
    state_value "bundle_id" c = Ok (JStr b) ∧ state_value "name" c = Ok (JStr (cl_name c)) ∧
    state_value "device_id" c = Ok (JStr id).

Lemma register_run (c : Client N) r c' :
  ensure_device_registered c = (r, c') →
  (∃ e, assign_device_id c = (Err e, c') ∧ r = Err e) ∨ ∃ c1, assign_device_id c = (Ok tt, c1) ∧ same_account c1 c'.
Proof using.
  pose proof fetch_own_list_sa. pose proof publish_device_keys_sa.
  intros [H1|([] & c1 & E1 & E)]%se_bind_inv; [by left|]. right. exists c1. split; [done|].
  match type of E with ?m c1 = _ => assert (keeps same_account m) as Hk end.
  { unfold device_entry. keeping. }
  specialize (Hk c1). by rewrite E in Hk.
Qed.

(** A device id is assigned once. *)
Lemma assign_new (c c' : Client N) :
  length (store_key (cl_store c)) = 32%nat → cl_device c = None → state_value "device_id" c = Ok JNull →
  assign_device_id c = (Ok tt, c') →
  ∃ id, cl_device c' = Some id ∧ id ≠ ""%string ∧ state_value "device_id" c' = Ok (JStr id) ∧
    cl_inbox c' = cl_inbox c ∧ cl_bundle c' = cl_bundle c ∧ cl_name c' = cl_name c ∧
    ∀ k, k ≠ "device_id"%string → state_value k c' = state_value k c.
Proof using L.
  intros Hk Hd Hv. unfold assign_device_id. rewrite se_get_run, Hd, (get_state_bind _ _ _ _ Hv). cbn [truthy].
  intros (o & c1 & E1 & E)%se_bind_Ok. apply se_bind_Ok in E1 as (b & c2 & [= Eb <-] & [= <- <-]).
  apply se_bind_Ok in E as ([] & c3 & [= <-] & E). set (id := Devices.new_device_id b) in *.
  assert (id ≠ ""%string) as Hid by (unfold id; rewrite <-Eb; apply RatchetSafety.b64e_nonempty).
  match type of E with set_state_ _ _ ?c0 = _ => set (c2 := c0) in E end.
  destruct (state_written "device_id" (JStr id) c2 Hk) as (c3 & E3 & Hv3 & Hi3 & _ & Hother).
  { apply b64e_utf8. }
  pose proof (sf_set_state "device_id" (JStr id) c2) as Hf.
  change (set_state_ "device_id" (JStr id) c2 = (Ok tt, c')) in E. rewrite E in E3, Hf. injection E3 as <-.
  destruct Hf as (_ & _ & H1 & H2 & H3 & H4). exists id. by split_and!.
Qed.
Lemma set_state_prekeys k v (c : Client N) : prekeys (cl_store (set_state_ k v c).2) = prekeys (cl_store c).
Proof using.
  unfold set_state_. rewrite se_get_run. erewrite se_bind_run by reflexivity.
  unfold on_store, set_state, se_bind, se_get, se_lift, se_put. cbn [cl_store set_env]. by destruct (seal _ _ _).
Qed.
Lemma assign_saved id (c c' : Client N) :
  cl_device c = None → id ≠ ""%string → state_value "device_id" c = Ok (JStr id) → assign_device_id c = (Ok tt, c') →
  cl_device c' = Some id ∧ cl_inbox c' = cl_inbox c ∧ cl_bundle c' = cl_bundle c ∧ cl_name c' = cl_name c ∧
  prekeys (cl_store c') = prekeys (cl_store c).
Proof using.
  intros Hd Hne Hv. unfold assign_device_id. rewrite se_get_run, Hd, (get_state_bind _ _ _ _ Hv). cbn [truthy].
  rewrite (proj2 (String.eqb_neq _ _) Hne). cbn [negb own_str]. rewrite se_lift_run.
  intros ([] & c1 & [= <-] & E)%se_bind_Ok.
  match type of E with set_state_ ?k ?v ?c0 = _ =>
    pose proof (sf_set_state k v c0) as Hf; pose proof (set_state_prekeys k v c0) as Hp end.
  rewrite E in Hf, Hp. cbn [snd] in Hf, Hp. destruct Hf as (_ & _ & H1 & H2 & H3 & H4). by split_and!.
Qed.

Lemma generate_prekeys_calm n : keeps (@calm N) (generate_prekeys n).
Proof using.
  assert (keeps (@calm N) keypair) by (unfold keypair; keeping).
  assert (∀ n i, keeps (@calm N) (generate_opks i n)).
  { intros m. induction m as [|m IH]; intros i; cbn [generate_opks]; keeping. }
  unfold generate_prekeys. keeping.
Qed.
Lemma publish_bundle_calm p : keeps (@calm N) (publish_bundle p).
Proof using. unfold publish_bundle, own_backend. keeping. Qed.
Lemma save_prekeys_calm v : keeps (@calm N) (save_prekeys_ v).
Proof using.
  assert (∀ n id, keeps calm_store (save_prekeys n id v)) by (intros n id s; unfold save_prekeys; by se_steps).
  unfold save_prekeys_. keeping.
Qed.
(** What a run keeps, read off its equation. *)
Lemma keeps_eq {S A} (R : S → S → Prop) (m : SE S A) s r s' : keeps R m → m s = (r, s') → R s s'.
Proof using. intros H E. specialize (H s). by rewrite E in H. Qed.

(** A new account is stored as it is run. *)
Lemma create_saved (c c' : Client N) :
  length (store_key (cl_store c)) = 32%nat → utf8_str (cl_name c) → create_account c = (Ok tt, c') →
  ∃ inbox b, cl_inbox c' = Some inbox ∧ cl_bundle c' = Some b ∧ cl_name c' = cl_name c ∧ cl_device c' = cl_device c ∧
    cl_identity c' = cl_identity c ∧ store_key (cl_store c') = store_key (cl_store c) ∧
    validate inbox = Ok tt ∧ state_value "inbox" c' = Ok (JObj (to_json inbox)) ∧
    state_value "bundle_id" c' = Ok (JStr b) ∧ state_value "name" c' = Ok (JStr (cl_name c)) ∧
    (state_value "device_id" c = Ok JNull → state_value "device_id" c' = Ok JNull).
Proof using L.
  intros Hk Hn. unfold create_account. rewrite se_get_run.
  intros (id & c1 & [= Eid <-] & E)%se_bind_Ok. apply se_bind_Ok in E as (w & c1 & [= Ew <-] & E).
  apply se_bind_Ok in E as (r & c1 & [= Er <-] & E). set (inbox := generate id w r) in *.
  assert (validate inbox = Ok tt) as Hv.
  { unfold validate. cbn [write_token read_token inbox generate].
    rewrite !validate_token_b64e; [done|..]; [rewrite <-Er|rewrite <-Ew]; reflexivity. }
  clear Eid Ew Er.
  match type of E with _ ?c0 = _ => set (c1 := c0) in E end.
  assert (same_fields c c1 ∧ calm c c1) as [Hf1 Hc1] by done. clearbody c1.
  apply se_bind_Ok in E as ([] & c2 & E2 & E).
  pose proof (keeps_eq _ _ _ _ _ (sf_on_net _) E2) as Hf2. pose proof (keeps_eq _ _ _ _ _ (calm_on_net _) E2) as Hc2.
  apply se_bind_Ok in E as (b & c3 & E3 & E).
  pose proof (keeps_eq _ _ _ _ _ (sf_urandom _) E3) as Hf3. pose proof (keeps_eq _ _ _ _ _ (calm_urandom _) E3) as Hc3.
  apply se_bind_Ok in E as ([] & c4 & [= <-] & E).
  match type of E with _ ?c0 = _ => set (c4 := c0) in E end.
  assert (same_fields c c3 ∧ calm c c3) as [(Hi & Hkey & _ & _ & Hnm & Hdv) Hc] by (split; repeat (etrans; [eassumption|]); done).
  assert (calm c c4) as Hcalm by exact Hc.
  apply se_bind_Ok in E as (p & c5 & E5 & E). apply se_bind_Ok in E as ([] & c6 & E6 & E).
  apply se_bind_Ok in E as ([] & c7 & E7 & E).
  assert (same_fields c4 c7 ∧ calm c4 c7) as [Hf7 Hc7].
  { pose proof (keeps_eq _ _ _ _ _ (generate_prekeys_sf _) E5). pose proof (keeps_eq _ _ _ _ _ (generate_prekeys_calm _) E5).
    pose proof (keeps_eq _ _ _ _ _ (sf_save_prekeys _) E6). pose proof (keeps_eq _ _ _ _ _ (save_prekeys_calm _) E6).
    pose proof (keeps_eq _ _ _ _ _ (publish_bundle_sf _) E7). pose proof (keeps_eq _ _ _ _ _ (publish_bundle_calm _) E7).
    split; repeat (etrans; [eassumption|]); done. }
  destruct Hf7 as (Hi7 & Hk7 & Hin7 & Hb7 & Hn7 & Hd7).
  assert (length (store_key (cl_store c7)) = 32%nat) as Hk7' by (rewrite Hk7; change (cl_store c4) with (cl_store c3); by rewrite Hkey).
  apply se_bind_Ok in E as ([] & c8 & E8 & E). apply se_bind_Ok in E as ([] & c9 & E9 & E).
  destruct (state_written "inbox" (JObj (to_json inbox)) c7 Hk7') as (x & Ex & Hv8 & _ & Hk8 & Ho8).
  { unfold to_json, inbox. cbn [read_token generate app mailbox_id write_token]. apply wf_dict_elems.
    split; [solve_nodup|]. repeat constructor; apply b64e_utf8. }
  rewrite E8 in Ex. injection Ex as <-. rewrite <-Hk8 in Hk7'.
  destruct (state_written "bundle_id" (JStr (b64e b)) c8 Hk7') as (x & Ex & Hv9 & _ & Hk9 & Ho9); [apply b64e_utf8|].
  rewrite E9 in Ex. injection Ex as <-. rewrite <-Hk9 in Hk7'.
  destruct (state_written "name" (JStr (cl_name c)) c9 Hk7') as (x & Ex & Hv10 & _ & Hk10 & Ho10); [exact Hn|].
  rewrite E in Ex. injection Ex as <-.
  assert (same_fields c7 c') as (Hi' & Hk' & Hin' & Hb' & Hn' & Hd').
  { pose proof (keeps_eq _ _ _ _ _ (sf_set_state _ _) E8). pose proof (keeps_eq _ _ _ _ _ (sf_set_state _ _) E9).
    pose proof (keeps_eq _ _ _ _ _ (sf_set_state _ _) E). repeat (etrans; [eassumption|]); done. }
  exists inbox, (b64e b). split_and!.
  - by rewrite Hin', Hin7.
  - by rewrite Hb', Hb7.
  - by rewrite Hn', Hn7.
  - rewrite Hd', Hd7. exact Hdv.
  - rewrite Hi', Hi7. exact Hi.
  - rewrite Hk', Hk7. exact Hkey.
  - exact Hv.
  - rewrite Ho10, Ho9 by done. exact Hv8.
  - rewrite Ho10 by done. exact Hv9.
  - exact Hv10.
  - intros H. rewrite Ho10, Ho9, Ho8 by done. by rewrite (calm_value _ _ _ Hc7), (calm_value _ _ _ Hcalm).
Qed.

(** Provisioning, in two halves: the account, then what is published of it. *)
Lemma provision_run m (c c' : Client N) :
  state_value "inbox" c = Ok m → provision c = (Ok tt, c') →
  ∃ c1 c2 c3, (if truthy m then load_account m else create_account) c = (Ok tt, c1) ∧
    same_account c1 c2 ∧ assign_device_id c2 = (Ok tt, c3) ∧ same_account c3 c'.
Proof using.
  intros Hv E. unfold provision in E. rewrite (get_state_bind _ _ _ _ Hv) in E.
  apply se_bind_Ok in E as ([] & c1 & E1 & E). apply se_bind_Ok in E as ([] & c2 & E2 & E).
  apply (keeps_eq _ _ _ _ _ make_card_sa) in E2.
  apply register_run in E as [(e & _ & [=])|(c3 & E3 & H3)]. by exists c1, c2, c3.
Qed.

Lemma to_json_truthy inbox : truthy (JObj (to_json inbox)) = true.
Proof using. unfold to_json. by destruct (read_token inbox). Qed.
Lemma load_account_run j inbox b n (c : Client N) :
  from_json j true = Ok inbox → state_value "bundle_id" c = Ok (JStr b) → state_value "name" c = Ok (JStr n) →
  n ≠ ""%string →
  load_account j c = register_existing inbox (set_account (Some inbox) (Some b) n c).
Proof using.
  intros Hj Hb Hn Hne. unfold load_account. rewrite Hj, se_lift_run.
  rewrite (se_bind_run _ _ _ (Some b) c) by (by rewrite (get_state_bind _ _ _ _ Hb)).
  rewrite (se_bind_run _ _ _ (Some n) c) by (by rewrite (get_state_bind _ _ _ _ Hn)).
  rewrite se_get_run, (proj2 (String.eqb_neq _ _) Hne). done.
Qed.

Lemma same_account_value (c c' : Client N) k : same_account c c' → k ∈ account_keys → state_value k c' = state_value k c.
Proof using. intros (_ & _ & H). auto. Qed.
Lemma saved_same (c c' : Client N) : same_account c c' → saved c → saved c'.
Proof using.
  intros H (inbox & b & id & H1 & H2 & H3 & H4 & H5 & H6 & H7 & H8 & H9).
  destruct H as ((Hi & Hk & E1 & E2 & E3 & E4) & _ & Hv). exists inbox, b, id. rewrite E1, E2, E3, E4.
  rewrite !Hv by (apply (bool_decide_unpack _); exact I). by split_and!.
Qed.

(** A provisioned client is saved. *)
Lemma provision_saved (c c' : Client N) :
  wf_store (cl_store c) → utf8_str (cl_name c) →
  cl_device c = None → state_value "inbox" c = Ok JNull → state_value "device_id" c = Ok JNull →
  provision c = (Ok tt, c') → saved c' ∧ cl_name c' = cl_name c.
Proof using L.
  intros Hwf Hn Hdev Hin Hid (c1 & c2 & c3 & E1 & H12 & E3 & H3)%(provision_run _ _ _ Hin). cbn [truthy] in E1.
  destruct (create_saved _ _ (ws_key _ Hwf) Hn E1) as (inbox & b & Ei & Eb & En & Ed & _ & Ek & Hv & V1 & V2 & V3 & V4).
  pose proof (same_account_value _ _ "device_id" H12 ltac:(apply (bool_decide_unpack _); exact I)) as Vd.
  rewrite (V4 Hid) in Vd. destruct H12 as ((_ & Hk2 & Ei2 & Eb2 & En2 & Ed2) & _ & Hv2).
  destruct (assign_new c2 c3) as (id & A1 & A2 & A3 & A4 & A5 & A6 & A7); try done.
  { rewrite Hk2, Ek. apply (ws_key _ Hwf). }
  { congruence. }
  split.
  - apply (saved_same _ _ H3). exists inbox, b, id. split_and!; try congruence;
      rewrite A7, Hv2 by (done || (apply (bool_decide_unpack _); exact I)); try done. congruence.
  - destruct H3 as ((_ & _ & _ & _ & En3 & _) & _). congruence.
Qed.

(** C20: an account is created once.  After a client without an account has provisioned one,
    any later process on the same store, whatever its settings, its network, its clock or
    its random bytes, provisions the same account: the same mailbox with the same tokens, the
    same bundle id, name and device id, and the same prekeys. *)
Theorem account_survives (c c1 c2 c3 : Client N) :
  wf_store (cl_store c) → utf8_str (cl_name c) → cl_name c ≠ ""%string →
  cl_device c = None → state_value "inbox" c = Ok JNull → state_value "device_id" c = Ok JNull →
  provision c = (Ok tt, c1) →
  cl_identity c2 = cl_identity c1 → cl_store c2 = cl_store c1 → cl_device c2 = None →
  provision c2 = (Ok tt, c3) →
  cl_inbox c3 = cl_inbox c1 ∧ cl_bundle c3 = cl_bundle c1 ∧ cl_name c3 = cl_name c1 ∧ cl_device c3 = cl_device c1 ∧
  prekeys (cl_store c3) = prekeys (cl_store c1) ∧ (∃ inbox id, cl_inbox c1 = Some inbox ∧ cl_device c1 = Some id).
Proof using L.
  intros Hwf Hn Hne Hdev Hin Hid E1 Hi2 Hs2 Hd2 E2.
  destruct (provision_saved _ _ Hwf Hn Hdev Hin Hid E1) as [(inbox & b & id & F1 & F2 & F3 & Hid' & Hval & V1 & V2 & V3 & V4) Hname].
  assert (∀ k, state_value k c2 = state_value k c1) as Hsame by (intros k; unfold state_value, me; by rewrite Hi2, Hs2).
  rewrite <-Hsame in V1, V2, V3, V4. destruct (provision_run _ _ _ V1 E2) as (c4 & c5 & c6 & E4 & H45 & E6 & H6).
  rewrite (to_json_truthy inbox) in E4.
  rewrite (load_account_run _ inbox b (cl_name c1)) in E4; [|pose proof (from_json_canon false inbox true Hval) as E;
    by rewrite canon_false in E|done|done|congruence].
  apply (keeps_eq _ _ _ _ _ (register_existing_sa _)) in E4. pose proof (transitivity E4 H45) as H25.
  pose proof (same_account_value _ _ "device_id" H25 ltac:(apply (bool_decide_unpack _); exact I)) as Vd.
  change (state_value "device_id" (set_account (Some inbox) (Some b) (cl_name c1) c2)) with (state_value "device_id" c2) in Vd.
  rewrite V4 in Vd. destruct H25 as ((_ & _ & G1 & G2 & G3 & G4) & Gp & _). cbn [cl_inbox cl_bundle cl_name cl_device set_account cl_store] in *.
  destruct (assign_saved id c5 c6 ltac:(congruence) Hid' Vd E6) as (D1 & D2 & D3 & D4 & D5).
  destruct H6 as ((_ & _ & K1 & K2 & K3 & K4) & Kp & _). split_and!; try congruence. by exists inbox, id.
Qed.
End restart.

(** ** Concrete accounts *)

Import Toy ClientProps.Sample.

Definition sample_state : state_t :=
  {| st_devices := [Devices.sample_entry]; st_outbound := [("phone"%string, Session.sample_session)]; st_inbound := [] |}.
Lemma sample_state_wf : wf_state sample_state.
Proof.
  split; [constructor; [apply Devices.sample_entry_wf|constructor]|split; split].
  - apply (bool_decide_unpack _). exact I.
  - constructor; [split; [reflexivity|apply Session.sample_session_wf]|constructor].
  - constructor.
  - constructor.
Qed.
Definition with_contact : Client relay :=
  let c := new_client 3 sample_store empty_relay in
  set_store (run_op (UpsertContact sample_iv 1 (me c) sample_contact) (cl_store c)) c.
Lemma with_contact_wf : wf_store (cl_store with_contact).
Proof. apply run_op_wf, sample_store_wf. Qed.

Lemma sessions_survive_witness :
  let '(r, c') := save_state "c" sample_state with_contact in
  let k := stored_contact (me with_contact) None sample_contact in
  r = Ok tt ∧
  (∃ k', (get_contact (me with_contact) "c" (cl_store c')).1 = Ok (Some k') ∧
         k' = resession (state_json sample_state) k ∧ load_state k' = Ok sample_state) ∧
  ∀ id cid, (id, cid) ≠ (me with_contact, "c"%string) →
    (get_contact id cid (cl_store c')).1 = (get_contact id cid (cl_store with_contact)).1.
Proof.
  destruct (save_state "c" sample_state with_contact) as [r c'] eqn:E. intros k.
  apply (sessions_survive "c" sample_state k with_contact r c').
  - apply with_contact_wf.
  - apply sample_state_wf.
  - vm_compute. reflexivity.
  - exact E.
Defined.

(** The first run, and a later process with another seed, name and relay. *)
Definition first_run : Client relay := new_client 3 sample_store empty_relay.
Definition first_done : Client relay := (provision first_run).2.
Definition later_run : Client relay :=
  {| cl_identity := cl_identity first_done; cl_store := cl_store first_done; cl_relays := ["https://q"%string]; cl_name := "other"; cl_opk_count := 5;
     cl_inbox := None; cl_bundle := None; cl_card := None; cl_device := None; cl_siblings := ∅; cl_list := None;
     cl_index := None; cl_net := empty_relay; cl_env := env 77 |}.
Lemma account_survives_witness :
  let c1 := first_done in
  let c3 := (provision later_run).2 in
  cl_inbox c3 = cl_inbox c1 ∧ cl_bundle c3 = cl_bundle c1 ∧ cl_name c3 = cl_name c1 ∧ cl_device c3 = cl_device c1 ∧
  prekeys (cl_store c3) = prekeys (cl_store c1) ∧ (∃ inbox id, cl_inbox c1 = Some inbox ∧ cl_device c1 = Some id).
Proof.
  intros c1 c3. apply (account_survives first_run c1 later_run c3).
  - apply sample_store_wf.
  - reflexivity.
  - discriminate.
  - reflexivity.
  - reflexivity.
  - reflexivity.
  - rewrite (surjective_pairing (provision _)). apply (f_equal2 pair); [vm_compute; reflexivity|exact (eq_refl first_done)].
  - exact (eq_refl (cl_identity first_done)).
  - exact (eq_refl (cl_store first_done)).
  - exact (eq_refl None).
  - rewrite (surjective_pairing (provision _)). apply (f_equal2 pair); [vm_compute; reflexivity|exact (eq_refl c3)].
Defined.
