(* ===== verification/Delivery.v ===== *)
(** * Delivery: theorems

    A text from one client to another: what the sender's devices put on the network is
    what the receiver's client, on the session that matches or on the handshake the message
    carries, opens, stores and shows. *)

From S2P Require Import Prelude PyStr Json JsonProps Primitives Dict Encoding Sql Store StoreProps Backend ClientState Sync Client NetRuns ClientProps ClientRuns QuietOps Receiving.
From S2P Require Identity Kdf Prekeys X3dh Ratchet RatchetChain RatchetSession RatchetWorld Padding Protocol Card Devices DeviceChannel Session.

(** ** What stays while a message is on its way *)

(** The account, its card and relays, the messages and what is drawn from outside stay. *)
Definition steady {N} (c c' : Client N) : Prop :=
  quiet c c' ∧ cl_card c' = cl_card c ∧ cl_relays c' = cl_relays c ∧
  tape (cl_env c') = tape (cl_env c) ∧ clock (cl_env c') = clock (cl_env c).
#[export] Instance steady_preorder {N} : PreOrder (@steady N).
Proof.
  split; [by intros c|]. intros c1 c2 c3 (?&?&?&?&?) (?&?&?&?&?). split; [by etrans|]. split_and!; congruence.
Qed.

Section steady_ops.
Context {C : Crypto} {Zl : Zlib} {N : Type} {P : Pool N}.
Abbreviation st := (keeps (@steady N)).
Lemma steady_on_store {A} (m : SE LocalStore A) : keeps quiet_store m → st (on_store m).
Proof using. intros Hm c. unfold on_store. specialize (Hm (cl_store c)). by destruct (m (cl_store c)). Qed.
Lemma steady_on_net {A} (m : SE N A) : st (on_net m).
Proof using. intros c. unfold on_net. by destruct (m (cl_net c)). Qed.
Lemma steady_urandom n : st (urandom n). Proof using. done. Qed.
Lemma steady_now_ms : st now_ms. Proof using. done. Qed.
Lemma steady_pads : st pad_choices. Proof using. done. Qed.
End steady_ops.
#[export] Hint Resolve steady_on_store steady_on_net steady_urandom steady_now_ms steady_pads : keeps.

Section steady_client.
Context {C : Crypto} {Zl : Zlib} {N : Type} {P : Pool N}.
Abbreviation st := (keeps (@steady N)).
Lemma new_id_st : st new_id. Proof using. unfold new_id. keeping. Qed.
Lemma save_state_st k s : st (save_state k s). Proof using. unfold save_state. keeping. Qed.
Lemma store_card_st card n : st (store_card card n). Proof using. unfold store_card, upsert_contact_. keeping. Qed.
Lemma consume_opk_st o : st (consume_opk o). Proof using. unfold consume_opk, save_prekeys_. keeping. Qed.
Lemma start_session_st k d : st (start_session k d).
Proof using. unfold start_session, fetch_device_bundle, backend_for. keeping. Qed.
Lemma start_missing_st k ds o : st (start_missing k ds o).
Proof using. revert o. induction ds as [|d ds IH]; intros o; cbn [start_missing]; pose proof start_session_st; keeping. Qed.
Lemma ensure_outbound_st k s : st (ensure_outbound_sessions k s).
Proof using.
  pose proof start_missing_st. unfold ensure_outbound_sessions, peer_devices, fetch_peer_device_list, backend_for. keeping.
Qed.
End steady_client.
#[export] Hint Resolve new_id_st save_state_st store_card_st consume_opk_st : keeps.

(** ** Sending *)

Section sending.
Context {C : Crypto} {L : CryptoLaws C} {Zl : Zlib} {N : Type} {P : Pool N}.
Import RatchetChain.

(** A session that can seal: established, or with its handshake at hand. *)
Definition sendable (s : Session.Session) : Prop :=
  Session.established s = true ∨
  ∃ key init, Session.sk s = Some key ∧ Session.init s = JObj init ∧ wf_dict init.
(** The envelope on a session, and the handshake header that goes with it. *)
Definition dressed (i : Identity.Identity) (card : Card.ContactCard) (s : Session.Session) (envelope : dict) : dict * json :=
  match Session.established s, Session.sk s, Session.init s with
  | false, Some key, JObj init =>
      (dset "card" (JObj (Card.signed_dict card))
         (dset "auth" (JObj (X3dh.build_auth i (Session.sid s) init key)) envelope), JObj init)
  | _, _, _ => (envelope, JNull)
  end.

Lemma dress_run s envelope card (c : Client N) :
  cl_card c = Some card → sendable s →
  dress_envelope s envelope c = (Ok (dressed (cl_identity c) card s envelope), c).
Proof using.
  intros Hcard Hs. unfold dress_envelope, Session.is_pending, dressed.
  destruct Hs as [->|(key & init & Hk & Hi & _)]; [done|]. destruct (Session.established s); [done|]. cbn [negb].
  unfold handshake_of. rewrite Hk, Hi, se_lift_run, se_get_run. unfold get_card.
  assert (ensure_provisioned c = (Ok tt, c)) as Ep by (unfold ensure_provisioned; by rewrite se_get_run, Hcard).
  rewrite se_bind_assoc, (se_bind_run _ _ _ _ _ Ep), se_bind_assoc, se_get_run. unfold se_some. by rewrite Hcard.
Qed.
Lemma dressed_wf i card s envelope :
  sendable s → wf_dict envelope → wf_dict (Card.signed_dict card) →
  wf_dict (dressed i card s envelope).1 ∧ wf_json utf8_str (dressed i card s envelope).2.
Proof using.
  intros Hs He Hc. unfold dressed, sendable in *. destruct (Session.established s); [done|].
  destruct Hs as [|(key & init & -> & -> & Hi)]; [done|]. split; [|done].
  apply wf_dset; [done|done|]. apply wf_dset; [done| |done].
  assert (wf_dict (X3dh.build_auth i (Session.sid s) init key)) as Ha; [|exact Ha].
  pose proof (Card.identity_id_utf8 (Identity.ed_public_bytes i) (Identity.x_public_bytes i)).
  unfold X3dh.build_auth. solve_wf; auto using b64e_utf8.
Qed.
Lemma dressed_get i card s envelope k :
  k ≠ "card"%string → k ≠ "auth"%string → dget k (dressed i card s envelope).1 = dget k envelope.
Proof using.
  intros H1 H2. unfold dressed. destruct (Session.established s), (Session.sk s), (Session.init s); try done.
  cbn [fst]. by rewrite !dget_dset_ne.
Qed.

(** The blob: message [n] of the chain [ck] under [pub], sealed in session [sid]. *)
Definition carries (sid pub ck : bytes) (n : nat) (envelope : dict) (init : json) (blob : bytes) : Prop :=
  ∃ data nonce ct pn,
    Padding.unpad_envelope data = Ok (canon_dict true (dpop "pad" envelope)) ∧
    blob = Protocol.build_wire sid (JObj (Ratchet.header pub pn (Z.of_nat n))) nonce ct init ∧
    is_packet pub ck pn n
      {| p_header := canon true (JObj (Ratchet.header pub pn (Z.of_nat n))); p_nonce := nonce; p_cipher := ct;
         p_ad := canon true init; p_plain := data |}.
(** The blob was accepted for the device's mailbox by the relays the device lists. *)
Definition posted (d : Devices.DeviceEntry) (blob : bytes) (c c' : Client N) : Prop :=
  ∃ urls capability,
    relay_list (device_relays d) = Ok urls ∧ device_capability d = Ok capability ∧
    pool_put (match urls with [] => cl_relays c | _ => urls end) capability blob (cl_net c) = (Ok tt, cl_net c').

Lemma send_envelope_inv d s envelope kind card pub ck n (c : Client N) blob s' c' :
  cl_card c = Some card → wf_dict (Card.signed_dict card) → sendable s → wf_dict envelope →
  send_at (Session.ratchet s) pub ck n →
  send_envelope d s envelope kind c = (Ok (blob, s'), c') →
  let sent := dressed (cl_identity c) card s envelope in
  posted d blob c c' ∧ steady c c' ∧ carries (Session.sid s) pub ck n sent.1 sent.2 blob.
Proof using L.
  intros Hcard Hwc Hs He Hst E sent. destruct (dressed_wf (cl_identity c) card s envelope Hs He Hwc) as [He' Hi']. fold sent in He', Hi'.
  unfold send_envelope in E. rewrite (se_bind_run _ _ _ _ _ (dress_run s envelope card c Hcard Hs)) in E. fold sent in E.
  destruct sent as [env' init]. cbn [fst snd] in *.
  erewrite se_bind_run in E by reflexivity. erewrite se_bind_run in E by reflexivity.
  match type of E with context [Protocol.seal ?r ?nn _ _ _ ?m _] => set (rnd := r) in E; set (nonce := nn) in E; set (max := m) in E end.
  destruct (Protocol.seal rnd nonce env' (Session.sid s) init max (Session.ratchet s)) as [[b|e] rt] eqn:Es; [|done].
  rewrite se_lift_run in E. unfold backend_for in E. rewrite se_bind_assoc, se_get_run, se_bind_assoc in E.
  destruct (relay_list (device_relays d)) as [urls|] eqn:Er; [|done]. rewrite se_lift_run in E.
  erewrite se_bind_run in E by reflexivity.
  destruct (device_capability d) as [cap|] eqn:Ec; [|done]. rewrite se_lift_run in E.
  unfold se_bind, on_net in E. cbn [cl_net cl_relays set_env] in E.
  destruct (pool_put _ _ _ _) as [[[]|e] net'] eqn:Ep; [|done]. injection E as <- <- <-.
  split_and!; [by exists urls, cap|done|].
  apply (Protocol.seal_spec _ _ _ _ _ _ _ pub ck n) in Es as [_ (data & ct & Ed & -> & _ & Hp)];
    [|done|by eapply wf_nodup|unfold nonce; by rewrite length_map, length_seq].
  exists data, nonce, ct, (Ratchet.prev_send_count (Session.ratchet s)). split_and!; [|done|done].
  by apply Padding.pad_envelope_Ok in Ed as [Eu _].
Qed.

Lemma aget_aset_ne {A} k k' (v : A) l : k ≠ k' → aget k (aset k' v l) = aget k l.
Proof using.
  intros Hne. induction l as [|[k2 v2] l IH]; cbn [aset aget].
  - by rewrite (proj2 (String.eqb_neq _ _) Hne).
  - destruct (String.eqb_spec k' k2) as [<-|]; cbn [aget]; [|by rewrite IH].
    by rewrite (proj2 (String.eqb_neq _ _) Hne).
Qed.
Lemma posted_run d blob (c c' : Client N) : posted d blob c c' → net_run c c'.
Proof using.
  intros (urls & capability & _ & _ & E). unfold net_run.
  pose proof (step_put (match urls with [] => cl_relays c | _ => urls end) capability blob (cl_net c)) as H.
  rewrite E in H. by apply relations.rtc_once.
Qed.

(** A fan-out that ends sent every device its copy, each on the session of that device. *)
Lemma fan_out_inv card ds sessions envelope kind (c : Client N) r c' :
  cl_card c = Some card → wf_dict (Card.signed_dict card) → wf_dict envelope → NoDup (map Devices.device_id ds) →
  (∀ d s, d ∈ ds → aget (Devices.device_id d) sessions = Some s → sendable s ∧ ∃ pub ck n, send_at (Session.ratchet s) pub ck n) →
  fan_out ds sessions (λ _, Ok envelope) kind c = (Ok r, c') →
  net_run c c' ∧
  ∀ d, d ∈ ds → ∃ s blob c1 c2, aget (Devices.device_id d) sessions = Some s ∧ posted d blob c1 c2 ∧
    cl_relays c1 = cl_relays c ∧ net_run c c1 ∧ net_run c2 c' ∧
    let sent := dressed (cl_identity c) card s envelope in
    ∀ pub ck n, send_at (Session.ratchet s) pub ck n → carries (Session.sid s) pub ck n sent.1 sent.2 blob.
Proof using L.
  intros Hcard Hwc He. revert sessions c r Hcard. induction ds as [|d ds IH]; intros sessions c r Hcard Hnd Hss E.
  { injection E as _ <-. split; [done|]. intros d Hd. by apply not_elem_of_nil in Hd. }
  cbn [map] in Hnd. apply NoDup_cons in Hnd as [Hd Hnd]. cbn [fan_out] in E.
  destruct (aget (Devices.device_id d) sessions) as [s|] eqn:Es; [|done]. cbn [of_option] in E. rewrite !se_lift_run in E.
  apply se_bind_Ok in E as ([blob s'] & c1 & E1 & E). apply se_bind_Ok in E as ([res sessions'] & c2 & E2 & [= <- <-]).
  destruct (Hss d s ltac:(by left) Es) as [Hs (pub & ck & n & Hst)].
  pose proof (send_envelope_inv _ _ _ _ _ _ _ _ _ _ _ _ Hcard Hwc Hs He Hst E1) as (Hp & Hc1 & _).
  pose proof (posted_run _ _ _ _ Hp) as Hr1.
  assert (∀ y, y ∈ ds → aget (Devices.device_id y) (aset (Devices.device_id d) s' sessions) = aget (Devices.device_id y) sessions) as Hne.
  { intros y Hy. apply aget_aset_ne. intros Heq. apply Hd, list_elem_of_fmap. exists y. by rewrite <-Heq. }
  destruct Hc1 as ((Hi & _) & Hcard1 & Hrel & _).
  destruct (λ H, IH _ c1 _ (eq_trans Hcard1 Hcard) Hnd H E2) as [Hr2 Hx].
  { intros y sy Hy Hsy. rewrite Hne in Hsy by done. apply (Hss y); [by right|done]. }
  split; [by etrans|]. intros x [->|Hin]%elem_of_cons.
  - exists s, blob, c, c1. split_and!; [done..|]. intros sent pub' ck' n' Hst'.
    by pose proof (send_envelope_inv _ _ _ _ _ _ _ _ _ _ _ _ Hcard Hwc Hs He Hst' E1) as (_ & _ & Hcar).
  - destruct (Hx x Hin) as (sx & bx & cx & cx' & H1 & H2 & H3 & H4 & H5 & H6).
    exists sx, bx, cx, cx'. rewrite <-Hi, <-Hrel, <-(Hne x Hin). split_and!; [done..|by etrans|done|done].
Qed.
End sending.

(** ** Opening *)

Section opening.
Context {C : Crypto} {L : CryptoLaws C}.
Import RatchetChain RatchetSession.

Lemma wire_not_record sid hdr nonce ct init :
  DeviceChannel.is_device_record (Protocol.build_wire sid hdr nonce ct init) = false.
Proof using.
  unfold DeviceChannel.is_device_record. rewrite bool_decide_eq_false_2; [apply andb_false_r|].
  unfold Protocol.build_wire, canonical_json, dumps.
  rewrite dumps_at_obj by (unfold Protocol.wire_dict; by destruct (Protocol.is_none init)).
  generalize (f_open fmt_canonical 0). intros l E. apply (f_equal (hd "0"%char)) in E. discriminate E.
Qed.
Lemma carries_wire sid pub ck n envelope init blob :
  carries sid pub ck n envelope init blob → wf_json utf8_str init →
  DeviceChannel.is_device_record blob = false ∧
  ∃ wire, Protocol.parse_wire blob = Ok wire ∧ (let? j := jitem "sid" (JObj wire) in b64d_json j) = Ok sid ∧
    jget "init" (JObj wire) = Ok (canon true init).
Proof using.
  intros (data & nonce & ct & pn & _ & -> & _) Hi. split; [apply wire_not_record|].
  destruct (Protocol.wire_dict_views sid (JObj (Ratchet.header pub pn (Z.of_nat n))) nonce ct init) as (E0 & _ & _ & _ & E4 & E5);
    [apply Protocol.header_wf|done|]. eexists. split_and!; [exact E0| |exact E5].
  rewrite E4. cbn [res_bind b64d_json]. apply b64d_b64e.
Qed.
(** A ratchet that decrypts the packet opens the blob. *)
Lemma carries_open fresh sid pub ck n envelope init blob R :
  carries sid pub ck n envelope init blob → wf_json utf8_str init →
  (∀ pn p, is_packet pub ck pn n p → ∃ R', decrypt_p fresh p R = (Ok (p_plain p), R')) →
  ∃ R', Protocol.unseal fresh blob R = (Ok (canon_dict true (dpop "pad" envelope), sid, canon true init), R').
Proof using.
  intros (data & nonce & ct & pn & Eu & -> & Hp) Hi Hd. destruct (Hd _ _ Hp) as (R' & E). exists R'.
  eapply Protocol.unseal_build; [apply Protocol.header_wf|done|exact E|exact Eu].
Qed.
End opening.

(** ** Storing *)

Section storing.
Context {C : Crypto} {L : CryptoLaws C} {Zl : Zlib} {N : Type} {P : Pool N}.

(** A client that can take the message [eid]: it has not got it, its clock is sane, and
    the ids it draws are not those of stored messages. *)
Record receptive (eid : string) (b : Client N) : Prop := {
  rc_store : wf_store (cl_store b);
  rc_new : existsb (holds_envelope (me b) eid) (messages (cl_store b)) = false;
  rc_clock : ∀ i, 1000 ≤ clock (cl_env b) i < 2 ^ 63;
  rc_ids : ∀ c : Client N, tape (cl_env c) = tape (cl_env b) →
    ∃ id, (new_id c).1 = Ok id ∧ existsb (is_message id) (messages (cl_store b)) = false
}.
(** The text is now in the client's messages, from [peer], and is returned.  (A run outside
    the model is set apart.) *)
Definition received (peer text eid : string) (ts : Z) (b : Client N) (out : res (option message) * Client N) : Prop :=
  ∃ id row,
    let m := received_message (me b) id peer (JStr "text") (JObj [("text"%string, JStr text)]) (JStr eid) ts in
    messages (cl_store out.2) = messages (cl_store b) ++ [row] ∧
    message_from_row (store_key (cl_store out.2)) row = Ok m ∧
    (out.1 = Ok (Some m) ∨ ∃ e, out.1 = Err e ∧ isa_Exception e = false).
Definition text_envelope (text eid : string) (ts : Z) : dict :=
  Protocol.make_envelope "text" (JObj [("text"%string, JStr text)]) eid ts JNull JNull.

Lemma process_text k text eid ts envelope (b b1 : Client N) :
  receptive eid b → steady b b1 → wf_store (cl_store b1) → eid ≠ ""%string → utf8_str text → int64 ts = true → ts ≠ 0 →
  NoDup (map fst envelope) →
  (∀ x, x ∈ ["type"; "id"; "body"; "ts"]%string → dget x envelope = dget x (text_envelope text eid ts)) →
  received (c_id k) text eid ts b (process_envelope k (canon_dict true (dpop "pad" envelope)) b1).
Proof using L.
  intros Hb Hq Hwf He Ht Hts Hz Hnd Henv.
  assert (∀ x v, dget x (text_envelope text eid ts) = Some v → x ∈ ["type"; "id"; "body"; "ts"]%string → x ≠ "pad"%string →
    dget x (canon_dict true (dpop "pad" envelope)) = Some (canon true v)) as Hget.
  { intros x v Hv Hx Hne. rewrite dget_canon by by apply dpop_nodup. rewrite dget_dpop_ne by done. by rewrite Henv, Hv. }
  unfold process_envelope. erewrite !(Hget "type"%string), !(Hget "id"%string), !(Hget "body"%string), !(Hget "ts"%string)
    by (reflexivity || (apply (bool_decide_unpack _); exact I) || discriminate).
  cbn [default from_option id canon].
  change (eq_str (JStr "text") "text" || eq_str (JStr "text") "file") with true. cbv iota.
  match goal with |- context [jor ?x _] => change (jor x (JObj [])) with (JObj [("text"%string, JStr text)]) end.
  destruct Hq as ((Hi & Hkey & Hm) & _ & _ & Htape & _). destruct Hb as [_ Hnew _ Hids].
  destruct (Hids b1 Htape) as (mid & Eid & Hmid). destruct (new_id b1) as [r1 c1] eqn:En. cbn [fst] in Eid. subst r1.
  assert (me b1 = me b) as Hme by (unfold me; by rewrite Hi).
  destruct (process_message k (JStr "text") (JStr eid) _ (JInt ts) b1) as [r b'] eqn:E.
  assert (wf_json utf8_str (JObj [("text"%string, JStr text)])) as Hbody by (solve_wf; done).
  apply (process_new _ _ _ _ _ _ mid c1) in E as (row & H1 & H2 & _ & H3);
    [|done..|by rewrite Hm|by rewrite Hme, Hm].
  rewrite Hme in *. rewrite Hm in H1. exists mid, row. by split_and!.
Qed.

Lemma save_state_run k s (b : Client N) : length (store_key (cl_store b)) = 32%nat → ∃ b', save_state k s b = (Ok tt, b').
Proof using.
  intros Hk. unfold save_state. rewrite se_get_run. erewrite se_bind_run by reflexivity.
  unfold on_store, set_contact_session, se_bind, se_get, se_lift, se_put, seal_opt, seal, Aead.encrypt, blen. cbn [cl_store set_env].
  rewrite Hk. eexists. reflexivity.
Qed.
(** Accepting an opened text: the session is saved, the message stored. *)
Lemma accept_text k st0 outbound key s text eid ts envelope (b b1 : Client N) :
  receptive eid b → steady b b1 → wf_store (cl_store b1) → eid ≠ ""%string → utf8_str text → int64 ts = true → ts ≠ 0 →
  NoDup (map fst envelope) →
  (∀ x, x ∈ ["type"; "id"; "body"; "ts"]%string → dget x envelope = dget x (text_envelope text eid ts)) →
  received (c_id k) text eid ts b (accept_envelope k st0 outbound key s (canon_dict true (dpop "pad" envelope)) b1).
Proof using L.
  intros Hb Hq Hwf He Ht Hts Hz Hnd Henv. unfold accept_envelope.
  destruct (save_state_run (c_id k) (put_session outbound key s st0) b1 (ws_key _ Hwf)) as (b2 & E).
  rewrite (se_bind_run _ _ _ _ _ E). pose proof (save_state_st (c_id k) (put_session outbound key s st0) b1) as H1.
  pose proof (save_state_ok (c_id k) (put_session outbound key s st0) b1) as (_ & [H2 _] & _). rewrite E in H1, H2. cbn [snd] in *.
  apply process_text; auto. by etrans.
Qed.
End storing.

(** ** A message on a session the receiver knows *)

Section known.
Context {C : Crypto} {L : CryptoLaws C} {Zl : Zlib} {N : Type} {P : Pool N}.
Import RatchetChain RatchetSession.

(** The receiver's session with the sender's wire id has the chain the sender is on, and
    the key of the sender's next message is ahead of it or stored. *)
Definition in_step (s : Session.Session) (b : Client N) (l : located) : Prop :=
  find_session (Session.sid s) b = (Ok (Some l), b) ∧
  ∃ pub ck n r, send_at (Session.ratchet s) pub ck n ∧ recv_at (Session.ratchet (lo_session l)) pub ck r ∧
    ready (Session.ratchet (lo_session l)) pub ck r n.

Lemma handle_item_message sid pub ck n envelope init blob relay seq (b : Client N) :
  carries sid pub ck n envelope init blob → wf_json utf8_str init →
  ∃ wire, jget "init" (JObj wire) = Ok (canon true init) ∧ (let? j := jitem "sid" (JObj wire) in b64d_json j) = Ok sid ∧
    handle_item {| fm_relay := relay; fm_seq := seq; fm_blob := blob |} b
    = se_catch isa_Exception None
        (do! found := find_session sid in
         match found with Some l => handle_known l blob | None => handle_first wire blob end) b.
Proof using.
  intros Hc Hi. destruct (carries_wire _ _ _ _ _ _ _ Hc Hi) as (Hr & wire & E1 & E2 & E3). exists wire. split_and!; [done..|].
  unfold handle_item. cbn [fm_blob]. rewrite Hr. unfold se_catch, handle_blob. by rewrite E1, se_lift_run, E2, se_lift_run.
Qed.

Lemma received_catch peer text eid ts (b b1 : Client N) m :
  received peer text eid ts b (m b1) → received peer text eid ts b (se_catch isa_Exception None m b1).
Proof using.
  unfold received, se_catch. destruct (m b1) as [[o|e] b2]; [done|]. intros (id & row & H1 & H2 & [H3|(e' & [= <-] & H3)]); [done|].
  exists id, row. rewrite H3. cbn [fst snd] in *. split_and!; [done..|]. right. by exists e.
Qed.

Lemma known_received l sid pub ck n init blob relay seq text eid ts envelope (b : Client N) :
  find_session sid b = (Ok (Some l), b) → carries sid pub ck n envelope init blob → wf_json utf8_str init →
  (∃ r, recv_at (Session.ratchet (lo_session l)) pub ck r ∧ ready (Session.ratchet (lo_session l)) pub ck r n) →
  receptive eid b → eid ≠ ""%string → utf8_str text → int64 ts = true → ts ≠ 0 → NoDup (map fst envelope) →
  (∀ x, x ∈ ["type"; "id"; "body"; "ts"]%string → dget x envelope = dget x (text_envelope text eid ts)) →
  received (c_id (lo_contact l)) text eid ts b (handle_item {| fm_relay := relay; fm_seq := seq; fm_blob := blob |} b).
Proof using L.
  intros Hf Hc Hi (r & Hr & Hrd) Hb He Ht Hts Hz Hnd Henv.
  destruct (handle_item_message _ _ _ _ _ _ _ relay seq b Hc Hi) as (wire & _ & _ & ->). apply received_catch.
  rewrite (se_bind_run _ _ _ _ _ Hf). unfold handle_known, unseal_with. rewrite se_bind_assoc. erewrite se_bind_run by reflexivity.
  match goal with |- context [Protocol.unseal ?f _ _] => set (fresh := f) end.
  match goal with |- context [se_bind _ _ ?c] => set (b1 := c) end.
  destruct (carries_open fresh _ _ _ _ _ _ _ (Session.ratchet (lo_session l)) Hc Hi) as (R' & ->).
  { intros pn p Hp. destruct (deliver_one fresh pub ck pn n p _ r Hr Hrd Hp) as (R' & _ & E & _). by exists R'. }
  rewrite se_lift_run. apply accept_text; try done. apply Hb.
Qed.
End known.

(** ** The first message of a session *)

Section authentication.
Context {C : Crypto} {L : CryptoLaws C}.

Lemma build_auth_canon i sid init key : nodup_keys (JObj init) →
  X3dh.build_auth i sid (canon_dict true init) key = X3dh.build_auth i sid init key.
Proof using.
  intros Hi. unfold X3dh.build_auth, X3dh.auth_message. rewrite <-canon_obj.
  by rewrite RatchetChain.canonical_json_canon.
Qed.
(** The sender's proof and card, opened from the envelope, give its card. *)
Lemma sender_card_dressed i bid box rs nm s envelope key init (s' : Session.Session) :
  Card.wf_create i bid box rs nm → wf_dict envelope → wf_dict init → Session.established s = false →
  Session.sk s = Some key → Session.init s = JObj init →
  Session.sid s' = Session.sid s → Session.sk s' = Some key → Session.init s' = canon true (JObj init) →
  let card := Card.create i bid box rs nm in
  sender_card s' (canon_dict true (dpop "pad" (dressed i card s envelope).1)) = Ok (Some (Card.as_read card)).
Proof using L.
  intros Hcr He Hin Hest Hk Hi Hsid Hk' Hi' card. pose proof (Card.created_wf _ _ _ _ _ Hcr) as Hcd. fold card in Hcd.
  assert (wf_dict (dressed i card s envelope).1) as Hw.
  { apply (dressed_wf i card s envelope); [|done..]. right. by exists key, init. }
  assert (∀ x v, dget x (dressed i card s envelope).1 = Some v → x ≠ "pad"%string →
    dget x (canon_dict true (dpop "pad" (dressed i card s envelope).1)) = Some (canon true v)) as Hget.
  { intros x v Hv Hne. rewrite dget_canon by (apply dpop_nodup; by apply wf_dict_nodup). by rewrite dget_dpop_ne, Hv. }
  unfold sender_card. rewrite Hk', Hi'. unfold dressed in Hget |- *. rewrite Hest, Hk, Hi in Hget |- *. cbn [fst] in Hget |- *.
  rewrite (Hget "card"%string (JObj (Card.signed_dict card))) by (by rewrite dget_dset || discriminate).
  rewrite (Hget "auth"%string (JObj (X3dh.build_auth i (Session.sid s) init key)))
    by (first [discriminate | by rewrite (dget_dset_ne "auth" "card"), dget_dset by discriminate]).
  cbn [default from_option id]. rewrite canon_obj. cbn [is_dict negb orb]. rewrite <-canon_obj.
  pose proof (X3dh.verify_build_auth i (Session.sid s) (canon_dict true init) key ltac:(apply Hcr)) as Ev.
  rewrite build_auth_canon in Ev by by eapply (wf_nodup utf8_str). rewrite (canon_obj true init), Hsid, Ev. cbn [res_bind negb].
  pose proof (Card.created_reads true _ _ _ _ _ Hcr) as Er. cbv zeta in Er. fold card in Er. rewrite Er.
  assert (NoDup (map fst (X3dh.build_auth i (Session.sid s) init key))) as Hnd.
  { unfold X3dh.build_auth. cbn [map fst]. solve_nodup. }
  rewrite (jget_canon true "id" _ (JStr (Identity.identity_id i))) by done. rewrite canon_str. cbn [res_bind eq_str].
  change (Card.card_id (Card.as_read card)) with (Identity.identity_id i). rewrite String.eqb_refl. cbn [negb].
  rewrite (jitem_canon true "isign" _ (JStr (b64e (Identity.ed_public_bytes i)))) by done. rewrite canon_str. cbn [res_bind b64d_json].
  rewrite b64d_b64e. cbn [res_bind]. by rewrite bool_decide_eq_true_2.
Qed.
End authentication.

Section opening_contact.
Context {C : Crypto} {L : CryptoLaws C} {Zl : Zlib} {N : Type} {P : Pool N}.

(** The card of a stranger becomes a contact without sessions. *)
Lemma store_card_new i bid box rs nm (b : Client N) :
  let card := Card.as_read (Card.create i bid box rs nm) in
  Card.wf_create i bid box rs nm → wf_store (cl_store b) → (∀ j, 1000 ≤ clock (cl_env b) j < 2 ^ 63) →
  (get_contact (me b) (Card.card_id card) (cl_store b)).1 = Ok None →
  ∃ k b', store_card card JNull b = (Ok k, b') ∧ c_id k = Card.card_id card ∧ c_session k = JNull.
Proof using L.
  intros card Hcr Hwf Hclock Hnone. unfold store_card. rewrite se_get_run.
  assert (on_store (get_contact (me b) (Card.card_id card)) b = (Ok None, b)) as E0.
  { apply on_store_read. rewrite get_contact_run in Hnone |- *. cbn [fst] in Hnone. by rewrite Hnone. }
  rewrite (se_bind_run _ _ _ _ _ E0). erewrite se_bind_run by reflexivity.
  match goal with |- context [se_bind _ _ ?c] => set (b1 := c) end.
  set (now := clock (cl_env b) (ticks (cl_env b)) / 1000). set (k0 := card_contact (me b) card JNull None None now).
  assert (storable_contact k0) as Hk0.
  { destruct Hcr as (_ & Hb & [Hx1 Hx2] & _ & _ & Hrs & Hn). specialize (Hclock (ticks (cl_env b))).
    assert (1 ≤ now < 2 ^ 63) as Hnow.
    { unfold now. split; [apply Z.div_le_lower_bound; lia|]. apply Z.div_lt_upper_bound; lia. }
    split_and!.
    - unfold k0, card_contact. cbn [c_nickname jor truthy]. change (Card.name card) with (if truthy nm then nm else JNull).
      destruct Hn as [->|(t & -> & _)]; cbn [truthy]; [by eexists (Some _)|].
      destruct (negb (String.eqb t "")) eqn:Et; [|by eexists (Some _)]. unfold jor. cbn [truthy]. rewrite Et. by exists (Some t).
    - by exists (Some bid).
    - change (wf_json utf8_str (JObj (card_view (write_only box)))). unfold card_view. solve_wf; done.
    - change (wf_json utf8_str (JList (map JStr rs))). cbn [wf_json]. rewrite map_map. by rewrite Forall_map.
    - done.
    - change (int64 now = true). unfold int64. lia.
    - change (now ≠ 0). lia. }
  unfold upsert_contact_. rewrite se_bind_assoc, se_get_run, se_bind_assoc. erewrite se_bind_run by reflexivity.
  rewrite se_bind_assoc. erewrite se_bind_run by reflexivity.
  match goal with |- context [upsert_contact ?n ?t _ _] => set (nonce := n); set (now' := t) end.
  assert (length nonce = 12%nat) as Hn by (unfold nonce; by rewrite length_map, length_seq).
  destruct (contact_row_reads (store_key (cl_store b)) nonce now' (me b) k0 (ws_key _ Hwf) Hn Hk0) as (row & Erow & _).
  destruct (store_reads_back (cl_store b) nonce nonce now' Hwf Hn Hn) as (Hread & _).
  specialize (Hread (me b) k0 Hk0) as [Hread _]. cbn [run_op] in Hread. rewrite (upsert_contact_run _ _ _ _ _ _ Erow) in Hread.
  cbn [snd] in Hread.
  match goal with |- context [on_store (upsert_contact ?n ?t ?i k0)] =>
    change (upsert_contact n t i k0) with (upsert_contact nonce now' (me b) k0) end.
  erewrite se_bind_run.
  2:{ unfold on_store. cbn [cl_store set_env b1]. rewrite (upsert_contact_run _ _ _ _ _ _ Erow). reflexivity. }
  erewrite se_bind_run.
  2:{ apply on_store_read. cbn [cl_store set_store]. rewrite get_contact_run in Hread |- *. cbn [fst] in Hread.
      change (Card.card_id card) with (c_id k0). rewrite Hread. reflexivity. }
  cbn [default from_option id]. eexists _, _. split; [reflexivity|]. done.
Qed.

(** The prekeys a handshake used can be taken out of the store. *)
Lemma consume_run v opk x (b : Client N) :
  length (store_key (cl_store b)) = 32%nat → prekeys_value b = Ok v → truthy v = true → opk_private v opk = Ok (Some x) →
  ∃ b', consume_opk opk b = (Ok tt, b').
Proof using.
  intros Hk Hv Ht Ho. destruct (decide (opk = JNull)) as [->|Hne]; [by exists b|].
  assert ((let? opks := jitem "opks" v in jget (to_pystr opk) opks) ≠ Ok JNull ∧
          ∃ e, (let? opks := jitem "opks" v in jget (to_pystr opk) opks) = Ok e) as [Hn (e & He)].
  { unfold opk_private in Ho. destruct opk; try done;
      (destruct (let? opks := jitem "opks" v in _) as [e|] eqn:E; [|done]; split; [|by exists e]; intros [= ->]; done). }
  assert (∃ d opks, v = JObj d ∧ jitem "opks" v = Ok (JObj opks)) as (d & opks & -> & Eo).
  { destruct v as [| | | |l|d]; cbn in Ht; try discriminate; try (by cbn in He).
    destruct (jitem "opks" (JObj d)) as [o|]; [|done]. cbn [res_bind] in He.
    destruct o as [| | | | |opks]; try done. by exists d, opks. }
  rewrite (consume_opk_named _ _ Hne).
  rewrite se_get_run, (load_prekeys_bind _ _ _ Hv), Ht. cbn [negb items_json]. rewrite se_lift_run, Eo. cbn [res_bind items_json].
  rewrite se_lift_run. destruct (default JNull _); try (by eexists);
    (unfold save_prekeys_; rewrite se_get_run; erewrite se_bind_run by reflexivity;
     unfold on_store, save_prekeys, se_bind, se_get, se_lift, se_put, seal, Aead.encrypt, blen; cbn [cl_store set_env];
     rewrite Hk; eexists; reflexivity).
Qed.
End opening_contact.

Section first.
Context {C : Crypto} {L : CryptoLaws C} {Zl : Zlib} {N : Type} {P : Pool N}.
Import RatchetChain RatchetSession.

(** What [begin_inbound] reads of a message that carries a handshake. *)
Definition handshake_wire (sid : bytes) (init : dict) : dict :=
  [("sid", JStr (b64e sid)); ("init", canon true (JObj init))]%string.
(** The client still has the keys the sender's handshake was made with: it derives the
    session's key, and the sender's next message is one of the first of the session. *)
Definition can_answer (s : Session.Session) (b : Client N) : Prop :=
  ∃ key init v spk opk pub mine ck n dh rk,
    Session.established s = false ∧ Session.sk s = Some key ∧ Session.init s = JObj init ∧ wf_dict init ∧
    prekeys_value b = Ok v ∧
    begin_inbound_ (cl_identity b) v (handshake_wire (Session.sid s) init)
    = Ok (Some (inbound_session (Session.sid s) key spk (x25519_public spk) (canon true (JObj init)), opk)) ∧
    send_at (Session.ratchet s) pub ck n ∧ Z.of_nat n ≤ Ratchet.MAX_SKIP ∧
    pub = x25519_public mine ∧ length mine = 32%nat ∧ length spk = 32%nat ∧
    x25519 spk pub = Ok dh ∧ Kdf.kdf_rk key dh = (rk, ck).

Lemma begin_inbound_wire i v sid init wire :
  jget "init" (JObj wire) = Ok (canon true (JObj init)) → (let? j := jitem "sid" (JObj wire) in b64d_json j) = Ok sid →
  begin_inbound_ i v wire = begin_inbound_ i v (handshake_wire sid init) ∧ dhas "init" wire = true.
Proof using.
  intros Hi Hs.
  assert (dget "init" wire = Some (canon true (JObj init))) as Hd.
  { cbn [jget] in Hi. destruct (dget "init" wire) as [x|]; [by injection Hi as ->|]. by rewrite canon_obj in Hi. }
  split; [|unfold dhas; by rewrite Hd]. unfold begin_inbound_, handshake_wire. cbn [jitem] in Hs |- *. rewrite Hd.
  destruct (dget "sid" wire) as [j|]; [|done]. cbn [of_option res_bind] in Hs |- *. rewrite Hs.
  cbn [dget fst snd String.eqb Ascii.eqb Bool.eqb of_option res_bind b64d_json]. by rewrite b64d_b64e.
Qed.
Lemma begin_inbound_opk i v wire s opk :
  begin_inbound_ i v wire = Ok (Some (s, opk)) → truthy v = true ∧ ∃ x, opk_private v opk = Ok (Some x).
Proof using.
  unfold begin_inbound_. intros (init & _ & E)%res_bind_Ok. destruct (truthy v); [|done]. cbn [negb] in E. split; [done|].
  apply res_bind_Ok in E as (a & _ & E). apply res_bind_Ok in E as (b & _ & E). destruct (negb (a =? b)); [done|].
  apply res_bind_Ok in E as (opk' & _ & E). apply res_bind_Ok in E as (x & Ex & E). destruct x as [x|]; [|done].
  apply res_bind_Ok in E as (key & _ & E). destruct key; [|done].
  apply res_bind_Ok in E as (? & _ & E). apply res_bind_Ok in E as (? & _ & E). apply res_bind_Ok in E as (? & _ & E).
  injection E as _ <-. by exists x.
Qed.

(** The ratchet of the session answered opens the packet. *)
Lemma answer_opens fresh sid key spk init pub mine ck n dh rk pn p :
  pub = x25519_public mine → length mine = 32%nat → length spk = 32%nat → length fresh = 32%nat →
  x25519 spk pub = Ok dh → Kdf.kdf_rk key dh = (rk, ck) → Z.of_nat n ≤ Ratchet.MAX_SKIP → is_packet pub ck pn n p →
  ∃ R', decrypt_p fresh p (Session.ratchet (inbound_session sid key spk (x25519_public spk) init)) = (Ok (p_plain p), R').
Proof using L.
  intros -> Hm Hs Hf Ed Ek Hn Hp. destruct (x25519_both fresh mine Hf Hm) as (dh2 & E2 & _ & _).
  destruct (Kdf.kdf_rk rk dh2) as [rk2 cks] eqn:E3.
  by apply (RatchetWorld.recv_first fresh _ spk (x25519_public mine) dh rk ck dh2 rk2 cks pn n p).
Qed.

(** The stranger's first message makes a contact and a message. *)
Lemma first_received i bid box rs nm s envelope blob relay seq text eid ts (b : Client N) :
  let card := Card.create i bid box rs nm in
  let sent := dressed i card s envelope in
  Card.wf_create i bid box rs nm → envelope = text_envelope text eid ts → wf_dict envelope →
  (∀ pub ck n, send_at (Session.ratchet s) pub ck n → carries (Session.sid s) pub ck n sent.1 sent.2 blob) →
  find_session (Session.sid s) b = (Ok None, b) → (get_contact (me b) (Card.card_id card) (cl_store b)).1 = Ok None →
  can_answer s b → receptive eid b → eid ≠ ""%string → utf8_str text → int64 ts = true → ts ≠ 0 →
  received (Card.card_id card) text eid ts b (handle_item {| fm_relay := relay; fm_seq := seq; fm_blob := blob |} b).
Proof using L.
  intros card sent Hcr Henv Hwe Hc Hf Hnone Ha Hb He Ht Hts Hz.
  destruct Ha as (key & init & v & spk & opk & pub & mine & ck & n & dh & rk & Hest & Hsk & Hin & Hwi & Hv & Hbeg & Hst & Hn & Hpub & Hmine & Hspk & Hdh & Hrk).
  specialize (Hc _ _ _ Hst). assert (sent.2 = JObj init) as Hs2 by (unfold sent, dressed; by rewrite Hest, Hsk, Hin).
  rewrite Hs2 in Hc. destruct (handle_item_message _ _ _ _ _ _ _ relay seq b Hc Hwi) as (wire & Hwi1 & Hwi2 & ->).
  apply received_catch. rewrite (se_bind_run _ _ _ _ _ Hf). unfold handle_first.
  destruct (begin_inbound_wire (cl_identity b) v _ _ _ Hwi1 Hwi2) as [Hsame ->]. cbn [negb]. rewrite <-Hsame in Hbeg.
  destruct (begin_inbound_opk _ _ _ _ _ Hbeg) as (Htv & x & Hopk).
  set (s' := inbound_session _ _ _ _ _) in Hbeg.
  assert (begin_inbound wire b = (Ok (Some (s', opk)), b)) as Eb.
  { unfold begin_inbound. rewrite se_get_run, (load_prekeys_bind _ _ _ Hv). unfold se_lift. by rewrite Hbeg. }
  rewrite (se_bind_run _ _ _ _ _ Eb). unfold unseal_with. rewrite se_bind_assoc. erewrite se_bind_run by reflexivity.
  match goal with |- context [Protocol.unseal ?f _ _] => set (fresh := f) end.
  match goal with |- context [se_bind _ _ ?c] => set (b1 := c) end.
  assert (length fresh = 32%nat) as Hfr by (unfold fresh; by rewrite length_map, length_seq).
  destruct (carries_open fresh _ _ _ _ _ _ _ (Session.ratchet s') Hc Hwi) as (R' & ->).
  { intros pn p Hp. by eapply answer_opens. }
  rewrite se_lift_run. unfold finish_inbound. rewrite se_bind_assoc.
  pose proof (sender_card_dressed i bid box rs nm s envelope key init (with_ratchet R' s') Hcr Hwe Hwi Hest Hsk Hin eq_refl eq_refl eq_refl) as Ecard.
  cbv zeta in Ecard. fold card in Ecard. fold sent in Ecard. rewrite Ecard, se_lift_run, se_bind_assoc.
  destruct (store_card_new i bid box rs nm b1 Hcr (rc_store _ _ Hb) (rc_clock _ _ Hb) Hnone) as (k & b2 & Es & Hid & Hsess).
  fold card in Es, Hid. rewrite (se_bind_run _ _ _ _ _ Es), se_bind_assoc.
  assert (keeps_prekeys b b2) as Hkp.
  { pose proof (store_card_prekeys (Card.as_read card) JNull b1) as H. by rewrite Es in H. }
  assert (steady b b2) as Hst2.
  { pose proof (store_card_st (Card.as_read card) JNull b1) as H. by rewrite Es in H. }
  destruct (store_card_ok (Card.as_read card) JNull b1) as (_ & [Hw2 _] & _). rewrite Es in Hw2. cbn [snd] in Hw2.
  specialize (Hw2 (rc_store _ _ Hb)). rewrite <-(keeps_prekeys_value _ _ Hkp) in Hv.
  destruct (consume_run v opk x b2 (ws_key _ Hw2) Hv Htv Hopk) as (b3 & E3). rewrite (se_bind_run _ _ _ _ _ E3).
  erewrite se_bind_run by reflexivity. unfold load_state. rewrite Hsess. cbn [truthy]. rewrite se_lift_run, se_get_run.
  change (Card.card_id card) with (Card.card_id (Card.as_read card)). rewrite <-Hid.
  pose proof (consume_opk_st opk b2) as H3. destruct (consume_opk_ok opk b2) as (_ & [Hw3 _] & _). rewrite E3 in H3, Hw3. cbn [snd] in *.
  apply accept_text; try done; [by etrans|auto|..].
  - apply wf_dict_nodup, (dressed_wf i card s envelope); [|done|by apply Card.created_wf]. right. by exists key, init.
  - intros y Hy. unfold sent. rewrite dressed_get, Henv; [done|..]; intros ->; by repeat (apply elem_of_cons in Hy as [?|Hy]; [done|]); apply not_elem_of_nil in Hy.
Qed.
End first.

(** ** From one client to the other *)

Section text.
Context {C : Crypto} {L : CryptoLaws C} {Zl : Zlib} {N : Type} {P : Pool N} {N' : Type} {P' : Pool N'}.
Import RatchetChain RatchetSession.

Lemma new_id_text (c : Client N) id c' : new_id c = (Ok id, c') → utf8_str id ∧ id ≠ ""%string.
Proof using.
  unfold new_id. erewrite se_bind_run by reflexivity. intros [= <- _]. split; [apply Attachments.hex_utf8|].
  intros E. apply (f_equal (λ t, length (bs t))) in E. revert E. unfold Attachments.hex. rewrite bs_to_str. cbn [seq map imap concat app length bs].
  discriminate.
Qed.
Lemma text_envelope_wf text eid ts : utf8_str text → utf8_str eid → wf_dict (text_envelope text eid ts).
Proof using. intros Ht He. unfold text_envelope, Protocol.make_envelope. cbn [Protocol.is_none]. solve_wf; done. Qed.

Lemma require_contact_run cid k (c : Client N) :
  (get_contact (me c) cid (cl_store c)).1 = Ok (Some k) → require_contact cid c = (Ok k, c).
Proof using.
  intros E. unfold require_contact. rewrite se_get_run.
  assert (on_store (get_contact (me c) cid) c = (Ok (Some k), c)) as Es; [|by rewrite (se_bind_run _ _ _ _ _ Es)].
  apply on_store_read. rewrite get_contact_run in E |- *. cbn [fst] in E. by rewrite E.
Qed.
(** What [send_text] does when it returns. *)
Lemma send_text_inv cid text k st0 ds st (a a1 a' : Client N) mid card :
  cl_card a = Some card → (get_contact (me a) cid (cl_store a)).1 = Ok (Some k) → load_state k = Ok st0 →
  ensure_outbound_sessions k st0 a = (Ok (ds, st), a1) → send_text cid text a = (Ok mid, a') →
  ∃ i a2 blobs a3, utf8_str mid ∧ mid ≠ ""%string ∧ steady a a2 ∧ net_run a a2 ∧ net_run a3 a' ∧
    fan_out ds (st_outbound st) (λ _, Ok (text_envelope text mid (clock (cl_env a) i))) "text" a2 = (Ok blobs, a3).
Proof using.
  intros Hcard Hk Hst Hds E. unfold send_text in E.
  assert (ensure_provisioned a = (Ok tt, a)) as Ep by (unfold ensure_provisioned; by rewrite se_get_run, Hcard).
  rewrite (se_bind_run _ _ _ _ _ Ep), (se_bind_run _ _ _ _ _ (require_contact_run _ _ _ Hk)), Hst, se_lift_run,
    (se_bind_run _ _ _ _ _ Hds) in E. cbv beta iota in E.
  pose proof (ensure_outbound_st k st0 a) as H1. pose proof (ensure_outbound_run k st0 a) as R1.
  rewrite Hds in H1, R1. cbn [snd] in H1, R1.
  apply se_bind_Ok in E as (id & a2 & E2 & E). pose proof (new_id_st a1) as H2. pose proof (new_id_run a1) as R2.
  rewrite E2 in H2, R2. cbn [snd] in H2, R2.
  destruct (new_id_text _ _ _ E2) as [Hu Hne]. erewrite se_bind_run in E by reflexivity. unfold deliver in E.
  apply se_bind_Ok in E as ([blobs out] & a3 & E3 & E).
  assert (net_run a3 a') as R3.
  { match type of E with ?m a3 = _ => assert (keeps net_run m) as Hk' end; [|specialize (Hk' a3); by rewrite E in Hk'].
    unfold save_state, add_message_. keeping. }
  assert (id = mid) as <-.
  { do 6 (apply se_bind_Ok in E as (? & ? & _ & E)). by injection E as <- _. }
  eexists _, _, _, _. split_and!; [done|done| | | |].
  4:{ assert (steady a a2) as (_ & _ & _ & _ & Hc) by (by etrans). rewrite <-Hc. exact E3. }
  - etrans; [exact H1|]. etrans; [exact H2|]. done.
  - etrans; [exact R1|exact R2].
  - exact R3.
Qed.

(** What [send_text] put on the network, device by device, and what a receiver makes of it. *)
Lemma text_carried bid box rs nm cid text k st0 ds st (a a1 a' : Client N) mid :
  let card := Card.create (cl_identity a) bid box rs nm in
  Card.wf_create (cl_identity a) bid box rs nm → cl_card a = Some card →
  (∀ i, 1000 ≤ clock (cl_env a) i < 2 ^ 63) → utf8_str text →
  (get_contact (me a) cid (cl_store a)).1 = Ok (Some k) → load_state k = Ok st0 →
  ensure_outbound_sessions k st0 a = (Ok (ds, st), a1) → NoDup (map Devices.device_id ds) →
  (∀ d s, d ∈ ds → aget (Devices.device_id d) (st_outbound st) = Some s →
     sendable s ∧ ∃ pub ck n, send_at (Session.ratchet s) pub ck n) →
  send_text cid text a = (Ok mid, a') →
  net_run a a' ∧ ∃ ts, ∀ d, d ∈ ds → ∃ s blob (c1 c2 : Client N),
    aget (Devices.device_id d) (st_outbound st) = Some s ∧ cl_relays c1 = cl_relays a ∧ posted d blob c1 c2 ∧
    net_run a c1 ∧ net_run c2 a' ∧
    ∀ relay seq (b : Client N'), receptive mid b →
      let out := handle_item {| fm_relay := relay; fm_seq := seq; fm_blob := blob |} b in
      (∀ l, in_step s b l → received (c_id (lo_contact l)) text mid ts b out) ∧
      (find_session (Session.sid s) b = (Ok None, b) → (get_contact (me b) (me a) (cl_store b)).1 = Ok None →
       can_answer s b → received (me a) text mid ts b out).
Proof using L.
  intros card Hcr Hcard Hclock Ht Hk Hst Hds Hnd Hss E.
  destruct (send_text_inv _ _ _ _ _ _ _ _ _ _ _ Hcard Hk Hst Hds E) as (i & a2 & blobs & a3 & Hmid & Hne & Hq & R1 & R3 & Ef).
  set (ts := clock (cl_env a) i) in *. assert (int64 ts = true ∧ ts ≠ 0) as [Hts Hz].
  { specialize (Hclock i). fold ts in Hclock. unfold int64. lia. }
  pose proof (text_envelope_wf text mid ts Ht Hmid) as He. destruct Hq as ((Hi & _) & Hc2 & Hrel & _).
  pose proof (Card.created_wf _ _ _ _ _ Hcr) as Hwc. fold card in Hwc. rewrite <-Hc2 in Hcard.
  destruct (fan_out_inv card ds _ _ _ a2 _ _ Hcard Hwc He Hnd Hss Ef) as [R2 Hall].
  split; [etrans; [exact R1|by etrans]|]. exists ts. intros d Hd.
  destruct (Hall d Hd) as (s & blob & c1 & c2 & Hs & Hp & Hr1 & R4 & R5 & Hcar).
  exists s, blob, c1, c2. split_and!; [done|by rewrite Hr1|done|by etrans|by etrans|]. intros relay seq b Hb out. cbv zeta in Hcar. rewrite Hi in Hcar. split.
  - intros l (Hf & pub & ck & n & r & Hsa & Hra & Hrd). specialize (Hcar _ _ _ Hsa).
    destruct (dressed_wf (cl_identity a) card s (text_envelope text mid ts)) as [Hw Hwi]; [by apply (Hss d)|done|done|].
    eapply known_received; try done; [by exists r|by apply wf_dict_nodup|].
    intros y Hy. apply dressed_get; intros ->; by repeat (apply elem_of_cons in Hy as [?|Hy]; [done|]); apply not_elem_of_nil in Hy.
  - intros Hf Hnone Ha. by apply (first_received (cl_identity a) bid box rs nm s (text_envelope text mid ts)).
Qed.

(** C2: a text arrives.  When [send_text] returns, every device it wrote to has a copy accepted
    for its mailbox by the relays it lists; and whoever fetches that copy shows the text: a
    client that knows the session and is in step with it (however many messages are ahead of
    this one, or late) files it under the session's contact; a client that never heard of the
    sender, and still has the keys the sender's handshake used, makes the sender a
    contact and files it there.  Either way the message is stored and returned once, with its
    text, id and time, whatever becomes of the receipt. *)
Theorem text_delivered bid box rs nm cid text k st0 ds st (a a1 a' : Client N) mid :
  let card := Card.create (cl_identity a) bid box rs nm in
  Card.wf_create (cl_identity a) bid box rs nm → cl_card a = Some card →
  (∀ i, 1000 ≤ clock (cl_env a) i < 2 ^ 63) → utf8_str text →
  (get_contact (me a) cid (cl_store a)).1 = Ok (Some k) → load_state k = Ok st0 →
  ensure_outbound_sessions k st0 a = (Ok (ds, st), a1) → NoDup (map Devices.device_id ds) →
  (∀ d s, d ∈ ds → aget (Devices.device_id d) (st_outbound st) = Some s →
     sendable s ∧ ∃ pub ck n, send_at (Session.ratchet s) pub ck n) →
  send_text cid text a = (Ok mid, a') →
  ∃ ts, ∀ d, d ∈ ds → ∃ s blob (c1 c2 : Client N),
    aget (Devices.device_id d) (st_outbound st) = Some s ∧ cl_relays c1 = cl_relays a ∧ posted d blob c1 c2 ∧
    ∀ relay seq (b : Client N'), receptive mid b →
      let out := handle_item {| fm_relay := relay; fm_seq := seq; fm_blob := blob |} b in
      (∀ l, in_step s b l → received (c_id (lo_contact l)) text mid ts b out) ∧
      (find_session (Session.sid s) b = (Ok None, b) → (get_contact (me b) (me a) (cl_store b)).1 = Ok None →
       can_answer s b → received (me a) text mid ts b out).
Proof using L.
  intros card Hcr Hcard Hclock Ht Hk Hst Hds Hnd Hss E.
  destruct (text_carried bid box rs nm cid text k st0 ds st a a1 a' mid Hcr Hcard Hclock Ht Hk Hst Hds Hnd Hss E)
    as (_ & ts & H). exists ts. intros d Hd.
  destruct (H d Hd) as (s & blob & c1 & c2 & H1 & H2 & H3 & _ & _ & H4). by exists s, blob, c1, c2.
Qed.
End text.

(** ** Two concrete clients *)

Import Toy ClientProps.Sample.

(** Bob has published a bundle; Alice has his card and has never written to him. *)
Definition steady_env (seed : Z) : Env :=
  {| tape i := byte_of (seed + Z.of_nat i); tpos := 0; clock _ := 1700000000000; ticks := 0; pads _ j := j; padded := 0 |}.
Definition box_of (id : string) : MailboxCapability :=
  {| mailbox_id := id; write_token := b64e (repeat "w"%char 32); read_token := None |}.
Definition bob0 : Client relay := set_env (steady_env 5) (new_client 5 sample_store empty_relay).
Definition bob_prekeys : dict := ok_or [] (generate_prekeys 1 bob0).1.
Definition bob : Client relay := (save_prekeys_ (JObj bob_prekeys) bob0).2.
Definition bob_bundle_id : string := b64e (repeat "b"%char 16).
Definition no_bundle : Prekeys.PrekeyBundle :=
  {| Prekeys.bundle_id := []; Prekeys.isign := []; Prekeys.idh := []; Prekeys.spk_id := 0; Prekeys.spk := []; Prekeys.spk_sig := []; Prekeys.opks := [] |}.
Definition bob_bundle : Prekeys.PrekeyBundle := ok_or no_bundle (bundle_of (owner 5) bob_bundle_id (JObj bob_prekeys)).
Definition relay_with_bundle : relay :=
  {| boxes := []; records := {[ bob_bundle_id := canon true (JObj (Prekeys.to_public_dict bob_bundle)) ]}; files := ∅ |}.
Definition bob_contact : contact :=
  {| c_id := me bob; c_identity := me (new_client 3 sample_store empty_relay); c_nickname := JStr "Bob"; c_isign := ed_pub bob; c_idh := x_pub bob;
     c_bundle := JStr bob_bundle_id; c_inbox := JObj (card_view (box_of "bobs")); c_relays := JList [JStr "https://r"]; c_session := JNull;
     c_verified := false; c_created := 7 |}.
Definition alice : Client relay :=
  let c := new_client 3 sample_store relay_with_bundle in
  let c := set_store (run_op (UpsertContact sample_iv 1 (me c) bob_contact) sample_store) c in
  set_env (steady_env 3) (set_card (Some (Card.create (owner 3) "a" (box_of "alices") ["https://r"%string] (JStr "Alice"))) c).
Definition alice_peers := ok_or ([], no_state) (ensure_outbound_sessions bob_contact no_state alice).1.
Definition alice_mid : string := ok_or ""%string (send_text (me bob) "hi" alice).1.
Definition alice_session : Session.Session := ok_or Session.sample_session (of_option KeyError (aget Devices.LEGACY_DEVICE (st_outbound alice_peers.2))).

Lemma alice_card_ok : Card.wf_create (owner 3) "a" (box_of "alices") ["https://r"%string] (JStr "Alice").
Proof.
  split; [split_and!; [done..|by left]|split_and!]; [done|by split|vm_compute; done|done|by repeat constructor|].
  right. by exists "Alice"%string.
Qed.
Lemma alice_identity : cl_identity alice = owner 3.
Proof. vm_compute. reflexivity. Qed.
Lemma bob_receptive : receptive alice_mid bob.
Proof.
  split; [|vm_compute; reflexivity|done|].
  { destruct (save_prekeys_ok (JObj bob_prekeys) bob0) as (_ & [H _] & _). apply H, sample_store_wf. }
  intros c Hc. destruct (new_id c) as [[id|e] c'] eqn:E; [by exists id|]. unfold new_id in E. by erewrite se_bind_run in E.
Qed.
Definition alice_chain : bytes := default [] (Ratchet.sending_chain (Session.ratchet alice_session)).
Definition alice_secret : bytes := default [] (Ratchet.dh_self_private (Session.ratchet alice_session)).
Definition alice_init : dict := match Session.init alice_session with JObj d => d | _ => [] end.
Lemma alice_init_wf : wf_dict alice_init.
Proof. vm_compute. repeat constructor; by apply (bool_decide_unpack _). Qed.
Lemma alice_session_sends :
  sendable alice_session ∧ RatchetChain.send_at (Session.ratchet alice_session) (x25519_public alice_secret) alice_chain 0.
Proof.
  split; [right|split_and!; vm_compute; reflexivity].
  exists (default [] (Session.sk alice_session)), alice_init. split_and!; [vm_compute; reflexivity..|apply alice_init_wf].
Qed.
Lemma bob_answers : can_answer alice_session bob.
Proof.
  set (spk := ok_or [] (let? j := jitem "spk_private" (JObj bob_prekeys) in b64d_json j)).
  set (dh := ok_or [] (x25519 spk (x25519_public alice_secret))).
  exists (default [] (Session.sk alice_session)), alice_init, (JObj bob_prekeys), spk, (JInt 1),
    (x25519_public alice_secret), alice_secret, alice_chain, 0%nat, dh, (Kdf.kdf_rk (default [] (Session.sk alice_session)) dh).1.
  split_and!; [..|apply alice_session_sends|done|done| | | |]; first [apply alice_init_wf|vm_compute; reflexivity].
Qed.

Definition bob_device : Devices.DeviceEntry := ok_or Devices.sample_entry (legacy_device bob_contact).
Lemma alice_devices : alice_peers.1 = [bob_device].
Proof. vm_compute. reflexivity. Qed.
Lemma alice_outbound : aget (Devices.device_id bob_device) (st_outbound alice_peers.2) = Some alice_session.
Proof. vm_compute. reflexivity. Qed.

Lemma text_delivered_witness :
  ∃ ts blob, received (me alice) "hi" alice_mid ts bob (handle_item {| fm_relay := "r"; fm_seq := 1; fm_blob := blob |} bob).
Proof.
  destruct (text_delivered (N' := relay) "a" (box_of "alices") ["https://r"%string] (JStr "Alice") (me bob) "hi" bob_contact no_state
    alice_peers.1 alice_peers.2 alice (ensure_outbound_sessions bob_contact no_state alice).2 (send_text (me bob) "hi" alice).2 alice_mid)
    as (ts & H).
  - rewrite alice_identity. apply alice_card_ok.
  - rewrite alice_identity. reflexivity.
  - done.
  - reflexivity.
  - vm_compute. reflexivity.
  - reflexivity.
  - vm_compute. reflexivity.
  - rewrite alice_devices. apply NoDup_singleton.
  - intros d s Hd Hs. rewrite alice_devices in Hd. apply list_elem_of_singleton in Hd as ->. rewrite alice_outbound in Hs.
    apply (inj Some) in Hs. subst s. split; [apply alice_session_sends|]. eexists _, _, _. apply alice_session_sends.
  - vm_compute. reflexivity.
  - rewrite alice_devices in H. destruct (H bob_device ltac:(by left)) as (s & blob & c1 & c2 & Hs & _ & _ & Hb).
    rewrite alice_outbound in Hs. apply (inj Some) in Hs. subst s. exists ts, blob.
    apply (proj2 (Hb "r"%string 1 bob bob_receptive)); [vm_compute; reflexivity|reflexivity|apply bob_answers].
Defined.
