(* ===== verification/FirstContact.v ===== *)
(** * First contact: theorems

    A session started from a prekey bundle its owner published is one the owner can
    answer: with [Delivery.text_delivered], whoever fetches a card and a bundle reaches
    their owner. *)

From S2P Require Import Prelude PyStr Json JsonProps Primitives Dict Encoding Sql Store StoreProps Backend ClientState Sync Client ClientProps ClientRuns QuietOps Receiving Delivery.
From S2P Require Identity Kdf Prekeys X3dh Ratchet RatchetChain Padding Protocol Card Devices DeviceChannel Session.

Section handshake.
Context {C : Crypto} {L : CryptoLaws C} {Zl : Zlib} {N : Type} {P : Pool N} {N' : Type} {P' : Pool N'}.
Import RatchetChain.

(** The private halves of a signed prekey, and of the first of the one-time prekeys
    offered with it, as [generate_prekeys] stores them. *)
Definition holds_prekeys (v : json) (spk_id : Z) (spk : bytes) (offered : list (Z * bytes)) : Prop :=
  ∃ pk opks, v = JObj pk ∧ dget "spk_id" pk = Some (JInt spk_id) ∧ dget "spk_private" pk = Some (JStr (b64e spk)) ∧
    dget "spk_public" pk = Some (JStr (b64e (x25519_public spk))) ∧ dget "opks" pk = Some (JObj opks) ∧
    length spk = 32%nat ∧
    match offered with
    | [] => True
    | (id, pub) :: _ => ∃ priv e, length priv = 32%nat ∧ pub = x25519_public priv ∧
        dget (int_str id) opks = Some (JObj e) ∧ dget "priv" e = Some (JStr (b64e priv))
    end.

Lemma held_opk v spk_id spk offered :
  holds_prekeys v spk_id spk offered →
  ∃ priv, X3dh.opk_matches offered priv ∧ opk_private v (X3dh.opt_int (fst <$> head offered)) = Ok (Some priv).
Proof using.
  intros (pk & opks & -> & _ & _ & _ & Ho & _ & H). destruct offered as [|[id pub] offered]; [by exists []|].
  destruct H as (priv & e & Hl & -> & He & Hp). exists priv. split; [done|]. cbn [head fmap option_fmap option_map fst X3dh.opt_int].
  unfold opk_private. cbn [jitem to_pystr]. rewrite Ho. cbn [of_option res_bind jget].
  change (to_str (py_repr (JInt id))) with (int_str id). rewrite He. cbn [res_bind jitem].
  rewrite Hp. cbn [of_option res_bind b64d_json]. by rewrite b64d_b64e.
Qed.

Lemma urandom_length n (c : Client N) b c' : urandom n c = (Ok b, c') → length b = n.
Proof using. unfold urandom. intros [= <- _]. by rewrite length_map, length_seq. Qed.
Lemma keypair_inv (c : Client N) priv pub c' :
  keypair c = (Ok (priv, pub), c') → length priv = 32%nat ∧ pub = x25519_public priv.
Proof using.
  unfold keypair. intros (b & c1 & Hb%urandom_length & [= <- <- <-])%se_bind_Ok. by split.
Qed.
(** The one-time prekeys as [generate_opks] stores and publishes them. *)
Lemma generate_opks_spec index count (c : Client N) r c' :
  0 ≤ index → generate_opks index count c = (Ok r, c') →
  ∃ privs : list bytes, Forall (λ p, length p = 32%nat) privs ∧
    r = imap (λ i p, (int_str (index + Z.of_nat i), JObj [("priv", JStr (b64e p)); ("pub", JStr (b64e (x25519_public p)))]%string)) privs ∧
    mapM read_opk r = Ok (imap (λ i p, (index + Z.of_nat i, x25519_public p)) privs).
Proof using.
  revert index c r c'. induction count as [|n IH]; intros index c r c' Hi E; cbn [generate_opks] in E.
  { injection E as <- _. by exists []. }
  apply se_bind_Ok in E as ([priv pub] & c1 & [Hp ->]%keypair_inv & E). apply se_bind_Ok in E as (rest & c2 & E2 & [= <- _]).
  apply IH in E2 as (privs & Hl & Hrest & Hread); [|lia].
  exists (priv :: privs). split_and!; [by constructor| |].
  - cbn [imap]. rewrite Z.add_0_r. f_equal. rewrite Hrest. apply imap_ext. intros i p _. cbn. by replace (index + 1 + Z.of_nat i) with (index + Z.of_nat (S i)) by lia.
  - cbn [mapM imap]. unfold read_opk at 1. cbn [fst snd jitem dget String.eqb Ascii.eqb Bool.eqb of_option res_bind b64d_json].
    rewrite py_int_str, b64d_b64e by done. cbn [res_bind]. rewrite Hread. cbn [res_bind]. rewrite Z.add_0_r. do 2 f_equal.
    apply imap_ext. intros i p _. cbn. by replace (index + 1 + Z.of_nat i) with (index + Z.of_nat (S i)) by lia.
Qed.

(** The owner's side of the handshake: the header on the wire leads it to the key. *)
Lemma held_answer i v spk_id spk offered priv (init : X3dh.Initiation) sid :
  holds_prekeys v spk_id spk offered → X3dh.in_spk_id init = spk_id →
  X3dh.in_opk_id init = fst <$> head offered →
  opk_private v (X3dh.opt_int (fst <$> head offered)) = Ok (Some priv) →
  X3dh.respond (Identity.x_private i) spk priv (X3dh.ek_public init) = Ok (X3dh.sk init) →
  begin_inbound_ i v (handshake_wire sid (X3dh.init_dict init))
  = Ok (Some (inbound_session sid (X3dh.sk init) spk (x25519_public spk) (canon true (JObj (X3dh.init_dict init))),
              X3dh.opt_int (X3dh.in_opk_id init))).
Proof using.
  intros (pk & opks & -> & H1 & H2 & H3 & _ & _ & _) Hspk Hopk Hpriv Hr. rewrite <-Hopk in Hpriv.
  unfold begin_inbound_, handshake_wire. cbn [jitem dget fst snd String.eqb Ascii.eqb Bool.eqb of_option res_bind].
  assert (truthy (JObj pk) = true) as -> by (by destruct pk). cbn [negb].
  assert (NoDup (map fst (X3dh.init_dict init))) as Hnd by (unfold X3dh.init_dict; cbn [map fst]; solve_nodup).
  rewrite (jitem_canon true "spk_id" _ (JInt spk_id)) by (done || (unfold X3dh.init_dict; by rewrite <-Hspk)).
  rewrite canon_int. cbn [res_bind to_int]. rewrite H1. cbn [of_option res_bind to_int]. rewrite Z.eqb_refl. cbn [negb].
  rewrite (jget_canon true "opk_id" _ (X3dh.opt_int (X3dh.in_opk_id init))) by done. cbn [res_bind].
  assert (canon true (X3dh.opt_int (X3dh.in_opk_id init)) = X3dh.opt_int (X3dh.in_opk_id init)) as -> by (by destruct (X3dh.in_opk_id init)).
  rewrite Hpriv. cbn [res_bind].
  assert (respond_to i (JObj pk) priv (canon true (JObj (X3dh.init_dict init))) = Ok (Some (X3dh.sk init))) as ->.
  { unfold respond_to. cbn [jitem]. rewrite H2. cbn [of_option res_bind b64d_json]. rewrite b64d_b64e. cbn [res_bind].
    rewrite (jitem_canon true "ek" _ (JStr (b64e (X3dh.ek_public init)))) by done.
    rewrite canon_str. cbn [res_bind b64d_json]. rewrite b64d_b64e. cbn [res_bind]. by rewrite Hr. }
  cbn [res_bind b64d_json]. rewrite b64d_b64e, H2, H3. cbn [of_option res_bind b64d_json]. by rewrite !b64d_b64e.
Qed.

(** A bundle with other one-time prekeys: the relay serves each one once. *)
Definition offering (o : list (Z * bytes)) (b : Prekeys.PrekeyBundle) : Prekeys.PrekeyBundle :=
  {| Prekeys.bundle_id := Prekeys.bundle_id b; Prekeys.isign := Prekeys.isign b; Prekeys.idh := Prekeys.idh b;
     Prekeys.spk_id := Prekeys.spk_id b; Prekeys.spk := Prekeys.spk b; Prekeys.spk_sig := Prekeys.spk_sig b; Prekeys.opks := o |}.
Lemma int_str_inj n m : int_str n = int_str m → n = m.
Proof using. unfold int_str. intros E. apply (f_equal bs) in E. rewrite !bs_to_str in E. by apply int_b_inj. Qed.
(** What an account publishes of its new prekeys it holds the private halves of,
    whichever one-time prekey, if any, the relay serves with it. *)
Lemma generated_held count bid bundle (c : Client N) pk c' :
  generate_prekeys count c = (Ok pk, c') → bundle_of (cl_identity c) bid (JObj pk) = Ok bundle →
  ∃ spk id, ∀ o, o = [] ∨ (∃ x, o = [x] ∧ x ∈ Prekeys.opks bundle) →
    holds_prekeys (JObj pk) 1 spk o ∧
    Prekeys.make_bundle (cl_identity c) id 1 (x25519_public spk) o = Ok (offering o bundle).
Proof using.
  intros E Eb. unfold generate_prekeys in E. apply se_bind_Ok in E as ([spk pub] & c1 & [Hs ->]%keypair_inv & E).
  apply se_bind_Ok in E as (opks & c2 & E2 & [= <- _]).
  apply generate_opks_spec in E2 as (privs & Hl & -> & Hread); [|done]. unfold bundle_of in Eb.
  apply res_bind_Ok in Eb as (id & _ & Eb). cbn [jitem dget fst snd String.eqb Ascii.eqb Bool.eqb of_option res_bind to_int b64d_json items_json] in Eb.
  rewrite b64d_b64e in Eb. cbn [res_bind] in Eb. rewrite Hread in Eb. cbn [res_bind] in Eb.
  assert (∃ sig, Prekeys.spk_signature (cl_identity c) id 1 (x25519_public spk) = Ok sig ∧ (blen id =? Prekeys.BUNDLE_ID_SIZE) = true ∧
            bundle = {| Prekeys.bundle_id := id; Prekeys.isign := Identity.ed_public_bytes (cl_identity c);
                        Prekeys.idh := Identity.x_public_bytes (cl_identity c); Prekeys.spk_id := 1; Prekeys.spk := x25519_public spk;
                        Prekeys.spk_sig := sig; Prekeys.opks := imap (λ i p, (1 + Z.of_nat i, x25519_public p)) privs |}) as (sig & Esig & Eid & ->).
  { unfold Prekeys.make_bundle in Eb. destruct (blen id =? _); [|done]. cbn [negb] in Eb. destruct (_ <? _); [done|].
    apply res_bind_Ok in Eb as (sig & Esig & [= <-]). by exists sig. }
  exists spk, id. intros o Ho. split.
  - eexists _, _. split_and!; [reflexivity..|done|]. destruct Ho as [->|([n pub] & -> & Hx)]; [done|]. cbn [Prekeys.opks] in Hx.
    apply elem_of_lookup_imap in Hx as (i & p & [= -> ->] & Hp). exists p, [("priv", JStr (b64e p)); ("pub", JStr (b64e (x25519_public p)))]%string. split_and!; [|done| |done].
    + rewrite Forall_forall in Hl. by eapply Hl, list_elem_of_lookup_2.
    + apply elem_dget.
      * apply NoDup_alt. intros i1 i2 x. change (map fst ?l) with (l.*1). rewrite !list_lookup_fmap, !list_lookup_imap.
        destruct (privs !! i1), (privs !! i2); cbn; try done. intros [= <-] [= E2%int_str_inj]. lia.
      * apply elem_of_lookup_imap. by exists i, p.
  - unfold Prekeys.make_bundle. rewrite Eid, Esig. cbn [negb res_bind].
    destruct Ho as [->|(x & -> & _)]; done.
Qed.

(** The relays the device lists (or the client's own) serve this bundle. *)
Definition served (d : Devices.DeviceEntry) (j : json) (a : Client N) : Prop :=
  ∃ urls n, relay_list (device_relays d) = Ok urls ∧
    pool_bundle (match urls with [] => cl_relays a | _ => urls end) (Devices.bundle_id d) (cl_net a) = (Ok j, n).
Definition same_handshake (s s' : Session.Session) : Prop :=
  Session.sid s' = Session.sid s ∧ Session.sk s' = Session.sk s ∧ Session.init s' = Session.init s ∧
  Session.established s' = Session.established s.

Lemma start_session_run k d j bundle (a : Client N) :
  served d j a → Prekeys.from_public j (c_isign k) (c_idh k) = Ok bundle →
  ∃ ephemeral sid fresh a', length ephemeral = 32%nat ∧ length fresh = 32%nat ∧
    start_session k d a
    = (let? i := X3dh.initiate ephemeral bundle (c_isign k) (c_idh k) in
       let? ratchet := Ratchet.initiator fresh (X3dh.sk i) (Prekeys.spk bundle) in
       Ok {| Session.sid := sid; Session.ratchet := ratchet; Session.sk := Some (X3dh.sk i);
             Session.init := JObj (X3dh.init_dict i); Session.established := false |},
       a' (X3dh.initiate ephemeral bundle (c_isign k) (c_idh k))).
Proof using.
  intros (urls & n & Hu & Hp) Hb.
  assert (fetch_device_bundle k d a = (Ok bundle, set_net n a)) as E.
  { unfold fetch_device_bundle. erewrite se_bind_run.
    2:{ unfold se_except, backend_for. rewrite se_bind_assoc, se_get_run, Hu, se_bind_assoc, se_lift_run.
        erewrite se_bind_run by reflexivity. unfold on_net. by rewrite Hp. }
    unfold se_except, se_lift. by rewrite Hb. }
  unfold start_session. rewrite (se_bind_run _ _ _ _ _ E). erewrite se_bind_run by reflexivity.
  match goal with |- context [X3dh.initiate ?e bundle _ _] => set (ephemeral := e) end.
  match goal with |- context [se_bind (se_lift _) _ ?c] => set (a1 := c) end.
  set (sid := map (tape (cl_env a1)) (seq (tpos (cl_env a1)) 16)).
  set (fresh := map (tape (cl_env (urandom 16 a1).2)) (seq (tpos (cl_env (urandom 16 a1).2)) 32)).
  exists ephemeral, sid, fresh, (λ r, match r with Ok _ => (urandom 32 (urandom 16 a1).2).2 | Err _ => a1 end).
  split; [unfold ephemeral; by rewrite length_map, length_seq|]. split; [unfold fresh; by rewrite length_map, length_seq|].
  destruct (X3dh.initiate ephemeral bundle _ _) as [i|e]; [|done]. rewrite se_lift_run.
  erewrite se_bind_run by reflexivity. erewrite se_bind_run by reflexivity. cbn [res_bind].
  change (map _ (seq _ 32)) with fresh. by destruct (Ratchet.initiator fresh _ _).
Qed.

(** C3: whoever publishes prekeys can be reached.  When the relays serve a bundle its owner made
    (with whichever of its one-time prekeys), to a client that holds the owner's keys from
    its card, starting a session succeeds; and as long as the owner keeps the private halves,
    it can answer the session's messages, the first one or, when that is late or lost,
    any of the first [MAX_SKIP]: the hypothesis of [text_delivered]. *)
Theorem handshake_answered k d srt v bid spk_id spk offered bundle (a : Client N) (b : Client N') :
  Identity.wf_identity (cl_identity b) → prekeys_value b = Ok v → holds_prekeys v spk_id spk offered →
  Prekeys.make_bundle (cl_identity b) bid spk_id (x25519_public spk) offered = Ok bundle →
  c_isign k = ed_pub b → c_idh k = x_pub b →
  served d (canon srt (JObj (Prekeys.to_public_dict bundle))) a →
  ∃ s a', start_session k d a = (Ok s, a') ∧
    ∃ pub ck, send_at (Session.ratchet s) pub ck 0 ∧
      ∀ s' n, same_handshake s s' → send_at (Session.ratchet s') pub ck n → Z.of_nat n ≤ Ratchet.MAX_SKIP →
        sendable s' ∧ can_answer s' b.
Proof using L.
  intros Hwf Hv Hpk Hb Hki Hkd Hserved. destruct (held_opk _ _ _ _ Hpk) as (priv & Hmatch & Hopk).
  assert (length spk = 32%nat) as Hspk by (by destruct Hpk as (? & ? & ? & ? & ? & ? & ? & ? & ?)).
  destruct (start_session_run k d _ (Prekeys.with_keys bundle (c_isign k) (c_idh k)) a Hserved) as (ek & sid & fresh & fa & Hek & Hfr & Es).
  { apply Prekeys.from_public_canon. }
  destruct (X3dh.bundle_agreement (cl_identity b) bid spk_id spk offered priv bundle ek Hwf Hspk Hek Hmatch Hb)
    as (Hwk & Hbs & init & Ei & Er & H1 & H2 & H3 & _).
  rewrite Hki, Hkd in Es. change (ed_pub b) with (Identity.ed_public_bytes (cl_identity b)) in Es.
  change (x_pub b) with (Identity.x_public_bytes (cl_identity b)) in Es. rewrite Hwk, Ei, Hbs in Es. cbn [res_bind] in Es.
  destruct (x25519_both fresh spk Hfr Hspk) as (dh & D1 & D2 & _).
  unfold Ratchet.initiator in Es. cbn [Ratchet.new_keypair] in Es. rewrite D1 in Es. cbn [res_bind] in Es.
  destruct (Kdf.kdf_rk (X3dh.sk init) dh) as [rk ck] eqn:Ek. cbn [res_bind] in Es.
  eexists _, _. split; [exact Es|]. exists (x25519_public fresh), ck. split; [done|].
  assert (wf_dict (X3dh.init_dict init)) as Hwi.
  { unfold X3dh.init_dict. destruct (X3dh.in_opk_id init); cbn [X3dh.opt_int]; solve_wf; apply b64e_utf8. }
  intros s' n (Hsid & Hsk & Hin & Hest) Hst Hn. cbn [Session.sid Session.sk Session.init Session.established] in *.
  split; [right; by exists (X3dh.sk init), (X3dh.init_dict init)|].
  exists (X3dh.sk init), (X3dh.init_dict init), v, spk, (X3dh.opt_int (X3dh.in_opk_id init)), (x25519_public fresh), fresh, ck, n, dh, rk.
  split_and!; try done. by apply (held_answer _ _ spk_id _ offered priv).
Qed.
End handshake.

(** ** A concrete first contact *)

Import Toy ClientProps.Sample.

Definition bob_spk : bytes := ok_or [] (let? j := jitem "spk_private" (JObj bob_prekeys) in b64d_json j).
Definition bob_opk : bytes :=
  ok_or [] (let? j := (let? o := jitem "opks" (JObj bob_prekeys) in let? e := jitem "1" o in jitem "priv" e) in b64d_json j).
Lemma bob_holds : holds_prekeys (JObj bob_prekeys) 1 bob_spk (Prekeys.opks bob_bundle).
Proof.
  set (opks := match jitem "opks" (JObj bob_prekeys) with Ok (JObj o) => o | _ => [] end).
  set (e := match dget "1" opks with Some (JObj e) => e | _ => [] end).
  exists bob_prekeys, opks. split_and!; [vm_compute; reflexivity..|].
  assert (Prekeys.opks bob_bundle = [(1, x25519_public bob_opk)]) as -> by (vm_compute; reflexivity).
  exists bob_opk, e. split_and!; vm_compute; reflexivity.
Qed.

Lemma handshake_answered_witness :
  ∃ s a', start_session bob_contact bob_device alice = (Ok s, a') ∧ can_answer s bob.
Proof.
  destruct (handshake_answered (N' := relay) bob_contact bob_device true (JObj bob_prekeys) (repeat "b"%char 16) 1 bob_spk
    (Prekeys.opks bob_bundle) bob_bundle alice bob) as (s & a' & E & pub & ck & Hs & H).
  - split_and!; [vm_compute; reflexivity..|by left].
  - vm_compute. reflexivity.
  - apply bob_holds.
  - vm_compute. reflexivity.
  - reflexivity.
  - reflexivity.
  - exists ["https://r"%string], (cl_net alice). split; vm_compute; reflexivity.
  - exists s, a'. split; [exact E|]. exact (proj2 (H s 0%nat ltac:(by split_and!) Hs ltac:(done))).
Defined.
