(* ===== verification/LocalFiles.v ===== *)
(** * Files, environment and keyring of the desktop ([crypto/identity.py],
    [core/store.py])

    What a noknowledge process finds on the machine: files by path, the environment,
    the home directory, an OS keyring, the databases, and what it draws from the
    operating system.  On it: writing and reading an identity, the key of the local
    store ([resolve_store_key], [_write_key_file], [_load_key_file]) and opening the
    store.  A path in [blocked] is one the process may neither read nor write; other
    paths always can be, and directories are created on demand.  Permissions
    ([chmod]) are not modelled. *)

From S2P Require Import Prelude PyStr Json JsonProps Primitives Dict Encoding Sql Store StoreProps ClientState ClientRuns.
From S2P Require Identity Aead.

(** ** The machine *)

(** The [keyring] package: a service, a user, a password.  A missing package is a
    keyring whose calls raise. *)
Class Keyring (K : Type) := {
  get_password : string → string → SE K (option string);
  set_password : string → string → string → SE K unit
}.
(** Reading changes nothing, and what was stored is read back. *)
Class KeyringLaws (K : Type) `{Keyring K} : Prop := {
  get_password_pure service user k : (get_password service user k).2 = k;
  set_then_get service user pw k k' :
    set_password service user pw k = (Ok tt, k') → (get_password service user k').1 = Ok (Some pw)
}.

Record Desk {K N : Type} := {
  files : gmap string bytes;
  blocked : gset string;
  environ : gmap string string;
  home : string;                       (* os.path.expanduser("~") *)
  ring : K;
  databases : gmap string LocalStore;  (* SQLite files by path *)
  d_net : N;
  d_env : Env
}.
Arguments Desk K N : clear implicits.

Section setters.
Context {K N : Type}.
Definition set_files x (d : Desk K N) : Desk K N :=
  {| files := x; blocked := blocked d; environ := environ d; home := home d; ring := ring d;
     databases := databases d; d_net := d_net d; d_env := d_env d |}.
Definition set_ring x (d : Desk K N) : Desk K N :=
  {| files := files d; blocked := blocked d; environ := environ d; home := home d; ring := x;
     databases := databases d; d_net := d_net d; d_env := d_env d |}.
Definition set_databases x (d : Desk K N) : Desk K N :=
  {| files := files d; blocked := blocked d; environ := environ d; home := home d; ring := ring d;
     databases := x; d_net := d_net d; d_env := d_env d |}.
Definition set_environ x (d : Desk K N) : Desk K N :=
  {| files := files d; blocked := blocked d; environ := x; home := home d; ring := ring d;
     databases := databases d; d_net := d_net d; d_env := d_env d |}.
Definition set_outside net env (d : Desk K N) : Desk K N :=
  {| files := files d; blocked := blocked d; environ := environ d; home := home d; ring := ring d;
     databases := databases d; d_net := net; d_env := env |}.

(** ** System calls *)

Definition getenv (name : string) : SE (Desk K N) (option string) := λ d, (Ok (environ d !! name), d).
(** [os.path.exists] *)
Definition path_exists (path : string) : SE (Desk K N) bool := λ d,
  (Ok (bool_decide (is_Some (files d !! path))), d).
(** [os.makedirs(directory, exist_ok=True)] *)
Definition makedirs (directory : string) : SE (Desk K N) unit :=
  do! d := se_get in se_check (bool_decide (directory ∈ blocked d)) OSError.
(** [open(path, "r")] and [read()] *)
Definition read_file (path : string) : SE (Desk K N) bytes :=
  do! d := se_get in
  do! _ := se_check (bool_decide (path ∈ blocked d)) OSError in
  se_lift (of_option OSError (files d !! path)).
(** [open(path, "w")] empties the file before anything is written. *)
Definition create_file (path : string) : SE (Desk K N) unit :=
  do! d := se_get in
  do! _ := se_check (bool_decide (path ∈ blocked d)) OSError in
  se_modify (set_files (<[path := []]> (files d))).
Definition write_file (path : string) (data : bytes) : SE (Desk K N) unit :=
  se_modify (λ d, set_files (<[path := data]> (files d)) d).
(** [os.urandom(n)] *)
Definition os_urandom (n : nat) : SE (Desk K N) bytes := λ d,
  let e := d_env d in
  (Ok (map (tape e) (seq (tpos e) n)),
   set_outside (d_net d) {| tape := tape e; tpos := tpos e + n; clock := clock e; ticks := ticks e;
                            pads := pads e; padded := padded e |} d).
(** [int(time.time())] *)
Definition now_s : SE (Desk K N) Z := λ d,
  let e := d_env d in
  (Ok (clock e (ticks e) / 1000),
   set_outside (d_net d) {| tape := tape e; tpos := tpos e; clock := clock e; ticks := S (ticks e);
                            pads := pads e; padded := padded e |} d).
Definition on_ring {A} (m : SE K A) : SE (Desk K N) A := λ d,
  let '(r, k) := m (ring d) in (r, set_ring k d).
End setters.

(** [os.path.join(a, b)] for a relative [b], and [os.path.dirname]. *)
Definition path_join (a b : string) : string :=
  if String.eqb a "" || endswith a "/" then a +:+ b else a +:+ "/" +:+ b.
Fixpoint after_slash (l : bytes) : bytes :=
  match l with [] => [] | c :: l' => if bool_decide (c = "/"%char) then l else after_slash l' end.
(** The part before the last slash; the root keeps its slash. *)
Definition dirname (path : string) : string :=
  let h := after_slash (rev (bs path)) in
  let head := drop_while (λ c, bool_decide (c = "/"%char)) h in
  to_str (rev match head with [] => h | _ => head end).

Definition LOCAL_KEY_NAME : string := "local.key".
Definition KEYRING_SERVICE : string := "noknowledge".
Definition DISABLE_KEYRING_ENV : string := "NK_DISABLE_KEYRING".

(** A variable that is set and not empty. *)
Definition is_set (v : option string) : bool :=
  match v with Some s => negb (String.eqb s "") | None => false end.

Section desk.
Context {C : Crypto} {K N : Type} {R : Keyring K}.

(** ** Identity files *)

(** [Identity.save]: the file is opened, and emptied, before the vault is made.  The
    path is absolute. *)
Definition save_identity (i : Identity.Identity) (path passphrase : string) : SE (Desk K N) unit :=
  do! _ := makedirs (dirname path) in
  do! _ := create_file path in
  do! salt := (if String.eqb passphrase "" then se_ret [] else os_urandom 16) in
  do! nonce := (if String.eqb passphrase "" then se_ret [] else os_urandom 12) in
  do! data := se_lift (Identity.to_vault i passphrase salt nonce) in
  write_file path data.
(** [Identity.load] *)
Definition load_identity (path passphrase : string) : SE (Desk K N) Identity.Identity :=
  do! data := read_file path in se_lift (Identity.from_vault data passphrase).
(** [Identity.generate]: the mnemonic package turns 32 random bytes into the words. *)
Definition generate_identity {B : Bip39} (words_of : bytes → string) (label : json) (passphrase : string)
    : SE (Desk K N) (Identity.Identity * string) :=
  do! entropy := os_urandom 32 in
  let words := words_of entropy in
  do! i := se_lift (Identity.from_mnemonic words passphrase label) in
  se_ret (i, words).

(** ** The key of the local store *)

Definition load_key_from (path passphrase : string) : SE (Desk K N) bytes :=
  do! data := read_file path in
  do! text := se_lift (decode_utf8 data) in
  do! payload := se_lift (json_loads text) in
  se_lift (load_key_file payload passphrase).
Definition write_key_file (path : string) (key : bytes) (passphrase : string) : SE (Desk K N) unit :=
  do! salt := (if String.eqb passphrase "" then se_ret [] else os_urandom 16) in
  do! nonce := (if String.eqb passphrase "" then se_ret [] else os_urandom 12) in
  do! payload := se_lift (key_file salt nonce key passphrase) in
  do! _ := create_file path in
  write_file path (dumps fmt_default (JObj payload)).

(** The [try] block: the key the keyring holds, or a new one put there; [None] when
    anything raises. *)
Definition keyring_key (identity_id : string) : SE (Desk K N) (option bytes) :=
  se_catch isa_Exception None
    (do! stored := on_ring (get_password KEYRING_SERVICE identity_id) in
     if is_set stored then
       do! key := se_lift (b64d (default ""%string stored)) in se_ret (Some key)
     else
       do! key := os_urandom 32 in
       do! _ := on_ring (set_password KEYRING_SERVICE identity_id (b64e key)) in
       se_ret (Some key)).
Definition new_key_file (path passphrase : string) : SE (Desk K N) bytes :=
  do! key := os_urandom 32 in
  do! _ := write_key_file path key passphrase in
  se_ret key.
Definition resolve_store_key (directory identity_id passphrase : string) : SE (Desk K N) bytes :=
  do! _ := makedirs directory in
  let path := path_join directory LOCAL_KEY_NAME in
  do! there := path_exists path in
  if there : bool then load_key_from path passphrase else
  do! disabled := getenv DISABLE_KEYRING_ENV in
  do! held := (if is_set disabled then se_ret None else keyring_key identity_id) in
  match held with
  | Some key => se_ret key
  | None => new_key_file path passphrase
  end.

(** ** Opening the store *)

(** The tables as another key would open them. *)
Definition rekey (key : bytes) (s : LocalStore) : LocalStore :=
  {| store_key := key; identities := identities s; contacts := contacts s; messages := messages s;
     prekeys := prekeys s; outbox := outbox s; cursors := cursors s; state := state s; local_blobs := local_blobs s |}.
(** [LocalStore(path, key)] and [initialize()], which creates missing tables only. *)
Definition open_store (path : string) (key : bytes) : SE (Desk K N) LocalStore :=
  do! fresh := se_lift (new_store key) in
  do! _ := makedirs (dirname path) in
  do! d := se_get in
  se_ret match databases d !! path with Some s => rekey key s | None => fresh end.
End desk.

(** ** Runs of the system calls *)

Section runs.
Context {C : Crypto} {L : CryptoLaws C} {K N : Type} {R : Keyring K} {RL : KeyringLaws K}.
Implicit Types d : Desk K N.

(** What a run may find changed on the machine without noticing: the databases, the
    network, the random bytes and the clock. *)
Definition same_machine d d' : Prop :=
  files d' = files d ∧ blocked d' = blocked d ∧ environ d' = environ d ∧ ring d' = ring d.
#[export] Instance same_machine_equiv : Equivalence same_machine.
Proof using.
  split; unfold same_machine.
  - done.
  - intros x y (-> & -> & -> & ->). done.
  - intros x y z (H1 & H2 & H3 & H4) (-> & -> & -> & ->). done.
Qed.

Lemma same_machine_databases x d : same_machine d (set_databases x d).
Proof using. done. Qed.
(** The same, as far as the key of the store goes. *)
Definition same_key_source path d d' : Prop :=
  files d' !! path = files d !! path ∧ blocked d' = blocked d ∧ environ d' = environ d ∧ ring d' = ring d.
Lemma same_machine_key path d d' : same_machine d d' → same_key_source path d d'.
Proof using. intros (F & B & V & G). unfold same_key_source. by rewrite F. Qed.
Lemma makedirs_run {A} directory (f : unit → SE (Desk K N) A) d :
  directory ∉ blocked d → se_bind (makedirs directory) f d = f tt d.
Proof using. intros H. unfold makedirs, se_bind, se_get, se_check. by rewrite bool_decide_false. Qed.
Lemma makedirs_ok {A} directory (f : unit → SE (Desk K N) A) d a d' :
  se_bind (makedirs directory) f d = (Ok a, d') → directory ∉ blocked d ∧ f tt d = (Ok a, d').
Proof using.
  unfold makedirs, se_bind, se_get, se_check. case_bool_decide; [done|]. done.
Qed.
Lemma read_file_run path data d :
  path ∉ blocked d → files d !! path = Some data → read_file path d = (Ok data, d).
Proof using.
  intros H E. unfold read_file, se_bind, se_get, se_check, se_lift.
  rewrite bool_decide_false by done. by rewrite E.
Qed.
Lemma create_file_run {A} path (f : unit → SE (Desk K N) A) d :
  path ∉ blocked d →
  se_bind (create_file path) f d = f tt (set_files (<[path := []]> (files d)) d).
Proof using.
  intros H. unfold create_file, se_bind, se_get, se_check, se_modify. by rewrite bool_decide_false.
Qed.
Lemma create_file_ok {A} path (f : unit → SE (Desk K N) A) d a d' :
  se_bind (create_file path) f d = (Ok a, d') →
  path ∉ blocked d ∧ f tt (set_files (<[path := []]> (files d)) d) = (Ok a, d').
Proof using.
  unfold create_file, se_bind, se_get, se_check, se_modify. by case_bool_decide.
Qed.
Lemma urandom_files n d b d' :
  os_urandom n d = (Ok b, d') → length b = n ∧ same_machine d d'.
Proof using. unfold os_urandom. intros [= <- <-]. by rewrite length_map, length_seq. Qed.

(** The two draws [save] and [_write_key_file] make, only under a passphrase. *)
Lemma draw_files n (b : bool) d x d' :
  (if b then se_ret [] else os_urandom n) d = (Ok x, d') →
  same_machine d d' ∧ (b = false → length x = n).
Proof using.
  destruct b.
  - intros [= <- <-]. done.
  - intros [H ?]%urandom_files. done.
Qed.
Lemma draw_run n (b : bool) d : ∃ x d', (if b then se_ret [] else os_urandom n) d = (Ok x, d').
Proof using. destruct b; eauto. Qed.

(** ** Identity files *)

Lemma to_vault_plain (i : Identity.Identity) salt nonce n :
  Identity.to_vault i "" salt nonce = Identity.to_vault i "" salt n.
Proof using. reflexivity. Qed.

Lemma vault_reads (i : Identity.Identity) p salt nonce data :
  Identity.wf_identity i → (String.eqb p "" = false → length nonce = 12%nat) →
  Identity.to_vault i p salt nonce = Ok data → Identity.from_vault data p = Ok i.
Proof using L.
  intros Hi Hn E. destruct (String.eqb p "") eqn:Ep.
  - apply String.eqb_eq in Ep as ->. rewrite (to_vault_plain i salt nonce (repeat "0"%char 12)) in E.
    destruct (Identity.vault_roundtrip i "" salt (repeat "0"%char 12) Hi eq_refl) as (d & E' & H). congruence.
  - destruct (Identity.vault_roundtrip i p salt nonce Hi (Hn eq_refl)) as (d & E' & H). congruence.
Qed.
Lemma vault_made (i : Identity.Identity) p salt nonce : ∃ data, Identity.to_vault i p salt nonce = Ok data.
Proof using L.
  destruct (pbkdf2_ok (bs p) salt Identity.PBKDF2_ITERATIONS ltac:(done)) as (k & Ek & _).
  unfold Identity.to_vault, Identity.vault_payload, Identity.vault_key. rewrite Ek. cbn [res_bind].
  destruct (negb _); cbn [res_bind]; by eexists.
Qed.

(** Writing an identity where the process may write leaves its vault in the file. *)
Lemma save_identity_run (i : Identity.Identity) path p d :
  path ∉ blocked d → dirname path ∉ blocked d →
  ∃ salt nonce data d',
    save_identity i path p d = (Ok tt, d') ∧ Identity.to_vault i p salt nonce = Ok data ∧
    (String.eqb p "" = false → length nonce = 12%nat) ∧
    files d' = <[path := data]> (files d) ∧ blocked d' = blocked d ∧ environ d' = environ d ∧
    home d' = home d ∧ ring d' = ring d ∧ databases d' = databases d.
Proof using L.
  intros Hp Hd. unfold save_identity. rewrite makedirs_run, create_file_run by done.
  set (d1 := set_files _ d).
  assert (∃ salt d2, (if String.eqb p "" then se_ret [] else os_urandom 16) d1 = (Ok salt, d2) ∧
            files d2 = files d1 ∧ blocked d2 = blocked d1 ∧ environ d2 = environ d1 ∧ home d2 = home d1 ∧
            ring d2 = ring d1 ∧ databases d2 = databases d1) as (salt & d2 & E2 & H2)
    by (destruct (String.eqb p ""); by do 2 eexists).
  rewrite (se_bind_run _ _ _ _ _ E2).
  assert (∃ nonce d3, (if String.eqb p "" then se_ret [] else os_urandom 12) d2 = (Ok nonce, d3) ∧
            (String.eqb p "" = false → length nonce = 12%nat) ∧
            files d3 = files d2 ∧ blocked d3 = blocked d2 ∧ environ d3 = environ d2 ∧ home d3 = home d2 ∧
            ring d3 = ring d2 ∧ databases d3 = databases d2) as (nonce & d3 & E3 & Hn & H3).
  { destruct (String.eqb p ""); do 2 eexists; (split; [reflexivity|]); by split. }
  rewrite (se_bind_run _ _ _ _ _ E3). destruct (vault_made i p salt nonce) as [data Ev]. rewrite Ev, se_lift_run.
  unfold write_file, se_modify. exists salt, nonce, data. eexists. split; [reflexivity|].
  destruct H2 as (F2 & B2 & V2 & M2 & R2 & D2), H3 as (F3 & B3 & V3 & M3 & R3 & D3).
  split; [done|]. split; [done|]. cbn. rewrite F3, F2, B3, B2, V3, V2, M3, M2, R3, R2, D3, D2. cbn.
  split_and!; [apply insert_insert_eq|done..].
Qed.

(** An identity saved where the process may write is loaded back, under its
    passphrase or without one; saving changes no other file. *)
Theorem identity_file_roundtrip (i : Identity.Identity) path p d :
  Identity.wf_identity i → path ∉ blocked d → dirname path ∉ blocked d →
  ∃ d', save_identity i path p d = (Ok tt, d') ∧ load_identity path p d' = (Ok i, d') ∧
        ∀ q, q ≠ path → files d' !! q = files d !! q.
Proof using L.
  intros Hi Hp Hd. destruct (save_identity_run i path p d Hp Hd) as (salt & nonce & data & d' & E & Ev & Hn & F & B & _).
  exists d'. split; [done|]. split.
  - unfold load_identity. rewrite (se_bind_run _ _ _ data d').
    + by rewrite (vault_reads i p salt nonce).
    + apply read_file_run; [by rewrite B|]. rewrite F. apply lookup_insert_eq.
  - intros q Hq. rewrite F. by apply lookup_insert_ne.
Qed.

(** ** The key of the local store *)

Lemma key_file_reads salt nonce key p q payload :
  length key = 32%nat → (String.eqb p "" = false → length nonce = 12%nat) → (String.eqb p "" = false → q = p) →
  key_file salt nonce key p = Ok payload → load_key_file (JObj payload) q = Ok key.
Proof using L.
  intros Hk Hn Hq. unfold key_file, load_key_file, derive_key_from_passphrase.
  destruct (String.eqb p "") eqn:Ep; cbn [negb].
  - intros [= <-]. cbn. apply b64d_b64e.
  - rewrite (Hq eq_refl). destruct (pbkdf2_ok (bs p) salt PBKDF2_DEFAULT ltac:(done)) as (w & Ew & Hw). rewrite Ew.
    cbn [res_bind]. destruct (Aead.encrypt nonce w key []) as [[n c]|] eqn:E; [|done].
    pose proof (Aead.encrypt_nonce _ _ _ _ _ _ E) as ->. intros [= <-]. cbn [res_bind jget dget String.eqb Ascii.eqb Bool.eqb].
    assert (truthy (JStr (b64e (nonce ++ c))) = true) as ->.
    { cbn [truthy]. destruct (String.eqb_spec (b64e (nonce ++ c)) ""); [|done].
      assert (b64d (b64e (nonce ++ c)) = Ok []) as H by (rewrite e; reflexivity). rewrite b64d_b64e in H.
      pose proof (Hn eq_refl). destruct nonce; [done|discriminate]. }
    cbn [res_bind]. rewrite Ep. cbn [jitem dget of_option String.eqb Ascii.eqb Bool.eqb res_bind b64d_json to_int].
    rewrite !b64d_b64e. cbn [res_bind]. rewrite Ew. cbn [res_bind]. unfold split.
    rewrite take_app_length', drop_app_length' by (symmetry; by apply Hn).
    apply Aead.decrypt_iff. split_and!; [done | by apply Hn | done].
Qed.

Lemma key_file_wf salt nonce key p payload : key_file salt nonce key p = Ok payload → wf_dict payload.
Proof using.
  unfold key_file. destruct (negb _); intros E; rinv E; subst; [|solve_wf].
  destruct a0 as [n c]. injection E as <-. solve_wf.
Qed.

(** A key file just written holds the key. *)
Lemma write_key_file_reads path key p d d' :
  length key = 32%nat → write_key_file path key p d = (Ok tt, d') →
  load_key_from path p d' = (Ok key, d') ∧ is_Some (files d' !! path) ∧
  environ d' = environ d ∧ ring d' = ring d ∧ blocked d' = blocked d.
Proof using L.
  intros Hk. unfold write_key_file.
  intros (salt & d1 & [[F1 (B1 & V1 & R1)] _]%draw_files & H)%se_bind_Ok.
  apply se_bind_Ok in H as (nonce & d2 & [[F2 (B2 & V2 & R2)] Hn]%draw_files & H).
  destruct (key_file salt nonce key p) as [payload|] eqn:E; [|done]. rewrite se_lift_run in H.
  apply create_file_ok in H as [Hb H]. unfold write_file, se_modify in H.
  set (data := dumps fmt_default (JObj payload)) in H.
  assert (files d' = <[path := data]> (files d)) as F by (injection H as <-; cbn; by rewrite insert_insert_eq, F2, F1).
  assert (environ d' = environ d ∧ ring d' = ring d ∧ blocked d' = blocked d) as (V & G & B)
    by (injection H as <-; cbn; by rewrite V2, V1, R2, R1, B2, B1).
  clear H. split; [|rewrite F, lookup_insert_eq; by split; [eexists|]].
  unfold load_key_from. rewrite (se_bind_run _ _ _ data d').
  2:{ apply read_file_run; [by rewrite B, <-B1, <-B2|]. rewrite F. apply lookup_insert_eq. }
  pose proof (key_file_wf _ _ _ _ _ E) as Hwf. unfold wf_dict in Hwf.
  unfold data, decode_utf8, dumps. rewrite (utf8_dumps _ utf8_str utf8_str) by eauto using fmt_default_ok, esc_utf8_default.
  rewrite se_lift_run. pose proof (json_text_loads _ Hwf) as El. unfold dumps in El. rewrite El, se_lift_run.
  unfold se_lift. by rewrite (key_file_reads salt nonce key p p).
Qed.

(** Reading the key file depends on the file alone. *)
Lemma load_key_from_again path p d key d' d2 :
  load_key_from path p d = (Ok key, d') → files d2 !! path = files d !! path → blocked d2 = blocked d →
  d' = d ∧ load_key_from path p d2 = (Ok key, d2).
Proof using.
  intros H F B. unfold load_key_from, read_file, se_bind, se_get, se_check, se_lift in *.
  rewrite F, B. destruct (bool_decide _); [done|]. cbn in *.
  destruct (files d !! path) as [data|]; [|done]. cbn [of_option] in *. destruct (decode_utf8 data); [|done].
  destruct (json_loads _); [|done]. injection H as H <-. by rewrite H.
Qed.

Lemma b64e_set b : length b ≠ 0%nat → is_set (Some (b64e b)) = true.
Proof using.
  intros H. cbn. destruct (String.eqb_spec (b64e b) ""); [|done].
  assert (b64d (b64e b) = Ok []) as E by (by rewrite e). rewrite b64d_b64e in E. injection E as ->. done.
Qed.

Definition elsewhere_same d d' : Prop := files d' = files d ∧ blocked d' = blocked d ∧ environ d' = environ d.

(** The [try] block when the keyring answers with a password. *)
Lemma keyring_key_held id d pw :
  (get_password KEYRING_SERVICE id (ring d)).1 = Ok (Some pw) → is_set (Some pw) = true →
  keyring_key id d = (match b64d pw with
                      | Ok key => Ok (Some key) | Err e => if isa_Exception e then Ok None else Err e
                      end, set_ring (get_password KEYRING_SERVICE id (ring d)).2 d).
Proof using.
  intros E Hs. unfold keyring_key, se_catch, on_ring, se_bind. destruct (get_password _ _ _) as [r k] eqn:Eg.
  cbn [fst snd] in *. subst r. rewrite Hs. cbn. destruct (b64d pw); [done|]. by destruct (isa_Exception e).
Qed.

(** The keyring gives the same key again. *)
Lemma keyring_key_again id d key d' :
  keyring_key id d = (Ok (Some key), d') →
  elsewhere_same d d' ∧
  ∀ d2, ring d2 = ring d' →
    ∃ d3, keyring_key id d2 = (Ok (Some key), d3) ∧ same_machine d2 d3 ∧ databases d3 = databases d2.
Proof using RL.
  intros H. unfold keyring_key, se_catch, on_ring, se_bind in H.
  destruct (get_password KEYRING_SERVICE id (ring d)) as [r k] eqn:Eg.
  pose proof (get_password_pure KEYRING_SERVICE id (ring d)) as Hk. rewrite Eg in Hk. cbn in Hk. subst k.
  destruct r as [stored|e]; [|by destruct (isa_Exception e)].
  destruct (is_set stored) eqn:Es.
  - destruct stored as [pw|]; [|done]. cbn in H. unfold se_ret in H. destruct (b64d pw) as [?|e] eqn:Ep; [|by destruct e]. injection H as <- <-. split; [done|].
    intros d2 G. eexists. rewrite (keyring_key_held id d2 pw); [|by rewrite G; cbn; rewrite Eg|done].
    rewrite Ep. split; [done|]. split; [|done]. split_and!; [done..|apply get_password_pure].
  - destruct (os_urandom 32 _) as [[b|] d1] eqn:Eu; [|done].
    destruct (urandom_files _ _ _ _ Eu) as [Hb (F & B & V & G)]. cbn in F, B, V, G.
    destruct (set_password _ _ _ _) as [[[]|e] k'] eqn:Ep; [|by destruct (isa_Exception e)].
    injection H as <- <-. split; [done|]. intros d2 G2. cbn in G2. eexists.
    rewrite (keyring_key_held id d2 (b64e b)); [|rewrite G2; by apply (set_then_get _ _ _ _ _ Ep)|apply b64e_set; lia].
    rewrite b64d_b64e. split; [done|]. split; [|done]. split_and!; [done..|apply get_password_pure].
Qed.

Lemma new_key_file_reads path p d key d' :
  new_key_file path p d = (Ok key, d') →
  length key = 32%nat ∧ load_key_from path p d' = (Ok key, d') ∧ is_Some (files d' !! path) ∧
  blocked d' = blocked d ∧ environ d' = environ d ∧ ring d' = ring d.
Proof using L.
  unfold new_key_file. intros (k & d1 & [Hk (F & B & V & G)]%urandom_files & ([] & d2 & Hw & [= <- <-])%se_bind_Ok)%se_bind_Ok.
  destruct (write_key_file_reads _ _ _ _ _ Hk Hw) as (Hl & Hf & V2 & G2 & B2). split_and!; congruence.
Qed.

Lemma new_key_file_draws path p d key d' :
  new_key_file path p d = (Ok key, d') → key = map (tape (d_env d)) (seq (tpos (d_env d)) 32).
Proof using. unfold new_key_file, os_urandom. by intros (k & d1 & [= <- <-] & ([] & d2 & _ & [= <- <-])%se_bind_Ok)%se_bind_Ok. Qed.
Lemma held_blocked (b : bool) id d r d' :
  (if b then se_ret None else keyring_key id) d = (r, d') → blocked d' = blocked d.
Proof using.
  destruct b; [by intros [= <- <-]|]. unfold keyring_key, se_catch, on_ring, se_bind.
  destruct (get_password _ _ _) as [[stored|e] k]; [|by intros [= <- <-]].
  destruct (is_set stored); [by destruct (b64d _); intros [= <- <-]|]. unfold os_urandom.
  destruct (set_password _ _ _ _) as [[[]|e] k']; by intros [= <- <-].
Qed.
(** An existing key file always wins. *)
Lemma resolve_from_file directory id p d :
  directory ∉ blocked d → is_Some (files d !! path_join directory LOCAL_KEY_NAME) →
  resolve_store_key directory id p d = load_key_from (path_join directory LOCAL_KEY_NAME) p d.
Proof using.
  intros Hd Hf. unfold resolve_store_key. rewrite makedirs_run by done. unfold path_exists, se_bind.
  by rewrite bool_decide_true.
Qed.
Lemma resolve_without_file directory id p d :
  directory ∉ blocked d → files d !! path_join directory LOCAL_KEY_NAME = None →
  resolve_store_key directory id p d
  = (do! held := (if is_set (environ d !! DISABLE_KEYRING_ENV) then se_ret None else keyring_key id) in
     match held with Some key => se_ret key | None => new_key_file (path_join directory LOCAL_KEY_NAME) p end) d.
Proof using.
  intros Hd Hf. unfold resolve_store_key. rewrite makedirs_run by done. unfold path_exists, getenv, se_bind.
  rewrite bool_decide_false; [done|]. rewrite Hf. by intros [].
Qed.

Lemma resolve_blocked directory id p d key d' :
  resolve_store_key directory id p d = (Ok key, d') → blocked d' = blocked d.
Proof using L.
  intros H. assert (directory ∉ blocked d) as Hd by (unfold resolve_store_key in H; by apply makedirs_ok in H as [? _]).
  destruct (files d !! path_join directory LOCAL_KEY_NAME) eqn:Ef.
  - rewrite resolve_from_file in H by (by rewrite ?Ef).
    by destruct (load_key_from_again _ _ _ _ _ d H eq_refl eq_refl) as [-> _].
  - rewrite resolve_without_file in H by done. apply se_bind_Ok in H as (held & d1 & Hh%held_blocked & H).
    destruct held; [by injection H as -> ->|]. apply new_key_file_reads in H as (_ & _ & _ & -> & _). done.
Qed.

(** The local key is stable: whatever way it was obtained (key file, keyring, or
    new), the next start on the same machine obtains the same key and changes nothing. *)
Lemma resolve_again directory id p d key d' d2 :
  resolve_store_key directory id p d = (Ok key, d') → same_key_source (path_join directory LOCAL_KEY_NAME) d' d2 →
  ∃ d3, resolve_store_key directory id p d2 = (Ok key, d3) ∧
    same_machine d2 d3 ∧ databases d3 = databases d2.
Proof using L RL.
  set (path := path_join directory LOCAL_KEY_NAME). intros H Hs.
  assert (directory ∉ blocked d) as Hd by (unfold resolve_store_key in H; by apply makedirs_ok in H as [? _]).
  destruct (files d !! path) eqn:Ef.
  - rewrite (resolve_from_file _ _ _ d) in H by (try done; unfold path in Ef; by rewrite Ef).
    destruct (load_key_from_again _ _ _ _ _ d H eq_refl eq_refl) as [-> _].
    destruct Hs as (F & B & _), (load_key_from_again _ _ _ _ _ d2 H F B) as [_ H2].
    exists d2. rewrite resolve_from_file; [done | by rewrite B | fold path; rewrite F; by rewrite Ef].
  - rewrite (resolve_without_file _ _ _ d Hd Ef) in H. apply se_bind_Ok in H as (held & d1 & Hh & H).
    destruct held as [k|].
    + injection H as -> ->. destruct (is_set _) eqn:Ev; [done|].
      destruct (keyring_key_again _ _ _ _ Hh) as [(F & B & V) Hk], Hs as (F2 & B2 & V2 & G2).
      destruct (Hk d2 G2) as (d3 & E3 & Hd3). exists d3. rewrite resolve_without_file; [|by rewrite B2, B|by fold path; rewrite F2, F].
      rewrite V2, V, Ev. by rewrite (se_bind_run _ _ _ _ _ E3).
    + apply new_key_file_reads in H as (_ & Hl & Hf & B & _). destruct Hs as (F2 & B2 & V2 & G2).
      assert (blocked d1 = blocked d) as B1 by (eapply held_blocked; exact Hh).
      destruct (load_key_from_again _ _ _ _ _ d2 Hl F2 B2) as [_ H2]. exists d2.
      rewrite resolve_from_file; [done | by rewrite B2, B, B1 | by fold path; rewrite F2].
Qed.

(** The key changes when the keyring is switched off (or fails) for one start: a new
    key file is written, and from then on it wins, so the key the keyring
    holds is never used again and the database it sealed can no longer be read. *)
Theorem keyring_key_abandoned directory id p d pw old key d' d2 :
  directory ∉ blocked d → files d !! path_join directory LOCAL_KEY_NAME = None →
  (get_password KEYRING_SERVICE id (ring d)).1 = Ok (Some pw) → is_set (Some pw) = true → b64d pw = Ok old →
  is_set (environ d !! DISABLE_KEYRING_ENV) = true →
  resolve_store_key directory id p d = (Ok key, d') →
  files d2 = files d' → blocked d2 = blocked d' → environ d2 = delete DISABLE_KEYRING_ENV (environ d') →
  (resolve_store_key directory id p (set_environ (delete DISABLE_KEYRING_ENV (environ d)) d)).1 = Ok old ∧
  key = map (tape (d_env d)) (seq (tpos (d_env d)) 32) ∧
  resolve_store_key directory id p d2 = (Ok key, d2).
Proof using L.
  intros Hd Hf Eg Hs Eo Ev H F2 B2 V2. rewrite (resolve_without_file _ _ _ d Hd Hf) in H.
  rewrite Ev, (se_bind_run _ _ d None d) in H by done. split_and!.
  - rewrite resolve_without_file by done. cbn [environ set_environ]. rewrite lookup_delete_eq. cbn [is_set].
    unfold se_bind. by rewrite (keyring_key_held id (set_environ _ d) pw Eg Hs), Eo.
  - by apply new_key_file_draws in H.
  - apply new_key_file_reads in H as (_ & Hl & Hx & B & _).
    rewrite resolve_from_file by (by rewrite ?F2, ?B2, ?B). apply (load_key_from_again _ _ _ _ _ d2 Hl); by rewrite ?F2.
Qed.
End runs.

(** ** A concrete machine *)

Import Toy.

Module Machine.
(** A keyring that works: a map from service and user. *)
Definition ring_map : Type := gmap (string * string) string.
#[export] Instance map_keyring : Keyring ring_map := {|
  get_password service user := λ k, (Ok (k !! (service, user)), k);
  set_password service user pw := λ k, (Ok tt, <[(service, user) := pw]> k)
|}.
#[export] Instance map_keyring_laws : KeyringLaws ring_map.
Proof.
  split; [done|]. intros service user pw k k' [= <-]. cbn. f_equal. exact (lookup_insert_eq k (service, user) pw).
Qed.

Definition draws (seed : Z) : Env :=
  {| tape i := byte_of (seed + Z.of_nat i); tpos := 0; clock i := 1700000000000 + Z.of_nat i; ticks := 0;
     pads i j := j; padded := 0 |}.
Definition machine {N} (net : N) (vars : gmap string string) : Desk ring_map N :=
  {| files := ∅; blocked := ∅; environ := vars; home := "/home/ann"; ring := ∅; databases := ∅;
     d_net := net; d_env := draws 1 |}.
Definition holding (pw : string) (d : Desk ring_map unit) : Desk ring_map unit :=
  set_ring (<[(KEYRING_SERVICE, "id"%string) := pw]> (ring d)) d.
End Machine.
Import Machine.

Lemma identity_file_roundtrip_witness :
  ∃ d' : Desk ring_map unit,
    save_identity Identity.sample_identity "/h/identity.nk" "pass" (machine tt ∅) = (Ok tt, d') ∧
    load_identity "/h/identity.nk" "pass" d' = (Ok Identity.sample_identity, d') ∧
    ∀ q, q ≠ "/h/identity.nk"%string → files d' !! q = files (machine tt ∅) !! q.
Proof.
  apply (identity_file_roundtrip Identity.sample_identity "/h/identity.nk" "pass" (machine tt ∅));
    [apply Identity.sample_identity_wf | apply not_elem_of_empty..].
Defined.

Definition first_key : bytes := map (tape (draws 1)) (seq 0 32).
Definition headless : gmap string string := {[DISABLE_KEYRING_ENV := "1"%string]}.
Definition headless_machine : Desk ring_map unit := holding (b64e (repeat "k"%char 32)) (machine tt headless).
Definition after_headless : Desk ring_map unit := (resolve_store_key "/h" "id" "" headless_machine).2.
Definition next_machine : Desk ring_map unit := set_environ (delete DISABLE_KEYRING_ENV (environ after_headless)) after_headless.
Lemma keyring_key_abandoned_witness :
  (resolve_store_key "/h" "id" "" (set_environ (delete DISABLE_KEYRING_ENV headless) headless_machine)).1
  = Ok (repeat "k"%char 32) ∧
  resolve_store_key "/h" "id" "" next_machine = (Ok first_key, next_machine) ∧ first_key ≠ repeat "k"%char 32.
Proof.
  pose proof (keyring_key_abandoned "/h" "id" "" headless_machine (b64e (repeat "k"%char 32)) (repeat "k"%char 32)
    first_key after_headless next_machine) as H.
  destruct H as (H1 & _ & H3); [apply not_elem_of_empty | reflexivity | reflexivity | vm_compute; reflexivity
    | apply b64d_b64e | reflexivity | apply run_pair; vm_compute; reflexivity | reflexivity | reflexivity | reflexivity |].
  split; [exact H1|]. split; [exact H3|]. discriminate.
Defined.
