(* ===== verification/ClientRelays.v ===== *)
(** * The client's life and its relay set ([core/client.py])

    The constructor, what the interface reads from a client, and [refresh_relays], which
    composes discovery ([Discovery.discover_relays]) with adoption
    ([Client.apply_relays]).  The pool's transport is an argument. *)

From S2P Require Import Prelude PyStr Json Primitives Encoding RelayUrls Store StoreProps ClientState Sync Client ClientProps ClientRuns.
From S2P Require Identity Card Transport Discovery.

Definition DEFAULT_OPK_COUNT : nat := 20.

Section life.
Context {C : Crypto} {N : Type}.

(** [name or identity.label or self.identity_id[:8]] *)
Definition client_name (name label : json) (id : string) : res string :=
  match jor name (jor label (JStr (first_chars 8 id))) with JStr s => Ok s | _ => Err Unmodelled end.
(** [Client.__init__]: no mailbox, no card and nothing cached yet. *)
Definition new_client (identity : Identity.Identity) (store : LocalStore) (relays : list string) (name : json)
    (net : N) (env : Env) : res (Client N) :=
  let urls := normalize_relay_urls relays in
  raise_if match urls with [] => true | _ => false end with ValueError ;;
  let? name := client_name name (Identity.label identity) (Identity.identity_id identity) in
  Ok {| cl_identity := identity; cl_store := store; cl_relays := urls; cl_name := name;
        cl_opk_count := DEFAULT_OPK_COUNT; cl_inbox := None; cl_bundle := None; cl_card := None; cl_device := None;
        cl_siblings := ∅; cl_list := None; cl_index := None; cl_net := net; cl_env := env |}.
Definition device_id (c : Client N) : option string := cl_device c.
Definition client_contacts : SE (Client N) (list contact) :=
  do! c := se_get in on_store (list_contacts (me c)).
Definition client_messages (contact_id : string) : SE (Client N) (list message) :=
  do! c := se_get in on_store (list_messages (me c) contact_id).
Definition relay_urls : SE (Client N) (list string) := do! c := se_get in se_ret (cl_relays c).
End life.

Section refresh.
Context {C : Crypto} {Zl : Zlib} {N : Type} {P : Pool N} {T : Transport.Net N}.

Definition card_string : SE (Client N) string := do! card := get_card in se_ret (Card.to_string card).

(** [discover_relays()] with the defaults of [wire/discovery.py], in milliseconds. *)
Definition discover_relays (t : Transport.Transport) (allow_private : bool) : SE (Client N) (list string) :=
  do! c := se_get in
  on_net (Discovery.discover_relays t allow_private (cl_relays c) Discovery.MAX_RELAYS 6000 true Discovery.MAX_CANDIDATES).
Definition refresh_relays (t : Transport.Transport) (allow_private : bool) : SE (Client N) (list string) :=
  do! discovered := discover_relays t allow_private in
  do! c := se_get in
  do! _ := (if bool_decide (discovered = cl_relays c) then se_ret tt else apply_relays discovered) in
  relay_urls.
End refresh.

(** ** What registering again leaves alone *)

Section account.
Context {C : Crypto} {Zl : Zlib} {N : Type} {P : Pool N} {T : Transport.Net N}.

(** The fields of the account and the relay set. *)
Definition same_account (c c' : Client N) : Prop :=
  (cl_identity c', cl_relays c', cl_name c', cl_inbox c', cl_bundle c', cl_card c')
  = (cl_identity c, cl_relays c, cl_name c, cl_inbox c, cl_bundle c, cl_card c).
#[export] Instance same_account_preorder : PreOrder same_account.
Proof. split; unfold same_account; [done|]. intros x y z H1 H2. by rewrite H2. Qed.

Lemma on_store_account {A} (m : SE LocalStore A) : keeps same_account (on_store m).
Proof using. intros c. unfold on_store. by destruct (m (cl_store c)). Qed.
Lemma on_net_account {A} (m : SE N A) : keeps same_account (on_net m).
Proof using. intros c. unfold on_net. by destruct (m (cl_net c)). Qed.

Lemma publish_bundle_account j : keeps same_account (publish_bundle j).
Proof using. unfold publish_bundle, own_backend. pose proof @on_net_account. pose proof @on_store_account. keeping; done. Qed.
Lemma register_existing_account inbox : keeps same_account (register_existing inbox).
Proof using.
  unfold register_existing. pose proof @on_net_account. pose proof @on_store_account. pose proof publish_bundle_account.
  keeping; done.
Qed.

Lemma discover_account t allow : keeps same_account (discover_relays t allow).
Proof using. unfold discover_relays. pose proof @on_net_account. keeping; done. Qed.

(** What adopting a list of relays leaves, when it succeeds. *)
Lemma apply_relays_run l c c' :
  apply_relays l c = (Ok tt, c') →
  let urls := normalize_relay_urls l in
  (c' = c ∧ (urls = [] ∨ urls = cl_relays c)) ∨
  (cl_relays c' = urls ∧ urls ≠ cl_relays c ∧ cl_identity c' = cl_identity c ∧ cl_inbox c' = cl_inbox c ∧
   cl_bundle c' = cl_bundle c ∧
   ∀ card inbox b, cl_card c = Some card → cl_inbox c = Some inbox → cl_bundle c = Some b → b ≠ ""%string →
     cl_card c' = Some (Card.create (cl_identity c) b inbox urls (JStr (cl_name c)))).
Proof using.
  intros H urls. unfold apply_relays in H. rewrite se_get_run in H. fold urls in H.
  destruct (match urls with [] => true | _ => false end || bool_decide (urls = cl_relays c)) eqn:E.
  { injection H as <-. left. split; [done|]. apply orb_true_iff in E as [E|E%bool_decide_eq_true]; [left; by destruct urls|by right]. }
  right. apply orb_false_iff in E as [_ E%bool_decide_eq_false].
  apply se_bind_Ok in H as ([] & c1 & [= <-] & H). apply se_bind_Ok in H as ([] & c2 & Hr & H).
  assert (same_account (set_relays urls c) c2) as Hs.
  { destruct (cl_inbox c) as [inbox|]; [|by injection Hr as <-].
    pose proof (register_existing_account inbox (set_relays urls c)) as Hk. by rewrite Hr in Hk. }
  unfold same_account in Hs. cbn in Hs. injection Hs as Hi Hu Hn Hb Hd Hc.
  assert (∀ b inbox, cl_bundle c = Some b → cl_inbox c = Some inbox → make_card c2 = (Ok tt, c') →
    c' = set_card (Some (Card.create (cl_identity c) b inbox urls (JStr (cl_name c)))) c2) as Hm.
  { intros b inbox Eb Ei. unfold make_card, se_bind, se_get, se_some, se_lift, of_option, se_modify.
    rewrite Hd, Eb, Hb, Ei, Hi, Hu, Hn. by intros [= <-]. }
  destruct (cl_card c) as [card|], (cl_inbox c) as [inbox|] eqn:Ei, (cl_bundle c) as [b|] eqn:Eb;
    try (injection H as <-; by split_and!; congruence).
  destruct (String.eqb_spec b "") as [->|Hne].
  { injection H as <-. split_and!; congruence. }
  rewrite (Hm _ _ eq_refl eq_refl H). cbn. split_and!; congruence.
Qed.

(** Refreshing only adds relays.  The relays in use stay first and in order, at most
    [MAX_RELAYS] are used unless more already were, and when any was added the contact card
    is signed again over the wider set. *)
Theorem refresh_relays_grows t allow c urls c' :
  Forall is_clean (cl_relays c) → NoDup (cl_relays c) →
  refresh_relays t allow c = (Ok urls, c') →
  cl_relays c' = urls ∧ cl_relays c `prefix_of` urls ∧
  Z.of_nat (length urls) ≤ Z.max (Z.of_nat (length (cl_relays c))) Discovery.MAX_RELAYS ∧
  cl_identity c' = cl_identity c ∧
  ∀ card inbox b, urls ≠ cl_relays c → cl_card c = Some card → cl_inbox c = Some inbox → cl_bundle c = Some b →
    b ≠ ""%string → cl_card c' = Some (Card.create (cl_identity c) b inbox urls (JStr (cl_name c))).
Proof using.
  intros Hc Hnd H. unfold refresh_relays in H. apply se_bind_Ok in H as (found & c1 & Hf & H).
  pose proof (discover_account t allow c) as Hs. rewrite Hf in Hs. cbn [snd] in Hs. injection Hs as Hi Hu Hn Hb Hd Ha.
  unfold discover_relays in Hf. rewrite se_get_run in Hf. unfold on_net in Hf.
  destruct (Discovery.discover_relays _ _ _ _ _ _ _ _) as [r n] eqn:Ed. injection Hf as -> _.
  apply Discovery.discover_result in Ed. rewrite (normalize_clean _ Hc Hnd) in Ed.
  destruct Ed as (added & K & _ & _ & -> & Hlen & _). rewrite se_get_run in H.
  pose proof (normalize_app_clean _ added Hc Hnd) as Hp. set (found := normalize_relay_urls _) in *.
  assert (Hp2 := Hp). destruct Hp2 as [more Hmore].
  pose proof (normalize_app_clean _ more Hc Hnd) as Hp'. rewrite <-Hmore in Hp'.
  pose proof (normalize_length found) as Hl'. apply se_bind_Ok in H as ([] & c2 & H & [= Hr <-]).
  rewrite Hu in H. case_bool_decide as E.
  - injection H as <-. rewrite Hu in Hr. subst urls. split_and!; [done..|lia|done|]. done.
  - apply apply_relays_run in H as [[-> Hz]|(Hr2 & Hne & Hi2 & _ & _ & Hcard)].
    + rewrite Hu in Hr. subst urls. split_and!; [done..|lia|done|]. done.
    + rewrite Hr2 in Hr. subst urls. split_and!; [done..|lia|congruence|].
      intros card inbox b _ E1 E2 E3 Hb0. rewrite (Hcard card inbox b) by congruence. by rewrite Hi, Hn.
Qed.
End account.

(** ** A relay that knows another one *)

Import Toy Sample.
#[local] Instance advertising : Transport.Net relay := {|
  Transport.session_request q := λ n,
    (Ok {| Transport.status_code := 200; Transport.content := [];
           Transport.response_json := Ok (JObj [("relays", JList [JStr "https://q.example"]); ("status", JStr "ok")])%string |}, n);
  Transport.time_sleep _ n := n
|}.
Definition desktop_transport : Transport.Transport := Transport.new_transport 30000 3 500 None false.
Definition curious : Client relay := Sample.new_client 3 sample_store empty_relay.
Lemma refresh_relays_grows_witness :
  let c' := (refresh_relays desktop_transport false curious).2 in
  cl_relays c' = ["https://r"; "https://q.example"]%string ∧ cl_relays curious `prefix_of` cl_relays c'.
Proof.
  destruct (refresh_relays_grows desktop_transport false curious ["https://r"; "https://q.example"]%string
    (refresh_relays desktop_transport false curious).2) as (H1 & H2 & _).
  - repeat constructor; done.
  - apply NoDup_singleton.
  - apply run_pair. vm_compute. reflexivity.
  - split; [exact H1|]. by rewrite H1.
Defined.
