(* ===== verification/Settings.v ===== *)
(** * Desktop settings and login ([gui/settings.py], [gui/session.py])

    The settings file, the paths of the data directory, the choice of transport and the
    opening of a client.  A settings file may hold any JSON value under a field's name,
    so the fields of [GuiSettings] are JSON values; [typed] says when they are what the
    annotations say.  An empty directory stands for [None]. *)

From S2P Require Import Prelude PyStr Json JsonProps Primitives Dict Encoding RelayUrls Sql Store StoreProps ClientState Client ClientProps ClientRuns LocalFiles ClientRelays.
From S2P Require Identity Url Transport.

Definition DEFAULT_RELAYS : list string := ["https://noknowledge.remotewire.net"]%string.
Definition DEFAULT_RELAYS_ENV : string := "NK_DEFAULT_RELAYS".
Definition DEFAULT_DISCOVERY_INTERVAL : Z := 900.

Definition default_relays (raw : option string) : list string :=
  let items := List.filter (λ s, negb (String.eqb s "")) (map py_strip (py_split "," (default ""%string raw))) in
  if is_set raw then match items with [] => DEFAULT_RELAYS | _ => items end else DEFAULT_RELAYS.

Record GuiSettings := {
  relays : json;
  proxy_url : json;
  proxy_enabled : json;
  fail_closed : json;
  theme : json;
  last_name : json;
  poll_seconds : json;
  auto_discover : json;
  discovery_interval : json
}.

(** [dataclasses.asdict] *)
Definition asdict (s : GuiSettings) : dict :=
  [("relays", relays s); ("proxy_url", proxy_url s); ("proxy_enabled", proxy_enabled s); ("fail_closed", fail_closed s);
   ("theme", theme s); ("last_name", last_name s); ("poll_seconds", poll_seconds s); ("auto_discover", auto_discover s);
   ("discovery_interval", discovery_interval s)]%string.
(** The constructor called with the known keys of [data]: the fields it names, the others
    at their defaults; keys that are no field are dropped. *)
Definition from_items (raw : option string) (data : dict) : GuiSettings :=
  let field k v := default v (dget k data) in
  {| relays := field "relays"%string (JList (map JStr (default_relays raw)));
     proxy_url := field "proxy_url"%string (JStr "");
     proxy_enabled := field "proxy_enabled"%string (JBool false);
     fail_closed := field "fail_closed"%string (JBool false);
     theme := field "theme"%string (JStr "dark");
     last_name := field "last_name"%string (JStr "");
     poll_seconds := field "poll_seconds"%string (JInt 2);
     auto_discover := field "auto_discover"%string (JBool true);
     discovery_interval := field "discovery_interval"%string (JInt DEFAULT_DISCOVERY_INTERVAL) |}.

(** A name is a file of the data directory. *)
Definition SETTINGS_NAME : string := "settings.json".
Definition identity_path (directory name : string) : string := path_join directory (name +:+ ".nk").
Definition store_path (directory : string) : string := path_join directory "local.db".

(** Proxy-only mode is fail-closed.  Timeouts in milliseconds. *)
Definition build_transport (s : GuiSettings) : res Transport.Transport :=
  let transport := Transport.new_transport 30000 3 500 in
  if truthy (proxy_enabled s) && truthy (proxy_url s) then
    match proxy_url s with JStr p => Ok (transport (Some p) true) | _ => Err Unmodelled end
  else Ok (transport None (truthy (fail_closed s))).

Section settings.
Context {C : Crypto} {K N : Type} {R : Keyring K}.

Definition data_dir : SE (Desk K N) string :=
  do! d := getenv "NK_DATA_DIR" in
  do! desk := se_get in
  se_ret (if is_set d then default ""%string d else path_join (home desk) ".noknowledge").
Definition or_data_dir (directory : string) : SE (Desk K N) string :=
  if String.eqb directory "" then data_dir else se_ret directory.

Definition save (s : GuiSettings) (directory : string) : SE (Desk K N) unit :=
  do! directory := or_data_dir directory in
  do! _ := makedirs directory in
  let path := path_join directory SETTINGS_NAME in
  do! _ := create_file path in
  write_file path (dumps fmt_indent2 (JObj (asdict s))).

(** [json.load] of the file; only these two exceptions mean the defaults. *)
Definition read_settings (path : string) : SE (Desk K N) (option json) :=
  se_catch (λ e, isa OSError e || isa JSONDecodeError e) None
    (do! data := read_file path in
     do! text := se_lift (decode_utf8 data) in
     do! j := se_lift (json_loads text) in se_ret (Some j)).
Definition load (directory : string) : SE (Desk K N) GuiSettings :=
  do! directory := or_data_dir directory in
  do! raw := getenv DEFAULT_RELAYS_ENV in
  let path := path_join directory SETTINGS_NAME in
  do! there := path_exists path in
  if negb there then se_ret (from_items raw []) else
  do! data := read_settings path in
  match data with
  | None => se_ret (from_items raw [])
  | Some data => do! items := se_lift (items_json data) in se_ret (from_items raw items)
  end.

(** Whether the identity needs a passphrase; what cannot be read counts as encrypted. *)
Definition identity_is_encrypted (path : string) : SE (Desk K N) bool :=
  do! payload := se_catch (λ e, isa OSError e || isa_ValueError e) None
    (do! data := read_file path in do! j := se_lift (json_loads_raw data) in se_ret (Some j)) in
  match payload with
  | None => se_ret true
  | Some payload => do! e := se_lift (jget "encrypted" payload) in se_ret (truthy e)
  end.

(** [list(settings.relays)], URLs. *)
Definition relay_strings (j : json) : res (list string) :=
  let? l := iter_json j in
  mapM (λ j, match j with JStr s => Ok s | _ => Err AttributeError end) l.
Definition build_client (identity : Identity.Identity) (s : GuiSettings) (directory : string)
    : SE (Desk K N) (Client N * Transport.Transport) :=
  do! directory := or_data_dir directory in
  do! _ := makedirs directory in
  do! key := resolve_store_key directory (Identity.identity_id identity) "" in
  do! store := open_store (store_path directory) key in
  do! now := now_s in
  let '(r, store) := register_identity (Identity.identity_id identity) (Identity.label identity)
                       (identity_path directory "identity") now store in
  do! _ := se_lift r in
  do! _ := se_modify (λ d, set_databases (<[store_path directory := store]> (databases d)) d) in
  do! urls := se_lift (relay_strings (relays s)) in
  do! t := se_lift (build_transport s) in
  do! d := se_get in
  do! c := se_lift (new_client identity store urls (Identity.label identity) (d_net d) (d_env d)) in
  se_ret (c, t).
End settings.

(** ** What a well-typed settings object is *)

Definition url_list (j : json) : Prop := ∃ l, j = JList (map JStr l) ∧ Forall utf8_str l.
Definition text (j : json) : Prop := ∃ s, j = JStr s ∧ utf8_str s.
Definition flag (j : json) : Prop := ∃ b, j = JBool b.
Definition whole (j : json) : Prop := ∃ n, j = JInt n.
Record typed (s : GuiSettings) : Prop := {
  ty_relays : url_list (relays s);
  ty_proxy_url : text (proxy_url s);
  ty_proxy_enabled : flag (proxy_enabled s);
  ty_fail_closed : flag (fail_closed s);
  ty_theme : text (theme s);
  ty_last_name : text (last_name s);
  ty_poll_seconds : whole (poll_seconds s);
  ty_auto_discover : flag (auto_discover s);
  ty_discovery_interval : whole (discovery_interval s)
}.

(** Values that a trip through a file does not change. *)
Definition plain (j : json) : Prop := wf_json utf8_str j ∧ canon true j = j.
Lemma plain_urls j : url_list j → plain j.
Proof.
  intros (l & -> & Hl). split.
  - cbn [wf_json]. rewrite Forall_map, Forall_map. exact Hl.
  - cbn [canon]. f_equal. rewrite map_map. apply map_ext. done.
Qed.
Lemma plain_text j : text j → plain j.
Proof. by intros (s & -> & Hs). Qed.
Lemma plain_flag j : flag j → plain j.
Proof. by intros (b & ->). Qed.
Lemma plain_whole j : whole j → plain j.
Proof. by intros (n & ->). Qed.
Create HintDb settings.
#[local] Hint Resolve plain_urls plain_text plain_flag plain_whole : settings.

Lemma asdict_plain s : typed s → Forall (λ kv, plain kv.2) (asdict s).
Proof. intros []. repeat (apply List.Forall_cons; [cbn [snd]; eauto with settings|]). apply List.Forall_nil. Qed.

Lemma asdict_nodup s : NoDup (map fst (asdict s)).
Proof. cbn. solve_nodup. Qed.
Lemma asdict_wf s : typed s → wf_dict (asdict s).
Proof.
  intros Hs%asdict_plain. apply wf_dict_elems. split; [apply asdict_nodup|].
  unfold asdict in *. repeat (apply List.Forall_cons_iff in Hs as [[? _] Hs]; apply List.Forall_cons; [split; [done|assumption]|]).
  apply List.Forall_nil.
Qed.

(** Reading back what [asdict] gave, in any order of the keys. *)
Lemma from_items_asdict raw s : typed s → from_items raw (canon_dict true (asdict s)) = s.
Proof.
  intros Hs. pose proof (asdict_plain s Hs) as Hp. destruct s. unfold from_items.
  repeat (erewrite dget_canon by apply asdict_nodup). cbn [asdict dget String.eqb Ascii.eqb Bool.eqb fmap option_fmap option_map default].
  unfold asdict in Hp. cbn in Hp.
  repeat match goal with H : Forall _ (_ :: _) |- _ => apply List.Forall_cons_iff in H as [[_ ?] H] end.
  cbn in *. by f_equal.
Qed.

Section settings_props.
Context {C : Crypto} {K N : Type} {R : Keyring K}.
Implicit Types d : Desk K N.

Lemma or_data_dir_set {A} directory (f : string → SE (Desk K N) A) d :
  directory ≠ ""%string → se_bind (or_data_dir directory) f d = f directory d.
Proof using. intros H. unfold or_data_dir. by rewrite (proj2 (String.eqb_neq _ _) H). Qed.

Lemma save_run s directory d :
  directory ≠ ""%string → directory ∉ blocked d → path_join directory SETTINGS_NAME ∉ blocked d →
  save s directory d
  = (Ok tt, set_files (<[path_join directory SETTINGS_NAME := dumps fmt_indent2 (JObj (asdict s))]> (files d)) d).
Proof using.
  intros Hd Hb Hp. unfold save. rewrite or_data_dir_set, makedirs_run, create_file_run by done.
  unfold write_file, se_modify. cbn. by rewrite insert_insert_eq.
Qed.

(** What [load] does with the contents of the file. *)
Lemma load_run directory d data :
  directory ≠ ""%string → path_join directory SETTINGS_NAME ∉ blocked d →
  files d !! path_join directory SETTINGS_NAME = Some data →
  load directory d
  = (match (let? t := decode_utf8 data in json_loads t) with
     | Ok j => let? items := items_json j in Ok (from_items (environ d !! DEFAULT_RELAYS_ENV) items)
     | Err JSONDecodeError => Ok (from_items (environ d !! DEFAULT_RELAYS_ENV) [])
     | Err OSError => Ok (from_items (environ d !! DEFAULT_RELAYS_ENV) [])
     | Err e => Err e
     end, d).
Proof using.
  intros Hd Hb Hf. unfold load. rewrite or_data_dir_set by done. unfold getenv, path_exists, se_bind.
  rewrite bool_decide_true by (by rewrite Hf). cbn [negb]. unfold read_settings, se_catch, se_bind.
  rewrite (read_file_run _ _ _ Hb Hf). unfold se_lift. destruct (decode_utf8 data) as [t|[]]; cbn; try done.
  destruct (json_loads t) as [j|[]]; cbn; try done. by destruct (items_json j).
Qed.

(** Settings are kept: what is saved is loaded again, whatever the environment says
    about default relays by then, and saving touches no other file. *)
Theorem settings_roundtrip s directory d raw :
  typed s → directory ≠ ""%string → directory ∉ blocked d → path_join directory SETTINGS_NAME ∉ blocked d →
  ∃ d', save s directory d = (Ok tt, d') ∧
        load directory (set_environ raw d') = (Ok s, set_environ raw d') ∧
        ∀ q, q ≠ path_join directory SETTINGS_NAME → files d' !! q = files d !! q.
Proof using.
  intros Hs Hd Hb Hp. eexists. split; [by apply save_run|]. split.
  - erewrite load_run by (done || apply lookup_insert_eq).
    pose proof (indent2_bytes_loads (JObj (asdict s)) (asdict_wf s Hs)) as E. unfold json_loads_bytes in E.
    rewrite E, canon_obj. cbn [items_json res_bind]. by rewrite from_items_asdict.
  - intros q Hq. cbn. by apply lookup_insert_ne.
Qed.

(** Loading never writes, gives the defaults when there is no file, when it cannot be
    read or when it is not JSON, and fails on exactly two kinds of file: bytes that are not
    UTF-8, and JSON that is not an object. *)
Theorem load_outcomes directory d :
  directory ≠ ""%string →
  let path := path_join directory SETTINGS_NAME in
  let dflt := from_items (environ d !! DEFAULT_RELAYS_ENV) [] in
  (load directory d).2 = d ∧
  (files d !! path = None ∨ path ∈ blocked d → (load directory d).1 = Ok dflt) ∧
  ∀ data, files d !! path = Some data → path ∉ blocked d →
    (decode_utf8 data = Err UnicodeError → (load directory d).1 = Err UnicodeError) ∧
    ∀ t, decode_utf8 data = Ok t →
      (json_loads t = Err JSONDecodeError → (load directory d).1 = Ok dflt) ∧
      (∀ j, json_loads t = Ok j → is_dict j = false → (load directory d).1 = Err AttributeError) ∧
      (∀ items, json_loads t = Ok (JObj items) →
         (load directory d).1 = Ok (from_items (environ d !! DEFAULT_RELAYS_ENV) items)).
Proof using.
  intros Hd path dflt. assert (files d !! path = None ∨ path ∈ blocked d → load directory d = (Ok dflt, d)) as Hmiss.
  { intros H. unfold load. rewrite or_data_dir_set by done. unfold getenv, path_exists, se_bind. fold path.
    destruct (files d !! path) eqn:Ef.
    - destruct H as [|Hb]; [done|]. rewrite bool_decide_true by done. cbn [negb].
      unfold read_settings, se_catch, read_file, se_bind, se_get, se_check. by rewrite bool_decide_true.
    - rewrite bool_decide_false by (by intros []). done. }
  split; [|split].
  - destruct (files d !! path) eqn:Ef; [|by rewrite Hmiss by auto].
    destruct (decide (path ∈ blocked d)); [by rewrite Hmiss by auto|]. by erewrite load_run.
  - intros H. by rewrite Hmiss.
  - intros data Hf Hb. rewrite (load_run _ _ data) by done. split; [by intros ->|]. intros t ->. cbn [res_bind fst].
    split; [by intros ->|]. split; [|by intros items ->]. intros j -> Hj. by destruct j.
Qed.
End settings_props.

(** ** The transport of a client *)

Section traffic.
Context {N : Type} {Network : Transport.Net N}.
#[local] Existing Instance Transport.recorded.

(** The hosts that are reached directly: the loopback names, and every name under [.local], which
    is another machine of the local network as a rule. *)
Definition exempt_host (url : string) : Prop :=
  ∃ p, Url.urlparse url = Ok p ∧
    let host := to_str (ascii_lower (Url.hostname p)) in
    host ∈ Transport.LOOPBACK ∨ endswith host ".local" = true.
Lemma is_local_exempt url : Transport.is_local url = Ok true → exempt_host url.
Proof using.
  unfold Transport.is_local. intros (p & Hp & [= H%orb_true_iff])%res_bind_Ok. exists p. split; [done|].
  destruct H as [H%bool_decide_eq_true|H]; auto.
Qed.

(** C30: with a proxy switched on or "fail closed" ticked, what leaves for the internet goes
    through the proxy: every request the client's transport sends goes through the configured
    proxy, or to a loopback name or a name under [.local]; and with no proxy configured a
    request to any other host is refused unsent.  Hosts under [.local] are other machines of the
    local network: requests to them are sent directly, in the clear for all the proxy does,
    fail closed or not, although the docstring of transport.py has non-loopback hosts refused. *)
Theorem traffic_confined s t method url to hs ps body (n : N) (log : list Transport.event) r n' log' :
  typed s → (truthy (proxy_enabled s) && truthy (proxy_url s)) || truthy (fail_closed s) = true →
  build_transport s = Ok t →
  Transport.request t method url to hs ps body (n, log) = (r, (n', log')) →
  (∃ new, log' = log ++ new ∧
    ∀ q, Transport.Sent q ∈ new →
      exempt_host (Transport.rq_url q) ∨
      ∃ p, truthy (proxy_enabled s) = true ∧ proxy_url s = JStr p ∧ p ≠ ""%string ∧ Transport.rq_proxies q = Transport.via p) ∧
  (truthy (proxy_enabled s) && truthy (proxy_url s) = false → Transport.is_local url = Ok false →
     r = Err TransportError ∧ log' = log).
Proof.
  intros Hs Hclosed Ht E. destruct (ty_proxy_url s Hs) as (p & Hp & _). unfold build_transport in Ht. rewrite Hp in *.
  destruct (truthy (proxy_enabled s) && truthy (JStr p)) eqn:Ep.
  - injection Ht as <-. apply andb_true_iff in Ep as [Ep Hne]. cbn [truthy] in Hne.
    apply negb_true_iff in Hne. assert (Hne' := Hne). apply String.eqb_neq in Hne'.
    apply Transport.fail_closed_never_direct in E as [(new & -> & Hnew) _]; [|done..]. split; [|done].
    exists new. split; [done|]. intros q [Hq|(p' & Hp' & Hq)]%Hnew; [left; by apply is_local_exempt|]. right. exists p.
    unfold Transport.proxy_of in Hp'. cbn in Hp'. rewrite Hne in Hp'. by injection Hp' as <-.
  - injection Ht as <-. cbn [orb] in Hclosed. rewrite Hclosed in E.
    apply Transport.fail_closed_never_direct in E as [(new & -> & Hnew) Hrefuse]; [|done..]. split.
    + exists new. split; [done|]. intros q [Hq|(p' & Hp' & _)]%Hnew; [left; by apply is_local_exempt|done].
    + intros _ Hl. by apply Hrefuse.
Qed.
End traffic.

(** ** Starting again *)

Section login.
Context {C : Crypto} {L : CryptoLaws C} {Zl : Zlib} {K N : Type} {R : Keyring K} {RL : KeyringLaws K} {P : Pool N}.
Implicit Types d : Desk K N.

(** Everything but the table of identities is the same. *)
Definition same_tables (s s' : LocalStore) : Prop := set_identities (identities s) s' = s.

Lemma open_store_ok path key d store d' :
  open_store path key d = (Ok store, d') →
  d' = d ∧ dirname path ∉ blocked d ∧ length key = 32%nat ∧
  store = match databases d !! path with
          | Some st => rekey key st
          | None => ok_or (rekey key (rekey key store)) (new_store key)
          end ∧ store_key store = key.
Proof using.
  unfold open_store. destruct (new_store key) as [fresh|] eqn:En; [|done]. rewrite se_lift_run.
  intros [Hb H]%makedirs_ok. injection H as <- <-. unfold new_store in En.
  destruct (Z.eqb_spec (blen key) LOCAL_KEY_SIZE) as [E|]; [|done]. cbn in En. injection En as <-.
  unfold blen, LOCAL_KEY_SIZE in E. split_and!; [done..|lia| |]; by destruct (databases d !! path).
Qed.

Lemma register_identity_ok id label path now s s' :
  register_identity id label path now s = (Ok tt, s') → same_tables s s' ∧ is_Some (ok_or_none (sql_text label)).
Proof using.
  unfold register_identity. rewrite se_get_run. destruct (sql_text label) as [l|]; [|done]. rewrite se_lift_run.
  intros [= <-]. split; [by destruct s|by eexists].
Qed.
Lemma register_identity_run id label path now s :
  is_Some (ok_or_none (sql_text label)) → ∃ s', register_identity id label path now s = (Ok tt, s').
Proof using.
  intros [l Hl]. unfold register_identity. rewrite se_get_run. destruct (sql_text label) as [l'|]; [|done].
  rewrite se_lift_run. by eexists.
Qed.

Lemma new_client_ok i store urls name (net : N) env c :
  new_client i store urls name net env = Ok c →
  cl_identity c = i ∧ cl_store c = store ∧ cl_relays c = normalize_relay_urls urls ∧ cl_relays c ≠ [] ∧
  cl_list c = None ∧ cl_siblings c = ∅ ∧ cl_card c = None ∧
  is_Some (ok_or_none (client_name name (Identity.label i) (Identity.identity_id i))).
Proof using.
  unfold new_client. destruct (normalize_relay_urls urls) as [|u us] eqn:E; [done|].
  destruct (client_name _ _ _); [|done]. intros [= <-]. by split_and!.
Qed.
(** What a successful start leaves, and what it says about the next one. *)
Lemma build_client_ok i s directory d c t d' :
  directory ≠ ""%string → build_client i s directory d = (Ok (c, t), d') →
  ∃ key d1 store,
    directory ∉ blocked d ∧ dirname (store_path directory) ∉ blocked d' ∧
    resolve_store_key directory (Identity.identity_id i) "" d = (Ok key, d1) ∧ same_machine d1 d' ∧
    length key = 32%nat ∧ same_tables store (cl_store c) ∧ store_key store = key ∧
    store = match databases d1 !! store_path directory with
            | Some st => rekey key st
            | None => ok_or (rekey key (rekey key store)) (new_store key)
            end ∧
    is_Some (ok_or_none (sql_text (Identity.label i))) ∧
    is_Some (ok_or_none (client_name (Identity.label i) (Identity.label i) (Identity.identity_id i))) ∧
    (∃ urls, relay_strings (relays s) = Ok urls ∧ cl_relays c = normalize_relay_urls urls) ∧ build_transport s = Ok t ∧
    cl_identity c = i ∧ cl_relays c ≠ [] ∧ cl_list c = None ∧ cl_siblings c = ∅ ∧ cl_card c = None ∧
    databases d' !! store_path directory = Some (cl_store c).
Proof using.
  intros Hd H. unfold build_client in H. rewrite or_data_dir_set in H by done.
  apply makedirs_ok in H as [Hb H]. apply se_bind_Ok in H as (key & d1 & Hk & H).
  apply se_bind_Ok in H as (store & d2 & (-> & Hb2 & Hlen & Hstore & Hkey)%open_store_ok & H).
  apply se_bind_Ok in H as (now & d2 & [= Hnow Hd2] & H).
  destruct (register_identity _ _ _ _ _) as [r st] eqn:Er.
  apply se_bind_Ok in H as ([] & d3 & [= -> <-] & H). apply register_identity_ok in Er as [Htab Hlab].
  apply se_bind_Ok in H as ([] & d4 & [= Hd4] & H).
  destruct (relay_strings (relays s)) as [urls|] eqn:Eu; [|done]. rewrite se_lift_run in H.
  destruct (build_transport s) as [t'|] eqn:Et; [|done]. rewrite se_lift_run, se_get_run in H.
  destruct (new_client _ _ _ _ _ _) as [c'|] eqn:Ec; [|done]. rewrite se_lift_run in H. injection H as <- <- <-.
  apply new_client_ok in Ec as (? & Hst & Hr & ? & ? & ? & ? & ?). subst d4 d2.
  exists key, d1, store. rewrite Hst. split_and!; try done; [by exists urls|]. cbn. apply lookup_insert_eq.
Qed.

Lemma rekey_same key st : store_key st = key → rekey key st = st.
Proof using. intros <-. by destruct st. Qed.

Lemma open_store_run path key d st :
  dirname path ∉ blocked d → length key = 32%nat → databases d !! path = Some st → store_key st = key →
  open_store path key d = (Ok st, d).
Proof using.
  intros Hb Hl Hd Hk. unfold open_store, new_store, blen, LOCAL_KEY_SIZE. rewrite Hl.
  change (negb (Z.of_nat 32 =? 32)) with false. cbn iota. rewrite se_lift_run, makedirs_run by done.
  rewrite se_get_run, Hd, rekey_same by done. done.
Qed.

(** A start whose key opens an existing database. *)
Lemma start_again i s directory d d1 key st urls t :
  directory ≠ ""%string → directory ∉ blocked d → dirname (store_path directory) ∉ blocked d1 →
  resolve_store_key directory (Identity.identity_id i) "" d = (Ok key, d1) → length key = 32%nat →
  databases d1 !! store_path directory = Some st → store_key st = key →
  is_Some (ok_or_none (sql_text (Identity.label i))) → relay_strings (relays s) = Ok urls →
  build_transport s = Ok t → normalize_relay_urls urls ≠ [] →
  is_Some (ok_or_none (client_name (Identity.label i) (Identity.label i) (Identity.identity_id i))) →
  ∃ c2 d2, build_client i s directory d = (Ok (c2, t), d2) ∧
    same_tables st (cl_store c2) ∧ store_key (cl_store c2) = key ∧ cl_identity c2 = i ∧
    cl_relays c2 = normalize_relay_urls urls ∧ cl_list c2 = None ∧ cl_siblings c2 = ∅ ∧ cl_card c2 = None.
Proof using.
  intros Hd Hb Hb1 Hk Hlen Hdb Hkey Hlab Hu Ht Hne [name Hname]. unfold build_client.
  rewrite or_data_dir_set, makedirs_run, (se_bind_run _ _ _ _ _ Hk) by done.
  rewrite (se_bind_run _ _ _ st d1) by (by apply open_store_run).
  rewrite (se_bind_run now_s _ d1 _ _ eq_refl).
  destruct (register_identity_run (Identity.identity_id i) (Identity.label i) (identity_path directory "identity")
              (clock (d_env d1) (ticks (d_env d1)) / 1000) st Hlab) as [st' Er].
  rewrite Er. apply register_identity_ok in Er as [Htab _].
  rewrite se_lift_run. rewrite (se_bind_run (se_modify _) _ _ _ _ eq_refl), Hu, se_lift_run, Ht, se_lift_run, se_get_run.
  unfold new_client. destruct (normalize_relay_urls urls) as [|u us] eqn:E; [done|].
  destruct (client_name _ _ _); [|done]. cbn [res_bind]. rewrite se_lift_run. do 2 eexists. split; [reflexivity|].
  cbn. split_and!; try done. by rewrite <-Hkey, <-Htab.
Qed.

(** A restart finds everything again.  After any use of the client, a start on the same
    machine with the same identity and settings succeeds, obtains the same storage key, and
    opens the same tables, so every sealed row is readable; only the identity's label row is
    written again, and the start leaves the client without a cached card, list or key. *)
Theorem restart_finds_history i s directory d c t d1 ops d2 :
  directory ≠ ""%string → build_client i s directory d = (Ok (c, t), d1) →
  let used := fold_left (λ c op, client_step op c) ops c in
  same_machine d1 d2 → databases d2 !! store_path directory = Some (cl_store used) →
  ∃ c2 d3, build_client i s directory d2 = (Ok (c2, t), d3) ∧
    same_tables (cl_store used) (cl_store c2) ∧ store_key (cl_store c2) = store_key (cl_store c) ∧
    cl_identity c2 = cl_identity c ∧ cl_relays c2 = cl_relays c ∧
    cl_list c2 = None ∧ cl_siblings c2 = ∅ ∧ cl_card c2 = None.
Proof using L RL.
  intros Hd H used Hsame Hdb.
  destruct (client_steps_ok ops c) as (_ & [_ [Hkey _]] & _). fold used in Hkey.
  apply build_client_ok in H as (key & dk & store & Hb & Hb2 & Hk & Hm & Hlen & Htab & Hst & _ & Hlab & Hname & (urls & Hu & Hr) &
    Ht & Hi & Hne & _ & _ & _ & _); [|done].
  assert (store_key (cl_store c) = key) as Hck by (by rewrite <-Hst, <-Htab).
  destruct (resolve_again directory (Identity.identity_id i) "" d key dk d2 Hk) as (d3 & Hk2 & Hm2 & Hdb2);
    [apply same_machine_key; by etrans|].
  assert (blocked d2 = blocked d) as B2.
  { destruct Hsame as (_ & -> & _), Hm as (_ & -> & _). eapply resolve_blocked. exact Hk. }
  destruct (start_again i s directory d2 d3 key (cl_store used) urls t) as (c2 & d4 & Hrun & Hc2); try done.
  - by rewrite B2.
  - destruct Hm2 as (_ & -> & _). by destruct Hsame as (_ & -> & _).
  - by rewrite Hdb2.
  - congruence.
  - by rewrite <-Hr.
  - exists c2, d4. rewrite <-Hr in Hc2. split; [done|]. destruct_and! Hc2. split_and!; congruence.
Qed.
End login.

(** ** A concrete desktop *)

Import Toy Machine.
#[local] Existing Instance Sample.relay_pool.

Definition proxied_settings : GuiSettings :=
  {| relays := JList [JStr "https://r"]; proxy_url := JStr "socks5://127.0.0.1:9050"; proxy_enabled := JBool true;
     fail_closed := JBool false; theme := JStr "dark"; last_name := JStr "ann"; poll_seconds := JInt 2;
     auto_discover := JBool true; discovery_interval := JInt 900 |}.
Lemma proxied_typed : typed proxied_settings.
Proof.
  split; cbn; [exists ["https://r"%string]; split; [reflexivity|repeat constructor] | ..]; by eexists.
Qed.

Lemma settings_roundtrip_witness :
  ∃ d' : Desk ring_map unit,
    save proxied_settings "/h" (machine tt ∅) = (Ok tt, d') ∧
    load "/h" (set_environ headless d') = (Ok proxied_settings, set_environ headless d') ∧
    ∀ q, q ≠ path_join "/h" SETTINGS_NAME → files d' !! q = files (machine tt ∅) !! q.
Proof.
  apply (settings_roundtrip proxied_settings "/h" (machine tt ∅) headless); [apply proxied_typed | discriminate | apply not_elem_of_empty..].
Defined.

(** A settings file that is a JSON list. *)
Definition odd_machine : Desk ring_map unit := (write_file "/h/settings.json" (bs "[]") (machine tt ∅)).2.
Lemma load_outcomes_witness :
  (load "/h" odd_machine).2 = odd_machine ∧ (load "/h" odd_machine).1 = Err AttributeError.
Proof.
  destruct (load_outcomes "/h" odd_machine) as (H1 & _ & H3); [discriminate|]. split; [exact H1|].
  destruct (H3 (bs "[]")) as [_ H4]; [vm_compute; reflexivity | apply not_elem_of_empty |].
  destruct (H4 "[]"%string) as (_ & H5 & _); [vm_compute; reflexivity|].
  apply (H5 (JList [])); [vm_compute; reflexivity | reflexivity].
Defined.

Lemma traffic_confined_witness :
  let t := Transport.new_transport 30000 3 500 (Some "socks5://127.0.0.1:9050"%string) true in
  let run := @Transport.request _ (@Transport.recorded nat Transport.dead_net) t "GET" "https://r" None [] [] Transport.NoBody (0%nat, []) in
  ∃ new, run.2.2 = [] ++ new ∧
    ∀ q, Transport.Sent q ∈ new →
      exempt_host (Transport.rq_url q) ∨
      ∃ p, truthy (proxy_enabled proxied_settings) = true ∧ proxy_url proxied_settings = JStr p ∧ p ≠ ""%string ∧
           Transport.rq_proxies q = Transport.via p.
Proof.
  intros t run.
  destruct (@traffic_confined nat Transport.dead_net proxied_settings t "GET" "https://r" None [] [] Transport.NoBody 0%nat []
    run.1 run.2.1 run.2.2) as [H _]; [apply proxied_typed | reflexivity | reflexivity | | exact H].
  vm_compute. reflexivity.
Defined.

(** A machine of the local network is reached past the proxy, fail closed or not. *)
Lemma lan_host_direct :
  let t := Transport.new_transport 30000 3 500 (Some "socks5://127.0.0.1:9050"%string) true in
  Transport.proxies_for t "http://printer.local/x" = Ok [].
Proof. vm_compute. reflexivity. Qed.

Definition first_login : res (Client Sample.relay * Transport.Transport) * Desk ring_map Sample.relay :=
  build_client (Sample.owner 3) proxied_settings "/h" (machine Sample.empty_relay headless).
Definition logged_in : Client Sample.relay * Transport.Transport :=
  ok_or (Sample.new_client 3 sample_store Sample.empty_relay, Transport.new_transport 0 0 0 None false) first_login.1.
Definition used_client : Client Sample.relay := fold_left (λ c op, client_step op c) [Provision; SendText "peer" "hello"] logged_in.1.
Definition shut_down : Desk ring_map Sample.relay :=
  set_databases (<[store_path "/h" := cl_store used_client]> (databases first_login.2)) first_login.2.
Lemma restart_finds_history_witness :
  ∃ c2 d3, build_client (Sample.owner 3) proxied_settings "/h" shut_down = (Ok (c2, logged_in.2), d3) ∧
    same_tables (cl_store used_client) (cl_store c2) ∧ cl_identity c2 = cl_identity logged_in.1.
Proof.
  assert (first_login = (Ok logged_in, first_login.2)) as E.
  { apply run_pair. unfold logged_in. apply ok_or_eq. vm_compute. reflexivity. }
  destruct (restart_finds_history (Sample.owner 3) proxied_settings "/h" (machine Sample.empty_relay headless)
    logged_in.1 logged_in.2 first_login.2 [Provision; SendText "peer" "hello"] shut_down) as (c2 & d3 & H1 & H2 & _ & H3 & _).
  - discriminate.
  - rewrite <-(surjective_pairing logged_in). exact E.
  - apply same_machine_databases.
  - apply lookup_insert_eq.
  - exists c2, d3. split; [exact H1|]. split; [exact H2|exact H3].
Defined.
