(* ===== verification/Worker.v ===== *)
(** * The background worker ([gui/worker.py])

    One thread polls the relays and runs the commands the window submits; the window's
    thread puts tasks in a queue, sets two events ([_stop], [_wake]) and calls the client
    itself.  The worker is a machine: [point] is where its thread is, [work] is its next
    step, an [event] is a step of either thread, and a run is a sequence of events, so
    every interleaving is one.  Putting a task and setting [_wake] are two steps of the
    submitting thread; [owed] counts the settings still to come.  What the worker polls
    is the interface [Polled]; a call of it is one step. *)

From S2P Require Import Prelude PyStr Json.

(** What the worker asks of a client. *)
Class Polled (S M : Type) := {
  p_sync : SE S (list M);
  p_flush : SE S unit;
  p_relay_urls : SE S (list string);
  p_refresh : SE S (list string)
}.

Section worker.
Context {S M R G : Type} {Po : Polled S M}.

(** Signals, and the discoveries the worker starts.  The texts of errors are dropped.  A
    callback emits signals of the window's own, of type [G]. *)
Inductive output :=
| messages_received (l : list M)
| status_changed (status : string)
| error_occurred (e : exn)
| task_finished (name : string) (result : option R)
| relays_changed (relays : list string)
| window_signal (g : G)
| discovery_started (now : Z).

Record task := {
  t_name : string;
  t_function : SE S R;
  t_callback : option (option R → res (list G))
}.

Inductive point :=
| Connecting | Test | Draining (second : bool) | Checking | Syncing | Flushing | Deciding | Discovering | Online
| Waiting | Clearing | Finished
| Dead (e : exn).   (* an exception that is no [Exception] *)

Record Worker := {
  w_client : S;
  w_auto : bool;
  w_interval : Z;
  w_queue : list task;
  w_stop : bool;
  w_wake : bool;
  w_owed : nat;
  w_next : Z;
  w_at : point
}.

Definition set_client x (w : Worker) : Worker :=
  {| w_client := x; w_auto := w_auto w; w_interval := w_interval w; w_queue := w_queue w; w_stop := w_stop w;
     w_wake := w_wake w; w_owed := w_owed w; w_next := w_next w; w_at := w_at w |}.
Definition set_queue x (w : Worker) : Worker :=
  {| w_client := w_client w; w_auto := w_auto w; w_interval := w_interval w; w_queue := x; w_stop := w_stop w;
     w_wake := w_wake w; w_owed := w_owed w; w_next := w_next w; w_at := w_at w |}.
Definition set_flags stop wake owed (w : Worker) : Worker :=
  {| w_client := w_client w; w_auto := w_auto w; w_interval := w_interval w; w_queue := w_queue w; w_stop := stop;
     w_wake := wake; w_owed := owed; w_next := w_next w; w_at := w_at w |}.
Definition set_next x (w : Worker) : Worker :=
  {| w_client := w_client w; w_auto := w_auto w; w_interval := w_interval w; w_queue := w_queue w; w_stop := w_stop w;
     w_wake := w_wake w; w_owed := w_owed w; w_next := x; w_at := w_at w |}.
Definition goto x (w : Worker) : Worker :=
  {| w_client := w_client w; w_auto := w_auto w; w_interval := w_interval w; w_queue := w_queue w; w_stop := w_stop w;
     w_wake := w_wake w; w_owed := w_owed w; w_next := w_next w; w_at := x |}.

(** [max(1, poll_seconds)]: other values than numbers do not compare with one. *)
Definition poll_interval (j : json) : res Z :=
  match j with JInt n => Ok (Z.max 1 n) | JBool b => Ok (Z.max 1 (bool_int b)) | _ => Err TypeError end.
Definition new_worker (client : S) (poll auto interval : json) : res Worker :=
  let? _ := poll_interval poll in
  let? interval := to_int interval in
  Ok {| w_client := client; w_auto := truthy auto; w_interval := Z.max 60 interval; w_queue := []; w_stop := false;
        w_wake := false; w_owed := 0; w_next := 0; w_at := Connecting |}.

(** ** The worker's thread *)

(** [except Exception]: [caught e k d] goes on with [k], anything else ends the thread. *)
Definition caught (e : exn) (w : Worker) (k : Worker * list output) : Worker * list output :=
  if isa_Exception e then k else (goto (Dead e) w, []).

(** A call of the client: the state it leaves, and what follows. *)
Definition calling {A} (m : SE S A) (w : Worker) (f : res A → Worker → Worker * list output) : Worker * list output :=
  let '(r, s) := m (w_client w) in f r (set_client s w).

(** The body of [_drain] for one task. *)
Definition run_callback (t : task) (result : option R) (w : Worker) : Worker * list output :=
  match t_callback t with
  | None => (w, [task_finished (t_name t) result])
  | Some callback =>
      match callback result with
      | Ok gs => (w, map window_signal gs ++ [task_finished (t_name t) result])
      | Err e => caught e w (w, [error_occurred e; task_finished (t_name t) result])
      end
  end.
Definition run_task (t : task) (w : Worker) : Worker * list output :=
  calling (t_function t) w (λ r w,
    match r with
    | Ok x => run_callback t (Some x) w
    | Err e => caught e w (let '(w, out) := run_callback t None w in (w, error_occurred e :: out))
    end).

(** The [except] clause of the loop. *)
Definition offline (e : exn) (w : Worker) : Worker * list output :=
  caught e w (goto (Draining true) w, [error_occurred e; status_changed "offline"]).

Definition discover (now : Z) (w : Worker) : Worker * list output :=
  let w := goto Online (set_next (now + w_interval w) w) in
  let '(w', out) :=
    calling p_relay_urls w (λ r w,
      match r with
      | Err e => caught e w (w, [error_occurred e])
      | Ok before =>
          calling p_refresh w (λ r w,
            match r with
            | Err e => caught e w (w, [error_occurred e])
            | Ok after => (w, if bool_decide (after = before) then [] else [relays_changed after])
            end)
      end) in
  (w', discovery_started now :: out).

(** The next step of the thread, at monotonic time [now]; [None] when it is blocked or over. *)
Definition work (now : Z) (w : Worker) : option (Worker * list output) :=
  match w_at w with
  | Connecting => Some (goto Test w, [status_changed "connecting"])
  | Test => Some (goto (if w_stop w then Finished else Draining false) w, [])
  | Draining second =>
      match w_queue w with
      | [] => Some (goto (if second then Waiting else Checking) w, [])
      | t :: q => Some (run_task t (set_queue q w))
      end
  | Checking => Some (goto (if w_stop w then Finished else Syncing) w, [])
  | Syncing => Some (calling p_sync w (λ r w,
      match r with
      | Ok l => (goto Flushing w, match l with [] => [] | _ => [messages_received l] end)
      | Err e => offline e w
      end))
  | Flushing => Some (calling p_flush w (λ r w, match r with Ok _ => (goto Deciding w, []) | Err e => offline e w end))
  | Deciding => Some (goto (if w_auto w && (w_next w <=? now) then Discovering else Online) w, [])
  | Discovering => Some (discover now w)
  | Online => Some (goto (Draining true) w, [status_changed "online"])
  | Waiting => if w_wake w then Some (goto Clearing w, []) else None
  | Clearing => Some (goto Test (set_flags (w_stop w) false (w_owed w) w), [])
  | Finished | Dead _ => None
  end.

(** ** Both threads *)

Inductive event :=
| Put (t : task)          (* [submit]: the task is in the queue *)
| SetWake                 (* [submit] and [stop]: the second half *)
| SetStop                 (* [stop] *)
| Call (f : S → S)        (* the window's thread calls the client *)
| Work (now : Z)
| Timeout.                (* [_wake.wait] returns after [poll_seconds] *)

Definition step (ev : event) (w : Worker) : option (Worker * list output) :=
  match ev with
  | Put t => Some (set_queue (w_queue w ++ [t]) (set_flags (w_stop w) (w_wake w) (Datatypes.S (w_owed w)) w), [])
  | SetWake => match w_owed w with
               | O => None
               | Datatypes.S n => Some (set_flags (w_stop w) true n w, [])
               end
  | SetStop => Some (set_flags true (w_wake w) (Datatypes.S (w_owed w)) w, [])
  | Call f => Some (set_client (f (w_client w)) w, [])
  | Work now => work now w
  | Timeout => match w_at w with Waiting => Some (goto Clearing w, []) | _ => None end
  end.
Fixpoint run (evs : list event) (w : Worker) : option (Worker * list output) :=
  match evs with
  | [] => Some (w, [])
  | ev :: evs =>
      match step ev w with
      | None => None
      | Some (w, out) => match run evs w with None => None | Some (w, more) => Some (w, out ++ more) end
      end
  end.
End worker.
Arguments task S R G : clear implicits.
Arguments Worker S R G : clear implicits.
Arguments output M R G : clear implicits.
Arguments event S R G : clear implicits.

(** ** Facts about steps *)

Section props.
Context {S M R G : Type} {Po : Polled S M}.
Implicit Types (w : Worker S R G) (out : list (output M R G)) (evs : list (event S R G)) (t : task S R G).

Lemma run_app evs1 evs2 w :
  run evs1 w ≫= (λ '(w1, out1), run evs2 w1 ≫= (λ '(w2, out2), Some (w2, out1 ++ out2))) = run (evs1 ++ evs2) w.
Proof using.
  revert w. induction evs1 as [|ev evs1 IH]; intros w; cbn [run app mbind option_bind].
  - by destruct (run evs2 w) as [[]|].
  - destruct (step ev w) as [[w1 o1]|]; [|done]. rewrite <-IH. destruct (run evs1 w1) as [[w2 o2]|]; cbn; [|done].
    destruct (run evs2 w2) as [[]|]; cbn; [|done]. by rewrite app_assoc.
Qed.

(** An invariant of the steps is one of the runs. *)
Lemma run_invariant (I : Worker S R G → Prop) evs w w' out :
  (∀ ev w w' o, I w → step ev w = Some (w', o) → I w') → I w → run evs w = Some (w', out) → I w'.
Proof using.
  intros Hs. revert w out. induction evs as [|ev evs IH]; intros w out Hw H; cbn [run] in H; [by injection H as <- _|].
  destruct (step ev w) as [[w1 o1]|] eqn:E; [|done]. destruct (run evs w1) as [[w2 o2]|] eqn:E2; [|done].
  injection H as <- _. eapply IH; [|done]. by eapply Hs.
Qed.

(** What the calls of the client may change: the client, the place, and the time of the next
    discovery. *)
Definition same_flags w w' : Prop :=
  w_queue w' = w_queue w ∧ w_stop w' = w_stop w ∧ w_wake w' = w_wake w ∧ w_owed w' = w_owed w ∧
  w_auto w' = w_auto w ∧ w_interval w' = w_interval w ∧ w_next w' = w_next w.
#[export] Instance same_flags_preorder : PreOrder same_flags.
Proof.
  split; unfold same_flags; [done|]. intros x y z (H1 & H2 & H3 & H4 & H5 & H6 & H7) (-> & -> & -> & -> & -> & -> & ->). done.
Qed.
Definition is_dead (p : point) : bool := match p with Dead _ => true | _ => false end.

Lemma caught_flags w0 e w (k : Worker S R G * list (output M R G)) :
  same_flags w0 w → same_flags w0 k.1 → same_flags w0 (caught e w k).1.
Proof using. unfold caught. by destruct (isa_Exception e). Qed.
Lemma calling_flags {A} w0 (m : SE S A) w (f : res A → Worker S R G → Worker S R G * list (output M R G)) :
  (∀ r s, same_flags w0 (f r (set_client s w)).1) → same_flags w0 (calling m w f).1.
Proof using. intros H. unfold calling. destruct (m (w_client w)). apply H. Qed.
Lemma run_callback_flags w0 t r w : same_flags w0 w → same_flags w0 (run_callback (M:=M) t r w).1.
Proof using.
  intros H. unfold run_callback. destruct (t_callback t) as [cb|]; [|done]. destruct (cb r); [done|]. by apply caught_flags.
Qed.
Lemma run_task_flags t w : same_flags w (run_task (M:=M) t w).1.
Proof using.
  apply calling_flags. intros [x|e] s; [by apply run_callback_flags|]. apply caught_flags; [done|].
  pose proof (run_callback_flags w t None (set_client s w)) as H. destruct (run_callback _ _ _). by apply H.
Qed.
Lemma offline_flags w0 e w : same_flags w0 w → same_flags w0 (offline (M:=M) e w).1.
Proof using. intros H. by apply caught_flags. Qed.
Lemma discover_flags now w : same_flags (set_next (now + w_interval w) w) (discover now w).1.
Proof using.
  unfold discover. match goal with |- same_flags ?w0 (let '(_, _) := ?x in _).1 => assert (same_flags w0 x.1) as H end.
  - apply calling_flags. intros [before|e] s; [|by apply caught_flags].
    apply calling_flags. intros [after|e] s'; [done|by apply caught_flags].
  - by destruct (calling _ _ _).
Qed.

(** Where a task leaves the thread: where it was, unless something that is no [Exception]
    was raised. *)
Lemma run_task_at t w : w_at (run_task (M:=M) t w).1 = w_at w ∨ is_dead (w_at (run_task (M:=M) t w).1) = true.
Proof using.
  unfold run_task, calling, run_callback, caught. destruct (t_function t (w_client w)) as [[x|e] s].
  - destruct (t_callback t) as [cb|]; [|by left]. destruct (cb _); [by left|]. destruct (isa_Exception _); [by left|by right].
  - destruct (isa_Exception e); [|by right]. destruct (t_callback t) as [cb|]; [|by left].
    destruct (cb _) as [|e']; [by left|]. destruct (isa_Exception e'); [by left|by right].
Qed.

(** The tasks an execution reports as finished. *)
Definition finished_names (out : list (output M R G)) : list string :=
  omap (λ o, match o with task_finished n _ => Some n | _ => None end) out.
Definition submitted (evs : list (event S R G)) : list (task S R G) :=
  omap (λ ev, match ev with Put t => Some t | _ => None end) evs.

Lemma finished_app o1 o2 : finished_names (o1 ++ o2) = finished_names o1 ++ finished_names o2.
Proof using. apply omap_app. Qed.
Lemma finished_window gs : finished_names (map window_signal gs) = [].
Proof using. by induction gs. Qed.

Lemma run_callback_finished t r w :
  is_dead (w_at w) = false → is_dead (w_at (run_callback (M:=M) t r w).1) = false →
  finished_names (run_callback t r w).2 = [t_name t].
Proof using.
  unfold run_callback, caught. intros Hw. destruct (t_callback t) as [cb|]; [|done].
  destruct (cb r) as [gs|e]; [|by destruct (isa_Exception e)]. intros _. cbn [snd].
  by rewrite finished_app, finished_window.
Qed.
Lemma run_task_finished t w :
  is_dead (w_at w) = false → is_dead (w_at (run_task (M:=M) t w).1) = false →
  finished_names (run_task t w).2 = [t_name t].
Proof using.
  unfold run_task, calling. intros Hw. destruct (t_function t (w_client w)) as [[x|e] s].
  - by apply run_callback_finished.
  - unfold caught. destruct (isa_Exception e); [|done].
    pose proof (run_callback_finished t None (set_client s w) Hw) as H. destruct (run_callback _ _ _) as [w' out].
    cbn [fst snd] in *. exact H.
Qed.

(** ** One step of the thread *)

(** Where the thread may be next. *)
Definition allowed w (p : point) : Prop :=
  match w_at w with
  | Connecting => p = Test
  | Test => p = if w_stop w then Finished else Draining false
  | Draining second =>
      match w_queue w with
      | [] => p = if second then Waiting else Checking
      | _ => p = Draining second ∨ is_dead p = true
      end
  | Checking => p = if w_stop w then Finished else Syncing
  | Syncing => p = Flushing ∨ p = Draining true ∨ is_dead p = true
  | Flushing => p = Deciding ∨ p = Draining true ∨ is_dead p = true
  | Deciding => p = Discovering ∨ p = Online
  | Discovering => p = Online ∨ is_dead p = true
  | Online => p = Draining true
  | Waiting => p = Clearing ∧ w_wake w = true
  | Clearing => p = Test
  | Finished | Dead _ => False
  end.
Definition queue_after w : list (task S R G) :=
  match w_at w with Draining _ => tl (w_queue w) | _ => w_queue w end.
(** A discovery sets the time before which there is no other. *)
Definition next_after (now : Z) w : Z := match w_at w with Discovering => now + w_interval w | _ => w_next w end.
Definition wake_after w : bool := match w_at w with Clearing => false | _ => w_wake w end.

Lemma offline_at e w : w_at (offline (M:=M) e w).1 = Draining true ∨ is_dead (w_at (offline (M:=M) e w).1) = true.
Proof using. unfold offline, caught. destruct (isa_Exception e); [by left|by right]. Qed.

Lemma work_step now w w' out :
  work now w = Some (w', out) →
  w_stop w' = w_stop w ∧ w_owed w' = w_owed w ∧ w_auto w' = w_auto w ∧ w_interval w' = w_interval w ∧
  w_queue w' = queue_after w ∧ w_wake w' = wake_after w ∧ allowed w (w_at w') ∧ w_next w' = next_after now w.
Proof using.
  unfold work, queue_after, wake_after, next_after, allowed. destruct (w_at w) eqn:Ea; try (by intros [= <- <-]).
  - (* draining *) destruct (w_queue w) as [|t q] eqn:Eq; [intros [= <- <-]; cbn; by rewrite Eq|].
    intros [= E]; apply (f_equal fst) in E; cbn [fst] in E; subst w'. pose proof (run_task_flags t (set_queue q w)) as (H1 & H2 & H3 & H4 & H5 & H6 & H7).
    cbn in H1, H2, H3, H4, H5, H6, H7. rewrite H1, H2, H3, H4, H5, H6, H7.
    pose proof (run_task_at t (set_queue q w)) as H. cbn [w_at set_queue] in H. rewrite Ea in H. by split_and!.
  - (* syncing *) intros [= E]; apply (f_equal fst) in E; cbn [fst] in E; subst w'. match goal with |- context [calling ?m w ?f] => pose proof (calling_flags w m w f) as Hf end.
    destruct Hf as (H1 & H2 & H3 & H4 & H5 & H6 & H7).
    + intros [l|e] s; [done|]. by apply offline_flags.
    + rewrite H1, H2, H3, H4, H5, H6, H7. split_and!; try done. unfold calling. destruct (p_sync (w_client w)) as [[l|e] s]; [by left|].
      right. apply offline_at.
  - (* flushing *) intros [= E]; apply (f_equal fst) in E; cbn [fst] in E; subst w'. match goal with |- context [calling ?m w ?f] => pose proof (calling_flags w m w f) as Hf end.
    destruct Hf as (H1 & H2 & H3 & H4 & H5 & H6 & H7).
    + intros [l|e] s; [done|]. by apply offline_flags.
    + rewrite H1, H2, H3, H4, H5, H6, H7. split_and!; try done. unfold calling. destruct (p_flush (w_client w)) as [[l|e] s]; [by left|].
      right. apply offline_at.
  - (* deciding *) intros [= <- <-]. split_and!; try done. cbn. case_match; auto.
  - (* discovering *) intros [= E]; apply (f_equal fst) in E; cbn [fst] in E; subst w'. destruct (discover_flags now w) as (H1 & H2 & H3 & H4 & H5 & H6 & H7).
    rewrite H1, H2, H3, H4, H5, H6, H7. split_and!; try done. unfold discover, calling, caught. cbn [w_client goto set_next].
    destruct (p_relay_urls (w_client w)) as [[l|e] s]; cbn [w_client set_client goto].
    + destruct (p_refresh s) as [[l'|e] s']; [by left|]. destruct (isa_Exception e); [by left|by right].
    + destruct (isa_Exception e); [by left|by right].
  - (* waiting *) destruct (w_wake w) eqn:Ew; [|done]. intros [= <- <-]. by split_and!.
Qed.

(** The thread stands still only when it waits for an event, or is over. *)
Lemma work_blocked now w :
  work (M:=M) now w = None → (w_at w = Waiting ∧ w_wake w = false) ∨ w_at w = Finished ∨ is_dead (w_at w) = true.
Proof using.
  unfold work. destruct (w_at w); try done; try (by right; left); try (by right; right).
  - by destruct (w_queue w).
  - destruct (w_wake w); [done|by left].
Qed.

(** ** The thread against any interleaving *)

Lemma step_dead ev w w' out : step ev w = Some (w', out) → is_dead (w_at w) = true → is_dead (w_at w') = true.
Proof using.
  destruct (w_at w) eqn:Ea; try done. intros H _. destruct ev; cbn in H.
  - injection H as <- _. cbn. by rewrite Ea.
  - destruct (w_owed w); [done|]. injection H as <- _. cbn. by rewrite Ea.
  - injection H as <- _. cbn. by rewrite Ea.
  - injection H as <- _. cbn. by rewrite Ea.
  - unfold work in H. by rewrite Ea in H.
  - by rewrite Ea in H.
Qed.

(** Only these steps report a task. *)
Lemma work_finished now w w' out :
  work now w = Some (w', out) → is_dead (w_at w') = false →
  finished_names out = map t_name (match w_at w with Draining _ => take 1 (w_queue w) | _ => [] end).
Proof using.
  unfold work. destruct (w_at w) eqn:Ea; try (by intros [= <- <-]).
  - destruct (w_queue w) as [|t q]; [by intros [= <- <-]|]. intros [= E].
    assert (w' = (run_task t (set_queue q w)).1 ∧ out = (run_task t (set_queue q w)).2) as [-> ->] by (by rewrite E).
    intros H. rewrite run_task_finished; [done| |done]. cbn. by rewrite Ea.
  - unfold calling, offline, caught. destruct (p_sync (w_client w)) as [[[|m l]|e] s]; [by intros [= <- <-]..|].
    by destruct (isa_Exception e); intros [= <- <-].
  - unfold calling, offline, caught. destruct (p_flush (w_client w)) as [[|e] s]; [by intros [= <- <-]|].
    by destruct (isa_Exception e); intros [= <- <-].
  - unfold discover, calling, caught. destruct (p_relay_urls _) as [[l|e] s];
      [destruct (p_refresh _) as [[l'|e] s']; [case_bool_decide|destruct (isa_Exception e)]|destruct (isa_Exception e)];
      by intros [= <- <-].
  - destruct (w_wake w); [|done]. by intros [= <- <-].
Qed.

Lemma step_queue ev w w' out :
  step ev w = Some (w', out) → is_dead (w_at w') = false →
  ∃ ran, w_queue w ++ submitted [ev] = ran ++ w_queue w' ∧ finished_names out = map t_name ran.
Proof using.
  intros H Hd. destruct ev; cbn in H.
  - injection H as <- <-. by exists [].
  - destruct (w_owed w); [done|]. injection H as <- <-. exists []. cbn. by rewrite app_nil_r.
  - injection H as <- <-. exists []. cbn. by rewrite app_nil_r.
  - injection H as <- <-. exists []. cbn. by rewrite app_nil_r.
  - rewrite (work_finished _ _ _ _ H Hd). apply work_step in H as (_ & _ & _ & _ & Hq & _ & _ & _). cbn. rewrite app_nil_r, Hq.
    unfold queue_after. destruct (w_at w); try (by exists []). exists (take 1 (w_queue w)). by destruct (w_queue w).
  - destruct (w_at w); try done. injection H as <- <-. exists []. cbn. by rewrite app_nil_r.
Qed.

Lemma run_queue evs w w' out :
  run evs w = Some (w', out) → is_dead (w_at w') = false →
  ∃ ran, w_queue w ++ submitted evs = ran ++ w_queue w' ∧ finished_names out = map t_name ran.
Proof using.
  revert w out. induction evs as [|ev evs IH]; intros w out H Hd; cbn [run] in H.
  { injection H as <- <-. exists []. cbn. by rewrite app_nil_r. }
  destruct (step ev w) as [[w1 o1]|] eqn:E; [|done]. destruct (run evs w1) as [[w2 o2]|] eqn:E2; [|done].
  injection H as <- <-. destruct (IH _ _ E2 Hd) as (ran2 & Hq2 & Hf2).
  assert (is_dead (w_at w1) = false) as Hd1.
  { destruct (is_dead (w_at w1)) eqn:Hx; [|done]. exfalso.
    assert (is_dead (w_at w2) = true) as Hy; [|congruence].
    apply (run_invariant (λ w, is_dead (w_at w) = true) evs w1 w2 o2); [|done..]. intros ev' x x' o Hi Hs. by eapply step_dead. }
  destruct (step_queue _ _ _ _ E Hd1) as (ran1 & Hq1 & Hf1). exists (ran1 ++ ran2).
  change (submitted (ev :: evs)) with (submitted ([ev] ++ evs)). unfold submitted in *. rewrite omap_app, app_assoc, Hq1, <-!app_assoc.
  split; [by rewrite Hq2|]. by rewrite finished_app, Hf1, Hf2, map_app.
Qed.

(** Tasks run in the order they were submitted, each exactly once, whatever the two
    threads interleave and whether or not a task, its callback, or polling fails: at any
    point what was submitted is what was reported as finished, in that order, followed by
    what still waits. *)
Theorem worker_fifo client poll auto interval w0 evs w out :
  new_worker client poll auto interval = Ok w0 → run evs w0 = Some (w, out) → is_dead (w_at w) = false →
  ∃ ran, submitted evs = ran ++ w_queue w ∧ finished_names out = map t_name ran.
Proof using.
  intros Hn H Hd. apply run_queue in H; [|done]. unfold new_worker in Hn. rinv Hn. subst w0. exact H.
Qed.

(** ** No lost wake-up *)

(** What holds at every step: a thread that may wait has been told of what there is to do. *)
Record sound_worker w : Prop := {
  sw_queue : w_at w = Waiting → w_queue w ≠ [] → w_wake w = true ∨ w_owed w ≠ 0%nat;
  sw_stop : w_stop w = true → w_wake w = true ∨ w_owed w ≠ 0%nat ∨ w_at w = Test ∨ w_at w = Finished ∨ is_dead (w_at w) = true;
  sw_finished : w_at w = Finished → w_stop w = true
}.

Lemma new_worker_sound client poll auto interval w : new_worker client poll auto interval = Ok w → sound_worker w.
Proof using. unfold new_worker. intros H. rinv H. subst w. by split. Qed.

Lemma work_sound now w w' out : sound_worker w → work now w = Some (w', out) → sound_worker w'.
Proof using.
  intros [Hq Hs Hf] H. apply work_step in H as (E1 & E2 & _ & _ & E3 & E4 & Ha & _).
  unfold queue_after, wake_after, allowed in *. split; rewrite ?E1, ?E2, ?E3, ?E4.
  - intros Hw. rewrite Hw in Ha. destruct (w_at w); try (by destruct_or? Ha); try done.
    + by destruct (w_stop w).
    + destruct (w_queue w); [done|]. by destruct Ha.
    + by destruct (w_stop w).
    + by destruct Ha.
  - intros Hst. rewrite Hst in *. specialize (Hs eq_refl). destruct (w_at w) eqn:Ea; subst; auto;
      destruct_or? Hs; auto; try done.
  - intros Hw. rewrite Hw in Ha. destruct (w_at w); try (by destruct_or? Ha); try done.
    + by destruct (w_stop w).
    + destruct (w_queue w); [by destruct second|]. by destruct Ha.
    + by destruct (w_stop w).
    + by destruct Ha.
Qed.

Lemma step_sound ev w w' out : sound_worker w → step ev w = Some (w', out) → sound_worker w'.
Proof using.
  intros Hw H. destruct ev; cbn in H.
  - injection H as <- _. destruct Hw as [Hq Hs Hf]. split; cbn; auto.
  - destruct (w_owed w); [done|]. injection H as <- _. destruct Hw as [Hq Hs Hf]. split; cbn; auto.
  - injection H as <- _. destruct Hw as [Hq Hs Hf]. split; cbn; auto.
  - injection H as <- _. by destruct Hw.
  - by eapply work_sound.
  - destruct (w_at w) eqn:Ea; try done. injection H as <- _. destruct Hw as [Hq Hs Hf]. rewrite Ea in Hs. split; cbn; try done.
    intros Hst. destruct (Hs Hst) as [|[|[|[|]]]]; auto; done.
Qed.
Lemma run_sound evs w w' out : sound_worker w → run evs w = Some (w', out) → sound_worker w'.
Proof using. apply run_invariant. intros. by eapply step_sound. Qed.

(** C26: the worker stands still only when there is nothing to do.  When its thread cannot
    move, every task submitted so far was run, or it was told to stop, or something that is no
    [Exception] was raised: no wake-up is lost, and nothing the relays, the peers, a task or a
    callback do ends the thread. *)
Theorem worker_stuck_idle client poll auto interval w0 evs w out now :
  new_worker client poll auto interval = Ok w0 → run evs w0 = Some (w, out) → w_owed w = 0%nat →
  work (M:=M) now w = None →
  (w_at w = Waiting ∧ w_queue w = [] ∧ w_stop w = false ∧ map t_name (submitted evs) = finished_names out) ∨
  (w_at w = Finished ∧ w_stop w = true) ∨ is_dead (w_at w) = true.
Proof using.
  intros Hn H Ho Hb. assert (sound_worker w) as [Hq Hs Hf] by (eapply run_sound; [by eapply new_worker_sound|done]).
  apply work_blocked in Hb as [[Ha Hw]|[Ha|Hd]]; [|right; left; auto|auto]. left.
  assert (w_queue w = []) as Eq.
  { destruct (w_queue w); [done|]. destruct (Hq Ha) as [|]; [done|congruence|lia]. }
  destruct (run_queue _ _ _ _ H) as (ran & Hr & Hn2); [by rewrite Ha|].
  assert (w_queue w0 = []) as E0 by (unfold new_worker in Hn; rinv Hn; by subst w0).
  rewrite E0, Eq, app_nil_r in Hr. cbn [app] in Hr. split_and!; [done..| |by rewrite Hn2, <-Hr].
  destruct (w_stop w) eqn:Es; [|done]. destruct (Hs eq_refl) as [|[|[|[|Hd]]]]; try congruence. by rewrite Ha in Hd.
Qed.

(** ** The thread makes progress *)

(** [n] steps of the thread alone, the clock reading [clk 0], [clk 1], ... *)
Fixpoint alone (clk : nat → Z) (n : nat) w : option (Worker S R G) :=
  match n with
  | O => Some w
  | Datatypes.S n => match work (M:=M) (clk 0%nat) w with Some (w', _) => alone (λ i, clk (Datatypes.S i)) n w' | None => None end
  end.

(** A measure that every step lowers is enough to reach [Q]. *)
Lemma descend (m : Worker S R G → nat) (I Q : Worker S R G → Prop) :
  (∀ w now, I w → Q w ∨ ∃ w' out, work (M:=M) now w = Some (w', out) ∧ I w' ∧ (m w' < m w)%nat) →
  ∀ w clk, I w → ∃ n w', (n ≤ m w)%nat ∧ alone clk n w = Some w' ∧ I w' ∧ Q w'.
Proof using.
  intros Hstep w. remember (m w) as k eqn:Ek. revert w Ek. induction (lt_wf k) as [k _ IH]. intros w -> clk Hw.
  destruct (Hstep w (clk 0%nat) Hw) as [Hq|(w1 & out & H1 & Hw1 & Hlt)].
  { exists 0%nat, w. split_and!; [lia|done..]. }
  destruct (IH (m w1) Hlt w1 eq_refl (λ i, clk (Datatypes.S i)) Hw1) as (n & w2 & Hn & Ha & Hw2 & Hq).
  exists (Datatypes.S n), w2. split_and!; [lia| |done..]. cbn [alone]. by rewrite H1.
Qed.

(** Steps to the next place where tasks are taken. *)
Definition to_tasks (p : point) : nat :=
  match p with
  | Draining _ => 0 | Test | Online => 1 | Connecting | Clearing | Discovering => 2 | Waiting | Deciding => 3
  | Flushing => 4 | Syncing => 5 | Checking => 6 | Finished | Dead _ => 0
  end.
Definition running w : Prop := sound_worker w ∧ w_owed w = 0%nat ∧ w_stop w = false.

Lemma running_step w now w' out : running w → work (M:=M) now w = Some (w', out) → running w'.
Proof using.
  intros (H1 & H2 & H3) H. split; [by eapply work_sound|]. apply work_step in H as (-> & -> & _). done.
Qed.

Lemma run_soon w (clk : nat → Z) :
  running w → ∃ n w', (n ≤ length (w_queue w) + 6)%nat ∧ alone clk n w = Some w' ∧ (w_queue w' = [] ∨ is_dead (w_at w') = true).
Proof using.
  intros Hw.
  destruct (descend (λ w, length (w_queue w) + to_tasks (w_at w))%nat running
    (λ w, w_queue w = [] ∨ is_dead (w_at w) = true)) with (w := w) (clk := clk) as (n & w' & Hle & Ha & _ & Hq); [|done|].
  - clear. intros w now Hw. destruct (w_queue w) as [|t q] eqn:Eq; [by left; left|].
    destruct (is_dead (w_at w)) eqn:Ed; [by left; right|]. right.
    destruct (work now w) as [[w' out]|] eqn:E.
    + exists w', out. split; [done|]. split; [by eapply running_step|]. destruct Hw as (_ & _ & Hst).
      apply work_step in E as (_ & _ & _ & _ & Hq & _ & Ha & _). rewrite Hq. unfold queue_after, allowed in *. rewrite Hst, Eq in Ha.
      destruct (w_at w); try done; destruct_or? Ha; destruct_and? Ha;
        try (match goal with Hx : w_at w' = _ |- _ => rewrite Hx end); rewrite ?Eq; cbn; try lia;
        destruct (w_at w'); try done; cbn; lia.
    + destruct Hw as ([Hq _ Hf] & Ho & Hst).
      apply work_blocked in E as [[Ha Hwk]|[Ha|Ha]]; [|by rewrite Hf in Hst|congruence].
      destruct (Hq Ha) as [|]; [by rewrite Eq|congruence|done].
  - exists n, w'. split; [|done]. destruct (w_at w); cbn in Hle; lia.
Qed.

(** Every submitted task is run, soon: once the submitting thread is through and nothing
    stops the worker, at most [length queue + 6] steps of its thread empty the queue, unless
    something that is no [Exception] is raised. *)
Theorem tasks_run_soon client poll auto interval w0 evs w out (clk : nat → Z) :
  new_worker client poll auto interval = Ok w0 → run evs w0 = Some (w, out) → w_owed w = 0%nat → w_stop w = false →
  ∃ n w', (n ≤ length (w_queue w) + 6)%nat ∧ alone clk n w = Some w' ∧ (w_queue w' = [] ∨ is_dead (w_at w') = true).
Proof using.
  intros Hn H Ho Hst. apply run_soon. split; [eapply run_sound; [by eapply new_worker_sound|done]|done].
Qed.

(** The same steps, with what they report. *)
Fixpoint ticks (clk : nat → Z) (n : nat) : list (event S R G) :=
  match n with O => [] | Datatypes.S n => Work (clk 0%nat) :: ticks (λ i, clk (Datatypes.S i)) n end.
Lemma alone_run clk n w w' : alone clk n w = Some w' → ∃ out, run (ticks clk n) w = Some (w', out).
Proof using.
  revert clk w. induction n as [|n IH]; intros clk w H; cbn in *; [injection H as ->; by exists []|].
  destruct (work (clk 0%nat) w) as [[w1 o1]|]; [|done]. apply IH in H as [o2 ->]. by eexists.
Qed.
Lemma ticks_submit clk n : submitted (ticks clk n) = [].
Proof using. revert clk. induction n as [|n IH]; intros clk; [done|]. exact (IH _). Qed.

(** A task that waits behind others is the next one to run, soon, when those before it were
    run in their order. *)
Lemma task_soon w q t (clk : nat → Z) :
  running w → w_queue w = q ++ [t] →
  ∃ n w' out, (n ≤ length q + 7)%nat ∧ run (ticks clk n) w = Some (w', out) ∧
    (is_dead (w_at w') = true ∨
     (w_queue w' = [t] ∧ finished_names out = map t_name q ∧
      ∀ now, work (M:=M) now w' = Some (run_task t (set_queue [] w')))).
Proof using.
  intros Hw Hq.
  destruct (descend (λ w, length (w_queue w) + to_tasks (w_at w))%nat
    (λ w, running w ∧ ∃ ran, q ++ [t] = ran ++ w_queue w ∧ w_queue w ≠ [])
    (λ w, is_dead (w_at w) = true ∨ (w_queue w = [t] ∧ ∃ b, w_at w = Draining b))) with (w := w) (clk := clk)
    as (n & w' & Hle & Ha & _ & Hx);
    [|split; [done|]; exists []; rewrite Hq; by destruct q|].
  - clear w Hw Hq clk. intros w now (Hw & ran & Hr & Hne). destruct (w_queue w) as [|x qs] eqn:Eq; [done|].
    destruct (is_dead (w_at w)) eqn:Ed; [by left; left|].
    destruct (work now w) as [[w' out]|] eqn:E.
    + assert ((∃ b, w_at w = Draining b ∧ qs = []) ∨ (∀ b, w_at w = Draining b → qs ≠ [])) as [(b & Hb & ->)|Hd].
      { destruct (w_at w); try (by right). destruct qs; [left; by exists second|by right]. }
      { left. right. apply (app_inj_tail q ran) in Hr as [_ <-]. split; [done|by exists b]. }
      right. exists w', out. split; [done|]. assert (running w') as Hw' by (by eapply running_step).
      destruct Hw as (_ & _ & Hst). apply work_step in E as (_ & _ & _ & _ & Hq & _ & Ha & _). rewrite Hq.
      unfold queue_after, allowed in *. rewrite Hst, Eq in Ha. rewrite Eq.
      destruct (w_at w) eqn:Ew; try done; (split; [split; [done|]|]);
        try (exists ran; by rewrite Hr);
        try (exists (ran ++ [x]); rewrite <-app_assoc; split; [done|by eapply Hd]);
        destruct_or? Ha; destruct_and? Ha;
        try (match goal with Hx : w_at w' = _ |- _ => rewrite Hx end); cbn; try lia;
        destruct (w_at w'); try done; cbn; lia.
    + destruct Hw as ([Hqu _ Hf] & Ho & Hst).
      apply work_blocked in E as [[Ha Hwk]|[Ha|Ha]]; [|by rewrite Hf in Hst|congruence].
      destruct (Hqu Ha) as [|]; [by rewrite Eq|congruence|done].
  - destruct (alone_run _ _ _ _ Ha) as [out E]. exists n, w', out. split; [|split; [done|]].
    { rewrite Hq, length_app in Hle. cbn in Hle. destruct (w_at w); cbn in Hle; lia. }
    destruct Hx as [Hx|(Hx & b & Hb)]; [by left|right]. split; [done|]. split.
    + destruct (run_queue _ _ _ _ E) as (ran & Hr & ->); [by rewrite Hb|].
      rewrite Hq, ticks_submit, app_nil_r, Hx in Hr. by apply (app_inj_tail q ran) in Hr as [-> _].
    + intros now. unfold work. by rewrite Hb, Hx.
Qed.

(** Steps to the end of the thread, once it was told to stop. *)
Definition to_end w : nat :=
  match w_at w with
  | Finished | Dead _ => 0 | Test | Checking => 1 | Connecting | Clearing => 2 | Waiting => 3
  | Draining false => 2 + length (w_queue w) | Draining true => 4 + length (w_queue w)
  | Online => 5 + length (w_queue w) | Discovering => 6 + length (w_queue w) | Deciding => 7 + length (w_queue w)
  | Flushing => 8 + length (w_queue w) | Syncing => 9 + length (w_queue w)
  end.
Definition over w : Prop := w_at w = Finished ∨ is_dead (w_at w) = true.

Lemma stop_over w (clk : nat → Z) :
  sound_worker w → w_owed w = 0%nat → w_stop w = true →
  ∃ n w', (n ≤ length (w_queue w) + 9)%nat ∧ alone clk n w = Some w' ∧ over w'.
Proof using.
  intros Hw Ho Hst.
  destruct (descend to_end (λ w, sound_worker w ∧ w_owed w = 0%nat ∧ w_stop w = true) over) with (w := w) (clk := clk)
    as (n & w' & Hle & Ha & _ & Hq); [|done|].
  - clear. intros w now (Hw & Ho & Hst). destruct (work now w) as [[w' out]|] eqn:E.
    + assert (over w ∨ ¬ over w) as [Hov|Hov]; [|by left|].
      { unfold over. destruct (w_at w); auto 3; right; by intros [|]. }
      right. exists w', out. split; [done|]. assert (sound_worker w') as Hw' by (by eapply work_sound).
      apply work_step in E as (E1 & E2 & _ & _ & E3 & _ & Ha & _). split; [by rewrite E1, E2|].
      unfold to_end, queue_after, allowed in *. rewrite E3, Hst in *. destruct (w_at w) eqn:Ea; try done;
        try (destruct (w_queue w) as [|t q]); try destruct second; destruct_or? Ha; destruct_and? Ha;
        try (match goal with Hx : w_at w' = _ |- _ => rewrite Hx end); cbn; try lia; destruct (w_at w'); try done; cbn; lia.
    + left. destruct Hw as [_ Hs Hf]. unfold over. apply work_blocked in E as [[Ha Hwk]|[Ha|Ha]]; auto.
      destruct (Hs Hst) as [|[|[|[|]]]]; auto; congruence.
  - exists n, w'. split; [|done]. unfold to_end in Hle. destruct (w_at w); try destruct second; lia.
Qed.

(** C27: [stop] ends the thread: whatever it is doing when [stop] returns, at most
    [length queue + 9] of its own steps later it is over, unless something that is no
    [Exception] ended it before. *)
Theorem stop_ends_worker client poll auto interval w0 evs w out (clk : nat → Z) :
  new_worker client poll auto interval = Ok w0 → run evs w0 = Some (w, out) → w_owed w = 0%nat → w_stop w = true →
  ∃ n w', (n ≤ length (w_queue w) + 9)%nat ∧ alone clk n w = Some w' ∧ over w'.
Proof using.
  intros Hn H. apply stop_over. eapply run_sound; [by eapply new_worker_sound|done].
Qed.

(** ** Discovery *)

Definition discoveries (out : list (output M R G)) : list Z :=
  omap (λ o, match o with discovery_started now => Some now | _ => None end) out.
Definition instants (evs : list (event S R G)) : list Z :=
  omap (λ ev, match ev with Work now => Some now | _ => None end) evs.

Lemma discoveries_app o1 o2 : discoveries (o1 ++ o2) = discoveries o1 ++ discoveries o2.
Proof using. apply omap_app. Qed.
Lemma discoveries_window gs : discoveries (map window_signal gs) = [].
Proof using. by induction gs. Qed.
Lemma run_callback_discoveries t r w : discoveries (run_callback t r w).2 = [].
Proof using.
  unfold run_callback, caught. destruct (t_callback t) as [cb|]; [|done]. destruct (cb r) as [gs|e].
  - cbn [snd]. by rewrite discoveries_app, discoveries_window.
  - by destruct (isa_Exception e).
Qed.
Lemma work_discoveries now w w' out :
  work now w = Some (w', out) → discoveries out = match w_at w with Discovering => [now] | _ => [] end.
Proof using.
  unfold work. destruct (w_at w) eqn:Ea; try (by intros [= <- <-]).
  - destruct (w_queue w) as [|t q]; [by intros [= <- <-]|]. intros [= E].
    assert (out = (run_task t (set_queue q w)).2) as -> by (by rewrite E). clear E.
    unfold run_task, calling. destruct (t_function t _) as [[x|e] s]; [apply run_callback_discoveries|].
    unfold caught. destruct (isa_Exception e); [|done]. pose proof (run_callback_discoveries t None (set_client s (set_queue q w))) as H.
    by destruct (run_callback _ _ _).
  - unfold calling, offline, caught. destruct (p_sync (w_client w)) as [[[|m l]|e] s]; [by intros [= <- <-]..|].
    by destruct (isa_Exception e); intros [= <- <-].
  - unfold calling, offline, caught. destruct (p_flush (w_client w)) as [[|e] s]; [by intros [= <- <-]|].
    by destruct (isa_Exception e); intros [= <- <-].
  - unfold discover, calling, caught. destruct (p_relay_urls _) as [[l|e] s];
      [destruct (p_refresh _) as [[l'|e] s']; [case_bool_decide|destruct (isa_Exception e)]|destruct (isa_Exception e)];
      by intros [= <- <-].
  - destruct (w_wake w); [|done]. by intros [= <- <-].
Qed.

(** Times that are at least [k] apart, in order. *)
Definition spaced (k : Z) : list Z → Prop := StronglySorted (λ a b, a + k ≤ b).
(** The clock reads at least [now], and never goes back. *)
Fixpoint monotonic (now : Z) (l : list Z) : Prop :=
  match l with [] => True | t :: l => now ≤ t ∧ monotonic t l end.
Definition due (now : Z) w : Prop := w_at w = Discovering → w_next w ≤ now.

Lemma step_due ev now w w' out :
  step ev w = Some (w', out) → due now w → monotonic now (instants [ev]) → due (default now (last (instants [ev]))) w'.
Proof using.
  intros H Hd Hm. destruct ev; cbn in H, Hm |- *.
  - injection H as <- _. exact Hd.
  - destruct (w_owed w); [done|]. injection H as <- _. exact Hd.
  - injection H as <- _. exact Hd.
  - injection H as <- _. exact Hd.
  - intros Ha. assert (H' := H). apply work_step in H' as (_ & _ & _ & _ & _ & _ & Hall & Hn). rewrite Ha in Hall.
    unfold allowed, next_after in *. unfold work in H. destruct (w_at w) eqn:Ea; try (by destruct_or? Hall); try done.
    + by destruct (w_stop w).
    + destruct (w_queue w); [by destruct second|]. by destruct_or? Hall.
    + by destruct (w_stop w).
    + injection H as <- _. cbn in *. destruct (w_auto w && (w_next w <=? now0)) eqn:E; [|done].
      apply andb_true_iff in E as [_ E]. lia.
    + by destruct_and? Hall.
  - destruct (w_at w); try done. injection H as <- _. by intros [=].
Qed.

Lemma step_discoveries ev w w' out now :
  step ev w = Some (w', out) → due now w → monotonic now (instants [ev]) →
  (discoveries out = [] ∧ w_next w' = w_next w) ∨
  ∃ at_ : Z, discoveries out = [at_] ∧ w_next w ≤ at_ ∧ w_next w' = at_ + w_interval w.
Proof using.
  intros H Hd Hm. destruct ev; cbn in H, Hm.
  - injection H as <- <-. by left.
  - destruct (w_owed w); [done|]. injection H as <- <-. by left.
  - injection H as <- <-. by left.
  - injection H as <- <-. by left.
  - rewrite (work_discoveries _ _ _ _ H). apply work_step in H as (_ & _ & _ & _ & _ & _ & _ & Hn). rewrite Hn.
    unfold next_after, due in *. destruct (w_at w); try (by left). right. exists now0. specialize (Hd eq_refl). split; [done|lia].
  - destruct (w_at w); try done. injection H as <- <-. by left.
Qed.
Lemma step_interval ev w w' out : step ev w = Some (w', out) → w_interval w' = w_interval w.
Proof using.
  intros H. destruct ev; cbn in H; try (by injection H as <- _).
  - destruct (w_owed w); [done|]. by injection H as <- _.
  - by apply work_step in H as (_ & _ & _ & ? & _).
  - destruct (w_at w); try done. by injection H as <- _.
Qed.

Lemma run_discoveries evs now w w' out :
  run evs w = Some (w', out) → 0 ≤ w_interval w → due now w → monotonic now (instants evs) →
  Forall (λ at_ : Z, w_next w ≤ at_) (discoveries out) ∧ spaced (w_interval w) (discoveries out).
Proof using.
  revert now w out. induction evs as [|ev evs IH]; intros now w out H Hi Hd Hm; cbn [run] in H.
  { injection H as _ <-. split; constructor. }
  destruct (step ev w) as [[w1 o1]|] eqn:E; [|done]. destruct (run evs w1) as [[w2 o2]|] eqn:E2; [|done].
  injection H as -> <-. rewrite discoveries_app. pose proof (step_interval _ _ _ _ E) as Hi1.
  assert (monotonic now (instants [ev]) ∧ monotonic (default now (last (instants [ev]))) (instants evs)) as [Hm1 Hm2].
  { revert Hm. unfold instants. destruct ev; cbn; auto. intros [? ?]. auto. }
  destruct (IH (default now (last (instants [ev]))) _ _ E2) as [Hf Hs]; [by rewrite Hi1|by eapply step_due|done|]. rewrite Hi1 in Hs.
  destruct (step_discoveries _ _ _ _ _ E Hd Hm1) as [[-> Hn]|(t & -> & Ht & Hn)]; rewrite Hn in Hf; [done|]. cbn [app].
  rewrite Forall_forall in Hf. split.
  - constructor; [done|]. apply Forall_forall. intros x Hx. specialize (Hf x Hx). lia.
  - constructor; [done|]. apply List.Forall_forall. intros x Hx. apply Hf. by apply list_elem_of_In.
Qed.

(** Discovery is not a flood: with a clock that never goes back, two rounds of relay
    discovery start at least [discovery_interval] seconds apart, and at least a minute,
    whatever the interval in the settings, the tasks and the answers. *)
Theorem discovery_spaced client poll auto interval w0 evs w out n :
  new_worker client poll auto interval = Ok w0 → run evs w0 = Some (w, out) →
  to_int interval = Ok n → monotonic 0 (instants evs) →
  spaced (Z.max 60 n) (discoveries out).
Proof using.
  intros Hn H Hi Hm. unfold new_worker in Hn. rewrite Hi in Hn. rinv Hn. simplify_eq.
  eapply run_discoveries in H as [_ Hs]; [exact Hs| |by intros [=]|exact Hm]. cbn. lia.
Qed.

(** ** What the worker does to the client *)

Lemma run_callback_client t r w : w_client (run_callback (M:=M) t r w).1 = w_client w.
Proof using.
  unfold run_callback, caught. destruct (t_callback t) as [cb|]; [|done]. destruct (cb r); [done|].
  by destruct (isa_Exception e).
Qed.
Lemma work_keeps (Rel : S → S → Prop) `{!PreOrder Rel} now w w' out :
  (∀ s, Rel s (p_sync s).2) → (∀ s, Rel s (p_flush s).2) → (∀ s, Rel s (p_relay_urls s).2) → (∀ s, Rel s (p_refresh s).2) →
  Forall (λ t, ∀ s, Rel s (t_function t s).2) (w_queue w) →
  work (M:=M) now w = Some (w', out) → Rel (w_client w) (w_client w').
Proof using.
  intros H1 H2 H3 H4 Ht. unfold work. destruct (w_at w); try (by intros [= <- <-]).
  - destruct (w_queue w) as [|t q]; [by intros [= <- <-]|]. apply Forall_cons in Ht as [Ht _]. specialize (Ht (w_client w)).
    intros [= E]. assert (w' = (run_task (M:=M) t (set_queue q w)).1) as -> by (by rewrite E). clear E.
    unfold run_task, calling. cbn [w_client set_queue]. destruct (t_function t (w_client w)) as [[x|e] s]; cbn [snd] in Ht.
    + by rewrite run_callback_client.
    + unfold caught. destruct (isa_Exception e); [|done].
      pose proof (run_callback_client t None (set_client s (set_queue q w))) as H. destruct (run_callback _ _ _). cbn in *. by rewrite H.
  - specialize (H1 (w_client w)). unfold calling, offline, caught. destruct (p_sync (w_client w)) as [[l|e] s]; [by intros [= <- <-]|].
    by destruct (isa_Exception e); intros [= <- <-].
  - specialize (H2 (w_client w)). unfold calling, offline, caught. destruct (p_flush (w_client w)) as [[l|e] s]; [by intros [= <- <-]|].
    by destruct (isa_Exception e); intros [= <- <-].
  - specialize (H3 (w_client w)). unfold discover, calling, caught. cbn [w_client goto set_next].
    destruct (p_relay_urls (w_client w)) as [[l|e] s]; cbn [w_client set_client goto snd] in *.
    + specialize (H4 s). destruct (p_refresh s) as [[l'|e] s']; cbn [snd] in *.
      * intros [= <- _]. cbn. by etrans.
      * destruct (isa_Exception e); intros [= <- _]; cbn; by etrans.
    + destruct (isa_Exception e); intros [= <- _]; done.
  - destruct (w_wake w); [|done]. by intros [= <- <-].
Qed.

(** A relation every call keeps is kept by every run. *)
Lemma run_keeps (Rel : S → S → Prop) `{!PreOrder Rel} evs w w' out :
  (∀ s, Rel s (p_sync s).2) → (∀ s, Rel s (p_flush s).2) → (∀ s, Rel s (p_relay_urls s).2) → (∀ s, Rel s (p_refresh s).2) →
  Forall (λ t, ∀ s, Rel s (t_function t s).2) (w_queue w ++ submitted evs) →
  (∀ f, Call f ∈ evs → ∀ s, Rel s (f s)) →
  run evs w = Some (w', out) → Rel (w_client w) (w_client w').
Proof using.
  intros H1 H2 H3 H4. revert w out. induction evs as [|ev evs IH]; intros w out Ht Hc H; cbn [run] in H.
  { injection H as <- _. reflexivity. }
  destruct (step ev w) as [[w1 o1]|] eqn:E; [|done]. destruct (run evs w1) as [[w2 o2]|] eqn:E2; [|done]. injection H as -> _.
  assert (∃ q, w_queue w ++ submitted [ev] = q ++ w_queue w1) as [q Hq].
  { destruct ev; cbn in E; try (injection E as <- _; exists []; cbn; by rewrite ?app_nil_r).
    - destruct (w_owed w); [done|]. injection E as <- _. exists []. cbn. by rewrite app_nil_r.
    - apply work_step in E as (_ & _ & _ & _ & -> & _). cbn. rewrite app_nil_r. unfold queue_after.
      destruct (w_at w); try (by exists []). exists (take 1 (w_queue w)). by destruct (w_queue w).
    - destruct (w_at w); try done. injection E as <- _. exists []. cbn. by rewrite app_nil_r. }
  transitivity (w_client w1).
  - destruct ev as [t| | |f|now|]; cbn in E; try (injection E as <- _; reflexivity).
    + destruct (w_owed w); [done|]. injection E as <- _. reflexivity.
    + injection E as <- _. cbn. apply Hc. by left.
    + eapply (work_keeps Rel); [exact H1|exact H2|exact H3|exact H4| |exact E]. rewrite Forall_app in Ht. by destruct Ht.
    + destruct (w_at w); try done. injection E as <- _. reflexivity.
  - eapply IH; [|intros f Hf; apply Hc; by right|done].
    change (submitted (ev :: evs)) with (submitted ([ev] ++ evs)) in Ht. unfold submitted in *.
    rewrite omap_app, app_assoc, Hq, <-app_assoc, Forall_app in Ht. by destruct Ht.
Qed.
End props.

(** ** A worker whose relays are down *)

Module Down.
(** The client counts the calls it gets. *)
#[export] Instance down : Polled nat string := {|
  p_sync n := (Err TransportError, S n);
  p_flush n := (Ok tt, S n);
  p_relay_urls n := (Ok ["https://r"%string], n);
  p_refresh n := (Ok ["https://r"; "https://q"]%string, S n)
|}.
Definition echo (name : string) (r : res Z) : task nat Z unit :=
  {| t_name := name; t_function := λ n, (r, S n); t_callback := Some (λ _, Ok [tt]) |}.
Definition fresh : Worker nat Z unit := ok_or {| w_client := 0%nat; w_auto := false; w_interval := 0; w_queue := [];
  w_stop := true; w_wake := false; w_owed := 0; w_next := 0; w_at := Finished |}
  (new_worker 0%nat (JInt 2) (JBool true) (JInt 900)).
Lemma fresh_new : new_worker 0%nat (JInt 2) (JBool true) (JInt 900) = Ok fresh.
Proof. reflexivity. Qed.
(** Two commands, of which the first fails, put around the first poll. *)
Definition two_commands : list (event nat Z unit) :=
  [Put (echo "a" (Err ClientError)); Work 1; SetWake; Work 2; Work 3; Put (echo "b" (Ok 5)); SetWake; Work 4; Work 5; Work 6; Work 7].
Definition works (evs : list (event nat Z unit)) : bool := match run evs fresh with Some _ => true | None => false end.
Definition outcome (evs : list (event nat Z unit)) : Worker nat Z unit * list (output string Z unit) :=
  default (fresh, []) (run evs fresh).
Lemma outcome_run evs : works evs = true → run evs fresh = Some ((outcome evs).1, (outcome evs).2).
Proof. unfold works, outcome. by destruct (run evs fresh) as [[]|]. Qed.
End Down.
Import Down.

Lemma worker_fifo_witness :
  ∃ ran, submitted two_commands = ran ++ w_queue (outcome two_commands).1 ∧ finished_names (outcome two_commands).2 = map t_name ran ∧
         finished_names (outcome two_commands).2 = ["a"; "b"]%string.
Proof.
  destruct (worker_fifo 0%nat (JInt 2) (JBool true) (JInt 900) fresh two_commands (outcome two_commands).1 (outcome two_commands).2) as (ran & H1 & H2);
    [exact fresh_new | apply outcome_run; vm_compute; reflexivity | vm_compute; reflexivity |].
  exists ran. split; [exact H1|]. split; [exact H2|]. vm_compute. reflexivity.
Defined.

(** The thread after it went to sleep. *)
Definition asleep : list (event nat Z unit) :=
  two_commands ++ [Work 8; Work 9; Work 10; Work 11; Work 12; Work 13; Work 14; Work 15].
Lemma worker_stuck_idle_witness :
  w_at (outcome asleep).1 = Waiting ∧ w_queue (outcome asleep).1 = [] ∧ finished_names (outcome asleep).2 = ["a"; "b"]%string.
Proof.
  destruct (worker_stuck_idle 0%nat (JInt 2) (JBool true) (JInt 900) fresh
    asleep (outcome asleep).1 (outcome asleep).2 16)
    as [(H1 & H2 & _ & H3)|[[H1 _]|H1]]; try (vm_compute in H1; discriminate H1).
  - exact fresh_new.
  - apply outcome_run. vm_compute. reflexivity.
  - vm_compute. reflexivity.
  - vm_compute. reflexivity.
  - split; [exact H1|]. split; [exact H2|]. rewrite <-H3. reflexivity.
Defined.

Definition submitting : list (event nat Z unit) := two_commands ++ [Put (echo "c" (Ok 1)); SetWake].
Lemma tasks_run_soon_witness :
  ∃ n w', (n ≤ 7)%nat ∧ alone (M:=string) Z.of_nat n (outcome submitting).1 = Some w' ∧ (w_queue w' = [] ∨ is_dead (w_at w') = true).
Proof.
  apply (tasks_run_soon 0%nat (JInt 2) (JBool true) (JInt 900) fresh submitting (outcome submitting).1 (outcome submitting).2 Z.of_nat);
    [exact fresh_new | apply outcome_run; vm_compute; reflexivity | vm_compute; reflexivity | vm_compute; reflexivity].
Defined.

Definition stopping : list (event nat Z unit) := submitting ++ [SetStop; SetWake].
Lemma stop_ends_worker_witness :
  ∃ n w', (n ≤ 10)%nat ∧ alone (M:=string) Z.of_nat n (outcome stopping).1 = Some w' ∧ over w'.
Proof.
  apply (stop_ends_worker 0%nat (JInt 2) (JBool true) (JInt 900) fresh stopping (outcome stopping).1 (outcome stopping).2 Z.of_nat);
    [exact fresh_new | apply outcome_run; vm_compute; reflexivity | vm_compute; reflexivity | vm_compute; reflexivity].
Defined.

(** Two rounds of discovery: the second one is due only 900 seconds later. *)
#[local] Instance up : Polled nat string := {|
  p_sync n := (Ok [], S n); p_flush n := (Ok tt, S n);
  p_relay_urls n := (Ok ["https://r"%string], n); p_refresh n := (Err TransportError, S n)
|}.
Definition polling : list (event nat Z unit) :=
  map Work [1; 1; 1; 1; 1; 1; 1; 2; 3; 3] ++ [Timeout] ++ map Work [800; 800; 800; 800; 800; 800; 800; 800; 800] ++ [Timeout] ++
  map Work [902; 902; 902; 902; 902; 902; 902; 902].
Definition polled : Worker nat Z unit * list (output string Z unit) := default (fresh, []) (run (Po:=up) polling fresh).
Lemma polled_run : run (Po:=up) polling fresh = Some (polled.1, polled.2).
Proof. unfold polled. assert (is_Some (run (Po:=up) polling fresh)) as [[] ->]; [|done]. vm_compute. eauto. Qed.
Lemma discovery_spaced_witness : discoveries polled.2 = [2; 902] ∧ spaced 900 (discoveries polled.2).
Proof.
  split; [vm_compute; reflexivity|].
  apply (discovery_spaced (Po:=up) 0%nat (JInt 2) (JBool true) (JInt 900) fresh polling polled.1 polled.2 900);
    [exact fresh_new | exact polled_run | reflexivity |]. vm_compute. repeat split; discriminate.
Defined.

(** A command submitted just before [stop] is never run: the thread wakes up, sees that it
    must stop and leaves the queue as it is. *)
Lemma stop_drops_task :
  let evs := map Work [1; 2; 3; 4; 5; 6] ++ [Put (echo "send_text" (Ok 1)); SetWake; SetStop; SetWake; Work 9; Work 9; Work 9] in
  ∃ w out, run (Po:=down) evs fresh = Some (w, out) ∧ w_at w = Finished ∧
    map t_name (w_queue w) = ["send_text"%string] ∧ finished_names out = [].
Proof. do 2 eexists. split; [vm_compute; reflexivity|]. by split_and!. Qed.
