(* ===== verification/Views.v ===== *)
(** * What the window shows ([gui/app.py])

    The texts and markup the interface computes from the client's data, without the
    widgets that display them: HTML of a conversation, labels of contacts, the lines of
    the dialogs, the QR raster, and what a settings dialog reads from and writes to the
    settings.  [Counter], [html.escape] and [splitlines] follow Python's library. *)

From S2P Require Import Prelude PyStr Json Store ClientState Sync Settings.
From S2P Require Devices.

(** ** Escaping *)

Definition escape_char (c : ascii) : bytes :=
  if bool_decide (c = "&"%char) then bs "&amp;" else if bool_decide (c = "<"%char) then bs "&lt;"
  else if bool_decide (c = ">"%char) then bs "&gt;" else if bool_decide (c = dquote) then bs "&quot;"
  else if bool_decide (c = squote) then bs "&#x27;" else [c].
(** [html.escape(s)]; a value that is no string has no [replace]. *)
Definition html_escape_b (l : bytes) : bytes := concat (map escape_char l).
Definition html_escape (j : json) : res bytes :=
  match j with JStr s => Ok (html_escape_b (bs s)) | _ => Err AttributeError end.

(** ** A conversation *)

(** The bubble of a message, and the name of the file it carries. *)
Definition message_text (m : message) : res (bytes * option bytes) :=
  let body := jor (m_body m) (JObj []) in
  if eq_str (m_type m) "text" then
    let? text := (let? t := jget_def "text" (JStr "") body in html_escape t) in Ok (text, None)
  else
    let? caption := (let? t := jget_def "caption" (JStr "") body in html_escape (jor t (JStr ""))) in
    let? name := (let? a := jget "attachment" body in
                  let? n := jget_def "name" (JStr "attachment") (jor a (JObj [])) in html_escape n) in
    Ok (bs "[file: " ++ name ++ bs "] " ++ caption, Some name).
(** The line under the bubble: the state of a sent message as it is stored. *)
Definition message_meta (m : message) : bytes :=
  let mine := eq_str (m_direction m) "sent" in
  let state := jor (m_state m) (JStr "") in
  if mine && truthy state then bs (to_pystr state) else bs (if mine then "sent" else "received").

Definition q (s : bytes) : bytes := dquote :: s ++ [dquote].
Definition message_row (m : message) (text : bytes) : bytes :=
  let mine := eq_str (m_direction m) "sent" in
  bs "<div style=" ++ q (bs "text-align:" ++ bs (if mine then "right" else "left") ++ bs ";margin:6px 0;") ++ bs ">" ++
  bs "<span style=" ++ q (bs "background:" ++ bs (if mine then "#3b82f6" else "#2b2d31") ++
    bs ";padding:6px 10px;border-radius:8px;display:inline-block;max-width:70%;") ++ bs ">" ++ text ++ bs "</span><br>" ++
  bs "<span style=" ++ q (bs "color:#8a8a8a;font-size:10px;") ++ bs ">" ++ message_meta m ++ bs "</span></div>".
Fixpoint message_rows (ms : list message) : res (list bytes * list (message * bytes)) :=
  match ms with
  | [] => Ok ([], [])
  | m :: rest =>
      let? (text, name) := message_text m in
      let? (rows, attachments) := message_rows rest in
      Ok (message_row m text :: rows,
          match name with Some n => (m, n) :: attachments | None => attachments end)
  end.
(** The HTML of a conversation and its attachments. *)
Definition render_chat (ms : list message) : res (bytes * list (message * bytes)) :=
  let? (rows, attachments) := message_rows ms in
  let html := concat rows in
  Ok (match html with [] => bs "<i>No messages yet.</i>" | _ => html end, attachments).

(** ** The list of contacts *)

Definition is_unread (m : message) : bool := eq_str (m_direction m) "received" && eq_str (m_state m) "received".
Definition unread (ms : list message) : nat := length (List.filter is_unread ms).
(** [contact["nickname"] or contact["id"][:8]] *)
Definition base_name (k : contact) : json := jor (c_nickname k) (JStr (take_chars 8 (c_id k))).
(** Nicknames are text columns. *)
Definition base_text (k : contact) : string := to_pystr (base_name k).
Definition dot : string := " · ".
Definition contact_label (bases : list string) (k : contact) (n : nat) : string :=
  let base := base_text k in
  let label := if (1 <? length (List.filter (String.eqb base) bases))%nat
               then base +:+ dot +:+ take_chars 7 (c_id k) else base in
  if (0 <? n)%nat then label +:+ " (" +:+ int_str (Z.of_nat n) +:+ ")" else label.
(** The rows: label and identity. *)
Definition contact_rows (l : list (contact * nat)) : list (string * string) :=
  let bases := map (λ p, base_text p.1) l in
  map (λ p, (contact_label bases p.1 p.2, c_id p.1)) l.

(** ** Dialogs *)

Definition RANGE_CHOICES : list (string * option Z) :=
  [("Last 30 days", Some 30); ("Last 60 days", Some 60); ("Last 90 days", Some 90); ("Everything", None)]%string.
(** [False] when the user cancels, else the start of the window, [None] for everything. *)
Inductive range := Cancelled | Since (ms : option Z).
(** The clock in milliseconds; the box offers the labels and no other text. *)
Definition ask_range (now : Z) (choice : option string) : res range :=
  match choice with
  | None => Ok Cancelled
  | Some c =>
      match List.find (λ p, String.eqb p.1 c) RANGE_CHOICES with
      | None => Err KeyError
      | Some (_, None) => Ok (Since None)
      | Some (_, Some days) => Ok (Since (Some (now - days * 24 * 3600 * 1000)))
      end
  end.

(** [round(a / b)] for a positive [b]: halves go to the even neighbour. *)
Definition py_round (a b : Z) : Z :=
  let k := a / b in
  let r := 2 * (a mod b) in
  if r <? b then k else if b <? r then k + 1 else if Z.even k then k else k + 1.
(** [float(since_ms)] of an integer. *)
Definition describe_range (now : Z) (since_ms : json) : res string :=
  if negb (truthy since_ms) then Ok "everything"%string else
  match since_ms with
  | JInt since =>
      let days := Z.max 1 (py_round (now - since) (24 * 3600 * 1000)) in
      Ok ("the last " +:+ int_str days +:+ " day" +:+ (if days =? 1 then "" else "s"))
  | _ => Err Unmodelled
  end.

(** [qr_pixmap] on the modules of the code: the side, and the squares painted black. *)
Definition qr_squares (target : Z) (matrix : list (list bool)) : option (Z * list (Z * Z * Z)) :=
  match matrix with
  | [] | [] :: _ => None
  | _ =>
      let modules := Z.of_nat (length matrix) in
      let scale := Z.max 1 (target / modules) in
      Some (modules * scale,
            concat (imap (λ y row, concat (imap (λ x (dark : bool),
              if dark then [(Z.of_nat x * scale, Z.of_nat y * scale, scale)] else []) row)) matrix))
  end.

(** One device in the list of devices. *)
Definition device_notes (current : option string) (s : option device_status) (d : Devices.DeviceEntry) : list string :=
  if bool_decide (Some (Devices.device_id d) = current) then []
  else match s with
       | Some s =>
           if negb (ds_has_keys s) then ["no sync keys yet — update that device"%string]
           else (if ds_approved s then "history approved"%string else "not approved"%string) ::
             (if ds_received s =? 0 then []
              else ["received " +:+ int_str (ds_received s) +:+ "/" +:+
                    (if ds_expected s =? 0 then "?" else int_str (ds_expected s)) +:+ " items"])
       | None => ["no sync keys yet — update that device"%string]
       end.
Definition joined (sep : string) (l : list string) : string := to_str (join (bs sep) (map bs l)).
Definition or_text (s d : string) : string := if String.eqb s "" then d else s.
Definition device_line (current : option string) (status : list device_status) (d : Devices.DeviceEntry) : res string :=
  let s := List.find (λ s, String.eqb (ds_device s) (Devices.device_id d)) (rev status) in
  let relays := or_text (joined ", " (Devices.relays d)) "(this device's relays)" in
  let mine := if bool_decide (Some (Devices.device_id d) = current) then "   ← this device"%string else ""%string in
  let notes := device_notes current s d in
  let? inbox := (let? j := jitem "id" (JObj (Devices.inbox d)) in
                 match j with JStr s => Ok s | _ => Err TypeError end) in
  Ok (joined (to_str [byte_of 10])
    ((or_text (Devices.name d) "unnamed device" +:+ "  ·  " +:+ take_chars 10 (Devices.device_id d) +:+ mine) ::
     match notes with [] => [] | _ => ["    "%string +:+ joined " · " notes] end ++
     ["    mailbox "%string +:+ take_chars 10 inbox +:+ "…  →  " +:+ relays])).
Definition request_line (now : Z) (r : request) : res string :=
  let? range := describe_range now (rq_since r) in
  Ok (or_text (rq_name r) "unnamed device" +:+ " (" +:+ take_chars 10 (rq_device r) +:+ ") asked for " +:+ range).

(** ** The settings dialog *)

Record SettingsDialog := {
  sd_relays : string; sd_proxy_enabled : bool; sd_proxy_url : string; sd_fail_closed : bool;
  sd_auto_discover : bool; sd_poll : Z
}.

(** [str.splitlines]: where a line ends, and what is left after the break. *)
Definition line_break (l : bytes) : option bytes :=
  match l with
  | a :: r =>
      let x := code a in
      if x =? 13 then Some match r with b :: r' => if code b =? 10 then r' else r | [] => r end
      else if ((10 <=? x) && (x <=? 12)) || ((28 <=? x) && (x <=? 30)) then Some r
      else match r with
           | b :: r' =>
               if (x =? 0xC2) && (code b =? 0x85) then Some r'
               else match r' with
                    | c :: r'' => if (x =? 0xE2) && (code b =? 0x80) && ((code c =? 0xA8) || (code c =? 0xA9)) then Some r'' else None
                    | [] => None
                    end
           | [] => None
           end
  | [] => None
  end.
Fixpoint splitlines (fuel : nat) (cur l : bytes) : list bytes :=
  match fuel with
  | O => [rev cur]
  | S fuel =>
      match l with
      | [] => match cur with [] => [] | _ => [rev cur] end
      | c :: l' => match line_break l with
                   | Some r => rev cur :: splitlines fuel [] r
                   | None => splitlines fuel (c :: cur) l'
                   end
      end
  end.
Definition py_splitlines (s : string) : list string := map to_str (splitlines (S (length (bs s))) [] (bs s)).

(** What a check box and a spin box accept: booleans and integers. *)
Definition checked (j : json) : res bool :=
  match j with JBool b => Ok b | JInt n => Ok (negb (n =? 0)) | _ => Err TypeError end.
Definition spin (lo hi : Z) (j : json) : res Z :=
  let? n := match j with JInt n => Ok n | JBool b => Ok (bool_int b) | _ => Err TypeError end in
  raise_if (n <? - 2 ^ 31) || (2 ^ 31 <=? n) with OverflowError ;;
  Ok (Z.max lo (Z.min hi n)).
Definition line_edit (j : json) : res string := match j with JStr s => Ok s | _ => Err TypeError end.
Definition open_dialog (s : GuiSettings) : res SettingsDialog :=
  let? urls := (let? l := iter_json (relays s) in mapM (λ j, match j with JStr s => Ok s | _ => Err TypeError end) l) in
  let? enabled := checked (proxy_enabled s) in
  let? url := line_edit (proxy_url s) in
  let? closed := checked (jor (fail_closed s) (proxy_enabled s)) in
  let? auto := checked (auto_discover s) in
  let? poll := spin 1 60 (poll_seconds s) in
  Ok {| sd_relays := joined (to_str [byte_of 10]) urls; sd_proxy_enabled := enabled; sd_proxy_url := url;
        sd_fail_closed := closed; sd_auto_discover := auto; sd_poll := poll |}.
Definition apply_to (d : SettingsDialog) (s : GuiSettings) : GuiSettings :=
  let urls := List.filter (λ r, negb (String.eqb r "")) (map py_strip (py_splitlines (sd_relays d))) in
  {| relays := JList (map JStr match urls with [] => ["http://127.0.0.1:8000"%string] | _ => urls end);
     proxy_url := JStr (py_strip (sd_proxy_url d)); proxy_enabled := JBool (sd_proxy_enabled d);
     fail_closed := JBool (sd_fail_closed d); theme := theme s; last_name := last_name s;
     poll_seconds := JInt (sd_poll d); auto_discover := JBool (sd_auto_discover d);
     discovery_interval := discovery_interval s |}.
(** [AddContactDialog.values] *)
Definition add_contact_values (card nickname : string) : string * string := (py_strip card, py_strip nickname).

(** ** Markup comes from the template alone *)

(** The characters that open, close and quote markup. *)
Definition markup (c : ascii) : bool :=
  bool_decide (c = "<"%char) || bool_decide (c = ">"%char) || bool_decide (c = dquote) || bool_decide (c = squote).
Definition markup_of (l : bytes) : bytes := List.filter markup l.
Definition inert (l : bytes) : Prop := markup_of l = [].

Lemma markup_app a b : markup_of (a ++ b) = markup_of a ++ markup_of b.
Proof. apply List.filter_app. Qed.
Lemma inert_app a b : inert a → inert b → inert (a ++ b).
Proof. unfold inert. intros Ha Hb. by rewrite markup_app, Ha, Hb. Qed.
Lemma escape_char_inert c : inert (escape_char c).
Proof.
  unfold escape_char. repeat (case_bool_decide; [done|]). unfold inert, markup_of. cbn [List.filter].
  replace (markup c) with false; [done|]. unfold markup. by rewrite !bool_decide_false.
Qed.
Lemma html_escape_inert l : inert (html_escape_b l).
Proof.
  unfold html_escape_b. induction l as [|c l IH]; [done|]. cbn [map concat]. apply inert_app; [apply escape_char_inert|done].
Qed.

(** Escaping loses nothing: no two texts look alike. *)
Lemma escape_char_prefix c d l r : escape_char c ++ l = escape_char d ++ r → c = d ∧ l = r.
Proof.
  unfold escape_char. intros H. repeat (case_bool_decide; subst; cbn in H; try (by simplify_eq)); by simplify_eq.
Qed.
Lemma html_escape_inj l l' : html_escape_b l = html_escape_b l' → l = l'.
Proof.
  revert l'. induction l as [|c l IH]; intros [|c' l'] H; unfold html_escape_b in *; cbn [map concat] in H; [done|..].
  - exfalso. revert H. unfold escape_char. by repeat case_bool_decide.
  - exfalso. revert H. unfold escape_char. by repeat case_bool_decide.
  - apply escape_char_prefix in H as [-> H]. f_equal. by apply IH.
Qed.

Lemma html_escape_Ok j b : html_escape j = Ok b → inert b.
Proof. destruct j; cbn; try done. intros [= <-]. apply html_escape_inert. Qed.

Lemma message_text_inert m text name : message_text m = Ok (text, name) → inert text.
Proof.
  unfold message_text. destruct (eq_str (m_type m) "text").
  - intros (t & (j & _ & Ht%html_escape_Ok)%res_bind_Ok & [= <- _])%res_bind_Ok. done.
  - intros (t & (j & _ & Ht%html_escape_Ok)%res_bind_Ok & H)%res_bind_Ok.
    apply res_bind_Ok in H as (n & (a & _ & (n' & _ & Hn%html_escape_Ok)%res_bind_Ok)%res_bind_Ok & [= <- _]).
    repeat apply inert_app; done.
Qed.

(** The state shown under a message the user sent carries no markup. *)
Definition plain_state (m : message) : Prop :=
  eq_str (m_direction m) "sent" = true → inert (bs (to_pystr (jor (m_state m) (JStr "")))).
Lemma message_meta_inert m : plain_state m → inert (message_meta m).
Proof.
  unfold plain_state. intros H. unfold message_meta. destruct (eq_str (m_direction m) "sent"); cbn [andb]; [|done].
  destruct (truthy _); [by apply H|done].
Qed.

(** The markup of one row, whatever it shows. *)
Definition skeleton : bytes := bs "<" ++ q [] ++ bs "><" ++ q [] ++ bs "><><><" ++ q [] ++ bs "><><>".
Lemma message_row_markup m text : inert text → plain_state m → markup_of (message_row m text) = skeleton.
Proof.
  intros Ht Hs%message_meta_inert. unfold inert in *. unfold message_row, q. rewrite !markup_app.
  change (dquote :: ?x) with ([dquote] ++ x). rewrite Ht, Hs.
  destruct (eq_str (m_direction m) "sent"); reflexivity.
Qed.

(** C31: no message can bring markup into the chat: as long as the states of the sent messages
    carry none, the tags, attributes and quotes of the page are those of the template, once per
    message, whatever the texts, file names and captions say. *)
Theorem chat_markup_fixed ms rows attachments :
  message_rows ms = Ok (rows, attachments) → Forall plain_state ms →
  markup_of (concat rows) = concat (repeat skeleton (length ms)).
Proof.
  revert rows attachments. induction ms as [|m ms IH]; intros rows atts H Hs; cbn [message_rows] in H.
  { by injection H as <- <-. }
  apply Forall_cons in Hs as [Hm Hs].
  destruct (message_text m) as [[text name]|] eqn:Et; [|done]. cbn [res_bind] in H.
  destruct (message_rows ms) as [[rows' atts']|]; [|done]. injection H as <- _. cbn [concat repeat length].
  rewrite markup_app, message_row_markup by (done || by eapply message_text_inert). f_equal. by eapply IH.
Qed.

(** A text that is no string cannot be shown: the page of its conversation raises. *)
Lemma text_not_string_fails m d rest :
  m_type m = JStr "text" → m_body m = JObj d →
  (∀ s, default (JStr "") (dget "text" d) ≠ JStr s) → render_chat (m :: rest) = Err AttributeError.
Proof.
  intros Ht Hb Hd. unfold render_chat. cbn [message_rows]. unfold message_text. rewrite Ht, Hb. cbn [eq_str].
  rewrite String.eqb_refl. assert (jor (JObj d) (JObj []) = JObj d) as -> by (by destruct d). cbn [jget_def res_bind].
  unfold default in Hd. destruct (dget "text" d) as [[]|] eqn:E; try done; by edestruct Hd.
Qed.

(** ** Dialogs *)

(** A QR code stays inside its square: with square input, every black module is
    painted inside the pixmap, and the picture is as large as fits the target. *)
Lemma qr_inside target matrix side squares x y s :
  Forall (λ row, length row = length matrix) matrix →
  qr_squares target matrix = Some (side, squares) → (x, y, s) ∈ squares →
  1 ≤ s ∧ 0 ≤ x ∧ 0 ≤ y ∧ x + s ≤ side ∧ y + s ≤ side.
Proof.
  intros Hsq H Hin. unfold qr_squares in H. destruct matrix as [|[|b r] rows] eqn:Em; [done..|]. rewrite <-Em in *.
  injection H as <- <-. set (scale := Z.max 1 _) in *. assert (1 ≤ scale) by lia.
  apply list_elem_of_In, in_concat in Hin as (l & Hl & Hin).
  apply list_elem_of_In, elem_of_lookup_imap in Hl as (i & row & -> & Hrow).
  apply in_concat in Hin as (l & Hl & Hin). apply list_elem_of_In, elem_of_lookup_imap in Hl as (j & dark & -> & Hj).
  destruct dark; [|done]. destruct Hin as [[= <- <- <-]|[]].
  assert (Hlen := lookup_lt_Some _ _ _ Hrow). rewrite Forall_forall in Hsq.
  assert (length row = length matrix) as Hr by (apply Hsq; by eapply list_elem_of_lookup_2).
  apply lookup_lt_Some in Hj. nia.
Qed.

Lemma py_round_near a b k : 0 < b → 2 * Z.abs (a - k * b) < b → py_round a b = k.
Proof.
  intros Hb H. unfold py_round. pose proof (Z.div_mod a b ltac:(lia)) as E. pose proof (Z.mod_pos_bound a b Hb).
  set (d := a / b) in *. set (r := a mod b) in *. assert (d = k ∨ d = k - 1) as [->| ->] by nia.
  - destruct (2 * r <? b) eqn:E1; [done|]. exfalso. nia.
  - destruct (2 * r <? b) eqn:E1; [exfalso; nia|]. destruct (b <? 2 * r) eqn:E2; [lia|]. exfalso. nia.
Qed.
(** A request is described by the choice it was made with, within twelve hours of it. *)
Lemma describe_asked now now' choice since :
  ask_range now (Some choice) = Ok (Since (Some since)) → 2 * Z.abs (now' - now) < 86400000 → since ≠ 0 →
  ∃ days, (choice, Some days) ∈ RANGE_CHOICES ∧
    describe_range now' (JInt since) = Ok ("the last " +:+ int_str days +:+ " days").
Proof.
  unfold ask_range. destruct (List.find _ _) as [[c [days|]]|] eqn:Ef; [|done..]. intros [= <-] Hn Hz.
  apply List.find_some in Ef as [Hin Hc]. apply String.eqb_eq in Hc. cbn in Hc. subst c. exists days.
  apply list_elem_of_In in Hin. split; [done|]. unfold describe_range. cbn [truthy].
  rewrite (proj2 (Z.eqb_neq _ _) Hz). cbn [negb].
  assert (days = 30 ∨ days = 60 ∨ days = 90) as Hd.
  { unfold RANGE_CHOICES in Hin. do 3 (apply elem_of_cons in Hin as [[= _ ->]|Hin]; [tauto|]). by apply list_elem_of_singleton in Hin. }
  rewrite (py_round_near _ _ days) by lia. by destruct Hd as [->|[->| ->]].
Qed.

(** The suffix that tells two contacts of one name apart can be imitated: here the first
    contact shares its nickname with the second, and the third one's nickname is the label
    the first one is shown under. *)
Definition some_contact (id nickname : string) : contact :=
  {| c_id := id; c_identity := "me"; c_nickname := JStr nickname; c_isign := []; c_idh := []; c_bundle := JNull;
     c_inbox := JNull; c_relays := JNull; c_session := JNull; c_verified := false; c_created := 0 |}.
Lemma label_forged :
  map fst (contact_rows [(some_contact "7K3QX9ABCD" "Bob", 0%nat); (some_contact "EEEEEEEEEE" "Bob", 0%nat);
                         (some_contact "FFFFFFFFFF" ("Bob" +:+ dot +:+ "7K3QX9A"), 0%nat)])
  = ["Bob" +:+ dot +:+ "7K3QX9A"; "Bob" +:+ dot +:+ "EEEEEEE"; "Bob" +:+ dot +:+ "7K3QX9A"]%string.
Proof. vm_compute. reflexivity. Qed.

(** ** The settings dialog *)

Lemma line_break_graph c r : graph c → line_break (c :: r) = None.
Proof.
  intros [Hw Ha]. unfold ws1, is_ascii, line_break in *.
  replace (code c =? 13) with false by lia. replace ((10 <=? code c) && (code c <=? 12) || (28 <=? code c) && (code c <=? 30)) with false by lia.
  destruct r as [|b [|d r]]; [done|..]; replace (code c =? 0xC2) with false by lia; [done|].
  by replace (code c =? 0xE2) with false by lia.
Qed.

Definition nl : ascii := byte_of 10.
Lemma splitlines_word w : ∀ cur f r, Forall graph w →
  splitlines (length w + S f) cur (w ++ nl :: r) = (rev cur ++ w) :: splitlines f [] r.
Proof.
  induction w as [|c w IH]; intros cur f r Hw.
  - cbn. by rewrite app_nil_r.
  - apply Forall_cons in Hw as [Hc Hw]. cbn [length Nat.add app splitlines]. rewrite line_break_graph by done.
    rewrite IH by done. cbn [rev]. by rewrite <-app_assoc.
Qed.
Lemma splitlines_last w : ∀ cur f, Forall graph w → cur ++ w ≠ [] → splitlines (length w + S f) cur w = [rev cur ++ w].
Proof.
  induction w as [|c w IH]; intros cur f Hw Hne.
  - cbn. rewrite app_nil_r in *. by destruct cur.
  - apply Forall_cons in Hw as [Hc Hw]. cbn [length Nat.add splitlines]. rewrite line_break_graph by done.
    rewrite IH by done. cbn [rev]. by rewrite <-app_assoc.
Qed.

(** A text a line of the relay box keeps as it is. *)
Definition web_url (u : string) : Prop := u ≠ ""%string ∧ Forall graph (bs u).

Lemma splitlines_join us : Forall web_url us → us ≠ [] →
  splitlines (S (length (join [nl] (map bs us)))) [] (join [nl] (map bs us)) = map bs us.
Proof.
  induction us as [|u us IH]; intros Hus Hne; [done|]. apply Forall_cons in Hus as [[Hu Hg] Hus].
  destruct us as [|v us].
  - cbn [map join]. replace (S (length (bs u))) with (length (bs u) + 1)%nat by lia.
    apply (splitlines_last _ [] 0); [done|]. cbn. intros H. apply Hu, bs_inj. exact H.
  - cbn [map]. change (join [nl] (bs u :: bs v :: map bs us)) with (bs u ++ nl :: join [nl] (map bs (v :: us))).
    replace (S (length (bs u ++ nl :: join [nl] (map bs (v :: us)))))
      with (length (bs u) + S (S (length (join [nl] (map bs (v :: us))))))%nat by (rewrite length_app; cbn [length]; lia).
    rewrite splitlines_word by done. cbn [rev app]. by rewrite (IH Hus).
Qed.

Lemma strip_url u : web_url u → py_strip u = u.
Proof. intros [_ Hg]. unfold py_strip. by rewrite strip_graph, to_str_bs. Qed.

(** The relay box shows the list and reads the same list. *)
Lemma relay_box us : Forall web_url us → us ≠ [] →
  List.filter (λ r, negb (String.eqb r "")) (map py_strip (py_splitlines (joined (to_str [nl]) us))) = us.
Proof.
  intros Hus Hne. unfold py_splitlines, joined. rewrite !bs_to_str, splitlines_join, !map_map by done.
  clear Hne. induction Hus as [|u us Hu Hus IH]; [done|]. cbn [map List.filter].
  rewrite to_str_bs, strip_url by done. destruct Hu as [Hne _]. rewrite (proj2 (String.eqb_neq _ _) Hne). cbn [negb]. by f_equal.
Qed.

(** Accepting the settings dialog unchanged changes nothing but this: with the proxy on,
    "fail closed" becomes part of the settings too. *)
Theorem dialog_roundtrip s us n u :
  typed s → relays s = JList (map JStr us) → Forall web_url us → us ≠ [] →
  proxy_url s = JStr u → (u = ""%string ∨ web_url u) → poll_seconds s = JInt n → 1 ≤ n ≤ 60 →
  ∃ d, open_dialog s = Ok d ∧
    apply_to d s =
      {| relays := relays s; proxy_url := proxy_url s; proxy_enabled := proxy_enabled s;
         fail_closed := JBool (truthy (fail_closed s) || truthy (proxy_enabled s)); theme := theme s;
         last_name := last_name s; poll_seconds := poll_seconds s; auto_discover := auto_discover s;
         discovery_interval := discovery_interval s |}.
Proof.
  intros Hs Hr Hus Hne Hu Hw Hp Hn. destruct (ty_proxy_enabled s Hs) as [pe Epe], (ty_fail_closed s Hs) as [fc Efc],
    (ty_auto_discover s Hs) as [ad Ead].
  assert (open_dialog s = Ok {| sd_relays := joined (to_str [nl]) us; sd_proxy_enabled := pe; sd_proxy_url := u;
    sd_fail_closed := fc || pe; sd_auto_discover := ad; sd_poll := n |}) as E.
  { unfold open_dialog. rewrite Hr, Hu, Hp, Epe, Efc, Ead. cbn [iter_json res_bind checked line_edit].
    rewrite (mapM_fmap_id _ JStr) by done. cbn [res_bind]. unfold jor, spin. cbn [truthy res_bind].
    destruct fc; cbn [checked res_bind orb]; (replace ((n <? - 2 ^ 31) || (2 ^ 31 <=? n)) with false by lia);
      cbn [res_bind]; by replace (Z.max 1 (Z.min 60 n)) with n by lia. }
  eexists. split; [exact E|]. unfold apply_to. cbn [sd_relays sd_proxy_enabled sd_proxy_url sd_fail_closed sd_auto_discover sd_poll].
  rewrite relay_box by done. rewrite Hr, Hu, Hp, Epe, Efc, Ead. cbn [truthy]. f_equal; [by destruct us|].
  destruct Hw as [->|Hw]; [done|]. by rewrite strip_url.
Qed.

(** An empty box does not leave the client without relays. *)
Lemma apply_to_relays d s : ∃ u us, relays (apply_to d s) = JList (map JStr (u :: us)).
Proof. unfold apply_to. cbn [relays]. destruct (List.filter _ _) as [|u us]; by do 2 eexists. Qed.

Lemma dialog_roundtrip_witness :
  ∃ d, open_dialog proxied_settings = Ok d ∧
    apply_to d proxied_settings = {| relays := relays proxied_settings; proxy_url := proxy_url proxied_settings;
      proxy_enabled := JBool true; fail_closed := JBool true; theme := JStr "dark"; last_name := JStr "ann";
      poll_seconds := JInt 2; auto_discover := JBool true; discovery_interval := JInt 900 |}.
Proof.
  apply (dialog_roundtrip proxied_settings ["https://r"%string] 2 "socks5://127.0.0.1:9050");
    [apply proxied_typed | reflexivity | | discriminate | reflexivity | right | reflexivity | lia].
  - repeat constructor. discriminate.
  - split; [discriminate|]. repeat constructor.
Defined.

Definition shown (direction state : string) (body : json) : message :=
  {| m_id := "m"; m_identity := "me"; m_contact := JStr "c"; m_direction := JStr direction; m_type := JStr "text";
     m_body := body; m_remote := JNull; m_ts := 0; m_state := JStr state; m_meta := JNull |}.
Definition script : message := shown "received" "received" (JObj [("text", JStr "<script src='x'>")])%string.
Definition page : list bytes * list (message * bytes) :=
  ok_or ([], []) (message_rows [script; shown "sent" "delivered" (JObj [("text", JStr "ok")])%string]).
Lemma chat_markup_fixed_witness : markup_of (concat page.1) = skeleton ++ skeleton.
Proof.
  apply (chat_markup_fixed [script; shown "sent" "delivered" (JObj [("text", JStr "ok")])%string] page.1 page.2).
  - vm_compute. reflexivity.
  - repeat constructor; intros H; vm_compute in H |- *; congruence.
Defined.
(** A state with markup is part of the page as it is. *)
Lemma state_markup_shown :
  match message_rows [shown "sent" "<img src=x>" (JObj [("text", JStr "ok")])%string] with
  | Ok (rows, _) => markup_of (concat rows) ≠ skeleton
  | Err _ => False
  end.
Proof. vm_compute. discriminate. Qed.
