(* ===== verification/Desktop.v ===== *)
(** * The desktop application ([gui/app.py])

    The controller [App]: its screens, the login and its end, what its buttons do and how
    it answers the signals of the worker.  A handler is a computation on the application's
    state, an exception that leaves one ends the program.  The answers of modal dialogs
    are arguments of the handlers, what a handler shows in a box is recorded in [a_boxes],
    and signals of the worker's thread wait in [a_signals] until the window handles them.

    [self.client] and [self.worker] are set and cleared together; [a_worker] is both: the
    thread owns the client, the transport its pools use, and the machine while it runs.
    A handler runs without a step of a thread in between, except where it waits for the
    end of the thread: [worker.wait(3000)] returns when the thread is over, or after three
    seconds.  What the thread gets done in them is an argument of the handler, a [Wait]: any
    number of steps, with their clock readings.  A thread that is not over by then is left
    behind ([a_left]): the window goes on without it, and it goes on with the client and the
    keys it has, on the same machine ([straggle]), until it sees that it was told to stop.
    What Qt does with a thread object that nobody holds is outside, and so are the MIME type of
    a name, the BIP39 words of the entropy and the texts of errors.  [send_file] reads its
    file before anything else. *)

From S2P Require Import Prelude PyStr Json JsonProps Primitives Dict Encoding Sql Store ClientState Sync Client LocalFiles ClientRelays Settings Views.
From S2P Require Identity Card Transport History Worker Devices.

Inductive Screen := WelcomeScreen | CreateIdentityScreen | SeedphraseScreen | RecoverScreen | UnlockScreen | MainScreen.
#[export] Instance screen_eq_dec : EqDecision Screen.
Proof. solve_decision. Defined.


(** [self.settings.last_name = …] *)
Definition named (name : json) (s : GuiSettings) : GuiSettings :=
  {| relays := relays s; proxy_url := proxy_url s; proxy_enabled := proxy_enabled s; fail_closed := fail_closed s;
     theme := theme s; last_name := name; poll_seconds := poll_seconds s; auto_discover := auto_discover s;
     discovery_interval := discovery_interval s |}.
(** [self.settings.relays = …] *)
Definition with_relays (l : json) (s : GuiSettings) : GuiSettings :=
  {| relays := l; proxy_url := proxy_url s; proxy_enabled := proxy_enabled s; fail_closed := fail_closed s;
     theme := theme s; last_name := last_name s; poll_seconds := poll_seconds s; auto_discover := auto_discover s;
     discovery_interval := discovery_interval s |}.

(** The contents of the main screen. *)
Record View := {
  v_identity : string;
  v_contacts : list (string * string);
  v_row : option nat;
  v_header : string;
  v_header_id : string;
  v_chat : bytes;
  v_attachments : list (message * bytes);
  v_input : string;
  v_status : string
}.
Definition view_set_contacts l r (v : View) : View :=
  {| v_identity := v_identity v; v_contacts := l; v_row := r; v_header := v_header v; v_header_id := v_header_id v;
     v_chat := v_chat v; v_attachments := v_attachments v; v_input := v_input v; v_status := v_status v |}.
Definition view_set_header h i (v : View) : View :=
  {| v_identity := v_identity v; v_contacts := v_contacts v; v_row := v_row v; v_header := h; v_header_id := i;
     v_chat := v_chat v; v_attachments := v_attachments v; v_input := v_input v; v_status := v_status v |}.
Definition view_set_chat c a (v : View) : View :=
  {| v_identity := v_identity v; v_contacts := v_contacts v; v_row := v_row v; v_header := v_header v;
     v_header_id := v_header_id v; v_chat := c; v_attachments := a; v_input := v_input v; v_status := v_status v |}.
Definition view_set_input i (v : View) : View :=
  {| v_identity := v_identity v; v_contacts := v_contacts v; v_row := v_row v; v_header := v_header v;
     v_header_id := v_header_id v; v_chat := v_chat v; v_attachments := v_attachments v; v_input := i; v_status := v_status v |}.
Definition view_set_status s (v : View) : View :=
  {| v_identity := v_identity v; v_contacts := v_contacts v; v_row := v_row v; v_header := v_header v;
     v_header_id := v_header_id v; v_chat := v_chat v; v_attachments := v_attachments v; v_input := v_input v; v_status := s |}.
Definition view_set_identity i (v : View) : View :=
  {| v_identity := i; v_contacts := v_contacts v; v_row := v_row v; v_header := v_header v;
     v_header_id := v_header_id v; v_chat := v_chat v; v_attachments := v_attachments v; v_input := v_input v; v_status := v_status v |}.
Definition no_contact : string := "Select a contact".
(** [MainScreen.reset] *)
Definition reset : View :=
  {| v_identity := ""; v_contacts := []; v_row := None; v_header := no_contact; v_header_id := ""; v_chat := [];
     v_attachments := []; v_input := ""; v_status := "locked" |}.

(** Boxes, by title. *)
Inductive box := Warning (title : string) (e : option exn) | Critical (title : string) (e : exn)
  | Information (title : string) | CardShown (card : string) | DevicesShown (lines requests : list string) (chunks size : Z).

(** What a task returns, and the signals of callbacks. *)
Inductive result :=
| Done | Text (s : string) | Asked (devices : list string) | Approved (items skipped : Z)
| Exported (path : string) (size : Z) (counts : json) | Imported (n : History.counts) | Data (b : bytes).
Inductive signal := history_done (r : option result) | attachment_ready (name : bytes) (r : option result).

(** A client at work: its store is the database [r_path] of the machine. *)
Record Running {K N : Type} :=
  { r_client : Client N; r_transport : Transport.Transport; r_path : string; r_desk : Desk K N }.
Arguments Running K N : clear implicits.

Abbreviation Thread K N := (Worker.Worker (Running K N) result signal).
Abbreviation Task K N := (Worker.task (Running K N) result signal).
Abbreviation output := (Worker.output message result signal).

Record App {K N : Type} := {
  a_desk : Desk K N;              (* while no thread runs *)
  a_settings : GuiSettings;
  a_directory : string;
  a_identity : option Identity.Identity;
  a_worker : option (Thread K N);
  a_contact : option string;      (* current_contact *)
  a_pending : option Identity.Identity;
  a_pending_passphrase : string;
  a_encrypted : bool;
  a_screen : Screen;
  a_words : string;               (* the text of the seed phrase screen *)
  a_ack : bool;
  a_unlock_enabled : bool;        (* the passphrase field of the unlock screen *)
  a_notified : gset string;
  a_view : View;
  a_boxes : list box;
  a_signals : list output;
  a_left : list (Thread K N)      (* threads that outlived the wait for their end *)
}.
Arguments App K N : clear implicits.

Section setters.
Context {K N : Type}.
Implicit Types a : App K N.
Definition set_machine x w a : App K N :=
  {| a_desk := x; a_settings := a_settings a; a_directory := a_directory a; a_identity := a_identity a; a_worker := w;
     a_contact := a_contact a; a_pending := a_pending a; a_pending_passphrase := a_pending_passphrase a;
     a_encrypted := a_encrypted a; a_screen := a_screen a; a_words := a_words a; a_ack := a_ack a;
     a_unlock_enabled := a_unlock_enabled a; a_notified := a_notified a; a_view := a_view a; a_boxes := a_boxes a;
     a_signals := a_signals a; a_left := a_left a |}.
Definition set_settings x a : App K N :=
  {| a_desk := a_desk a; a_settings := x; a_directory := a_directory a; a_identity := a_identity a; a_worker := a_worker a;
     a_contact := a_contact a; a_pending := a_pending a; a_pending_passphrase := a_pending_passphrase a;
     a_encrypted := a_encrypted a; a_screen := a_screen a; a_words := a_words a; a_ack := a_ack a;
     a_unlock_enabled := a_unlock_enabled a; a_notified := a_notified a; a_view := a_view a; a_boxes := a_boxes a;
     a_signals := a_signals a; a_left := a_left a |}.
Definition set_identity i a : App K N :=
  {| a_desk := a_desk a; a_settings := a_settings a; a_directory := a_directory a; a_identity := i; a_worker := a_worker a;
     a_contact := a_contact a; a_pending := a_pending a; a_pending_passphrase := a_pending_passphrase a;
     a_encrypted := a_encrypted a; a_screen := a_screen a; a_words := a_words a; a_ack := a_ack a;
     a_unlock_enabled := a_unlock_enabled a; a_notified := a_notified a; a_view := a_view a; a_boxes := a_boxes a;
     a_signals := a_signals a; a_left := a_left a |}.
Definition set_contact c a : App K N :=
  {| a_desk := a_desk a; a_settings := a_settings a; a_directory := a_directory a; a_identity := a_identity a; a_worker := a_worker a;
     a_contact := c; a_pending := a_pending a; a_pending_passphrase := a_pending_passphrase a;
     a_encrypted := a_encrypted a; a_screen := a_screen a; a_words := a_words a; a_ack := a_ack a;
     a_unlock_enabled := a_unlock_enabled a; a_notified := a_notified a; a_view := a_view a; a_boxes := a_boxes a;
     a_signals := a_signals a; a_left := a_left a |}.
Definition set_pending i p a : App K N :=
  {| a_desk := a_desk a; a_settings := a_settings a; a_directory := a_directory a; a_identity := a_identity a; a_worker := a_worker a;
     a_contact := a_contact a; a_pending := i; a_pending_passphrase := p;
     a_encrypted := a_encrypted a; a_screen := a_screen a; a_words := a_words a; a_ack := a_ack a;
     a_unlock_enabled := a_unlock_enabled a; a_notified := a_notified a; a_view := a_view a; a_boxes := a_boxes a;
     a_signals := a_signals a; a_left := a_left a |}.
Definition set_encrypted b a : App K N :=
  {| a_desk := a_desk a; a_settings := a_settings a; a_directory := a_directory a; a_identity := a_identity a; a_worker := a_worker a;
     a_contact := a_contact a; a_pending := a_pending a; a_pending_passphrase := a_pending_passphrase a;
     a_encrypted := b; a_screen := a_screen a; a_words := a_words a; a_ack := a_ack a;
     a_unlock_enabled := a_unlock_enabled a; a_notified := a_notified a; a_view := a_view a; a_boxes := a_boxes a;
     a_signals := a_signals a; a_left := a_left a |}.
Definition set_screen x a : App K N :=
  {| a_desk := a_desk a; a_settings := a_settings a; a_directory := a_directory a; a_identity := a_identity a; a_worker := a_worker a;
     a_contact := a_contact a; a_pending := a_pending a; a_pending_passphrase := a_pending_passphrase a;
     a_encrypted := a_encrypted a; a_screen := x; a_words := a_words a; a_ack := a_ack a;
     a_unlock_enabled := a_unlock_enabled a; a_notified := a_notified a; a_view := a_view a; a_boxes := a_boxes a;
     a_signals := a_signals a; a_left := a_left a |}.
Definition set_seed words ack a : App K N :=
  {| a_desk := a_desk a; a_settings := a_settings a; a_directory := a_directory a; a_identity := a_identity a; a_worker := a_worker a;
     a_contact := a_contact a; a_pending := a_pending a; a_pending_passphrase := a_pending_passphrase a;
     a_encrypted := a_encrypted a; a_screen := a_screen a; a_words := words; a_ack := ack;
     a_unlock_enabled := a_unlock_enabled a; a_notified := a_notified a; a_view := a_view a; a_boxes := a_boxes a;
     a_signals := a_signals a; a_left := a_left a |}.
(** [UnlockScreen.prepare]: the hint, and whether a passphrase can be typed. *)
Definition prepare (encrypted : bool) a : App K N :=
  {| a_desk := a_desk a; a_settings := a_settings a; a_directory := a_directory a; a_identity := a_identity a; a_worker := a_worker a;
     a_contact := a_contact a; a_pending := a_pending a; a_pending_passphrase := a_pending_passphrase a;
     a_encrypted := a_encrypted a; a_screen := a_screen a; a_words := a_words a; a_ack := a_ack a;
     a_unlock_enabled := encrypted; a_notified := a_notified a; a_view := a_view a; a_boxes := a_boxes a;
     a_signals := a_signals a; a_left := a_left a |}.
Definition set_notified x a : App K N :=
  {| a_desk := a_desk a; a_settings := a_settings a; a_directory := a_directory a; a_identity := a_identity a; a_worker := a_worker a;
     a_contact := a_contact a; a_pending := a_pending a; a_pending_passphrase := a_pending_passphrase a;
     a_encrypted := a_encrypted a; a_screen := a_screen a; a_words := a_words a; a_ack := a_ack a;
     a_unlock_enabled := a_unlock_enabled a; a_notified := x; a_view := a_view a; a_boxes := a_boxes a;
     a_signals := a_signals a; a_left := a_left a |}.
Definition set_view (f : View → View) a : App K N :=
  {| a_desk := a_desk a; a_settings := a_settings a; a_directory := a_directory a; a_identity := a_identity a; a_worker := a_worker a;
     a_contact := a_contact a; a_pending := a_pending a; a_pending_passphrase := a_pending_passphrase a;
     a_encrypted := a_encrypted a; a_screen := a_screen a; a_words := a_words a; a_ack := a_ack a;
     a_unlock_enabled := a_unlock_enabled a; a_notified := a_notified a; a_view := f (a_view a); a_boxes := a_boxes a;
     a_signals := a_signals a; a_left := a_left a |}.
Definition add_box b a : App K N :=
  {| a_desk := a_desk a; a_settings := a_settings a; a_directory := a_directory a; a_identity := a_identity a; a_worker := a_worker a;
     a_contact := a_contact a; a_pending := a_pending a; a_pending_passphrase := a_pending_passphrase a;
     a_encrypted := a_encrypted a; a_screen := a_screen a; a_words := a_words a; a_ack := a_ack a;
     a_unlock_enabled := a_unlock_enabled a; a_notified := a_notified a; a_view := a_view a; a_boxes := a_boxes a ++ [b];
     a_signals := a_signals a; a_left := a_left a |}.
Definition set_signals x a : App K N :=
  {| a_desk := a_desk a; a_settings := a_settings a; a_directory := a_directory a; a_identity := a_identity a; a_worker := a_worker a;
     a_contact := a_contact a; a_pending := a_pending a; a_pending_passphrase := a_pending_passphrase a;
     a_encrypted := a_encrypted a; a_screen := a_screen a; a_words := a_words a; a_ack := a_ack a;
     a_unlock_enabled := a_unlock_enabled a; a_notified := a_notified a; a_view := a_view a; a_boxes := a_boxes a;
     a_signals := x; a_left := a_left a |}.
Definition set_left x a : App K N :=
  {| a_desk := a_desk a; a_settings := a_settings a; a_directory := a_directory a; a_identity := a_identity a; a_worker := a_worker a;
     a_contact := a_contact a; a_pending := a_pending a; a_pending_passphrase := a_pending_passphrase a;
     a_encrypted := a_encrypted a; a_screen := a_screen a; a_words := a_words a; a_ack := a_ack a;
     a_unlock_enabled := a_unlock_enabled a; a_notified := a_notified a; a_view := a_view a; a_boxes := a_boxes a;
     a_signals := a_signals a; a_left := x |}.
End setters.


(** ** Calls of the machine and of the client *)

(** [os.path.basename] *)
Definition basename (path : string) : string := to_str (List.last (split_b "/" [] (bs path)) []).
Definition occurs (needle hay : bytes) : bool :=
  existsb (λ i, prefix_b needle (drop i hay)) (seq 0 (S (length hay))).
Fixpoint each {St A B} (f : A → SE St B) (l : list A) : SE St (list B) :=
  match l with [] => se_ret [] | x :: l => do! y := f x in do! ys := each f l in se_ret (y :: ys) end.
(** [try: m; k  except P: h], with [k] outside the [try]. *)
Definition try_else {St A} (P : exn → bool) (m : SE St A) (h : exn → SE St unit) (k : A → SE St unit) : SE St unit := λ s,
  match m s with
  | (Ok x, s') => k x s'
  | (Err e, s') => if P e then h e s' else (Err e, s')
  end.

Section running.
Context {C : Crypto} {Zl : Zlib} {K N : Type} {R : Keyring K} {P : Pool N} {T : Transport.Net N}.

Definition on_client {A} (m : SE (Client N) A) : SE (Running K N) A := λ r,
  let '(x, c) := m (r_client r) in
  (x, {| r_client := c; r_transport := r_transport r; r_path := r_path r; r_desk := r_desk r |}).
(** The machine as its files are now, with the client's store on disk. *)
Definition checkpoint (r : Running K N) : Desk K N :=
  let c := r_client r in
  set_outside (cl_net c) (cl_env c) (set_databases (<[r_path r := cl_store c]> (databases (r_desk r))) (r_desk r)).
(** A store as the connection of a client sees it. *)
Definition seen_by (c : Client N) (d : Desk K N) (path : string) : Client N :=
  let st := match databases d !! path with Some st => rekey (store_key (cl_store c)) st | None => cl_store c end in
  set_store st (set_net (d_net d) (set_env (d_env d) c)).
Definition on_desk (d : Desk K N) (r : Running K N) : Running K N :=
  {| r_client := seen_by (r_client r) d (r_path r); r_transport := r_transport r; r_path := r_path r; r_desk := d |}.
Definition on_machine {A} (m : SE (Desk K N) A) : SE (Running K N) A := λ r,
  let '(x, d) := m (checkpoint r) in (x, on_desk d r).

(** What the worker polls. *)
#[export] Instance running_polled : Worker.Polled (Running K N) message := {|
  Worker.p_sync := on_client (sync 1);
  Worker.p_flush := do! _ := on_client flush_outbox in se_ret tt;
  Worker.p_relay_urls := on_client relay_urls;
  Worker.p_refresh :=
    do! v := on_machine (getenv "NK_ALLOW_PRIVATE_RELAYS") in
    do! r := se_get in
    on_client (refresh_relays (r_transport r) (is_set v))
|}.

(** ** Tasks of the worker *)

Definition command (name : string) (m : SE (Running K N) result) : Task K N :=
  {| Worker.t_name := name; Worker.t_function := m; Worker.t_callback := None |}.
Definition reporting (name : string) (m : SE (Running K N) result) (s : option result → signal) : Task K N :=
  {| Worker.t_name := name; Worker.t_function := m; Worker.t_callback := Some (λ r, Ok [s r]) |}.
Definition provision_task : Task K N := command "provision" (do! _ := on_client provision in se_ret Done).
Definition send_text_task (contact text : string) : Task K N :=
  command "send_text" (do! id := on_client (send_text contact text) in se_ret (Text id)).
Definition send_file_task (mime_of : string → string) (contact path : string) : Task K N :=
  command "send_file"
    (do! data := on_machine (read_file path) in
     do! id := on_client (send_file contact data (basename path) (mime_of path) "") in se_ret (Text id)).
Definition mark_read_task (contact message_id : string) : Task K N :=
  command "mark_read" (do! _ := on_client (mark_read contact message_id) in se_ret Done).
Definition download_task (m : message) (name : bytes) : Task K N :=
  reporting "download_attachment" (do! data := on_client (download_attachment (m_body m)) in se_ret (Data data))
    (attachment_ready name).
Definition request_task (since : option Z) : Task K N :=
  reporting "request_history" (do! l := on_client (client_request_history since) in se_ret (Asked l)) history_done.
Definition approve_task (device : string) (since : option Z) : Task K N :=
  reporting "approve_history"
    (do! (_, _, (items, skipped)) := on_client (approve_history device since) in se_ret (Approved items skipped))
    history_done.

(** [history.export_history(client, …)] and [import_history]: what they draw. *)
Definition client_export (passphrase : string) (since_ms : option Z) : SE (Client N) bytes :=
  do! c := se_get in
  do! now := now_ms in
  do! created := now_ms in
  do! salt := urandom 16 in
  do! nonce := urandom 12 in
  on_store (History.export_history (me c) (default ""%string (cl_device c)) now created salt nonce passphrase
              since_ms None History.DEFAULT_BUDGET_BYTES true).
(** Each merged message draws at most forty bytes, and a file has no more messages than bytes. *)
Definition client_import (data : bytes) (passphrase : string) : SE (Client N) History.counts :=
  do! c := se_get in
  do! now := now_ms in
  do! drawn := urandom (40 * length data) in
  let draws i := let b := drop (40 * i) drawn in
    {| History.d_id := Attachments.hex (take 16 b); History.d_n1 := take 12 (drop 16 b); History.d_n2 := take 12 (drop 28 b) |} in
  on_store (History.import_history (me c) now draws data passphrase).
Definition _export_history_to (path passphrase : string) (since_ms : option Z) : SE (Running K N) result :=
  do! data := on_client (client_export passphrase since_ms) in
  do! _ := on_machine (create_file path) in
  do! _ := on_machine (write_file path data) in
  do! header := se_lift (History.read_export_header data) in
  do! counts := se_lift (jitem "counts" header) in
  se_ret (Exported path (blen data) counts).
Definition _import_history_from (path passphrase : string) : SE (Running K N) result :=
  do! data := on_machine (read_file path) in
  do! n := on_client (client_import data passphrase) in se_ret (Imported n).
End running.

Section app.
Context {C : Crypto} {Zl : Zlib} {B : Bip39} {K N : Type} {R : Keyring K} {P : Pool N} {T : Transport.Net N}.
Variable words_of : bytes → string.     (* entropy to mnemonic *)
Variable mime_of : string → string.
Variable text_of : exn → string.        (* str(exc) *)

Abbreviation H := (SE (App K N)).
Definition upd (f : App K N → App K N) : H unit := se_modify f.
Definition show (b : box) : H unit := upd (add_box b).
Definition set_status (s : string) : H unit := upd (set_view (view_set_status s)).
Definition goto_screen (x : Screen) : H unit := upd (set_screen x).
(** The machine as it is now, and as the running client, if any, sees it. *)
Definition machine_of (a : App K N) : Desk K N :=
  match a_worker a with None => a_desk a | Some w => checkpoint (Worker.w_client w) end.
Definition with_machine (d : Desk K N) (a : App K N) : App K N :=
  match a_worker a with
  | None => set_machine d None a
  | Some w => set_machine (a_desk a) (Some (Worker.set_client (on_desk d (Worker.w_client w)) w)) a
  end.
(** The machine, whoever uses it. *)
Definition desk {A} (m : SE (Desk K N) A) : H A := λ a,
  match a_worker a with
  | None => let '(x, d) := m (a_desk a) in (x, set_machine d None a)
  | Some w => let '(x, r) := on_machine m (Worker.w_client w) in
              (x, set_machine (a_desk a) (Some (Worker.set_client r w)) a)
  end.
(** [self.client.m(…)] *)
Definition client {A} (m : SE (Client N) A) : H A := λ a,
  match a_worker a with
  | None => (Err AttributeError, a)
  | Some w => let '(x, r) := on_client m (Worker.w_client w) in
              (x, set_machine (a_desk a) (Some (Worker.set_client r w)) a)
  end.
(** [if self.client is None: return] *)
Definition when_client (m : H unit) : H unit :=
  do! a := se_get in match a_worker a with None => se_ret tt | Some _ => m end.
(** [self.worker.submit(…)] *)
Definition queued (t : Task K N) (w : Thread K N) : Thread K N :=
  match Worker.run [Worker.Put t; Worker.SetWake] w with Some (w, _) => w | None => w end.
Definition submit (t : Task K N) : H unit := upd (λ a, set_machine (a_desk a) (queued t <$> a_worker a) a).
Definition identity_file (a : App K N) : string := identity_path (a_directory a) "identity".

(** ** What the main screen shows *)

Definition contacts_data : H (list contact) :=
  do! a := se_get in match a_worker a with None => se_ret [] | Some _ => client client_contacts end.
Fixpoint index_of (id : string) (l : list contact) : option nat :=
  match l with [] => None | k :: l => if String.eqb (c_id k) id then Some O else S <$> index_of id l end.
Definition header_text (contact : option contact) (id : string) : res string :=
  match jor (match contact with Some k => c_nickname k | None => JNull end) (JStr (take_chars 12 id)) with
  | JStr s => Ok s
  | _ => Err TypeError
  end.
(** The contact selected; the empty identity is none. *)
Definition selected (a : App K N) : option string :=
  match a_contact a with Some id => if String.eqb id "" then None else Some id | None => None end.
Definition _render_chat : H unit :=
  do! a := se_get in
  match a_worker a, selected a with
  | Some _, Some id =>
      do! contact := client (do! c := se_get in on_store (get_contact (me c) id)) in
      do! header := se_lift (header_text contact id) in
      do! _ := upd (set_view (view_set_header header id)) in
      do! ms := client (client_messages id) in
      do! (html, attachments) := se_lift (render_chat ms) in
      upd (set_view (view_set_chat html attachments))
  | _, _ => upd (set_view (λ v, view_set_chat [] [] (view_set_header no_contact "" v)))
  end.
Definition with_unread (k : contact) : SE (Client N) (contact * nat) :=
  do! ms := client_messages (c_id k) in se_ret (k, unread ms).
Definition refresh : H unit :=
  when_client
    (do! l := contacts_data in
     do! rows := client (each with_unread l) in
     do! _ := upd (λ a, set_view (view_set_contacts (contact_rows rows)
                (match selected a with Some id => index_of id l | None => None end)) a) in
     _render_chat).
(** A negative row is no row. *)
Definition select_contact (row : Z) : H unit :=
  do! l := contacts_data in
  match (if row <? 0 then None else l !! Z.to_nat row) with
  | None => upd (set_contact None)
  | Some k =>
      do! _ := upd (set_contact (Some (c_id k))) in
      do! _ := refresh in
      when_client
        (do! ms := client (client_messages (c_id k)) in
         do! _ := each (λ m, submit (mark_read_task (c_id k) (m_id m))) (List.filter is_unread ms) in
         se_ret tt)
  end.

(** ** The client's life *)

(** What a thread gets done in three seconds: how many steps, and the clock at each. *)
Record Wait := { readings : nat → Z; within : nat }.
(** The thread goes on alone for [n] steps, or until it is over. *)
Fixpoint finish (clk : nat → Z) (n : nat) (w : Thread K N) : Thread K N * list output :=
  match n with
  | O => (w, [])
  | S n => match Worker.work (clk O) w with
           | None => (w, [])
           | Some (w, out) => let '(w, more) := finish (λ i, clk (S i)) n w in (w, out ++ more)
           end
  end.
Definition stopped (w : Thread K N) : Thread K N :=
  match Worker.run [Worker.SetStop; Worker.SetWake] w with Some (w, _) => w | None => w end.
(** [stop()] and [wait(3000)] *)
Definition halt (wt : Wait) (w : Thread K N) : Thread K N * list output :=
  finish (readings wt) (within wt) (stopped w).
Definition is_over (w : Thread K N) : bool :=
  match Worker.w_at w with Worker.Finished | Worker.Dead _ => true | _ => false end.
(** The thread, when it is not over. *)
Definition overdue (w : Thread K N) : list (Thread K N) := if is_over w then [] else [w].
Definition leave (w : Thread K N) : H unit := upd (λ a, set_left (a_left a ++ overdue w) a).
(** A discovery is no signal. *)
Definition signals (out : list output) : list output :=
  List.filter (λ o, match o with Worker.discovery_started _ => false | _ => true end) out.
Definition post (out : list output) : H unit := upd (λ a, set_signals (a_signals a ++ signals out) a).

Definition _start_worker (wt : Wait) (c : Client N) (t : Transport.Transport) : H unit :=
  do! a := se_get in
  let running c d := {| r_client := c; r_transport := t; r_path := store_path (a_directory a); r_desk := d |} in
  do! r := match a_worker a with
           | None => se_ret (running c (a_desk a))
           | Some w =>
               let '(w, out) := halt wt w in
               do! _ := post out in
               do! _ := leave w in
               let d := checkpoint (Worker.w_client w) in
               se_ret (running (seen_by c d (store_path (a_directory a))) d)
           end in
  let s := a_settings a in
  do! w := se_lift (Worker.new_worker r (poll_seconds s) (auto_discover s) (discovery_interval s)) in
  upd (set_machine (a_desk a) (Some (queued provision_task w))).
Definition _start_client (wt : Wait) (identity : Identity.Identity) : H unit :=
  do! _ := upd (set_identity (Some identity)) in
  do! a := se_get in
  do! encrypted := desk (identity_is_encrypted (identity_file a)) in
  do! _ := upd (set_encrypted encrypted) in
  do! _ := upd (set_view (view_set_identity (Identity.identity_id identity))) in
  let s := named (jor (Identity.label identity) (JStr "")) (a_settings a) in
  do! _ := upd (set_settings s) in
  do! _ := desk (save s (a_directory a)) in
  try_else isa_Exception (desk (build_client identity s (a_directory a)))
    (λ e, do! _ := show (Critical "Startup" e) in goto_screen WelcomeScreen)
    (λ '(c, t),
      do! _ := _start_worker wt c t in
      do! _ := goto_screen MainScreen in
      refresh).
Definition _restart_worker (wt : Wait) : H unit :=
  do! a := se_get in
  match a_worker a, a_identity a with
  | None, _ => se_ret tt
  | Some _, None => se_raise AttributeError
  | Some _, Some identity =>
      try_else isa_Exception (desk (build_client identity (a_settings a) (a_directory a)))
        (λ e, show (Critical "Settings" e))
        (λ '(c, t), _start_worker wt c t)
  end.
Definition _teardown_client (wt : Wait) : H unit :=
  do! a := se_get in
  do! _ := match a_worker a with
           | None => se_ret tt
           | Some w =>
               let '(w, out) := halt wt w in
               do! _ := post out in
               do! _ := leave w in
               upd (set_machine (checkpoint (Worker.w_client w)) None)
           end in
  do! _ := upd (set_identity None) in
  do! _ := upd (set_contact None) in
  upd (set_view (λ _, reset)).
Definition lock (wt : Wait) : H unit :=
  when_client
    (do! _ := _teardown_client wt in
     do! _ := upd (λ a, prepare (a_encrypted a) a) in
     goto_screen UnlockScreen).
Definition switch_identity (wt : Wait) (yes : bool) : H unit :=
  if yes then
    do! _ := _teardown_client wt in
    do! _ := upd (set_pending None "") in
    goto_screen WelcomeScreen
  else se_ret tt.
Definition closeEvent (wt : Wait) : H unit := _teardown_client wt.

(** ** Onboarding *)

(** Whether the [IdentityError] of loading [data] without a passphrase names one. *)
Definition asks_passphrase (data : bytes) : bool :=
  match (let? t := decode_utf8 data in json_loads t) with
  | Ok (JObj d) =>
      let v := default JNull (dget "v" d) in
      if eq_int v Identity.VAULT_VERSION then truthy (default JNull (dget "encrypted" d))
      else occurs (bs "passphrase") (ascii_lower (bs (to_pystr v)))
  | _ => false
  end.
Definition _bootstrap (wt : Wait) : H unit :=
  do! a := se_get in
  let path := identity_file a in
  do! there := desk (path_exists path) in
  if negb there then goto_screen WelcomeScreen else
  try_else (isa IdentityError) (desk (load_identity path ""))
    (λ e,
      if asks_passphrase (default [] (files (a_desk a) !! path)) then
        do! encrypted := desk (identity_is_encrypted path) in
        do! _ := upd (prepare encrypted) in
        goto_screen UnlockScreen
      else
        do! _ := show (Critical "Identity" e) in goto_screen WelcomeScreen)
    (_start_client wt).
(** [CreateIdentityScreen._submit] and [App._on_create] *)
Definition _on_create (name passphrase : string) : H unit :=
  let name := if String.eqb name "" then "me"%string else name in
  do! (identity, mnemonic) := desk (generate_identity words_of (JStr name) passphrase) in
  do! _ := upd (set_pending (Some identity) passphrase) in
  do! _ := upd (set_seed mnemonic false) in
  goto_screen SeedphraseScreen.
Definition _submit (name passphrase confirm : string) : H unit :=
  if String.eqb passphrase confirm then _on_create (py_strip name) passphrase
  else show (Warning "Passphrase" None).
Definition _on_seed_confirmed (wt : Wait) : H unit :=
  do! a := se_get in
  match a_pending a with
  | None => se_ret tt
  | Some identity =>
      do! _ := desk (save_identity identity (identity_file a) (a_pending_passphrase a)) in
      _start_client wt identity
  end.
Definition or_name (name d : string) : json := JStr (if String.eqb name "" then d else name).
Definition _on_recover (wt : Wait) (mnemonic name passphrase : string) : H unit :=
  do! a := se_get in
  try_else (isa IdentityError) (se_lift (Identity.from_mnemonic (py_strip mnemonic) passphrase (or_name (py_strip name) "recovered")))
    (λ e, show (Warning "Recover" (Some e)))
    (λ identity,
      do! _ := desk (save_identity identity (identity_file a) passphrase) in
      _start_client wt identity).
Definition _on_unlock (wt : Wait) (passphrase : string) : H unit :=
  do! a := se_get in
  try_else (isa IdentityError) (desk (load_identity (identity_file a) passphrase))
    (λ e, show (Warning "Unlock" (Some e)))
    (_start_client wt).

(** ** Actions *)

(** An action that shows the exception of its call in a box. *)
Definition boxed {A} (title : string) (m : H A) (k : A → H unit) : H unit :=
  try_else isa_Exception m (λ e, show (Warning title (Some e))) k.
Definition show_my_card : H unit := when_client (boxed "Card" (client card_string) (λ card, show (CardShown card))).
Definition show_devices : H unit :=
  when_client (boxed "Devices" (client devices) (λ l,
    do! current := client (do! c := se_get in se_ret (device_id c)) in
    do! size := client (on_store local_blob_bytes) in
    do! chunks := client (on_store local_blob_count) in
    do! status := client sync_status in
    do! requests := client history_requests in
    do! lines := se_lift (mapM (device_line current status) l) in
    do! asks := client (each (λ r, do! now := now_ms in se_lift (request_line now r)) requests) in
    show (DevicesShown lines asks chunks size))).
Definition asked_since (choice : option string) : H range :=
  do! now := client now_ms in se_lift (ask_range now choice).
Definition request_history_from_devices (choice : option string) : H unit :=
  when_client
    (do! since := asked_since choice in
     match since with
     | Cancelled => se_ret tt
     | Since ms => do! _ := set_status "asking your other devices…" in submit (request_task ms)
     end).
(** The window a request names; the list of devices could not show other values. *)
Definition request_window (since : json) : res (option Z) :=
  match since with JNull => Ok None | JInt n => Ok (Some n) | _ => Err Unmodelled end.
Definition approve_history_request (device : string) (since : json) : H unit :=
  when_client
    (do! since := se_lift (request_window since) in
     do! _ := set_status "sending history…" in submit (approve_task device since)).
Definition deny_history_request (device : string) : H unit :=
  when_client (do! _ := client (deny_history device) in set_status "request denied").
Definition _note_pending_requests : H unit :=
  when_client (λ a,
    match client history_requests a with
    | (Err e, a) => (if isa_Exception e then Ok tt else Err e, a)
    | (Ok [], a) => (Ok tt, set_notified ∅ a)
    | (Ok pending, a) =>
        let fresh := List.filter (λ r, negb (bool_decide (rq_device r ∈ a_notified a))) pending in
        match fresh with
        | [] => (Ok tt, a)
        | _ =>
            let a := set_notified (a_notified a ∪ list_to_set (map rq_device fresh)) a in
            let names := joined ", " (map (λ r, or_text (rq_name r) (take_chars 8 (rq_device r))) fresh) in
            set_status (names +:+ " is asking for your history — open Devices") a
        end
    end).
Definition _after_sync : H unit := do! _ := refresh in _note_pending_requests.

(** The answers of the dialogs, in order. *)
Definition export_history (choice passphrase : option string) (path : string) : H unit :=
  when_client
    (do! since := asked_since choice in
     match since, default ""%string passphrase with
     | Cancelled, _ | Since _, EmptyString => se_ret tt
     | Since ms, passphrase =>
         if String.eqb path "" then se_ret tt else
         do! _ := set_status "exporting history…" in
         submit (reporting "export_history" (_export_history_to path passphrase ms) history_done)
     end).
Definition count_keys : list string := ["messages"; "contacts"; "chunks"; "skipped"]%string.
Definition import_history (path : string) (yes : bool) (passphrase : option string) : H unit :=
  when_client
    (if String.eqb path "" then se_ret tt else
     boxed "Import history" (do! data := desk (read_file path) in se_lift (History.read_export_header data)) (λ preview,
       do! counts := se_lift (jitem "counts" preview) in
       do! _ := se_lift (mapM (λ k, jitem k counts) count_keys) in
       if negb yes then se_ret tt else
       match default ""%string passphrase with
       | EmptyString => se_ret tt
       | passphrase =>
           do! _ := set_status "importing history…" in
           submit (reporting "import_history" (_import_history_from path passphrase) history_done)
       end)).
(** The result says which kind it is. *)
Definition _history_finished (r : option result) : H unit :=
  match r with
  | None => set_status "offline"
  | Some (Asked []) => set_status "no other device could be asked"
  | Some (Asked l) =>
      do! _ := set_status ("asked " +:+ int_str (Z.of_nat (length l)) +:+ " device(s) — approve the request there") in
      show (Information "History requested")
  | Some (Approved items _) =>
      do! _ := set_status ("sent " +:+ int_str items +:+ " item(s)") in
      do! _ := show (Information "History approved") in
      refresh
  | Some (Exported path _ counts) =>
      do! _ := set_status ("exported to " +:+ basename path) in
      do! _ := se_lift (mapM (λ k, jitem k counts) ["messages"; "chunks"]%string) in
      show (Information "Export history")
  | Some (Imported n) =>
      do! _ := set_status ("imported " +:+ int_str (History.n_messages n) +:+ " message(s)") in
      do! _ := show (Information "Import history") in
      refresh
  | _ => se_ret tt
  end.
Definition copy_identity_id : H unit :=
  do! a := se_get in
  match a_identity a with None => se_ret tt | Some _ => set_status "ID copied to clipboard" end.
(** The dialog's fields, [None] when it is cancelled. *)
Definition or_none (s : string) : json := if String.eqb s "" then JNull else JStr s.
Definition add_contact_clicked (values : option (string * string)) : H unit :=
  when_client
    match values with
    | None => se_ret tt
    | Some (card, nickname) =>
        let '(card, nickname) := add_contact_values card nickname in
        boxed "Add contact" (client (add_contact card (or_none nickname))) (λ _, refresh)
    end.
(** [edit]: what the user makes of the dialog, or cancels it. *)
Definition open_settings (wt : Wait) (edit : SettingsDialog → option SettingsDialog) : H unit :=
  do! a := se_get in
  do! dialog := se_lift (open_dialog (a_settings a)) in
  match edit dialog with
  | None => se_ret tt
  | Some dialog =>
      let s := apply_to dialog (a_settings a) in
      do! _ := upd (set_settings s) in
      do! _ := desk (save s (a_directory a)) in
      do! _ := _restart_worker wt in
      refresh
  end.
Definition send_text_clicked : H unit :=
  do! a := se_get in
  let text := py_strip (v_input (a_view a)) in
  match selected a, a_worker a with
  | Some contact, Some _ =>
      if String.eqb text "" then se_ret tt else
      do! _ := upd (set_view (view_set_input "")) in
      do! _ := submit (send_text_task contact text) in
      refresh
  | _, _ => se_ret tt
  end.
Definition send_file_clicked (path : string) : H unit :=
  do! a := se_get in
  match selected a, a_worker a with
  | Some contact, Some _ =>
      if String.eqb path "" then se_ret tt else
      do! _ := submit (send_file_task mime_of contact path) in
      refresh
  | _, _ => se_ret tt
  end.
(** [item]: the row of the list of attachments that is current. *)
Definition download_selected (item : option nat) : H unit :=
  do! a := se_get in
  match item ≫= (v_attachments (a_view a) !!.), a_worker a with
  | Some (m, name), Some _ => submit (download_task m name)
  | _, _ => se_ret tt
  end.
Definition _save_attachment (r : option result) (path : string) : H unit :=
  match r with
  | Some (Data (_ :: _ as data)) =>
      if String.eqb path "" then se_ret tt else
      do! _ := desk (create_file path) in
      do! _ := desk (write_file path data) in
      show (Information "Saved")
  | _ => se_ret tt
  end.

(** ** Signals of the worker *)

Definition _on_relays_changed (l : list string) : H unit :=
  do! a := se_get in
  let j := JList (map JStr l) in
  if match l with [] => true | _ => false end || json_eqb j (relays (a_settings a)) then se_ret tt else
  let s := with_relays j (a_settings a) in
  do! _ := upd (set_settings s) in
  do! _ := desk (save s (a_directory a)) in
  set_status ("online · " +:+ int_str (Z.of_nat (length l)) +:+ " relays").
(** [path]: the answer of the file dialog that some signals open. *)
Definition handle (path : string) (o : output) : H unit :=
  match o with
  | Worker.messages_received _ => refresh
  | Worker.status_changed s => set_status s
  | Worker.error_occurred e => set_status ("offline: " +:+ take_chars 60 (text_of e))
  | Worker.task_finished _ _ => _after_sync
  | Worker.relays_changed l => _on_relays_changed l
  | Worker.window_signal (history_done r) => _history_finished r
  | Worker.window_signal (attachment_ready _ r) => _save_attachment r path
  | Worker.discovery_started _ => se_ret tt
  end.
Definition deliver (path : string) : H unit :=
  do! a := se_get in
  match a_signals a with
  | [] => se_ret tt
  | o :: rest => do! _ := upd (set_signals rest) in handle path o
  end.

(** ** The application *)

Inductive event :=
| GoCreate | GoRecover | Back
| SubmitIdentity (name passphrase confirm : string) | Acknowledge (b : bool) | Continue
| Recover (mnemonic name passphrase : string)
| Unlock (passphrase : string) | Switch (yes : bool)
| Lock | MyCard | ShowDevices | RequestHistory (choice : option string) | Approve (device : string) (since : json)
| Deny (device : string) | Export (choice passphrase : option string) (path : string)
| Import (path : string) (yes : bool) (passphrase : option string) | CopyId | AddContact (values : option (string * string))
| OpenSettings (edit : SettingsDialog → option SettingsDialog) | Select (row : Z) | Type_ (text : string) | SendText
| SendFile (path : string) | Download (item : option nat)
| Deliver (path : string)     (* the window handles the next signal *)
| Thread_ (now : Z)           (* the worker's thread takes a step *)
| Straggle (i : nat) (now : Z)   (* a thread left behind does *)
| Expire.                     (* its wait for the next poll is over *)

(** The screen whose button or field gives the event. *)
Definition enabled (ev : event) (a : App K N) : bool :=
  match ev, a_screen a with
  | (GoCreate | GoRecover), WelcomeScreen | Back, (CreateIdentityScreen | RecoverScreen)
  | SubmitIdentity _ _ _, CreateIdentityScreen | Acknowledge _, SeedphraseScreen | Recover _ _ _, RecoverScreen
  | Switch _, UnlockScreen => true
  | Unlock p, UnlockScreen => a_unlock_enabled a || String.eqb p ""
  | Continue, SeedphraseScreen => a_ack a
  | (MyCard | ShowDevices | RequestHistory _ | Approve _ _ | Deny _ | Export _ _ _ | Import _ _ _ | CopyId | AddContact _
    | OpenSettings _ | Select _ | Type_ _ | SendText | SendFile _ | Download _), MainScreen => true
  | (Lock | Deliver _ | Thread_ _ | Straggle _ _ | Expire), _ => true
  | _, _ => false
  end.
Definition thread (ev : Worker.event (Running K N) result signal) : H unit := λ a,
  match a_worker a ≫= Worker.step ev with
  | None => (Ok tt, a)
  | Some (w, out) => post out (set_machine (a_desk a) (Some w) a)
  end.
(** A thread left behind takes a step, on the machine as it is now; its signals still reach
    the window. *)
Definition straggle (i : nat) (now : Z) : H unit := λ a,
  match a_left a !! i with
  | None => (Ok tt, a)
  | Some w =>
      match Worker.work now (Worker.set_client (on_desk (machine_of a) (Worker.w_client w)) w) with
      | None => (Ok tt, a)
      | Some (w, out) =>
          post out (set_left (<[i := w]> (a_left a)) (with_machine (checkpoint (Worker.w_client w)) a))
      end
  end.
Definition handler (wt : Wait) (ev : event) : H unit :=
  match ev with
  | GoCreate => goto_screen CreateIdentityScreen
  | GoRecover => goto_screen RecoverScreen
  | Back => goto_screen WelcomeScreen
  | SubmitIdentity n p c => _submit n p c
  | Acknowledge b => upd (λ a, set_seed (a_words a) b a)
  | Continue => _on_seed_confirmed wt
  | Recover m n p => _on_recover wt m n p
  | Unlock p => _on_unlock wt p
  | Switch yes => switch_identity wt yes
  | Lock => lock wt
  | MyCard => show_my_card
  | ShowDevices => show_devices
  | RequestHistory c => request_history_from_devices c
  | Approve d s => approve_history_request d s
  | Deny d => deny_history_request d
  | Export c p f => export_history c p f
  | Import f y p => import_history f y p
  | CopyId => copy_identity_id
  | AddContact v => add_contact_clicked v
  | OpenSettings e => open_settings wt e
  | Select r => select_contact r
  | Type_ t => upd (set_view (view_set_input t))
  | SendText => send_text_clicked
  | SendFile f => send_file_clicked f
  | Download i => download_selected i
  | Deliver f => deliver f
  | Thread_ now => thread (Worker.Work now)
  | Straggle i now => straggle i now
  | Expire => thread Worker.Timeout
  end.
(** [App.__init__] up to [_bootstrap], on machine [d]. *)
Definition fresh_app (d : Desk K N) (s : GuiSettings) (directory : string) : App K N :=
  {| a_desk := d; a_settings := s; a_directory := directory; a_identity := None; a_worker := None; a_contact := None;
     a_pending := None; a_pending_passphrase := ""; a_encrypted := false; a_screen := WelcomeScreen; a_words := "";
     a_ack := false; a_unlock_enabled := true; a_notified := ∅; a_view := view_set_status "starting…" reset; a_boxes := [];
     a_signals := []; a_left := [] |}.
Definition new_app (wt : Wait) (d : Desk K N) : res (App K N) :=
  let '(r, d) := (do! s := load "" in do! dir := data_dir in se_ret (s, dir)) d in
  let? (s, dir) := r in
  let '(r, a) := _bootstrap wt (fresh_app d s dir) in
  let? _ := r in Ok a.
Definition step (wt : Wait) (ev : event) (a : App K N) : res (App K N) :=
  if enabled ev a then let '(r, a) := handler wt ev a in let? _ := r in Ok a else Ok a.
(** Several events, each with the steps of the thread it may end. *)
Fixpoint steps (evs : list (Wait * event)) (a : App K N) : res (App K N) :=
  match evs with [] => Ok a | (wt, ev) :: evs => let? a := step wt ev a in steps evs a end.
(** The states of a program that has not crashed. *)
Inductive reachable (d : Desk K N) : App K N → Prop :=
| reachable_new wt a : new_app wt d = Ok a → reachable d a
| reachable_step wt ev a a' : reachable d a → step wt ev a = Ok a' → reachable d a'.
End app.
