(* ===== verification/DesktopProps.v ===== *)
(** * What the desktop application guarantees ([gui/app.py])

    [Inv] is the invariant of the running window; [live] and [idle] say what a handler
    leaves alone while a client runs and while none does.  The theorems: the window and
    the worker agree and a window without a client shows nothing of the account; locking
    ends the session in the window and keeps the database, and says what is left of the
    thread; unlocking brings the session back; a typed text is sent; and whatever is clicked
    and whatever arrives, the client stays the account's. *)

From S2P Require Import Prelude PyStr Json JsonProps Primitives Dict Encoding RelayUrls Sql Store StoreProps ClientState Sync Client ClientProps ClientRuns LocalFiles ClientRelays Settings Views Desktop.
From S2P Require Identity Card Transport History Worker Devices.

(** ** Clients *)

Section clients.
Context {C : Crypto} {L : CryptoLaws C} {Zl : Zlib} {N : Type} {P : Pool N} {T : Transport.Net N}.
Abbreviation ok := (keeps (@client_ok C N)).

Lemma keeps_each {St A B'} (Rel : St → St → Prop) `{!PreOrder Rel} (f : A → SE St B') l :
  (∀ x, keeps Rel (f x)) → keeps Rel (each f l).
Proof using. intros Hf. induction l as [|x l IH]; cbn [each]; keeping. Qed.

Lemma flush_keeps : ok flush_outbox. Proof using L. unfold flush_outbox. pose proof flush_entries_ok. keeping. Qed.
Lemma request_keeps s : ok (client_request_history s). Proof using L. unfold client_request_history, provisioned. keeping. Qed.
Lemma requests_keeps : ok history_requests. Proof using L. unfold history_requests, provisioned. keeping. Qed.
Lemma approve_keeps d s : ok (approve_history d s). Proof using L. unfold approve_history, provisioned. keeping. Qed.
Lemma deny_keeps d : ok (deny_history d). Proof using L. unfold deny_history, provisioned. keeping. Qed.
Lemma status_keeps : ok sync_status. Proof using L. unfold sync_status, provisioned. keeping. Qed.
Lemma add_contact_keeps s n : ok (add_contact s n). Proof using L. unfold add_contact. keeping. Qed.
End clients.
#[export] Hint Resolve provision_ok send_text_ok send_file_ok sync_ok mark_read_ok download_attachment_ok apply_relays_ok
  flush_keeps request_keeps requests_keeps approve_keeps deny_keeps status_keeps add_contact_keeps : keeps.

Section more_clients.
Context {C : Crypto} {L : CryptoLaws C} {Zl : Zlib} {N : Type} {P : Pool N} {T : Transport.Net N}.
Abbreviation ok := (keeps (@client_ok C N)).
Lemma contacts_keeps : ok client_contacts. Proof using. unfold client_contacts. keeping. Qed.
Lemma messages_keeps k : ok (client_messages k).
Proof using.
  assert (∀ id, keeps sound (list_messages id k)) by (intros id; unfold list_messages; keeping).
  unfold client_messages. keeping.
Qed.
Lemma blob_bytes_sound : keeps sound local_blob_bytes. Proof using. unfold local_blob_bytes. keeping. Qed.
Lemma blob_count_sound : keeps sound local_blob_count. Proof using. unfold local_blob_count. keeping. Qed.
Lemma with_unread_keeps k : ok (with_unread k).
Proof using. unfold with_unread. pose proof messages_keeps. keeping. Qed.
Lemma relay_urls_keeps : ok relay_urls. Proof using. unfold relay_urls. keeping. Qed.
Lemma refresh_relays_keeps t b : ok (refresh_relays t b).
Proof using L. unfold refresh_relays, discover_relays. pose proof relay_urls_keeps. keeping. Qed.
Lemma card_keeps : ok card_string. Proof using L. unfold card_string, get_card. keeping. Qed.
Lemma devices_keeps : ok devices. Proof using L. unfold devices. keeping. Qed.
Lemma export_keeps p s : ok (client_export p s).
Proof using.
  assert (∀ i v n1 n2 sa no, keeps sound (History.export_history i v n1 n2 sa no p s None History.DEFAULT_BUDGET_BYTES true))
    by (intros; unfold History.export_history; keeping).
  unfold client_export. keeping.
Qed.
Lemma import_keeps d p : ok (client_import d p).
Proof using.
  assert (∀ i n w, keeps sound (History.import_history i n w d p))
    by (intros; unfold History.import_history, History.merge_bundle; keeping).
  unfold client_import. keeping.
Qed.
End more_clients.
#[export] Hint Resolve contacts_keeps messages_keeps with_unread_keeps relay_urls_keeps refresh_relays_keeps card_keeps
  devices_keeps blob_bytes_sound blob_count_sound export_keeps import_keeps keeps_each : keeps.


(** ** The machine *)

Definition same_databases {K N} (d d' : Desk K N) : Prop := databases d' = databases d.
#[export] Instance same_databases_preorder {K N} : PreOrder (@same_databases K N).
Proof. split; unfold same_databases; [done|]. by intros x y z -> ->. Qed.

Section machines.
Context {C : Crypto} {K N : Type} {R : Keyring K}.
Abbreviation still := (keeps (@same_databases K N)).
Lemma getenv_still n : still (getenv n). Proof using. by intros d. Qed.
Lemma exists_still p : still (path_exists p). Proof using. by intros d. Qed.
Lemma urandom_still n : still (os_urandom n). Proof using. by intros d. Qed.
Lemma now_still : still now_s. Proof using. by intros d. Qed.
Lemma ring_still {A} (m : SE K A) : still (on_ring m). Proof using. intros d. unfold on_ring. by destruct (m (ring d)). Qed.
Lemma makedirs_still p : still (makedirs p). Proof using. unfold makedirs. keeping. Qed.
Lemma read_still p : still (read_file p). Proof using. unfold read_file. keeping. Qed.
Lemma create_still p : still (create_file p).
Proof using. intros d. unfold create_file, se_bind, se_get, se_check. by case_bool_decide. Qed.
Lemma write_still p b : still (write_file p b). Proof using. by intros d. Qed.
End machines.
#[export] Hint Resolve getenv_still exists_still urandom_still now_still ring_still makedirs_still read_still create_still
  write_still : keeps.

Section machines.
Context {C : Crypto} {K N : Type} {R : Keyring K}.
Abbreviation still := (keeps (@same_databases K N)).
Lemma data_dir_still s : still (or_data_dir s). Proof using. unfold or_data_dir, data_dir. keeping. Qed.
Lemma save_still s dir : still (save s dir).
Proof using. unfold save. pose proof data_dir_still. keeping. Qed.
Lemma encrypted_still p : still (identity_is_encrypted p). Proof using. unfold identity_is_encrypted. keeping. Qed.
Lemma load_identity_still p w : still (load_identity p w). Proof using. unfold load_identity. keeping. Qed.
Lemma save_identity_still i p w : still (save_identity i p w). Proof using. unfold save_identity. keeping. Qed.
Lemma generate_still {B : Bip39} f l w : still (generate_identity f l w). Proof using. unfold generate_identity. keeping. Qed.
Lemma resolve_still dir id w : still (resolve_store_key dir id w).
Proof using.
  unfold resolve_store_key, load_key_from, keyring_key, new_key_file, write_key_file. keeping.
Qed.
Lemma open_still p k : still (open_store p k). Proof using. unfold open_store. keeping. Qed.
End machines.
#[export] Hint Resolve data_dir_still save_still encrypted_still load_identity_still save_identity_still generate_still
  resolve_still open_still : keeps.

(** The tables of a store, whatever key reads them. *)
Definition any_key : bytes := repeat Ascii.zero 32.
Definition as_before (s s' : LocalStore) : Prop := sound (rekey any_key s) (rekey any_key s').
#[export] Instance as_before_preorder : PreOrder as_before.
Proof. split; unfold as_before; [by intros s|]. intros x y z H1 H2. by etrans. Qed.

(** No database disappears or decays. *)
Definition desk_ok {K N} (d d' : Desk K N) : Prop :=
  ∀ path st, databases d !! path = Some st → ∃ st', databases d' !! path = Some st' ∧ as_before st st'.
#[export] Instance desk_ok_preorder {K N} : PreOrder (@desk_ok K N).
Proof.
  split; unfold desk_ok; [intros d p st H; by exists st|].
  intros d1 d2 d3 H1 H2 p st (st1 & E1 & S1)%H1. apply H2 in E1 as (st2 & E2 & S2). exists st2. split; [done|by etrans].
Qed.

Section machines.
Context {C : Crypto} {K N : Type} {R : Keyring K}.
Implicit Types d : Desk K N.
Lemma still_ok {A} (m : SE (Desk K N) A) : keeps same_databases m → keeps desk_ok m.
Proof using. intros H d p st Hst. exists st. split; [by rewrite (H d)|done]. Qed.
Lemma wf_rekey key s : length key = 32%nat → wf_store s → wf_store (rekey key s).
Proof using. intros Hk []. by split. Qed.
Lemma as_before_rekey key s : as_before s (rekey key s).
Proof using. unfold as_before. by destruct s. Qed.
Lemma register_as_before id label path now s : as_before s (register_identity id label path now s).2.
Proof using.
  assert ((register_identity id label path now (rekey any_key s)).2 = rekey any_key (register_identity id label path now s).2) as E.
  { unfold register_identity, se_bind, se_get, se_lift, se_put. by destruct (sql_text label). }
  unfold as_before. rewrite <-E. exact (run_op_sound (C := Toy.toy_crypto) (RegisterIdentity id label path now) (rekey any_key s)).
Qed.
(** How a client with the old key sees what became of its tables. *)
Lemma as_before_sound s s' : as_before s s' → sound s (rekey (store_key s) s').
Proof using.
  intros [H1 [_ H2]]. split; [|by split]. intros Hs. pose proof (ws_key _ Hs) as Hk.
  apply (wf_rekey (store_key s)) in H1; [|done|by apply wf_rekey]. by destruct s'.
Qed.

Lemma desk_ok_set path st' d :
  (∀ st0, databases d !! path = Some st0 → as_before st0 st') → desk_ok d (set_databases (<[path := st']> (databases d)) d).
Proof using.
  intros H p x Hx. cbn. destruct (decide (p = path)) as [->|Hne].
  - rewrite lookup_insert_eq. exists st'. auto.
  - rewrite lookup_insert_ne by done. by exists x.
Qed.
Lemma desk_ok_from d1 d2 d : databases d1 = databases d2 → desk_ok d1 d → desk_ok d2 d.
Proof using. unfold desk_ok. by intros ->. Qed.
Lemma still_bind {A B'} (m : SE (Desk K N) A) (f : A → SE (Desk K N) B') d :
  keeps same_databases m → (∀ a d', m d = (Ok a, d') → databases d' = databases d → desk_ok d' (f a d').2) →
  desk_ok d (se_bind m f d).2.
Proof using.
  intros Hm Hf. specialize (Hm d). unfold se_bind. unfold same_databases in Hm.
  destruct (m d) as [[a|e] d'] eqn:E; cbn in Hm.
  - by apply (desk_ok_from d'), Hf.
  - apply (desk_ok_from d'); [done|reflexivity].
Qed.
Lemma open_store_tables path key d st d' :
  open_store path key d = (Ok st, d') → ∀ st0, databases d !! path = Some st0 → as_before st0 st.
Proof using.
  unfold open_store. destruct (new_store key) as [fresh|]; [|done]. rewrite se_lift_run.
  intros [_ H]%makedirs_ok st0 Hst. rewrite se_get_run, Hst in H.
  injection H as <- _. apply as_before_rekey.
Qed.
Lemma build_client_desk i s dir : keeps (@desk_ok K N) (build_client i s dir).
Proof using.
  intros d. unfold build_client. apply still_bind; [keeping|intros dir' d1 _ _; clear d; rename d1 into d].
  apply still_bind; [keeping|intros _ d1 _ _; clear d; rename d1 into d]. apply still_bind; [keeping|intros key d1 _ _; clear d; rename d1 into d].
  apply still_bind; [keeping|intros st d' Hst Hd']. pose proof (open_store_tables _ _ _ _ _ Hst) as Ht.
  rewrite <-Hd' in Ht. clear d Hst Hd'. rename d' into d. apply still_bind; [keeping|intros now d' _ Hd]. rewrite <-Hd in Ht.
  clear d Hd. rename d' into d.
  destruct (register_identity _ _ _ now st) as [r st'] eqn:Er.
  apply still_bind; [keeping|intros _ d2 [= _ <-] _]. etrans; [apply (desk_ok_set (store_path dir') st')|].
  - intros st0 H0%Ht. etrans; [exact H0|]. apply (f_equal snd) in Er. cbn in Er. rewrite <-Er. apply register_as_before.
  - unfold se_bind, se_modify. cbv beta iota. set (d3 := set_databases _ d). clearbody d3.
    apply (still_ok (do! urls := se_lift (relay_strings (relays s)) in
                     do! t := se_lift (build_transport s) in
                     do! d := se_get in
                     do! c := se_lift (new_client i st' urls (Identity.label i) (d_net d) (d_env d)) in
                     se_ret (c, t))). keeping.
Qed.
End machines.
#[export] Hint Resolve still_ok build_client_desk : keeps.

(** ** The running client *)

(** What stays true of a client from one moment to a later one, also when it was opened
    again in between: the account, its tables, and what it remembers. *)
Definition kept {C : Crypto} {N} (c c' : Client N) : Prop :=
  length (store_key (cl_store c)) = 32%nat →
  cl_identity c' = cl_identity c ∧ length (store_key (cl_store c')) = 32%nat ∧ as_before (cl_store c) (cl_store c') ∧
  (Identity.wf_identity (cl_identity c) → caches_ok c → caches_ok c').
#[export] Instance kept_preorder {C : Crypto} {N} : PreOrder (@kept C N).
Proof.
  split; unfold kept; [intros c Hc; by split_and!|].
  intros x y z H1 H2 (I1 & K1 & T1 & C1)%H1. destruct (H2 K1) as (I2 & K2 & T2 & C2).
  split_and!; [congruence|done|by etrans|]. intros Hw Hc. apply C2; [by rewrite I1|auto].
Qed.

Definition run_ok {C : Crypto} {K N} (r r' : Running K N) : Prop := r_path r' = r_path r ∧ kept (r_client r) (r_client r').
#[export] Instance run_ok_preorder {C : Crypto} {K N} : PreOrder (@run_ok C K N).
Proof. split; unfold run_ok; [by intros r|]. intros x y z [-> H1] [-> H2]. split; [done|by etrans]. Qed.

Section runs.
Context {C : Crypto} {L : CryptoLaws C} {Zl : Zlib} {K N : Type} {R : Keyring K} {P : Pool N} {T : Transport.Net N}.
Abbreviation ok := (keeps (@run_ok C K N)).

Lemma client_ok_kept (c c' : Client N) : client_ok c c' → kept c c'.
Proof using.
  intros (H1 & [H2 H3] & H4) Hk. split_and!; [done|by rewrite (proj1 H3)| |done]. split; [|by destruct H3].
  intros Hs. apply wf_rekey; [done|]. apply H2. apply (wf_rekey (store_key (cl_store c))) in Hs; [|done].
  by destruct (cl_store c).
Qed.
Lemma on_client_ok {A} (m : SE (Client N) A) : keeps client_ok m → ok (on_client m).
Proof using.
  intros H r. unfold on_client. specialize (H (r_client r)). destruct (m (r_client r)). split; [done|by apply client_ok_kept].
Qed.
(** A client whose tables became those of a later machine. *)
Lemma sees_kept (c : Client N) (d : Desk K N) path st :
  databases d !! path = Some st → as_before (cl_store c) st → kept c (seen_by c d path).
Proof using.
  intros Hst Ht Hk. unfold seen_by. rewrite Hst. cbn.
  split_and!; [done..| |by intros]. etrans; [exact Ht|apply as_before_rekey].
Qed.
Lemma seen_by_kept (c : Client N) (d d' : Desk K N) path :
  databases d !! path = Some (cl_store c) → desk_ok d d' → kept c (seen_by c d' path).
Proof using. intros Hd H. apply H in Hd as (st & Hst & Ht). by eapply sees_kept. Qed.
Lemma seen_key (c : Client N) (d : Desk K N) path : store_key (cl_store (seen_by c d path)) = store_key (cl_store c).
Proof using. unfold seen_by. by destruct (databases d !! path). Qed.
Lemma on_machine_ok {A} (m : SE (Desk K N) A) : keeps desk_ok m → ok (on_machine m).
Proof using.
  intros H r. unfold on_machine. specialize (H (checkpoint r)). destruct (m (checkpoint r)) as [x d]. split; [done|].
  apply seen_by_kept with (d := checkpoint r); [apply lookup_insert_eq|done].
Qed.
End runs.
#[export] Hint Resolve on_client_ok on_machine_ok : keeps.

(** [keeping] with one more step for the layers of the application. *)
Ltac handling :=
  repeat first
    [ solve [auto 4 with keeps typeclass_instances]
    | apply keeps_bind; [apply _| |intros ?]
    | apply keeps_try | apply keeps_catch | apply keeps_except
    | match goal with |- context [match ?x with _ => _ end] => destruct x end ].

Section tasks.
Context {C : Crypto} {L : CryptoLaws C} {Zl : Zlib} {K N : Type} {R : Keyring K} {P : Pool N} {T : Transport.Net N}.
Definition good_task (t : Task K N) : Prop := keeps run_ok (Worker.t_function t).
Lemma provision_good : good_task provision_task.
Proof using L. unfold good_task; cbn. handling. Qed.
Lemma send_text_good k s : good_task (send_text_task k s).
Proof using L. unfold good_task; cbn. handling. Qed.
Lemma send_file_good mime k p : good_task (send_file_task mime k p).
Proof using L. unfold good_task; cbn. handling. Qed.
Lemma mark_read_good k m : good_task (mark_read_task k m).
Proof using L. unfold good_task; cbn. handling. Qed.
Lemma download_good m n : good_task (download_task m n).
Proof using L. unfold good_task; cbn. handling. Qed.
Lemma request_good s : good_task (request_task s).
Proof using L. unfold good_task; cbn. handling. Qed.
Lemma approve_good d s : good_task (approve_task d s).
Proof using L. unfold good_task; cbn. handling. Qed.
Lemma export_good p w s : good_task (reporting "export_history" (_export_history_to p w s) history_done).
Proof using. unfold good_task, _export_history_to; cbn. handling. Qed.
Lemma import_good p w : good_task (reporting "import_history" (_import_history_from p w) history_done).
Proof using. unfold good_task, _import_history_from; cbn. handling. Qed.

(** ** The thread *)

(** A worker nobody stopped, with tasks of the window only. *)
Record good_thread (w : Thread K N) : Prop := {
  gt_sound : Worker.sound_worker w;
  gt_owed : Worker.w_owed w = 0%nat;
  gt_stop : Worker.w_stop w = false;
  gt_tasks : Forall good_task (Worker.w_queue w)
}.
Lemma poll_ok :
  (∀ r : Running K N, run_ok r (Worker.p_sync (Polled := running_polled) r).2) ∧
  (∀ r : Running K N, run_ok r (Worker.p_flush (Polled := running_polled) r).2) ∧
  (∀ r : Running K N, run_ok r (Worker.p_relay_urls (Polled := running_polled) r).2) ∧
  (∀ r : Running K N, run_ok r (Worker.p_refresh (Polled := running_polled) r).2).
Proof using L.
  split_and!; match goal with |- ∀ r, run_ok r (?m r).2 => change (keeps run_ok m) end; cbn; handling.
Qed.
Lemma work_ok now (w w' : Thread K N) out :
  Forall good_task (Worker.w_queue w) → Worker.work now w = Some (w', out) →
  run_ok (Worker.w_client w) (Worker.w_client w') ∧ Forall good_task (Worker.w_queue w').
Proof using L.
  intros Hq H. destruct poll_ok as (P1 & P2 & P3 & P4). split.
  - by apply (Worker.work_keeps run_ok) in H.
  - apply Worker.work_step in H as (_ & _ & _ & _ & -> & _). unfold Worker.queue_after.
    destruct (Worker.w_at w); try done. destruct (Worker.w_queue w); [done|]. by apply Forall_cons in Hq as [_ ?].
Qed.
Lemma work_good now (w w' : Thread K N) out : good_thread w → Worker.work now w = Some (w', out) → good_thread w'.
Proof using L.
  intros [H1 H2 H3 H4] H. destruct (work_ok _ _ _ _ H4 H) as [_ H5]. assert (Worker.sound_worker w') by (by eapply Worker.work_sound).
  apply Worker.work_step in H as (E1 & E2 & _). split; [done|congruence..|done].
Qed.
Lemma queued_good (t : Task K N) w : good_task t → good_thread w → good_thread (queued t w).
Proof using.
  intros Ht [H1 H2 H3 H4]. unfold queued. destruct (Worker.run _ w) as [[w' out]|] eqn:E; [|done].
  assert (Worker.sound_worker w') by (by eapply Worker.run_sound). cbn in E. rewrite H2 in E. injection E as <- _.
  split; [done|done|done|]. cbn. apply Forall_app. split; [done|by apply Forall_singleton].
Qed.
Lemma queued_client (t : Task K N) w : Worker.w_client (queued t w) = Worker.w_client w.
Proof using. unfold queued. cbn. by destruct (Worker.w_owed w). Qed.

(** A thread left behind: it works on the database of the data directory too. *)
Record straggler (directory : string) (w : Thread K N) : Prop := {
  st_path : r_path (Worker.w_client w) = store_path directory;
  st_key : length (store_key (cl_store (r_client (Worker.w_client w)))) = 32%nat;
  st_tasks : Forall good_task (Worker.w_queue w)
}.
(** What its steps leave of a database that others use. *)
Lemma straggler_work now directory (d : Desk K N) w w' out :
  straggler directory w → Worker.work now (Worker.set_client (on_desk d (Worker.w_client w)) w) = Some (w', out) →
  straggler directory w' ∧
  ∀ st, databases d !! store_path directory = Some st →
    ∃ st', databases (checkpoint (Worker.w_client w')) !! store_path directory = Some st' ∧ as_before st st'.
Proof using L.
  intros [Hp Hk Ht] H. apply work_ok in H as [[Hp' Hr] Ht']; [|exact Ht]. cbn in Hp', Hr.
  destruct Hr as (_ & Hk' & Hb & _); [by rewrite seen_key|]. split; [split; [congruence|done..]|].
  intros st Hst. exists (cl_store (r_client (Worker.w_client w'))). split.
  - unfold checkpoint. cbn. rewrite Hp', Hp. apply lookup_insert_eq.
  - etrans; [|exact Hb]. unfold seen_by. rewrite Hp, Hst. apply as_before_rekey.
Qed.
End tasks.

(** ** Handlers while a client runs *)

(** The session: the window, the identity and the running client belong together. *)
Record session {C : Crypto} {Zl : Zlib} {K N} {R : Keyring K} {P : Pool N} {T : Transport.Net N} (a : App K N) (w : Thread K N) : Prop := {
  se_directory : a_directory a ≠ ""%string;
  se_screen : a_screen a = MainScreen;
  se_identity : a_identity a = Some (cl_identity (r_client (Worker.w_client w)));
  se_shown : v_identity (a_view a) = Identity.identity_id (cl_identity (r_client (Worker.w_client w)));
  se_path : r_path (Worker.w_client w) = store_path (a_directory a);
  se_key : length (store_key (cl_store (r_client (Worker.w_client w)))) = 32%nat;
  se_thread : good_thread w;
  se_left : Forall (straggler (a_directory a)) (a_left a)
}.
(** What no handler on the main screen touches, but locking. *)
Definition rest {K N} (a : App K N) :=
  (a_directory a, a_screen a, a_identity a, a_pending a, a_pending_passphrase a, a_words a, v_identity (a_view a)).
Definition live {C : Crypto} {Zl : Zlib} {K N} {R : Keyring K} {P : Pool N} {T : Transport.Net N} (a a' : App K N) : Prop :=
  ∀ w, a_worker a = Some w → session a w →
  ∃ w', a_worker a' = Some w' ∧ session a' w' ∧ rest a' = rest a ∧
        kept (r_client (Worker.w_client w)) (r_client (Worker.w_client w')).
#[export] Instance live_preorder {C : Crypto} {Zl : Zlib} {K N} {R : Keyring K} {P : Pool N} {T : Transport.Net N} :
  PreOrder (@live C Zl K N R P T).
Proof.
  split; unfold live; [intros a w H1 H2; by exists w|].
  intros x y z H1 H2 w Hw Hs. destruct (H1 w Hw Hs) as (w1 & E1 & S1 & R1 & K1).
  destruct (H2 w1 E1 S1) as (w2 & E2 & S2 & R2 & K2). exists w2. split_and!; [done|done|congruence|by etrans].
Qed.

Section handlers.
Context {C : Crypto} {L : CryptoLaws C} {Zl : Zlib} {K N : Type} {R : Keyring K} {P : Pool N} {T : Transport.Net N}.
Abbreviation ok := (keeps (@live C Zl K N R P T)).
Implicit Types a : App K N.

(** The client moved on. *)
Lemma session_client a w w' x :
  session a w → good_thread w' → run_ok (Worker.w_client w) (Worker.w_client w') →
  session (set_machine x (Some w') a) w' ∧ kept (r_client (Worker.w_client w)) (r_client (Worker.w_client w')).
Proof using.
  intros [] Ht [Hp Hk]. destruct (Hk se_key0) as (Hi & Hl & _). split; [|done]. split; cbn; by rewrite ?Hi, ?Hp.
Qed.
Lemma set_client_good (r : Running K N) w : good_thread w → good_thread (Worker.set_client r w).
Proof using. intros [[] ? ? ?]. by split. Qed.
Lemma upd_live f :
  (∀ a, a_worker (f a) = a_worker a ∧ rest (f a) = rest a ∧ a_left (f a) = a_left a) → ok (upd f).
Proof using.
  intros H a w Hw Hs. destruct (H a) as (H1 & H2 & H3). exists w. cbn. split_and!; [by rewrite H1| |done|done].
  unfold rest in H2. injection H2 as E1 E2 E3 _ _ _ E4. destruct Hs. split; congruence.
Qed.
Lemma desk_live {A} (m : SE (Desk K N) A) : keeps desk_ok m → ok (desk m).
Proof using.
  intros Hm a w Hw Hs. unfold desk. rewrite Hw. pose proof (on_machine_ok m Hm (Worker.w_client w)) as H.
  destruct (on_machine m (Worker.w_client w)) as [x r]. exists (Worker.set_client r w).
  destruct (session_client a w (Worker.set_client r w) (a_desk a) Hs) as [H1 H2]; [apply set_client_good, Hs|exact H|].
  by split_and!.
Qed.
Lemma client_live {A} (m : SE (Client N) A) : keeps client_ok m → ok (client m).
Proof using.
  intros Hm a w Hw Hs. unfold client. rewrite Hw. pose proof (on_client_ok m Hm (Worker.w_client w)) as H.
  destruct (on_client m (Worker.w_client w)) as [x r]. exists (Worker.set_client r w).
  destruct (session_client a w (Worker.set_client r w) (a_desk a) Hs) as [H1 H2]; [apply set_client_good, Hs|exact H|].
  by split_and!.
Qed.
Lemma submit_live t : good_task t → ok (submit t).
Proof using.
  intros Ht a w Hw Hs. unfold submit, upd, se_modify. cbn. rewrite Hw. cbn. exists (queued t w).
  destruct (session_client a w (queued t w) (a_desk a) Hs) as [H1 H2];
    [by apply queued_good, Hs | by rewrite queued_client | by split_and!].
Qed.
Lemma try_else_keeps {St A} (Rel : St → St → Prop) `{!PreOrder Rel} p (m : SE St A) h k :
  keeps Rel m → (∀ e, keeps Rel (h e)) → (∀ x, keeps Rel (k x)) → keeps Rel (try_else p m h k).
Proof using.
  intros Hm Hh Hk s. unfold try_else. specialize (Hm s). destruct (m s) as [[x|e] s'].
  - etrans; [exact Hm|apply Hk].
  - destruct (p e); [etrans; [exact Hm|apply Hh]|exact Hm].
Qed.
End handlers.
#[export] Hint Resolve desk_live client_live submit_live : keeps.
#[export] Hint Resolve provision_good send_text_good send_file_good mark_read_good download_good request_good approve_good
  export_good import_good : keeps.
#[export] Hint Extern 1 (keeps live (upd _)) => (apply upd_live; by intros ?) : keeps.

Ltac handling_app :=
  repeat first
    [ solve [auto 5 with keeps typeclass_instances]
    | apply keeps_bind; [apply _| |intros ?]
    | apply try_else_keeps; [apply _| |intros ?|intros ?]
    | apply keeps_each; [apply _|intros ?]
    | apply client_live | apply desk_live
    | match goal with |- context [match ?x with _ => _ end] => destruct x end ].

Section screens.
Context {C : Crypto} {L : CryptoLaws C} {Zl : Zlib} {K N : Type} {R : Keyring K} {P : Pool N} {T : Transport.Net N}.
Variables (mime_of : string → string) (text_of : exn → string).
Abbreviation ok := (keeps (@live C Zl K N R P T)).
Lemma show_live b : ok (show b). Proof using. unfold show. handling_app. Qed.
Lemma set_status_live s : ok (set_status s). Proof using. unfold set_status. handling_app. Qed.
Lemma post_live out : ok (post out). Proof using. unfold post. handling_app. Qed.
End screens.
#[export] Hint Resolve show_live set_status_live post_live : keeps.

Section screens.
Context {C : Crypto} {L : CryptoLaws C} {Zl : Zlib} {K N : Type} {R : Keyring K} {P : Pool N} {T : Transport.Net N}.
Variables (mime_of : string → string) (text_of : exn → string).
Abbreviation ok := (keeps (@live C Zl K N R P T)).
Lemma when_client_live m : ok m → ok (when_client m).
Proof using. intros H. unfold when_client. handling_app. Qed.
Lemma contacts_data_live : ok contacts_data. Proof using. unfold contacts_data. handling_app. Qed.
Lemma render_live : ok _render_chat. Proof using. unfold _render_chat. handling_app. Qed.
Lemma refresh_live : ok refresh.
Proof using.
  apply when_client_live. pose proof contacts_data_live. pose proof render_live. handling_app.
Qed.

#[local] Hint Resolve when_client_live contacts_data_live render_live refresh_live : keeps.
Lemma select_live row : ok (select_contact row). Proof using L. unfold select_contact. handling_app. Qed.
Lemma card_live : ok show_my_card. Proof using L. unfold show_my_card, boxed. handling_app. Qed.
Lemma show_devices_live : ok show_devices. Proof using L. unfold show_devices, boxed. handling_app. Qed.
Lemma ask_live c : ok (asked_since c). Proof using L. unfold asked_since. handling_app. Qed.
Lemma request_live c : ok (request_history_from_devices c).
Proof using L. pose proof ask_live. unfold request_history_from_devices. handling_app. Qed.
Lemma approve_live d s : ok (approve_history_request d s). Proof using L. unfold approve_history_request. handling_app. Qed.
Lemma deny_live d : ok (deny_history_request d). Proof using L. unfold deny_history_request. handling_app. Qed.
Lemma export_live c p f : ok (export_history c p f).
Proof using L. pose proof ask_live. unfold export_history. handling_app. Qed.
Lemma import_live f y p : ok (import_history f y p). Proof using L. unfold import_history, boxed. handling_app. Qed.
Lemma finished_live r : ok (_history_finished r). Proof using L. unfold _history_finished. handling_app. Qed.
Lemma copy_live : ok copy_identity_id. Proof using L. unfold copy_identity_id. handling_app. Qed.
Lemma add_contact_live v : ok (add_contact_clicked v).
Proof using L. unfold add_contact_clicked, boxed. handling_app. Qed.
Lemma send_text_live : ok send_text_clicked. Proof using L. unfold send_text_clicked. handling_app. Qed.
Lemma send_file_live f : ok (send_file_clicked mime_of f). Proof using L. unfold send_file_clicked. handling_app. Qed.
Lemma download_live i : ok (download_selected i). Proof using L. unfold download_selected. handling_app. Qed.
Lemma save_live r p : ok (_save_attachment r p). Proof using L. unfold _save_attachment. handling_app. Qed.
Lemma relays_live l : ok (_on_relays_changed l). Proof using L. unfold _on_relays_changed. handling_app. Qed.
Lemma note_live : ok _note_pending_requests.
Proof using L.
  apply when_client_live. intros a. pose proof (client_live history_requests requests_keeps a) as H.
  destruct (client history_requests a) as [[[|r l]|e] a'].
  - etrans; [exact H|]. by apply (upd_live (set_notified ∅)).
  - destruct (List.filter _ (r :: l)) as [|x fresh]; [exact H|]. etrans; [exact H|].
    etrans; [apply (upd_live (set_notified (a_notified a' ∪ list_to_set (map rq_device (x :: fresh))))); by intros ?|].
    apply set_status_live.
  - destruct (isa_Exception e); exact H.
Qed.
Lemma handle_live p o : ok (handle text_of p o).
Proof using L.
  pose proof finished_live. pose proof save_live. pose proof relays_live. pose proof note_live.
  unfold handle, _after_sync. handling_app.
Qed.
Lemma deliver_live p : ok (deliver text_of p).
Proof using L. pose proof handle_live. unfold deliver. handling_app. Qed.
End screens.

(** ** The end of a thread *)

Section ending.
Context {C : Crypto} {L : CryptoLaws C} {Zl : Zlib} {K N : Type} {R : Keyring K} {P : Pool N} {T : Transport.Net N}.
Implicit Types (w : Thread K N) (a : App K N).

Lemma is_over_spec w : is_over w = true ↔ Worker.over w.
Proof using. unfold is_over, Worker.over. destruct (Worker.w_at w); cbn; intuition congruence. Qed.
Lemma finish_invariant (I : Thread K N → Prop) clk n w :
  (∀ now w w' out, I w → Worker.work now w = Some (w', out) → I w') → I w → I (finish clk n w).1.
Proof using.
  intros HI. revert clk w. induction n as [|n IH]; intros clk w Hw; [done|]. cbn [finish].
  destruct (Worker.work (clk 0%nat) w) as [[w1 out]|] eqn:E; [|done].
  specialize (IH (λ i, clk (S i)) w1 (HI _ _ _ _ Hw E)). by destruct (finish _ n w1).
Qed.
Lemma finish_alone clk n w w' k :
  Worker.alone clk n w = Some w' → Worker.over w' → (n ≤ k)%nat → Worker.over (finish clk k w).1.
Proof using.
  revert clk n w. induction k as [|k IH]; intros clk n w H Ho Hle.
  { assert (n = 0%nat) as -> by lia. cbn in H. by injection H as ->. }
  cbn [finish]. destruct n as [|n]; cbn [Worker.alone] in H.
  - injection H as ->. destruct (Worker.work (clk 0%nat) w') as [[w1 out]|] eqn:E; [|done]. exfalso.
    unfold Worker.work in E. destruct Ho as [Ho|Ho]; [by rewrite Ho in E|]. by destruct (Worker.w_at w').
  - destruct (Worker.work (clk 0%nat) w) as [[w1 out]|]; [|done].
    specialize (IH (λ i, clk (S i)) n w1 H Ho ltac:(lia)). by destruct (finish _ k w1).
Qed.
Lemma stopped_ok w : good_thread w →
  Worker.sound_worker (stopped w) ∧ Worker.w_owed (stopped w) = 0%nat ∧ Worker.w_stop (stopped w) = true ∧
  Worker.w_client (stopped w) = Worker.w_client w ∧ Worker.w_queue (stopped w) = Worker.w_queue w.
Proof using.
  intros [H1 H2 H3 H4]. unfold stopped.
  destruct (Worker.run [Worker.SetStop; Worker.SetWake] w) as [[w1 out]|] eqn:E; [|done].
  assert (Worker.sound_worker w1) as Hs by (by eapply Worker.run_sound). cbn in E. rewrite H2 in E. by injection E as <- _.
Qed.
(** Waiting for the thread costs the client nothing, and a thread that was left behind is one of
    the account's. *)
Lemma halt_ok wt w :
  good_thread w →
  run_ok (Worker.w_client w) (Worker.w_client (halt wt w).1) ∧ Forall good_task (Worker.w_queue (halt wt w).1).
Proof using L.
  intros Hg. destruct (stopped_ok w Hg) as (_ & _ & _ & E1 & E2). unfold halt.
  apply (finish_invariant (λ x, run_ok (Worker.w_client w) (Worker.w_client x) ∧ Forall good_task (Worker.w_queue x))).
  - intros now x x' out [Hr Hq] H. destruct (work_ok _ _ _ _ Hq H). split; [by etrans|done].
  - rewrite E1, E2. split; [done|apply Hg].
Qed.
Lemma overdue_ok wt w a :
  good_thread w → r_path (Worker.w_client w) = store_path (a_directory a) →
  length (store_key (cl_store (r_client (Worker.w_client w)))) = 32%nat →
  Forall (straggler (a_directory a)) (a_left a) →
  Forall (straggler (a_directory a)) (a_left a ++ overdue (halt wt w).1).
Proof using L.
  intros Hg Hp Hk Hl. apply Forall_app. split; [done|]. unfold overdue. destruct (is_over _); [done|].
  apply Forall_singleton. destruct (halt_ok wt w Hg) as [[Hp' Hr] Hq]. destruct (Hr Hk) as (_ & Hk' & _).
  split; [congruence|done..].
Qed.
(** Enough time ends it, and a thread that got less still has few steps to go. *)
Lemma halt_over wt w : good_thread w → (length (Worker.w_queue w) + 9 ≤ within wt)%nat → is_over (halt wt w).1 = true.
Proof using.
  intros Hg Hn. destruct (stopped_ok w Hg) as (H1 & H2 & H3 & _ & E). apply is_over_spec.
  destruct (Worker.stop_over _ (readings wt) H1 H2 H3) as (n & w' & Hle & Ha & Ho). eapply finish_alone; [done..|].
  rewrite E in Hle. lia.
Qed.
Lemma halt_ends wt w clk : good_thread w →
  ∃ n w', (n ≤ length (Worker.w_queue w) + 9)%nat ∧ Worker.alone clk n (halt wt w).1 = Some w' ∧ is_over w' = true.
Proof using.
  intros Hg. destruct (stopped_ok w Hg) as (H1 & H2 & H3 & _ & E). unfold halt.
  destruct (finish_invariant (λ x, Worker.sound_worker x ∧ Worker.w_owed x = 0%nat ∧ Worker.w_stop x = true ∧
      (length (Worker.w_queue x) ≤ length (Worker.w_queue w))%nat) (readings wt) (within wt) (stopped w)) as (S1 & S2 & S3 & S4).
  - intros now x x' out (X1 & X2 & X3 & X4) H. assert (Worker.sound_worker x') by (by eapply Worker.work_sound).
    apply Worker.work_step in H as (-> & -> & _ & _ & -> & _). split_and!; [done..|]. unfold Worker.queue_after.
    destruct (Worker.w_at x); try done. destruct (Worker.w_queue x); cbn in *; lia.
  - by rewrite E.
  - destruct (Worker.stop_over _ clk S1 S2 S3) as (n & w' & Hle & Ha & Ho%is_over_spec). exists n, w'. split; [lia|done].
Qed.
End ending.

(** ** Starting, and starting again *)

Section starting.
Context {C : Crypto} {L : CryptoLaws C} {Zl : Zlib} {K N : Type} {R : Keyring K} {P : Pool N} {T : Transport.Net N}.
Implicit Types (w : Thread K N) (a : App K N) (wt : Wait).

Lemma new_worker_good (r : Running K N) poll auto interval w :
  Worker.new_worker r poll auto interval = Ok w → good_thread w ∧ Worker.w_client w = r.
Proof using.
  intros H. assert (Worker.sound_worker w) by (by eapply Worker.new_worker_sound).
  unfold Worker.new_worker in H. rinv H. subst w. by split.
Qed.
(** The thread that replaces another, if any. *)
Lemma start_worker_run wt c t a a' :
  _start_worker wt c t a = (Ok tt, a') →
  ∃ w' r, a_worker a' = Some w' ∧ good_thread w' ∧ Worker.w_client w' = r ∧ r_transport r = t ∧
    r_path r = store_path (a_directory a) ∧ rest a' = rest a ∧ a_contact a' = a_contact a ∧ a_settings a' = a_settings a ∧
    a_view a' = a_view a ∧
    match a_worker a with
    | None => r_client r = c ∧ r_desk r = a_desk a ∧ a_signals a' = a_signals a ∧ a_left a' = a_left a
    | Some w => a_left a' = a_left a ++ overdue (halt wt w).1 ∧
                let d := checkpoint (Worker.w_client (halt wt w).1) in
                r_client r = seen_by c d (store_path (a_directory a)) ∧ r_desk r = d
    end.
Proof using L.
  unfold _start_worker. rewrite se_get_run. intros H.
  apply se_bind_Ok in H as (r & a1 & H1 & H). apply se_bind_Ok in H as (w & a2 & H2 & H).
  unfold se_lift in H2. injection H2 as Hw <-. apply new_worker_good in Hw as [Hg Hr].
  unfold upd, se_modify in H. injection H as <-. exists (queued provision_task w), r.
  rewrite queued_client. cbn. split; [done|]. split; [by apply queued_good; [apply provision_good|]|]. split; [done|].
  destruct (a_worker a) as [w0|].
  - destruct (halt wt w0) as [w1 out]. apply se_bind_Ok in H1 as ([] & a3 & [= <-] & H1).
    apply se_bind_Ok in H1 as ([] & a4 & [= <-] & [= <- <-]). by split_and!.
  - injection H1 as <- <-. by split_and!.
Qed.
Lemma desk_none {A} (m : SE (Desk K N) A) a x a' :
  a_worker a = None → desk m a = (x, a') → ∃ d, m (a_desk a) = (x, d) ∧ a' = set_machine d None a.
Proof using. intros Hw. unfold desk. rewrite Hw. destruct (m (a_desk a)) as [y d]. intros [= <- <-]. eauto. Qed.

Lemma start_worker_again wt i s t c a w d :
  a_worker a = Some w → session a w → cl_identity (r_client (Worker.w_client w)) = i →
  on_machine (build_client i s (a_directory a)) (Worker.w_client w) = (Ok (c, t), d) →
  let a1 := set_machine (a_desk a) (Some (Worker.set_client d w)) a in
  ∀ a', _start_worker wt c t a1 = (Ok tt, a') →
  ∃ w', a_worker a' = Some w' ∧ session a' w' ∧ rest a' = rest a ∧
        kept (r_client (Worker.w_client w)) (r_client (Worker.w_client w')).
Proof using L.
  intros Hw Hs Hi H a1 a' H'.
  unfold on_machine in H. destruct (build_client i s (a_directory a) (checkpoint (Worker.w_client w))) as [x d1] eqn:Eb.
  injection H as -> <-.
  pose proof (build_client_desk i s (a_directory a) (checkpoint (Worker.w_client w))) as Hd. rewrite Eb in Hd. cbn [snd] in Hd.
  apply build_client_ok in Eb as (key & dk & store & _ & _ & _ & _ & Hlen & Htab & Hst & _ & _ & _ & _ & _ & Hci & _ & Hl & Hsib & _ & _);
    [|apply Hs].
  apply start_worker_run in H' as (w' & r & Hw' & Hg & Hr & _ & Hp & Hrest & _ & _ & Hview & Hm).
  cbn [a1 a_worker set_machine] in Hm. destruct Hm as (Hleft & Hc & Hdk).
  set (r1 := on_desk d1 (Worker.w_client w)) in *.
  set (w1 := Worker.set_client r1 w) in *.
  assert (run_ok (Worker.w_client w) r1) as [P1 K1].
  { split; [done|]. eapply (seen_by_kept _ (checkpoint (Worker.w_client w))); [apply lookup_insert_eq|done]. }
  assert (good_thread w1) as Hg1 by (apply set_client_good, Hs).
  destruct (halt_ok wt w1 Hg1) as [[P2 K2] _]. cbn [w1 Worker.w_client Worker.set_client] in P2, K2.
  set (r2 := Worker.w_client (halt wt w1).1) in *.
  assert (length (store_key (cl_store c)) = 32%nat) as Hk by (rewrite <-Htab in Hst; cbn in Hst; by rewrite Hst).
  assert (r_path r2 = store_path (a_directory a)) as Ep by (rewrite P2, P1; apply Hs).
  assert (kept (r_client (Worker.w_client w)) (r_client r2)) as K3 by (by etrans).
  assert (cl_store (r_client r) = rekey (store_key (cl_store c)) (cl_store (r_client r2))) as Est.
  { rewrite Hc. unfold seen_by, checkpoint. cbn. by rewrite <-Ep, lookup_insert_eq. }
  destruct (K3 (se_key _ _ Hs)) as (I3 & L3 & T3 & C3).
  exists w'. split; [done|]. subst r. rewrite Hrest. split; [|split; [done|]].
  - assert (a_directory a' = a_directory a ∧ a_screen a' = a_screen a ∧ a_identity a' = a_identity a) as (Ed & Es & Ei)
      by (unfold rest in Hrest; by injection Hrest).
    assert (cl_identity (r_client (Worker.w_client w')) = i) as Ec by (rewrite Hc; by cbn).
    split; [rewrite Ed; apply Hs|rewrite Es; apply Hs|rewrite Ei, Ec, <-Hi; apply Hs| | |by rewrite Est|done|].
    + rewrite Hview, Ec, <-Hi. apply Hs.
    + by rewrite Hp, Ed.
    + rewrite Ed, Hleft. apply (overdue_ok wt w1 a); [done| | |apply Hs].
      * rewrite <-(se_path _ _ Hs). exact P1.
      * destruct (K1 (se_key _ _ Hs)) as (_ & Hk1 & _). exact Hk1.
  - intros _. rewrite Hc. cbn [seen_by cl_identity set_store set_net set_env]. split; [by rewrite Hci, Hi|].
    rewrite <-Hc, Est. split_and!; [done|etrans; [exact T3|apply as_before_rekey]|]. intros _ _. rewrite Hc. split.
    + intros l ts E. cbn in E. by rewrite Hl in E.
    + intros id k ts E. cbn in E. by rewrite Hsib, lookup_empty in E.
Qed.
End starting.

Section life.
Context {C : Crypto} {L : CryptoLaws C} {Zl : Zlib} {B : Bip39} {K N : Type} {R : Keyring K} {P : Pool N} {T : Transport.Net N}.
Variables (words_of : bytes → string) (mime_of : string → string) (text_of : exn → string).
Implicit Types (w : Thread K N) (a : App K N).
Abbreviation ok := (keeps (@live C Zl K N R P T)).

(** A successful step of a session: [live], unless an exception escaped. *)
Definition lively {A} (m : SE (App K N) A) : Prop := ∀ a x a', m a = (Ok x, a') → live a a'.
Lemma keeps_lively {A} (m : SE (App K N) A) : ok m → lively m.
Proof using. intros H a x a' E. specialize (H a). by rewrite E in H. Qed.
Lemma lively_bind {A B'} (m : SE (App K N) A) (f : A → SE (App K N) B') :
  lively m → (∀ x, lively (f x)) → lively (se_bind m f).
Proof using. intros Hm Hf a x a' H. apply se_bind_Ok in H as (y & a1 & H1%Hm & H2%Hf). by etrans. Qed.

Lemma restart_lively wt : lively (_restart_worker wt).
Proof using L.
  intros a [] a' H w Hw Hs. unfold _restart_worker in H. rewrite se_get_run, Hw, (se_identity _ _ Hs) in H.
  unfold try_else in H. pose proof (desk_live (R := R) _ (build_client_desk (cl_identity (r_client (Worker.w_client w)))
    (a_settings a) (a_directory a)) a) as Hl.
  unfold desk in H, Hl. rewrite Hw in H, Hl.
  destruct (on_machine _ _) as [[[c t]|e] d] eqn:Eb.
  - by eapply start_worker_again.
  - destruct (isa_Exception e); [|done]. apply (keeps_lively _ (show_live _)) in H.
    assert (live a a') as Hx by (by etrans). by apply Hx.
Qed.
Lemma open_settings_lively wt edit : lively (open_settings wt edit).
Proof using L.
  unfold open_settings. apply lively_bind; [apply keeps_lively; handling_app|intros a].
  apply lively_bind; [apply keeps_lively; handling_app|intros dialog]. destruct (edit dialog); [|apply keeps_lively; handling_app].
  apply lively_bind; [apply keeps_lively; handling_app|intros _]. apply lively_bind; [apply keeps_lively; handling_app|intros _].
  apply lively_bind; [apply restart_lively|intros _]. apply keeps_lively. apply refresh_live.
Qed.
Lemma thread_live ev : (∀ w w' out, good_thread w → Worker.step ev w = Some (w', out) →
    good_thread w' ∧ run_ok (Worker.w_client w) (Worker.w_client w')) → ok (thread ev).
Proof using.
  intros H a w Hw Hs. unfold thread. rewrite Hw. cbn [mbind option_bind]. destruct (Worker.step ev w) as [[w' out]|] eqn:E.
  - destruct (H w w' out) as [Hg Hr]; [apply Hs|done|]. exists w'. cbn.
    destruct (session_client a w w' (a_desk a) Hs Hg Hr) as [[] H2]. by split_and!.
  - exists w. by split_and!.
Qed.
Lemma work_live now : ok (thread (Worker.Work now)).
Proof using L.
  apply thread_live. intros w w' out Hg H. split; [by eapply work_good|]. by eapply work_ok; [apply Hg|].
Qed.
Lemma timeout_live : ok (thread Worker.Timeout).
Proof using.
  apply thread_live. intros w w' out Hg H. assert (Worker.sound_worker w') by (eapply Worker.step_sound; [apply Hg|done]).
  cbn in H. destruct (Worker.w_at w); try done. injection H as <- _. destruct Hg. by split.
Qed.

Lemma straggle_live i now : ok (straggle i now).
Proof using L.
  intros a w Hw Hs. unfold straggle. destruct (a_left a !! i) as [x|] eqn:Ex; [|by exists w].
  destruct (Worker.work _ _) as [[x' out]|] eqn:E; [|by exists w].
  unfold post, upd, se_modify, with_machine, machine_of in *. rewrite Hw in *. cbn [snd].
  assert (straggler (a_directory a) x) as Hx by (eapply Forall_lookup_1; [apply (se_left _ _ Hs)|done]).
  destruct (straggler_work _ _ _ _ _ _ Hx E) as [Hx' Hd].
  set (d' := checkpoint (Worker.w_client x')) in *. set (w' := Worker.set_client (on_desk d' (Worker.w_client w)) w).
  assert (run_ok (Worker.w_client w) (Worker.w_client w')) as Hr.
  { split; [done|]. destruct (Hd (cl_store (r_client (Worker.w_client w)))) as (st' & E1 & E2).
    - rewrite <-(se_path _ _ Hs). apply lookup_insert_eq.
    - cbn. eapply sees_kept; [|exact E2]. by rewrite (se_path _ _ Hs). }
  exists w'. destruct (session_client a w w' (a_desk a) Hs) as [[] H2]; [apply set_client_good, Hs|exact Hr|].
  split; [done|]. split; [|by split]. split; try done. cbn. by apply Forall_insert.
Qed.

(** Every event of the main screen but locking. *)
Lemma main_lively wt ev a a' :
  a_screen a = MainScreen → ev ≠ Lock → step words_of mime_of text_of wt ev a = Ok a' → live a a'.
Proof using L.
  intros Hm Hl H. unfold step in H. destruct (enabled ev a) eqn:He; [|by injection H as <-].
  destruct (handler words_of mime_of text_of wt ev a) as [[[]|e] a1] eqn:Eh; [|done]. injection H as ->.
  assert (lively (handler words_of mime_of text_of wt ev)) as Hh; [|by eapply Hh].
  unfold enabled in He. rewrite Hm in He. destruct ev; try done; cbn [handler];
    first [apply open_settings_lively | apply keeps_lively].
  - apply card_live.
  - apply show_devices_live.
  - apply request_live.
  - apply approve_live.
  - apply deny_live.
  - apply export_live.
  - apply import_live.
  - apply copy_live.
  - apply add_contact_live.
  - apply select_live.
  - handling_app.
  - apply send_text_live.
  - apply send_file_live.
  - apply download_live.
  - apply deliver_live.
  - apply work_live.
  - apply straggle_live.
  - apply timeout_live.
Qed.
End life.

(** ** The window without a client *)

(** Nothing of the account is on the main screen, but perhaps the name of an identity. *)
Definition blank (v : View) : Prop := view_set_status "" (view_set_identity "" v) = view_set_status "" reset.
Record closed {C : Crypto} {Zl : Zlib} {K N} {R : Keyring K} {P : Pool N} {T : Transport.Net N} (a : App K N) : Prop := {
  cl_worker : a_worker a = None;
  cl_screen : a_screen a ≠ MainScreen;
  cl_contact : a_contact a = None;
  cl_view : blank (a_view a);
  cl_directory : a_directory a ≠ ""%string;
  cl_left : Forall (straggler (a_directory a)) (a_left a)
}.
Definition idle {C : Crypto} {Zl : Zlib} {K N} {R : Keyring K} {P : Pool N} {T : Transport.Net N} (a a' : App K N) : Prop :=
  closed a → closed a'.
#[export] Instance idle_preorder {C : Crypto} {Zl : Zlib} {K N} {R : Keyring K} {P : Pool N} {T : Transport.Net N} :
  PreOrder (@idle C Zl K N R P T).
Proof. split; unfold idle; [by intros a Ha|]. auto. Qed.
Definition Inv {C : Crypto} {Zl : Zlib} {K N} {R : Keyring K} {P : Pool N} {T : Transport.Net N} (a : App K N) : Prop :=
  closed a ∨ ∃ w, a_worker a = Some w ∧ session a w.

Section closed.
Context {C : Crypto} {L : CryptoLaws C} {Zl : Zlib} {B : Bip39} {K N : Type} {R : Keyring K} {P : Pool N} {T : Transport.Net N}.
Variables (words_of : bytes → string) (mime_of : string → string) (text_of : exn → string).
Implicit Types (w : Thread K N) (a : App K N).
Abbreviation ok := (keeps (@idle C Zl K N R P T)).

Lemma upd_idle f : (∀ a, closed a → closed (f a)) → ok (upd f).
Proof using. intros H a Ha. by apply H. Qed.
Lemma desk_idle {A} (m : SE (Desk K N) A) : ok (desk m).
Proof using. intros a Ha. unfold desk. rewrite (cl_worker _ Ha). destruct (m (a_desk a)). destruct Ha. by split. Qed.
Lemma when_client_idle (m : SE (App K N) unit) : ok (when_client m).
Proof using. intros a Ha. unfold when_client. rewrite se_get_run, (cl_worker _ Ha). done. Qed.
Lemma status_idle s : ok (set_status s).
Proof using. apply upd_idle. intros a []. by split. Qed.
Lemma show_idle b : ok (show b).
Proof using. apply upd_idle. intros a []. by split. Qed.
Create HintDb idle.
#[local] Hint Resolve keeps_ret keeps_raise keeps_lift keeps_get keeps_check desk_idle when_client_idle status_idle show_idle : idle.
#[local] Hint Extern 1 (keeps idle (upd _)) => (apply upd_idle; intros ? []; by split) : idle.
#[local] Hint Extern 2 (keeps idle refresh) => (apply when_client_idle) : idle.
#[local] Hint Extern 2 (keeps idle _note_pending_requests) => (apply when_client_idle) : idle.
Ltac idling :=
  repeat first
    [ solve [auto 2 with idle typeclass_instances]
    | apply keeps_bind; [apply _| |intros ?]
    | match goal with |- context [match ?x with _ => _ end] => destruct x end ].

Lemma handle_idle p o : ok (handle text_of p o).
Proof using.
  unfold handle, _after_sync, _on_relays_changed, _history_finished, _save_attachment.
  idling.
Qed.
Lemma deliver_idle p : ok (deliver text_of p).
Proof using. pose proof handle_idle. unfold deliver. idling. Qed.

Lemma straggle_idle i now : ok (straggle i now).
Proof using L.
  intros a Ha. unfold straggle. destruct (a_left a !! i) as [x|] eqn:Ex; [|done].
  destruct (Worker.work _ _) as [[x' out]|] eqn:E; [|done].
  unfold post, upd, se_modify, with_machine. rewrite (cl_worker _ Ha). cbn [snd].
  assert (straggler (a_directory a) x) as Hx by (eapply Forall_lookup_1; [apply (cl_left _ Ha)|done]).
  destruct (straggler_work _ _ _ _ _ _ Hx E) as [Hx' _]. destruct Ha. split; try done. cbn. by apply Forall_insert.
Qed.

(** Starting a client: a session, or the welcome screen. *)
Lemma start_client_inv wt i a a' :
  closed a → _start_client wt i a = (Ok tt, a') →
  (∃ w, a_worker a' = Some w ∧ session a' w ∧ cl_identity (r_client (Worker.w_client w)) = i) ∨ closed a'.
Proof using L.
  intros Ha H. unfold _start_client in H.
  apply se_bind_Ok in H as ([] & a1 & [= <-] & H). rewrite se_get_run in H.
  apply se_bind_Ok in H as (e & a2 & H1 & H). apply desk_none in H1 as (d & _ & ->); [|apply Ha].
  apply se_bind_Ok in H as ([] & a3 & [= <-] & H). apply se_bind_Ok in H as ([] & a4 & [= <-] & H).
  apply se_bind_Ok in H as ([] & a5 & [= <-] & H).
  apply se_bind_Ok in H as ([] & a6 & H1 & H). apply desk_none in H1 as (d2 & _ & ->); [|done].
  cbn [a_settings a_directory set_settings set_view set_encrypted set_machine set_identity] in H.
  set (s := named _ _) in H. unfold try_else in H.
  match type of H with context [desk ?m ?x] => set (a7 := x) in H; destruct (desk m a7) as [r a8] eqn:Ed end.
  apply desk_none in Ed as (d3 & Eb & ->); [|done].
  assert (Hd : a_directory a7 = a_directory a) by done.
  destruct r as [[c t]|e'].
  - left. apply se_bind_Ok in H as ([] & a9 & Hs & H). apply se_bind_Ok in H as ([] & a10 & [= <-] & H).
    apply start_worker_run in Hs as (w' & r & Hw' & Hg & Hr & _ & Hp & Hrest & _ & _ & Hview & Hc & Hdk & _ & Hleft).
    apply build_client_ok in Eb as (key & dk & store & _ & _ & _ & _ & Hlen & Htab & Hst & _ & _ & _ & _ & _ & Hci & _);
      [|apply Ha].
    assert (Hl := refresh_live (set_screen MainScreen a9) w' Hw'). rewrite H in Hl. cbn [snd] in Hl. destruct Hl as (w2 & E2 & S2 & _ & K2).
    { assert (a_directory a9 = a_directory a ∧ a_identity a9 = Some i) as [E1 E3] by (unfold rest in Hrest; by injection Hrest).
      assert (length (store_key (cl_store c)) = 32%nat) as Hk by (rewrite <-Htab in Hst; cbn in Hst; by rewrite Hst).
      subst r. split; cbn; rewrite ?E1, ?E3, ?Hc; try done; [apply Ha|by rewrite Hci|rewrite Hview; cbn; by rewrite Hci|rewrite Hleft; apply Ha]. }
    exists w2. split_and!; [done|done|]. destruct (K2) as (I2 & _); [by rewrite Hr, Hc; rewrite <-Htab in Hst; cbn in Hst; rewrite Hst|].
    by rewrite I2, Hr, Hc.
  - right. destruct (isa_Exception e'); [|done]. apply se_bind_Ok in H as ([] & a9 & [= <-] & [= <-]).
    destruct Ha. by split.
Qed.

Lemma start_client_Inv wt i a a' : closed a → _start_client wt i a = (Ok tt, a') → Inv a'.
Proof using L. intros Ha H. destruct (start_client_inv wt i a a' Ha H) as [(w & ? & ? & _)|]; [right; by exists w|by left]. Qed.

(** What a handler of the screens without a client leaves. *)
Definition settles (m : SE (App K N) unit) : Prop := ∀ a a', closed a → m a = (Ok tt, a') → Inv a'.
Lemma keeps_settles (m : SE (App K N) unit) : ok m → settles m.
Proof using. intros H a a' Ha E. left. specialize (H a Ha). by rewrite E in H. Qed.
Lemma bind_settles {A} (m : SE (App K N) A) f : ok m → (∀ x, settles (f x)) → settles (se_bind m f).
Proof using. intros Hm Hf a a' Ha H. apply se_bind_Ok in H as (x & a1 & E & H). apply (Hf x a1); [|done]. specialize (Hm a Ha). by rewrite E in Hm. Qed.
Lemma try_settles {A} p (m : SE (App K N) A) h k :
  ok m → (∀ e, settles (h e)) → (∀ x, settles (k x)) → settles (try_else p m h k).
Proof using.
  intros Hm Hh Hk a a' Ha H. specialize (Hm a Ha). unfold try_else in H. destruct (m a) as [[x|e] a1]; cbn in Hm.
  - by apply (Hk x a1).
  - destruct (p e); [by apply (Hh e a1)|done].
Qed.
Lemma goto_settles x : x ≠ MainScreen → settles (goto_screen x).
Proof using. intros Hx. apply keeps_settles, upd_idle. intros a []. split; try done; exact Hx. Qed.
Lemma start_settles wt i : settles (_start_client wt i).
Proof using L. intros a a'. apply start_client_Inv. Qed.
Lemma teardown_closed wt a :
  closed a → _teardown_client wt a = (Ok tt, set_view (λ _, reset) (set_contact None (set_identity None a))).
Proof using. intros Ha. unfold _teardown_client. rewrite se_get_run, (cl_worker _ Ha). done. Qed.

Ltac settling :=
  repeat first
    [ match goal with
      | |- settles (_start_client _ _) => apply start_settles
      | |- settles (goto_screen _) => apply goto_settles; discriminate
      | |- settles (se_bind _ _) => apply bind_settles; [solve [idling]|intros ?]
      | |- settles (try_else _ _ _ _) => apply try_settles; [solve [idling]|intros ?|intros ?]
      | |- settles (match ?x with _ => _ end) => destruct x
      end
    | apply keeps_settles; solve [idling] ].

Lemma bootstrap_settles wt : settles (_bootstrap wt).
Proof using L. unfold _bootstrap. settling. Qed.
Lemma closed_handler wt ev a :
  closed a → enabled ev a = true → ev ≠ Lock → settles (handler words_of mime_of text_of wt ev).
Proof using L.
  intros Ha He Hl. pose proof (cl_screen _ Ha) as Hs. unfold enabled in He.
  destruct ev; try done; try (exfalso; by destruct (a_screen a)); cbn [handler].
  - settling.
  - settling.
  - settling.
  - unfold _submit, _on_create. settling.
  - settling.
  - unfold _on_seed_confirmed. settling.
  - unfold _on_recover. settling.
  - unfold _on_unlock. settling.
  - unfold switch_identity. destruct yes; [|settling]. intros b b' Hb H. apply se_bind_Ok in H as ([] & b1 & H1 & H).
    rewrite teardown_closed in H1 by done. injection H1 as <-.
    assert (closed (set_view (λ _, reset) (set_contact None (set_identity (K := K) (N := N) None b)))) as Hc by (by destruct Hb; split).
    revert Hc H. generalize (set_view (λ _, reset) (set_contact None (set_identity None b))). intros c Hc.
    assert (settles (do! _ := upd (set_pending None "") in goto_screen WelcomeScreen)) as Hx by settling. by apply Hx.
  - apply keeps_settles, deliver_idle.
  - apply keeps_settles. intros b Hb. unfold thread. by rewrite (cl_worker _ Hb).
  - apply keeps_settles, straggle_idle.
  - apply keeps_settles. intros b Hb. unfold thread. by rewrite (cl_worker _ Hb).
Qed.
End closed.

(** ** Reading an identity file again *)

Section vaults.
Context {C : Crypto} {L : CryptoLaws C} {K N : Type} {R : Keyring K}.
Lemma indent2_raw_loads dict : dict ≠ [] → wf_dict dict → json_loads_raw (dumps fmt_indent2 (JObj dict)) = Ok (canon true (JObj dict)).
Proof using.
  intros Hne Hd. pose proof (indent2_bytes_loads (JObj dict) Hd) as E. unfold json_loads_bytes, decode_utf8 in E.
  unfold dumps in *. rewrite dumps_at_obj in * by done.
  set (data := _ ++ _) in *. assert (∃ r, data = "{"%char :: byte_of 10 :: r) as [r Hr] by (by eexists).
  clearbody data. subst data. unfold json_loads_raw. cbn -[utf8_ok json_loads to_str] in *.
  destruct (utf8_ok _); [exact E|done].
Qed.
Lemma vault_says i p salt nonce data path (d : Desk K N) :
  Identity.wf_identity i → Identity.to_vault i p salt nonce = Ok data → path ∉ blocked d → files d !! path = Some data →
  identity_is_encrypted path d = (Ok (negb (String.eqb p "")), d).
Proof using L.
  intros Hi Hv Hb Hf. unfold Identity.to_vault in Hv.
  destruct (Identity.vault_payload i p salt nonce) as [dict|] eqn:E; [|done]. injection Hv as <-.
  pose proof (Identity.vault_payload_wf _ _ _ _ _ Hi E) as Hwf.
  assert (NoDup (map fst dict) ∧ dict ≠ [] ∧ dget "encrypted" dict = Some (JBool (negb (String.eqb p "")))) as (Hn & Hne & Hg).
  { split; [by apply wf_dict_elems in Hwf as [? _]|]. unfold Identity.vault_payload in E.
    destruct (String.eqb p ""); cbn [negb] in E; [|destruct (Identity.vault_key _ _ _); [|done]]; by injection E as <-. }
  unfold identity_is_encrypted, se_catch, se_bind. rewrite (read_file_run _ _ _ Hb Hf), indent2_raw_loads by done.
  rewrite canon_obj. unfold se_lift, se_ret, jget. by rewrite dget_canon, Hg by done.
Qed.
End vaults.

(** ** Unlocking *)

(** The files a start needs can be read and written. *)
Definition at_hand {K N} (directory : string) (d : Desk K N) : Prop :=
  directory ∉ blocked d ∧ dirname (store_path directory) ∉ blocked d ∧
  identity_path directory "identity" ∉ blocked d ∧ path_join directory SETTINGS_NAME ∉ blocked d.
Lemma path_join_inj x y z : path_join x y = path_join x z → y = z.
Proof.
  unfold path_join. destruct (_ || _); intros H; [|apply (inj (String.app x)) in H; by injection H].
  by apply (inj (String.app x)) in H.
Qed.

Section unlocking.
Context {C : Crypto} {L : CryptoLaws C} {Zl : Zlib} {B : Bip39} {K N : Type} {R : Keyring K} {RL : KeyringLaws K} {P : Pool N} {T : Transport.Net N}.
Implicit Types (w : Thread K N) (a : App K N) (d : Desk K N).

Lemma desk_run {A} (m : SE (Desk K N) A) a x d :
  a_worker a = None → m (a_desk a) = (Ok x, d) → desk m a = (Ok x, set_machine d None a).
Proof using. intros Hw E. unfold desk. by rewrite Hw, E. Qed.
Lemma queued_queue t w : Worker.w_queue (queued t w) = Worker.w_queue w ++ [t].
Proof using. done. Qed.
Lemma label_texts (i : Identity.Identity) :
  Identity.wf_identity i →
  is_Some (ok_or_none (sql_text (Identity.label i))) ∧
  is_Some (ok_or_none (client_name (Identity.label i) (Identity.label i) (Identity.identity_id i))).
Proof using.
  intros (_ & _ & [-> | (s & -> & _)]); [split; by eexists|]. split; [by eexists|]. unfold client_name, jor. cbn.
  destruct (String.eqb s ""); cbn; by eexists.
Qed.
Lemma typed_transport s : typed s → ∃ t, build_transport s = Ok t.
Proof using.
  intros Hs. unfold build_transport. destruct (ty_proxy_url s Hs) as (p' & Hp & _). rewrite Hp. destruct (_ && _); by eexists.
Qed.
Lemma typed_worker (r : Running K N) s : whole (poll_seconds s) → whole (discovery_interval s) →
  ∃ w, Worker.new_worker (R := result) (G := signal) r (poll_seconds s) (auto_discover s) (discovery_interval s) = Ok w ∧ Worker.w_queue w = [].
Proof using.
  unfold Worker.new_worker. intros [n ->] [k ->]. by eexists.
Qed.
(** A start without a running client, up to what the main screen shows. *)
Lemma start_client_run wt a i e d2 c t d3 :
  let directory := a_directory a in
  let s := named (jor (Identity.label i) (JStr "")) (a_settings a) in
  a_worker a = None → typed (a_settings a) →
  identity_is_encrypted (identity_path directory "identity") (a_desk a) = (Ok e, a_desk a) →
  save s directory (a_desk a) = (Ok tt, d2) → build_client i s directory d2 = (Ok (c, t), d3) →
  ∃ a2 w2, _start_client wt i a = refresh a2 ∧ a_screen a2 = MainScreen ∧ a_worker a2 = Some w2 ∧
    Worker.w_queue w2 = [provision_task] ∧ r_client (Worker.w_client w2) = c ∧ r_transport (Worker.w_client w2) = t ∧
    a_contact a2 = a_contact a.
Proof using.
  intros directory s Hw Hs He Hsave Hb. unfold _start_client.
  rewrite (se_bind_run (upd _) _ _ _ _ eq_refl), se_get_run. set (a1 := set_identity (Some i) a).
  assert (a_worker a1 = None ∧ a_desk a1 = a_desk a ∧ identity_file a1 = identity_path directory "identity") as (W1 & D1 & F1) by done.
  rewrite (se_bind_run _ _ _ _ _ (desk_run (identity_is_encrypted (identity_file a1)) a1 e (a_desk a) W1 ltac:(by rewrite F1, D1))).
  rewrite (se_bind_run (upd _) _ _ _ _ eq_refl), (se_bind_run (upd _) _ _ _ _ eq_refl).
  change (a_settings a1) with (a_settings a). change (a_directory a1) with directory. cbv zeta. fold s.
  rewrite (se_bind_run (upd _) _ _ _ _ eq_refl).
  match goal with |- context [se_bind (desk (save s directory)) _ ?x] => set (a2 := x) end.
  rewrite (se_bind_run _ _ _ _ _ (desk_run (save s directory) a2 tt d2 eq_refl Hsave)).
  unfold try_else. rewrite (desk_run _ (set_machine d2 None a2) _ d3 eq_refl Hb). set (a3 := set_machine d3 None _).
  destruct (typed_worker {| r_client := c; r_transport := t; r_path := store_path directory; r_desk := d3 |} s) as (w & Ew & Eq); [apply Hs..|].
  assert (_start_worker wt c t a3 = (Ok tt, set_machine d3 (Some (queued provision_task w)) a3)) as E1.
  { unfold _start_worker. rewrite se_get_run. change (a_worker a3) with (@None (Thread K N)). cbv iota zeta.
    rewrite (se_bind_run (se_ret _) _ _ _ _ eq_refl). change (a_settings a3) with s. change (a_directory a3) with directory.
    change (a_desk a3) with d3. by rewrite Ew. }
  rewrite (se_bind_run _ _ _ _ _ E1), (se_bind_run (goto_screen _) _ _ _ _ eq_refl).
  apply new_worker_good in Ew as [Hg Hr].
  do 2 eexists. split; [reflexivity|]. cbn [a_worker set_screen set_machine].
  split; [done|]. split; [done|]. rewrite queued_client, Hr. split; [by rewrite queued_queue, Eq|done].
Qed.

Lemma unlock_run wt a i p salt nonce data d0 key d1 st urls :
  closed a → Identity.wf_identity i → (String.eqb p "" = false → length nonce = 12%nat) →
  Identity.to_vault i p salt nonce = Ok data → files (a_desk a) !! identity_file a = Some data →
  at_hand (a_directory a) (a_desk a) → typed (a_settings a) →
  relay_strings (relays (a_settings a)) = Ok urls → normalize_relay_urls urls ≠ [] →
  resolve_store_key (a_directory a) (Identity.identity_id i) "" d0 = (Ok key, d1) →
  same_key_source (path_join (a_directory a) LOCAL_KEY_NAME) d1 (a_desk a) → length key = 32%nat →
  databases (a_desk a) !! store_path (a_directory a) = Some st → store_key st = key →
  ∃ a2 w2, _on_unlock wt p a = refresh a2 ∧ a_screen a2 = MainScreen ∧ a_worker a2 = Some w2 ∧
    Worker.w_queue w2 = [provision_task] ∧ a_contact a2 = None ∧
    let c2 := r_client (Worker.w_client w2) in
    cl_identity c2 = i ∧ same_tables st (cl_store c2) ∧ store_key (cl_store c2) = key ∧
    cl_relays c2 = normalize_relay_urls urls.
Proof using L RL.
  intros Ha Hi Hn Hv Hf (B1 & B2 & B3 & B4) Hs Hu Hne Hk Hsame Hlen Hdb Hst.
  set (directory := a_directory a) in *. set (m := a_desk a) in *.
  unfold _on_unlock. rewrite se_get_run. unfold try_else.
  assert (load_identity (identity_file a) p m = (Ok i, m)) as El.
  { unfold load_identity. rewrite (se_bind_run _ _ _ data m) by (by apply read_file_run).
    unfold se_lift. by rewrite (vault_reads i p salt nonce). }
  rewrite (desk_run _ a i m (cl_worker _ Ha) El).
  set (s := named (jor (Identity.label i) (JStr "")) (a_settings a)).
  assert (directory ≠ ""%string) as Hd by apply Ha.
  pose proof (save_run s directory m Hd B1 B4) as Hsave. set (d2 := set_files _ m) in Hsave.
  assert (same_key_source (path_join directory LOCAL_KEY_NAME) d1 d2) as Hsame2.
  { destruct Hsame as (F & V). split; [|done]. rewrite <-F. cbn. apply lookup_insert_ne. by intros ?%path_join_inj. }
  destruct (resolve_again directory (Identity.identity_id i) "" d0 key d1 d2 Hk Hsame2) as (d3 & Hk2 & Hm & Hdb2).
  destruct (typed_transport _ Hs) as [t Ht]. destruct (label_texts i Hi) as [Hl1 Hl2].
  destruct (start_again i s directory d2 d3 key st urls t) as (c & d4 & Hb & Hc); try done;
    [by destruct Hm as (_ & -> & _)|by rewrite Hdb2|].
  destruct (start_client_run wt (set_machine m None a) i (negb (String.eqb p "")) d2 c t d4)
    as (a2 & w2 & E & Hm2 & Hw2 & Hq & Hcl & _ & Hct); try done.
  { by apply (vault_says i p salt nonce data). }
  exists a2, w2. split; [done|]. rewrite Hcl. destruct_and! Hc. split_and!; try done. rewrite Hct. apply Ha.
Qed.
End unlocking.

(** ** The theorems *)

Section theorems.
Context {C : Crypto} {L : CryptoLaws C} {Zl : Zlib} {B : Bip39} {K N : Type} {R : Keyring K} {P : Pool N} {T : Transport.Net N}.
Variables (words_of : bytes → string) (mime_of : string → string) (text_of : exn → string).
Implicit Types (w : Thread K N) (a : App K N) (d : Desk K N).
Abbreviation app_step := (step words_of mime_of text_of).
Abbreviation app_reachable := (reachable words_of mime_of text_of).

(** What the end of a session leaves. *)
Definition after_lock wt w a a' : Prop :=
  let w' := (halt wt w).1 in
  a_desk a' = checkpoint (Worker.w_client w') ∧ a_worker a' = None ∧ a_identity a' = None ∧ a_contact a' = None ∧
  a_view a' = reset ∧ a_screen a' = UnlockScreen ∧ a_unlock_enabled a' = a_encrypted a ∧
  a_directory a' = a_directory a ∧ a_settings a' = a_settings a ∧ a_left a' = a_left a ++ overdue w' ∧
  (a_pending a', a_pending_passphrase a', a_words a', a_encrypted a') = (a_pending a, a_pending_passphrase a, a_words a, a_encrypted a).
Lemma lock_run wt w a : a_worker a = Some w → ∃ a', lock wt a = (Ok tt, a') ∧ after_lock wt w a a'.
Proof using.
  intros Hw. unfold lock, when_client. rewrite se_get_run, Hw. unfold _teardown_client, after_lock.
  unfold se_bind, se_get, post, leave, upd, se_modify, goto_screen, upd. rewrite Hw. destruct (halt wt w) as [w' out].
  eexists. split; [reflexivity|]. by split_and!.
Qed.
Lemma lock_closed wt w a a' : session a w → after_lock wt w a a' → closed a'.
Proof using L.
  intros Hs (_ & H1 & _ & H2 & H3 & H4 & _ & H5 & _ & H6 & _). split; [done|by rewrite H4|done|by rewrite H3|..].
  - rewrite H5. apply Hs.
  - rewrite H5, H6. by apply overdue_ok; apply Hs.
Qed.
Lemma step_Inv wt ev a a' : Inv a → app_step wt ev a = Ok a' → Inv a'.
Proof using L.
  intros Ha H. destruct (decide (a_worker a = None)) as [Hn|Hsome].
  - destruct Ha as [Ha|(w & Hw & _)]; [|by rewrite Hn in Hw]. unfold step in H.
    destruct (enabled ev a) eqn:He; [|injection H as <-; by left].
    destruct (handler words_of mime_of text_of wt ev a) as [[[]|e] a1] eqn:Eh; [|done]. injection H as ->.
    destruct ev; try (by eapply (closed_handler words_of mime_of text_of wt)).
    cbn [handler] in Eh. unfold lock in Eh. left. pose proof (when_client_idle
      (do! _ := _teardown_client wt in do! _ := upd (λ a, prepare (a_encrypted a) a) in goto_screen UnlockScreen) a Ha) as Hx.
    by rewrite Eh in Hx.
  - destruct Ha as [Ha|(w & Hw & Hs)]; [by rewrite (cl_worker _ Ha) in Hsome|].
    assert (ev = Lock ∨ ev ≠ Lock) as [->|Hne] by (destruct ev; (by left) || (by right)).
    2:{ destruct (main_lively _ _ _ _ _ _ _ (se_screen _ _ Hs) Hne H w Hw Hs) as (w' & Hw' & Hs' & _). right. by exists w'. }
    left. unfold step in H. cbn [enabled handler] in H.
    destruct (lock_run wt w a Hw) as (a1 & E & Hl). rewrite E in H. injection H as <-. by eapply lock_closed.
Qed.
Lemma path_join_nonempty x y : y ≠ ""%string → path_join x y ≠ ""%string.
Proof using. intros Hy. unfold path_join. destruct (_ || _); destruct x; cbn; try done. Qed.
Lemma data_dir_nonempty d x d' : data_dir d = (Ok x, d') → x ≠ ""%string.
Proof using.
  unfold data_dir, getenv, se_bind, se_get, se_ret. intros [= <- _]. destruct (environ d !! "NK_DATA_DIR"%string) as [v|]; cbn.
  - destruct (String.eqb_spec v ""); [by apply path_join_nonempty|done].
  - by apply path_join_nonempty.
Qed.
Lemma new_app_Inv wt d a : new_app wt d = Ok a → Inv a.
Proof using L.
  unfold new_app. intros H.
  destruct ((do! s := load "" in do! dir := data_dir in se_ret (s, dir)) d) as [[[s dir]|] d'] eqn:E; [|done].
  cbn [res_bind] in H. destruct (_bootstrap wt (fresh_app d' s dir)) as [[[]|] a'] eqn:Eb; [|done]. injection H as ->.
  apply se_bind_Ok in E as (s' & d1 & _ & E). apply se_bind_Ok in E as (dir' & d2 & Hd%data_dir_nonempty & [= <- <- <-]).
  revert Eb. assert (closed (fresh_app d2 s' dir')) as Hc by (by split). revert Hc. generalize (fresh_app d2 s' dir').
  intros b Hb Hx. by eapply bootstrap_settles.
Qed.
Lemma reachable_steps d a evs a2 : app_reachable d a → steps words_of mime_of text_of evs a = Ok a2 → app_reachable d a2.
Proof using.
  revert a. induction evs as [|[wt ev] evs IH]; intros a Ha H; cbn [steps] in H; [by injection H as <-|].
  destruct (app_step wt ev a) as [a1|] eqn:E; [|done]. eapply IH; [|exact H]. by eapply reachable_step.
Qed.
Lemma reachable_Inv d a : app_reachable d a → Inv a.
Proof using L. induction 1 as [wt a H|wt ev a a' _ IH H]; [by eapply new_app_Inv|by eapply step_Inv]. Qed.
Lemma reachable_session d a w : app_reachable d a → a_worker a = Some w → session a w.
Proof using L. intros [Ha|(w' & Hw' & Hs)]%reachable_Inv Hw; [by rewrite (cl_worker _ Ha) in Hw|]. by simplify_eq. Qed.

(** C29: the window and the worker agree.  In every state of the program that has not
    crashed: the main screen is shown exactly when a client runs; that client is the
    application's identity, the identity shown, and works on the database of the data
    directory; its worker was not told to stop; and when no client runs, no contact is
    selected and the main screen holds no contact, no message, no attachment and no draft. *)
Theorem window_and_worker d a :
  app_reachable d a →
  (a_screen a = MainScreen ↔ a_worker a ≠ None) ∧
  (∀ w, a_worker a = Some w →
     a_identity a = Some (cl_identity (r_client (Worker.w_client w))) ∧
     v_identity (a_view a) = Identity.identity_id (cl_identity (r_client (Worker.w_client w))) ∧
     r_path (Worker.w_client w) = store_path (a_directory a) ∧ Worker.w_stop w = false) ∧
  (a_worker a = None →
     a_contact a = None ∧ v_contacts (a_view a) = [] ∧ v_row (a_view a) = None ∧ v_header (a_view a) = no_contact ∧
     v_header_id (a_view a) = ""%string ∧ v_chat (a_view a) = [] ∧ v_attachments (a_view a) = [] ∧
     v_input (a_view a) = ""%string).
Proof using L.
  intros Ha. split; [|split].
  - apply reachable_Inv in Ha as [Ha|(w & Hw & Hs)].
    + split; [by intros H%(cl_screen _ Ha)|by intros []; apply Ha].
    + rewrite Hw. split; [done|]. intros _. apply Hs.
  - intros w Hw. pose proof (reachable_session _ _ _ Ha Hw) as []. split_and!; try done. by apply gt_stop.
  - intros Hw. apply reachable_Inv in Ha as [[_ _ Hc Hv _]|(w & Hw' & _)]; [|by rewrite Hw in Hw'].
    split; [done|]. unfold blank in Hv. destruct (a_view a). cbn in *. by injection Hv as -> -> -> -> -> -> ->.
Qed.

(** The step of the worker that runs a [send_text] task. *)
Lemma send_text_step now contact text w :
  Worker.work (M := message) now w = Some (Worker.run_task (send_text_task contact text) (Worker.set_queue [] w)) →
  let '(sent, c) := send_text contact text (r_client (Worker.w_client w)) in
  ∃ w' out, Worker.work now w = Some (w', out) ∧ r_client (Worker.w_client w') = c ∧ Worker.w_queue w' = [] ∧
    match sent with
    | Ok id => out = [Worker.task_finished "send_text" (Some (Text id))]
    | Err e => if isa_Exception e then out = [Worker.error_occurred e; Worker.task_finished "send_text" None]
               else Worker.w_at w' = Worker.Dead e
    end.
Proof using.
  unfold Worker.run_task, Worker.calling, Worker.caught. cbn [Worker.t_function send_text_task command Worker.w_client Worker.set_queue].
  unfold se_bind, se_ret, on_client. destruct (send_text contact text (r_client (Worker.w_client w))) as [[id|e] c]; intros H.
  - do 2 eexists. split; [exact H|]. by split_and!.
  - destruct (isa_Exception e); do 2 eexists; (split; [exact H|]); by split_and!.
Qed.

(** C25: locking ends the session in the window and loses nothing of it, however far the
    worker gets in the three seconds the window waits for it.  Locking never fails; the client,
    the identity, the selected contact and everything on the main screen are dropped from the
    window, and the database holds the client's store as the thread left it, which is the
    running client's or a later one of the same account.  The thread is over when it got
    [length queue + 9] steps done.  When it is not over by then it is left behind, with the
    client and the keys it holds, and is over at most [length queue + 9] steps of its own later:
    only then is nothing decrypted in memory, against what the comment on [lock] says.  What was
    typed or shown while creating an identity is not part of the session: the pending
    identity, its passphrase and the words on the seed phrase screen stay. *)
Theorem lock_ends_session wt d a w :
  app_reachable d a → a_worker a = Some w →
  let last := (halt wt w).1 in
  ∃ a', app_step wt Lock a = Ok a' ∧
    a_screen a' = UnlockScreen ∧ a_worker a' = None ∧ a_identity a' = None ∧ a_contact a' = None ∧ a_view a' = reset ∧
    kept (r_client (Worker.w_client w)) (r_client (Worker.w_client last)) ∧
    databases (a_desk a') !! store_path (a_directory a) = Some (cl_store (r_client (Worker.w_client last))) ∧
    a_left a' = a_left a ++ (if is_over last then [] else [last]) ∧
    ((length (Worker.w_queue w) + 9 ≤ within wt)%nat → is_over last = true) ∧
    (∀ clk, ∃ n w', (n ≤ length (Worker.w_queue w) + 9)%nat ∧ Worker.alone clk n last = Some w' ∧ is_over w' = true) ∧
    (a_pending a', a_pending_passphrase a', a_words a') = (a_pending a, a_pending_passphrase a, a_words a).
Proof using L.
  intros Ha Hw last. pose proof (reachable_session _ _ _ Ha Hw) as Hs. destruct (lock_run wt w a Hw) as (a' & E & Hl).
  exists a'. unfold step. cbn [enabled handler]. rewrite E. split; [done|].
  destruct Hl as (H1 & H2 & H3 & H4 & H5 & H6 & _ & _ & _ & H7 & H8). pose proof (se_thread _ _ Hs) as Hg.
  destruct (halt_ok wt w Hg) as [[Hp Hk] _].
  split_and!; try done; [|by apply halt_over|by intros clk; apply halt_ends|congruence].
  rewrite H1. fold last. rewrite <-(se_path _ _ Hs), <-Hp. apply lookup_insert_eq.
Qed.

(** C24: whatever happens in a session, the client stays the account's.  For every sequence of
    clicks, dialogs, signals and steps of the worker and of threads left behind, short of
    locking and of an exception that leaves a handler and so ends the program, new settings
    included: the session goes on, its client has the same identity, its tables stay well
    formed with no cursor moved back, and the device list and keys it remembers are the
    account's own. *)
Theorem session_keeps_account evs d a w a' :
  app_reachable d a → a_worker a = Some w → Forall (λ e, e.2 ≠ Lock) evs →
  steps words_of mime_of text_of evs a = Ok a' →
  ∃ w', a_worker a' = Some w' ∧ a_screen a' = MainScreen ∧
    let c := r_client (Worker.w_client w) in let c' := r_client (Worker.w_client w') in
    cl_identity c' = cl_identity c ∧ as_before (cl_store c) (cl_store c') ∧ length (store_key (cl_store c')) = 32%nat ∧
    (Identity.wf_identity (cl_identity c) → caches_ok c → caches_ok c').
Proof using L.
  intros Ha Hw Hev H. pose proof (reachable_session _ _ _ Ha Hw) as Hs. clear Ha.
  assert (live a a') as Hl.
  { revert a w Hw Hs H. induction Hev as [|[wt ev] evs Hne _ IH]; intros a w Hw Hs H; cbn [steps] in H; [by injection H as <-|].
    destruct (app_step wt ev a) as [a1|] eqn:E; [|done]. cbn [res_bind] in H.
    pose proof (main_lively _ _ _ _ _ _ _ (se_screen _ _ Hs) Hne E) as H1. etrans; [exact H1|].
    destruct (H1 w Hw Hs) as (w1 & Hw1 & Hs1 & _). by eapply IH. }
  destruct (Hl w Hw Hs) as (w' & Hw' & Hs' & _ & Hk). exists w'. destruct (Hk (se_key _ _ Hs)) as (H1 & H2 & H3 & H4).
  split_and!; try done. apply Hs'.
Qed.

(** C28: a typed text is sent.  The button does nothing without a contact or with a blank
    text; otherwise it empties the field and queues the text, stripped, for the selected
    contact, behind everything queued before.  Then the worker, left to itself, runs what was
    queued before in its order, and at most [length queue + 7] steps later, unless something
    that is no [Exception] was raised on the way, comes to the text: its next step is
    [send_text] of the client, to this contact with this text, exactly once, and reports the
    message's id, or the error it ended with. *)
Theorem typed_text_is_sent d a w :
  app_reachable d a → a_worker a = Some w →
  let text := py_strip (v_input (a_view a)) in
  (selected a = None ∨ text = ""%string → send_text_clicked a = (Ok tt, a)) ∧
  ∀ contact, selected a = Some contact → text ≠ ""%string →
    let w1 := queued (send_text_task contact text) w in
    ∃ a1, send_text_clicked a = refresh a1 ∧ v_input (a_view a1) = ""%string ∧ a_worker a1 = Some w1 ∧
      Worker.w_client w1 = Worker.w_client w ∧
      Worker.w_queue w1 = Worker.w_queue w ++ [send_text_task contact text] ∧
      ∀ clk, ∃ n w2 out, (n ≤ length (Worker.w_queue w) + 7)%nat ∧ Worker.run (Worker.ticks clk n) w1 = Some (w2, out) ∧
        (Worker.is_dead (Worker.w_at w2) = true ∨
         (Worker.finished_names out = map Worker.t_name (Worker.w_queue w) ∧
          ∀ now, let '(sent, c) := send_text contact text (r_client (Worker.w_client w2)) in
            ∃ w3 out3, Worker.work now w2 = Some (w3, out3) ∧ r_client (Worker.w_client w3) = c ∧ Worker.w_queue w3 = [] ∧
              match sent with
              | Ok id => out3 = [Worker.task_finished "send_text" (Some (Text id))]
              | Err e => if isa_Exception e then out3 = [Worker.error_occurred e; Worker.task_finished "send_text" None]
                         else Worker.w_at w3 = Worker.Dead e
              end)).
Proof using L.
  intros Ha Hw text. pose proof (reachable_session _ _ _ Ha Hw) as Hs. split.
  - unfold send_text_clicked. rewrite se_get_run. fold text. intros [->| ->]; [done|]. destruct (selected a); [|done]. by rewrite Hw.
  - intros contact Hc Ht. unfold send_text_clicked. rewrite se_get_run. fold text. rewrite Hc, Hw.
    rewrite (proj2 (String.eqb_neq _ _) Ht), (se_bind_run (upd _) _ _ _ _ eq_refl), (se_bind_run (submit _) _ _ _ _ eq_refl).
    set (t := send_text_task contact text). cbv zeta.
    eexists. split; [reflexivity|]. cbn [a_worker set_machine set_view]. rewrite Hw. cbn [fmap option_fmap option_map].
    split; [done|]. split; [reflexivity|]. rewrite queued_client, queued_queue. split; [done|]. split; [done|]. intros clk.
    assert (good_thread (queued t w)) as [H1 H2 H3 _] by (apply queued_good; [apply send_text_good|apply Hs]).
    destruct (Worker.task_soon (queued t w) (Worker.w_queue w) t clk) as (n & w2 & out & Hn & E & Hx);
      [done|apply queued_queue|]. exists n, w2, out. split; [done|]. split; [exact E|].
    destruct Hx as [Hx|(Hq & Hf & Hx)]; [by left|right]. split; [exact Hf|]. intros now. specialize (Hx now).
    by apply send_text_step.
Qed.
End theorems.

Section reopening.
Context {C : Crypto} {L : CryptoLaws C} {Zl : Zlib} {B : Bip39} {K N : Type} {R : Keyring K} {RL : KeyringLaws K} {P : Pool N} {T : Transport.Net N}.
Variables (words_of : bytes → string) (mime_of : string → string) (text_of : exn → string).
Implicit Types (w : Thread K N) (a : App K N) (d : Desk K N).

(** C23: unlocking brings the session back.  Lock at any moment, with the identity file
    holding the account's vault under passphrase [p], typed settings with a usable relay, and
    the storage key still where it once came from: entering [p] reaches the main screen
    with the same identity, the same storage key, the settings' relays, and exactly the
    tables the last session left (but for the identity's label row), and what the screen
    shows is read from them. *)
Theorem unlock_reopens wt wt' d a w p salt nonce data d0 d1 urls :
  reachable words_of mime_of text_of d a → a_worker a = Some w →
  let last := Worker.w_client (halt wt w).1 in
  let i := cl_identity (r_client (Worker.w_client w)) in
  let key := store_key (cl_store (r_client last)) in
  Identity.wf_identity i → (String.eqb p "" = false → length nonce = 12%nat) →
  Identity.to_vault i p salt nonce = Ok data → files (r_desk last) !! identity_file a = Some data →
  at_hand (a_directory a) (r_desk last) → typed (a_settings a) →
  relay_strings (relays (a_settings a)) = Ok urls → normalize_relay_urls urls ≠ [] →
  resolve_store_key (a_directory a) (Identity.identity_id i) "" d0 = (Ok key, d1) →
  same_key_source (path_join (a_directory a) LOCAL_KEY_NAME) d1 (r_desk last) →
  ∃ a1 a2 w2, lock wt a = (Ok tt, a1) ∧ a_worker a1 = None ∧
    _on_unlock wt' p a1 = refresh a2 ∧ a_screen a2 = MainScreen ∧ a_worker a2 = Some w2 ∧
    Worker.w_queue w2 = [provision_task] ∧
    let c2 := r_client (Worker.w_client w2) in
    cl_identity c2 = i ∧ same_tables (cl_store (r_client last)) (cl_store c2) ∧ store_key (cl_store c2) = key ∧
    cl_relays c2 = normalize_relay_urls urls.
Proof using L RL.
  intros Ha Hw last i key Hi Hn Hv Hf Hh Hs Hu Hne Hk Hsame.
  pose proof (reachable_session _ _ _ _ _ _ Ha Hw) as Hse. destruct (halt_ok wt w (se_thread _ _ Hse)) as [[Hp Hkept] _].
  fold last in Hp, Hkept. destruct (Hkept (se_key _ _ Hse)) as (_ & Hlen & _).
  destruct (lock_run wt w a Hw) as (a1 & E & Hl). pose proof (lock_closed wt w a a1 Hse Hl) as Hc.
  destruct Hl as (H1 & H2 & _ & _ & _ & _ & _ & H3 & H4 & _). fold last in H1.
  destruct (unlock_run wt' a1 i p salt nonce data d0 key d1 (cl_store (r_client last)) urls) as (a2 & w2 & E2 & Hm & Hw2 & Hq & _ & Hx);
    rewrite ?H1, ?H3, ?H4; try done.
  - unfold identity_file. by rewrite H3.
  - cbn. rewrite <-(se_path _ _ Hse), <-Hp. apply lookup_insert_eq.
  - exists a1, a2, w2. by split_and!.
Qed.
End reopening.

(** ** A concrete window *)

Module Window.
Import Toy Machine.
#[export] Instance relay_pool : Pool Sample.relay := Sample.relay_pool.
#[export] Instance quiet : Transport.Net Sample.relay := {|
  Transport.session_request q := λ n, (Err RequestsConnectionError, n);
  Transport.time_sleep _ n := n
|}.
Definition words_of (entropy : bytes) : string := "word word".
Definition mime_of (name : string) : string := "text/plain".
Definition text_of (e : exn) : string := "failed".
(** The thread is over in three seconds, or gets nothing done in them. *)
Definition at_zero (i : nat) : Z := 0.
Definition in_time : Wait := {| readings := at_zero; within := 30 |}.
Definition no_time : Wait := {| readings := at_zero; within := 0 |}.

(** Ann's machine knows a contact of hers from before. *)
Definition ann : Identity.Identity :=
  ok_or (Sample.owner 3) (Identity.from_mnemonic "word list" "" (JStr "ann")).
Definition known : LocalStore := set_contacts
  [{| cr_identity := Identity.identity_id ann; cr_id := "friend"; cr_nickname := Some "Fred"%string; cr_isign := []; cr_idh := [];
      cr_bundle := Some "{}"%string; cr_inbox := "{}"; cr_relays := "[]"; cr_session := None; cr_verified := false; cr_created := 1 |}] sample_store.
Definition ann_machine : Desk ring_map Sample.relay :=
  set_databases {["/home/ann/.noknowledge/local.db"%string := known]} (machine Sample.empty_relay headless).

Definition booted : App ring_map Sample.relay :=
  ok_or (fresh_app ann_machine proxied_settings "/h") (new_app in_time ann_machine).
(** A thread with nothing to do. *)
Definition no_thread : Thread ring_map Sample.relay :=
  {| Worker.w_client := {| r_client := Sample.new_client 3 sample_store Sample.empty_relay;
                           r_transport := Transport.new_transport 0 0 0 None false; r_path := ""; r_desk := ann_machine |};
     Worker.w_auto := false; Worker.w_interval := 60; Worker.w_queue := []; Worker.w_stop := false; Worker.w_wake := false;
     Worker.w_owed := 0; Worker.w_next := 0; Worker.w_at := Worker.Connecting |}.
Definition clicks : list (Wait * event) :=
  [(in_time, GoRecover); (in_time, Recover "word list" "ann" ""); (in_time, Select 0); (in_time, Type_ " hello ")].
Definition opened : App ring_map Sample.relay := ok_or booted (steps words_of mime_of text_of clicks booted).
Definition its_thread : Thread ring_map Sample.relay := match a_worker opened with Some w => w | None => no_thread end.
Lemma booted_reachable : reachable words_of mime_of text_of ann_machine booted.
Proof. apply (reachable_new _ _ _ _ in_time). unfold booted. apply ok_or_eq. vm_compute. reflexivity. Qed.
Lemma opened_steps : steps words_of mime_of text_of clicks booted = Ok opened.
Proof. unfold opened. apply ok_or_eq. vm_compute. reflexivity. Qed.
Lemma opened_reachable : reachable words_of mime_of text_of ann_machine opened.
Proof. eapply reachable_steps; [apply booted_reachable|apply opened_steps]. Qed.
Lemma its_thread_is : a_worker opened = Some its_thread.
Proof.
  unfold its_thread. assert (match a_worker opened with Some _ => true | None => false end = true) by (vm_compute; reflexivity).
  by destruct (a_worker opened).
Qed.

Lemma window_and_worker_witness :
  a_screen opened = MainScreen ∧ a_identity opened = Some (cl_identity (r_client (Worker.w_client its_thread))) ∧
  a_worker booted = None ∧ v_contacts (a_view booted) = [].
Proof.
  destruct (window_and_worker words_of mime_of text_of ann_machine opened opened_reachable) as (H1 & H2 & _).
  destruct (window_and_worker words_of mime_of text_of ann_machine booted booted_reachable) as (_ & _ & H3).
  split; [apply H1; rewrite its_thread_is; discriminate|]. split; [apply (H2 _ its_thread_is)|].
  assert (a_worker booted = None) as E.
  { assert (match a_worker booted with Some _ => false | None => true end = true) as E by (vm_compute; reflexivity).
    destruct (a_worker booted); [discriminate|reflexivity]. }
  split; [exact E|apply (H3 E)].
Defined.

Lemma lock_ends_session_witness :
  ∃ a', step words_of mime_of text_of in_time Lock opened = Ok a' ∧ a_screen a' = UnlockScreen ∧ a_view a' = reset ∧
        is_over (halt in_time its_thread).1 = true ∧ a_left a' = [].
Proof.
  destruct (lock_ends_session words_of mime_of text_of in_time ann_machine opened its_thread opened_reachable its_thread_is)
    as (a' & H1 & H2 & _ & _ & _ & H3 & _ & _ & H4 & H5 & _). exists a'. split; [exact H1|]. split; [exact H2|]. split; [exact H3|].
  assert (is_over (halt in_time its_thread).1 = true) as H6 by (apply H5; vm_compute; repeat constructor).
  split; [exact H6|]. rewrite H4, H6. vm_compute. reflexivity.
Defined.

(** When three seconds are not enough, the window is locked and the account is still at work: the
    thread left behind holds the identity, and goes on to run the command that was queued. *)
Definition hurried : list (Wait * event) := [(in_time, Thread_ 0); (in_time, Thread_ 0); (no_time, Lock)].
Definition hurriedly : App ring_map Sample.relay := ok_or opened (steps words_of mime_of text_of hurried opened).
Definition behind : list (Wait * event) := repeat (in_time, Straggle 0 0) 12.
Definition afterwards : App ring_map Sample.relay := ok_or opened (steps words_of mime_of text_of behind hurriedly).
Lemma lock_leaves_thread :
  steps words_of mime_of text_of hurried opened = Ok hurriedly ∧ a_screen hurriedly = UnlockScreen ∧
  map (λ w, cl_identity (r_client (Worker.w_client w))) (a_left hurriedly) = [ann] ∧
  steps words_of mime_of text_of behind hurriedly = Ok afterwards ∧ a_screen afterwards = UnlockScreen ∧
  Worker.finished_names (a_signals hurriedly) = [] ∧ Worker.finished_names (a_signals afterwards) = ["provision"%string] ∧
  map Worker.w_at (a_left afterwards) = [Worker.Finished].
Proof.
  split; [unfold hurriedly; apply ok_or_eq; vm_compute; reflexivity|].
  split; [vm_compute; reflexivity|]. split; [vm_compute; reflexivity|].
  split; [unfold afterwards; apply ok_or_eq; vm_compute; reflexivity|].
  split_and!; vm_compute; reflexivity.
Qed.

Definition more_clicks : list (Wait * event) := [(in_time, SendText); (in_time, Thread_ 0); (in_time, Thread_ 0); (in_time, Thread_ 0)].
Definition later : App ring_map Sample.relay := ok_or opened (steps words_of mime_of text_of more_clicks opened).
Lemma session_keeps_account_witness :
  ∃ w', a_worker later = Some w' ∧ cl_identity (r_client (Worker.w_client w')) = cl_identity (r_client (Worker.w_client its_thread)).
Proof.
  destruct (session_keeps_account words_of mime_of text_of more_clicks ann_machine opened its_thread later) as (w' & H1 & _ & H2 & _).
  - exact opened_reachable.
  - exact its_thread_is.
  - repeat constructor; discriminate.
  - unfold later. apply ok_or_eq. vm_compute. reflexivity.
  - exists w'. split; [exact H1|exact H2].
Defined.

(** The text is queued behind the commands of before; none of them ends the thread. *)
Definition texting : Thread ring_map Sample.relay := queued (send_text_task "friend" "hello") its_thread.
Definition alive (n : nat) : bool :=
  match Worker.run (Worker.ticks at_zero n) texting with Some (w, _) => negb (Worker.is_dead (Worker.w_at w)) | None => true end.
Lemma typed_text_is_sent_witness :
  ∃ a1, send_text_clicked opened = refresh a1 ∧ v_input (a_view a1) = ""%string ∧ a_worker a1 = Some texting ∧
    ∃ n w2 out, (n ≤ 8)%nat ∧ Worker.run (Worker.ticks at_zero n) texting = Some (w2, out) ∧
      Worker.finished_names out = ["provision"%string] ∧ is_Some (Worker.work (M := message) 0 w2).
Proof.
  destruct (typed_text_is_sent words_of mime_of text_of ann_machine opened its_thread opened_reachable its_thread_is) as [_ H].
  assert (py_strip (v_input (a_view opened)) = "hello"%string) as E by (vm_compute; reflexivity).
  destruct (H "friend"%string) as (a1 & H1 & H2 & H3 & _ & _ & H5); [vm_compute; reflexivity|by rewrite E|].
  rewrite E in H3, H5. fold texting in H3, H5. exists a1. split; [exact H1|]. split; [exact H2|]. split; [exact H3|].
  destruct (H5 at_zero) as (n & w2 & out & H6 & H7 & H8).
  assert (map Worker.t_name (Worker.w_queue its_thread) = ["provision"%string]) as Eq by (vm_compute; reflexivity).
  assert (n ≤ 8)%nat as Hn by (apply (f_equal length) in Eq; rewrite length_map in Eq; cbn in Eq; lia).
  exists n, w2, out. split; [exact Hn|]. split; [exact H7|].
  assert (forallb alive (seq 0 9) = true) as Ha by (vm_compute; reflexivity).
  rewrite forallb_forall in Ha. specialize (Ha n ltac:(apply in_seq; lia)). unfold alive in Ha. rewrite H7 in Ha.
  destruct H8 as [H8|[H8 H9]]; [by rewrite H8 in Ha|]. split; [by rewrite H8|].
  specialize (H9 0). destruct (send_text _ _ _) as [sent c]. destruct H9 as (w3 & out3 & H9 & _). by rewrite H9.
Defined.

Definition last_state : Running ring_map Sample.relay := Worker.w_client (halt in_time its_thread).1.
Definition ann_key : bytes := store_key (cl_store (r_client last_state)).
Lemma still_ann : cl_identity (r_client (Worker.w_client its_thread)) = ann.
Proof. vm_compute. reflexivity. Qed.
Lemma ann_wf : Identity.wf_identity ann.
Proof. split_and!; [vm_compute; reflexivity..|]. right. exists "ann"%string. split; vm_compute; reflexivity. Qed.
Lemma nothing_blocked : blocked (r_desk last_state) = ∅.
Proof. vm_compute. reflexivity. Qed.
Lemma opened_settings : a_settings opened = named (JStr "ann") (from_items None []).
Proof. vm_compute. reflexivity. Qed.
Lemma opened_typed : typed (a_settings opened).
Proof.
  rewrite opened_settings. split; cbn; [exists DEFAULT_RELAYS; split; [reflexivity|repeat constructor]|..]; by eexists.
Qed.
Lemma unlock_reopens_witness :
  ∃ a1 a2 w2, lock in_time opened = (Ok tt, a1) ∧ _on_unlock in_time "" a1 = refresh a2 ∧ a_screen a2 = MainScreen ∧
    a_worker a2 = Some w2 ∧ same_tables (cl_store (r_client last_state)) (cl_store (r_client (Worker.w_client w2))).
Proof.
  destruct (unlock_reopens words_of mime_of text_of in_time in_time ann_machine opened its_thread "" [] []
    (ok_or [] (Identity.to_vault ann "" [] [])) (r_desk last_state)
    (resolve_store_key (a_directory opened) (Identity.identity_id ann) "" (r_desk last_state)).2 DEFAULT_RELAYS)
    as (a1 & a2 & w2 & H1 & _ & H2 & H3 & H4 & _ & _ & H5 & _).
  - exact opened_reachable.
  - exact its_thread_is.
  - rewrite still_ann. exact ann_wf.
  - discriminate.
  - vm_compute. reflexivity.
  - vm_compute. reflexivity.
  - fold last_state. unfold at_hand. rewrite nothing_blocked. split_and!; apply not_elem_of_empty.
  - exact opened_typed.
  - vm_compute. reflexivity.
  - vm_compute. discriminate.
  - rewrite still_ann. apply run_pair. vm_compute. reflexivity.
  - split_and!; vm_compute; reflexivity.
  - exists a1, a2, w2. split; [exact H1|]. split; [exact H2|]. split; [exact H3|]. split; [exact H4|exact H5].
Defined.

(** While an identity is being created its passphrase waits beside it; locking the session
    that follows leaves both, and the words, in memory. *)
Definition creating : list (Wait * event) :=
  [(in_time, GoCreate); (in_time, SubmitIdentity "ann" "secret" "secret"); (in_time, Acknowledge true); (in_time, Continue);
   (in_time, Lock)].
Definition locked : App ring_map Sample.relay := ok_or opened (steps words_of mime_of text_of creating booted).
Lemma lock_keeps_pending :
  steps words_of mime_of text_of creating booted = Ok locked ∧ a_screen locked = UnlockScreen ∧
  a_pending_passphrase locked = "secret"%string ∧ a_words locked = "word word"%string ∧ a_pending locked ≠ None.
Proof.
  split; [unfold locked; apply ok_or_eq; vm_compute; reflexivity|]. split_and!; vm_compute; first [reflexivity|discriminate].
Qed.
(** An empty attachment cannot be saved. *)
Lemma empty_attachment_lost path (a : App ring_map Sample.relay) : _save_attachment (Some (Data [])) path a = (Ok tt, a).
Proof. reflexivity. Qed.
End Window.
