(* ===== verification/OverHttp.v ===== *)
(** * From pool to pool over relays that run [server/]

    The pool of relays a client writes to ([ClientState.multi_pool] with the HTTP backend)
    and the one it reads from, proved against the relays themselves: what a pool took is
    with one of its relays, what a relay holds is on the page a reader fetches, and a
    sending client takes nothing away. *)

From S2P Require Import Prelude PyStr Json JsonProps Dict Primitives Encoding RelayUrls Backend.
From S2P Require Import Sql Db DbProps DbQueue Config Security Routers RelayApp RelayAppProps Exchange HttpContract.
From S2P Require Transport HttpRelay MultiRelay.
From S2P Require ClientState NetRuns.

Section pools.
Context {C : Crypto} {N : Type} {Network : Transport.Net N} {W : Web N} (U : string → Prop).
#[local] Existing Instance MultiRelay.http_backend.
#[local] Instance the_contract : MultiRelay.RelayContract N HttpRelay.HttpRelayBackend := http_contract U.

(** A pool on relays that all serve the capability. *)
Definition pool_reaches (t : Transport.Transport) (urls : list string) (c : MailboxCapability) : Prop :=
  ∀ u, u ∈ normalize_relay_urls urls → reaches U (HttpRelay.new_backend u t) c.

(** Every call of the pool is scheduled, once. *)
Definition schedules (sched : nat → list nat) : Prop := ∀ k, sched k ≡ₚ List.seq 0 k.

Lemma new_relays_elem urls t rs b :
  MultiRelay.new_relays urls t = Ok rs → b ∈ rs ↔ ∃ u, u ∈ normalize_relay_urls urls ∧ b = HttpRelay.new_backend u t.
Proof using.
  unfold MultiRelay.new_relays. intros E.
  assert (rs = map (λ u, HttpRelay.new_backend u t) (normalize_relay_urls urls)) as ->.
  { by destruct (map _ _); [done|injection E as <-]. }
  rewrite list_elem_of_fmap. split; intros (u & H1 & H2); by exists u.
Qed.

Lemma normal_base u t urls : u ∈ normalize_relay_urls urls → HttpRelay.base_url (HttpRelay.new_backend u t) = u.
Proof using. intros (_ & url & _ & <-)%normalize_elem. apply clean_url_rstrip. Qed.

(** A message the pool took is with one of its relays. *)
Lemma put_held t sched urls c e n n1 :
  schedules sched → lawful_net U n → pool_reaches t urls c →
  ClientState.pool_put (Pool := ClientState.multi_pool t sched) urls c e n = (Ok tt, n1) →
  lawful_net U n1 ∧ ∃ u k, u ∈ normalize_relay_urls urls ∧ (k, e) ∈ held n1 u (mailbox_id c).
Proof using.
  intros Hs Hn Hr E. cbn [ClientState.multi_pool ClientState.pool_put] in E. unfold ClientState.on_pool in E.
  unfold se_bind at 1, se_lift at 1 in E. destruct (MultiRelay.new_relays urls t) as [rs|] eqn:Ers; [|done].
  assert (∀ b, b ∈ rs → MultiRelay.serves b c) as Hsv.
  { intros b (u & Hu & ->)%(new_relays_elem _ _ _ _ Ers). by apply Hr. }
  apply MultiRelay.put_all_stores in E as (Hn1 & b & k & Hb & Hk); [|apply Hs|done..].
  split; [exact Hn1|]. apply (new_relays_elem _ _ _ _ Ers) in Hb as (u & Hu & ->).
  change ((k, e) ∈ held n1 (HttpRelay.base_url (HttpRelay.new_backend u t)) (mailbox_id c)) in Hk.
  rewrite (normal_base _ t _ Hu) in Hk. by exists u, k.
Qed.

(** A message a relay holds is on the page a reader's pool fetches, unless that very relay
    failed to answer. *)
Definition readable (u id : string) (k : Z) (e : bytes) : Prop :=
  ∀ t sched urls c cursors w n,
    schedules sched → lawful_net U n → pool_reaches t urls c → mailbox_id c = id → u ∈ normalize_relay_urls urls →
    (k, e) ∈ held n u id →
    ∃ msgs n', ClientState.pool_fetch (Pool := ClientState.multi_pool t sched) urls c cursors w n = (Ok msgs, n') ∧
      let cursor := default 0 (cursors !! u) in
      (cursor < k ≤ cursor + page_size →
       {| fm_relay := u; fm_seq := k; fm_blob := e |} ∈ msgs ∨
       MultiRelay.failed (HttpRelay.new_backend u t) c cursor w k e).
Lemma held_readable u id k e : readable u id k e.
Proof using.
  intros t sched urls c cursors w n Hs Hn Hr Hid Hu Hk.
  cbn [ClientState.multi_pool ClientState.pool_fetch]. unfold ClientState.on_pool, se_bind, se_lift.
  destruct (MultiRelay.new_relays urls t) as [rs|] eqn:Ers.
  2:{ unfold MultiRelay.new_relays in Ers. by destruct (normalize_relay_urls urls); [apply not_elem_of_nil in Hu|]. }
  destruct (MultiRelay.fetch_all_finds (sched (length rs)) rs c e n cursors w (HttpRelay.new_backend u t) k)
    as (msgs & n' & Ef & _ & _ & H).
  - apply Hs.
  - exact Hn.
  - intros b (v & Hv & ->)%(new_relays_elem _ _ _ _ Ers). by apply Hr.
  - apply (new_relays_elem _ _ _ _ Ers). eauto.
  - change ((k, e) ∈ held n (HttpRelay.base_url (HttpRelay.new_backend u t)) (mailbox_id c)).
    by rewrite (normal_base _ t _ Hu), Hid.
  - exists msgs, n'. split; [exact Ef|].
    change (MultiRelay.base_url (HttpRelay.new_backend u t)) with (HttpRelay.base_url (HttpRelay.new_backend u t)) in H.
    rewrite (normal_base _ t _ Hu) in H. exact H.
Qed.

(** ** What sending leaves alone *)

Lemma run_pool_keeps {A} (J : N → Prop) (calls : list (SE N A)) sched f n :
  Forall (λ m : SE N A, ∀ n, J n → J (m n).2) calls → J n → J (MultiRelay.run_pool calls sched f n).2.
Proof using.
  intros Hc. revert f n. induction sched as [|i sched IH]; intros f n Hn; cbn [MultiRelay.run_pool]; [done|].
  destruct (calls !! i) as [m|] eqn:E; [|by apply IH]. rewrite Forall_lookup in Hc. specialize (Hc i m E n Hn).
  destruct (m n). by apply IH.
Qed.
Lemma first_answer_keeps {A} (J : N → Prop) (calls : list (SE N A)) n :
  Forall (λ m : SE N A, ∀ n, J n → J (m n).2) calls → J n → J (MultiRelay.first_answer calls n).2.
Proof using.
  intros Hc. revert n. induction Hc as [|m calls Hm _ IH]; intros n Hn; cbn [MultiRelay.first_answer]; [done|].
  specialize (Hm n Hn). destruct (m n) as [[x|e] n']; [done|]. destruct (isa_Exception e); [by apply IH|done].
Qed.

Lemma step_keeps (J : N → Prop) t sched n n' :
  (∀ b c e n, J n → J (HttpRelay.put b c e n).2) → (∀ b id n, J n → J (HttpRelay.fetch_bundle b id n).2) →
  NetRuns.net_step (P := ClientState.multi_pool t sched) n n' → J n → J n'.
Proof using.
  intros Hput Hget [urls c e m|urls id m] Hm; cbn [ClientState.multi_pool ClientState.pool_put ClientState.pool_bundle];
    unfold ClientState.on_pool, se_bind, se_lift; destruct (MultiRelay.new_relays urls t) as [rs|]; try done.
  - unfold MultiRelay.put_all, MultiRelay.submit_all.
    pose proof (run_pool_keeps J (map (λ b, MultiRelay.put b c e) rs) (sched (length rs)) ∅ m) as H.
    destruct (MultiRelay.run_pool _ _ _ _). apply H; [|done]. apply Forall_map, Forall_true. intros b. apply Hput.
  - unfold MultiRelay.fetch_any_bundle. apply first_answer_keeps; [|done]. apply Forall_map, Forall_true. intros b. apply Hget.
Qed.

Lemma bundle_state b id n :
  (HttpRelay.fetch_bundle b id n).2 = (HttpRelay.call b "GET" ("/prekeys/" +:+ id) [] [] Transport.NoBody n).2.
Proof using. exact (after_lift _ _ _). Qed.

(** A run of a sending client leaves the relays lawful and takes no message away. *)
Lemma net_run_keeps t sched (c c' : ClientState.Client N) :
  NetRuns.net_run (P := ClientState.multi_pool t sched) c c' → lawful_net U (ClientState.cl_net c) →
  lawful_net U (ClientState.cl_net c') ∧
  ∀ u id x, x ∈ held (ClientState.cl_net c) u id → x ∈ held (ClientState.cl_net c') u id.
Proof using.
  intros Hr Hn. split; [|intros u id x Hx].
  - apply (NetRuns.net_run_ind (P := ClientState.multi_pool t sched) (lawful_net U) c c'); [|done..].
    intros n n'. apply step_keeps; intros; [rewrite put_state|rewrite bundle_state]; by apply call_lawful.
  - apply (NetRuns.net_run_ind (P := ClientState.multi_pool t sched) (λ n, lawful_net U n ∧ x ∈ held n u id) c c'); [|done..].
    intros n n'. apply (step_keeps (λ n, lawful_net U n ∧ x ∈ held n u id)).
    + intros b cap e m [H1 H2]. rewrite put_state. split; [by apply call_lawful|].
      eapply call_held; [|done..]. intros px. apply put_gentle.
    + intros b bid m [H1 H2]. rewrite bundle_state. split; [by apply call_lawful|].
      eapply call_held; [|done..]. intros px. by apply get_gentle.
Qed.

(** C14: what one client posts another fetches.  When a pool of relays reports a message
    posted, some relay of the pool holds it under a number; and from any later state in
    which it still does, the pool of the reader, whose relays include the writer's,
    fetches it under that relay and number when the number is within a page of the
    reader's cursor, unless that very relay failed to answer. *)
Theorem posted_is_fetched t t' sched sched' urls urls' c c' e n n1 cursors w :
  schedules sched → schedules sched' → lawful_net U n →
  pool_reaches t urls c → pool_reaches t' urls' c' → mailbox_id c' = mailbox_id c →
  (∀ u, u ∈ normalize_relay_urls urls → u ∈ normalize_relay_urls urls') →
  ClientState.pool_put (Pool := ClientState.multi_pool t sched) urls c e n = (Ok tt, n1) →
  lawful_net U n1 ∧ ∃ u k, u ∈ normalize_relay_urls urls ∧ (k, e) ∈ held n1 u (mailbox_id c) ∧
    ∀ n2, lawful_net U n2 → (k, e) ∈ held n2 u (mailbox_id c) →
      ∃ msgs n3, ClientState.pool_fetch (Pool := ClientState.multi_pool t' sched') urls' c' cursors w n2 = (Ok msgs, n3) ∧
        let cursor := default 0 (cursors !! u) in
        (cursor < k ≤ cursor + page_size →
         {| fm_relay := u; fm_seq := k; fm_blob := e |} ∈ msgs ∨
         MultiRelay.failed (HttpRelay.new_backend u t') c' cursor w k e).
Proof using.
  intros Hs Hs' Hn Hr Hr' Hid Hsub E. destruct (put_held t sched urls c e n n1 Hs Hn Hr E) as (Hn1 & u & k & Hu & Hk).
  split; [done|]. exists u, k. split_and!; [done..|]. intros n2 Hn2 Hk2.
  by apply (held_readable u (mailbox_id c) k e); auto.
Qed.
End pools.

(** ** A network that loses requests and answers *)

Module Sample.
Import Toy RelayAppProps.Sample.

Inductive weather := Clear | Request_lost | Answer_lost.
(** One relay, and what becomes of the next requests. *)
Record net := { the_relay : app; ahead : list weather }.
Definition base : string := "http://127.0.0.1:8000".
Definition relay_under (n : net) (u : string) : option app :=
  if String.eqb u base then Some (the_relay n) else None.

Definition create_url : string := base +:+ path_str ["api"; "mailbox"]%string.
Definition put_url : string := base +:+ path_str ["api"; "mailbox"; box; "messages"]%string.
Definition get_url : string := base +:+ path_str ["api"; "mailbox"; box]%string.

Definition prekeys_url : string := base +:+ "/api/prekeys/".
Definition asked_for (url : string) : string := to_str (drop (length (bs prekeys_url)) (bs url)).

(** It carries registrations, writes to one mailbox and reads of it, and requests for
    prekeys. *)
Definition dispatch (r : Transport.http_request) : option (list string * call) :=
  if String.eqb (Transport.rq_method r) "POST" && String.eqb (Transport.rq_url r) create_url
  then Some (["mailbox"]%string, PostMailbox 0 1000 [] [] [])
  else if String.eqb (Transport.rq_method r) "POST" && String.eqb (Transport.rq_url r) put_url
  then Some (["mailbox"; box; "messages"]%string, PostMessages box 1 1001)
  else if String.eqb (Transport.rq_method r) "GET" && String.eqb (Transport.rq_url r) get_url
  then let ps := Transport.rq_params r in
       Some (["mailbox"; box]%string,
             GetMailbox box (param "after_seq" ps) (param "wait" ps) 0 (Z.max 0 (param "wait" ps)) [])
  else if String.eqb (Transport.rq_method r) "GET" && (startswith (Transport.rq_url r) prekeys_url &&
          segment (asked_for (Transport.rq_url r)))
  then Some (["prekeys"; asked_for (Transport.rq_url r)]%string, GetPrekeys (asked_for (Transport.rq_url r)))
  else None.

Definition names (hs : list (string * string)) : list string := map (λ kv, lower kv.1) hs.
Definition arrives (r : Transport.http_request) : request :=
  with_headers (map (λ kv, (lower kv.1, kv.2)) (Transport.rq_headers r)) (body_bytes (Transport.rq_body r)).

(** Unique keys and strings that can be encoded. *)
Fixpoint printable (j : json) : bool :=
  match j with
  | JStr s => utf8_ok (bs s)
  | JList l => forallb id (map printable l)
  | JObj d => bool_decide (NoDup (map fst d)) && forallb (λ k, utf8_ok (bs k)) (map fst d) &&
              forallb id (map (λ kv, printable kv.2) d)
  | _ => true
  end.

Definition lost : res Transport.response := Err RequestsConnectionError.
Definition answer (j : res json) (st : Z) (b : bytes) : res Transport.response :=
  Ok {| Transport.status_code := st; Transport.response_json := j; Transport.content := b |}.
(** Answers it is not sure can be printed are lost too. *)
Definition delivered (a : response) : res Transport.response :=
  match a with
  | Answer st j => if printable j then answer (Ok j) st [] else lost
  | Octets b => answer (Err Unmodelled) 200 b
  | Refuse st => answer (Err Unmodelled) st []
  | Outside _ => lost
  end.

Definition deliver (r : Transport.http_request) (n : net) : res Transport.response * net :=
  let w := hd Clear (ahead n) in
  let rest := tl (ahead n) in
  match w, dispatch r, decide (NoDup (names (Transport.rq_headers r))) with
  | Request_lost, _, _ | _, None, _ | _, _, right _ => (lost, {| the_relay := the_relay n; ahead := rest |})
  | _, Some (_, c), left _ =>
      let '(a, relay) := serve (arrives r) c (the_relay n) in
      (match w with Answer_lost => lost | _ => delivered a end, {| the_relay := relay; ahead := rest |})
  end.

#[export] Instance net_transport : Transport.Net net := {
  session_request := deliver;
  time_sleep := λ _ n, n
}.

Lemma printable_wf j : printable j = true → wf_json utf8_str j.
Proof.
  induction j as [|b|k|s|l IH|d IH] using json_ind'; cbn [printable wf_json]; try done.
  - rewrite forallb_forall, Forall_map. intros H. rewrite Forall_forall in *. intros j Hj.
    apply IH; [done|]. apply H, in_map. by apply list_elem_of_In.
  - intros [[H1%bool_decide_eq_true H2]%andb_true_iff H3]%andb_true_iff.
    rewrite forallb_forall in H2, H3. split_and!; [done| |].
    + apply Forall_forall. intros k Hk. apply H2. by apply list_elem_of_In.
    + rewrite Forall_map. rewrite Forall_forall in *. intros kv Hkv.
      apply IH; [done|]. apply H3, (in_map (λ kv, printable kv.2)). by apply list_elem_of_In.
Qed.

Lemma box_segment : segment box = true.
Proof. vm_compute. done. Qed.

Lemma asked_url url : startswith url prekeys_url = true → url = base +:+ path_str ["api"; "prekeys"; asked_for url]%string.
Proof.
  intros H. assert (bs url = bs prekeys_url ++ drop (length (bs prekeys_url)) (bs url)) as E.
  { unfold startswith in H. revert H. generalize (bs prekeys_url) (bs url). intros p. induction p as [|x p IH]; intros l H; [done|].
    destruct l as [|y l]; cbn [prefix_b] in H; [done|]. apply andb_true_iff in H as [->%bool_decide_eq_true H].
    cbn [length drop Datatypes.app]. by rewrite <-IH. }
  apply bs_inj. rewrite E. cbn [path_str]. rewrite sapp_nil, !bs_app. unfold asked_for. rewrite bs_to_str. done.
Qed.

Ltac at_route :=
  match goal with E : String.eqb _ _ && String.eqb _ _ = true |- _ =>
    apply andb_true_iff in E as [E1%String.eqb_eq E2%String.eqb_eq]; intros [= <- <-];
    split; [exact E2|rewrite E1]
  end.
Lemma dispatch_addressed r segs c : dispatch r = Some (segs, c) → addressed r base segs c.
Proof.
  unfold dispatch. destruct (_ && _) eqn:E; [at_route; constructor|clear E].
  destruct (_ && _) eqn:E; [at_route; constructor; apply box_segment|clear E].
  destruct (_ && _) eqn:E; [at_route; constructor; [apply box_segment|cbn; lia]|clear E].
  destruct (_ && _) eqn:E; [|done]. apply andb_true_iff in E as [E1%String.eqb_eq [E2 E3]%andb_true_iff].
  intros [= <- <-]. split; [by apply asked_url|]. rewrite E1. by constructor.
Qed.

Lemma arrives_get hs k v :
  NoDup (names hs) → (k, v) ∈ hs → header_get (lower k) (map (λ kv, (lower kv.1, kv.2)) hs) = Some v.
Proof.
  induction hs as [|[k' v'] hs IH]; cbn [names map fst snd header_get]; intros Hnd H; [by apply not_elem_of_nil in H|].
  apply NoDup_cons in Hnd as [Hk Hnd]. apply elem_of_cons in H as [[= -> ->]|H]; [by rewrite String.eqb_refl|].
  destruct (String.eqb_spec (lower k) (lower k')) as [E|E]; [|by apply IH].
  destruct Hk. rewrite <-E. apply list_elem_of_fmap. by exists (k, v).
Qed.

Lemma arrives_none hs k : k ∉ names hs → header_get k (map (λ kv, (lower kv.1, kv.2)) hs) = None.
Proof.
  induction hs as [|[k' v'] hs IH]; [done|]. cbn [names map fst snd header_get].
  intros [Hk Hin]%not_elem_of_cons. apply String.eqb_neq in Hk. rewrite Hk. by apply IH.
Qed.

Lemma arrives_carried r : NoDup (names (Transport.rq_headers r)) → carried r (arrives r).
Proof.
  intros Hnd. split_and!; [|intros k _ Hk|done]; [intros k v H; by apply arrives_get|by apply arrives_none].
Qed.

Lemma delivered_answers a : answered a (delivered a).
Proof.
  destruct a as [st j|b|st|e]; cbn; [|by constructor..]. destruct (printable j) eqn:E; [|by constructor].
  constructor. by apply printable_wf.
Qed.

#[export] Program Instance the_web : Web net := { relay_at := relay_under }.
Next Obligation. done. Qed.
Next Obligation.
  intros r n. cbn. unfold deliver. destruct (dispatch r) as [[segs c]|] eqn:Ed.
  2:{ destruct (hd Clear (ahead n)); by apply unanswered. }
  case_decide as Hnd.
  2:{ destruct (hd Clear (ahead n)); by apply unanswered. }
  destruct (serve (arrives r) c (the_relay n)) as [a relay] eqn:Es.
  destruct (hd Clear (ahead n)); [|by apply unanswered|].
  all: eapply served; [by eapply dispatch_addressed|unfold relay_under; by rewrite String.eqb_refl|by apply arrives_carried| | |].
  all: unfold relay_under; rewrite ?String.eqb_refl; cbn [the_relay]; rewrite ?Es; cbn [fst snd]; try done.
  all: try (by intros v Hv%String.eqb_neq; rewrite Hv).
  - apply delivered_answers.
  - by constructor.
Qed.

Definition pool_of (u : string) : Prop := u = base.
Definition box_capability : MailboxCapability :=
  generate (bs "0123456789ab") write_token read_token.
Definition transport : Transport.Transport := Transport.new_transport 30 3 1 None false.
Definition urls : list string := ["http://127.0.0.1:8000/"].
(** The first try is lost, the answer to the second is lost, the third is told. *)
Definition before : net := {| the_relay := opened; ahead := [Request_lost; Answer_lost] |}.
Definition after : net :=
  (ClientState.pool_put (Pool := ClientState.multi_pool transport (List.seq 0)) urls box_capability (bs "hi") before).2.

Lemma box_reaches ls c :
  normalize_relay_urls ls = [base] → mailbox_id c = box → pool_reaches pool_of transport ls c.
Proof.
  intros Hl Hc u Hu. rewrite Hl in Hu. apply list_elem_of_singleton in Hu as ->.
  split; rewrite ?Hc; [by vm_compute|apply box_segment|by exists []..].
Qed.

Lemma good_lawful n : good (the_relay n) → lawful_net pool_of n.
Proof.
  intros H. split.
  - intros u a. cbn. unfold relay_under. case_match; [|done]. by intros [= <-].
  - intros u ->. by eexists.
Qed.

Lemma before_lawful : lawful_net pool_of before.
Proof. apply good_lawful. split; [apply opened_inv|by vm_compute]. Qed.

#[local] Existing Instance MultiRelay.http_backend.
#[local] Instance pool_contract : MultiRelay.RelayContract net HttpRelay.HttpRelayBackend := the_contract pool_of.

Lemma posted_is_fetched_witness :
  lawful_net pool_of after ∧ ∃ u k, u ∈ normalize_relay_urls urls ∧ (k, bs "hi") ∈ held after u box ∧
    ∀ n2, lawful_net pool_of n2 → (k, bs "hi") ∈ held n2 u box →
      ∃ msgs n3, ClientState.pool_fetch (Pool := ClientState.multi_pool transport (List.seq 0)) urls box_capability ∅ 0 n2 = (Ok msgs, n3) ∧
        let cursor := default 0 ((∅ : gmap string Z) !! u) in
        (cursor < k ≤ cursor + page_size →
         {| fm_relay := u; fm_seq := k; fm_blob := bs "hi" |} ∈ msgs ∨
         MultiRelay.failed (HttpRelay.new_backend u transport) box_capability cursor 0 k (bs "hi")).
Proof.
  apply (posted_is_fetched pool_of transport transport (List.seq 0) (List.seq 0) urls urls box_capability box_capability (bs "hi") before).
  - by intros k.
  - by intros k.
  - apply before_lawful.
  - by apply box_reaches.
  - by apply box_reaches.
  - done.
  - done.
  - vm_compute. reflexivity.
Defined.
End Sample.
