(* ===== verification/TextOverHttp.v ===== *)
(** * A text, over relays that run [server/]

    The client's own pool, the HTTP backend, the network and the relays put together: a
    text typed at one client lies at a relay of each of the recipient's devices, is fetched
    from there, and is stored and shown. *)

From S2P Require Import Prelude PyStr Json JsonProps Primitives Dict Encoding RelayUrls Sql Store StoreProps Backend ClientState Sync Client NetRuns ClientProps Receiving Delivery.
From S2P Require Identity Card Devices Session RatchetChain RatchetSession Transport Exchange HttpContract OverHttp.

Section text.
Context {C : Crypto} {L : CryptoLaws C} {Zl : Zlib} {N : Type} {Network : Transport.Net N} {W : Exchange.Web N}.
Context {N' : Type} {P' : Pool N'} (U : string → Prop) (t : Transport.Transport) (sched : nat → list nat).
#[local] Instance sender_pool : Pool N := multi_pool t sched.
Import RatchetChain.

(** The relays a device is written to: its own, or the sender's. *)
Definition device_urls (c : Client N) (d : Devices.DeviceEntry) : res (list string) :=
  let? urls := relay_list (device_relays d) in Ok match urls with [] => cl_relays c | _ => urls end.
(** They are relays of [U] that can serve the device's mailbox. *)
Definition within_reach (c : Client N) (d : Devices.DeviceEntry) : Prop :=
  ∀ urls capability, device_urls c d = Ok urls → device_capability d = Ok capability →
    OverHttp.pool_reaches U t urls capability.

(** C1: a text arrives over HTTP.  When [send_text] returns - its requests and their answers
    lost and tried again, its pool's threads in any order - the relays are lawful still, and
    for every device it wrote to one of the device's relays holds the copy under a number.
    Any pool that later fetches the device's mailbox there gets it, when its number is
    within a page of the cursor, unless that relay fails to answer; and the client that
    takes it, whether it is in step with the session or never heard of the sender, stores
    and returns the text once, with its id and time. *)
Theorem text_over_http bid box rs nm cid text k st0 ds st (a a1 a' : Client N) mid :
  let card := Card.create (cl_identity a) bid box rs nm in
  Card.wf_create (cl_identity a) bid box rs nm → cl_card a = Some card →
  (∀ i, 1000 ≤ clock (cl_env a) i < 2 ^ 63) → utf8_str text →
  (get_contact (me a) cid (cl_store a)).1 = Ok (Some k) → load_state k = Ok st0 →
  ensure_outbound_sessions k st0 a = (Ok (ds, st), a1) → NoDup (map Devices.device_id ds) →
  (∀ d s, d ∈ ds → aget (Devices.device_id d) (st_outbound st) = Some s →
     sendable s ∧ ∃ pub ck n, send_at (Session.ratchet s) pub ck n) →
  OverHttp.schedules sched → Exchange.lawful_net U (cl_net a) → (∀ d, d ∈ ds → within_reach a d) →
  send_text cid text a = (Ok mid, a') →
  Exchange.lawful_net U (cl_net a') ∧ ∃ ts, ∀ d, d ∈ ds → ∃ s urls capability u seq blob,
    aget (Devices.device_id d) (st_outbound st) = Some s ∧
    device_urls a d = Ok urls ∧ device_capability d = Ok capability ∧ u ∈ normalize_relay_urls urls ∧
    (seq, blob) ∈ Exchange.held (cl_net a') u (mailbox_id capability) ∧
    OverHttp.readable U u (mailbox_id capability) seq blob ∧
    ∀ b : Client N', receptive mid b →
      let out := handle_item {| fm_relay := u; fm_seq := seq; fm_blob := blob |} b in
      (∀ l, in_step s b l → received (c_id (lo_contact l)) text mid ts b out) ∧
      (find_session (Session.sid s) b = (Ok None, b) → (get_contact (me b) (me a) (cl_store b)).1 = Ok None →
       can_answer s b → received (me a) text mid ts b out).
Proof using L.
  intros card Hcr Hcard Hclock Ht Hk Hst Hds Hnd Hss Hsched Hn Hreach E.
  destruct (text_carried (N' := N') bid box rs nm cid text k st0 ds st a a1 a' mid Hcr Hcard Hclock Ht Hk Hst Hds Hnd Hss E)
    as (R & ts & H). split; [by apply (OverHttp.net_run_keeps U t sched a a' R Hn)|].
  exists ts. intros d Hd.
  destruct (H d Hd) as (s & blob & c1 & c2 & Hs & Hrel & (urls0 & cap & Hu & Hc & Hp) & R1 & R2 & Hb).
  apply (OverHttp.net_run_keeps U t sched) in R1 as [Hn1 _]; [|done].
  assert (device_urls a d = Ok match urls0 with [] => cl_relays c1 | _ => urls0 end) as Hurls.
  { unfold device_urls. rewrite Hu, Hrel. done. }
  apply (OverHttp.put_held U t sched) in Hp as (Hn2 & u & seq & Hin & Hheld); [|done..|by apply (Hreach d)].
  exists s, (match urls0 with [] => cl_relays c1 | _ => urls0 end), cap, u, seq, blob. split_and!; [done..| | |].
  - by apply (OverHttp.net_run_keeps U t sched c2 a').
  - apply OverHttp.held_readable.
  - apply Hb.
Qed.
End text.

(** ** Alice writes to Bob through one relay *)

Module Sample.
Import Toy OverHttp.Sample.

Definition client (seed : Z) (s : LocalStore) (n : net) : Client net :=
  {| cl_identity := ClientProps.Sample.owner seed; cl_store := s; cl_relays := [base]; cl_name := "name"; cl_opk_count := 1;
     cl_inbox := None; cl_bundle := None; cl_card := None; cl_device := None; cl_siblings := ∅; cl_list := None;
     cl_index := None; cl_net := n; cl_env := steady_env seed |}.
(** The relay keeps Bob's mailbox and bundle; the first requests and an answer are lost. *)
Definition relay : RelayApp.response * Routers.app :=
  RelayApp.serve (RelayAppProps.Sample.with_headers [] (Prekeys.to_bytes bob_bundle)) (RelayApp.PostPrekeys 1 1001)
    RelayAppProps.Sample.opened.
Definition start : net := {| the_relay := relay.2; ahead := [Request_lost; Clear; Request_lost; Clear; Answer_lost] |}.
Definition bob_contact : contact :=
  {| c_id := me bob; c_identity := me alice; c_nickname := JStr "Bob"; c_isign := ed_pub bob; c_idh := x_pub bob;
     c_bundle := JStr bob_bundle_id; c_inbox := JObj (card_view box_capability); c_relays := JList [JStr base];
     c_session := JNull; c_verified := false; c_created := 7 |}.
Definition alice_card : Card.ContactCard :=
  Card.create (ClientProps.Sample.owner 3) "a" (box_of "alices") [base] (JStr "Alice").
Definition writer : Client net :=
  let c := client 3 sample_store start in
  set_card (Some alice_card) (set_store (run_op (UpsertContact sample_iv 1 (me c) bob_contact) sample_store) c).
#[local] Existing Instance ClientProps.Sample.relay_pool.
#[local] Instance writers_pool : Pool net := multi_pool transport (List.seq 0).
Definition peers := ok_or ([], no_state) (ensure_outbound_sessions bob_contact no_state writer).1.
Definition mid : string := ok_or ""%string (send_text (me bob) "hi" writer).1.
Definition sent : Client net := (send_text (me bob) "hi" writer).2.

Lemma writer_devices : peers.1 = [ok_or Devices.sample_entry (legacy_device bob_contact)].
Proof. vm_compute. reflexivity. Qed.
Lemma writer_outbound : aget Devices.LEGACY_DEVICE (st_outbound peers.2) = Some alice_session.
Proof. vm_compute. reflexivity. Qed.
Lemma writer_urls : device_urls writer (ok_or Devices.sample_entry (legacy_device bob_contact)) = Ok [base].
Proof. vm_compute. reflexivity. Qed.
Lemma writer_capability :
  device_capability (ok_or Devices.sample_entry (legacy_device bob_contact)) = Ok (write_only box_capability).
Proof. vm_compute. reflexivity. Qed.
Lemma bob_takes : receptive mid bob.
Proof. assert (mid = alice_mid) as -> by (vm_compute; reflexivity). apply bob_receptive. Qed.
Lemma writer_card_ok : Card.wf_create (cl_identity writer) "a" (box_of "alices") [base] (JStr "Alice").
Proof.
  split; [split_and!; [done..|by left]|split_and!]; [done|by split|vm_compute; done|done|by repeat constructor|].
  right. by exists "Alice"%string.
Qed.
Lemma start_lawful : Exchange.lawful_net pool_of start.
Proof. apply good_lawful. split; [by apply Exchange.serve_good; split; [apply RelayAppProps.Sample.opened_inv|vm_compute]|by vm_compute]. Qed.

Lemma text_over_http_witness :
  Exchange.lawful_net pool_of (cl_net sent) ∧ ∃ ts seq blob,
    (seq, blob) ∈ Exchange.held (cl_net sent) base RelayAppProps.Sample.box ∧
    OverHttp.readable pool_of base RelayAppProps.Sample.box seq blob ∧
    received (me writer) "hi" mid ts bob (handle_item {| fm_relay := base; fm_seq := seq; fm_blob := blob |} bob).
Proof.
  destruct (text_over_http (N' := ClientProps.Sample.relay) pool_of transport (List.seq 0) "a" (box_of "alices") [base]
    (JStr "Alice") (me bob) "hi" bob_contact no_state peers.1 peers.2 writer
    (ensure_outbound_sessions bob_contact no_state writer).2 sent mid) as [Hn (ts & H)].
  - apply writer_card_ok.
  - reflexivity.
  - done.
  - reflexivity.
  - vm_compute. reflexivity.
  - reflexivity.
  - vm_compute. reflexivity.
  - rewrite writer_devices. apply NoDup_singleton.
  - intros d s Hd Hs. rewrite writer_devices in Hd. apply list_elem_of_singleton in Hd as ->.
    change (Devices.device_id _) with Devices.LEGACY_DEVICE in Hs. rewrite writer_outbound in Hs.
    apply (inj Some) in Hs. subst s. split; [apply alice_session_sends|]. eexists _, _, _. apply alice_session_sends.
  - by intros k.
  - apply start_lawful.
  - intros d Hd. rewrite writer_devices in Hd. apply list_elem_of_singleton in Hd as ->. intros urls c Hu Hc.
    rewrite writer_urls in Hu. rewrite writer_capability in Hc. injection Hu as <-. injection Hc as <-. by apply box_reaches.
  - vm_compute. reflexivity.
  - split; [done|]. rewrite writer_devices in H.
    destruct (H _ ltac:(by left)) as (s & urls & c & u & seq & blob & Hs & Hu & Hc & Hin & Hheld & Hread & Hb).
    change (Devices.device_id _) with Devices.LEGACY_DEVICE in Hs. rewrite writer_outbound in Hs. apply (inj Some) in Hs. subst s.
    rewrite writer_urls in Hu. rewrite writer_capability in Hc. injection Hu as <-. injection Hc as <-.
    apply list_elem_of_singleton in Hin as ->. exists ts, seq, blob. split_and!; [done..|].
    apply (proj2 (Hb bob bob_takes)); [vm_compute; reflexivity|reflexivity|apply bob_answers].
Defined.
End Sample.
