(* ===== verification/Registration.v ===== *)
(** * Mailboxes registered over HTTP

    [HttpRelay.create_mailbox] and what it buys: when a relay told a client that its
    mailbox is registered, the relay knows the client's own tokens, and from then on a
    write is refused for its size or a quota but never for the mailbox or its token. *)

From S2P Require Import Prelude PyStr Json JsonProps Dict Primitives Encoding Backend.
From S2P Require Import Sql Db DbProps DbQueue Config RateLimit Security Routers RelayApp RelayAppProps Exchange HttpContract.
From S2P Require Transport HttpRelay MultiRelay OverHttp.

(** ** A mailbox that carries a capability's tokens *)

Section owned.
Context {C : Crypto} {L : CryptoLaws C}.
Implicit Types (c : MailboxCapability) (a : app) (s : db).

Record owned s c (mb : mailbox) (w : bytes) : Prop := {
  ow_box : mailboxes s !! mailbox_id c = Some mb;
  ow_write : b64d (write_token c) = Ok w ∧ w ≠ [] ∧ write_token_hash mb = token_hash w;
  ow_read : ∀ t, read_token c = Some t → ∃ r, b64d t = Ok r ∧ read_token_hash mb = token_hash r
}.

(** Operations of the calls that take nothing away. *)
Definition gentle_op (o : dbop) : Prop :=
  match o with OpAck _ _ | OpDelete _ | OpHousekeeping _ _ _ => False | _ => True end.

Lemma footprint_gentle q cl o : adds_only cl → footprint q cl o → gentle_op o.
Proof using. by destruct cl, o. Qed.

Lemma owned_op o s c mb w :
  gentle_op o → db_inv s → owned s c mb w → ∃ mb', owned (apply_op o s).2 c mb' w.
Proof using.
  intros Ho Hs [E Hw Hr].
  set (t := Z.min (last_seen mb) (match o with OpPut _ _ now | OpTouch _ now => now | _ => 0 end)).
  destruct (box_step (mailbox_id c) t o s) with mb as (mb' & E' & H1 & H2 & _); [|done|exists mb; split; [done|apply Z.le_min_l]|done|].
  - unfold t. destruct o; cbn in *; try done; lia.
  - exists mb'. split; [done| |]; by rewrite ?H1, ?H2.
Qed.

Lemma owned_ops ops s c mb w :
  Forall gentle_op ops → db_inv s → owned s c mb w → ∃ mb', owned (run_ops ops s).2 c mb' w.
Proof using.
  intros Hops. revert s mb. induction Hops as [|o ops Ho _ IH]; intros s mb Hs H; [eauto|]. cbn [run_ops].
  destruct (owned_op o s c mb w Ho Hs H) as (mb1 & H1). destruct (apply_op o s) as [x s1] eqn:E.
  destruct (apply_op_keeps o s x s1 Hs E) as [Hs1 _]. destruct (IH s1 mb1 Hs1 H1) as [mb2 H2].
  exists mb2. by destruct (run_ops ops s1).
Qed.

Lemma owned_serve q cl a c mb w :
  gentle q cl → db_inv (a_db a) → owned (a_db a) c mb w → ∃ mb', owned (a_db (serve q cl a).2) c mb' w.
Proof using.
  intros Hg Hs H. destruct (gentle_cases q cl a Hg) as [Ha| ->]; [|by exists mb].
  destruct (serve_footprint q cl a) as (_ & ops & Hops & ->).
  eapply owned_ops; [|done..]. eapply Forall_impl; [exact Hops|]. intros o. by apply footprint_gentle.
Qed.

Lemma verify_hash t h : verify_token t h = true → t ≠ [] ∧ h = token_hash t.
Proof using.
  unfold verify_token. destruct t as [|x t]; [done|]. destruct h; [done|].
  by intros ->%bool_decide_eq_true.
Qed.
(** ** What the relay answers to the owner *)

Lemma limit_run get put r mono a x a' :
  check_limit get put r mono a = (x, a') →
  a_db a' = a_db a ∧ a_settings a' = a_settings a ∧ (x = Ok tt ∨ x = Err (HTTPException 429)).
Proof using.
  unfold check_limit, se_bind, se_get, se_put, se_check. destruct (allow _ _ _) as [ok l].
  destruct (negb ok); intros [= <- <-]; auto.
Qed.

Lemma owned_authenticated q c a mb w :
  owned (a_db a) c mb w → header_get "x-nk-write" (headers q) = Some (write_token c) →
  authenticate_mailbox q (mailbox_id c) Write a = (Ok mb, a).
Proof using L.
  intros [E (Hw & Hne & Hh) _] Hq. unfold authenticate_mailbox, token_from_header. rewrite Hq.
  assert (write_token c ≠ ""%string) as Ht. { intros Ht. rewrite Ht in Hw. injection Hw as <-. done. }
  rewrite (proj2 (String.eqb_neq _ _) Ht), Hw. cbn [ok_or_none].
  unfold se_bind, on_db, get_mailbox, connect, se_bind, se_get, se_ret. rewrite with_db_same, E.
  by rewrite Hh, (verify_token_hash w Hne).
Qed.

(** A write with the right token is stored, or refused for a quota, for being empty or
    for its size. *)
Lemma put_owned q c mono now a resp a' mb w :
  db_inv (a_db a) → owned (a_db a) c mb w → header_get "x-nk-write" (headers q) = Some (write_token c) →
  serve q (PostMessages (mailbox_id c) mono now) a = (resp, a') →
  (∃ k, resp = Answer 201 (seq_answer k)) ∨ resp = Refuse 429 ∨ (resp = Refuse 400 ∧ body q = []) ∨
  (resp = Refuse 413 ∧ max_blob_bytes (a_settings a) < blen (body q)).
Proof using L.
  intros Hs Ho Hq E. cbn [serve] in E. unfold reply, put_message_handler, se_bind at 1 in E.
  rewrite (owned_authenticated q c a mb w Ho Hq) in E. unfold se_bind at 1 in E.
  destruct (check_limit _ _ _ _ a) as [x a1] eqn:El. apply limit_run in El as (Ed & Es & [->| ->]).
  2:{ injection E as <- _. auto. }
  unfold se_bind at 1, se_get at 1, se_check in E. rewrite Es in E.
  destruct (body q) as [|x0 data] eqn:Eb. { injection E as <- _. auto. }
  unfold se_bind at 1, se_ret at 1 in E. destruct (Z.ltb_spec (max_blob_bytes (a_settings a)) (blen (x0 :: data))).
  { injection E as <- _. auto 6. }
  unfold se_bind, se_except, on_db, se_ret in E. rewrite Ed in E.
  destruct (put_message (mailbox_id c) (x0 :: data) now (a_db a)) as [[k|e] d] eqn:Ep.
  { injection E as <- _. eauto. }
  rewrite put_message_spec, (ow_box _ _ _ _ Ho) in Ep. destruct (_ || _) in Ep; [|by rewrite (next_seq_free _ _ _ Hs (ow_box _ _ _ _ Ho)) in Ep].
  injection Ep as <- _. injection E as <- _. auto.
Qed.

(** Capabilities a relay accepts: 32-byte tokens, and text. *)
Record registrable c : Prop := {
  rg_valid : validate c = Ok tt;
  rg_text : wf_json utf8_str (JObj (to_json c))
}.

Lemma default_raw_loads d :
  d ≠ [] → wf_dict d → json_loads_raw (dumps fmt_default (JObj d)) = Ok (JObj d).
Proof using.
  intros Hne Hd. pose proof (default_loads (JObj d) Hd) as E. rewrite canon_false in E.
  pose proof (utf8_dumps fmt_default utf8_str utf8_str (JObj d) 0 fmt_default_ok esc_utf8_default Hd) as Hu.
  fold (dumps fmt_default (JObj d)) in Hu. set (data := dumps _ _) in *.
  assert (∃ r, data = "{"%char :: dquote :: r) as [r Hr].
  { unfold data, dumps. rewrite dumps_at_obj by done. destruct d as [|[k v] d]; [done|]. destruct d; by eexists. }
  clearbody data. subst data. unfold json_loads_raw. cbn -[utf8_ok json_loads to_str] in *.
  destruct (utf8_ok _); [exact E|done].
Qed.

Lemma provided_own c :
  validate c = Ok tt →
  provided_capability (JObj (to_json c)) = Err (HTTPException 400) ∨
  ∃ r w t, provided_capability (JObj (to_json c)) = Ok (mailbox_id c, r, w) ∧
    b64d (write_token c) = Ok w ∧ w ≠ [] ∧ read_token c = Some t ∧ b64d t = Ok r ∧ r ≠ [].
Proof using.
  intros ([] & (w & Hw & Hwl)%validate_token_Ok & Hr)%res_bind_Ok. unfold provided_capability, to_json.
  destruct (read_token c) as [t|]; [|left; reflexivity].
  apply validate_token_Ok in Hr as (r & Hr & Hrl).
  assert (r ≠ [] ∧ w ≠ []) as [Hrn Hwn] by (split; intros ->; done).
  cbn -[MAILBOX_ID_PATTERN b64d]. rewrite Hw, Hr. cbn -[MAILBOX_ID_PATTERN TOKEN_SIZE].
  destruct (negb (MAILBOX_ID_PATTERN _)); [by left|]. destruct (_ || _); [by left|]. right. eauto 10.
Qed.

(** A registration by the mailbox's own capability: the relay then knows its tokens, or
    the answer is a refusal. *)
Lemma create_own q c mono now i r0 w0 a resp a' :
  registrable c → db_inv (a_db a) → body q = dumps fmt_default (JObj (to_json c)) →
  header_get "x-nk-hashcash" (headers q) = None →
  serve q (PostMailbox mono now i r0 w0) a = (resp, a') →
  (∃ j mb w, resp = Answer 201 j ∧ owned (a_db a') c mb w) ∨ ∃ st, resp = Refuse st ∧ 400 ≤ st.
Proof using L.
  intros [Hv Ht] Hs Hb Hh E. cbn [serve] in E. unfold reply, create_mailbox_handler in E. unfold se_bind at 1 in E.
  destruct (check_limit _ _ _ _ a) as [x a1] eqn:El. apply limit_run in El as (Ed & Es & [->| ->]).
  2:{ injection E as <- _. right. by eexists. }
  unfold se_bind at 1, se_get at 1 in E. unfold se_bind at 1 in E.
  match type of E with context [match ?m a1 with _ => _ end] =>
    assert (m a1 = (Ok tt, a1) ∨ m a1 = (Err (HTTPException 400), a1)) as [Hm|Hm] end.
  { destruct (require_hashcash _); [|by left]. rewrite Hh. unfold verify_hashcash, se_bind, se_lift, se_check.
    destruct (_ <=? 0); [by left|by right]. }
  2:{ rewrite Hm in E. injection E as <- _. right. by eexists. }
  rewrite Hm, Hb in E. clear Hm.
  assert (to_json c ≠ []) as Hne by (unfold to_json; by destruct (read_token c)).
  pose proof (default_raw_loads _ Hne Ht) as Hl. set (data := dumps _ _) in *.
  destruct data as [|x data]; [done|]. unfold se_bind at 1, se_lift at 1 in E. rewrite Hl in E. cbn [except] in E.
  unfold se_bind at 1, se_lift at 1 in E.
  destruct (provided_own c Hv) as [Hp|(r & w & t & Hp & Hw & Hwn & Htok & Hr & Hrn)];
    rewrite Hp in E.
  { injection E as <- _. right. by eexists. }
  unfold se_bind at 1, on_db at 1, get_mailbox, connect, se_bind, se_get, se_ret in E. rewrite with_db_same, Ed in E.
  destruct (mailboxes (a_db a) !! mailbox_id c) as [mb|] eqn:Em.
  - destruct (_ && _) eqn:Eh; [|injection E as <- _; right; by eexists].
    apply andb_true_iff in Eh as [[_ H1]%verify_hash [_ H2]%verify_hash]. injection E as <- <-. left.
    eexists _, mb, w. split; [done|]. split; [by rewrite Ed| |]; [done|].
    rewrite Htok. intros ? [= <-]. eauto.
  - unfold register, on_db, create_mailbox, connect, se_bind, se_get, se_modify, se_ret in E. rewrite Ed, Em in E.
    injection E as <- <-. left. eexists _, _, w. split; [done|]. split.
    + cbn. by rewrite lookup_insert_eq.
    + done.
    + rewrite Htok. intros ? [= <-]. eauto.
Qed.
End owned.

(** ** Over the network *)

Section network.
Context {C : Crypto} {L : CryptoLaws C} {N : Type} {Network : Transport.Net N} {W : Web N} (U : string → Prop).
Implicit Types (b : HttpRelay.HttpRelayBackend) (c : MailboxCapability) (n : N).

Definition registered n (u : string) c : Prop :=
  ∃ a mb w, relay_at n u = Some a ∧ owned (a_db a) c mb w.

Lemma registered_request r n u c :
  lawful_net U n → gentle_request r → registered n u c → registered (Transport.session_request r n).2 u c.
Proof using.
  intros [Hg _] Hr (a & mb & w & Ea & Ho).
  pose proof (request_effect (λ a a', db_inv (a_db a) → ∀ mb w, owned (a_db a) c mb w → ∃ mb', owned (a_db a') c mb' w) r n)
    as H. specialize (H (λ a _ mb w Ho, ex_intro _ mb Ho)
    (λ q cl a Hm Hq Hs mb w, owned_serve q cl a c mb w (Hr q cl Hm Hq) Hs) u).
  rewrite Ea in H. inversion H as [? a' Ha Eq|]; subst. destruct (Ha (proj1 (Hg u a Ea)) mb w Ho) as [mb' Ho'].
  by exists a', mb', w.
Qed.

Lemma registered_sleep d n u c : registered n u c → registered (Transport.time_sleep d n) u c.
Proof using. intros (a & mb & w & Ea & Ho). exists a, mb, w. by rewrite web_sleep. Qed.

(** A registration that comes back was made. *)
Lemma create_ends b c n n' :
  lawful_net U n → U (HttpRelay.base_url b) → registrable c →
  HttpRelay.create_mailbox b c n = (Ok tt, n') → lawful_net U n' ∧ registered n' (HttpRelay.base_url b) c.
Proof using L.
  intros Hn Hu Hc E. unfold HttpRelay.create_mailbox in E. apply se_bind_Ok in E as (resp & n1 & E & [= <-]).
  apply (call_ends (lawful_net U)) in E as [Hn1 Hy]; [|intros ? ?; apply lawful_request|intros ? ?; apply lawful_sleep|done].
  split; [done|]. destruct Hy as [(e0 & _ & [=])|[[=]|(px & y0 & n0 & [Hg HU] & Es & Ey)]].
  destruct (HU _ Hu) as [a Ea]. symmetry in Ey. apply checked_Ok in Ey as [-> Hst].
  pose proof (conj eq_refl (post_mailbox [] 0 0 [] [] []) :
    addressed (sent b "POST" "/mailbox" [] [] (Transport.JsonBody (JObj (to_json c))) px) (HttpRelay.base_url b)
      ["mailbox"]%string (PostMailbox 0 0 [] [] [])) as Hadr.
  destruct (exchange_here _ _ _ _ _ _ _ _ Hadr Ea Es) as [(e0 & [=] & _)|(q & cl & Hr & (_ & Hno & Hq) & Ea' & Hans)].
  cbn [sent Transport.rq_method Transport.rq_params] in Hr. inversion Hr; subst.
  match type of Hans with context [serve q ?c0 a] => destruct (serve q c0 a) as [resp' a'] eqn:Eserve end.
  apply (create_own q c) in Eserve as [(j & mb & w0 & -> & Ho)|(st & -> & Hst')];
    [by exists a', mb, w0| |done|by eapply Hg|done|by apply Hno; [|apply not_elem_of_nil]].
  cbn [fst] in Hans. inversion Hans; subst. cbn in Hst. lia.
Qed.

Lemma put_registered b c e n r n' :
  lawful_net U n → registered n (HttpRelay.base_url b) c → HttpRelay.put b c e n = (r, n') →
  registered n' (HttpRelay.base_url b) c.
Proof using.
  intros Hn Hreg E. apply (f_equal snd) in E. rewrite put_state in E. cbn [snd] in E.
  subst n'. apply (call_keeps (λ n, lawful_net U n ∧ registered n (HttpRelay.base_url b) c)); [| |done].
  - intros px n0 [H1 H2]. split; [by apply lawful_request|]. by apply registered_request; [|apply put_gentle|].
  - intros d n0 [H1 H2]. split; [by apply lawful_sleep|by apply registered_sleep].
Qed.

(** How a write to a registered mailbox can fail. *)
Lemma put_fails b c e n x n' :
  lawful_net U n → reaches U b c → registered n (HttpRelay.base_url b) c → HttpRelay.put b c e n = (Err x, n') →
  library_error x = true ∨ x = RelayQuotaExceeded 429 ∨ (x = RelayHTTPError 400 ∧ e = []) ∨
  (x = RelayHTTPError 413 ∧
   ∃ a, relay_at n' (HttpRelay.base_url b) = Some a ∧ max_blob_bytes (a_settings a) < blen e).
Proof using L.
  intros Hn [Hu Hid [px0 Hpx] _] Hreg E. unfold HttpRelay.put in E. fold (put_path (mailbox_id c)) in E.
  unfold se_bind in E. match type of E with context [HttpRelay.call ?b ?m ?p ?h ?ps ?bd n] =>
    destruct (HttpRelay.call b m p h ps bd n) as [y n1] eqn:Ec end.
  apply (call_ends (λ n, lawful_net U n ∧ registered n (HttpRelay.base_url b) c)) in Ec as [_ Hy]; [| | |by split].
  2:{ intros px n0 [H1 H2]. split; [by apply lawful_request|]. by apply registered_request; [|apply put_gentle|]. }
  2:{ intros d n0 [H1 H2]. split; [by apply lawful_sleep|by apply registered_sleep]. }
  destruct Hy as [(e0 & He & _)|[->|(px & y0 & n0 & [[Hg HU] (a & mb & w & Ea & Ho)] & Es & ->)]]; [congruence| |].
  { injection E as <- <-. by left. }
  pose proof (put_addressed b c [] [("X-NK-Write"%string, write_token c)] (Transport.Data e) px Hid) as Hadr.
  destruct (exchange_here _ _ _ _ _ _ _ _ Hadr Ea Es) as [(e0 & -> & He0)|(q & cl & Hr & (Hh & _ & Hq) & Ea' & Hans)].
  { injection E as <- <-. by left. }
  specialize (Hh "X-NK-Write"%string (write_token c) ltac:(by left)).
  inversion Hr; subst. destruct (serve q (PostMessages (mailbox_id c) mono now) a) as [resp a'] eqn:Eserve.
  destruct (serve_footprint q (PostMessages (mailbox_id c) mono now) a) as [Hset _]. rewrite Eserve in Hset.
  cbn [fst snd sent Transport.rq_body body_bytes] in *.
  apply (put_owned q c mono now a resp a' mb w (proj1 (Hg _ _ Ea)) Ho Hh) in Eserve
    as [(k & ->)|[->|[[-> Hq0]|[-> Hq0]]]]; inversion Hans as [? e0 He0|? ? bd Hwf|? ? y Hwf| |? j bd|]; subst.
  all: try (injection E as <- <-; by left).
  - done.
  - destruct Hwf. unfold seq_answer. solve_wf.
  - injection E as <- <-. auto.
  - injection E as <- <-. right. right. left. split; [done|]. congruence.
  - injection E as <- <-. do 3 right. split; [done|]. exists a'. by rewrite Hset.
Qed.
(** C15: a registered mailbox takes what its owner's contacts write.  When the relay told
    the client that its mailbox is registered, the relay knows the tokens of the client's
    own capability.  From every later state in which it still does, a write with the
    capability - tried again when a request or an answer is lost - leaves the mailbox
    registered, and either the relay holds the message under the number it gave, or the
    write failed for the network, for the mailbox's or the sender's quota, or because the
    message is empty or too large: never because the mailbox is missing or its token
    wrong. *)
Theorem registered_accepts b c n n1 :
  lawful_net U n → reaches U b c → registrable c → HttpRelay.create_mailbox b c n = (Ok tt, n1) →
  lawful_net U n1 ∧ registered n1 (HttpRelay.base_url b) c ∧
  ∀ n2 e r n3, lawful_net U n2 → registered n2 (HttpRelay.base_url b) c → HttpRelay.put b c e n2 = (r, n3) →
    registered n3 (HttpRelay.base_url b) c ∧
    match r with
    | Ok k => (k, e) ∈ held n3 (HttpRelay.base_url b) (mailbox_id c)
    | Err x =>
        library_error x = true ∨ x = RelayQuotaExceeded 429 ∨ (x = RelayHTTPError 400 ∧ e = []) ∨
        (x = RelayHTTPError 413 ∧
         ∃ a, relay_at n3 (HttpRelay.base_url b) = Some a ∧ max_blob_bytes (a_settings a) < blen e)
    end.
Proof using L.
  intros Hn Hr Hc E. destruct (create_ends b c n n1 Hn (rc_base _ _ _ Hr) Hc E) as [Hn1 Hreg].
  split_and!; [done..|]. intros n2 e r n3 Hn2 Hreg2 Ep. split; [by eapply put_registered|].
  destruct r as [k|x]; [|by eapply put_fails].
  exact (MultiRelay.put_stores (RelayContract := http_contract U) b c e n2 k n3 Hn2 Hr Ep).
Qed.
End network.

Module Sample.
Import Toy OverHttp.Sample.

Definition backend : HttpRelay.HttpRelayBackend := HttpRelay.new_backend base transport.
(** An empty relay; the first try of the registration is lost, then its answer. *)
Definition fresh : net :=
  {| the_relay := create_app RelayAppProps.Sample.settings empty_db; ahead := [Request_lost; Answer_lost] |}.
Definition known : net := (HttpRelay.create_mailbox backend box_capability fresh).2.

Lemma registered_accepts_witness :
  lawful_net pool_of known ∧ registered known base box_capability ∧
  ∀ n2 e r n3, lawful_net pool_of n2 → registered n2 base box_capability →
    HttpRelay.put backend box_capability e n2 = (r, n3) →
    registered n3 base box_capability ∧
    match r with
    | Ok k => (k, e) ∈ held n3 base (mailbox_id box_capability)
    | Err x =>
        library_error x = true ∨ x = RelayQuotaExceeded 429 ∨ (x = RelayHTTPError 400 ∧ e = []) ∨
        (x = RelayHTTPError 413 ∧ ∃ a, relay_at n3 base = Some a ∧ max_blob_bytes (a_settings a) < blen e)
    end.
Proof.
  apply (registered_accepts pool_of backend box_capability fresh).
  - apply good_lawful. split; [apply empty_db_inv|by vm_compute].
  - apply (box_reaches urls box_capability); [done..|by left].
  - split; [by vm_compute|]. apply printable_wf. by vm_compute.
  - vm_compute. reflexivity.
Defined.
End Sample.
